(* ===== verification/_CoqProject ===== *)
-Q . S2P
Prelude.v
Text.v
Digest.v
Json.v
Instant.v
OutboxApi.v
OutboxStore.v
OutboxAppend.v
OutboxDelivery.v
OutboxOutcome.v
OutboxCustody.v
OutboxSystem.v
OutboxGuarantees.v
OutboxProgress.v
OutboxObserve.v
RateControl.v
ModelApi.v
ModelStore.v
ModelService.v
ModelSetup.v
ModelLedger.v
ModelRefine.v
ModelGuarantees.v
ModelRun.v
ZipSafety.v
Archive.v
ArchiveRead.v
ArchiveGuarantees.v
ArchivePaths.v
ArchiveExport.v
Manifest.v
SubmissionFlow.v
Lifecycle.v
Awards.v
Contributions.v
Acceptance.v
AcceptanceGuarantees.v
AcceptanceRun.v
Rows.v
Paging.v
Bindings.v
PolicyApi.v
PolicyStore.v
PolicyService.v
PolicyEffects.v
PolicyGuarantees.v
PolicyHistory.v
PolicyTerms.v
PolicyDigest.v
PolicyReads.v
PolicyShown.v
PolicyRun.v
ExportCursor.v
ExportStore.v
ExportPages.v
ExportView.v
ExportCsv.v
ExportRun.v
TaskStore.v
TaskCommands.v
TaskInvalidation.v
TaskEffects.v
TaskSystem.v
TaskGuarantees.v
TaskRevocation.v
TaskRun.v
