(* ===== verification/Prelude.v ===== *)
(** * Workstream: a verification development

    Workstream routes tasks to contributors, admits their submissions, evaluates them with model
    calls under a budget, accepts the work, and records what it earned.  Its backend
    (src/backend/app) is a set of modules over one PostgreSQL database; modules call each other
    through ports inside one transaction, or through a transactional outbox.  This library models
    the parts that carry its guarantees as executable functions, follows the source file by file,
    and proves what each part promises.

    ** Parts, files and sources

    - Shared values.  [Prelude]: results of Python calls, automation, generic lemmas.  [Text],
      [Digest], [Instant]: Python's [str], UTF-8, SHA-256 and HMAC, UTC datetimes and their ISO
      texts, as far as the code uses them.  [Json]: core/hashing.py, the canonical JSON every
      sealed record is hashed through.
    - The outbox (modules/outbox, authorization/api/outbox_dispatch.py).  [OutboxApi]: api.py,
      values and payload rules.  [OutboxStore]: models.py, rows and constraints.
      [OutboxAppend]: service.py and repository.py.  [OutboxDelivery]: delivery.py and
      registry.py, the engine that claims, invokes, finalises and recovers.  [OutboxObserve]:
      delivery_repository.py, the readers.  [OutboxOutcome], [OutboxCustody]: what the engine
      decides and what its transactions do to the rows.  [OutboxSystem]: all interleavings of
      appenders and workers, and the abstract life cycle they refine.  [OutboxGuarantees],
      [OutboxProgress]: the theorems for producers, handlers and operators.
    - API rate control (modules/api_controls).  [RateControl].
    - Model usage (modules/model_usage).  [ModelApi]: api.py.  [ModelStore]: models.py and
      repository.py.  [ModelService], [ModelSetup]: service.py, profiles.py and setup.py, the
      two services that reserve, dispatch and settle model calls.  [ModelLedger]: the ledger they
      share as an abstract machine with its invariant; [ModelRefine]: every operation is a
      sequence of its moves; [ModelGuarantees], [ModelRun]: the theorems and a concrete run.
    - Submissions (modules/artifacts, core/zip_safety.py).  [ZipSafety]: the end records of a
      ZIP.  [Archive], [ArchiveRead], [ArchiveGuarantees]: inspection of an uploaded archive.
      [ArchivePaths]: the paths it reports, from the laws of Unicode normal form C.
      [ArchiveExport]: export into a scratch workspace, read-back and the sealed tree.
      [Manifest]: submission_manifest.py, the canonical manifest and the change gate.
      [SubmissionFlow]: the three composed.
    - Acceptance (modules/reviews, modules/tasks, modules/contributions, modules/compensation).
      [Lifecycle]: the controller that decides whether acceptance may have effects.  [Awards]:
      compensation/awards.  [Contributions]: contributions/records, proved against the interface
      [AwardPort] that [Awards] implements.  [Acceptance]: reviews/acceptance and
      tasks/accepted_effects.py, the transaction that composes them, with the routing predicate
      of the schema (revisions 0030, 0032, 0039).  [AcceptanceGuarantees],
      [AcceptanceRun]: the theorems and a concrete run.
    - Contribution policies (modules/contributions, contributions/units, modules/compensation).  [Rows], [Paging]:
      tables as lists of rows and keyset paging, shared.  [Bindings]: the adapter bindings a policy names and their life cycle.
      [PolicyApi]: the requests and values.  [PolicyStore]: rows and constraints of the policy
      graph.  [PolicyService]: create, save, publish, retire and the unit registry, each a whole
      transaction with its audit and receipt.  [PolicyEffects], [PolicyGuarantees]: what each
      transaction does to the graph; [PolicyHistory]: every sequence of them.  [PolicyTerms],
      [PolicyDigest]: the terms a version carries and the digest that seals them.  [PolicyReads]:
      the readers and their pages.  [PolicyShown]: what a contributor is shown against what
      acceptance pays.  [PolicyRun]: a concrete run.
    - Contribution exports (contributions/records, contributions/api/records.py).
      [ExportCursor]: signed cursors.  [ExportStore]: requests, snapshots and their slots, pages.
      [ExportPages]: following the pages of a snapshot.  [ExportView]: the service that joins
      acceptances, awards and frozen terms into the records shown.  [ExportCsv]: the CSV
      rendering and a reader for it.  [ExportRun]: a concrete run.
    - Tasks and assignments (modules/tasks, the guard of authorization/domain/task_authority.py,
      the checks of audit/schemas.py and adapters/audit).  [TaskStore]: models.py, repository.py
      and lifecycle.py, rows and constraints.  [TaskCommands]: service.py, command_replay.py and
      authorized_commands.py, the four commands with their receipts.  [TaskInvalidation]:
      assignment_invalidation.py and its publication, how a contributor who lost the authority to
      submit loses the task.  [TaskEffects]: what each command does.  [TaskSystem]: all
      interleavings of commands, revocations and the writers behind a claim, and their invariant.
      [TaskGuarantees], [TaskRevocation], [TaskRun]: the theorems and a concrete run.

    ** Conventions

    Functions and fields keep the names of the source; a leading underscore is the source's.
    A UUID is its 128-bit integer, a timestamp the number of microseconds since year 1, money an
    integer of nano-dollars or a decimal with its scale; bounded columns keep their bounds as
    checks.  A call that may raise returns [result]; [Raise] is an exception, and since callers
    roll back, a call that raises changes no table.  A table is a finite map or a list, with its
    CHECK and UNIQUE constraints as a condition on every write.  A transaction is a function from
    a database to a result and a database; where the code opens several transactions the model is
    split there, and the system theorems interleave them freely.

    What the code takes from outside is an argument: clock readings, new identities, what a
    session or connection reports, answers of the authority and evidence ports, event handlers,
    and what [zipfile], [zlib] and [unicodedata] return.  The theorems quantify over these, and
    name the documented behaviour they need where they need any ([zlib_ok] of a decompressor, [NormalForm] of a normalisation).
    Foreign keys and triggers of the schema are an arbitrary further condition on a write
    ([ca_admits], [ai_admits] and the like), so a safety theorem holds whatever they refuse.  Row
    and advisory locks are not modelled: one function is one serialised transaction.  Nothing is
    assumed about SHA-256; statements that need it exhibit the colliding inputs.

    ** Theorems

    Safety and invariants: budgets conserved and run ceilings kept in every reachable ledger; at
    most one invocation per generation, exclusive leases, final closing and custody in every
    reachable outbox; the books of acceptances, contributions and awards agree in every reachable
    database, and the lifecycle history is complete; a published policy version never changes,
    its resources were active when it was published, and what contributors are shown of it is
    what acceptance pays; in every reachable database a task being worked on is held by exactly one
    contributor, claims of a task alternate with releases, and a command has one effect for one
    key; adapter bindings and policies keep their life cycles; archives have no hidden byte and an
    unambiguous inventory, sealed trees hold what was committed; rate windows are exact.
    Refinement: the delivery engine implements the event life cycle, the two model services the
    ledger machine.  Functional behaviour and replay: append, finalisation, completion,
    acceptance, participation, awards, lifecycle transitions and policy commands, on success and
    on repetition; readers return the rows they name, and following their cursors lists each row
    once; an export walks exactly the snapshot its first page took, and each of its records
    agrees with the rows of acceptance, awards and terms it stands for; a task command is repeated
    with its first response; a revocation is published for exactly the assignments it is about, and
    its event releases each of them once, however often and late it is delivered again.  Round
    trips: canonical JSON, ISO instants, quantities, ZIP end records, manifests, signed cursors, CSV
    exports without formulas.  Bounds and termination: payload budgets, reservations, attempts, inflation, candidate paging.  Progress:
    a due event is delivered and an expired lease is released.  Three deviations are theorems too:
    inspection does not enforce the entry limit that export enforces ([entry_limit_gap]), the raw
    digest check of the model services is more lenient than the pattern ([sha_check]), and
    retiring a policy strands its open draft ([retire_strands_draft]).

    ** Bounds and fuel

    Recursion that is not structural carries fuel, and the fuel is proved sufficient: the JSON
    reader gets the length of its text, the inflation loop the number of bytes it may still
    produce and consume, candidate paging and the publication of a revocation the number of rows.

    ** Not modelled

    HTTP routes, adapters, workers and sessions are glue and I/O.  Object storage and the
    projection of a ZIP into a directory are I/O.  The authorization kernel is behind the ports.
    The SQL of the schema revisions enters through the conditions above, except for the functions
    named in the files.  Checkers supervise processes and call providers.  Submission
    creation, post-submit routing and revisions enter the task system by what they write to tasks
    and assignments and the state they check; these workflows themselves, human review, and
    model-usage grants and inspection are separate components of which the parts above see only
    the values passed to them; they are outside the scope of this library.  Batch screening and
    release of tasks, imports of tasks and the task reads are neither modelled nor steps of the
    task system: its theorems are about the single commands, revocations and the writers behind a
    claim. *)

From Stdlib Require Export ZArith Lia.
From stdpp Require Export sorting.
From stdpp Require Export base gmap strings option list.

#[export] Set Default Goal Selector "!".
Global Open Scope Z_scope.

(** ** Results: Python calls that may raise *)

(** [Ok a] is a normal return; [Raise e] an exception that leaves the call. *)
Inductive result (E A : Type) : Type :=
| Ok (a : A)
| Raise (e : E).
Arguments Ok {_ _} _.
Arguments Raise {_ _} _.

#[export] Instance result_ret E : MRet (result E) := λ _, Ok.
#[export] Instance result_bind E : MBind (result E) := λ _ _ f m,
  match m with Ok a => f a | Raise e => Raise e end.
#[export] Instance result_fmap E : FMap (result E) := λ _ _ f m,
  match m with Ok a => Ok (f a) | Raise e => Raise e end.

(** [ensure b e] is [if not b: raise e]. *)
Definition ensure {E} (b : bool) (e : E) : result E unit :=
  if b then Ok tt else Raise e.

Definition is_ok {E A} (r : result E A) : bool :=
  match r with Ok _ => true | Raise _ => false end.

Lemma ensure_Ok {E} (b : bool) (e : E) x : ensure b e = Ok x → b = true.
Proof. by destruct b. Qed.

Lemma ensure_bind_Ok {E A} (b : bool) (e : E) (k : unit → result E A) a :
  (ensure b e ≫= k) = Ok a ↔ b = true ∧ k tt = Ok a.
Proof. destruct b; simpl; naive_solver. Qed.

Lemma result_bind_Ok {E A B} (m : result E A) (f : A → result E B) b :
  (m ≫= f) = Ok b ↔ ∃ a, m = Ok a ∧ f a = Ok b.
Proof. destruct m; simpl; naive_solver. Qed.

Lemma Ok_inj {E A} (a b : A) : Ok (E:=E) a = Ok b → a = b.
Proof. congruence. Qed.

Definition oget {E A} (o : option A) (e : E) : result E A :=
  match o with Some a => Ok a | None => Raise e end.

Lemma oget_Ok {E A} (o : option A) (e : E) a : oget o e = Ok a ↔ o = Some a.
Proof. destruct o; simpl; naive_solver. Qed.

(** Rewriting rules for single steps, for goals whose arguments must not be computed. *)
Lemma bind_Ok {E A B} (a : A) (f : A → result E B) : (Ok a ≫= f) = f a.
Proof. done. Qed.

Lemma bind_oget {E A B} (a : A) (e : E) (f : A → result E B) : (oget (Some a) e ≫= f) = f a.
Proof. done. Qed.

(** [run] unfolds the monad and nothing else. *)
Ltac run := cbn [mbind mret fmap result_bind result_ret result_fmap ensure oget negb orb andb fst snd].
Tactic Notation "run" "in" hyp(H) :=
  cbn [mbind mret fmap result_bind result_ret result_fmap ensure oget negb orb andb fst snd] in H.

(** ** Sums *)

Definition sumZ (l : list Z) : Z := foldr Z.add 0 l.

Lemma sumZ_app l k : sumZ (l ++ k) = sumZ l + sumZ k.
Proof. induction l as [|x l IH]; simpl; [done|]. rewrite IH. lia. Qed.

#[export] Instance sumZ_Permutation : Proper ((≡ₚ) ==> (=)) sumZ.
Proof. induction 1; simpl; lia. Qed.

(** [filter] of the Standard Library respects permutations, as stdpp's does. *)
#[export] Instance bool_filter_Permutation {A} (f : A → bool) :
  Proper ((≡ₚ) ==> (≡ₚ)) (List.filter f).
Proof.
  induction 1 as [|x l k _ IH|x y l|l k m _ IH1 _ IH2]; cbn; [done| | |by etrans].
  - destruct (f x); [by constructor|done].
  - destruct (f x), (f y); try done. by constructor.
Qed.

(** The state a call leaves *)
Definition state_of {E R S} (res : result E (R * S)) (s : S) : S :=
  match res with Ok (_, s') => s' | Raise _ => s end.

Lemma state_of_Ok {E R S} (res : result E (R * S)) s :
  is_ok res = true → ∃ r, res = Ok (r, state_of res s).
Proof. destruct res as [[r s']|]; [|done]. by exists r. Qed.
