(* ===== verification/Text.v ===== *)
(** * Python text: [str], UTF-8, decimal and hexadecimal numerals

    A Python [str] is the list of its code points and a [bytes] value the list
    of its octets.  This file holds what the modelled code uses of the
    language's text library: [str.encode("utf-8")], [str(int)], [int.to_bytes],
    [bytes.hex], comparison of strings and the character classes of the regular
    expressions, with the round trips the other components rely on. *)

From S2P Require Import Prelude.

Abbreviation str := (list Z).
Abbreviation bytes := (list Z).

(** A string literal of the source, as its code points. *)
Fixpoint lit (s : string) : str :=
  match s with
  | EmptyString => []
  | String a s' => Z.of_N (Ascii.N_of_ascii a) :: lit s'
  end.

Definition code_point (c : Z) : bool := (0 <=? c) && (c <? 0x110000).
Definition is_str (s : str) : bool := forallb code_point s.
Definition is_byte (b : Z) : bool := (0 <=? b) && (b <? 256).

(** ** UTF-8 *)

Definition surrogate (c : Z) : bool := (0xD800 <=? c) && (c <=? 0xDFFF).

(** The UTF-8 octets of one code point; lone surrogates have none and make
    [str.encode] raise [UnicodeEncodeError]. *)
Definition utf8_char (c : Z) : option bytes :=
  if c <? 0x80 then Some [c]
  else if c <? 0x800 then Some [0xC0 + c / 64; 0x80 + c mod 64]
  else if c <? 0x10000 then
    if surrogate c then None
    else Some [0xE0 + c / 4096; 0x80 + (c / 64) mod 64; 0x80 + c mod 64]
  else Some [0xF0 + c / 262144; 0x80 + (c / 4096) mod 64;
             0x80 + (c / 64) mod 64; 0x80 + c mod 64].

Fixpoint utf8_encode (s : str) : option bytes :=
  match s with
  | [] => Some []
  | c :: s' =>
      match utf8_char c, utf8_encode s' with
      | Some b, Some bs => Some (b ++ bs)
      | _, _ => None
      end
  end.

(** The first code point of well-formed UTF-8, used to show the encoding is
    injective. *)
Definition utf8_head (b : bytes) : option (Z * bytes) :=
  match b with
  | [] => None
  | b0 :: r0 =>
      if b0 <? 0x80 then Some (b0, r0)
      else match r0 with
      | [] => None
      | b1 :: r1 =>
          if b0 <? 0xE0 then Some ((b0 - 0xC0) * 64 + (b1 - 0x80), r1)
          else match r1 with
          | [] => None
          | b2 :: r2 =>
              if b0 <? 0xF0
              then Some ((b0 - 0xE0) * 4096 + (b1 - 0x80) * 64 + (b2 - 0x80), r2)
              else match r2 with
              | [] => None
              | b3 :: r3 =>
                  Some ((b0 - 0xF0) * 262144 + (b1 - 0x80) * 4096
                        + (b2 - 0x80) * 64 + (b3 - 0x80), r3)
              end
          end
      end
  end.

(** ** Numerals *)

Fixpoint dec_loop (fuel : nat) (n : Z) (acc : str) : str :=
  match fuel with
  | O => acc
  | S f => if n <? 10 then (48 + n) :: acc
           else dec_loop f (n / 10) ((48 + n mod 10) :: acc)
  end.

(** [str(n)] for [n >= 0]; [Z.log2 n + 1] digits are always enough. *)
Definition dec_nonneg (n : Z) : str := dec_loop (S (Z.to_nat (Z.log2 n))) n [].

(** [str(n)] for a Python [int]. *)
Definition str_int (n : Z) : str :=
  if n <? 0 then 45 :: dec_nonneg (- n) else dec_nonneg n.

Definition is_digit (c : Z) : bool := (48 <=? c) && (c <=? 57).
Definition digits_value (ds : str) : Z := fold_left (λ a d, 10 * a + (d - 48)) ds 0.

(** A decimal numeral of exactly [k] digits, zero padded ([f"{n:0kd}"]). *)
Fixpoint pad_dec (k : nat) (n : Z) : str :=
  match k with
  | O => []
  | S k' => pad_dec k' (n / 10) ++ [48 + n mod 10]
  end.

Definition hex_digit (d : Z) : Z := if d <? 10 then 48 + d else 87 + d.
Definition is_hex_digit (c : Z) : bool :=
  is_digit c || ((97 <=? c) && (c <=? 102)).
Definition unhex_digit (c : Z) : Z := if c <? 58 then c - 48 else c - 87.

(** [bytes.hex()] *)
Fixpoint hex_bytes (b : bytes) : str :=
  match b with
  | [] => []
  | x :: b' => hex_digit (x / 16) :: hex_digit (x mod 16) :: hex_bytes b'
  end.

(** [int.to_bytes(k, "big")] for a value that fits. *)
Fixpoint to_bytes_be (k : nat) (n : Z) : bytes :=
  match k with
  | O => []
  | S k' => to_bytes_be k' (n / 256) ++ [n mod 256]
  end.

(** [int.from_bytes(b, "little")] *)
Fixpoint from_bytes_le (b : bytes) : Z :=
  match b with
  | [] => 0
  | x :: b' => x + 256 * from_bytes_le b'
  end.

(** ** Order of strings (code point order, as Python compares [str]) *)

Fixpoint str_ltb (a b : str) : bool :=
  match a, b with
  | _, [] => false
  | [], _ :: _ => true
  | x :: a', y :: b' => (x <? y) || ((x =? y) && str_ltb a' b')
  end.

Definition str_leb (a b : str) : bool := negb (str_ltb b a).
Definition str_eqb (a b : str) : bool := bool_decide (a = b).

(** ** Character classes of the source's regular expressions *)

Definition is_lower (c : Z) : bool := (97 <=? c) && (c <=? 122).
Definition is_upper (c : Z) : bool := (65 <=? c) && (c <=? 90).
Definition is_alpha (c : Z) : bool := is_lower c || is_upper c.
Definition is_alnum (c : Z) : bool := is_alpha c || is_digit c.

(** [[A-Za-z0-9._:-]] *)
Definition token_char (c : Z) : bool :=
  is_alnum c || (c =? 46) || (c =? 95) || (c =? 58) || (c =? 45).

Definition len (s : list Z) : Z := Z.of_nat (length s).

(** ** UTF-8 is injective *)

Ltac byte_cases :=
  repeat match goal with
  | |- context [?a <? ?b] => destruct (Z.ltb_spec a b)
  | H : context [?a <? ?b] |- _ => destruct (Z.ltb_spec a b)
  end.

Lemma utf8_head_char c b r :
  code_point c = true → utf8_char c = Some b → utf8_head (b ++ r) = Some (c, r).
Proof.
  unfold code_point, utf8_char. intros Hc H.
  apply andb_prop in Hc as [Hc1%Z.leb_le Hc2%Z.ltb_lt].
  byte_cases; [| |destruct (surrogate c); [done|]|]; injection H as <-; simpl;
    byte_cases; try (Z.to_euclidean_division_equations; lia);
    do 2 f_equal; Z.to_euclidean_division_equations; lia.
Qed.

Lemma utf8_char_nonempty c b : utf8_char c = Some b → b ≠ [].
Proof.
  unfold utf8_char. intros H.
  byte_cases; [| |destruct (surrogate c); [done|]|]; by injection H as <-.
Qed.

Lemma utf8_encode_inj s1 s2 b :
  is_str s1 = true → is_str s2 = true →
  utf8_encode s1 = Some b → utf8_encode s2 = Some b → s1 = s2.
Proof.
  revert s2 b. induction s1 as [|c s1 IH]; intros [|c2 s2] b; simpl; intros W1 W2 H1 H2.
  - done.
  - destruct (utf8_char c2) as [b2|] eqn:E; [|done].
    apply utf8_char_nonempty in E. destruct (utf8_encode s2); [|done].
    destruct b2; simplify_eq.
  - destruct (utf8_char c) as [b1|] eqn:E; [|done].
    apply utf8_char_nonempty in E. destruct (utf8_encode s1); [|done].
    destruct b1; simplify_eq.
  - apply andb_prop in W1 as [W1 W1'], W2 as [W2 W2'].
    destruct (utf8_char c) as [b1|] eqn:E1; [|done].
    destruct (utf8_encode s1) as [r1|] eqn:R1; [|done].
    destruct (utf8_char c2) as [b2|] eqn:E2; [|done].
    destruct (utf8_encode s2) as [r2|] eqn:R2; [|done].
    injection H1 as <-. injection H2 as Hb.
    pose proof (utf8_head_char _ _ r1 W1 E1) as P1.
    pose proof (utf8_head_char _ _ r2 W2 E2) as P2.
    rewrite Hb, P1 in P2. injection P2 as -> ->.
    f_equal. eauto.
Qed.

Lemma utf8_encode_app s1 s2 :
  utf8_encode (s1 ++ s2) =
    match utf8_encode s1, utf8_encode s2 with
    | Some a, Some b => Some (a ++ b) | _, _ => None end.
Proof.
  induction s1 as [|c s1 IH]; simpl.
  - by destruct (utf8_encode s2).
  - rewrite IH. destruct (utf8_char c); [|done].
    destruct (utf8_encode s1), (utf8_encode s2); try done. by rewrite app_assoc.
Qed.

(** ASCII text encodes to itself. *)
Lemma utf8_encode_ascii s :
  Forall (λ c, 0 ≤ c < 128) s → utf8_encode s = Some s.
Proof.
  induction 1 as [|c s Hc _ IH]; [done|]. simpl. unfold utf8_char.
  destruct (Z.ltb_spec c 128); [|lia]. by rewrite IH.
Qed.

(** ** Decimal numerals *)

Lemma digits_value_app ds1 ds2 :
  digits_value (ds1 ++ ds2) = digits_value ds1 * 10 ^ len ds2 + digits_value ds2.
Proof.
  unfold digits_value, len. rewrite fold_left_app.
  generalize (fold_left (λ a d, 10 * a + (d - 48)) ds1 0). intros a.
  assert (∀ a ds, fold_left (λ a d, 10 * a + (d - 48)) ds a
    = a * 10 ^ Z.of_nat (length ds) + fold_left (λ a d, 10 * a + (d - 48)) ds 0) as Hgen;
    [|apply Hgen].
  clear. intros a ds. revert a. induction ds as [|d ds IH]; intros a; cbn [fold_left length].
  - rewrite Z.pow_0_r. lia.
  - rewrite IH, (IH (10 * 0 + (d - 48))), Nat2Z.inj_succ, Z.pow_succ_r by lia. ring.
Qed.

Lemma dec_loop_value f n acc :
  0 ≤ n < 2 ^ Z.of_nat f →
  digits_value (dec_loop f n acc) = n * 10 ^ len acc + digits_value acc.
Proof.
  revert n acc. induction f as [|f IH]; intros n acc Hn.
  { change (Z.of_nat 0) with 0 in Hn. simpl. assert (n = 0) as -> by lia. lia. }
  simpl. rewrite Nat2Z.inj_succ, Z.pow_succ_r in Hn by lia.
  destruct (Z.ltb_spec n 10).
  - change ((48 + n) :: acc) with ([48 + n] ++ acc). rewrite digits_value_app.
    unfold digits_value at 1. simpl. f_equal. f_equal. lia.
  - rewrite IH by (Z.to_euclidean_division_equations; lia).
    change ((48 + n mod 10) :: acc) with ([48 + n mod 10] ++ acc).
    rewrite digits_value_app. unfold len, digits_value at 1. cbn [length app fold_left].
    rewrite Nat2Z.inj_succ, Z.pow_succ_r by lia.
    rewrite (Z.div_mod n 10) at 3 by lia. ring.
Qed.

Lemma dec_nonneg_value n : 0 ≤ n → digits_value (dec_nonneg n) = n.
Proof.
  intros Hn. unfold dec_nonneg. rewrite dec_loop_value.
  - unfold len, digits_value. simpl. lia.
  - split; [done|]. rewrite Nat2Z.inj_succ, Z2Nat.id by apply Z.log2_nonneg.
    destruct (decide (n = 0)) as [->|]; [done|]. apply Z.log2_spec. lia.
Qed.

Lemma dec_loop_digits f n acc :
  0 ≤ n → forallb is_digit acc = true → forallb is_digit (dec_loop f n acc) = true.
Proof.
  revert n acc. induction f as [|f IH]; intros n acc Hn Hacc; [done|]. simpl.
  destruct (Z.ltb_spec n 10).
  - simpl. rewrite Hacc. unfold is_digit. lia.
  - apply IH; [Z.to_euclidean_division_equations; lia|]. simpl. rewrite Hacc.
    unfold is_digit. Z.to_euclidean_division_equations; lia.
Qed.

(** The first digit is zero only for the numeral of zero. *)
Lemma dec_loop_head f n acc :
  0 ≤ n < 2 ^ Z.of_nat f → (0 < f)%nat →
  ∃ d ds, dec_loop f n acc = d :: ds ∧ (n ≠ 0 → d ≠ 48) ∧ (n = 0 → d = 48 ∧ ds = acc).
Proof.
  revert n acc. induction f as [|f IH]; intros n acc Hn Hf; [lia|]. simpl.
  rewrite Nat2Z.inj_succ, Z.pow_succ_r in Hn by lia.
  destruct (Z.ltb_spec n 10).
  - exists (48 + n), acc. split_and!; [done|lia|]. intros ->. done.
  - destruct f as [|f]; [change (Z.of_nat 0) with 0 in Hn; lia|].
    destruct (IH (n / 10) ((48 + n mod 10) :: acc)) as (d & ds & -> & H1 & H2).
    + Z.to_euclidean_division_equations; lia.
    + lia.
    + exists d, ds. split_and!; [done| |lia]. intros _. apply H1.
      Z.to_euclidean_division_equations; lia.
Qed.

Lemma dec_nonneg_shape n :
  0 ≤ n →
  forallb is_digit (dec_nonneg n) = true ∧
  ∃ d ds, dec_nonneg n = d :: ds ∧ (n ≠ 0 → d ≠ 48) ∧ (n = 0 → d = 48 ∧ ds = []).
Proof.
  intros Hn. split; [by apply dec_loop_digits|].
  apply dec_loop_head; [|lia].
  split; [done|]. rewrite Nat2Z.inj_succ, Z2Nat.id by apply Z.log2_nonneg.
  destruct (decide (n = 0)) as [->|]; [done|]. apply Z.log2_spec. lia.
Qed.

Lemma str_int_ascii n : Forall (λ c, 0 ≤ c < 128) (str_int n).
Proof.
  assert (∀ m, 0 ≤ m → Forall (λ c, 0 ≤ c < 128) (dec_nonneg m)) as Hd.
  { intros m Hm. destruct (dec_nonneg_shape m Hm) as [Hd _]. apply Forall_forall.
    intros c Hc. rewrite forallb_forall in Hd. apply list_elem_of_In, Hd in Hc.
    unfold is_digit in Hc. lia. }
  unfold str_int. destruct (Z.ltb_spec n 0); [|by apply Hd].
  apply Forall_cons_2; [lia|apply Hd; lia].
Qed.

Lemma pad_dec_length k n : length (pad_dec k n) = k.
Proof. revert n. induction k; intros n; simpl; rewrite ?length_app, ?IHk; simpl; lia. Qed.

Lemma pad_dec_digits k n : forallb is_digit (pad_dec k n) = true.
Proof.
  revert n. induction k as [|k IH]; intros n; [done|]. simpl.
  rewrite forallb_app, IH. simpl. unfold is_digit.
  pose proof (Z.mod_pos_bound n 10). lia.
Qed.

Lemma pad_dec_value k n : 0 ≤ n < 10 ^ Z.of_nat k → digits_value (pad_dec k n) = n.
Proof.
  revert n. induction k as [|k IH]; intros n Hn.
  { change (Z.of_nat 0) with 0 in Hn. change (digits_value (pad_dec 0 n)) with 0. lia. }
  rewrite Nat2Z.inj_succ, Z.pow_succ_r in Hn by lia. simpl.
  rewrite digits_value_app, IH by (Z.to_euclidean_division_equations; lia).
  unfold len, digits_value. simpl. change (10 ^ 1) with 10.
  Z.to_euclidean_division_equations; lia.
Qed.

(** ** Hexadecimal and big-endian numerals *)

Lemma hex_bytes_inj a b :
  forallb is_byte a = true → forallb is_byte b = true → hex_bytes a = hex_bytes b → a = b.
Proof.
  revert b. induction a as [|x a IH]; intros [|y b]; simpl; try done.
  intros [Hx Ha]%andb_prop [Hy Hb]%andb_prop H. injection H as H1 H2 H3.
  unfold is_byte in *. unfold hex_digit in *.
  f_equal; [|by apply IH].
  byte_cases; Z.to_euclidean_division_equations; lia.
Qed.

Lemma hex_bytes_length b : length (hex_bytes b) = (2 * length b)%nat.
Proof. induction b; simpl; lia. Qed.

Lemma hex_bytes_digits b :
  forallb is_byte b = true → forallb is_hex_digit (hex_bytes b) = true.
Proof.
  induction b as [|x b IH]; [done|]. simpl. intros [Hx Hb]%andb_prop. rewrite IH by done.
  unfold is_byte, is_hex_digit, is_digit, hex_digit in *.
  byte_cases; Z.to_euclidean_division_equations; lia.
Qed.

Lemma to_bytes_be_length k n : length (to_bytes_be k n) = k.
Proof. revert n. induction k; intros n; simpl; rewrite ?length_app, ?IHk; simpl; lia. Qed.

Lemma to_bytes_be_bytes k n : forallb is_byte (to_bytes_be k n) = true.
Proof.
  revert n. induction k as [|k IH]; intros n; [done|]. simpl.
  rewrite forallb_app, IH. simpl. unfold is_byte.
  pose proof (Z.mod_pos_bound n 256). lia.
Qed.

Lemma to_bytes_be_inj k n m :
  0 ≤ n < 256 ^ Z.of_nat k → 0 ≤ m < 256 ^ Z.of_nat k →
  to_bytes_be k n = to_bytes_be k m → n = m.
Proof.
  revert n m. induction k as [|k IH]; intros n m Hn Hm.
  { change (Z.of_nat 0) with 0 in *. lia. }
  rewrite Nat2Z.inj_succ, Z.pow_succ_r in Hn, Hm by lia. simpl.
  intros [H1 [= H2]]%app_inj_2; [|done].
  apply IH in H1; Z.to_euclidean_division_equations; lia.
Qed.

Lemma from_bytes_le_bound b :
  forallb is_byte b = true → 0 ≤ from_bytes_le b < 256 ^ len b.
Proof.
  unfold len. induction b as [|x b IH]; [done|]. intros [Hx Hb]%andb_prop.
  specialize (IH Hb). unfold is_byte in Hx. cbn [length from_bytes_le].
  rewrite Nat2Z.inj_succ, Z.pow_succ_r by lia. lia.
Qed.

(** ** The order of strings is total *)

Lemma str_ltb_irrefl a : str_ltb a a = false.
Proof. induction a as [|x a IH]; [done|]. simpl. rewrite IH. lia. Qed.

Lemma str_ltb_trans a b c : str_ltb a b = true → str_ltb b c = true → str_ltb a c = true.
Proof.
  revert b c. induction a as [|x a IH]; intros [|y b] [|z c]; simpl; try done.
  intros H1 H2. destruct (Z.ltb_spec x y), (Z.ltb_spec y z); simpl in *.
  - destruct (Z.ltb_spec x z); [done|lia].
  - apply andb_prop in H2 as [H2 _]. destruct (Z.ltb_spec x z); [done|lia].
  - apply andb_prop in H1 as [H1 _]. destruct (Z.ltb_spec x z); [done|lia].
  - apply andb_prop in H1 as [H1 H1'], H2 as [H2 H2'].
    rewrite (IH _ _ H1' H2'). lia.
Qed.

Lemma str_ltb_total a b : str_ltb a b = false → str_ltb b a = false → a = b.
Proof.
  revert b. induction a as [|x a IH]; intros [|y b]; simpl; try done.
  intros [H1 H1']%orb_false_elim [H2 H2']%orb_false_elim.
  apply Z.ltb_ge in H1, H2. assert (x = y) as -> by lia.
  rewrite Z.eqb_refl in *. f_equal. by apply IH.
Qed.

#[export] Instance str_leb_total : Total str_leb.
Proof.
  intros a b. unfold str_leb. destruct (str_ltb b a) eqn:E; [|by left].
  right. destruct (str_ltb a b) eqn:E'; [|done].
  pose proof (str_ltb_trans _ _ _ E' E) as H. by rewrite str_ltb_irrefl in H.
Qed.

(** ** Other string operations *)

(** [s.split(sep)] for a one-character separator. *)
Fixpoint str_split (sep : Z) (s : str) : list str :=
  match s with
  | [] => [[]]
  | c :: s' =>
      if c =? sep then [] :: str_split sep s'
      else match str_split sep s' with
           | w :: ws => (c :: w) :: ws
           | [] => [[c]]
           end
  end.

Fixpoint starts_with (p s : str) : bool :=
  match p, s with
  | [], _ => true
  | x :: p', y :: s' => (x =? y) && starts_with p' s'
  | _, _ => false
  end.

(** [p in s] *)
Fixpoint contains (p s : str) : bool :=
  starts_with p s || match s with [] => false | _ :: s' => contains p s' end.

(** [s.endswith(p)] *)
Definition ends_with (p s : str) : bool := starts_with (rev p) (rev s).

Definition str_in (s : str) (l : list str) : bool := existsb (str_eqb s) l.

(** [re.fullmatch(first rest{lo,hi}, s)] for two character classes. *)
Definition match_token (first rest : Z → bool) (lo hi : Z) (s : str) : bool :=
  match s with
  | [] => false
  | c :: s' => first c && forallb rest s' && (lo <=? len s') && (len s' <=? hi)
  end.

(** [^sha256:[0-9a-f]{64}$] *)
Definition digest_pattern (s : str) : bool :=
  starts_with (lit "sha256:") s && forallb is_hex_digit (drop 7 s) && (len s =? 71).

Lemma starts_with_take p s : starts_with p s = true → take (length p) s = p.
Proof.
  revert s. induction p as [|x p IH]; intros [|y s]; cbn; try done.
  intros [->%Z.eqb_eq H]%andb_true_iff. f_equal. by apply IH.
Qed.

(** ** Numerals that are read back *)

Lemma pad_dec_of_digits ds : forallb is_digit ds = true → pad_dec (length ds) (digits_value ds) = ds.
Proof.
  induction ds as [|d ds IH] using rev_ind; [done|]. rewrite forallb_app. intros [H1 H2]%andb_prop.
  assert (is_digit d = true) as Hd by (cbn in H2; by apply andb_prop in H2 as [? _]).
  rewrite length_app, digits_value_app, Nat.add_comm. cbn [length Nat.add pad_dec].
  change (10 ^ len [d]) with 10. change (digits_value [d]) with (10 * 0 + (d - 48)). unfold is_digit in Hd.
  replace ((digits_value ds * 10 + (10 * 0 + (d - 48))) / 10) with (digits_value ds)
    by (Z.to_euclidean_division_equations; lia).
  rewrite IH by done. f_equal. f_equal. Z.to_euclidean_division_equations; lia.
Qed.

Lemma digits_value_range ds : forallb is_digit ds = true → 0 ≤ digits_value ds < 10 ^ len ds.
Proof.
  induction ds as [|d ds IH] using rev_ind; [done|]. rewrite forallb_app. intros [H1 H2]%andb_prop.
  assert (is_digit d = true) as Hd by (cbn in H2; by apply andb_prop in H2 as [? _]). unfold is_digit in Hd.
  specialize (IH H1). rewrite digits_value_app. unfold len in *. rewrite length_app. cbn [length].
  rewrite Nat2Z.inj_add. change (Z.of_nat 1) with 1. rewrite Z.pow_add_r by lia. change (10 ^ 1) with 10.
  change (digits_value [d]) with (10 * 0 + (d - 48)). nia.
Qed.

(** A numeral without leading zero is at least a power of ten. *)
Lemma digits_value_lower d ds :
  forallb is_digit (d :: ds) = true → d ≠ 48 → 10 ^ len ds ≤ digits_value (d :: ds).
Proof.
  cbn [forallb]. intros [Hd Hds]%andb_prop Hne. pose proof (digits_value_range ds Hds) as H.
  change (d :: ds) with ([d] ++ ds). rewrite digits_value_app. unfold is_digit in Hd.
  change (digits_value [d]) with (10 * 0 + (d - 48)). nia.
Qed.

(** [str(int(s)) = s] for a numeral without leading zero. *)
Lemma dec_nonneg_of_digits d ds :
  forallb is_digit (d :: ds) = true → d ≠ 48 → dec_nonneg (digits_value (d :: ds)) = d :: ds.
Proof.
  intros Hd Hne. pose proof (digits_value_lower d ds Hd Hne) as Hlow.
  pose proof (digits_value_range _ Hd) as Hr. set (n := digits_value (d :: ds)) in *.
  assert (0 < n) as Hn by (pose proof (Z.pow_pos_nonneg 10 (len ds)); unfold len in *; lia).
  destruct (dec_nonneg_shape n) as [Hdig (e & es & He & Hhead & _)]; [lia|]. rewrite He in *.
  pose proof (digits_value_lower e es Hdig (Hhead ltac:(lia))) as Hlow'.
  pose proof (digits_value_range _ Hdig) as Hr'. rewrite <- He, dec_nonneg_value in Hlow', Hr' by lia.
  assert (length es = length ds) as Hlen.
  { rewrite He in Hr'. unfold len in *. cbn [length] in *. rewrite !Nat2Z.inj_succ in *.
    destruct (Nat.lt_trichotomy (length es) (length ds)) as [H|[H|H]]; [|done|].
    - assert (10 ^ Z.succ (Z.of_nat (length es)) ≤ 10 ^ Z.of_nat (length ds)) by (apply Z.pow_le_mono_r; lia). lia.
    - assert (10 ^ Z.succ (Z.of_nat (length ds)) ≤ 10 ^ Z.of_nat (length es)) by (apply Z.pow_le_mono_r; lia). lia. }
  rewrite <- (pad_dec_of_digits _ Hdig), <- (pad_dec_of_digits _ Hd). cbn [length]. rewrite Hlen.
  by rewrite <- He, dec_nonneg_value by lia.
Qed.
