(* ===== verification/Digest.v ===== *)
(** * SHA-256 and HMAC

    The digest functions of Python's [hashlib] and [hmac] that the repository
    seals its records with, written out so that every digest of the model can
    be computed.  The test vectors at the end are those of FIPS 180-4 and of
    RFC 4231.  Nothing is assumed about collisions: theorems that need one are
    stated up to an explicit pair of colliding inputs. *)

From S2P Require Import Prelude Text.

(** The low 32 bits of a word. *)
Definition w32 (x : Z) : Z := Z.land x 0xffffffff.
Definition rotr (n x : Z) : Z :=
  w32 (Z.lor (Z.shiftr x n) (Z.shiftl x (32 - n))).
Definition not32 (x : Z) : Z := Z.lxor x 0xffffffff.

(** The constants of FIPS 180-4, section 4.2.2 and 5.3.3: the first 32 bits of the fractional
    parts of the cube roots of the first 64 primes, and of the square roots of the first 8. *)
Definition is_prime (n : nat) : bool :=
  forallb (λ d, negb (n mod d =? 0)%nat) (seq 2 (n - 2)).
Definition primes : list Z := map Z.of_nat (filter is_prime (seq 2 310)).

(** The cube root of [n], rounded down, by its bits from [2 ^ (k - 1)] down. *)
Fixpoint cube_root (k : nat) (r n : Z) : Z :=
  match k with
  | O => r
  | S k' => let r' := r + 2 ^ Z.of_nat k' in
            cube_root k' (if r' * r' * r' <=? n then r' else r) n
  end.

Definition sha_k : list Z :=
  Eval vm_compute in map (λ p, w32 (cube_root 36 0 (p * 2 ^ 96))) primes.
Definition sha_h0 : list Z :=
  Eval vm_compute in map (λ p, w32 (Z.sqrt (p * 2 ^ 64))) (take 8 primes).

Definition big_sigma0 x := Z.lxor (rotr 2 x) (Z.lxor (rotr 13 x) (rotr 22 x)).
Definition big_sigma1 x := Z.lxor (rotr 6 x) (Z.lxor (rotr 11 x) (rotr 25 x)).
Definition small_sigma0 x := Z.lxor (rotr 7 x) (Z.lxor (rotr 18 x) (Z.shiftr x 3)).
Definition small_sigma1 x := Z.lxor (rotr 17 x) (Z.lxor (rotr 19 x) (Z.shiftr x 10)).
Definition choose x y z := Z.lxor (Z.land x y) (Z.land (not32 x) z).
Definition majority x y z := Z.lxor (Z.land x y) (Z.lxor (Z.land x z) (Z.land y z)).

(** The message schedule keeps the last sixteen words, newest first. *)
Definition schedule_next (win : list Z) : Z :=
  w32 (small_sigma1 (nth 1 win 0) + nth 6 win 0
       + small_sigma0 (nth 14 win 0) + nth 15 win 0).

Fixpoint schedule_loop (n : nat) (win : list Z) : list Z :=
  match n with
  | O => []
  | S n' => let w := schedule_next win in w :: schedule_loop n' (w :: take 15 win)
  end.

Definition schedule (block : list Z) : list Z := block ++ schedule_loop 48 (rev block).

Definition sha_round (st : list Z) (kw : Z * Z) : list Z :=
  match st with
  | [a; b; c; d; e; f; g; h] =>
      let t1 := h + big_sigma1 e + choose e f g + fst kw + snd kw in
      let t2 := big_sigma0 a + majority a b c in
      [w32 (t1 + t2); a; b; c; w32 (d + t1); e; f; g]
  | _ => st
  end.

Definition sha_block (st : list Z) (block : list Z) : list Z :=
  zip_with (λ x y, w32 (x + y)) st
    (foldl sha_round st (zip sha_k (schedule block))).

Definition word_be (b : bytes) : Z := foldl (λ a x, 256 * a + x) 0 b.

(** [chunks fuel k l]: consecutive pieces of [k] elements. *)
Fixpoint chunks (fuel : nat) (k : nat) (l : list Z) : list (list Z) :=
  match fuel, l with
  | O, _ => []
  | _, [] => []
  | S f, _ => take k l :: chunks f k (drop k l)
  end.

Definition sha_pad (m : bytes) : bytes :=
  m ++ 0x80 :: replicate (Z.to_nat ((55 - len m) mod 64)) 0 ++ to_bytes_be 8 (8 * len m).

(** [hashlib.sha256(m).digest()] *)
Definition sha256 (m : bytes) : bytes :=
  let p := sha_pad m in
  let words b := map word_be (chunks 16 4 b) in
  concat (map (to_bytes_be 4)
    (foldl sha_block sha_h0 (map words (chunks (length p) 64 p)))).

(** [hashlib.sha256(m).hexdigest()] *)
Definition sha256_hex (m : bytes) : str := hex_bytes (sha256 m).

(** [hmac.new(key, m, hashlib.sha256).digest()] *)
Definition hmac_sha256 (key m : bytes) : bytes :=
  let k0 := if 64 <? len key then sha256 key else key in
  let k := k0 ++ replicate (64 - length k0) 0 in
  sha256 (map (Z.lxor 0x5c) k ++ sha256 (map (Z.lxor 0x36) k ++ m)).

(** ** Shape of a digest *)

Lemma sha_round_length st kw : length (sha_round st kw) = length st.
Proof. by do 9 (destruct st as [|? st]; [done|]). Qed.

Lemma sha_rounds_length st l : length (foldl sha_round st l) = length st.
Proof.
  revert st. induction l as [|kw l IH]; intros st; [done|]. simpl.
  by rewrite IH, sha_round_length.
Qed.

Lemma sha_blocks_length st bl : length (foldl sha_block st bl) = length st.
Proof.
  revert st. induction bl as [|b bl IH]; intros st; [done|]. simpl. rewrite IH.
  unfold sha_block. rewrite length_zip_with, sha_rounds_length. lia.
Qed.

Lemma concat_be4_length l : length (concat (map (to_bytes_be 4) l)) = (4 * length l)%nat.
Proof. induction l; cbn [map concat length]; rewrite ?length_app, ?to_bytes_be_length; lia. Qed.

Lemma sha256_length m : length (sha256 m) = 32%nat.
Proof. unfold sha256. by rewrite concat_be4_length, sha_blocks_length. Qed.

Lemma concat_be4_bytes l : forallb is_byte (concat (map (to_bytes_be 4) l)) = true.
Proof.
  induction l as [|x l IH]; [done|]. cbn [map concat].
  by rewrite forallb_app, IH, to_bytes_be_bytes.
Qed.

Lemma sha256_bytes m : forallb is_byte (sha256 m) = true.
Proof. apply concat_be4_bytes. Qed.

Lemma sha256_hex_inj m1 m2 : sha256_hex m1 = sha256_hex m2 → sha256 m1 = sha256 m2.
Proof. apply hex_bytes_inj; apply sha256_bytes. Qed.

Lemma sha256_hex_shape m :
  length (sha256_hex m) = 64%nat ∧ forallb is_hex_digit (sha256_hex m) = true.
Proof.
  split; [unfold sha256_hex; by rewrite hex_bytes_length, sha256_length|].
  apply hex_bytes_digits, sha256_bytes.
Qed.

(** ** Test vectors *)

Example sha256_empty : sha256_hex [] =
  lit "e3b0c44298fc1c149afbf4c8996fb92427ae41e4649b934ca495991b7852b855".
Proof. vm_compute. reflexivity. Qed.

Example sha256_abc : sha256_hex (lit "abc") =
  lit "ba7816bf8f01cfea414140de5dae2223b00361a396177a9cb410ff61f20015ad".
Proof. vm_compute. reflexivity. Qed.

Example sha256_two_blocks :
  sha256_hex (lit "abcdbcdecdefdefgefghfghighijhijkijkljklmklmnlmnomnopnopq") =
  lit "248d6a61d20638b8e5c026930c3e6039a33ce45964ff2167f6ecedd419db06c1".
Proof. vm_compute. reflexivity. Qed.

Example hmac_sha256_rfc4231_2 :
  hex_bytes (hmac_sha256 (lit "Jefe") (lit "what do ya want for nothing?")) =
  lit "5bdcc146bf60754e6a042426089575c75a003f089d2739839dec58b964ec3843".
Proof. vm_compute. reflexivity. Qed.
