(* ===== verification/Json.v ===== *)
(** * Canonical JSON (core/hashing.py)

    Every sealed record of the repository is hashed through
    [json.dumps(value, sort_keys=True, separators=(",", ":"),
    ensure_ascii=False, allow_nan=False)] followed by UTF-8 and SHA-256.  This
    file models JSON values without floats (no modelled component produces
    one), the canonical printer, the part of [json.loads] that reads such
    values back, and [canonical_json_hash].  The main results: reading what was
    printed gives the value back up to key order, the printed text does not
    depend on the order in which a dict was built, and equal digests mean equal
    values or an explicit SHA-256 collision. *)

From S2P Require Import Prelude Text Digest.

(** A dict is the list of its items in insertion order. *)
Inductive json : Type :=
| JNull
| JBool (b : bool)
| JInt (n : Z)
| JStr (s : str)
| JArr (l : list json)
| JObj (kvs : list (str * json)).

Section json_ind.
Context (P : json → Prop).
Context (HNull : P JNull) (HBool : ∀ b, P (JBool b)) (HInt : ∀ n, P (JInt n)).
Context (HStr : ∀ s, P (JStr s)).
Context (HArr : ∀ l, Forall P l → P (JArr l)).
Context (HObj : ∀ kvs, Forall (λ kv, P kv.2) kvs → P (JObj kvs)).

(** Induction that reaches the elements of arrays and the members of objects. *)
Fixpoint json_nested_ind (v : json) : P v :=
  match v with
  | JNull => HNull
  | JBool b => HBool b
  | JInt n => HInt n
  | JStr s => HStr s
  | JArr l =>
      HArr l ((fix go (l : list json) : Forall P l :=
        match l with
        | [] => Forall_nil_2 P
        | x :: l' => Forall_cons_2 P x l' (json_nested_ind x) (go l')
        end) l)
  | JObj kvs =>
      HObj kvs ((fix go (l : list (str * json)) : Forall (λ kv, P kv.2) l :=
        match l with
        | [] => Forall_nil_2 _
        | x :: l' => Forall_cons_2 (λ kv, P kv.2) x l' (json_nested_ind x.2) (go l')
        end) kvs)
  end.
End json_ind.

(** ** The printer *)

(** Quote, backslash and control characters are escaped; everything else is
    emitted as is ([ensure_ascii=False]). *)
Definition esc_char (c : Z) : str :=
  if c =? 34 then [92; 34]
  else if c =? 92 then [92; 92]
  else if c =? 10 then [92; 110]
  else if c =? 13 then [92; 114]
  else if c =? 9 then [92; 116]
  else if c =? 12 then [92; 102]
  else if c =? 8 then [92; 98]
  else if c <? 32 then [92; 117; 48; 48; hex_digit (c / 16); hex_digit (c mod 16)]
  else [c].

Definition dump_str (s : str) : str := 34 :: concat (map esc_char s) ++ [34].

Fixpoint join (sep : Z) (l : list str) : str :=
  match l with
  | [] => []
  | [x] => x
  | x :: l' => x ++ sep :: join sep l'
  end.

(** [sort_keys=True]: items in code point order of their keys. *)
Fixpoint insert_kv {A} (kv : str * A) (l : list (str * A)) : list (str * A) :=
  match l with
  | [] => [kv]
  | kv' :: l' => if str_ltb kv'.1 kv.1 then kv' :: insert_kv kv l' else kv :: l
  end.

Definition sort_kvs {A} (l : list (str * A)) : list (str * A) := foldr insert_kv [] l.

Definition member_text (kt : str * str) : str := dump_str kt.1 ++ 58 :: kt.2.

Fixpoint dumps (v : json) : str :=
  match v with
  | JNull => lit "null"
  | JBool true => lit "true"
  | JBool false => lit "false"
  | JInt n => str_int n
  | JStr s => dump_str s
  | JArr l => 91 :: join 44 (map dumps l) ++ [93]
  | JObj kvs =>
      123 :: join 44 (map member_text (sort_kvs (map (λ kv, (kv.1, dumps kv.2)) kvs)))
        ++ [125]
  end.

(** [canonical_json_hash]: "sha256:" and the hexadecimal SHA-256 of the UTF-8
    text; [None] stands for the [UnicodeEncodeError] of a lone surrogate. *)
Definition canonical_json_hash (v : json) : option str :=
  match utf8_encode (dumps v) with
  | Some b => Some (lit "sha256:" ++ sha256_hex b)
  | None => None
  end.

(** ** The reader *)

Definition json_ws (c : Z) : bool := (c =? 32) || (c =? 9) || (c =? 10) || (c =? 13).

Fixpoint skip_ws (s : str) : str :=
  match s with
  | c :: s' => if json_ws c then skip_ws s' else s
  | [] => []
  end.

Definition unhex_c (c : Z) : option Z :=
  if is_digit c then Some (c - 48)
  else if (97 <=? c) && (c <=? 102) then Some (c - 87)
  else if (65 <=? c) && (c <=? 70) then Some (c - 55)
  else None.

Definition unhex4 (a b c d : Z) : option Z :=
  match unhex_c a, unhex_c b, unhex_c c, unhex_c d with
  | Some a, Some b, Some c, Some d => Some (4096 * a + 256 * b + 16 * c + d)
  | _, _, _, _ => None
  end.

Definition unescape (c : Z) : option Z :=
  if c =? 34 then Some 34 else if c =? 92 then Some 92 else if c =? 47 then Some 47
  else if c =? 98 then Some 8 else if c =? 102 then Some 12 else if c =? 110 then Some 10
  else if c =? 114 then Some 13 else if c =? 116 then Some 9 else None.

(** A string after its opening quote; a high surrogate escape directly followed
    by a low surrogate escape is one code point. *)
Fixpoint scan_string (s : str) : option (str * str) :=
  let push c r := match r with Some (t, r') => Some (c :: t, r') | None => None end in
  match s with
  | [] => None
  | c :: r =>
      if c =? 34 then Some ([], r)
      else if c =? 92 then
        match r with
        | u :: r1 =>
            if u =? 117 then
              match r1 with
              | a :: b :: x :: d :: r2 =>
                  match unhex4 a b x d with
                  | Some hi =>
                      match r2 with
                      | b1 :: u1 :: a' :: b' :: x' :: d' :: r3 =>
                          match unhex4 a' b' x' d' with
                          | Some lo =>
                              if (b1 =? 92) && (u1 =? 117)
                                 && (0xD800 <=? hi) && (hi <=? 0xDBFF)
                                 && (0xDC00 <=? lo) && (lo <=? 0xDFFF)
                              then push (0x10000 + (hi - 0xD800) * 1024 + (lo - 0xDC00))
                                        (scan_string r3)
                              else push hi (scan_string r2)
                          | None => push hi (scan_string r2)
                          end
                      | _ => push hi (scan_string r2)
                      end
                  | None => None
                  end
              | _ => None
              end
            else match unescape u with
                 | Some e => push e (scan_string r1)
                 | None => None
                 end
        | [] => None
        end
      else if c <? 32 then None
      else push c (scan_string r)
  end.

Fixpoint take_digits (s : str) : str * str :=
  match s with
  | c :: s' => if is_digit c then let '(d, r) := take_digits s' in (c :: d, r) else ([], s)
  | [] => ([], [])
  end.

(** A fraction or an exponent would make the number a float. *)
Definition float_tail (s : str) : bool :=
  match s with
  | c :: _ => (c =? 46) || (c =? 101) || (c =? 69)
  | [] => false
  end.

Definition scan_nat (s : str) : option (Z * str) :=
  match s with
  | c :: r =>
      if c =? 48 then if float_tail r then None else Some (0, r)
      else if is_digit c then
        let '(d, r') := take_digits s in
        if float_tail r' then None else Some (digits_value d, r')
      else None
  | [] => None
  end.

Definition scan_number (s : str) : option (json * str) :=
  match s with
  | c :: r =>
      if c =? 45
      then match scan_nat r with Some (n, r') => Some (JInt (- n), r') | None => None end
      else match scan_nat s with Some (n, r') => Some (JInt n, r') | None => None end
  | [] => None
  end.

Fixpoint strip_prefix (p s : str) : option str :=
  match p, s with
  | [], _ => Some s
  | x :: p', y :: s' => if x =? y then strip_prefix p' s' else None
  | _, _ => None
  end.

(** [dict(pairs)]: a repeated key keeps its place and takes the later value. *)
Fixpoint dict_set {A} (k : str) (v : A) (l : list (str * A)) : list (str * A) :=
  match l with
  | [] => [(k, v)]
  | (k', v') :: l' => if str_eqb k k' then (k', v) :: l' else (k', v') :: dict_set k v l'
  end.

Definition dict_of_pairs {A} (l : list (str * A)) : list (str * A) :=
  fold_left (λ d kv, dict_set kv.1 kv.2 d) l [].

Fixpoint dict_get {A} (k : str) (l : list (str * A)) : option A :=
  match l with
  | [] => None
  | (k', v) :: l' => if str_eqb k k' then Some v else dict_get k l'
  end.

(** [object_pairs_hook]: what becomes of the items of an object *)
Abbreviation pairs_hook := (list (str * json) → option (list (str * json))).

Section Reader.
Context (hook : pairs_hook).

Fixpoint parse_value (fuel : nat) (s : str) {struct fuel} : option (json * str) :=
  match fuel with
  | O => None
  | S f =>
      match s with
      | [] => None
      | c :: r =>
          if c =? 34 then
            match scan_string r with Some (t, r') => Some (JStr t, r') | None => None end
          else if c =? 123 then
            match skip_ws r with
            | c' :: r' =>
                if c' =? 125 then
                  match hook [] with Some kvs => Some (JObj kvs, r') | None => None end
                else match parse_members f (c' :: r') with
                     | Some (kvs, r'') =>
                         match hook kvs with Some kvs => Some (JObj kvs, r'') | None => None end
                     | None => None
                     end
            | [] => None
            end
          else if c =? 91 then
            match skip_ws r with
            | c' :: r' =>
                if c' =? 93 then Some (JArr [], r')
                else match parse_elements f (c' :: r') with
                     | Some (l, r'') => Some (JArr l, r'')
                     | None => None
                     end
            | [] => None
            end
          else match strip_prefix (lit "null") s with
          | Some r' => Some (JNull, r')
          | None =>
              match strip_prefix (lit "true") s with
              | Some r' => Some (JBool true, r')
              | None =>
                  match strip_prefix (lit "false") s with
                  | Some r' => Some (JBool false, r')
                  | None => scan_number s
                  end
              end
          end
      end
  end
with parse_members (fuel : nat) (s : str) {struct fuel} : option (list (str * json) * str) :=
  match fuel with
  | O => None
  | S f =>
      match s with
      | q :: r =>
          if q =? 34 then
            match scan_string r with
            | Some (k, r1) =>
                match skip_ws r1 with
                | c :: r2 =>
                    if c =? 58 then
                      match parse_value f (skip_ws r2) with
                      | Some (v, r3) =>
                          match skip_ws r3 with
                          | d :: r4 =>
                              if d =? 125 then Some ([(k, v)], r4)
                              else if d =? 44 then
                                match parse_members f (skip_ws r4) with
                                | Some (kvs, r5) => Some ((k, v) :: kvs, r5)
                                | None => None
                                end
                              else None
                          | [] => None
                          end
                      | None => None
                      end
                    else None
                | [] => None
                end
            | None => None
            end
          else None
      | [] => None
      end
  end
with parse_elements (fuel : nat) (s : str) {struct fuel} : option (list json * str) :=
  match fuel with
  | O => None
  | S f =>
      match parse_value f s with
      | Some (v, r1) =>
          match skip_ws r1 with
          | d :: r2 =>
              if d =? 93 then Some ([v], r2)
              else if d =? 44 then
                match parse_elements f (skip_ws r2) with
                | Some (l, r3) => Some (v :: l, r3)
                | None => None
                end
              else None
          | [] => None
          end
      | None => None
      end
  end.

(** [json.loads(s, object_pairs_hook=hook)]; every level of nesting and every separator consumes
    a character, so twice the length of the text is enough fuel. *)
Definition loads_with (s : str) : option json :=
  match parse_value (2 * length s + 2) (skip_ws s) with
  | Some (v, r) => match skip_ws r with [] => Some v | _ :: _ => None end
  | None => None
  end.
End Reader.

(** [json.loads(s)] *)
Definition loads : str → option json := loads_with (λ kvs, Some (dict_of_pairs kvs)).

(** ** Canonical values *)

(** The value with the items of every dict sorted: what [loads] returns for the
    canonical text. *)
Fixpoint canon (v : json) : json :=
  match v with
  | JArr l => JArr (map canon l)
  | JObj kvs => JObj (sort_kvs (map (λ kv, (kv.1, canon kv.2)) kvs))
  | _ => v
  end.

(** A Python value: dict keys are distinct and strings are made of code points. *)
Fixpoint json_wf (v : json) : bool :=
  match v with
  | JStr s => is_str s
  | JArr l => forallb json_wf l
  | JObj kvs =>
      forallb (λ kv, is_str kv.1 && json_wf kv.2) kvs
      && bool_decide (NoDup (map fst kvs))
  | _ => true
  end.

(** Python's [==] on these values: dict order does not matter, and a [bool]
    equals the [int] it stands for. *)
Fixpoint eq_form (v : json) : json :=
  match v with
  | JBool b => JInt (Z.b2z b)
  | JArr l => JArr (map eq_form l)
  | JObj kvs => JObj (sort_kvs (map (λ kv, (kv.1, eq_form kv.2)) kvs))
  | _ => v
  end.

#[export] Instance json_eq_dec : EqDecision json.
Proof.
  refine (fix go (a b : json) {struct a} : {a = b} + {a ≠ b} := _).
  destruct a as [|x|x|x|x|x], b as [|y|y|y|y|y];
    try (right; discriminate); [by left| | | | |].
  - destruct (decide (x = y)); [left|right]; congruence.
  - destruct (decide (x = y)); [left|right]; congruence.
  - destruct (decide (x = y)); [left|right]; congruence.
  - destruct (List.list_eq_dec go x y); [left|right]; congruence.
  - assert (∀ p q : str * json, {p = q} + {p ≠ q}) as Hp.
    { intros [k v] [k' v']. destruct (decide (k = k')); [|right; congruence].
      destruct (go v v'); [left|right]; congruence. }
    destruct (List.list_eq_dec Hp x y); [left|right]; congruence.
Defined.

Definition py_eq (a b : json) : bool := bool_decide (eq_form a = eq_form b).

(** ** Sorting items *)

Definition map_snd {A B} (f : A → B) (l : list (str * A)) : list (str * B) :=
  map (λ kv, (kv.1, f kv.2)) l.

Lemma insert_kv_map {A B} (f : A → B) kv l :
  insert_kv (kv.1, f kv.2) (map_snd f l) = map_snd f (insert_kv kv l).
Proof.
  induction l as [|kv' l IH]; [done|]. simpl. destruct (str_ltb kv'.1 kv.1); simpl; [|done].
  f_equal. apply IH.
Qed.

Lemma sort_kvs_map {A B} (f : A → B) l :
  sort_kvs (map_snd f l) = map_snd f (sort_kvs l).
Proof. induction l as [|kv l IH]; [done|]. simpl. rewrite IH. apply insert_kv_map. Qed.

Lemma insert_kv_Permutation {A} (kv : str * A) l : insert_kv kv l ≡ₚ kv :: l.
Proof.
  induction l as [|kv' l IH]; [done|]. simpl. destruct (str_ltb kv'.1 kv.1); [|done].
  rewrite IH. apply Permutation_swap.
Qed.

Lemma sort_kvs_Permutation {A} (l : list (str * A)) : sort_kvs l ≡ₚ l.
Proof. induction l as [|kv l IH]; [done|]. simpl. by rewrite insert_kv_Permutation, IH. Qed.

Definition key_le {A} (p q : str * A) : Prop := str_ltb q.1 p.1 = false.

Lemma key_le_trans {A} (p q r : str * A) : key_le p q → key_le q r → key_le p r.
Proof.
  unfold key_le. intros H1 H2. destruct (str_ltb r.1 p.1) eqn:E; [|done].
  destruct (str_ltb p.1 q.1) eqn:E1.
  - by rewrite (str_ltb_trans _ _ _ E E1) in H2.
  - rewrite (str_ltb_total _ _ E1 H1) in E. congruence.
Qed.

Lemma insert_kv_HdRel {A} (x kv : str * A) l :
  key_le x kv → HdRel key_le x l → HdRel key_le x (insert_kv kv l).
Proof.
  intros Hx Hl. destruct l as [|kv' l]; simpl; [by constructor|].
  destruct (str_ltb kv'.1 kv.1); constructor; [by inversion Hl|done].
Qed.

Lemma insert_kv_Sorted {A} (kv : str * A) l :
  Sorted key_le l → Sorted key_le (insert_kv kv l).
Proof.
  induction 1 as [|kv' l Hl IH Hd]; simpl; [by repeat constructor|].
  destruct (str_ltb kv'.1 kv.1) eqn:E.
  - constructor; [done|]. apply insert_kv_HdRel; [|done]. unfold key_le.
    destruct (str_ltb kv.1 kv'.1) eqn:E'; [|done].
    pose proof (str_ltb_trans _ _ _ E E') as H. by rewrite str_ltb_irrefl in H.
  - constructor; [by constructor|]. constructor. done.
Qed.

Lemma sort_kvs_StronglySorted {A} (l : list (str * A)) : StronglySorted key_le (sort_kvs l).
Proof.
  apply Sorted_StronglySorted; [intros ???; apply key_le_trans|].
  induction l as [|kv l IH]; simpl; [constructor|by apply insert_kv_Sorted].
Qed.

Lemma keys_unique {A} (l : list (str * A)) x y :
  NoDup (map fst l) → x ∈ l → y ∈ l → x.1 = y.1 → x = y.
Proof.
  intros Hnd (i & Hi)%list_elem_of_lookup (j & Hj)%list_elem_of_lookup Hxy.
  assert (map fst l !! i = Some x.1) as Hi' by (by rewrite list_lookup_fmap, Hi).
  assert (map fst l !! j = Some x.1) as Hj' by (by rewrite list_lookup_fmap, Hj, Hxy).
  rewrite (NoDup_lookup _ _ _ _ Hnd Hi' Hj') in Hi. congruence.
Qed.

(** Sorting forgets the order the items were given in. *)
Lemma sort_kvs_unique {A} (l1 l2 : list (str * A)) :
  NoDup (map fst l1) → l1 ≡ₚ l2 → sort_kvs l1 = sort_kvs l2.
Proof.
  intros Hnd Hp. apply (StronglySorted_unique_strong key_le).
  - intros x y Hx Hy H1 H2. rewrite sort_kvs_Permutation in Hx, Hy.
    rewrite <- Hp in Hy. apply (keys_unique l1); try done.
    apply str_ltb_total; [apply H2|apply H1].
  - apply sort_kvs_StronglySorted.
  - apply sort_kvs_StronglySorted.
  - by rewrite !sort_kvs_Permutation.
Qed.

(** ** Reading back what was printed *)

Lemma unhex_hex_digit d : 0 ≤ d < 16 → unhex_c (hex_digit d) = Some d.
Proof.
  intros Hd. unfold unhex_c, hex_digit, is_digit.
  destruct (Z.ltb_spec d 10).
  - replace (48 <=? 48 + d) with true by lia. replace (48 + d <=? 57) with true by lia.
    simpl. f_equal. lia.
  - replace (48 <=? 87 + d) with true by lia. replace (87 + d <=? 57) with false by lia.
    replace (97 <=? 87 + d) with true by lia. replace (87 + d <=? 102) with true by lia.
    simpl. f_equal. lia.
Qed.

Lemma unhex4_control c : 0 ≤ c < 32 →
  unhex4 48 48 (hex_digit (c / 16)) (hex_digit (c mod 16)) = Some c.
Proof.
  intros Hc. unfold unhex4. change (unhex_c 48) with (Some 0).
  rewrite !unhex_hex_digit by (Z.to_euclidean_division_equations; lia).
  f_equal. Z.to_euclidean_division_equations; lia.
Qed.

Lemma scan_string_plain c r t rest :
  32 ≤ c → c ≠ 34 → c ≠ 92 → scan_string r = Some (t, rest) →
  scan_string (c :: r) = Some (c :: t, rest).
Proof.
  intros H1 H2 H3 Hr. cbn [scan_string].
  destruct (Z.eqb_spec c 34); [done|]. destruct (Z.eqb_spec c 92); [done|].
  destruct (Z.ltb_spec c 32); [lia|]. by rewrite Hr.
Qed.

Lemma scan_string_short u e r t rest :
  u ≠ 117 → unescape u = Some e → scan_string r = Some (t, rest) →
  scan_string (92 :: u :: r) = Some (e :: t, rest).
Proof.
  intros H1 H2 Hr. cbn [scan_string]. change (92 =? 34) with false.
  change (92 =? 92) with true. cbv iota.
  destruct (Z.eqb_spec u 117); [done|]. by rewrite H2, Hr.
Qed.

Lemma scan_string_unicode a b x d hi r t rest :
  unhex4 a b x d = Some hi → hi < 0xD800 → scan_string r = Some (t, rest) →
  scan_string (92 :: 117 :: a :: b :: x :: d :: r) = Some (hi :: t, rest).
Proof.
  intros H1 H2 Hr. cbn [scan_string]. change (92 =? 34) with false.
  change (92 =? 92) with true. change (117 =? 117) with true. cbv iota.
  rewrite H1, Hr. repeat case_match; done || lia.
Qed.

(** One escaped character is read back as that character. *)
Lemma scan_string_esc c r t rest :
  0 ≤ c → scan_string r = Some (t, rest) →
  scan_string (esc_char c ++ r) = Some (c :: t, rest).
Proof.
  intros Hc Hr. unfold esc_char.
  repeat match goal with
  | |- context [if c =? ?k then _ else _] =>
      destruct (Z.eqb_spec c k) as [->|]; [by apply scan_string_short|]
  end.
  destruct (Z.ltb_spec c 32).
  - apply scan_string_unicode; [by apply unhex4_control|lia|done].
  - by apply scan_string_plain.
Qed.

Lemma scan_string_dump s rest :
  is_str s = true →
  scan_string (concat (map esc_char s) ++ 34 :: rest) = Some (s, rest).
Proof.
  induction s as [|c s IH]; [done|]. cbn [map concat forallb is_str].
  intros [Hc Hs]%andb_prop. rewrite <- app_assoc. apply scan_string_esc; [|by apply IH].
  unfold code_point in Hc. lia.
Qed.

Definition stops (r : str) : bool :=
  match r with [] => true | c :: _ => negb (is_digit c) && negb (float_tail r) end.

Lemma take_digits_app ds r :
  forallb is_digit ds = true → stops r = true → take_digits (ds ++ r) = (ds, r).
Proof.
  induction ds as [|d ds IH]; simpl.
  - intros _. destruct r as [|c r]; [done|]. simpl. intros [H _]%andb_prop.
    apply negb_true_iff in H. by rewrite H.
  - intros [-> Hds]%andb_prop Hr. by rewrite IH.
Qed.

Lemma stops_float r : stops r = true → float_tail r = false.
Proof. destruct r; simpl; [done|]. by intros [_ H%negb_true_iff]%andb_prop. Qed.

Lemma scan_nat_dec n r :
  0 ≤ n → stops r = true → scan_nat (dec_nonneg n ++ r) = Some (n, r).
Proof.
  intros Hn Hr. destruct (dec_nonneg_shape n Hn) as (Hd & d & ds & E & Hnz & Hz).
  pose proof (dec_nonneg_value n Hn) as Hv. rewrite E in *. cbn [app scan_nat].
  destruct (decide (n = 0)) as [->|Hne].
  - destruct (Hz eq_refl) as [-> ->]. simpl. by rewrite (stops_float r Hr).
  - apply Hnz in Hne as Hne'. destruct (Z.eqb_spec d 48); [done|].
    simpl in Hd. apply andb_prop in Hd as [Hd Hds]. rewrite Hd.
    change (d :: ds ++ r) with ((d :: ds) ++ r). rewrite take_digits_app; [|by simpl; rewrite Hd|done].
    by rewrite (stops_float r Hr), Hv.
Qed.

Lemma scan_number_int n r : stops r = true → scan_number (str_int n ++ r) = Some (JInt n, r).
Proof.
  intros Hr. unfold str_int. destruct (Z.ltb_spec n 0).
  - cbn [app scan_number]. rewrite scan_nat_dec by (done || lia). simpl. do 3 f_equal. lia.
  - pose proof (scan_nat_dec n r ltac:(lia) Hr) as Hs.
    destruct (dec_nonneg_shape n ltac:(lia)) as (Hd & d & ds & E & _).
    rewrite E in *. simpl in Hd. unfold scan_number. cbn [app] in *.
    destruct (Z.eqb_spec d 45) as [->|]; [done|]. by rewrite Hs.
Qed.

Lemma skip_ws_id c s : json_ws c = false → skip_ws (c :: s) = c :: s.
Proof. simpl. by intros ->. Qed.

Lemma dumps_head v :
  ∃ c t, dumps v = c :: t ∧ json_ws c = false ∧ c ≠ 93 ∧ c ≠ 125.
Proof.
  destruct v as [|[]|n|s|l|kvs]; try (by eexists _, _; split; [reflexivity|]).
  cbn [dumps]. unfold str_int. destruct (Z.ltb_spec n 0).
  - by eexists _, _; split; [reflexivity|].
  - destruct (dec_nonneg_shape n ltac:(lia)) as (Hd & d & ds & E & _). rewrite E in *.
    exists d, ds. simpl in Hd. apply andb_prop in Hd as [Hd _].
    unfold is_digit, json_ws in *. repeat split; lia.
Qed.

Lemma skip_ws_dumps v r : skip_ws (dumps v ++ r) = dumps v ++ r.
Proof. destruct (dumps_head v) as (c & t & -> & H & _). by apply skip_ws_id. Qed.

Lemma join_cons2 sep x y l : join sep (x :: y :: l) = x ++ sep :: join sep (y :: l).
Proof. done. Qed.

Definition member_of (kv : str * json) : str := member_text (kv.1, dumps kv.2).

Lemma scan_key kv r : is_str kv.1 = true →
  scan_string (concat (map esc_char kv.1) ++ 34 :: 58 :: dumps kv.2 ++ r)
  = Some (kv.1, 58 :: dumps kv.2 ++ r).
Proof. intros Hk. by apply scan_string_dump. Qed.

Lemma dict_set_fresh {A} k (v : A) l : k ∉ map fst l → dict_set k v l = l ++ [(k, v)].
Proof.
  induction l as [|[k' v'] l IH]; [done|]. simpl. intros Hk.
  unfold str_eqb. rewrite bool_decide_false by set_solver. rewrite IH by set_solver. done.
Qed.

Lemma dict_of_pairs_NoDup {A} (l : list (str * A)) :
  NoDup (map fst l) → dict_of_pairs l = l.
Proof.
  unfold dict_of_pairs. rewrite <- (app_nil_l l) at 1 3. generalize (@nil (str * A)).
  induction l as [|[k v] l IH]; intros d; simpl; [by rewrite app_nil_r|].
  rewrite map_app. simpl. intros (Hd & Hdl & Hl)%NoDup_app.
  rewrite dict_set_fresh; [|intros Hin; apply (Hdl k Hin); set_solver].
  replace (d ++ (k, v) :: l) with ((d ++ [(k, v)]) ++ l) by (by rewrite <- app_assoc).
  apply IH. rewrite <- app_assoc. simpl. rewrite map_app. simpl. by apply NoDup_app.
Qed.

Lemma map_fst_map_snd {A B} (f : A → B) l : map fst (map_snd f l) = map fst l.
Proof. unfold map_snd. rewrite map_map. done. Qed.

Lemma members_text_eq kvs :
  map member_text (sort_kvs (map (λ kv, (kv.1, dumps kv.2)) kvs))
  = map member_of (sort_kvs kvs).
Proof.
  change (map (λ kv : str * json, (kv.1, dumps kv.2)) kvs) with (map_snd dumps kvs).
  rewrite sort_kvs_map. unfold map_snd. by rewrite map_map.
Qed.

Lemma sort_kvs_nil {A} (l : list (str * A)) : sort_kvs l = [] → l = [].
Proof. intros H. apply Permutation_nil_r. rewrite <- H. symmetry. apply sort_kvs_Permutation. Qed.

Lemma strip_prefix_head x p c r : x ≠ c → strip_prefix (x :: p) (c :: r) = None.
Proof. intros H. simpl. by destruct (Z.eqb_spec x c). Qed.

Section ReadBack.
Context (hook : pairs_hook) (Hhook : ∀ kvs, NoDup (map fst kvs) → hook kvs = Some kvs).

(** What the round trip says of one value in any context. *)
Definition reads_back (v : json) : Prop :=
  ∀ fuel rest, (2 * length (dumps v) ≤ fuel)%nat → stops rest = true →
  parse_value hook fuel (dumps v ++ rest) = Some (canon v, rest).

Lemma parse_elements_join l fuel rest :
  l ≠ [] → Forall reads_back l →
  (2 * length (join 44 (map dumps l)) + 1 ≤ fuel)%nat →
  parse_elements hook fuel (join 44 (map dumps l) ++ 93 :: rest) = Some (map canon l, rest).
Proof.
  revert fuel. induction l as [|x l IH]; [done|]. intros fuel _ Hl Hf.
  apply Forall_cons_1 in Hl as [Hx Hl]. destruct fuel as [|f]; [lia|].
  destruct l as [|y l].
  - cbn [map join parse_elements] in *. rewrite Hx by (done || lia). done.
  - cbn [map] in *. rewrite join_cons2 in *. rewrite <- app_assoc. cbn [app parse_elements].
    rewrite !length_app in Hf. cbn [length] in Hf.
    rewrite Hx by (done || lia). rewrite skip_ws_id by done.
    change (44 =? 93) with false. change (44 =? 44) with true. cbv iota.
    assert (∃ c t, join 44 (dumps y :: map dumps l) = c :: t ∧ json_ws c = false)
      as (c & t & E & Hc).
    { destruct (dumps_head y) as (c & t & E & Hc & _). destruct l as [|z l].
      - by exists c, t.
      - cbn [map]. rewrite join_cons2, E. by eexists c, _. }
    assert (skip_ws (join 44 (dumps y :: map dumps l) ++ 93 :: rest)
      = join 44 (dumps y :: map dumps l) ++ 93 :: rest) as ->.
    { rewrite E. by apply skip_ws_id. }
    rewrite IH by (done || lia). done.
Qed.

Lemma parse_members_step fuel kv r :
  is_str kv.1 = true → reads_back kv.2 → (2 * length (dumps kv.2) ≤ fuel)%nat →
  stops r = true →
  parse_members hook (S fuel) (member_of kv ++ r) =
    match skip_ws r with
    | d :: r4 =>
        if d =? 125 then Some ([(kv.1, canon kv.2)], r4)
        else if d =? 44 then
          match parse_members hook fuel (skip_ws r4) with
          | Some (kvs, r5) => Some ((kv.1, canon kv.2) :: kvs, r5)
          | None => None
          end
        else None
    | [] => None
    end.
Proof.
  intros Hk Hv Hf Hr. unfold member_of, member_text, dump_str. cbn [fst snd].
  replace ((34 :: concat (map esc_char kv.1) ++ [34]) ++ 58 :: dumps kv.2)
    with (34 :: concat (map esc_char kv.1) ++ 34 :: 58 :: dumps kv.2)
    by (simpl; by rewrite <- app_assoc).
  replace ((34 :: concat (map esc_char kv.1) ++ 34 :: 58 :: dumps kv.2) ++ r)
    with (34 :: concat (map esc_char kv.1) ++ 34 :: 58 :: dumps kv.2 ++ r)
    by (simpl; by rewrite <- app_assoc).
  cbn [parse_members]. change (34 =? 34) with true. cbv iota. rewrite scan_key by done.
  rewrite skip_ws_id by done. change (58 =? 58) with true. cbv iota.
  rewrite skip_ws_dumps, Hv by done. done.
Qed.

Lemma parse_members_join l fuel rest :
  l ≠ [] → Forall (λ kv, is_str kv.1 = true ∧ reads_back kv.2) l →
  (2 * length (join 44 (map member_of l)) + 1 ≤ fuel)%nat →
  parse_members hook fuel (join 44 (map member_of l) ++ 125 :: rest) = Some (map_snd canon l, rest).
Proof.
  revert fuel. induction l as [|x l IH]; [done|]. intros fuel _ Hl Hf.
  apply Forall_cons_1 in Hl as [[Hk Hx] Hl]. destruct fuel as [|f]; [lia|].
  assert (2 * length (dumps x.2) ≤ 2 * length (member_of x))%nat as Hm.
  { unfold member_of, member_text. simpl. rewrite !length_app. simpl. lia. }
  destruct l as [|y l].
  - cbn [map join] in *. by rewrite parse_members_step by (done || lia).
  - cbn [map] in *. rewrite join_cons2 in *. rewrite <- app_assoc.
    rewrite !length_app in Hf. cbn [length] in Hf. cbn [app].
    rewrite parse_members_step by (done || lia). rewrite skip_ws_id by done.
    change (44 =? 125) with false. change (44 =? 44) with true. cbv iota.
    assert (∃ t, join 44 (member_of y :: map member_of l) = 34 :: t) as (t & E).
    { destruct l; [by eexists|]. cbn [map]. rewrite join_cons2. by eexists. }
    assert (skip_ws (join 44 (member_of y :: map member_of l) ++ 125 :: rest)
      = join 44 (member_of y :: map member_of l) ++ 125 :: rest) as ->
      by (by rewrite E).
    rewrite IH by (done || lia). done.
Qed.

Lemma reads_back_array l : Forall reads_back l → reads_back (JArr l).
Proof.
  intros Hl fuel rest Hf Hr. cbn [dumps canon] in *. destruct fuel as [|f]; [simpl in Hf; lia|].
  destruct l as [|x l]; [done|]. cbn [length] in Hf. rewrite length_app in Hf. simpl in Hf.
  cbn [app]. rewrite <- app_assoc. cbn [app parse_value].
  change (91 =? 34) with false. change (91 =? 123) with false. change (91 =? 91) with true.
  cbv iota.
  assert (∃ c t, join 44 (map dumps (x :: l)) = c :: t ∧ json_ws c = false ∧ c ≠ 93)
    as (c & t & E & Hws & Hc).
  { destruct (dumps_head x) as (c & t & E & H1 & H2 & _).
    destruct l; cbn [map]; [by exists c, t|]. rewrite join_cons2, E. by eexists c, _. }
  pose proof (parse_elements_join (x :: l) f rest ltac:(done) Hl) as HP.
  rewrite E in *. cbn [app] in *. rewrite skip_ws_id by done.
  destruct (Z.eqb_spec c 93); [done|].
  rewrite HP; [done|]. simpl in E |- *. rewrite E in Hf. simpl in Hf. lia.
Qed.

Lemma reads_back_object kvs :
  Forall (λ kv, is_str kv.1 = true ∧ reads_back kv.2) kvs → NoDup (map fst kvs) →
  reads_back (JObj kvs).
Proof.
  intros Hl Hnd fuel rest Hf Hr. cbn [dumps canon] in *. rewrite members_text_eq in *.
  change (map (λ kv : str * json, (kv.1, canon kv.2)) kvs) with (map_snd canon kvs).
  rewrite sort_kvs_map. destruct fuel as [|f]; [simpl in Hf; lia|].
  pose proof (sort_kvs_Permutation kvs) as Hp.
  destruct (sort_kvs kvs) as [|x l] eqn:Es; [by cbn; rewrite Hhook by constructor|].
  rewrite <- Hp in Hl. assert (NoDup (map fst (x :: l))) as Hnd' by (by rewrite Hp).
  cbn [length] in Hf. rewrite length_app in Hf. cbn [length] in Hf.
  cbn [app]. rewrite <- app_assoc. cbn [app parse_value].
  change (123 =? 34) with false. change (123 =? 123) with true. cbv iota.
  assert (∃ t, join 44 (map member_of (x :: l)) = 34 :: t) as (t & E).
  { destruct l; cbn [map]; [by eexists|]. rewrite join_cons2. by eexists. }
  pose proof (parse_members_join (x :: l) f rest ltac:(done) Hl ltac:(lia)) as HP.
  rewrite E in *. cbn [app] in *. rewrite skip_ws_id by done.
  change (34 =? 125) with false. cbv iota. rewrite HP.
  rewrite Hhook; [done|]. by rewrite map_fst_map_snd.
Qed.

Lemma reads_back_wf v : json_wf v = true → reads_back v.
Proof.
  induction v as [|b|n|s|l IH|kvs IH] using json_nested_ind; cbn [json_wf].
  - intros _ [|f] rest Hf _; [simpl in Hf; lia|]. done.
  - intros _ [|f] rest Hf _; [destruct b; simpl in Hf; lia|]. by destruct b.
  - intros _ [|f] rest Hf Hr.
    { destruct (dumps_head (JInt n)) as (c & t & E & _). rewrite E in Hf. simpl in Hf. lia. }
    pose proof (scan_number_int n rest Hr) as HP.
    cbn [dumps canon] in *.
    assert (∃ c t, str_int n = c :: t ∧ (c = 45 ∨ is_digit c = true)) as (c & t & E & Hc).
    { unfold str_int. destruct (Z.ltb_spec n 0); [eexists _, _; split; [reflexivity|by left]|].
      destruct (dec_nonneg_shape n ltac:(lia)) as (Hd & d & ds & E & _).
      rewrite E in *. simpl in Hd. apply andb_prop in Hd as [Hd _]. eauto. }
    rewrite E in *. cbn [app parse_value] in *. unfold is_digit in Hc.
    destruct (Z.eqb_spec c 34); [lia|]. destruct (Z.eqb_spec c 123); [lia|].
    destruct (Z.eqb_spec c 91); [lia|].
    change (lit "null") with (110 :: lit "ull"). change (lit "true") with (116 :: lit "rue").
    change (lit "false") with (102 :: lit "alse").
    rewrite !strip_prefix_head by lia. done.
  - intros Hs [|f] rest Hf _; [simpl in Hf; lia|]. cbn [dumps]. unfold dump_str.
    cbn [app]. rewrite <- app_assoc. cbn [app parse_value]. change (34 =? 34) with true.
    cbv iota. by rewrite scan_string_dump.
  - intros Hl. apply reads_back_array. rewrite Forall_forall in *.
    rewrite forallb_forall in Hl. intros x Hx. apply IH; [done|]. by apply Hl, list_elem_of_In.
  - intros [Hl Hnd%bool_decide_eq_true]%andb_prop. apply reads_back_object; [|done].
    rewrite Forall_forall in *. rewrite forallb_forall in Hl. intros x Hx.
    apply list_elem_of_In in Hx as Hx'. apply Hl, andb_prop in Hx' as [H1 H2].
    split; [done|]. by apply IH.
Qed.

Lemma read_back_with v : json_wf v = true → loads_with hook (dumps v) = Some (canon v).
Proof.
  intros Hv. unfold loads_with. rewrite <- (app_nil_r (dumps v)) at 2.
  rewrite skip_ws_dumps, (reads_back_wf v Hv) by (done || lia). done.
Qed.
End ReadBack.

Lemma read_back v : json_wf v = true → loads (dumps v) = Some (canon v).
Proof. apply read_back_with. intros kvs H. by rewrite dict_of_pairs_NoDup. Qed.

(** Reading canonical JSON text back gives the printed value with its keys
    sorted: [json.loads(json.dumps(v, sort_keys=True, ...))] loses nothing. *)
Theorem loads_dumps v : json_wf v = true → loads (dumps v) = Some (canon v).
Proof. apply read_back. Qed.

Definition sample_json : json :=
  JObj [(lit "state", JStr (lit "acknowledged")); (lit "attempt", JInt 3);
        (lit "codes", JArr [JNull; JBool true; JInt (-7)])].

Lemma loads_dumps_witness : loads (dumps sample_json) = Some (canon sample_json).
Proof. apply loads_dumps. vm_compute. reflexivity. Defined.

(** ** Digests identify values *)

(** Characters of the printed text: a property of characters that every ASCII character has
    carries over from the strings of a value to its text. *)
Section Characters.
Context (Q : Z → bool) (HQ : ∀ c, 0 ≤ c < 128 → Q c = true) (Hpos : ∀ c, Q c = true → 0 ≤ c).

Fixpoint json_chars (v : json) : bool :=
  match v with
  | JStr s => forallb Q s
  | JArr l => forallb json_chars l
  | JObj kvs => forallb (λ kv, forallb Q kv.1 && json_chars kv.2) kvs
  | _ => true
  end.

Lemma esc_chars c : Q c = true → forallb Q (esc_char c) = true.
Proof.
  intros Hc. pose proof (Hpos c Hc). unfold esc_char.
  repeat case_match; cbn [forallb]; rewrite ?Hc; repeat rewrite HQ; try done; try lia.
  all: unfold hex_digit; byte_cases; Z.to_euclidean_division_equations; lia.
Qed.

Lemma dump_str_chars s : forallb Q s = true → forallb Q (dump_str s) = true.
Proof.
  intros Hs. unfold dump_str. cbn [forallb]. rewrite forallb_app. cbn [forallb].
  rewrite !HQ by lia. rewrite andb_true_r.
  induction s as [|c s IH]; [done|]. cbn in *. apply andb_prop in Hs as [Hc Hs].
  by rewrite forallb_app, esc_chars, IH.
Qed.

Lemma int_chars n : forallb Q (str_int n) = true.
Proof.
  assert (∀ m, 0 ≤ m → forallb Q (dec_nonneg m) = true) as H.
  { intros m Hm. destruct (dec_nonneg_shape m Hm) as [Hd _]. rewrite forallb_forall in Hd.
    apply forallb_forall. intros c Hc%Hd. apply HQ. unfold is_digit in Hc. lia. }
  unfold str_int. destruct (Z.ltb_spec n 0); cbn [forallb]; rewrite ?HQ, ?H by lia; done.
Qed.

Lemma join_chars l : Forall (λ s, forallb Q s = true) l → forallb Q (join 44 l) = true.
Proof.
  induction 1 as [|x l Hx Hl IH]; [done|]. destruct l as [|y l]; [done|].
  rewrite join_cons2, forallb_app, Hx. cbn [forallb]. by rewrite HQ, IH by lia.
Qed.

Lemma dumps_chars v : json_chars v = true → forallb Q (dumps v) = true.
Proof.
  induction v as [|[]|n|s|l IH|kvs IH] using json_nested_ind; cbn [json_chars dumps]; intros Hv;
    [cbn; rewrite ?HQ by lia; done..|apply int_chars|by apply dump_str_chars| |];
    cbn [forallb]; rewrite forallb_app; cbn [forallb]; rewrite !HQ by lia;
    rewrite andb_true_r, join_chars; try done.
  - apply Forall_map. rewrite Forall_forall in *. rewrite forallb_forall in Hv.
    intros x Hx. apply IH; [done|]. by apply Hv, list_elem_of_In.
  - rewrite members_text_eq. apply Forall_map. rewrite sort_kvs_Permutation.
    rewrite Forall_forall in *. rewrite forallb_forall in Hv. intros x Hx.
    apply list_elem_of_In in Hx as Hx'. apply Hv, andb_prop in Hx' as [H1 H2].
    cbv beta. unfold member_of, member_text. cbn [fst snd].
    rewrite forallb_app, dump_str_chars by done. cbn [forallb]. rewrite HQ by lia. by apply IH.
Qed.
End Characters.

Lemma json_wf_chars v : json_wf v = true → json_chars code_point v = true.
Proof.
  induction v as [|b|n|s|l IH|kvs IH] using json_nested_ind; cbn [json_wf json_chars]; try done.
  - rewrite !forallb_forall. rewrite Forall_forall in IH. intros Hv x Hx.
    apply IH; [by apply list_elem_of_In|by apply Hv].
  - intros [Hv _]%andb_prop. rewrite forallb_forall in *. rewrite Forall_forall in IH.
    intros x Hx. pose proof (Hv x Hx) as [H1 H2]%andb_prop. apply andb_true_iff. split; [done|].
    apply IH; [by apply list_elem_of_In|done].
Qed.

Lemma dumps_is_str v : json_wf v = true → is_str (dumps v) = true.
Proof.
  intros Hv%json_wf_chars. apply dumps_chars; [| |done]; intros c; unfold code_point; lia.
Qed.

(** Canonical digests do not depend on the order in which a dict was built. *)
Theorem canonical_json_hash_order kvs1 kvs2 :
  NoDup (map fst kvs1) → kvs1 ≡ₚ kvs2 →
  canonical_json_hash (JObj kvs1) = canonical_json_hash (JObj kvs2).
Proof.
  intros Hnd Hp. unfold canonical_json_hash. cbn [dumps]. rewrite !members_text_eq.
  by rewrite (sort_kvs_unique kvs1 kvs2).
Qed.

Lemma canonical_json_hash_order_witness :
  canonical_json_hash (JObj [(lit "b", JInt 1); (lit "a", JNull)])
  = canonical_json_hash (JObj [(lit "a", JNull); (lit "b", JInt 1)]).
Proof.
  apply canonical_json_hash_order.
  - apply (bool_decide_unpack _). vm_compute. exact I.
  - apply Permutation_swap.
Defined.

(** A sorted list of members is left alone. *)
Lemma sort_kvs_sorted {A} (l : list (str * A)) : StronglySorted key_le l → sort_kvs l = l.
Proof.
  induction 1 as [|x l Hl IH Hx]; [done|]. simpl. rewrite IH.
  destruct l as [|y l]; [done|]. simpl. apply Forall_cons_1 in Hx as [Hxy _]. by rewrite Hxy.
Qed.

(** Sorting the keys first changes no text. *)
Lemma dumps_canon v : dumps (canon v) = dumps v.
Proof.
  induction v as [|[]|n|s|l IH|kvs IH] using json_nested_ind; try done.
  - cbn [canon dumps]. do 3 f_equal. rewrite map_map. apply map_ext_in.
    intros x Hx. rewrite Forall_forall in IH. by apply IH, list_elem_of_In.
  - cbn [canon dumps]. rewrite !members_text_eq. do 3 f_equal.
    change (map (λ kv : str * json, (kv.1, canon kv.2)) kvs) with (map_snd canon kvs).
    rewrite (sort_kvs_sorted (sort_kvs _)) by apply sort_kvs_StronglySorted.
    rewrite sort_kvs_map. unfold map_snd. rewrite map_map. apply map_ext_in.
    intros x Hx%list_elem_of_In. rewrite sort_kvs_Permutation in Hx.
    rewrite Forall_forall in IH. unfold member_of, member_text. cbn [fst snd]. by rewrite IH.
Qed.

Lemma canon_canon v : canon (canon v) = canon v.
Proof.
  induction v as [|b|n|s|l IH|kvs IH] using json_nested_ind; try done; cbn [canon]; f_equal.
  - rewrite map_map. apply map_ext_in. intros x Hx. rewrite Forall_forall in IH.
    by apply IH, list_elem_of_In.
  - change (map (λ kv : str * json, (kv.1, canon kv.2)) kvs) with (map_snd canon kvs).
    change (map (λ kv : str * json, (kv.1, canon kv.2)) ?l) with (map_snd canon l).
    rewrite (sort_kvs_map canon (sort_kvs (map_snd canon kvs))).
    rewrite (sort_kvs_sorted (sort_kvs _)) by apply sort_kvs_StronglySorted.
    rewrite (sort_kvs_map canon kvs). unfold map_snd. rewrite map_map. apply map_ext_in.
    intros x Hx%list_elem_of_In. rewrite sort_kvs_Permutation in Hx.
    rewrite Forall_forall in IH. cbn [fst snd]. by rewrite IH.
Qed.

Lemma canonical_json_hash_canon v : canonical_json_hash (canon v) = canonical_json_hash v.
Proof. unfold canonical_json_hash. by rewrite dumps_canon. Qed.

Lemma canonical_json_hash_pattern v d :
  canonical_json_hash v = Some d → digest_pattern d = true.
Proof.
  unfold canonical_json_hash. destruct (utf8_encode (dumps v)) as [b|]; [|done].
  intros [= <-]. destruct (sha256_hex_shape b) as [Hl Hh]. unfold digest_pattern.
  rewrite !andb_true_iff. split_and!; [done|exact Hh|].
  unfold len. cbn [length]. rewrite Hl. done.
Qed.

Lemma dumps_inj v w :
  json_wf v = true → json_wf w = true → dumps v = dumps w → canon v = canon w.
Proof.
  intros Hv%read_back Hw%read_back E. congruence.
Qed.

Lemma canonical_json_hash_eq v w h :
  json_wf v = true → json_wf w = true →
  canonical_json_hash v = Some h → canonical_json_hash w = Some h →
  canon v = canon w ∨
  ∃ b1 b2, utf8_encode (dumps v) = Some b1 ∧ utf8_encode (dumps w) = Some b2 ∧
           b1 ≠ b2 ∧ sha256 b1 = sha256 b2.
Proof.
  intros Hv Hw. unfold canonical_json_hash.
  destruct (utf8_encode (dumps v)) as [b1|] eqn:E1; [|done].
  destruct (utf8_encode (dumps w)) as [b2|] eqn:E2; [|done].
  intros [= <-] [= H2]. apply sha256_hex_inj in H2.
  destruct (decide (b1 = b2)) as [->|Hne]; [left|by right; exists b1, b2].
  apply dumps_inj; [done..|].
  eapply utf8_encode_inj; eauto using dumps_is_str.
Qed.

(** Two values with the same canonical digest are equal up to key order,
    unless their UTF-8 texts are an explicit SHA-256 collision. *)
Theorem canonical_json_hash_binds v w h :
  json_wf v = true → json_wf w = true →
  canonical_json_hash v = Some h → canonical_json_hash w = Some h →
  canon v = canon w ∨
  ∃ b1 b2, utf8_encode (dumps v) = Some b1 ∧ utf8_encode (dumps w) = Some b2 ∧
           b1 ≠ b2 ∧ sha256 b1 = sha256 b2.
Proof. apply canonical_json_hash_eq. Qed.

Lemma canonical_json_hash_binds_witness :
  ∃ h, canonical_json_hash sample_json = Some h ∧
    (canon sample_json = canon (canon sample_json) ∨
     ∃ b1 b2, utf8_encode (dumps sample_json) = Some b1 ∧
              utf8_encode (dumps (canon sample_json)) = Some b2 ∧
              b1 ≠ b2 ∧ sha256 b1 = sha256 b2).
Proof.
  eexists. split; [vm_compute; reflexivity|].
  eapply canonical_json_hash_binds; vm_compute; reflexivity.
Defined.

(** ** Identifiers and dict items *)

(** A [UUID] is its 128-bit integer. *)
Abbreviation uuid := Z (only parsing).

(** [(get_byte(uuid_send(id), 6) >> 4) = 7 and (get_byte(uuid_send(id), 8) & 192) = 128] *)
Definition uuid7_shape (id : uuid) : bool :=
  (Z.land (Z.shiftr id 76) 15 =? 7) && (Z.land (Z.shiftr id 62) 3 =? 2).

(** A version 7 identifier, for runs *)
Definition rid (n : Z) : uuid := 0x01900000000070008000000000000000 + n.

(** [str(uuid)] *)
Definition uuid_text (u : uuid) : str :=
  let h := hex_bytes (to_bytes_be 16 u) in
  take 8 h ++ 45 :: take 4 (drop 8 h) ++ 45 :: take 4 (drop 12 h) ++ 45 ::
  take 4 (drop 16 h) ++ 45 :: drop 20 h.

Definition json_uuid (u : uuid) : json := JStr (uuid_text u).
Definition json_opt {A} (f : A → json) (o : option A) : json :=
  match o with Some a => f a | None => JNull end.
Definition kv (k : string) (v : json) : str * json := (lit k, v).

(** ** Texts of identifiers and values of members *)

Definition uuid_ok (u : uuid) : Prop := 0 ≤ u < 2 ^ 128.

Lemma uuid_text_inj u v : uuid_ok u → uuid_ok v → uuid_text u = uuid_text v → u = v.
Proof.
  intros Hu Hv. unfold uuid_text. intros H.
  pose proof (hex_bytes_length (to_bytes_be 16 u)) as L1. pose proof (hex_bytes_length (to_bytes_be 16 v)) as L2.
  rewrite to_bytes_be_length in L1, L2.
  enough (hex_bytes (to_bytes_be 16 u) = hex_bytes (to_bytes_be 16 v)) as E.
  { apply hex_bytes_inj in E; [|apply to_bytes_be_bytes..].
    by apply to_bytes_be_inj in E; [..|unfold uuid_ok in *; change (256 ^ Z.of_nat 16) with (2 ^ 128)]. }
  revert H. generalize (hex_bytes (to_bytes_be 16 u)) as a, (hex_bytes (to_bytes_be 16 v)) as b, L1, L2.
  intros a b La Lb H. do 32 (destruct a as [|? a]; [done|]). destruct a; [|done].
  do 32 (destruct b as [|? b]; [done|]). destruct b; [|done]. cbn in H. by simplify_eq.
Qed.

Lemma is_str_hex s : forallb is_hex_digit s = true → is_str s = true.
Proof.
  unfold is_str. rewrite !forallb_forall. intros H x Hx. apply H in Hx.
  unfold is_hex_digit, is_digit, code_point in *. lia.
Qed.

Lemma is_str_app a b : is_str (a ++ b) = is_str a && is_str b.
Proof. apply forallb_app. Qed.

Lemma is_str_cons c s : is_str (c :: s) = code_point c && is_str s.
Proof. done. Qed.

Lemma is_str_take n s : is_str s = true → is_str (take n s) = true.
Proof. rewrite <- (take_drop n s) at 1. rewrite is_str_app. by intros [? _]%andb_prop. Qed.

Lemma is_str_drop n s : is_str s = true → is_str (drop n s) = true.
Proof. rewrite <- (take_drop n s) at 1. rewrite is_str_app. by intros [_ ?]%andb_prop. Qed.

Lemma uuid_text_str u : is_str (uuid_text u) = true.
Proof.
  unfold uuid_text.
  pose proof (is_str_hex _ (hex_bytes_digits _ (to_bytes_be_bytes 16 u))) as H.
  repeat (rewrite is_str_app || rewrite is_str_cons). rewrite !andb_true_iff. split_and!; first [done|auto using is_str_take, is_str_drop].
Qed.

(** Objects with the same keys in the same order agree member by member. *)
Lemma canon_obj_inj a b :
  map fst a = map fst b → NoDup (map fst a) → canon (JObj a) = canon (JObj b) →
  map (λ kv, canon kv.2) a = map (λ kv, canon kv.2) b.
Proof.
  cbn [canon]. intros Hk Hnd [= H]. set (f := λ kv : str * json, (kv.1, canon kv.2)) in *.
  assert (map f a ≡ₚ map f b) as Hp by by rewrite <- (sort_kvs_Permutation (map f a)), H, sort_kvs_Permutation.
  assert (∀ l, map fst (map f l) = map fst l) as Hf by (intros l; rewrite map_map; by apply map_ext).
  assert (∀ l k : list (str * json), map fst l = map fst k → NoDup (map fst l) → l ≡ₚ k → l = k) as Hu.
  { clear. induction l as [|[x v] l IH]; intros [|[y w] k]; try done. cbn. intros [= -> Hk] [Hx Hnd]%NoDup_cons Hp.
    assert (v = w) as ->.
    { assert ((y, w) ∈ (y, v) :: l) as [[= ->]|Hin]%elem_of_cons by (rewrite Hp; apply list_elem_of_here); [done|].
      destruct Hx. apply list_elem_of_fmap. by exists (y, w). }
    f_equal. apply IH; [done..|]. by apply (Permutation_cons_inv Hp). }
  specialize (Hu (map f a) (map f b)). rewrite !Hf in Hu. specialize (Hu Hk Hnd Hp).
  apply (f_equal (map snd)) in Hu. by rewrite !map_map in Hu.
Qed.
