(* ===== verification/Instant.v ===== *)
(** * Instants: aware UTC datetimes

    A [datetime] of the repository is timezone aware and in UTC (PostgreSQL
    [timestamptz] values and their normalisations).  It is represented by the
    number of microseconds since 0001-01-01T00:00:00Z, the smallest datetime
    Python can hold; [instant_ok] is the range Python can represent.  The file
    follows the proleptic Gregorian arithmetic of the [datetime] module
    ([_ord2ymd], [_ymd2ord]) so that [isoformat] texts, which the repository
    stores inside hashed JSON receipts, can be computed, and proves that
    [datetime.fromisoformat] reads them back. *)

From S2P Require Import Prelude Text.

Abbreviation instant := Z (only parsing).

Definition us_per_second : Z := 1000000.
Definition us_per_day : Z := 86400 * us_per_second.

(** 9999-12-31 is day 3652059. *)
Definition max_ordinal : Z := 3652059.
Definition instant_ok (t : instant) : bool := (0 <=? t) && (t <? max_ordinal * us_per_day).

(** [t + timedelta(seconds=s)]; [None] is Python's [OverflowError]. *)
Definition add_seconds (t : instant) (s : Z) : option instant :=
  let t' := t + s * us_per_second in
  if instant_ok t' then Some t' else None.

Definition is_leap (y : Z) : bool :=
  (y mod 4 =? 0) && (negb (y mod 100 =? 0) || (y mod 400 =? 0)).

Definition days_before_year (y : Z) : Z :=
  let y := y - 1 in y * 365 + y / 4 - y / 100 + y / 400.

Definition days_before_month_table : list Z :=
  [0; 0; 31; 59; 90; 120; 151; 181; 212; 243; 273; 304; 334].

Definition days_before_month (leap : bool) (m : Z) : Z :=
  nth (Z.to_nat m) days_before_month_table 0 + Z.b2z ((2 <? m) && leap).

Definition days_in_month (leap : bool) (m : Z) : Z :=
  if m =? 2 then 28 + Z.b2z leap
  else if (m =? 4) || (m =? 6) || (m =? 9) || (m =? 11) then 30 else 31.

Definition ymd2ord (y m d : Z) : Z :=
  days_before_year y + days_before_month (is_leap y) m + d.

(** Month and day of the zero-based day [n] of a year ([_ord2ymd]'s tail). *)
Definition month_day (leap : bool) (n : Z) : Z * Z :=
  let month := Z.shiftr (n + 50) 5 in
  let preceding := days_before_month leap month in
  if n <? preceding
  then (month - 1, n - (preceding - days_in_month leap (month - 1)) + 1)
  else (month, n - preceding + 1).

Definition ord2ymd (ord : Z) : Z * Z * Z :=
  let n := ord - 1 in
  let n400 := n / 146097 in let n := n mod 146097 in
  let n100 := n / 36524 in let n := n mod 36524 in
  let n4 := n / 1461 in let n := n mod 1461 in
  let n1 := n / 365 in let n := n mod 365 in
  let year := n400 * 400 + 1 + n100 * 100 + n4 * 4 + n1 in
  if (n1 =? 4) || (n100 =? 4) then (year - 1, 12, 31)
  else
    let leap := (n1 =? 3) && (negb (n4 =? 24) || (n100 =? 3)) in
    let '(m, d) := month_day leap n in (year, m, d).

(** [t.isoformat()] for a UTC datetime; a zero microsecond part is omitted. *)
Definition isoformat (t : instant) : str :=
  let '(y, mo, d) := ord2ymd (t / us_per_day + 1) in
  let us := t mod us_per_day in
  let sec := us / us_per_second in
  let f := us mod us_per_second in
  pad_dec 4 y ++ 45 :: pad_dec 2 mo ++ 45 :: pad_dec 2 d ++ 84 ::
  pad_dec 2 (sec / 3600) ++ 58 :: pad_dec 2 (sec / 60 mod 60) ++ 58 :: pad_dec 2 (sec mod 60) ++
  (if f =? 0 then [] else 46 :: pad_dec 6 f) ++ lit "+00:00".

Definition instant_of (y mo d h mi s f : Z) : option instant :=
  if (1 <=? y) && (y <=? 9999) && (1 <=? mo) && (mo <=? 12)
     && (1 <=? d) && (d <=? days_in_month (is_leap y) mo)
     && (h <? 24) && (mi <? 60) && (s <? 60)
  then Some ((ymd2ord y mo d - 1) * us_per_day + ((h * 60 + mi) * 60 + s) * us_per_second + f)
  else None.

(** [datetime.fromisoformat(s)] on the UTC texts [isoformat] produces; the
    other ISO 8601 spellings Python accepts never occur in stored receipts. *)
Definition fromisoformat (s : str) : option instant :=
  match s with
  | y1 :: y2 :: y3 :: y4 :: e1 :: m1 :: m2 :: e2 :: d1 :: d2 :: e3 ::
    h1 :: h2 :: e4 :: i1 :: i2 :: e5 :: s1 :: s2 :: r =>
      if forallb is_digit [y1; y2; y3; y4; m1; m2; d1; d2; h1; h2; i1; i2; s1; s2]
         && (e1 =? 45) && (e2 =? 45) && (e3 =? 84) && (e4 =? 58) && (e5 =? 58)
      then
        let at_us f :=
          instant_of (digits_value [y1; y2; y3; y4]) (digits_value [m1; m2])
            (digits_value [d1; d2]) (digits_value [h1; h2]) (digits_value [i1; i2])
            (digits_value [s1; s2]) f in
        if str_eqb r (lit "+00:00") then at_us 0
        else match r with
        | p :: f1 :: f2 :: f3 :: f4 :: f5 :: f6 :: z =>
            if (p =? 46) && forallb is_digit [f1; f2; f3; f4; f5; f6]
               && str_eqb z (lit "+00:00")
            then at_us (digits_value [f1; f2; f3; f4; f5; f6]) else None
        | _ => None
        end
      else None
  | _ => None
  end.

(** ** Calendar arithmetic *)

Definition month_day_ok (leap : bool) (n : Z) : bool :=
  let '(m, d) := month_day leap n in
  (1 <=? m) && (m <=? 12) && (1 <=? d) && (d <=? days_in_month leap m)
  && (days_before_month leap m + d - 1 =? n).

Lemma month_day_table leap :
  forallb (month_day_ok leap) (seqZ 0 (365 + Z.b2z leap)) = true.
Proof. destruct leap; vm_compute; reflexivity. Qed.

Lemma month_day_spec leap n m d :
  0 ≤ n < 365 + Z.b2z leap → month_day leap n = (m, d) →
  1 ≤ m ≤ 12 ∧ 1 ≤ d ≤ days_in_month leap m ∧ days_before_month leap m + d - 1 = n.
Proof.
  intros Hn E. pose proof (month_day_table leap) as Ht. rewrite forallb_forall in Ht.
  specialize (Ht n). rewrite <- list_elem_of_In, elem_of_seqZ in Ht.
  specialize (Ht ltac:(lia)). unfold month_day_ok in Ht. rewrite E in Ht. lia.
Qed.

Lemma days_before_year_parts a b c e :
  0 ≤ b ≤ 3 → 0 ≤ c ≤ 24 → 0 ≤ e ≤ 3 →
  days_before_year (a * 400 + 1 + b * 100 + c * 4 + e)
  = a * 146097 + b * 36524 + c * 1461 + e * 365.
Proof. intros. unfold days_before_year. Z.to_euclidean_division_equations. lia. Qed.

Lemma is_leap_parts a b c e :
  0 ≤ b ≤ 3 → 0 ≤ c ≤ 24 → 0 ≤ e ≤ 3 →
  is_leap (a * 400 + 1 + b * 100 + c * 4 + e) = (e =? 3) && (negb (c =? 24) || (b =? 3)).
Proof.
  intros. unfold is_leap. set (y := a * 400 + 1 + b * 100 + c * 4 + e).
  assert (y mod 4 = (e + 1) mod 4) as ->.
  { subst y. Z.to_euclidean_division_equations. lia. }
  assert (y mod 100 = (c * 4 + e + 1) mod 100) as ->.
  { subst y. Z.to_euclidean_division_equations. lia. }
  assert (y mod 400 = (b * 100 + c * 4 + e + 1) mod 400) as ->.
  { subst y. Z.to_euclidean_division_equations. lia. }
  Z.to_euclidean_division_equations. lia.
Qed.

Definition ymd_ok (ord : Z) (ymd : Z * Z * Z) : Prop :=
  let '(y, m, d) := ymd in
  1 ≤ y ∧ 1 ≤ m ≤ 12 ∧ 1 ≤ d ≤ days_in_month (is_leap y) m ∧ ymd2ord y m d = ord.

Lemma ord2ymd_last_day a b c e ord :
  ord - 1 = a * 146097 + b * 36524 + c * 1461 + e * 365 →
  0 ≤ a → (b = 4 ∧ c = 0 ∧ e = 0 ∨ e = 4 ∧ 0 ≤ b ≤ 3 ∧ 0 ≤ c ≤ 24 ∧ ¬ (c = 24 ∧ b ≠ 3)) →
  ymd_ok ord (a * 400 + 1 + b * 100 + c * 4 + e - 1, 12, 31).
Proof.
  intros Hord Ha Hcase. unfold ymd_ok, ymd2ord.
  assert (∃ b' c', a * 400 + 1 + b * 100 + c * 4 + e - 1 = a * 400 + 1 + b' * 100 + c' * 4 + 3
    ∧ 0 ≤ b' ≤ 3 ∧ 0 ≤ c' ≤ 24 ∧ (c' = 24 → b' = 3)
    ∧ a * 146097 + b' * 36524 + c' * 1461 + 3 * 365 + 365 = ord - 1) as (b' & c' & -> & Hb & Hc & Hl & Ho).
  { destruct Hcase as [(-> & -> & ->)|(-> & ? & ? & ?)]; [exists 3, 24|exists b, c]; lia. }
  rewrite is_leap_parts, days_before_year_parts by lia.
  replace ((3 =? 3) && (negb (c' =? 24) || (b' =? 3))) with true by lia.
  change (days_in_month true 12) with 31. change (days_before_month true 12) with 335. lia.
Qed.

Lemma ord2ymd_spec ord : 1 ≤ ord → ymd_ok ord (ord2ymd ord).
Proof.
  intros Hord. unfold ord2ymd.
  set (a := (ord - 1) / 146097). set (r1 := (ord - 1) mod 146097).
  set (b := r1 / 36524). set (r2 := r1 mod 36524).
  set (c := r2 / 1461). set (r3 := r2 mod 1461).
  set (e := r3 / 365). set (n := r3 mod 365).
  assert (ord - 1 = a * 146097 + r1 ∧ 0 ≤ r1 < 146097 ∧ 0 ≤ a) as (H1 & H1' & Ha)
    by (subst a r1; Z.to_euclidean_division_equations; lia).
  assert (r1 = b * 36524 + r2 ∧ 0 ≤ r2 < 36524) as (H2 & H2')
    by (subst b r2; Z.to_euclidean_division_equations; lia).
  assert (r2 = c * 1461 + r3 ∧ 0 ≤ r3 < 1461) as (H3 & H3')
    by (subst c r3; Z.to_euclidean_division_equations; lia).
  assert (r3 = e * 365 + n ∧ 0 ≤ n < 365) as (H4 & H4')
    by (subst e n; Z.to_euclidean_division_equations; lia).
  clearbody a r1 b r2 c r3 e n.
  destruct ((e =? 4) || (b =? 4)) eqn:E.
  { apply ord2ymd_last_day; lia. }
  destruct (month_day _ n) as [m d] eqn:Em.
  rewrite <- (is_leap_parts a) in Em by lia.
  apply month_day_spec in Em; [|destruct (is_leap _); simpl; lia].
  unfold ymd_ok, ymd2ord. rewrite days_before_year_parts by lia. lia.
Qed.

Lemma days_before_year_mono y z : 1 ≤ y ≤ z → days_before_year y ≤ days_before_year z.
Proof. unfold days_before_year. intros. Z.to_euclidean_division_equations. lia. Qed.

Lemma ymd_ok_year ord y m d : ord ≤ max_ordinal → ymd_ok ord (y, m, d) → y ≤ 9999.
Proof.
  intros Ho (Hy & Hm & Hd & E). destruct (Z.leb_spec y 9999); [done|].
  pose proof (days_before_year_mono 10000 y ltac:(lia)) as Hmono.
  change (days_before_year 10000) with 3652059 in Hmono. unfold max_ordinal in Ho.
  unfold ymd2ord in E.
  assert (0 ≤ days_before_month (is_leap y) m).
  { unfold days_before_month.
    destruct (nth_in_or_default (Z.to_nat m) days_before_month_table 0) as [Hin| ->].
    - assert (Forall (λ x, 0 ≤ x) days_before_month_table) as Ht by (repeat constructor; lia).
      rewrite Forall_forall in Ht. apply list_elem_of_In, Ht in Hin.
      destruct ((2 <? m) && is_leap y); cbn [Z.b2z]; lia.
    - destruct ((2 <? m) && is_leap y); cbn [Z.b2z]; lia. }
  lia.
Qed.

(** ** Texts of instants *)

Lemma digits_value_2 n : 0 ≤ n < 100 →
  digits_value [48 + n / 10 mod 10; 48 + n mod 10] = n.
Proof. intros. exact (pad_dec_value 2 n ltac:(simpl; lia)). Qed.

Lemma str_eqb_refl s : str_eqb s s = true.
Proof. unfold str_eqb. by apply bool_decide_true. Qed.

Lemma is_digit_mod n : is_digit (48 + n mod 10) = true.
Proof. unfold is_digit. pose proof (Z.mod_pos_bound n 10). lia. Qed.

Lemma instant_of_ok y mo d h mi s f :
  1 ≤ y ≤ 9999 → 1 ≤ mo ≤ 12 → 1 ≤ d ≤ days_in_month (is_leap y) mo →
  0 ≤ h < 24 → 0 ≤ mi < 60 → 0 ≤ s < 60 →
  instant_of y mo d h mi s f =
    Some ((ymd2ord y mo d - 1) * us_per_day + ((h * 60 + mi) * 60 + s) * us_per_second + f).
Proof.
  intros. unfold instant_of.
  replace (_ && _) with true; [done|]. symmetry. rewrite !andb_true_iff. lia.
Qed.

Lemma days_in_month_bound leap m : 28 ≤ days_in_month leap m ≤ 31.
Proof. unfold days_in_month. destruct leap; repeat case_match; cbn [Z.b2z]; lia. Qed.

(** The reader applied to a text laid out as [isoformat] lays it out. *)
Lemma fromisoformat_layout y mo d h mi s f :
  0 ≤ y < 10000 → 0 ≤ mo < 100 → 0 ≤ d < 100 → 0 ≤ h < 100 → 0 ≤ mi < 100 →
  0 ≤ s < 100 → 0 ≤ f < 1000000 →
  fromisoformat
    (pad_dec 4 y ++ 45 :: pad_dec 2 mo ++ 45 :: pad_dec 2 d ++ 84 ::
     pad_dec 2 h ++ 58 :: pad_dec 2 mi ++ 58 :: pad_dec 2 s ++
     (if f =? 0 then [] else 46 :: pad_dec 6 f) ++ lit "+00:00")
  = instant_of y mo d h mi s f.
Proof.
  intros Hy Hmo Hd Hh Hmi Hs Hf.
  pose proof (pad_dec_value 4 y ltac:(simpl; lia)) as Ey.
  pose proof (pad_dec_value 2 mo ltac:(simpl; lia)) as Emo.
  pose proof (pad_dec_value 2 d ltac:(simpl; lia)) as Ed.
  pose proof (pad_dec_value 2 h ltac:(simpl; lia)) as Eh.
  pose proof (pad_dec_value 2 mi ltac:(simpl; lia)) as Emi.
  pose proof (pad_dec_value 2 s ltac:(simpl; lia)) as Es.
  pose proof (pad_dec_value 6 f ltac:(simpl; lia)) as Ef.
  cbn [pad_dec app] in Ey, Emo, Ed, Eh, Emi, Es, Ef.
  cbn [pad_dec app]. unfold fromisoformat.
  cbn [forallb]. rewrite !is_digit_mod, !Z.eqb_refl. cbn [andb].
  rewrite Ey, Emo, Ed, Eh, Emi, Es.
  destruct (Z.eqb_spec f 0) as [->|Hne]; cbn [app].
  - by rewrite str_eqb_refl.
  - replace (str_eqb (46 :: _) (lit "+00:00")) with false by reflexivity.
    cbn [forallb]. rewrite !is_digit_mod, !Z.eqb_refl, str_eqb_refl. cbn [andb].
    by rewrite Ef.
Qed.

(** The fields [isoformat] and [strftime] print *)
Definition civil (t : instant) : Z * Z * Z * Z * Z * Z * Z :=
  let '(y, mo, d) := ord2ymd (t / us_per_day + 1) in
  let us := t mod us_per_day in
  let sec := us / us_per_second in
  (y, mo, d, sec / 3600, sec / 60 mod 60, sec mod 60, us mod us_per_second).

Lemma civil_spec t y mo d h mi s f :
  instant_ok t = true → civil t = (y, mo, d, h, mi, s, f) →
  (1 ≤ y ≤ 9999 ∧ 1 ≤ mo ≤ 12 ∧ 1 ≤ d ≤ 31 ∧ 0 ≤ h < 24 ∧ 0 ≤ mi < 60 ∧ 0 ≤ s < 60 ∧ 0 ≤ f < 1000000) ∧
  instant_of y mo d h mi s f = Some t.
Proof.
  unfold instant_ok, civil. intros Ht.
  set (day := t / us_per_day). set (us := t mod us_per_day).
  assert (t = day * us_per_day + us ∧ 0 ≤ us < us_per_day ∧ 0 ≤ day < max_ordinal)
    as (Et & Hus & Hday).
  { unfold us_per_day, us_per_second, max_ordinal in *. subst day us.
    Z.to_euclidean_division_equations. lia. }
  pose proof (ord2ymd_spec (day + 1) ltac:(lia)) as Hymd.
  destruct (ord2ymd (day + 1)) as [[y' mo'] d'].
  pose proof (ymd_ok_year (day + 1) y' mo' d' ltac:(lia) Hymd) as Hy.
  destruct Hymd as (Hy1 & Hmo & Hd & Eo).
  pose proof (days_in_month_bound (is_leap y') mo').
  set (sec := us / us_per_second). set (f' := us mod us_per_second).
  assert (us = sec * us_per_second + f' ∧ 0 ≤ f' < 1000000 ∧ 0 ≤ sec < 86400) as (Eus & Hf & Hsec).
  { unfold us_per_day, us_per_second in *. subst sec f'. Z.to_euclidean_division_equations. lia. }
  assert (sec = (sec / 3600 * 60 + sec / 60 mod 60) * 60 + sec mod 60) as Esec
    by (Z.to_euclidean_division_equations; lia).
  assert (0 ≤ sec / 3600 < 24 ∧ 0 ≤ sec / 60 mod 60 < 60 ∧ 0 ≤ sec mod 60 < 60) as (?&?&?)
    by (Z.to_euclidean_division_equations; lia).
  clearbody sec f'. intros [= <- <- <- <- <- <- <-]. split; [lia|]. rewrite instant_of_ok by lia.
  f_equal. rewrite <- Esec, Eo, Et, Eus. lia.
Qed.

Lemma parse_isoformat t :
  instant_ok t = true → fromisoformat (isoformat t) = Some t.
Proof.
  intros Ht. destruct (civil t) as [[[[[[y mo] d] h] mi] s] f] eqn:E.
  pose proof (civil_spec _ _ _ _ _ _ _ _ Ht E) as [? <-]. unfold civil in E. unfold isoformat.
  destruct (ord2ymd _) as [[y' mo'] d']. injection E as -> -> -> -> -> -> ->. by rewrite fromisoformat_layout by lia.
Qed.

(** A stored timestamp text is read back as the instant it was written
    from: [datetime.fromisoformat(t.isoformat()) == t]. *)
Theorem fromisoformat_isoformat t :
  instant_ok t = true → fromisoformat (isoformat t) = Some t.
Proof. apply parse_isoformat. Qed.

Lemma fromisoformat_isoformat_witness :
  fromisoformat (isoformat 63844765323000450) = Some 63844765323000450.
Proof. apply fromisoformat_isoformat. vm_compute. reflexivity. Defined.

Lemma isoformat_is_ascii t : Forall (λ c, 0 ≤ c < 128) (isoformat t).
Proof.
  assert (∀ k n, Forall (λ c, 0 ≤ c < 128) (pad_dec k n)) as Hp.
  { intros k n. pose proof (pad_dec_digits k n) as H. rewrite forallb_forall in H.
    apply Forall_forall. intros c Hc%list_elem_of_In%H. unfold is_digit in Hc. lia. }
  unfold isoformat. destruct (ord2ymd _) as [[y mo] d].
  assert (Forall (λ c, 0 ≤ c < 128) (lit "+00:00")) by (repeat constructor; lia).
  case_match;
    repeat first [done | apply Hp | apply Forall_nil_2 | apply Forall_app_2
                 | apply Forall_cons_2; [lia|]].
Qed.

(** ** The reader only returns representable instants *)

Lemma digits_value_bounds l :
  forallb is_digit l = true → 0 ≤ digits_value l < 10 ^ Z.of_nat (length l).
Proof.
  induction l as [|c l IH] using rev_ind; [done|].
  rewrite forallb_app, andb_true_iff. simpl. rewrite andb_true_r. intros [Hl Hc].
  specialize (IH Hl). unfold is_digit in Hc. unfold digits_value in *.
  rewrite fold_left_app. simpl. rewrite length_app, Nat.add_1_r, Nat2Z.inj_succ, Z.pow_succ_r; lia.
Qed.

Lemma month_end leap m :
  1 ≤ m ≤ 12 →
  0 ≤ days_before_month leap m ∧ days_before_month leap m + days_in_month leap m ≤ 365 + Z.b2z leap.
Proof.
  intros Hm.
  assert (m = 1 ∨ m = 2 ∨ m = 3 ∨ m = 4 ∨ m = 5 ∨ m = 6 ∨ m = 7 ∨ m = 8 ∨ m = 9 ∨ m = 10
          ∨ m = 11 ∨ m = 12) as Hcases by lia.
  destruct leap; repeat destruct Hcases as [->|Hcases]; try subst m; vm_compute; split; congruence.
Qed.

Lemma year_end y : 1 ≤ y ≤ 9999 → days_before_year y + 365 + Z.b2z (is_leap y) ≤ max_ordinal.
Proof.
  intros Hy. destruct (decide (y = 9999)) as [->|]; [done|].
  pose proof (days_before_year_mono y 9998 ltac:(lia)) as Hm.
  change (days_before_year 9998) with 3651329 in Hm. unfold max_ordinal.
  destruct (is_leap y); cbn [Z.b2z]; lia.
Qed.

Lemma instant_of_range y mo d h mi s f t :
  0 ≤ h → 0 ≤ mi → 0 ≤ s → 0 ≤ f < us_per_second →
  instant_of y mo d h mi s f = Some t → instant_ok t = true.
Proof.
  intros Hh Hmi Hs Hf. unfold instant_of. case_match eqn:E; [|done].
  rewrite !andb_true_iff in E. intros [= <-].
  pose proof (month_end (is_leap y) mo ltac:(lia)) as [Hm1 Hm2].
  pose proof (year_end y ltac:(lia)) as Hy.
  pose proof (days_before_year_mono 1 y ltac:(lia)) as Hy1. change (days_before_year 1) with 0 in Hy1.
  unfold instant_ok, ymd2ord, us_per_day, us_per_second, max_ordinal in *. lia.
Qed.

Lemma fromisoformat_range s t : fromisoformat s = Some t → instant_ok t = true.
Proof.
  unfold fromisoformat.
  do 19 (destruct s as [|? s]; [done|]).
  case_match eqn:Hd; [|done].
  rewrite !andb_true_iff in Hd. destruct Hd as [[[[[Hd _] _] _] _] _].
  cbn [forallb] in Hd. rewrite !andb_true_iff in Hd. destruct_and!.
  assert (∀ a b, is_digit a = true → is_digit b = true → 0 ≤ digits_value [a; b]) as Hdd.
  { intros a b Ha Hb. apply (digits_value_bounds [a; b]). cbn. by rewrite Ha, Hb. }
  destruct (str_eqb s _).
  { apply instant_of_range; [by apply Hdd..|]. unfold us_per_second. lia. }
  do 7 (destruct s as [|? s]; [done|]). case_match eqn:Hf; [|done].
  rewrite !andb_true_iff in Hf. destruct Hf as [[_ Hf] _].
  apply instant_of_range; [by apply Hdd..|]. exact (digits_value_bounds _ Hf).
Qed.
