(* ===== verification/OutboxApi.v ===== *)
(** * Outbox values and payload admission (modules/outbox/api.py)

    The immutable values that the append participant and the delivery engine
    exchange, with the validators pydantic runs on them, and the generic payload
    checks [_is_sensitive_key], [_encoding_budget] and [validate_outbox_payload].
    UUIDs are their 128-bit integers, timestamps are [Instant] instants.  Main
    result: the budget computed while walking a payload really bounds the number
    of octets of its canonical text, so an accepted payload never exceeds
    [_MAX_ENCODING_BUDGET]. *)

From S2P Require Import Prelude Text Digest Json Instant.


(** ** Delivery values *)

(** [^[A-Za-z0-9._:-]{1,120}$] *)
Definition owner_pattern (s : str) : bool := match_token token_char token_char 0 119 s.

Record OutboxClaim := {
  cl_event_id : uuid;
  cl_project_id : uuid;
  cl_payload_digest : str;
  cl_claim_generation : Z;
  cl_claim_owner : str;
  cl_claimed_at : instant;
  cl_claim_expires_at : instant;
}.

#[export] Instance OutboxClaim_eq_dec : EqDecision OutboxClaim.
Proof. solve_decision. Defined.

(** The field constraints of [OutboxClaim] and its [ordered_lease] validator. *)
Definition claim_valid (c : OutboxClaim) : bool :=
  digest_pattern (cl_payload_digest c)
  && (1 <=? cl_claim_generation c) && (cl_claim_generation c <=? 2147483647)
  && owner_pattern (cl_claim_owner c)
  && (0 <? cl_claim_expires_at c - cl_claimed_at c)
  && (cl_claim_expires_at c - cl_claimed_at c <=? 3600 * us_per_second).

Record OutboxEventEnvelope := {
  en_claim : OutboxClaim;
  en_event_type : str;
  en_event_version : Z;
  en_aggregate_type : str;
  en_aggregate_id : uuid;
  en_correlation_id : str;
  en_causation_event_id : option uuid;
  en_idempotency_key : str;
  en_occurred_at : instant;
  en_payload_json : str;
}.

#[export] Instance OutboxEventEnvelope_eq_dec : EqDecision OutboxEventEnvelope.
Proof. solve_decision. Defined.

Inductive HandlerOutcome := HO_ACKNOWLEDGE | HO_RETRY | HO_REJECT.

Inductive FinalizationCause :=
| FC_ACKNOWLEDGE | FC_RETRY | FC_REJECT | FC_EXPIRED | FC_UNKNOWN.

#[export] Instance FinalizationCause_eq_dec : EqDecision FinalizationCause.
Proof. solve_decision. Defined.

(** [FinalizationCause(result.value)] for a handler's own disposition. *)
Definition cause_of_outcome (o : HandlerOutcome) : FinalizationCause :=
  match o with
  | HO_ACKNOWLEDGE => FC_ACKNOWLEDGE
  | HO_RETRY => FC_RETRY
  | HO_REJECT => FC_REJECT
  end.

Record DeliveryReceipt := {
  rc_claim : OutboxClaim;
  rc_outcome_json : str;
  rc_outcome_digest : str;
}.

#[export] Instance DeliveryReceipt_eq_dec : EqDecision DeliveryReceipt.
Proof. solve_decision. Defined.

Record CommittedInvocationObservation := {
  ob_claim : OutboxClaim;
  ob_observed_at : instant;
}.

Record DeliveryOptions := {
  lease_seconds : Z;
  handler_timeout_seconds : Z;
  max_attempts : Z;
  retry_base_seconds : Z;
  retry_cap_seconds : Z;
}.

(** The defaults of [DeliveryOptions]. *)
Definition default_options : DeliveryOptions :=
  {| lease_seconds := 300; handler_timeout_seconds := 240; max_attempts := 5;
     retry_base_seconds := 5; retry_cap_seconds := 300 |}.

Definition in_range (lo hi x : Z) : bool := (lo <=? x) && (x <=? hi).

(** Field ranges and the [ordered_limits] validator. *)
Definition options_valid (o : DeliveryOptions) : bool :=
  in_range 1 3600 (lease_seconds o)
  && in_range 1 3600 (handler_timeout_seconds o)
  && in_range 1 100 (max_attempts o)
  && in_range 1 3600 (retry_base_seconds o)
  && in_range 1 86400 (retry_cap_seconds o)
  && negb ((lease_seconds o <=? handler_timeout_seconds o)
           || (retry_cap_seconds o <? retry_base_seconds o)).

Record DeliveryCandidate := { cd_event_id : uuid; cd_project_id : uuid }.

#[export] Instance DeliveryCandidate_eq_dec : EqDecision DeliveryCandidate.
Proof. solve_decision. Defined.

Record DeliveryCandidatePage := {
  pg_items : list DeliveryCandidate;
  pg_next_after : option uuid;
}.

Record DrainObservation := {
  dr_project_id : uuid;
  dr_observed_at : instant;
  dr_pending : Z;
  dr_claimed : Z;
  dr_retryable : Z;
  dr_invoked : Z;
  dr_unresolved : Z;
  dr_unsupported : Z;
  dr_dead_letter : Z;
}.

Inductive ChildState := CS_pending | CS_active | CS_acknowledged | CS_unknown | CS_held.

Record ReconciliationChildObservation := {
  ch_event_id : uuid;
  ch_payload_digest : str;
  ch_payload_json : str;
  ch_occurred_at : instant;
  ch_state : ChildState;
}.

(** [error_code] is the literal ["INVOKE_OUTCOME_UNKNOWN"]. *)
Record FinalizedUnknownDelivery := {
  fu_envelope : OutboxEventEnvelope;
  fu_finalized_at : instant;
  fu_child : option ReconciliationChildObservation;
}.

Record FinalizedUnknownDeliveryPage := {
  fp_items : list FinalizedUnknownDelivery;
  fp_has_more : bool;
}.

(** ** Payload admission *)

Definition _SECRET_KEYS : list str := map lit
  ["access_token"; "artifact_bytes"; "authorization"; "bearer_token"; "cookie";
   "credentials"; "id_token"; "jwks"; "password"; "raw_callback";
   "raw_provider_response"; "refresh_token"; "request_body"; "response_body";
   "secret"; "signed_url"]%string.
Definition _SECRET_KEY_PARTS : list str := map lit
  ["credential"; "credentials"; "password"; "secret"; "token"]%string.
Definition _COMPACT_SECRET_LEXEMES : list str := map lit
  ["credential"; "jwt"; "passphrase"; "password"; "secret"; "token"]%string.
Definition _COMPACT_KEY_LEXEMES : list str := map lit
  ["accesskey"; "apikey"; "encryptionkey"; "keymaterial"; "privatekey";
   "providerkey"; "secretkey"; "signingkey"]%string.
Definition _KEY_QUALIFIERS : list str := map lit
  ["access"; "api"; "encryption"; "private"; "provider"; "secret"; "signing"]%string.
Definition _KEY_DESCRIPTORS : list str := map lit
  ["data"; "material"; "payload"; "value"]%string.
Definition _MAX_DEPTH : Z := 16.
Definition _MAX_MEMBERS : Z := 1024.
Definition _MAX_NODES : Z := 4096.
Definition _MAX_KEY_BYTES : Z := 128.
Definition _MAX_STRING_BYTES : Z := 16384.
Definition _MAX_ENCODING_BUDGET : Z := 262144.
Definition _MAX_INTEGER_MAGNITUDE : Z := 10 ^ 38 - 1.

(** [^[a-z][a-z0-9_]{0,127}$] *)
Definition key_char (c : Z) : bool := is_lower c || is_digit c || (c =? 95).
Definition key_pattern (s : str) : bool := match_token is_lower key_char 0 127 s.

Inductive PayloadError :=
| payload_nodes | payload_container | payload_key | payload_sensitive
| payload_string | payload_integer | payload_object | payload_size
| payload_encoding.

(** [part == "key"] with a qualifier before it or a descriptor after it; [prev]
    is the part before the current position. *)
Fixpoint key_compound (prev : option str) (parts : list str) : bool :=
  match parts with
  | [] => false
  | part :: rest =>
      (str_eqb part (lit "key")
       && (match prev with Some q => str_in q _KEY_QUALIFIERS | None => false end
           || match rest with d :: _ => str_in d _KEY_DESCRIPTORS | [] => false end))
      || key_compound (Some part) rest
  end.

Section Payload.
(** The full case folding of a code point outside ASCII, from the Unicode
    tables of the Python runtime.  No admitted key contains such a code point,
    so no property depends on it. *)
Context (fold_wide : Z → str).

Definition casefold (s : str) : str :=
  concat (map (λ c, if c <? 128 then [if is_upper c then c + 32 else c]
                    else fold_wide c) s).

Definition _is_sensitive_key (value : str) : bool :=
  let normalized := map (λ c, if c =? 45 then 95 else c) (casefold value) in
  let parts := str_split 95 normalized in
  str_in normalized _SECRET_KEYS
  || existsb (λ p, str_in p _SECRET_KEY_PARTS) parts
  || str_eqb normalized (lit "key")
  || ends_with (lit "_key") normalized
  || key_compound None parts
  || existsb (λ l, contains l normalized) _COMPACT_SECRET_LEXEMES
  || existsb (λ l, contains l normalized) _COMPACT_KEY_LEXEMES.

(** The checks on one key; its UTF-8 length. *)
Definition checked_key (key : str) : result PayloadError Z :=
  if _is_sensitive_key key then Raise payload_sensitive
  else match utf8_encode key with
  | None => Raise payload_encoding
  | Some key_bytes =>
      if (_MAX_KEY_BYTES <? len key_bytes) || negb (key_pattern key)
      then Raise payload_key else Ok (len key_bytes)
  end.

Section Containers.
(** The recursive call on a contained value, from the current node count. *)
Context (eb : json → Z → result PayloadError (Z * Z)).

Fixpoint budget_members (kvs : list (str * json)) (budget nodes : Z)
    : result PayloadError (Z * Z) :=
  match kvs with
  | [] => Ok (budget, nodes)
  | (key, item) :: rest =>
      key_bytes ← checked_key key;
      bn ← eb item nodes;
      budget_members rest (budget + (6 * key_bytes + 3) + bn.1) bn.2
  end.

Fixpoint budget_items (l : list json) (budget nodes : Z)
    : result PayloadError (Z * Z) :=
  match l with
  | [] => Ok (budget, nodes)
  | item :: rest => bn ← eb item nodes; budget_items rest (budget + bn.1) bn.2
  end.
End Containers.

(** Returns the budget and the node count; the source counts nodes in a
    one-element list shared by the recursive calls. *)
Fixpoint _encoding_budget (value : json) (depth nodes : Z) {struct value}
    : result PayloadError (Z * Z) :=
  let nodes := nodes + 1 in
  if _MAX_NODES <? nodes then Raise payload_nodes
  else match value with
  | JObj kvs =>
      let n := Z.of_nat (length kvs) in
      if (_MAX_DEPTH <? depth) || (_MAX_MEMBERS <? n) then Raise payload_container
      else budget_members (λ item nodes, _encoding_budget item (depth + 1) nodes)
             kvs (2 + Z.max 0 (n - 1)) nodes
  | JArr l =>
      let n := Z.of_nat (length l) in
      if (_MAX_DEPTH <? depth) || (_MAX_MEMBERS <? n) then Raise payload_container
      else budget_items (λ item nodes, _encoding_budget item (depth + 1) nodes)
             l (2 + Z.max 0 (n - 1)) nodes
  | JStr s =>
      match utf8_encode s with
      | None => Raise payload_encoding
      | Some encoded =>
          if _MAX_STRING_BYTES <? len encoded then Raise payload_string
          else Ok (6 * len encoded + 2, nodes)
      end
  | JNull => Ok (4, nodes)
  | JBool _ => Ok (5, nodes)
  | JInt n =>
      if _MAX_INTEGER_MAGNITUDE <? Z.abs n then Raise payload_integer
      else Ok (len (str_int n), nodes)
  end.

Definition validate_outbox_payload (value : json) : result PayloadError json :=
  match value with
  | JObj _ =>
      match _encoding_budget value 1 0 with
      | Raise e => Raise e
      | Ok (budget, _) =>
          if _MAX_ENCODING_BUDGET <? budget then Raise payload_size else Ok value
      end
  | _ => Raise payload_object
  end.
End Payload.

(** ** Append input *)

Record OutboxAppendInput := {
  in_event_type : str;
  in_event_version : Z;
  in_aggregate_type : str;
  in_aggregate_id : uuid;
  in_project_id : uuid;
  in_correlation_id : str;
  in_causation_event_id : option uuid;
  in_idempotency_key : str;
  in_payload : json;
  in_not_before_at : option instant;
}.

(** [^[A-Za-z][A-Za-z0-9._:-]{0,127}$] *)
Definition event_type_pattern (s : str) : bool := match_token is_alpha token_char 0 127 s.
(** [^[a-z][a-z0-9_]{0,63}$] *)
Definition aggregate_type_pattern (s : str) : bool := match_token is_lower key_char 0 63 s.
(** [^[A-Za-z0-9._:-]{1,200}$] *)
Definition token200_pattern (s : str) : bool := match_token token_char token_char 0 199 s.

(** The field patterns and the [validate_payload] model validator; every failure
    surfaces as the one payload-free [OutboxInputError]. *)
Definition append_input_valid (fold_wide : Z → str) (i : OutboxAppendInput) : bool :=
  event_type_pattern (in_event_type i)
  && in_range 1 32767 (in_event_version i)
  && aggregate_type_pattern (in_aggregate_type i)
  && token200_pattern (in_correlation_id i)
  && token200_pattern (in_idempotency_key i)
  && is_ok (validate_outbox_payload fold_wide (in_payload i)).

Inductive OutboxAppendDisposition := AD_CREATED | AD_REPLAYED.

Record OutboxAppendResult := {
  ar_event_id : uuid;
  ar_disposition : OutboxAppendDisposition;
  ar_payload_digest : str;
  ar_occurred_at : instant;
}.

(** ** The encoding budget bounds the canonical text *)

(** Octets of a text, when it can be encoded. *)
Definition octets (s : str) : Z := match utf8_encode s with Some b => len b | None => 0 end.
Definition encodable (s : str) : Prop := is_Some (utf8_encode s).

Lemma len_app (a b : list Z) : len (a ++ b) = len a + len b.
Proof. unfold len. rewrite length_app. lia. Qed.

Lemma len_nonneg (a : list Z) : 0 ≤ len a.
Proof. unfold len. lia. Qed.

Lemma encodable_app a b :
  encodable a → encodable b → encodable (a ++ b) ∧ octets (a ++ b) = octets a + octets b.
Proof.
  unfold encodable, octets. intros [x Hx] [y Hy]. rewrite utf8_encode_app, Hx, Hy.
  split; [eauto|apply len_app].
Qed.

Lemma encodable_ascii s :
  Forall (λ c, 0 ≤ c < 128) s → encodable s ∧ octets s = len s.
Proof.
  intros Hs. unfold encodable, octets. rewrite utf8_encode_ascii by done. eauto.
Qed.

Lemma encodable_ascii_cons c s :
  0 ≤ c < 128 → encodable s → encodable (c :: s) ∧ octets (c :: s) = 1 + octets s.
Proof.
  intros Hc Hs. destruct (encodable_ascii [c]) as [H1 E1]; [by apply Forall_singleton|].
  destruct (encodable_app [c] s H1 Hs) as [H2 E2]. split; [done|].
  change (c :: s) with ([c] ++ s). rewrite E2, E1. done.
Qed.

Lemma esc_char_octets c b :
  utf8_char c = Some b → encodable (esc_char c) ∧ octets (esc_char c) ≤ 6 * len b.
Proof.
  intros Hb. assert (1 ≤ len b) as Hlen.
  { apply utf8_char_nonempty in Hb. destruct b; [done|]. unfold len. simpl. lia. }
  assert (∀ s, utf8_encode s = Some s → len s ≤ 6 → encodable s ∧ octets s ≤ 6 * len b)
    as Hshort. { intros s Hs Hl. unfold encodable, octets. rewrite Hs. split; [eauto|lia]. }
  unfold esc_char.
  repeat match goal with
  | |- context [if c =? ?k then _ else _] =>
      destruct (Z.eqb_spec c k); [by apply Hshort|]
  end.
  destruct (Z.ltb_spec c 32).
  - assert (∀ d, d < 16 → hex_digit d < 128) as Hh.
    { intros d Hd. unfold hex_digit. case_match; lia. }
    apply Hshort; [|done]. cbn [utf8_encode].
    assert (∀ x, x < 128 → utf8_char x = Some [x]) as Hc.
    { intros x Hx. unfold utf8_char. destruct (Z.ltb_spec x 128); [done|lia]. }
    rewrite !Hc by (lia || (apply Hh; Z.to_euclidean_division_equations; lia)). done.
  - unfold encodable, octets. cbn [utf8_encode]. rewrite Hb, app_nil_r. split; [eauto|lia].
Qed.

Lemma dump_str_octets s b :
  utf8_encode s = Some b →
  encodable (dump_str s) ∧ octets (dump_str s) ≤ 6 * len b + 2.
Proof.
  intros Hs. unfold dump_str.
  assert (encodable (concat (map esc_char s)) ∧ octets (concat (map esc_char s)) ≤ 6 * len b)
    as [H1 H2].
  { revert b Hs. induction s as [|c s IH]; intros b; simpl.
    - intros [= <-]. split; [by eexists|done].
    - destruct (utf8_char c) as [b1|] eqn:E1; [|done].
      destruct (utf8_encode s) as [b2|]; [|done]. intros [= <-].
      destruct (esc_char_octets _ _ E1) as [Ha Hb], (IH b2 eq_refl) as [Hc Hd].
      destruct (encodable_app _ _ Ha Hc) as [He ->]. split; [done|]. rewrite len_app. lia. }
  destruct (encodable_ascii [34]) as [H3 E3]; [by apply Forall_singleton|].
  destruct (encodable_app _ _ H1 H3) as [H4 E4].
  destruct (encodable_ascii_cons 34 _ ltac:(lia) H4) as [H5 E5].
  split; [done|]. rewrite E5, E4, E3. change (len [34]) with 1. lia.
Qed.

Lemma join_octets sep l :
  0 ≤ sep < 128 → Forall encodable l →
  encodable (join sep l) ∧
  octets (join sep l) = sumZ (map octets l) + Z.max 0 (Z.of_nat (length l) - 1).
Proof.
  intros Hsep. induction 1 as [|x l Hx Hl IH]; [by split; [eexists|]|].
  destruct l as [|y l]; [split; [done|]; simpl; lia|].
  rewrite join_cons2. destruct IH as [H1 E1].
  destruct (encodable_ascii_cons sep _ Hsep H1) as [H2 E2].
  destruct (encodable_app _ _ Hx H2) as [H3 E3].
  split; [done|]. rewrite E3, E2, E1. cbn [map sumZ foldr length]. lia.
Qed.

(** A comma-separated list between two ASCII brackets. *)
Lemma bracketed_octets o c l :
  0 ≤ o < 128 → 0 ≤ c < 128 → Forall encodable l →
  encodable (o :: join 44 l ++ [c]) ∧
  octets (o :: join 44 l ++ [c])
    = 2 + sumZ (map octets l) + Z.max 0 (Z.of_nat (length l) - 1).
Proof.
  intros Ho Hc Hl. destruct (join_octets 44 l ltac:(lia) Hl) as [H1 E1].
  destruct (encodable_ascii [c]) as [H2 E2]; [by apply Forall_singleton|].
  destruct (encodable_app _ _ H1 H2) as [H3 E3].
  destruct (encodable_ascii_cons o _ Ho H3) as [H4 E4].
  split; [done|]. rewrite E4, E3, E2, E1. change (len [c]) with 1. lia.
Qed.

(** ** What an admitted payload looks like *)

Fixpoint json_nodes (v : json) : Z :=
  match v with
  | JArr l => 1 + sumZ (map json_nodes l)
  | JObj kvs => 1 + sumZ (map (λ kv, json_nodes kv.2) kvs)
  | _ => 1
  end.

(** Nesting of arrays and objects; a scalar has depth 0. *)
Fixpoint json_depth (v : json) : Z :=
  match v with
  | JArr l => 1 + foldr Z.max 0 (map json_depth l)
  | JObj kvs => 1 + foldr Z.max 0 (map (λ kv, json_depth kv.2) kvs)
  | _ => 0
  end.

Section Accepted.
Context (fold_wide : Z → str).

Definition key_ok (k : str) : bool :=
  key_pattern k && negb (_is_sensitive_key fold_wide k).

(** Every key, at every depth, is a plain token and names no secret. *)
Fixpoint keys_ok (v : json) : bool :=
  match v with
  | JArr l => forallb keys_ok l
  | JObj kvs => forallb (λ kv, key_ok kv.1 && keys_ok kv.2) kvs
  | _ => true
  end.

(** What [_encoding_budget] establishes of one value. *)
Definition within (v : json) (depth nodes : Z) (r : result PayloadError (Z * Z)) : Prop :=
  ∀ b nodes', r = Ok (b, nodes') →
  keys_ok v = true ∧ nodes' = nodes + json_nodes v ∧ nodes' ≤ _MAX_NODES ∧
  (json_depth v = 0 ∨ depth + json_depth v - 1 ≤ _MAX_DEPTH) ∧
  encodable (dumps v) ∧ octets (dumps v) ≤ b.

Lemma checked_key_Ok k n :
  checked_key fold_wide k = Ok n →
  key_ok k = true ∧ encodable (dump_str k) ∧ octets (dump_str k) ≤ 6 * n + 2.
Proof.
  unfold checked_key, key_ok. destruct (_is_sensitive_key fold_wide k); [done|].
  destruct (utf8_encode k) as [kb|] eqn:E; [|done].
  destruct ((_MAX_KEY_BYTES <? len kb) || negb (key_pattern k)) eqn:Hk; [done|].
  apply orb_false_elim in Hk as [_ Hk%negb_false_iff]. intros [= <-].
  rewrite Hk. split; [done|]. by apply dump_str_octets.
Qed.

(** What a walk over the contained values [l] establishes of all of them. *)
Definition within_all (l : list json) (depth budget nodes : Z)
    (r : result PayloadError (Z * Z)) : Prop :=
  ∀ b nodes', r = Ok (b, nodes') →
  forallb keys_ok l = true ∧ nodes' = nodes + sumZ (map json_nodes l) ∧
  nodes' ≤ _MAX_NODES ∧
  foldr Z.max 0 (map json_depth l) ≤ Z.max 0 (_MAX_DEPTH - depth) ∧
  Forall (λ v, encodable (dumps v)) l ∧ budget + sumZ (map (octets ∘ dumps) l) ≤ b.

Lemma budget_items_within eb l depth :
  (∀ v nodes, v ∈ l → within v (depth + 1) nodes (eb v nodes)) →
  ∀ budget nodes, nodes ≤ _MAX_NODES →
  within_all l depth budget nodes (budget_items eb l budget nodes).
Proof.
  unfold within_all. induction l as [|v l IH]; intros Heb budget nodes Hn b nodes'; simpl.
  { intros [= <- <-]. repeat split; [lia|done|lia|apply Forall_nil_2|lia]. }
  intros ([b1 n1] & E1 & E2)%result_bind_Ok. simpl in E2.
  destruct (Heb v nodes ltac:(set_solver) _ _ E1) as (K & N & M & D & En & Oc).
  destruct (IH ltac:(set_solver) _ _ M _ _ E2) as (K' & N' & M' & D' & En' & Oc').
  rewrite K, K'. repeat split; [lia|done|lia|by apply Forall_cons_2|lia].
Qed.

Lemma budget_members_within eb kvs depth :
  (∀ kv nodes, kv ∈ kvs → within kv.2 (depth + 1) nodes (eb kv.2 nodes)) →
  ∀ budget nodes b nodes', nodes ≤ _MAX_NODES →
  budget_members fold_wide eb kvs budget nodes = Ok (b, nodes') →
  forallb (λ kv, key_ok kv.1) kvs = true ∧
  Forall (λ kv, encodable (member_of kv)) kvs ∧
  budget + sumZ (map (octets ∘ member_of) kvs) ≤ b ∧
  forallb keys_ok (map snd kvs) = true ∧
  nodes' = nodes + sumZ (map json_nodes (map snd kvs)) ∧ nodes' ≤ _MAX_NODES ∧
  foldr Z.max 0 (map json_depth (map snd kvs)) ≤ Z.max 0 (_MAX_DEPTH - depth).
Proof.
  induction kvs as [|[k v] kvs IH]; intros Heb budget nodes b nodes' Hn; simpl.
  { intros [= <- <-]. repeat split; [apply Forall_nil_2|lia|lia|done|lia]. }
  intros (kb & Ek & ([b1 n1] & E1 & E2)%result_bind_Ok)%result_bind_Ok. simpl in E2.
  destruct (checked_key_Ok _ _ Ek) as (-> & Ken & Koc).
  destruct (Heb (k, v) nodes ltac:(set_solver) _ _ E1) as (K & N & M & D & En & Oc).
  destruct (IH ltac:(set_solver) _ _ _ _ M E2) as (-> & En' & Oc' & K' & N' & M' & D').
  simpl in K, N, D, En, Oc. rewrite K, K'.
  destruct (encodable_ascii_cons 58 _ ltac:(lia) En) as [H1 O1].
  destruct (encodable_app _ _ Ken H1) as [H2 O2].
  change (member_of (k, v)) with (dump_str k ++ 58 :: dumps v). rewrite O2, O1.
  repeat split; [by apply Forall_cons_2|lia|lia|done|lia].
Qed.

Lemma sumZ_sort_kvs {A} (f : str * A → Z) kvs :
  sumZ (map f (sort_kvs kvs)) = sumZ (map f kvs).
Proof. by rewrite (sort_kvs_Permutation kvs). Qed.

Lemma length_sort_kvs {A} (kvs : list (str * A)) : length (sort_kvs kvs) = length kvs.
Proof. by rewrite (sort_kvs_Permutation kvs). Qed.

Lemma encoding_budget_within v :
  ∀ depth nodes, within v depth nodes (_encoding_budget fold_wide v depth nodes).
Proof.
  induction v as [|b|n|s|l IH|kvs IH] using json_nested_ind; intros depth nodes;
    unfold within; intros bud nodes'; cbn [_encoding_budget];
    destruct (Z.ltb_spec _MAX_NODES (nodes + 1)) as [|Hn]; try done.
  - intros [= <- <-]. repeat split; [done|by left|by eexists|done].
  - intros [= <- <-]. destruct b; (repeat split; [done|by left|by eexists|done]).
  - destruct (_ <? Z.abs n); [done|]. intros [= <- <-].
    destruct (encodable_ascii (str_int n) (str_int_ascii n)) as [? En].
    repeat split; [done|by left|done|]. cbn [dumps]. lia.
  - destruct (utf8_encode s) as [e|] eqn:E; [|done]. destruct (_ <? len e); [done|].
    intros [= <- <-]. destruct (dump_str_octets _ _ E). by repeat split; [|left| |].
  - destruct (_ || _) eqn:Hc; [done|]. apply orb_false_elim in Hc as [Hd%Z.ltb_ge _].
    intros Hb. rewrite Forall_forall in IH.
    destruct (budget_items_within (λ i n, _encoding_budget fold_wide i (depth + 1) n)
                l depth ltac:(intros; by apply IH) _ _ Hn _ _ Hb)
      as (K & N & M & D & En & Oc).
    cbn [keys_ok json_nodes json_depth dumps].
    destruct (bracketed_octets 91 93 (map dumps l) ltac:(lia) ltac:(lia)) as [H1 O1];
      [by apply Forall_map|]. rewrite map_map, length_map in O1.
    repeat split; [done|lia|done|lia|done|]. rewrite O1. unfold compose in Oc. lia.
  - destruct (_ || _) eqn:Hc; [done|]. apply orb_false_elim in Hc as [Hd%Z.ltb_ge _].
    intros Hb. rewrite Forall_forall in IH.
    destruct (budget_members_within (λ i n, _encoding_budget fold_wide i (depth + 1) n)
                kvs depth ltac:(intros; by apply IH) _ _ _ _ Hn Hb)
      as (Kk & En & Oc & K & N & M & D).
    cbn [keys_ok json_nodes json_depth dumps]. rewrite map_map in N, D.
    rewrite members_text_eq.
    destruct (bracketed_octets 123 125 (map member_of (sort_kvs kvs)) ltac:(lia) ltac:(lia))
      as [H1 O1]; [by rewrite Forall_map, sort_kvs_Permutation|].
    rewrite map_map, length_map, sumZ_sort_kvs, length_sort_kvs in O1.
    repeat split; [|lia|done|lia|done|rewrite O1; unfold compose in Oc; lia].
    apply forallb_forall. intros kv Hkv. rewrite forallb_forall in Kk, K.
    rewrite Kk, K; [done|by apply in_map|done].
Qed.
End Accepted.

(** C36. An accepted event payload is returned unchanged, is an object whose keys are
    plain tokens and name no secret at any depth, has at most 4096 nodes and 16 levels
    of nesting, and its canonical UTF-8 encoding exists and fits the 256 KiB bound: the
    budget computed before encoding never underestimates the encoder. *)
Theorem validate_outbox_payload_bounded fold_wide v v' :
  validate_outbox_payload fold_wide v = Ok v' →
  v' = v ∧ (∃ kvs, v = JObj kvs) ∧ keys_ok fold_wide v = true ∧ json_nodes v ≤ _MAX_NODES ∧
  json_depth v ≤ _MAX_DEPTH ∧
  ∃ b, utf8_encode (dumps v) = Some b ∧ len b ≤ _MAX_ENCODING_BUDGET.
Proof.
  unfold validate_outbox_payload. destruct v as [| | | | |kvs]; try done.
  set (v := JObj kvs).
  destruct (_encoding_budget fold_wide v 1 0) as [[bud n]|] eqn:E; [|done].
  destruct (Z.ltb_spec _MAX_ENCODING_BUDGET bud); [done|]. intros [= <-].
  destruct (encoding_budget_within fold_wide v 1 0 _ _ E) as (K & N & M & D & [b Hb] & Oc).
  unfold octets in Oc. rewrite Hb in Oc.
  split_and!; [done|by exists kvs|done|lia| |exists b; split; [done|lia]]. unfold _MAX_DEPTH in *. lia.
Qed.

Definition sample_payload : json :=
  JObj [(lit "task_id", JStr (lit "0b5e")); (lit "attempt", JInt 3);
        (lit "labels", JArr [JNull; JBool true; JObj [(lit "name", JStr [233])]])].

Lemma validate_outbox_payload_bounded_witness :
  let fw := (λ c, [c]) in
  validate_outbox_payload fw sample_payload = Ok sample_payload ∧
  (∃ kvs, sample_payload = JObj kvs) ∧ json_nodes sample_payload ≤ _MAX_NODES.
Proof.
  intros fw. assert (validate_outbox_payload fw sample_payload = Ok sample_payload) as H
    by (vm_compute; reflexivity).
  destruct (validate_outbox_payload_bounded fw _ _ H) as (_ & Ho & _ & Hn & _). by split_and!.
Defined.
