(* ===== verification/OutboxStore.v ===== *)
(** * Outbox tables (modules/outbox/models.py)

    The two tables of the shared outbox as records, their CHECK constraints in
    SQL's three-valued logic, and the session operations every writer goes through:
    a statement whose row violates a constraint raises and the transaction is rolled
    back.  A [project_id] column holds [str(UUID)]; it is represented by the UUID. *)

From S2P Require Import Prelude Text Digest Json Instant OutboxApi.

(** ** Three-valued conditions *)

(** [None] is SQL's NULL; a CHECK rejects a row only when its condition is false. *)
Definition tri := option bool.

Definition kand (a b : tri) : tri :=
  match a, b with
  | Some false, _ | _, Some false => Some false
  | Some true, Some true => Some true
  | _, _ => None
  end.

Definition kor (a b : tri) : tri :=
  match a, b with
  | Some true, _ | _, Some true => Some true
  | Some false, Some false => Some false
  | _, _ => None
  end.

Declare Scope sql_scope.
Delimit Scope sql_scope with sql.
Notation "a 'AND' b" := (kand a b) (at level 80, right associativity) : sql_scope.
Notation "a 'OR' b" := (kor a b) (at level 85, right associativity) : sql_scope.

Definition is_null {A} (o : option A) : tri :=
  Some (match o with Some _ => false | None => true end).
Definition not_null {A} (o : option A) : tri :=
  Some (match o with Some _ => true | None => false end).
(** A comparison with a NULL operand is NULL. *)
Definition cmp (f : Z → Z → bool) (a b : option Z) : tri :=
  match a, b with Some x, Some y => Some (f x y) | _, _ => None end.
Definition sql_true (b : bool) : tri := Some b.

Definition check (t : tri) : bool := match t with Some false => false | _ => true end.

(** A CHECK on a compound condition is a plain conjunction or disjunction of CHECKs. *)
Lemma check_kand a b : check (kand a b) = check a && check b.
Proof. by destruct a as [[]|], b as [[]|]. Qed.

Lemma check_kor a b : check (kor a b) = check a || check b.
Proof. by destruct a as [[]|], b as [[]|]. Qed.

Lemma check_null {A} (o : option A) :
  check (is_null o) = match o with Some _ => false | None => true end.
Proof. by destruct o. Qed.

Lemma check_not_null {A} (o : option A) :
  check (not_null o) = match o with Some _ => true | None => false end.
Proof. by destruct o. Qed.

Lemma check_cmp f a b :
  check (cmp f a b) = match a, b with Some x, Some y => f x y | _, _ => true end.
Proof. destruct a as [x|], b as [y|]; try done. cbn. by destruct (f x y). Qed.

Lemma check_sql_true b : check (sql_true b) = b.
Proof. by destruct b. Qed.

Create HintDb sql.
#[export] Hint Rewrite check_kand check_kor @check_null @check_not_null check_cmp
  check_sql_true : sql.

(** ** [OutboxEvent] *)

Inductive DeliveryState :=
| DS_pending | DS_claimed | DS_retryable | DS_acknowledged | DS_dead_letter | DS_cancelled.

#[export] Instance DeliveryState_eq_dec : EqDecision DeliveryState.
Proof. solve_decision. Defined.

Definition state_text (s : DeliveryState) : str :=
  match s with
  | DS_pending => lit "pending" | DS_claimed => lit "claimed"
  | DS_retryable => lit "retryable" | DS_acknowledged => lit "acknowledged"
  | DS_dead_letter => lit "dead_letter" | DS_cancelled => lit "cancelled"
  end.

(** The [delivery_state] CHECK admits exactly these texts. *)
Definition state_of_text (s : str) : option DeliveryState :=
  list_find (λ d, state_text d = s)
    [DS_pending; DS_claimed; DS_retryable; DS_acknowledged; DS_dead_letter; DS_cancelled]
  ≫= λ p, Some p.2.

Record OutboxEvent := {
  ev_event_id : uuid;
  ev_event_type : str;
  ev_event_version : Z;
  ev_producer : str;
  ev_aggregate_type : str;
  ev_aggregate_id : uuid;
  ev_project_id : uuid;
  ev_correlation_id : str;
  ev_causation_event_id : option uuid;
  ev_idempotency_key : str;
  ev_payload : json;
  ev_payload_digest : str;
  ev_occurred_at : instant;
  ev_not_before_at : option instant;
  ev_delivery_state : DeliveryState;
  ev_attempt_count : Z;
  ev_next_attempt_at : option instant;
  ev_claim_owner : option str;
  ev_claim_generation : Z;
  ev_claimed_at : option instant;
  ev_claim_expires_at : option instant;
  ev_last_attempt_at : option instant;
  ev_last_error_code : option str;
  ev_finalized_at : option instant;
  ev_archived_at : option instant;
}.

(** [^[A-Z][A-Z0-9_]{0,79}$] *)
Definition error_code_pattern (s : str) : bool :=
  match_token is_upper (λ c, is_upper c || is_digit c || (c =? 95)) 0 79 s.

(** Octets of [payload::text]: jsonb prints [", "] and [": "] between the members
    that the canonical text separates by single characters. *)
Fixpoint json_separators (v : json) : Z :=
  match v with
  | JArr l => sumZ (map json_separators l) + Z.max 0 (Z.of_nat (length l) - 1)
  | JObj kvs =>
      sumZ (map (λ kv, json_separators kv.2) kvs)
      + Z.max 0 (Z.of_nat (length kvs) - 1) + Z.of_nat (length kvs)
  | _ => 0
  end.
Definition jsonb_octets (v : json) : Z := octets (dumps v) + json_separators v.

(** jsonb refuses the code point 0 in any text. *)
Fixpoint jsonb_storable (v : json) : bool :=
  match v with
  | JStr s => forallb (λ c, negb (c =? 0)) s
  | JArr l => forallb jsonb_storable l
  | JObj kvs => forallb (λ kv, forallb (λ c, negb (c =? 0)) kv.1 && jsonb_storable kv.2) kvs
  | _ => true
  end.

Definition payload_shape (v : json) : bool :=
  match v with JObj _ => jsonb_octets v <=? 262144 | _ => false end.

Definition in_state (e : OutboxEvent) (s : DeliveryState) : tri :=
  sql_true (bool_decide (ev_delivery_state e = s)).

#[global] Arguments uuid7_shape : simpl never.
#[global] Arguments event_type_pattern : simpl never.
#[global] Arguments in_range : simpl never.
#[global] Arguments aggregate_type_pattern : simpl never.
#[global] Arguments token200_pattern : simpl never.
#[global] Arguments owner_pattern : simpl never.
#[global] Arguments digest_pattern : simpl never.
#[global] Arguments payload_shape : simpl never.
#[global] Arguments str_eqb : simpl never.
#[global] Arguments lit : simpl never.

(** The envelope constraints: identity, patterns, payload. *)
Definition envelope_checks (e : OutboxEvent) : bool :=
  uuid7_shape (ev_event_id e)
  && event_type_pattern (ev_event_type e)
  && in_range 1 32767 (ev_event_version e)
  && str_eqb (ev_producer e) (lit "workstream")
  && aggregate_type_pattern (ev_aggregate_type e)
  && token200_pattern (ev_correlation_id e)
  && token200_pattern (ev_idempotency_key e)
  && digest_pattern (ev_payload_digest e)
  && payload_shape (ev_payload e).

(** [delivery_counters], [claim_owner], [error_code] *)
Definition column_checks (e : OutboxEvent) : bool :=
  (0 <=? ev_attempt_count e) && (0 <=? ev_claim_generation e)
  && (ev_attempt_count e =? ev_claim_generation e)
  && match ev_claim_owner e with None => true | Some o => owner_pattern o end
  && match ev_last_error_code e with None => true | Some c => error_code_pattern c end.

(** [not_before_delivery] and [delivery_timestamps] *)
Definition timestamp_checks (e : OutboxEvent) : bool :=
  let occurred := Some (ev_occurred_at e) in
  check (is_null (ev_not_before_at e)
    OR ((is_null (ev_next_attempt_at e)
           OR cmp Z.geb (ev_next_attempt_at e) (ev_not_before_at e))
        AND (is_null (ev_claimed_at e) OR cmp Z.geb (ev_claimed_at e) (ev_not_before_at e))))%sql
  && check (
    (is_null (ev_next_attempt_at e) OR cmp Z.geb (ev_next_attempt_at e) occurred)
    AND (is_null (ev_claimed_at e) OR cmp Z.geb (ev_claimed_at e) occurred)
    AND (is_null (ev_last_attempt_at e) OR cmp Z.geb (ev_last_attempt_at e) occurred)
    AND (is_null (ev_claim_expires_at e)
         OR cmp Z.gtb (ev_claim_expires_at e) (ev_claimed_at e))
    AND (is_null (ev_finalized_at e) OR cmp Z.geb (ev_finalized_at e) occurred)
    AND (is_null (ev_finalized_at e) OR is_null (ev_last_attempt_at e)
         OR cmp Z.geb (ev_finalized_at e) (ev_last_attempt_at e))
    AND (is_null (ev_archived_at e)
         OR cmp Z.geb (ev_archived_at e) (ev_finalized_at e)))%sql.

(** [delivery_state_shape] *)
Definition delivery_state_shape (e : OutboxEvent) : bool :=
  let unclaimed := (is_null (ev_claim_owner e) AND is_null (ev_claimed_at e)
                    AND is_null (ev_claim_expires_at e))%sql in
  check (
    (in_state e DS_pending AND sql_true (ev_attempt_count e =? 0)
       AND not_null (ev_next_attempt_at e) AND unclaimed
       AND is_null (ev_last_attempt_at e) AND is_null (ev_last_error_code e)
       AND is_null (ev_finalized_at e) AND is_null (ev_archived_at e))
    OR (in_state e DS_claimed AND sql_true (ev_attempt_count e >? 0)
       AND is_null (ev_next_attempt_at e) AND not_null (ev_claim_owner e)
       AND not_null (ev_claimed_at e) AND not_null (ev_claim_expires_at e)
       AND cmp Z.eqb (ev_last_attempt_at e) (ev_claimed_at e)
       AND is_null (ev_finalized_at e) AND is_null (ev_archived_at e))
    OR (in_state e DS_retryable AND sql_true (ev_attempt_count e >? 0)
       AND not_null (ev_next_attempt_at e) AND unclaimed
       AND not_null (ev_last_attempt_at e) AND not_null (ev_last_error_code e)
       AND is_null (ev_finalized_at e) AND is_null (ev_archived_at e))
    OR (in_state e DS_acknowledged AND sql_true (ev_attempt_count e >? 0)
       AND is_null (ev_next_attempt_at e) AND unclaimed
       AND not_null (ev_last_attempt_at e) AND not_null (ev_finalized_at e))
    OR (in_state e DS_dead_letter AND sql_true (ev_attempt_count e >? 0)
       AND is_null (ev_next_attempt_at e) AND unclaimed
       AND not_null (ev_last_attempt_at e) AND not_null (ev_last_error_code e)
       AND not_null (ev_finalized_at e))
    OR (in_state e DS_cancelled AND is_null (ev_next_attempt_at e) AND unclaimed
       AND not_null (ev_finalized_at e) AND sql_true (ev_attempt_count e =? 0)
       AND is_null (ev_last_attempt_at e) AND is_null (ev_last_error_code e)))%sql.

Definition event_checks (e : OutboxEvent) : bool :=
  envelope_checks e && column_checks e && timestamp_checks e && delivery_state_shape e.

#[global] Arguments event_checks : simpl never.

(** ** [OutboxDeliveryAttempt] *)

Inductive Stage := ST_claimed | ST_invoked | ST_completed.

#[export] Instance Stage_eq_dec : EqDecision Stage.
Proof. solve_decision. Defined.

Record OutboxDeliveryAttempt := {
  at_claim_decision_event_id : uuid;
  at_invoke_decision_event_id : option uuid;
  at_finalize_decision_event_id : option uuid;
  at_event_id : uuid;
  at_claim_generation : Z;
  at_project_id : uuid;
  at_payload_digest : str;
  at_claim_owner : str;
  at_claimed_at : instant;
  at_claim_expires_at : instant;
  at_stage : Stage;
  at_invoked_at : option instant;
  at_outcome_json : option str;
  at_outcome_digest : option str;
}.

(** [phase_decisions], [generation], [owner], [payload_digest], [lease] and
    [stage_shape]. *)
Definition attempt_shape_checks (a : OutboxDeliveryAttempt) : bool :=
  let stage s := sql_true (bool_decide (at_stage a = s)) in
  let in_lease :=
    (cmp Z.geb (at_invoked_at a) (Some (at_claimed_at a))
     AND cmp Z.ltb (at_invoked_at a) (Some (at_claim_expires_at a)))%sql in
  check (
    (stage ST_claimed AND is_null (at_invoke_decision_event_id a)
       AND is_null (at_finalize_decision_event_id a))
    OR (stage ST_invoked AND not_null (at_invoke_decision_event_id a)
       AND is_null (at_finalize_decision_event_id a))
    OR (stage ST_completed AND not_null (at_finalize_decision_event_id a)
       AND ((is_null (at_invoked_at a) AND is_null (at_invoke_decision_event_id a))
            OR (not_null (at_invoked_at a) AND not_null (at_invoke_decision_event_id a)))))%sql
  && in_range 1 2147483647 (at_claim_generation a)
  && owner_pattern (at_claim_owner a)
  && digest_pattern (at_payload_digest a)
  && (at_claimed_at a <? at_claim_expires_at a)
  && (at_claim_expires_at a <=? at_claimed_at a + 3600 * us_per_second)
  && check (
    (stage ST_claimed AND is_null (at_invoked_at a) AND is_null (at_outcome_json a)
       AND is_null (at_outcome_digest a))
    OR (stage ST_invoked AND not_null (at_invoked_at a) AND in_lease
       AND is_null (at_outcome_json a) AND is_null (at_outcome_digest a))
    OR (stage ST_completed AND not_null (at_outcome_json a) AND not_null (at_outcome_digest a)
       AND (is_null (at_invoked_at a) OR in_lease)))%sql.

(** ** The outcome CHECK

    [outbox_delivery_outcome_valid], the database function that the [outcome]
    constraint calls (alembic baseline, as amended by revision 0046). *)

Definition member (k : str) (v : json) : option json :=
  match v with JObj kvs => dict_get k kvs | _ => None end.

(** A member that is a string or null. *)
Definition text_or_null (k : str) (v : json) : option (option str) :=
  match member k v with
  | Some (JStr s) => Some (Some s)
  | Some JNull => Some None
  | _ => None
  end.

(** [(value->>'k')::timestamptz]; [None] is a failed cast. *)
Definition time_or_null (k : str) (v : json) : option (option instant) :=
  o ← text_or_null k v;
  match o with None => Some None | Some s => t ← fromisoformat s; Some (Some t) end.

Definition outcome_keys : list str := map lit
  ["delivery_state"; "error_code"; "finalized_at"; "invocation_unknown"; "invoked_at";
   "next_attempt_at"; "receipt_completed_at"]%string.

Definition canonical_text (body : str) (v : json) : bool :=
  match v with
  | JObj kvs => bool_decide (map fst (sort_kvs kvs) = outcome_keys) && str_eqb body (dumps v)
  | _ => false
  end.

Definition is_true (t : tri) : bool := match t with Some true => true | _ => false end.
Definition text_is (o : option str) (s : string) : tri := str_eqb (lit s) <$> o.
Definition some_time (o : option instant) : bool := is_true (not_null o).

Definition outcome_shape (state : str) (code : option str) (unknown : bool)
    (retry final invoked : option instant) (completed expires : instant) : bool :=
  let completed' := Some completed in
  let invoked_set := not_null invoked in
  let state_is s := sql_true (str_eqb (lit s) state) in
  let final_now := cmp Z.eqb final completed' in
  if negb (some_time invoked)
     && is_true (sql_true (completed <? expires)
                 OR ((λ c, negb (str_eqb (lit "LEASE_EXPIRED_BEFORE_INVOKE") c
                              || str_eqb (lit "ATTEMPTS_EXHAUSTED") c)) <$> code))%sql
  then false
  else if some_time invoked && negb unknown && (completed >=? expires) then false
  else if is_true (cmp Z.gtb retry (Some (completed + us_per_day))) then false
  else is_true (
    if unknown then
      (invoked_set AND text_is code "INVOKE_OUTCOME_UNKNOWN"
       AND ((state_is "dead_letter" AND is_null retry AND final_now)
            OR (state_is "retryable" AND cmp Z.gtb retry completed' AND is_null final)))%sql
    else if str_eqb (lit "acknowledged") state then
      (invoked_set AND is_null code AND is_null retry AND final_now)%sql
    else if str_eqb (lit "retryable") state then
      (is_null final AND cmp Z.gtb retry completed'
       AND ((is_null invoked AND text_is code "LEASE_EXPIRED_BEFORE_INVOKE")
            OR (invoked_set AND text_is code "RETRY_REQUESTED")))%sql
    else if str_eqb (lit "dead_letter") state then
      (is_null retry AND final_now
       AND (text_is code "ATTEMPTS_EXHAUSTED"
            OR (invoked_set AND text_is code "HANDLER_REJECTED")))%sql
    else Some false).

Definition outbox_delivery_outcome_valid (body digest : str) (claimed expires : instant)
    (invoked : option instant) : bool :=
  match loads body with
  | None => false
  | Some v =>
      canonical_text body v
      && bool_decide (canonical_json_hash v = Some digest)
      && match member (lit "delivery_state") v, member (lit "invocation_unknown") v,
           text_or_null (lit "error_code") v, time_or_null (lit "receipt_completed_at") v,
           time_or_null (lit "finalized_at") v, time_or_null (lit "next_attempt_at") v,
           time_or_null (lit "invoked_at") v with
         | Some (JStr state), Some (JBool unknown), Some code, Some (Some completed),
           Some final, Some retry, Some invoked' =>
             (claimed <=? completed)
             && match invoked with Some i => i <=? completed | None => true end
             && bool_decide (invoked' = invoked)
             && outcome_shape state code unknown retry final invoked completed expires
         | _, _, _, _, _, _, _ => false
         end
  end.

(** The [outcome] constraint: NULL digests make the function false. *)
Definition outcome_check (a : OutboxDeliveryAttempt) : bool :=
  match at_outcome_json a with
  | None => true
  | Some body =>
      match at_outcome_digest a with
      | None => false
      | Some digest =>
          outbox_delivery_outcome_valid body digest (at_claimed_at a) (at_claim_expires_at a)
            (at_invoked_at a)
      end
  end.

Definition attempt_checks (a : OutboxDeliveryAttempt) : bool :=
  attempt_shape_checks a && outcome_check a.

#[global] Arguments attempt_checks : simpl never.

(** ** The database and its statements *)

Record Db := {
  db_events : gmap uuid OutboxEvent;
  db_attempts : gmap (uuid * Z) OutboxDeliveryAttempt;
}.

Inductive Exn :=
| EX_unavailable                          (* DeliveryUnavailable *)
| EX_completed (receipt : DeliveryReceipt) (* _CompletedDuringFinalization *)
| EX_delivery_persistence                 (* DeliveryPersistenceError *)
| EX_input                                (* OutboxInputError *)
| EX_persistence                          (* OutboxPersistenceError *)
| EX_conflict                             (* OutboxIdempotencyConflict *)
| EX_integrity                            (* SQLAlchemy IntegrityError *)
| EX_overflow                             (* OverflowError of datetime arithmetic *)
| EX_value                                (* ValidationError, ValueError, KeyError *)
| EX_cancelled                            (* asyncio.CancelledError *)
| EX_runtime.                             (* RuntimeError *)

#[export] Instance Exn_eq_dec : EqDecision Exn.
Proof. solve_decision. Defined.

Definition at_key (a : OutboxDeliveryAttempt) : uuid * Z := (at_event_id a, at_claim_generation a).

(** A unique nullable column: no other row holds the same value. *)
Definition unique_column (f : OutboxDeliveryAttempt → option uuid)
    (db : Db) (a : OutboxDeliveryAttempt) : bool :=
  forallb (λ kb, bool_decide (kb.1 = at_key a) || bool_decide (f kb.2 = None)
                 || negb (bool_decide (f kb.2 = f a))) (map_to_list (db_attempts db)).

Definition decisions_unique (db : Db) (a : OutboxDeliveryAttempt) : bool :=
  unique_column (Some ∘ at_claim_decision_event_id) db a
  && unique_column at_invoke_decision_event_id db a
  && unique_column at_finalize_decision_event_id db a.

Definition set_events (f : gmap uuid OutboxEvent → gmap uuid OutboxEvent) (db : Db) : Db :=
  {| db_events := f (db_events db); db_attempts := db_attempts db |}.
Definition set_attempts (f : gmap (uuid * Z) OutboxDeliveryAttempt →
    gmap (uuid * Z) OutboxDeliveryAttempt) (db : Db) : Db :=
  {| db_events := db_events db; db_attempts := f (db_attempts db) |}.

Definition update_event (e : OutboxEvent) (db : Db) : result Exn Db :=
  _ ← ensure (event_checks e) EX_integrity;
  Ok (set_events <[ev_event_id e := e]> db).

Definition update_attempt (a : OutboxDeliveryAttempt) (db : Db) : result Exn Db :=
  _ ← ensure (attempt_checks a && decisions_unique db a) EX_integrity;
  Ok (set_attempts <[at_key a := a]> db).

Definition insert_attempt (a : OutboxDeliveryAttempt) (db : Db) : result Exn Db :=
  _ ← ensure (bool_decide (db_attempts db !! at_key a = None)
              && bool_decide (is_Some (db_events db !! at_event_id a))) EX_integrity;
  update_attempt a db.

(** [DeliveryRepository.event]: foreign projects are concealed. *)
Definition event (db : Db) (event_id project_id : uuid) : option OutboxEvent :=
  e ← db_events db !! event_id;
  guard (ev_project_id e = project_id);; Some e.

(** [DeliveryRepository.attempt] *)
Definition attempt (db : Db) (c : OutboxClaim) : option OutboxDeliveryAttempt :=
  a ← db_attempts db !! (cl_event_id c, cl_claim_generation c);
  guard (at_project_id a = cl_project_id c);; Some a.

(** ** What the constraints say of single columns *)

Lemma timestamp_checks_claimed e t :
  event_checks e = true → ev_claimed_at e = Some t → ev_occurred_at e ≤ t.
Proof.
  unfold event_checks, timestamp_checks. intros H Ht.
  autorewrite with sql in H. rewrite Ht in H. rewrite !andb_true_iff in H. destruct_and!.
  lia.
Qed.

Lemma attempt_checks_lease a :
  attempt_checks a = true →
  in_range 1 2147483647 (at_claim_generation a) = true ∧
  owner_pattern (at_claim_owner a) = true ∧ digest_pattern (at_payload_digest a) = true ∧
  at_claimed_at a < at_claim_expires_at a ∧
  at_claim_expires_at a ≤ at_claimed_at a + 3600 * us_per_second.
Proof.
  unfold attempt_checks, attempt_shape_checks. rewrite !andb_true_iff. intros H. destruct_and!.
  split_and!; try done; lia.
Qed.

Lemma invoked_in_lease a i :
  attempt_checks a = true → at_invoked_at a = Some i → at_claimed_at a ≤ i < at_claim_expires_at a.
Proof.
  unfold attempt_checks, attempt_shape_checks. intros H Hi. autorewrite with sql in H.
  rewrite Hi in H. rewrite !andb_true_iff in H. destruct H as [[_ H] _].
  destruct (at_stage a); cbn in H; [done|..];
    rewrite ?orb_false_r, ?andb_true_iff in H; repeat case_match; lia.
Qed.
