(* ===== verification/OutboxAppend.v ===== *)
(** * The append participant (modules/outbox/service.py, repository.py)

    [append] inserts one immutable event in the caller's transaction, or returns the
    exact replay of the event already stored under its idempotency key;
    [require_existing] only reads.  The projects table and the identifier generator
    belong to other components: [project_exists] and [new_id] are arguments.  Main
    results: replay is exact and writes nothing, a key is bound to one set of facts for
    ever, and a created row is pending, due no earlier than asked, and well formed. *)

From S2P Require Import Prelude Text Digest Json Instant OutboxApi OutboxStore.

(** The row that the INSERT trigger [guard_outbox_event] leaves: every operational
    column is reset, whatever the statement supplied. *)
Definition inserted_event (new_id : uuid) (now : instant) (i : OutboxAppendInput)
    (payload_digest : str) : OutboxEvent :=
  {| ev_event_id := new_id; ev_event_type := in_event_type i;
     ev_event_version := in_event_version i; ev_producer := lit "workstream";
     ev_aggregate_type := in_aggregate_type i; ev_aggregate_id := in_aggregate_id i;
     ev_project_id := in_project_id i; ev_correlation_id := in_correlation_id i;
     ev_causation_event_id := in_causation_event_id i;
     ev_idempotency_key := in_idempotency_key i; ev_payload := in_payload i;
     ev_payload_digest := payload_digest; ev_occurred_at := now;
     ev_not_before_at := in_not_before_at i; ev_delivery_state := DS_pending;
     ev_attempt_count := 0;
     ev_next_attempt_at :=
       Some (match in_not_before_at i with Some t => Z.max now t | None => now end);
     ev_claim_owner := None; ev_claim_generation := 0; ev_claimed_at := None;
     ev_claim_expires_at := None; ev_last_attempt_at := None; ev_last_error_code := None;
     ev_finalized_at := None; ev_archived_at := None |}.

Definition ev_id_le (a b : OutboxEvent) : Prop := ev_event_id a ≤ ev_event_id b.
#[export] Instance ev_id_le_dec : RelDecision ev_id_le.
Proof. intros a b. unfold ev_id_le. apply _. Defined.

(** All events, in [event_id] order. *)
Definition events_by_id (db : Db) : list OutboxEvent :=
  merge_sort ev_id_le ((map_to_list (db_events db)).*2).

Definition with_key (db : Db) (key : str) : list OutboxEvent :=
  filter (λ e, ev_idempotency_key e = key) (events_by_id db).

Record OutboxReservation := { rs_created : bool; rs_records : list OutboxEvent }.

Section Append.
Context (fold_wide : Z → str) (project_exists : uuid → bool).

(** CHECK constraints are evaluated before the conflict arbiter; the primary and
    foreign keys only when the row is really inserted. *)
Definition reserve (new_id : uuid) (now : instant) (i : OutboxAppendInput)
    (payload_digest : str) (db : Db) : result Exn (OutboxReservation * Db) :=
  let row := inserted_event new_id now i payload_digest in
  _ ← ensure (event_checks row && jsonb_storable (in_payload i)) EX_integrity;
  let conflict := negb (bool_decide (with_key db (in_idempotency_key i) = [])) in
  _ ← ensure (conflict || (bool_decide (db_events db !! new_id = None)
                           && project_exists (in_project_id i))) EX_integrity;
  let db' := if conflict then db else set_events <[new_id := row]> db in
  let records := with_key db' (in_idempotency_key i) in
  _ ← ensure (negb (bool_decide (records = []))) EX_runtime;
  Ok ({| rs_created := negb conflict; rs_records := records |}, db').

(** [read_exact] *)
Definition read_exact (event_id : option uuid) (i : OutboxAppendInput) (db : Db)
    : option OutboxEvent :=
  List.find (λ e,
    (ev_project_id e =? in_project_id i)
    && bool_decide (ev_aggregate_type e = in_aggregate_type i)
    && (ev_aggregate_id e =? in_aggregate_id i)
    && match event_id with Some x => ev_event_id e =? x | None => true end)
    (with_key db (in_idempotency_key i)).

Definition _matches (record : OutboxEvent) (value : OutboxAppendInput) (digest : str) : bool :=
  bool_decide (ev_event_type record = in_event_type value)
  && (ev_event_version record =? in_event_version value)
  && bool_decide (ev_producer record = lit "workstream")
  && bool_decide (ev_aggregate_type record = in_aggregate_type value)
  && (ev_aggregate_id record =? in_aggregate_id value)
  && (ev_project_id record =? in_project_id value)
  && bool_decide (ev_correlation_id record = in_correlation_id value)
  && bool_decide (ev_causation_event_id record = in_causation_event_id value)
  && bool_decide (ev_idempotency_key record = in_idempotency_key value)
  && bool_decide (ev_payload_digest record = digest)
  && py_eq (ev_payload record) (in_payload value)
  && bool_decide (ev_not_before_at record = in_not_before_at value).

Definition append (new_id : uuid) (now : instant) (value : OutboxAppendInput) (db : Db)
    : result Exn (OutboxAppendResult * Db) :=
  _ ← ensure (append_input_valid fold_wide value) EX_input;
  digest ← oget (canonical_json_hash (in_payload value)) EX_input;
  match reserve new_id now value digest db with
  | Raise EX_integrity => Raise EX_persistence
  | Raise e => Raise e
  | Ok (reservation, db') =>
      match rs_records reservation with
      | [record] =>
          _ ← ensure (_matches record value digest) EX_conflict;
          Ok ({| ar_event_id := ev_event_id record;
                 ar_disposition := if rs_created reservation then AD_CREATED else AD_REPLAYED;
                 ar_payload_digest := ev_payload_digest record;
                 ar_occurred_at := ev_occurred_at record |}, db')
      | _ => Raise EX_conflict
      end
  end.

Definition require_existing (event_id : option uuid) (value : OutboxAppendInput) (db : Db)
    : result Exn uuid :=
  _ ← ensure (append_input_valid fold_wide value) EX_input;
  digest ← oget (canonical_json_hash (in_payload value)) EX_value;
  match read_exact event_id value db with
  | None => Raise EX_conflict
  | Some record =>
      _ ← ensure (_matches record value digest) EX_conflict; Ok (ev_event_id record)
  end.
End Append.

(** ** Keys *)

(** Each row is stored under its identity, and a key belongs to one row: the primary
    key and the unique constraint on [idempotency_key]. *)
Record event_keys_ok (db : Db) : Prop := {
  ko_id : ∀ id e, db_events db !! id = Some e → ev_event_id e = id;
  ko_unique : ∀ id1 id2 e1 e2, db_events db !! id1 = Some e1 → db_events db !! id2 = Some e2 →
    ev_idempotency_key e1 = ev_idempotency_key e2 → id1 = id2;
}.

Lemma elem_of_with_key db key e :
  e ∈ with_key db key ↔ ev_idempotency_key e = key ∧ ∃ id, db_events db !! id = Some e.
Proof.
  unfold with_key, events_by_id. rewrite list_elem_of_filter, merge_sort_Permutation.
  rewrite list_elem_of_fmap. split.
  - intros [Hk ([id e'] & -> & Hin)]. apply elem_of_map_to_list in Hin. eauto.
  - intros [Hk [id Hid]]. split; [done|]. exists (id, e). split; [done|].
    by apply elem_of_map_to_list.
Qed.

Lemma with_key_nil db key :
  with_key db key = [] ↔ ∀ id e, db_events db !! id = Some e → ev_idempotency_key e ≠ key.
Proof.
  split.
  - intros Hn id e He Hk. assert (e ∈ with_key db key) as Hin
      by (apply elem_of_with_key; eauto). rewrite Hn in Hin. by apply elem_of_nil in Hin.
  - intros H. destruct (with_key db key) as [|e l] eqn:E; [done|].
    assert (e ∈ with_key db key) as Hin by (rewrite E; set_solver).
    apply elem_of_with_key in Hin as (Hk & id & He). naive_solver.
Qed.

Lemma NoDup_with_key db key : event_keys_ok db → NoDup (with_key db key).
Proof.
  intros Hok. unfold with_key, events_by_id. apply NoDup_filter.
  rewrite merge_sort_Permutation. apply NoDup_fmap_2_strong; [|apply NoDup_map_to_list].
  intros [i e1] [j e2] Hi%elem_of_map_to_list Hj%elem_of_map_to_list E. simpl in E. subst e2.
  rewrite <- (ko_id _ Hok i e1 Hi), <- (ko_id _ Hok j e1 Hj). done.
Qed.

(** Under unique keys the records of a stored key are exactly that row. *)
Lemma with_key_singleton db id e :
  event_keys_ok db → db_events db !! id = Some e → with_key db (ev_idempotency_key e) = [e].
Proof.
  intros Hok He. assert (∀ x, x ∈ with_key db (ev_idempotency_key e) ↔ x = e) as Hx.
  { intros x. rewrite elem_of_with_key. split; [|intros ->; eauto].
    intros (Hk & id' & Hx). pose proof (ko_unique _ Hok _ _ _ _ Hx He Hk) as ->. congruence. }
  pose proof (NoDup_with_key db (ev_idempotency_key e) Hok) as Hnd.
  destruct (with_key db (ev_idempotency_key e)) as [|a [|b l]].
  - pose proof (proj2 (Hx e) eq_refl) as Hin. by apply elem_of_nil in Hin.
  - f_equal. apply Hx. set_solver.
  - exfalso. apply NoDup_cons in Hnd as [Hn _]. apply Hn.
    rewrite (proj1 (Hx a) ltac:(set_solver)), (proj1 (Hx b) ltac:(set_solver)). set_solver.
Qed.

(** ** What an append leaves *)

Section AppendFacts.
Context (fold_wide : Z → str) (project_exists : uuid → bool).

Lemma inserted_event_matches new_id now i digest :
  _matches (inserted_event new_id now i digest) i digest = true.
Proof.
  unfold _matches. simpl.
  rewrite !Z.eqb_refl. repeat rewrite bool_decide_eq_true_2 by done.
  unfold py_eq. by rewrite bool_decide_eq_true_2.
Qed.

Lemma event_keys_ok_insert db new_id row :
  event_keys_ok db → ev_event_id row = new_id → db_events db !! new_id = None →
  with_key db (ev_idempotency_key row) = [] →
  event_keys_ok (set_events <[new_id := row]> db).
Proof.
  intros Hok Hid Hfree Hnone. rewrite with_key_nil in Hnone. constructor; simpl.
  - intros id e. rewrite lookup_insert_Some. intros [[<- <-]|[_ He]]; [done|].
    by apply (ko_id _ Hok).
  - intros id1 id2 e1 e2. rewrite !lookup_insert_Some.
    intros [[<- <-]|[H1 He1]] [[<- <-]|[H2 He2]] Hk; [done| | |].
    + exfalso. by apply (Hnone _ _ He2).
    + exfalso. by apply (Hnone _ _ He1).
    + by apply (ko_unique _ Hok _ _ _ _ He1 He2).
Qed.

(** The two ways an append succeeds. *)
Lemma append_Ok new_id now i db r db' :
  event_keys_ok db →
  append fold_wide project_exists new_id now i db = Ok (r, db') →
  ∃ digest, canonical_json_hash (in_payload i) = Some digest ∧
  append_input_valid fold_wide i = true ∧
  event_checks (inserted_event new_id now i digest) && jsonb_storable (in_payload i) = true ∧
  ((with_key db (in_idempotency_key i) = [] ∧ db_events db !! new_id = None ∧
    project_exists (in_project_id i) = true ∧
    db' = set_events <[new_id := inserted_event new_id now i digest]> db ∧
    r = {| ar_event_id := new_id; ar_disposition := AD_CREATED;
           ar_payload_digest := digest; ar_occurred_at := now |})
   ∨ ∃ e, with_key db (in_idempotency_key i) = [e] ∧ _matches e i digest = true ∧
    db' = db ∧
    r = {| ar_event_id := ev_event_id e; ar_disposition := AD_REPLAYED;
           ar_payload_digest := ev_payload_digest e; ar_occurred_at := ev_occurred_at e |}).
Proof.
  intros Hok. unfold append, reserve.
  intros [Hv (digest & Hd%oget_Ok & H)%result_bind_Ok]%ensure_bind_Ok.
  exists digest. split; [done|]. split; [done|].
  set (row := inserted_event new_id now i digest) in *.
  destruct (event_checks row && jsonb_storable (in_payload i)) eqn:Hc; [|done].
  split; [done|]. run in H.
  destruct (decide (with_key db (in_idempotency_key i) = [])) as [Hn|Hn].
  - left. rewrite bool_decide_eq_true_2 in H by done. run in H.
    destruct (bool_decide_reflect (db_events db !! new_id = None)) as [Hf|]; [|done].
    destruct (project_exists (in_project_id i)) eqn:Hp; [|done]. run in H.
    assert (with_key (set_events <[new_id := row]> db) (in_idempotency_key i) = [row]) as Hw.
    { apply (with_key_singleton _ new_id row); [by apply event_keys_ok_insert|].
      simpl. apply lookup_insert_eq. }
    rewrite Hw, bool_decide_eq_false_2 in H by done. run in H.
    assert (_matches row i digest = true) as Hm by apply inserted_event_matches.
    cbn [rs_records rs_created] in H. rewrite Hm in H. run in H.
    injection H as <- <-. done.
  - right. rewrite bool_decide_eq_false_2 in H by done. run in H.
    rewrite bool_decide_eq_false_2 in H by done. run in H.
    destruct (with_key db (in_idempotency_key i)) as [|e [|]]; [done| |done].
    apply ensure_bind_Ok in H as [Hm [= <- <-]]. eauto.
Qed.

Lemma append_keys_ok new_id now i db r db' :
  event_keys_ok db → append fold_wide project_exists new_id now i db = Ok (r, db') → event_keys_ok db'.
Proof.
  intros Hok H. destruct (append_Ok _ _ _ _ _ _ Hok H)
    as (digest & _ & _ & _ & [(Hn & Hf & _ & -> & _)|(e & _ & _ & -> & _)]); [|done].
  by apply event_keys_ok_insert.
Qed.

(** The row now stored under the key, whether created or replayed. *)
Lemma append_stored new_id now i db r db' :
  event_keys_ok db → append fold_wide project_exists new_id now i db = Ok (r, db') →
  ∃ digest e, canonical_json_hash (in_payload i) = Some digest ∧
  with_key db' (in_idempotency_key i) = [e] ∧ _matches e i digest = true ∧
  ev_event_id e = ar_event_id r ∧ ev_payload_digest e = ar_payload_digest r ∧
  ev_occurred_at e = ar_occurred_at r.
Proof.
  intros Hok H. pose proof (append_keys_ok _ _ _ _ _ _ Hok H) as Hok'.
  destruct (append_Ok _ _ _ _ _ _ Hok H)
    as (digest & Hd & _ & _ & [(Hn & Hf & _ & -> & ->)|(e & He & Hm & -> & ->)]);
    exists digest.
  - exists (inserted_event new_id now i digest). split; [done|].
    split; [|split; [apply inserted_event_matches|done]].
    apply (with_key_singleton _ new_id (inserted_event new_id now i digest)); [done|].
    simpl. apply lookup_insert_eq.
  - by exists e.
Qed.

Lemma inserted_event_checks id1 t1 id2 t2 i digest :
  event_checks (inserted_event id1 t1 i digest) = true → uuid7_shape id2 = true →
  event_checks (inserted_event id2 t2 i digest) = true.
Proof.
  unfold event_checks. rewrite !andb_true_iff. intros [[[He Hc] _] _] Hid. split_and!.
  - unfold envelope_checks in *. rewrite !andb_true_iff in *. destruct_and!.
    split_and!; assumption.
  - exact Hc.
  - unfold timestamp_checks. cbn -[Z.geb]. destruct (in_not_before_at i); cbn -[Z.geb];
      repeat match goal with
      | |- context [?a >=? ?b] => rewrite (proj2 (Z.geb_le a b)) by lia
      end; reflexivity.
  - reflexivity.
Qed.

(** A key that is taken is answered from the stored row alone. *)
Lemma append_taken new_id now i db digest e :
  with_key db (in_idempotency_key i) = [e] → append_input_valid fold_wide i = true →
  canonical_json_hash (in_payload i) = Some digest →
  event_checks (inserted_event new_id now i digest) && jsonb_storable (in_payload i) = true →
  append fold_wide project_exists new_id now i db =
  if _matches e i digest
  then Ok ({| ar_event_id := ev_event_id e; ar_disposition := AD_REPLAYED;
              ar_payload_digest := ev_payload_digest e;
              ar_occurred_at := ev_occurred_at e |}, db)
  else Raise EX_conflict.
Proof.
  intros He Hv Hd Hc. unfold append, reserve. rewrite Hv, Hd. run. rewrite Hc, He.
  rewrite bool_decide_eq_false_2 by done. run. rewrite He.
  rewrite bool_decide_eq_false_2 by done. run. cbn [rs_records rs_created].
  by destruct (_matches e i digest).
Qed.
End AppendFacts.

(** Equality of the immutable facts of two requests, payloads compared as Python does. *)
Definition same_facts (i j : OutboxAppendInput) : Prop :=
  in_event_type i = in_event_type j ∧ in_event_version i = in_event_version j ∧
  in_aggregate_type i = in_aggregate_type j ∧ in_aggregate_id i = in_aggregate_id j ∧
  in_project_id i = in_project_id j ∧ in_correlation_id i = in_correlation_id j ∧
  in_causation_event_id i = in_causation_event_id j ∧
  canonical_json_hash (in_payload i) = canonical_json_hash (in_payload j) ∧
  py_eq (in_payload i) (in_payload j) = true ∧ in_not_before_at i = in_not_before_at j.

Lemma _matches_facts e i digest :
  _matches e i digest = true →
  ev_event_type e = in_event_type i ∧ ev_event_version e = in_event_version i ∧
  ev_aggregate_type e = in_aggregate_type i ∧ ev_aggregate_id e = in_aggregate_id i ∧
  ev_project_id e = in_project_id i ∧ ev_correlation_id e = in_correlation_id i ∧
  ev_causation_event_id e = in_causation_event_id i ∧
  ev_idempotency_key e = in_idempotency_key i ∧ ev_payload_digest e = digest ∧
  py_eq (ev_payload e) (in_payload i) = true ∧ ev_not_before_at e = in_not_before_at i.
Proof.
  unfold _matches. rewrite !andb_true_iff, !bool_decide_eq_true, !Z.eqb_eq. tauto.
Qed.

(** C35. Replay: once an append has succeeded, repeating it returns the same event,
    digest and time as a replay and leaves the database as it is, whatever identity
    and clock reading the retry carries. *)
Theorem append_replay_exact fold_wide project_exists id1 t1 id2 t2 i db r db' :
  event_keys_ok db →
  append fold_wide project_exists id1 t1 i db = Ok (r, db') → uuid7_shape id2 = true →
  append fold_wide project_exists id2 t2 i db' =
    Ok ({| ar_event_id := ar_event_id r; ar_disposition := AD_REPLAYED;
           ar_payload_digest := ar_payload_digest r; ar_occurred_at := ar_occurred_at r |}, db').
Proof.
  intros Hok H Hid. destruct (append_stored _ _ _ _ _ _ _ _ Hok H)
    as (digest & e & Hd & He & Hm & E1 & E2 & E3).
  destruct (append_Ok _ _ _ _ _ _ _ _ Hok H) as (digest' & Hd' & Hv & Hc & _).
  assert (digest' = digest) as -> by congruence.
  apply andb_prop in Hc as [Hc Hs].
  rewrite (append_taken _ _ _ _ _ _ digest e) by
    (done || (rewrite (inserted_event_checks id1 t1) by done; done)).
  by rewrite Hm, E1, E2, E3.
Qed.

(** A key is bound to one set of facts: any later append under the same key that
    succeeds carries the same facts and answers with the same event. *)
Theorem append_key_binds fold_wide project_exists id1 t1 id2 t2 i j db r s db' db'' :
  event_keys_ok db →
  append fold_wide project_exists id1 t1 i db = Ok (r, db') →
  append fold_wide project_exists id2 t2 j db' = Ok (s, db'') →
  in_idempotency_key j = in_idempotency_key i →
  same_facts i j ∧ ar_event_id s = ar_event_id r ∧ ar_disposition s = AD_REPLAYED ∧ db'' = db'.
Proof.
  intros Hok H1 H2 Hk.
  destruct (append_stored _ _ _ _ _ _ _ _ Hok H1) as (d1 & e & Hd1 & He & Hm & E1 & _).
  pose proof (append_keys_ok _ _ _ _ _ _ _ _ Hok H1) as Hok'.
  destruct (append_Ok _ _ _ _ _ _ _ _ Hok' H2)
    as (d2 & Hd2 & _ & _ & [(Hn & _)|(e' & He' & Hm' & -> & ->)]); [congruence|].
  rewrite Hk in He'. assert (e' = e) as -> by congruence.
  apply _matches_facts in Hm, Hm'. destruct_and!. unfold same_facts. simpl.
  split_and!; try congruence. unfold py_eq in *. rewrite bool_decide_eq_true in *. congruence.
Qed.

(** A created event is pending at generation 0 with no custody, stamped with the
    database time, carries the canonical digest of its payload, is due neither before
    that time nor before the requested instant, satisfies every CHECK of its table, and
    is the only row the append touched. *)
Theorem append_creates fold_wide project_exists new_id now i db r db' :
  event_keys_ok db →
  append fold_wide project_exists new_id now i db = Ok (r, db') →
  ar_disposition r = AD_CREATED →
  ∃ e, db' = set_events <[new_id := e]> db ∧ db_events db !! new_id = None ∧
    event_checks e = true ∧ ev_event_id e = new_id ∧ ar_event_id r = new_id ∧
    ev_delivery_state e = DS_pending ∧ ev_claim_generation e = 0 ∧ ev_claim_owner e = None ∧
    ev_occurred_at e = now ∧
    canonical_json_hash (ev_payload e) = Some (ev_payload_digest e) ∧
    (∃ due, ev_next_attempt_at e = Some due ∧ now ≤ due ∧
      ∀ t, in_not_before_at i = Some t → t ≤ due).
Proof.
  intros Hok H Hc. destruct (append_Ok _ _ _ _ _ _ _ _ Hok H)
    as (digest & Hd & _ & Hk & [(_ & Hf & _ & -> & ->)|(e & _ & _ & _ & ->)]); [|done].
  apply andb_prop in Hk as [Hk _].
  exists (inserted_event new_id now i digest). split_and!; [done..| |].
  - done.
  - eexists. split; [reflexivity|]. destruct (in_not_before_at i); split; naive_solver lia.
Qed.

(** Custody reads agree with appends: after a successful append, [require_existing]
    finds the event, with or without its identity, and reports that identity. *)
Theorem require_existing_after_append fold_wide project_exists new_id now i db r db' :
  event_keys_ok db →
  append fold_wide project_exists new_id now i db = Ok (r, db') →
  require_existing fold_wide None i db' = Ok (ar_event_id r) ∧
  require_existing fold_wide (Some (ar_event_id r)) i db' = Ok (ar_event_id r).
Proof.
  intros Hok H. destruct (append_stored _ _ _ _ _ _ _ _ Hok H)
    as (digest & e & Hd & He & Hm & E1 & _).
  destruct (append_Ok _ _ _ _ _ _ _ _ Hok H) as (_ & _ & Hv & _).
  pose proof (_matches_facts _ _ _ Hm). destruct_and!.
  unfold require_existing, read_exact. rewrite Hv, Hd. run. rewrite He. cbn [List.find].
  rewrite E1, !Z.eqb_refl, bool_decide_eq_true_2 by done.
  rewrite !(proj2 (Z.eqb_eq _ _)) by done. run. rewrite Hm, E1. done.
Qed.

(** ** A concrete append *)

Definition sample_input : OutboxAppendInput :=
  {| in_event_type := lit "TaskRoutingRequested"; in_event_version := 1;
     in_aggregate_type := lit "task"; in_aggregate_id := 77; in_project_id := 9;
     in_correlation_id := lit "corr-1"; in_causation_event_id := None;
     in_idempotency_key := lit "task:77:routing"; in_payload := sample_payload;
     in_not_before_at := None |}.
Definition sample_id : uuid := 0x019000000000700080000000000000a1.
Definition sample_now : instant := 63900000000 * us_per_second.
Definition empty_db : Db := {| db_events := ∅; db_attempts := ∅ |}.

Lemma empty_keys_ok : event_keys_ok empty_db.
Proof. constructor; simpl; intros *; rewrite lookup_empty; done. Defined.

Definition sample_digest : str :=
  match canonical_json_hash sample_payload with Some d => d | None => [] end.
Definition sample_result : OutboxAppendResult :=
  {| ar_event_id := sample_id; ar_disposition := AD_CREATED;
     ar_payload_digest := sample_digest; ar_occurred_at := sample_now |}.
Definition sample_event : OutboxEvent :=
  inserted_event sample_id sample_now sample_input sample_digest.
Definition appended_db : Db := {| db_events := {[sample_id := sample_event]}; db_attempts := ∅ |}.

Lemma sample_append_ok :
  append (λ c, [c]) (λ _, true) sample_id sample_now sample_input empty_db
  = Ok (sample_result, appended_db).
Proof. vm_compute. reflexivity. Defined.

Lemma append_replay_exact_witness :
  append (λ c, [c]) (λ _, true) sample_id (sample_now + 5) sample_input appended_db =
    Ok ({| ar_event_id := sample_id; ar_disposition := AD_REPLAYED;
           ar_payload_digest := sample_digest; ar_occurred_at := sample_now |}, appended_db).
Proof.
  exact (append_replay_exact _ _ sample_id sample_now sample_id (sample_now + 5) _ _ _ _
    empty_keys_ok sample_append_ok eq_refl).
Defined.

Lemma append_key_binds_witness : same_facts sample_input sample_input.
Proof.
  refine (proj1 (append_key_binds (λ c, [c]) (λ _, true) sample_id sample_now sample_id
    (sample_now + 5) sample_input sample_input empty_db _ _ appended_db appended_db
    empty_keys_ok sample_append_ok _ eq_refl)). vm_compute. reflexivity.
Defined.

Lemma append_creates_witness :
  ∃ e, appended_db = set_events <[sample_id := e]> empty_db ∧ event_checks e = true.
Proof.
  destruct (append_creates (λ c, [c]) (λ _, true) _ _ _ _ _ _
    empty_keys_ok sample_append_ok eq_refl) as (e & H1 & _ & H2 & _).
  exists e. exact (conj H1 H2).
Defined.

Lemma require_existing_after_append_witness :
  require_existing (λ c, [c]) None sample_input appended_db = Ok sample_id.
Proof.
  exact (proj1 (require_existing_after_append (λ c, [c]) (λ _, true) _ _ _ _ _ _
    empty_keys_ok sample_append_ok)).
Defined.
