(* ===== verification/OutboxDelivery.v ===== *)
(** * The delivery engine (modules/outbox/delivery.py, registry.py)

    [OutboxDelivery] moves an event through claim, invocation and finalization, each in
    its own short transaction.  A transaction is a function from the committed database
    to its result and the next database; [Raise] is a rollback.  An operation that runs
    several transactions is split where the code opens a new session ([claim_propose]
    and [claim_commit]; [finalize_read], [_finalize] and [finalize_winner]), so that
    other workers may commit in between, and the whole method is their composition.
    Readings of [database_time] and the authorization port are arguments; a handler's
    run is the observation [HandlerRun] of what [asyncio.wait] reported. *)

From S2P Require Import Prelude Text Digest Json Instant OutboxApi OutboxStore.

(** ** [HandlerRegistry] *)

(** One registration: its selector and whether its handler is a coroutine callable. *)
Record Registration := { rn_event_type : str; rn_version : Z; rn_coroutine : bool }.

Record HandlerRegistry := {
  rg_handlers : list (str * Z);
  rg_replay_safe : list (str * Z);
}.

Definition selector_in (k : str * Z) (l : list (str * Z)) : bool := bool_decide (k ∈ l).

Fixpoint register (entries : list Registration) (handlers : list (str * Z))
    : result Exn (list (str * Z)) :=
  match entries with
  | [] => Ok handlers
  | r :: rest =>
      let k := (rn_event_type r, rn_version r) in
      _ ← ensure (event_type_pattern (rn_event_type r) && in_range 1 32767 (rn_version r)
                  && rn_coroutine r && negb (selector_in k handlers)) EX_value;
      register rest (handlers ++ [k])
  end.

(** [HandlerRegistry.__init__] *)
Definition new_registry (entries : list Registration) (replay_safe : list (str * Z))
    : result Exn HandlerRegistry :=
  handlers ← register entries [];
  _ ← ensure (forallb (λ k, selector_in k handlers) replay_safe) EX_value;
  Ok {| rg_handlers := handlers; rg_replay_safe := replay_safe |}.

(** [get(...) is not None] *)
Definition registered (g : HandlerRegistry) (event_type : str) (version : Z) : bool :=
  selector_in (event_type, version) (rg_handlers g).

Definition can_retry_unknown (g : HandlerRegistry) (event_type : str) (version : Z) : bool :=
  selector_in (event_type, version) (rg_replay_safe g).

(** ** Engine configuration *)

Record Engine := {
  eg_registry : HandlerRegistry;
  eg_options : DeliveryOptions;
  eg_event_options : list ((str * Z) * DeliveryOptions);
}.

(** [OutboxDelivery.__init__] *)
Definition new_engine (g : HandlerRegistry) (options : DeliveryOptions)
    (event_options : list ((str * Z) * DeliveryOptions)) : result Exn Engine :=
  _ ← ensure (options_valid options) EX_value;
  _ ← ensure (forallb (λ kv, selector_in kv.1 (rg_handlers g) && options_valid kv.2)
                event_options) EX_value;
  Ok {| eg_registry := g; eg_options := options; eg_event_options := event_options |}.

Definition _options_for (E : Engine) (event_type : str) (event_version : Z) : DeliveryOptions :=
  match list_find (λ kv, kv.1 = (event_type, event_version)) (eg_event_options E) with
  | Some (_, (_, o)) => o
  | None => eg_options E
  end.

Definition options_of (E : Engine) (e : OutboxEvent) : DeliveryOptions :=
  _options_for E (ev_event_type e) (ev_event_version e).
Definition retry_unknown_of (E : Engine) (e : OutboxEvent) : bool :=
  can_retry_unknown (eg_registry E) (ev_event_type e) (ev_event_version e).

(** ** Phase authority (authorization/api/outbox_dispatch.py, decisions.py) *)

Inductive OutboxDispatchPhase := PH_CLAIM | PH_INVOKE | PH_FINALIZE.

#[export] Instance OutboxDispatchPhase_eq_dec : EqDecision OutboxDispatchPhase.
Proof. solve_decision. Defined.

Record OutboxDispatchFacts := {
  fx_phase : OutboxDispatchPhase;
  fx_event_id : uuid;
  fx_project_id : uuid;
  fx_payload_digest : str;
  fx_claim_generation : Z;
  fx_claim_owner : str;
  fx_claimed_at : instant;
  fx_claim_expires_at : instant;
  fx_outcome_digest : option str;
}.

(** [__post_init__] *)
Definition facts_valid (f : OutboxDispatchFacts) : bool :=
  digest_pattern (fx_payload_digest f)
  && in_range 1 2147483647 (fx_claim_generation f)
  && owner_pattern (fx_claim_owner f)
  && match fx_phase f, fx_outcome_digest f with
     | PH_FINALIZE, Some d => digest_pattern d
     | PH_FINALIZE, None => false
     | _, o => bool_decide (o = None)
     end
  && (fx_claimed_at f <? fx_claim_expires_at f).

Inductive DecisionOutcome := ALLOW | DENY.

Record AuthorizationDecision := {
  ad_decision_id : uuid;
  ad_action_id : str;
  ad_permission_id : str;
  ad_outcome : DecisionOutcome;
}.

Definition OUTBOX_DISPATCH_ACTION : str := lit "outbox.dispatch".
Definition OUTBOX_DISPATCH_PERMISSION : str := lit "outbox.dispatch".

(** One preparation of the authorization port: whether it could be entered, and what
    [consume] answers; [None] is an [AuthorizationBoundaryError]. *)
Record PreparedAuthority := {
  pa_prepared : OutboxDispatchFacts → bool;
  pa_consume : OutboxDispatchFacts → option AuthorizationDecision;
}.

Definition _checked_claim (c : OutboxClaim) : result Exn OutboxClaim :=
  if claim_valid c then Ok c else Raise EX_unavailable.

Definition _facts (c : OutboxClaim) (phase : OutboxDispatchPhase) (digest : option str)
    : result Exn OutboxDispatchFacts :=
  let f := {| fx_phase := phase; fx_event_id := cl_event_id c;
              fx_project_id := cl_project_id c; fx_payload_digest := cl_payload_digest c;
              fx_claim_generation := cl_claim_generation c;
              fx_claim_owner := cl_claim_owner c; fx_claimed_at := cl_claimed_at c;
              fx_claim_expires_at := cl_claim_expires_at c; fx_outcome_digest := digest |} in
  if facts_valid f then Ok f else Raise EX_value.

Definition _allow (d : AuthorizationDecision) : result Exn uuid :=
  _ ← ensure (match ad_outcome d with ALLOW => true | DENY => false end
              && str_eqb (ad_action_id d) OUTBOX_DISPATCH_ACTION
              && str_eqb (ad_permission_id d) OUTBOX_DISPATCH_PERMISSION) EX_unavailable;
  Ok (ad_decision_id d).

(** [_allow(await prepared.consume(facts))] under [_authority]. *)
Definition consume_allow (p : PreparedAuthority) (f : OutboxDispatchFacts) : result Exn uuid :=
  d ← oget (pa_consume p f) EX_unavailable; _allow d.

(** ** Outcomes *)

(** The dict [_outcome] returns, before its times are printed. *)
Record Outcome := {
  oc_delivery_state : DeliveryState;
  oc_error_code : option str;
  oc_next_attempt_at : option instant;
  oc_finalized_at : option instant;
  oc_receipt_completed_at : instant;
  oc_invocation_unknown : bool;
  oc_invoked_at : option instant;
}.

#[export] Instance Outcome_eq_dec : EqDecision Outcome.
Proof. solve_decision. Defined.

Definition backoff (o : DeliveryOptions) (generation : Z) : Z :=
  Z.min (retry_cap_seconds o) (retry_base_seconds o * 2 ^ Z.min (generation - 1) 30).

Definition is_some {A} (o : option A) : bool := match o with Some _ => true | None => false end.

Definition _outcome (c : OutboxClaim) (invoked_at : option instant) (cause : FinalizationCause)
    (now : instant) (options : DeliveryOptions) (retry_unknown : bool) : result Exn Outcome :=
  let expired := cl_claim_expires_at c <=? now in
  let cause_is x := bool_decide (cause = x) in
  let invoked := is_some invoked_at in
  if (negb invoked && (negb (cause_is FC_EXPIRED) || negb expired)) || (cause_is FC_EXPIRED && negb expired)
  then Raise EX_unavailable
  else
    let unknown := invoked && (expired || cause_is FC_UNKNOWN) in
    let make state code retry :=
      {| oc_delivery_state := state; oc_error_code := code; oc_next_attempt_at := retry;
         oc_finalized_at := if decide (state = DS_retryable) then None else Some now;
         oc_receipt_completed_at := now; oc_invocation_unknown := unknown;
         oc_invoked_at := invoked_at |} in
    let dead code := Ok (make DS_dead_letter (Some (lit code)) None) in
    let retry_with code :=
      retry ← oget (add_seconds now (backoff options (cl_claim_generation c))) EX_overflow;
      Ok (make DS_retryable (Some (lit code)) (Some retry)) in
    if unknown then
      if retry_unknown && (cl_claim_generation c <? max_attempts options)
      then retry_with "INVOKE_OUTCOME_UNKNOWN"%string
      else dead "INVOKE_OUTCOME_UNKNOWN"%string
    else if cause_is FC_ACKNOWLEDGE then Ok (make DS_acknowledged None None)
    else if cause_is FC_RETRY || cause_is FC_EXPIRED then
      if max_attempts options <=? cl_claim_generation c then dead "ATTEMPTS_EXHAUSTED"%string
      else retry_with (if invoked then "RETRY_REQUESTED" else "LEASE_EXPIRED_BEFORE_INVOKE")%string
    else dead "HANDLER_REJECTED"%string.

Definition json_time (o : option instant) : json :=
  match o with Some t => JStr (isoformat t) | None => JNull end.

(** The members in the order the dict literal lists them. *)
Definition outcome_value (o : Outcome) : json :=
  JObj [(lit "delivery_state", JStr (state_text (oc_delivery_state o)));
        (lit "error_code", match oc_error_code o with Some s => JStr s | None => JNull end);
        (lit "next_attempt_at", json_time (oc_next_attempt_at o));
        (lit "finalized_at", json_time (oc_finalized_at o));
        (lit "receipt_completed_at", JStr (isoformat (oc_receipt_completed_at o)));
        (lit "invocation_unknown", JBool (oc_invocation_unknown o));
        (lit "invoked_at", json_time (oc_invoked_at o))].

Definition _encode (v : json) : str := dumps v.

Definition receipt_of (c : OutboxClaim) (o : Outcome) : result Exn DeliveryReceipt :=
  digest ← oget (canonical_json_hash (outcome_value o)) EX_value;
  Ok {| rc_claim := c; rc_outcome_json := _encode (outcome_value o); rc_outcome_digest := digest |}.

(** ** Claim facts of stored rows (delivery_repository.py) *)

Definition attempt_claim (a : OutboxDeliveryAttempt) : OutboxClaim :=
  {| cl_event_id := at_event_id a; cl_project_id := at_project_id a;
     cl_payload_digest := at_payload_digest a; cl_claim_generation := at_claim_generation a;
     cl_claim_owner := at_claim_owner a; cl_claimed_at := at_claimed_at a;
     cl_claim_expires_at := at_claim_expires_at a |}.

(** Constructing the value validates it. *)
Definition new_claim (c : OutboxClaim) : result Exn OutboxClaim :=
  if claim_valid c then Ok c else Raise EX_value.

Definition claim_from_attempt (a : OutboxDeliveryAttempt) : result Exn OutboxClaim :=
  new_claim (attempt_claim a).

Definition matches_event (e : OutboxEvent) (c : OutboxClaim) : bool :=
  bool_decide (ev_delivery_state e = DS_claimed)
  && (ev_event_id e =? cl_event_id c)
  && (ev_project_id e =? cl_project_id c)
  && str_eqb (ev_payload_digest e) (cl_payload_digest c)
  && (ev_claim_generation e =? cl_claim_generation c)
  && bool_decide (ev_claim_owner e = Some (cl_claim_owner c))
  && bool_decide (ev_claimed_at e = Some (cl_claimed_at c))
  && bool_decide (ev_claim_expires_at e = Some (cl_claim_expires_at c)).

(** ** claim *)

Definition claimable_state (s : DeliveryState) : bool :=
  match s with DS_pending | DS_retryable => true | _ => false end.

(** [event.next_attempt_at <= now] on a column the state shape keeps non-null. *)
Definition due (e : OutboxEvent) (now : instant) : bool :=
  match ev_next_attempt_at e with Some t => t <=? now | None => false end.

(** The first session of [claim]: an unlocked read and the proposed lease. *)
Definition claim_propose (E : Engine) (snap : Db) (now : instant)
    (event_id project_id : uuid) (owner : str) : result Exn (option OutboxClaim) :=
  match event snap event_id project_id with
  | None => Ok None
  | Some e =>
      let options := options_of E e in
      if negb (registered (eg_registry E) (ev_event_type e) (ev_event_version e))
         || negb (claimable_state (ev_delivery_state e))
         || negb (due e now)
         || (max_attempts options <=? ev_claim_generation e)
      then Ok None
      else
        expires ← oget (add_seconds now (lease_seconds options)) EX_overflow;
        c ← new_claim {| cl_event_id := ev_event_id e; cl_project_id := project_id;
                         cl_payload_digest := ev_payload_digest e;
                         cl_claim_generation := ev_claim_generation e + 1;
                         cl_claim_owner := owner; cl_claimed_at := now;
                         cl_claim_expires_at := expires |};
        Ok (Some c)
  end.

Definition claimed_event (e : OutboxEvent) (c : OutboxClaim) : OutboxEvent :=
  {| ev_event_id := ev_event_id e; ev_event_type := ev_event_type e;
     ev_event_version := ev_event_version e; ev_producer := ev_producer e;
     ev_aggregate_type := ev_aggregate_type e; ev_aggregate_id := ev_aggregate_id e;
     ev_project_id := ev_project_id e; ev_correlation_id := ev_correlation_id e;
     ev_causation_event_id := ev_causation_event_id e;
     ev_idempotency_key := ev_idempotency_key e; ev_payload := ev_payload e;
     ev_payload_digest := ev_payload_digest e; ev_occurred_at := ev_occurred_at e;
     ev_not_before_at := ev_not_before_at e; ev_delivery_state := DS_claimed;
     ev_attempt_count := cl_claim_generation c; ev_next_attempt_at := None;
     ev_claim_owner := Some (cl_claim_owner c);
     ev_claim_generation := cl_claim_generation c;
     ev_claimed_at := Some (cl_claimed_at c);
     ev_claim_expires_at := Some (cl_claim_expires_at c);
     ev_last_attempt_at := Some (cl_claimed_at c);
     ev_last_error_code := ev_last_error_code e; ev_finalized_at := ev_finalized_at e;
     ev_archived_at := ev_archived_at e |}.

Definition claimed_attempt (c : OutboxClaim) (decision : uuid) : OutboxDeliveryAttempt :=
  {| at_claim_decision_event_id := decision; at_invoke_decision_event_id := None;
     at_finalize_decision_event_id := None; at_event_id := cl_event_id c;
     at_claim_generation := cl_claim_generation c; at_project_id := cl_project_id c;
     at_payload_digest := cl_payload_digest c; at_claim_owner := cl_claim_owner c;
     at_claimed_at := cl_claimed_at c; at_claim_expires_at := cl_claim_expires_at c;
     at_stage := ST_claimed; at_invoked_at := None; at_outcome_json := None;
     at_outcome_digest := None |}.

(** Two readings of [database_time] within one transaction. *)
Record Readings := { rd_locked : instant; rd_write : instant }.

(** The second session of [claim], under the event lock. *)
Definition claim_commit (p : PreparedAuthority) (t : Readings) (c : OutboxClaim) (db : Db)
    : result Exn (option OutboxClaim * Db) :=
  f ← _facts c PH_CLAIM None;
  _ ← ensure (pa_prepared p f) EX_unavailable;
  match event db (cl_event_id c) (cl_project_id c) with
  | None => Ok (None, db)
  | Some e =>
      if negb (claimable_state (ev_delivery_state e))
         || negb (ev_claim_generation e + 1 =? cl_claim_generation c)
         || negb (str_eqb (ev_payload_digest e) (cl_payload_digest c))
         || negb (due e (rd_locked t))
         || (cl_claim_expires_at c <=? rd_locked t)
      then Ok (None, db)
      else
        decision ← consume_allow p f;
        _ ← ensure (negb (cl_claim_expires_at c <=? rd_write t)) EX_unavailable;
        db ← update_event (claimed_event e c) db;
        db ← insert_attempt (claimed_attempt c decision) db;
        Ok (Some c, db)
  end.

(** ** invoke *)

Definition invoked_attempt (a : OutboxDeliveryAttempt) (now : instant) (decision : uuid)
    : OutboxDeliveryAttempt :=
  {| at_claim_decision_event_id := at_claim_decision_event_id a;
     at_invoke_decision_event_id := Some decision;
     at_finalize_decision_event_id := at_finalize_decision_event_id a;
     at_event_id := at_event_id a; at_claim_generation := at_claim_generation a;
     at_project_id := at_project_id a; at_payload_digest := at_payload_digest a;
     at_claim_owner := at_claim_owner a; at_claimed_at := at_claimed_at a;
     at_claim_expires_at := at_claim_expires_at a; at_stage := ST_invoked;
     at_invoked_at := Some now; at_outcome_json := at_outcome_json a;
     at_outcome_digest := at_outcome_digest a |}.

Definition envelope_of (e : OutboxEvent) (c : OutboxClaim) : OutboxEventEnvelope :=
  {| en_claim := c; en_event_type := ev_event_type e; en_event_version := ev_event_version e;
     en_aggregate_type := ev_aggregate_type e; en_aggregate_id := ev_aggregate_id e;
     en_correlation_id := ev_correlation_id e;
     en_causation_event_id := ev_causation_event_id e;
     en_idempotency_key := ev_idempotency_key e; en_occurred_at := ev_occurred_at e;
     en_payload_json := _encode (ev_payload e) |}.

Definition _begin_invocation (E : Engine) (p : PreparedAuthority) (t : Readings)
    (c : OutboxClaim) (db : Db) : result Exn (option OutboxEventEnvelope * Db) :=
  c ← _checked_claim c;
  f ← _facts c PH_INVOKE None;
  _ ← ensure (pa_prepared p f) EX_unavailable;
  match event db (cl_event_id c) (cl_project_id c), attempt db c with
  | Some e, Some a =>
      if negb (matches_event e c) then Ok (None, db)
      else
        c' ← claim_from_attempt a;
        if negb (bool_decide (c' = c))
           || negb (bool_decide (at_stage a = ST_claimed))
           || (cl_claim_expires_at c <=? rd_locked t)
           || negb (registered (eg_registry E) (ev_event_type e) (ev_event_version e))
        then Ok (None, db)
        else
          digest ← oget (canonical_json_hash (ev_payload e)) EX_value;
          _ ← ensure (str_eqb digest (cl_payload_digest c)) EX_unavailable;
          decision ← consume_allow p f;
          _ ← ensure (negb (cl_claim_expires_at c <=? rd_write t)) EX_unavailable;
          db ← update_attempt (invoked_attempt a (rd_write t) decision) db;
          Ok (Some (envelope_of e c), db)
  | _, _ => Ok (None, db)
  end.

(** What the event loop reports of one handler task. *)
Inductive HandlerResult := HR_outcome (o : HandlerOutcome) | HR_other | HR_exception.

Record HandlerRun := {
  hr_done : bool;        (* asyncio.wait returned the task as done *)
  hr_in_time : bool;     (* loop.time() < deadline *)
  hr_cancelled : bool;   (* task.cancelled() *)
  hr_result : HandlerResult;
}.

Definition handler_cause (h : HandlerRun) : FinalizationCause :=
  if hr_done h && hr_in_time h && negb (hr_cancelled h) then
    match hr_result h with
    | HR_outcome o => cause_of_outcome o
    | HR_other | HR_exception => FC_UNKNOWN
    end
  else FC_UNKNOWN.

(** ** finalize *)

(** [datetime.fromisoformat(json.loads(text)["receipt_completed_at"])] *)
Definition stored_completed_at (text : str) : result Exn instant :=
  v ← oget (loads text) EX_value;
  match member (lit "receipt_completed_at") v with
  | Some (JStr s) => oget (fromisoformat s) EX_value
  | _ => Raise EX_value
  end.

Definition _receipt (c : OutboxClaim) (a : OutboxDeliveryAttempt) : result Exn DeliveryReceipt :=
  match at_outcome_json a, at_outcome_digest a with
  | Some j, Some d => Ok {| rc_claim := c; rc_outcome_json := j; rc_outcome_digest := d |}
  | _, _ => Raise EX_value
  end.

(** What the first session of [finalize] keeps. *)
Record FinalizePlan := {
  pl_receipt : DeliveryReceipt;
  pl_invoked_at : option instant;
  pl_options : DeliveryOptions;
  pl_retry_unknown : bool;
}.

Definition finalize_read (E : Engine) (snap : Db) (now : instant) (c : OutboxClaim)
    (cause : FinalizationCause) : result Exn FinalizePlan :=
  c ← _checked_claim c;
  e ← oget (event snap (cl_event_id c) (cl_project_id c)) EX_unavailable;
  a ← oget (attempt snap c) EX_unavailable;
  c' ← claim_from_attempt a;
  _ ← ensure (bool_decide (c' = c)) EX_unavailable;
  now ← (if decide (at_stage a = ST_completed)
         then text ← oget (at_outcome_json a) EX_value; stored_completed_at text
         else Ok now);
  o ← _outcome c (at_invoked_at a) cause now (options_of E e) (retry_unknown_of E e);
  r ← receipt_of c o;
  Ok {| pl_receipt := r; pl_invoked_at := at_invoked_at a; pl_options := options_of E e;
        pl_retry_unknown := retry_unknown_of E e |}.

(** [datetime.fromisoformat(value[k]) if value[k] else None] *)
Definition stored_time (k : str) (v : json) : result Exn (option instant) :=
  match member k v with
  | Some JNull => Ok None
  | Some (JStr s) =>
      if bool_decide (s = []) then Ok None
      else t ← oget (fromisoformat s) EX_value; Ok (Some t)
  | _ => Raise EX_value
  end.

(** [event.delivery_state = value["delivery_state"]]: a text outside the CHECK is an
    integrity failure. *)
Definition stored_state (v : json) : result Exn DeliveryState :=
  match member (lit "delivery_state") v with
  | Some (JStr s) => oget (state_of_text s) EX_integrity
  | _ => Raise EX_value
  end.

Definition stored_code (v : json) : result Exn (option str) :=
  match text_or_null (lit "error_code") v with Some o => Ok o | None => Raise EX_value end.

Definition finalized_event (e : OutboxEvent) (state : DeliveryState) (code : option str)
    (next final : option instant) : OutboxEvent :=
  {| ev_event_id := ev_event_id e; ev_event_type := ev_event_type e;
     ev_event_version := ev_event_version e; ev_producer := ev_producer e;
     ev_aggregate_type := ev_aggregate_type e; ev_aggregate_id := ev_aggregate_id e;
     ev_project_id := ev_project_id e; ev_correlation_id := ev_correlation_id e;
     ev_causation_event_id := ev_causation_event_id e;
     ev_idempotency_key := ev_idempotency_key e; ev_payload := ev_payload e;
     ev_payload_digest := ev_payload_digest e; ev_occurred_at := ev_occurred_at e;
     ev_not_before_at := ev_not_before_at e; ev_delivery_state := state;
     ev_attempt_count := ev_attempt_count e; ev_next_attempt_at := next;
     ev_claim_owner := None; ev_claim_generation := ev_claim_generation e;
     ev_claimed_at := None; ev_claim_expires_at := None;
     ev_last_attempt_at := ev_last_attempt_at e; ev_last_error_code := code;
     ev_finalized_at := final; ev_archived_at := ev_archived_at e |}.

Definition completed_attempt (a : OutboxDeliveryAttempt) (decision : uuid)
    (r : DeliveryReceipt) : OutboxDeliveryAttempt :=
  {| at_claim_decision_event_id := at_claim_decision_event_id a;
     at_invoke_decision_event_id := at_invoke_decision_event_id a;
     at_finalize_decision_event_id := Some decision;
     at_event_id := at_event_id a; at_claim_generation := at_claim_generation a;
     at_project_id := at_project_id a; at_payload_digest := at_payload_digest a;
     at_claim_owner := at_claim_owner a; at_claimed_at := at_claimed_at a;
     at_claim_expires_at := at_claim_expires_at a; at_stage := ST_completed;
     at_invoked_at := at_invoked_at a; at_outcome_json := Some (rc_outcome_json r);
     at_outcome_digest := Some (rc_outcome_digest r) |}.

(** [completed < claim.claim_expires_at <= now] *)
Definition crossed_expiry (completed expires now : instant) : bool :=
  (completed <? expires) && (expires <=? now).

Definition _finalize (E : Engine) (p : PreparedAuthority) (t : Readings)
    (receipt : DeliveryReceipt) (cause : FinalizationCause) (db : Db)
    : result Exn (DeliveryReceipt * Db) :=
  c ← _checked_claim (rc_claim receipt);
  f ← _facts c PH_FINALIZE (Some (rc_outcome_digest receipt));
  _ ← ensure (pa_prepared p f) EX_unavailable;
  e ← oget (event db (cl_event_id c) (cl_project_id c)) EX_unavailable;
  a ← oget (attempt db c) EX_unavailable;
  c' ← claim_from_attempt a;
  _ ← ensure (bool_decide (c' = c)) EX_unavailable;
  if decide (at_stage a = ST_completed) then
    stored ← _receipt c a;
    _ ← ensure (bool_decide (stored = receipt)) (EX_completed stored);
    _ ← consume_allow p f;
    Ok (stored, db)
  else
    _ ← ensure ((ev_claim_generation e =? cl_claim_generation c) && matches_event e c)
          EX_unavailable;
    value ← oget (loads (rc_outcome_json receipt)) EX_value;
    completed ← stored_completed_at (rc_outcome_json receipt);
    expected ← _outcome c (at_invoked_at a) cause completed (options_of E e)
                 (retry_unknown_of E e);
    _ ← ensure (negb ((rd_locked t <? completed)
                      || negb (str_eqb (_encode (outcome_value expected))
                                       (rc_outcome_json receipt))
                      || negb (bool_decide (canonical_json_hash (outcome_value expected)
                                            = Some (rc_outcome_digest receipt)))
                      || crossed_expiry completed (cl_claim_expires_at c) (rd_locked t)))
          EX_unavailable;
    decision ← consume_allow p f;
    _ ← ensure (negb (crossed_expiry completed (cl_claim_expires_at c) (rd_write t)))
          EX_unavailable;
    state ← stored_state value;
    code ← stored_code value;
    next ← stored_time (lit "next_attempt_at") value;
    final ← stored_time (lit "finalized_at") value;
    db ← update_attempt (completed_attempt a decision receipt) db;
    db ← update_event (finalized_event e state code next final) db;
    Ok (receipt, db).

(** The handler of [_CompletedDuringFinalization]: the winner's receipt is used only if
    this caller's cause yields exactly that outcome. *)
Definition finalize_winner (c : OutboxClaim) (plan : FinalizePlan) (cause : FinalizationCause)
    (winner : DeliveryReceipt) : result Exn DeliveryReceipt :=
  completed ← stored_completed_at (rc_outcome_json winner);
  expected ← _outcome c (pl_invoked_at plan) cause completed (pl_options plan)
               (pl_retry_unknown plan);
  _ ← ensure (str_eqb (_encode (outcome_value expected)) (rc_outcome_json winner))
        EX_unavailable;
  Ok winner.

(** ** Whole operations, run alone *)

(** A transaction that raises leaves the committed database as it was. *)
Definition commit {A} (db : Db) (r : result Exn (A * Db)) : Db * result Exn A :=
  match r with Ok (a, db') => (db', Ok a) | Raise e => (db, Raise e) end.

Definition claim (E : Engine) (p : PreparedAuthority) (read : instant) (t : Readings)
    (event_id project_id : uuid) (owner : str) (db : Db) : Db * result Exn (option OutboxClaim) :=
  match claim_propose E db read event_id project_id owner with
  | Raise x => (db, Raise x)
  | Ok None => (db, Ok None)
  | Ok (Some c) => commit db (claim_commit p t c db)
  end.

(** The readings of one finalization: the unlocked read, the first locked transaction
    and the one that replays a concurrent winner. *)
Record FinalReadings := { fr_read : instant; fr_first : Readings; fr_again : Readings }.

Definition finalize (E : Engine) (p : PreparedAuthority) (t : FinalReadings)
    (c : OutboxClaim) (cause : FinalizationCause) (db : Db) : Db * result Exn DeliveryReceipt :=
  match finalize_read E db (fr_read t) c cause with
  | Raise x => (db, Raise x)
  | Ok plan =>
      match _finalize E p (fr_first t) (pl_receipt plan) cause db with
      | Raise (EX_completed winner) =>
          match finalize_winner c plan cause winner with
          | Raise x => (db, Raise x)
          | Ok r => commit db (_finalize E p (fr_again t) r cause db)
          end
      | r => commit db r
      end
  end.

(** [run] is [None] when the caller itself is cancelled while the handler runs:
    the invocation marker stays committed for expiration recovery. *)
Definition invoke (E : Engine) (p : PreparedAuthority) (t : Readings) (t' : FinalReadings)
    (run : option HandlerRun) (c : OutboxClaim) (db : Db)
    : Db * result Exn (option DeliveryReceipt) :=
  match _begin_invocation E p t c db with
  | Raise x => (db, Raise x)
  | Ok (None, db) => (db, Ok None)
  | Ok (Some _, db) =>
      match run with
      | None => (db, Raise EX_cancelled)
      | Some h => let '(db, r) := finalize E p t' c (handler_cause h) db in (db, Some <$> r)
      end
  end.

(** The claim [recover] rebuilds from the event row. *)
Definition claim_from_event (e : OutboxEvent) : result Exn OutboxClaim :=
  match ev_claim_owner e, ev_claimed_at e, ev_claim_expires_at e with
  | Some owner, Some claimed, Some expires =>
      new_claim {| cl_event_id := ev_event_id e; cl_project_id := ev_project_id e;
                   cl_payload_digest := ev_payload_digest e;
                   cl_claim_generation := ev_claim_generation e; cl_claim_owner := owner;
                   cl_claimed_at := claimed; cl_claim_expires_at := expires |}
  | _, _, _ => Raise EX_value
  end.

(** [event.claim_expires_at > now] *)
Definition lease_expired (e : OutboxEvent) (now : instant) : bool :=
  match ev_claim_expires_at e with Some t => t <=? now | None => false end.

Definition recover (E : Engine) (p : PreparedAuthority) (read : instant) (t : FinalReadings)
    (event_id project_id : uuid) (db : Db) : Db * result Exn (option DeliveryReceipt) :=
  match event db event_id project_id with
  | None => (db, Ok None)
  | Some e =>
      if negb (bool_decide (ev_delivery_state e = DS_claimed)) || negb (lease_expired e read)
      then (db, Ok None)
      else match claim_from_event e with
      | Raise x => (db, Raise x)
      | Ok c => let '(db, r) := finalize E p t c FC_EXPIRED db in (db, Some <$> r)
      end
  end.

Record DeliverReadings := {
  dt_recover : instant; dt_recover_final : FinalReadings;
  dt_claim : instant; dt_claim_commit : Readings;
  dt_invoke : Readings; dt_final : FinalReadings;
}.

Definition deliver (E : Engine) (p : PreparedAuthority) (t : DeliverReadings)
    (run : option HandlerRun) (event_id project_id : uuid) (owner : str) (db : Db)
    : Db * result Exn (option DeliveryReceipt) :=
  match recover E p (dt_recover t) (dt_recover_final t) event_id project_id db with
  | (db, Raise x) => (db, Raise x)
  | (db, Ok (Some r)) => (db, Ok (Some r))
  | (db, Ok None) =>
      match claim E p (dt_claim t) (dt_claim_commit t) event_id project_id owner db with
      | (db, Raise x) => (db, Raise x)
      | (db, Ok None) => (db, Ok None)
      | (db, Ok (Some c)) => invoke E p (dt_invoke t) (dt_final t) run c db
      end
  end.
