(* ===== verification/OutboxOutcome.v ===== *)
(** * Outcomes: decision table, codec and database acceptance

    [_outcome] is the one place where a delivery's fate is decided, [_encode] prints it
    and the finalizing transaction reads it back.  This file proves the decision table
    with its backoff bounds, that the printed outcome reads back to the values that were
    decided, and that the database function [outbox_delivery_outcome_valid] accepts every
    outcome the engine produces for a lease it holds. *)

From S2P Require Import Prelude Text Digest Json Instant OutboxApi OutboxStore OutboxDelivery.

(** ** Bounds *)

Lemma options_valid_bounds o :
  options_valid o = true →
  1 ≤ lease_seconds o ≤ 3600 ∧ 1 ≤ max_attempts o ≤ 100 ∧
  1 ≤ retry_base_seconds o ≤ retry_cap_seconds o ∧ retry_cap_seconds o ≤ 86400.
Proof. unfold options_valid, in_range. lia. Qed.

Lemma backoff_bounds o g :
  options_valid o = true → 1 ≤ g →
  retry_base_seconds o ≤ backoff o g ≤ retry_cap_seconds o.
Proof.
  intros Ho%options_valid_bounds Hg. unfold backoff.
  pose proof (Z.pow_pos_nonneg 2 (Z.min (g - 1) 30)). nia.
Qed.

(** Backoff never shrinks from one generation to the next. *)
Lemma backoff_mono o g h :
  options_valid o = true → 1 ≤ g ≤ h → backoff o g ≤ backoff o h.
Proof.
  intros Ho%options_valid_bounds Hg. unfold backoff.
  pose proof (Z.pow_le_mono_r 2 (Z.min (g - 1) 30) (Z.min (h - 1) 30)). nia.
Qed.

Lemma add_seconds_Some t s t' :
  add_seconds t s = Some t' ↔ t' = t + s * us_per_second ∧ instant_ok t' = true.
Proof.
  unfold add_seconds. cbv zeta.
  destruct (instant_ok (t + s * us_per_second)) eqn:E.
  - split; [by intros [= <-]|by intros [-> _]].
  - split; [done|intros [-> ?]; congruence].
Qed.

(** ** The decision table *)

Record outcome_table (c : OutboxClaim) (invoked : option instant) (cause : FinalizationCause)
    (now : instant) (opts : DeliveryOptions) (retry_unknown : bool) (o : Outcome) : Prop := {
  ot_completed : oc_receipt_completed_at o = now;
  ot_invoked : oc_invoked_at o = invoked;
  ot_unknown : oc_invocation_unknown o = true ↔
    is_Some invoked ∧ (cl_claim_expires_at c ≤ now ∨ cause = FC_UNKNOWN);
  ot_acknowledged : oc_delivery_state o = DS_acknowledged ↔
    cause = FC_ACKNOWLEDGE ∧ is_Some invoked ∧ now < cl_claim_expires_at c;
  ot_retryable : oc_delivery_state o = DS_retryable →
    cl_claim_generation c < max_attempts opts ∧
    oc_next_attempt_at o = Some (now + backoff opts (cl_claim_generation c) * us_per_second) ∧
    oc_finalized_at o = None ∧
    (oc_invocation_unknown o = true → retry_unknown = true) ∧
    (oc_invocation_unknown o = false → cause = FC_RETRY ∨ invoked = None);
  ot_final : oc_delivery_state o ≠ DS_retryable →
    oc_next_attempt_at o = None ∧ oc_finalized_at o = Some now;
  ot_states : oc_delivery_state o ∈ [DS_acknowledged; DS_retryable; DS_dead_letter];
}.

(** The shape of an outcome, case by case; every other fact is read off it. *)
Inductive outcome_case (c : OutboxClaim) (cause : FinalizationCause) (now : instant)
    (opts : DeliveryOptions) (retry_unknown : bool)
    : option instant → Outcome → Prop :=
| oc_unknown_retry i r :
    cl_claim_expires_at c ≤ now ∨ (now < cl_claim_expires_at c ∧ cause = FC_UNKNOWN) →
    retry_unknown = true →
    cl_claim_generation c < max_attempts opts →
    add_seconds now (backoff opts (cl_claim_generation c)) = Some r →
    outcome_case c cause now opts retry_unknown (Some i)
      (Build_Outcome DS_retryable (Some (lit "INVOKE_OUTCOME_UNKNOWN")) (Some r) None now true (Some i))
| oc_unknown_dead i :
    cl_claim_expires_at c ≤ now ∨ (now < cl_claim_expires_at c ∧ cause = FC_UNKNOWN) →
    outcome_case c cause now opts retry_unknown (Some i)
      (Build_Outcome DS_dead_letter (Some (lit "INVOKE_OUTCOME_UNKNOWN")) None (Some now) now true (Some i))
| oc_ack i :
    now < cl_claim_expires_at c → cause = FC_ACKNOWLEDGE →
    outcome_case c cause now opts retry_unknown (Some i)
      (Build_Outcome DS_acknowledged None None (Some now) now false (Some i))
| oc_reject i :
    now < cl_claim_expires_at c → cause = FC_REJECT →
    outcome_case c cause now opts retry_unknown (Some i)
      (Build_Outcome DS_dead_letter (Some (lit "HANDLER_REJECTED")) None (Some now) now false (Some i))
| oc_exhausted inv :
    (inv = None ∧ cl_claim_expires_at c ≤ now ∧ cause = FC_EXPIRED) ∨
      (is_Some inv ∧ now < cl_claim_expires_at c ∧ cause = FC_RETRY) →
    max_attempts opts ≤ cl_claim_generation c →
    outcome_case c cause now opts retry_unknown inv
      (Build_Outcome DS_dead_letter (Some (lit "ATTEMPTS_EXHAUSTED")) None (Some now) now false inv)
| oc_retry_requested i r :
    now < cl_claim_expires_at c → cause = FC_RETRY →
    cl_claim_generation c < max_attempts opts →
    add_seconds now (backoff opts (cl_claim_generation c)) = Some r →
    outcome_case c cause now opts retry_unknown (Some i)
      (Build_Outcome DS_retryable (Some (lit "RETRY_REQUESTED")) (Some r) None now false (Some i))
| oc_lease_expired r :
    cl_claim_expires_at c ≤ now → cause = FC_EXPIRED →
    cl_claim_generation c < max_attempts opts →
    add_seconds now (backoff opts (cl_claim_generation c)) = Some r →
    outcome_case c cause now opts retry_unknown None
      (Build_Outcome DS_retryable (Some (lit "LEASE_EXPIRED_BEFORE_INVOKE")) (Some r) None now false None).

Lemma outcome_cases c invoked cause now opts ru o :
  _outcome c invoked cause now opts ru = Ok o → outcome_case c cause now opts ru invoked o.
Proof.
  unfold _outcome.
  destruct (Z.leb_spec (cl_claim_expires_at c) now);
    destruct (add_seconds now (backoff opts (cl_claim_generation c))) as [r|] eqn:Hr;
    destruct (Z.ltb_spec (cl_claim_generation c) (max_attempts opts)) as [Hm|Hm];
    destruct (Z.leb_spec (max_attempts opts) (cl_claim_generation c)); try lia;
    destruct invoked as [i|], cause, ru; cbn; try discriminate;
    intros [= <-];
    first
      [ eapply oc_unknown_retry; solve [eauto]
      | eapply oc_unknown_dead; solve [eauto]
      | eapply oc_ack; solve [eauto]
      | eapply oc_reject; solve [eauto]
      | eapply oc_exhausted; [naive_solver|assumption]
      | eapply oc_retry_requested; solve [eauto]
      | eapply oc_lease_expired; solve [eauto] ].
Qed.

(** The fate of a delivery: acknowledged exactly for an in-lease acknowledgement of
    an invoked attempt; unknown exactly when an invoked attempt outlived its lease or its
    handler gave no disposition; retried only below [max_attempts], after exactly the
    capped exponential backoff, and an unknown invocation only where registered as replay
    safe; every other outcome is final at the completion time. *)
Theorem outcome_decision_table c invoked cause now opts ru o :
  _outcome c invoked cause now opts ru = Ok o →
  outcome_table c invoked cause now opts ru o.
Proof.
  intros H%outcome_cases.
  destruct H; repeat match goal with H : add_seconds _ _ = Some _ |- _ =>
    apply add_seconds_Some in H as [-> _] end;
  constructor; simpl; try done; try set_solver;
  unfold is_Some in *; naive_solver lia.
Qed.

(** ** The codec *)

(** What [isoformat] and UTF-8 can carry. *)
Definition outcome_ok (o : Outcome) : Prop :=
  (∀ s, oc_error_code o = Some s → Forall (λ c, 0 ≤ c < 128) s) ∧
  instant_ok (oc_receipt_completed_at o) = true ∧
  (∀ t, oc_next_attempt_at o = Some t → instant_ok t = true) ∧
  (∀ t, oc_finalized_at o = Some t → instant_ok t = true) ∧
  (∀ t, oc_invoked_at o = Some t → instant_ok t = true).

Lemma lit_ascii s : forallb (λ c, (0 <=? c) && (c <? 128)) (lit s) = true →
  Forall (λ c, 0 ≤ c < 128) (lit s).
Proof.
  rewrite forallb_forall, Forall_forall. intros H c Hc%list_elem_of_In%H. lia.
Qed.

Lemma outcome_case_ok c cause now opts ru invoked o :
  outcome_case c cause now opts ru invoked o → instant_ok now = true →
  (∀ i, invoked = Some i → instant_ok i = true) → outcome_ok o.
Proof.
  intros H Hnow Hi. destruct H; repeat match goal with H : add_seconds _ _ = Some _ |- _ =>
    apply add_seconds_Some in H as [_ ?] end;
  unfold outcome_ok; simpl; split_and!; try naive_solver;
  intros s [= <-]; apply lit_ascii; reflexivity.
Qed.

Lemma ascii_is_str s : Forall (λ c, 0 ≤ c < 128) s → is_str s = true.
Proof.
  intros H. unfold is_str. apply forallb_forall. intros c Hc%list_elem_of_In.
  rewrite Forall_forall in H. specialize (H c Hc). simpl in H. unfold code_point. lia.
Qed.

Lemma isoformat_is_str t : is_str (isoformat t) = true.
Proof. apply ascii_is_str, isoformat_is_ascii. Qed.

Lemma outcome_value_wf o : outcome_ok o → json_wf (outcome_value o) = true.
Proof.
  intros (Hc & _).
  assert (∀ t, json_wf (json_time t) = true) as Ht.
  { intros [t|]; [apply isoformat_is_str|done]. }
  change (json_wf (outcome_value o)) with
    (json_wf (JStr (state_text (oc_delivery_state o)))
     && (json_wf (match oc_error_code o with Some s => JStr s | None => JNull end)
     && (json_wf (json_time (oc_next_attempt_at o))
     && (json_wf (json_time (oc_finalized_at o))
     && (json_wf (JStr (isoformat (oc_receipt_completed_at o)))
     && (json_wf (JBool (oc_invocation_unknown o))
     && (json_wf (json_time (oc_invoked_at o)) && true)))))) && true).
  rewrite !Ht. cbn [json_wf]. rewrite isoformat_is_str.
  assert (is_str (state_text (oc_delivery_state o)) = true) as ->
    by (destruct (oc_delivery_state o); reflexivity).
  destruct (oc_error_code o) as [s|]; cbn [json_wf]; [by rewrite ascii_is_str by (by apply Hc)|done].
Qed.

Lemma outcome_text_reads o :
  outcome_ok o → loads (_encode (outcome_value o)) = Some (canon (outcome_value o)).
Proof. intros Ho. apply read_back, outcome_value_wf, Ho. Qed.

(** The members of the value read back. *)
Lemma outcome_members o :
  let v := canon (outcome_value o) in
  member (lit "delivery_state") v = Some (JStr (state_text (oc_delivery_state o))) ∧
  text_or_null (lit "error_code") v = Some (oc_error_code o) ∧
  member (lit "invocation_unknown") v = Some (JBool (oc_invocation_unknown o)) ∧
  member (lit "receipt_completed_at") v = Some (JStr (isoformat (oc_receipt_completed_at o))) ∧
  member (lit "next_attempt_at") v = Some (json_time (oc_next_attempt_at o)) ∧
  member (lit "finalized_at") v = Some (json_time (oc_finalized_at o)) ∧
  member (lit "invoked_at") v = Some (json_time (oc_invoked_at o)).
Proof.
  destruct o as [s [c|] [n|] [f|] t u [i|]]; split_and!; reflexivity.
Qed.

Lemma state_of_text_text s : state_of_text (state_text s) = Some s.
Proof. destruct s; vm_compute; reflexivity. Qed.

Lemma isoformat_nonempty t : isoformat t ≠ [].
Proof. unfold isoformat. destruct (ord2ymd _) as [[y mo] d]. done. Qed.

Lemma stored_time_json k v t :
  member k v = Some (json_time t) → (∀ i, t = Some i → instant_ok i = true) →
  stored_time k v = Ok t ∧ time_or_null k v = Some t.
Proof.
  intros Hm Ht. unfold stored_time, time_or_null, text_or_null. rewrite Hm.
  destruct t as [t|]; [|done]. cbn [json_time].
  rewrite bool_decide_eq_false_2 by apply isoformat_nonempty.
  specialize (Ht t eq_refl). cbn. by rewrite parse_isoformat.
Qed.

(** Everything a transaction reads from a stored outcome text. *)
Record outcome_reads (text : str) (o : Outcome) : Prop := {
  or_value : loads text = Some (canon (outcome_value o));
  or_completed : stored_completed_at text = Ok (oc_receipt_completed_at o);
  or_state : stored_state (canon (outcome_value o)) = Ok (oc_delivery_state o);
  or_code : stored_code (canon (outcome_value o)) = Ok (oc_error_code o);
  or_next : stored_time (lit "next_attempt_at") (canon (outcome_value o))
            = Ok (oc_next_attempt_at o);
  or_final : stored_time (lit "finalized_at") (canon (outcome_value o))
             = Ok (oc_finalized_at o);
}.

Lemma encoded_outcome_reads o : outcome_ok o → outcome_reads (_encode (outcome_value o)) o.
Proof.
  intros Ho. pose proof (outcome_text_reads o Ho) as Hl.
  destruct (outcome_members o) as (Ms & Mc & Mu & Mr & Mn & Mf & Mi).
  destruct Ho as (_ & Hr & Hn & Hf & Hi).
  constructor; [done| | | | |].
  - unfold stored_completed_at. rewrite Hl. run. rewrite Mr. by rewrite parse_isoformat.
  - unfold stored_state. rewrite Ms. by rewrite state_of_text_text.
  - unfold stored_code. by rewrite Mc.
  - by apply stored_time_json.
  - by apply stored_time_json.
Qed.

(** The printed outcome is ASCII, so it always has a UTF-8 text and a digest. *)
Lemma dump_str_encodable s : Forall (λ c, 0 ≤ c < 128) s → encodable (dump_str s).
Proof. intros Hs. apply (dump_str_octets s s). by apply utf8_encode_ascii. Qed.

Lemma encodable_object kvs :
  Forall (λ kv, encodable (dump_str kv.1) ∧ encodable (dumps kv.2)) kvs →
  encodable (dumps (JObj kvs)).
Proof.
  intros H. cbn [dumps]. rewrite members_text_eq.
  apply (bracketed_octets 123 125); [lia..|]. apply Forall_map. rewrite sort_kvs_Permutation.
  eapply Forall_impl; [exact H|]. intros [k v] [H1 H2]. cbn in *.
  destruct (encodable_ascii_cons 58 _ ltac:(lia) H2) as [H3 _].
  apply (encodable_app _ _ H1 H3).
Qed.

Lemma outcome_value_encodable o : outcome_ok o → encodable (dumps (outcome_value o)).
Proof.
  intros (Hc & _). apply encodable_object.
  assert (∀ s, forallb (λ c, (0 <=? c) && (c <? 128)) (lit s) = true →
    encodable (dump_str (lit s))) as Hl by (intros; by apply dump_str_encodable, lit_ascii).
  assert (∀ t, encodable (dumps (JStr (isoformat t)))) as Hi
    by (intros; apply dump_str_encodable, isoformat_is_ascii).
  assert (∀ t, encodable (dumps (json_time t))) as Ht by (intros [t|]; [apply Hi|by eexists]).
  repeat (apply Forall_cons_2; [split; cbn [fst snd]; [by apply Hl|]|]); [..|apply Forall_nil_2];
    try apply Ht; try apply Hi.
  - destruct (oc_delivery_state o); by apply Hl.
  - destruct (oc_error_code o) as [s|]; [by apply dump_str_encodable, Hc|by eexists].
  - destruct (oc_invocation_unknown o); by eexists.
Qed.

(** ** Acceptance by the database *)

Lemma state_text_inj s1 s2 : state_text s1 = state_text s2 → s1 = s2.
Proof.
  intros H. apply (f_equal state_of_text) in H. rewrite !state_of_text_text in H. congruence.
Qed.

Lemma receipt_of_Ok c o r :
  receipt_of c o = Ok r ↔
  rc_claim r = c ∧ rc_outcome_json r = _encode (outcome_value o) ∧
  canonical_json_hash (outcome_value o) = Some (rc_outcome_digest r).
Proof.
  unfold receipt_of. rewrite result_bind_Ok. split.
  - intros (d & Hd%oget_Ok & Hr%Ok_inj). subst r. done.
  - intros (<- & Hj & Hd). exists (rc_outcome_digest r). rewrite Hd. split; [done|].
    rewrite <- Hj. by destruct r.
Qed.

Lemma canonical_outcome o :
  outcome_ok o →
  canonical_text (_encode (outcome_value o)) (canon (outcome_value o)) = true.
Proof.
  intros Ho. pose proof (dumps_canon (outcome_value o)) as Hd.
  assert (∃ kvs, canon (outcome_value o) = JObj kvs ∧ map fst (sort_kvs kvs) = outcome_keys)
    as (kvs & E & Hk) by (eexists; split; reflexivity).
  rewrite E in Hd |- *. unfold canonical_text. rewrite Hd, Hk.
  by rewrite bool_decide_eq_true_2, str_eqb_refl.
Qed.

(** Reduces the constants of [outcome_shape], keeping comparisons of instants. *)
Ltac shape_compute :=
  lazy -[Z.leb Z.ltb Z.geb Z.gtb Z.eqb Z.add us_per_day us_per_second Z.mul backoff
         cl_claim_expires_at cl_claimed_at cl_claim_generation].

Lemma outcome_case_shape c cause now opts ru invoked o :
  options_valid opts = true → 1 ≤ cl_claim_generation c →
  outcome_case c cause now opts ru invoked o →
  outcome_shape (state_text (oc_delivery_state o)) (oc_error_code o) (oc_invocation_unknown o)
    (oc_next_attempt_at o) (oc_finalized_at o) invoked now (cl_claim_expires_at c) = true.
Proof.
  intros Hopts Hg H. pose proof (backoff_bounds opts _ Hopts Hg) as Hb.
  pose proof (options_valid_bounds _ Hopts) as Ho.
  assert (∀ r, add_seconds now (backoff opts (cl_claim_generation c)) = Some r →
    (r >? now) = true ∧ (r >? now + us_per_day) = false) as Hr.
  { intros r [-> _]%add_seconds_Some. unfold us_per_day, us_per_second. rewrite Z.gtb_ltb. lia. }
  destruct H as [i r ?? ? Hs|i ?|i ??|i ??|inv Hcase ?|i r ??? Hs|r ??? Hs];
    try destruct (Hr _ Hs) as [Hr1 Hr2];
    try destruct Hcase as [(-> & ? & ?)|((i & ->) & ? & ?)];
    shape_compute; rewrite ?Z.eqb_refl, ?Hr1, ?Hr2;
    repeat match goal with
    | |- context [?a >=? ?b] => replace (a >=? b) with false by lia
    | |- context [?a <? ?b] => replace (a <? b) with false by lia
    end; reflexivity.
Qed.

Lemma outcome_db_valid c invoked cause now opts ru o r :
  _outcome c invoked cause now opts ru = Ok o → receipt_of c o = Ok r →
  options_valid opts = true → 1 ≤ cl_claim_generation c →
  instant_ok now = true → cl_claimed_at c ≤ now →
  (∀ i, invoked = Some i → instant_ok i = true ∧ i ≤ now) →
  outbox_delivery_outcome_valid (rc_outcome_json r) (rc_outcome_digest r)
    (cl_claimed_at c) (cl_claim_expires_at c) invoked = true.
Proof.
  intros Ho%outcome_cases Hr Hopts Hg Hnow Hcl Hi.
  assert (outcome_ok o) as Hok by (eapply outcome_case_ok; naive_solver).
  pose proof (outcome_case_shape _ _ _ _ _ _ _ Hopts Hg Ho) as Hs.
  assert (oc_receipt_completed_at o = now ∧ oc_invoked_at o = invoked) as [Et Ei]
    by (destruct Ho; done).
  apply receipt_of_Ok in Hr as (_ & -> & Hd). unfold outbox_delivery_outcome_valid.
  rewrite (outcome_text_reads o Hok), (canonical_outcome o Hok).
  rewrite canonical_json_hash_canon.
  rewrite bool_decide_eq_true_2 by done.
  destruct (outcome_members o) as (-> & -> & -> & Mr & Mn & Mf & Mi).
  destruct Hok as (_ & H1 & H2 & H3 & H4).
  rewrite (proj2 (stored_time_json _ _ (Some _) Mr ltac:(naive_solver))).
  rewrite (proj2 (stored_time_json _ _ _ Mf H3)), (proj2 (stored_time_json _ _ _ Mn H2)).
  rewrite (proj2 (stored_time_json _ _ _ Mi H4)), Et, Ei, Hs.
  rewrite bool_decide_eq_true_2 by done. rewrite (proj2 (Z.leb_le _ _)) by done.
  destruct invoked as [i|]; [|done]. rewrite (proj2 (Z.leb_le _ _)); [done|].
  by apply Hi.
Qed.

(** The database accepts every outcome the engine writes: for valid limits and a lease
    taken no later than the completion time, the outcome text and digest satisfy
    [outbox_delivery_outcome_valid], so finalization never dies on its own CHECK. *)
Theorem outcome_accepted c invoked cause now opts ru o r :
  _outcome c invoked cause now opts ru = Ok o → receipt_of c o = Ok r →
  options_valid opts = true → 1 ≤ cl_claim_generation c →
  instant_ok now = true → cl_claimed_at c ≤ now →
  (∀ i, invoked = Some i → instant_ok i = true ∧ i ≤ now) →
  outbox_delivery_outcome_valid (rc_outcome_json r) (rc_outcome_digest r)
    (cl_claimed_at c) (cl_claim_expires_at c) invoked = true.
Proof. apply outcome_db_valid. Qed.

(** ** A concrete outcome *)

Definition table_claim : OutboxClaim :=
  {| cl_event_id := 5; cl_project_id := 9; cl_payload_digest := lit "sha256:"; 
     cl_claim_generation := 3; cl_claim_owner := lit "worker-1"; cl_claimed_at := 1000;
     cl_claim_expires_at := 1000 + 300 * us_per_second |}.
Definition table_outcome : Outcome :=
  {| oc_delivery_state := DS_retryable; oc_error_code := Some (lit "RETRY_REQUESTED");
     oc_next_attempt_at := Some (3000 + 20 * us_per_second); oc_finalized_at := None;
     oc_receipt_completed_at := 3000; oc_invocation_unknown := false;
     oc_invoked_at := Some 2000 |}.

Lemma table_outcome_ok :
  _outcome table_claim (Some 2000) FC_RETRY 3000 default_options false = Ok table_outcome.
Proof. vm_compute. reflexivity. Defined.

Lemma outcome_decision_table_witness :
  outcome_table table_claim (Some 2000) FC_RETRY 3000 default_options false table_outcome.
Proof. exact (outcome_decision_table _ _ _ _ _ _ _ table_outcome_ok). Defined.

Lemma outcome_accepted_witness :
  ∃ r, receipt_of table_claim table_outcome = Ok r ∧
    outbox_delivery_outcome_valid (rc_outcome_json r) (rc_outcome_digest r)
      (cl_claimed_at table_claim) (cl_claim_expires_at table_claim) (Some 2000) = true.
Proof.
  eexists. split; [vm_compute; reflexivity|].
  apply (outcome_accepted _ _ _ _ _ _ _ _ table_outcome_ok);
    [vm_compute; reflexivity..|vm_compute; congruence|vm_compute; reflexivity| |].
  - vm_compute. congruence.
  - intros i [= <-]. split; [reflexivity|lia].
Defined.
