(* ===== verification/OutboxCustody.v ===== *)
(** * Custody: what each delivery transaction does to the two tables

    Inversion lemmas for the three writing transactions ([claim_commit],
    [_begin_invocation], [_finalize]), the custody invariant that ties an event to its
    attempts (the predicate the deferred trigger [check_outbox_delivery_projection]
    enforces), and its preservation, for whatever claims, receipts, authorization answers
    and clock readings the transactions are given. *)

From S2P Require Import Prelude Text Digest Json Instant OutboxApi OutboxStore OutboxAppend.
From S2P Require Import OutboxDelivery OutboxOutcome.

(** ** Statements *)

Lemma update_event_Ok e db db' :
  update_event e db = Ok db' ↔
  event_checks e = true ∧ db' = set_events <[ev_event_id e := e]> db.
Proof. unfold update_event. rewrite ensure_bind_Ok. naive_solver. Qed.

Lemma update_attempt_Ok a db db' :
  update_attempt a db = Ok db' ↔
  attempt_checks a = true ∧ decisions_unique db a = true ∧
  db' = set_attempts <[at_key a := a]> db.
Proof. unfold update_attempt. rewrite ensure_bind_Ok, andb_true_iff. naive_solver. Qed.

Lemma insert_attempt_Ok a db db' :
  insert_attempt a db = Ok db' ↔
  db_attempts db !! at_key a = None ∧ is_Some (db_events db !! at_event_id a) ∧
  attempt_checks a = true ∧ decisions_unique db a = true ∧
  db' = set_attempts <[at_key a := a]> db.
Proof.
  unfold insert_attempt. rewrite ensure_bind_Ok, andb_true_iff, !bool_decide_eq_true.
  rewrite update_attempt_Ok. tauto.
Qed.

(** The same facts, as rewriting rules for statements that succeed. *)
Lemma update_event_succeeds e db :
  event_checks e = true → update_event e db = Ok (set_events <[ev_event_id e := e]> db).
Proof. intros. by apply update_event_Ok. Qed.

Lemma update_attempt_succeeds a db :
  attempt_checks a = true → decisions_unique db a = true →
  update_attempt a db = Ok (set_attempts <[at_key a := a]> db).
Proof. intros. by apply update_attempt_Ok. Qed.

Lemma insert_attempt_succeeds a db :
  db_attempts db !! at_key a = None → is_Some (db_events db !! at_event_id a) →
  attempt_checks a = true → decisions_unique db a = true →
  insert_attempt a db = Ok (set_attempts <[at_key a := a]> db).
Proof. intros. by apply insert_attempt_Ok. Qed.

Lemma event_Some db id pid e :
  event db id pid = Some e ↔ db_events db !! id = Some e ∧ ev_project_id e = pid.
Proof.
  unfold event. destruct (db_events db !! id) as [e'|]; simpl; [|naive_solver].
  case_guard; naive_solver.
Qed.

Lemma attempt_Some db c a :
  attempt db c = Some a ↔
  db_attempts db !! (cl_event_id c, cl_claim_generation c) = Some a ∧
  at_project_id a = cl_project_id c.
Proof.
  unfold attempt. destruct (db_attempts db !! _) as [a'|]; simpl; [|naive_solver].
  case_guard; naive_solver.
Qed.

Lemma str_eqb_true a b : str_eqb a b = true ↔ a = b.
Proof. unfold str_eqb. apply bool_decide_eq_true. Qed.

Lemma matches_event_true e c :
  matches_event e c = true ↔
  ev_delivery_state e = DS_claimed ∧ ev_event_id e = cl_event_id c ∧
  ev_project_id e = cl_project_id c ∧ ev_payload_digest e = cl_payload_digest c ∧
  ev_claim_generation e = cl_claim_generation c ∧
  ev_claim_owner e = Some (cl_claim_owner c) ∧ ev_claimed_at e = Some (cl_claimed_at c) ∧
  ev_claim_expires_at e = Some (cl_claim_expires_at c).
Proof.
  unfold matches_event.
  rewrite !andb_true_iff, !bool_decide_eq_true, !Z.eqb_eq, str_eqb_true. tauto.
Qed.

Lemma new_claim_Ok c c' : new_claim c = Ok c' ↔ claim_valid c = true ∧ c' = c.
Proof. unfold new_claim. destruct (claim_valid c); naive_solver. Qed.

Lemma checked_claim_Ok c c' : _checked_claim c = Ok c' ↔ claim_valid c = true ∧ c' = c.
Proof. unfold _checked_claim. destruct (claim_valid c); naive_solver. Qed.

(** The permission that a successful [consume] carries. *)
Definition allowed (p : PreparedAuthority) (f : OutboxDispatchFacts) (d : uuid) : Prop :=
  ∃ x, pa_consume p f = Some x ∧ ad_decision_id x = d ∧ ad_outcome x = ALLOW ∧
       ad_action_id x = OUTBOX_DISPATCH_ACTION ∧ ad_permission_id x = OUTBOX_DISPATCH_PERMISSION.

Lemma consume_allow_Ok p f d : consume_allow p f = Ok d ↔ allowed p f d.
Proof.
  unfold consume_allow, allowed, _allow. rewrite result_bind_Ok.
  setoid_rewrite oget_Ok. setoid_rewrite ensure_bind_Ok.
  setoid_rewrite andb_true_iff. setoid_rewrite andb_true_iff. setoid_rewrite str_eqb_true.
  split.
  - intros (x & Hx & [[Ho Ha] Hp] & [= <-]). exists x. split_and!; try done.
    by destruct (ad_outcome x).
  - intros (x & Hx & <- & Ho & Ha & Hp). exists x. split_and!; try done. by rewrite Ho.
Qed.

Definition facts_of (c : OutboxClaim) (phase : OutboxDispatchPhase) (digest : option str)
    : OutboxDispatchFacts :=
  {| fx_phase := phase; fx_event_id := cl_event_id c; fx_project_id := cl_project_id c;
     fx_payload_digest := cl_payload_digest c; fx_claim_generation := cl_claim_generation c;
     fx_claim_owner := cl_claim_owner c; fx_claimed_at := cl_claimed_at c;
     fx_claim_expires_at := cl_claim_expires_at c; fx_outcome_digest := digest |}.

Lemma facts_Ok c phase digest f :
  _facts c phase digest = Ok f ↔ f = facts_of c phase digest ∧ facts_valid f = true.
Proof.
  unfold _facts. change (Build_OutboxDispatchFacts _ _ _ _ _ _ _ _ _) with (facts_of c phase digest).
  destruct (facts_valid (facts_of c phase digest)) eqn:E.
  - split; [intros <-%Ok_inj; done|by intros [-> _]].
  - split; [done|intros [-> ?]; congruence].
Qed.

(** ** claim *)

Record claim_written (p : PreparedAuthority) (t : Readings) (c : OutboxClaim) (db db' : Db)
    (e : OutboxEvent) (d : uuid) : Prop := {
  cw_event : db_events db !! cl_event_id c = Some e;
  cw_project : ev_project_id e = cl_project_id c;
  cw_state : claimable_state (ev_delivery_state e) = true;
  cw_generation : cl_claim_generation c = ev_claim_generation e + 1;
  cw_digest : ev_payload_digest e = cl_payload_digest c;
  cw_due : due e (rd_locked t) = true;
  cw_live : rd_locked t < cl_claim_expires_at c ∧ rd_write t < cl_claim_expires_at c;
  cw_allowed : allowed p (facts_of c PH_CLAIM None) d;
  cw_fresh : db_attempts db !! (cl_event_id c, cl_claim_generation c) = None;
  cw_event_checks : event_checks (claimed_event e c) = true;
  cw_attempt_checks : attempt_checks (claimed_attempt c d) = true;
  cw_unique : decisions_unique db (claimed_attempt c d) = true;
  cw_db : db' = {| db_events := <[ev_event_id e := claimed_event e c]> (db_events db);
                   db_attempts := <[(cl_event_id c, cl_claim_generation c)
                                    := claimed_attempt c d]> (db_attempts db) |};
}.

Lemma claim_commit_Ok p t c db r db' :
  claim_commit p t c db = Ok (r, db') →
  (r = None ∧ db' = db) ∨ (r = Some c ∧ ∃ e d, claim_written p t c db db' e d).
Proof.
  unfold claim_commit.
  intros (f & [Hf Hv]%facts_Ok & [Hp H]%ensure_bind_Ok)%result_bind_Ok. subst f.
  destruct (event db _ _) as [e|] eqn:He; [|naive_solver].
  apply event_Some in He as [He Hpid].
  destruct (_ || _) eqn:Hg in H; [naive_solver|].
  rewrite !orb_false_iff, !negb_false_iff in Hg. destruct Hg as [[[[G1 G2] G3] G4] G5].
  apply result_bind_Ok in H as (d & Hd%consume_allow_Ok & [Hw H]%ensure_bind_Ok).
  apply result_bind_Ok in H as (db1 & [Hc ->]%update_event_Ok & H).
  apply result_bind_Ok in H as (db2 & Hi%insert_attempt_Ok & [= <- <-]).
  destruct Hi as (Hf & _ & Ha & Hu & ->).
  right. split; [done|]. exists e, d. constructor; try done.
  - apply Z.eqb_eq in G2. lia.
  - by apply str_eqb_true.
  - apply negb_true_iff in Hw. lia.
Qed.

(** ** invoke *)

Record invocation_written (E : Engine) (p : PreparedAuthority) (t : Readings) (c : OutboxClaim)
    (db db' : Db) (e : OutboxEvent) (a : OutboxDeliveryAttempt) (d : uuid) : Prop := {
  iw_valid : claim_valid c = true;
  iw_event : db_events db !! cl_event_id c = Some e;
  iw_matches : matches_event e c = true;
  iw_attempt : db_attempts db !! (cl_event_id c, cl_claim_generation c) = Some a;
  iw_claim : attempt_claim a = c;
  iw_stage : at_stage a = ST_claimed;
  iw_live : rd_locked t < cl_claim_expires_at c ∧ rd_write t < cl_claim_expires_at c;
  iw_registered : registered (eg_registry E) (ev_event_type e) (ev_event_version e) = true;
  iw_digest : canonical_json_hash (ev_payload e) = Some (cl_payload_digest c);
  iw_allowed : allowed p (facts_of c PH_INVOKE None) d;
  iw_checks : attempt_checks (invoked_attempt a (rd_write t) d) = true;
  iw_unique : decisions_unique db (invoked_attempt a (rd_write t) d) = true;
  iw_db : db' = set_attempts <[(cl_event_id c, cl_claim_generation c)
                               := invoked_attempt a (rd_write t) d]> db;
}.

Lemma begin_invocation_Ok E p t c db r db' :
  _begin_invocation E p t c db = Ok (r, db') →
  (r = None ∧ db' = db) ∨
  ∃ e a d, r = Some (envelope_of e c) ∧ invocation_written E p t c db db' e a d.
Proof.
  unfold _begin_invocation.
  intros (c0 & [Hv ->]%checked_claim_Ok & (f & [Hf Hfv]%facts_Ok & [Hp H]%ensure_bind_Ok)%result_bind_Ok)%result_bind_Ok.
  subst f.
  destruct (event db _ _) as [e|] eqn:He; [|naive_solver].
  destruct (attempt db c) as [a|] eqn:Ha; [|naive_solver].
  apply event_Some in He as [He Hpid]. apply attempt_Some in Ha as [Ha Hapid].
  destruct (matches_event e c) eqn:Hm; [|naive_solver]. cbn [negb] in H.
  apply result_bind_Ok in H as (c' & [Hcv ->]%new_claim_Ok & H).
  destruct (_ || _) eqn:Hg in H; [naive_solver|].
  rewrite !orb_false_iff, !negb_false_iff, !bool_decide_eq_true in Hg.
  destruct Hg as [[[G1 G2] G3] G4].
  apply result_bind_Ok in H as (digest & Hd%oget_Ok & [Hdig%str_eqb_true H]%ensure_bind_Ok).
  apply result_bind_Ok in H as (d & Hal%consume_allow_Ok & [Hw%negb_true_iff H]%ensure_bind_Ok).
  apply result_bind_Ok in H as (db1 & (Hc & Hu & ->)%update_attempt_Ok & H%Ok_inj).
  simplify_eq H. intros <- <-. right. exists e, a, d. split; [done|].
  constructor; try done; [lia|congruence|].
  unfold at_key. cbn [at_event_id at_claim_generation invoked_attempt].
  rewrite <- G1 at 1 2. done.
Qed.

(** ** finalize *)

Record finalize_written (E : Engine) (p : PreparedAuthority) (t : Readings)
    (r : DeliveryReceipt) (cause : FinalizationCause) (db db' : Db)
    (e : OutboxEvent) (a : OutboxDeliveryAttempt) (o : Outcome) (d : uuid) : Prop := {
  fw_valid : claim_valid (rc_claim r) = true;
  fw_event : db_events db !! cl_event_id (rc_claim r) = Some e;
  fw_matches : matches_event e (rc_claim r) = true;
  fw_attempt : db_attempts db !! (cl_event_id (rc_claim r), cl_claim_generation (rc_claim r))
               = Some a;
  fw_claim : attempt_claim a = rc_claim r;
  fw_stage : at_stage a ≠ ST_completed;
  fw_outcome : _outcome (rc_claim r) (at_invoked_at a) cause (oc_receipt_completed_at o)
                 (options_of E e) (retry_unknown_of E e) = Ok o;
  fw_json : rc_outcome_json r = _encode (outcome_value o);
  fw_digest : canonical_json_hash (outcome_value o) = Some (rc_outcome_digest r);
  fw_time : oc_receipt_completed_at o ≤ rd_locked t;
  fw_completed : instant_ok (oc_receipt_completed_at o) = true;
  fw_allowed : allowed p (facts_of (rc_claim r) PH_FINALIZE (Some (rc_outcome_digest r))) d;
  fw_attempt_checks : attempt_checks (completed_attempt a d r) = true;
  fw_unique : decisions_unique db (completed_attempt a d r) = true;
  fw_db : outcome_ok o →
    event_checks (finalized_event e (oc_delivery_state o) (oc_error_code o)
                    (oc_next_attempt_at o) (oc_finalized_at o)) = true ∧
    db' = {| db_events := <[cl_event_id (rc_claim r) := finalized_event e (oc_delivery_state o)
                (oc_error_code o) (oc_next_attempt_at o) (oc_finalized_at o)]> (db_events db);
             db_attempts := <[(cl_event_id (rc_claim r), cl_claim_generation (rc_claim r))
                := completed_attempt a d r]> (db_attempts db) |};
}.

Lemma stored_completed_at_range text t :
  stored_completed_at text = Ok t → instant_ok t = true.
Proof.
  unfold stored_completed_at. intros (v & _ & H)%result_bind_Ok.
  destruct (member _ v) as [[]|]; try done. apply oget_Ok in H. by apply fromisoformat_range in H.
Qed.

Lemma outcome_completed c inv cause now opts ru o :
  _outcome c inv cause now opts ru = Ok o →
  oc_receipt_completed_at o = now ∧ oc_invoked_at o = inv.
Proof. intros H%outcome_cases. by destruct H. Qed.

Lemma finalize_Ok E p t r cause db r' db' :
  _finalize E p t r cause db = Ok (r', db') →
  r' = r ∧
  ((db' = db ∧ ∃ a, db_attempts db !! (cl_event_id (rc_claim r), cl_claim_generation (rc_claim r))
                    = Some a ∧
      attempt_claim a = rc_claim r ∧ at_stage a = ST_completed ∧
      at_outcome_json a = Some (rc_outcome_json r) ∧
      at_outcome_digest a = Some (rc_outcome_digest r)) ∨
   ∃ e a o d, finalize_written E p t r cause db db' e a o d).
Proof.
  unfold _finalize.
  intros (c & [Hv ->]%checked_claim_Ok & (f & [Hf Hfv]%facts_Ok & [Hp H]%ensure_bind_Ok)%result_bind_Ok)%result_bind_Ok.
  subst f.
  apply result_bind_Ok in H as (e & [He Hpid]%oget_Ok%event_Some & H).
  apply result_bind_Ok in H as (a & [Ha Hapid]%oget_Ok%attempt_Some & H).
  apply result_bind_Ok in H as (c' & [Hcv ->]%new_claim_Ok & [Hc%bool_decide_eq_true H]%ensure_bind_Ok).
  destruct (decide (at_stage a = ST_completed)) as [Hs|Hs].
  - apply result_bind_Ok in H as (stored & Hr & [Heq%bool_decide_eq_true H]%ensure_bind_Ok).
    apply result_bind_Ok in H as (d & _ & H%Ok_inj). simplify_eq H. intros <- <-. subst stored.
    unfold _receipt in Hr. destruct (at_outcome_json a) as [j|] eqn:Hj; [|done].
    destruct (at_outcome_digest a) as [dg|] eqn:Hdg; [|done]. apply Ok_inj in Hr.
    split; [done|]. left. split; [done|]. exists a. rewrite <- Hr. cbn. done.
  - apply ensure_bind_Ok in H as [[Hg Hm]%andb_prop H].
    apply result_bind_Ok in H as (value & Hval%oget_Ok & H).
    apply result_bind_Ok in H as (completed & Hcomp & H).
    apply result_bind_Ok in H as (o & Ho & [Hens%negb_true_iff H]%ensure_bind_Ok).
    rewrite !orb_false_iff, !negb_false_iff, bool_decide_eq_true, str_eqb_true in Hens.
    destruct Hens as [[[Ht Hjson] Hdig] _].
    apply result_bind_Ok in H as (d & Hal%consume_allow_Ok & [_ H]%ensure_bind_Ok).
    apply result_bind_Ok in H as (st & Hst & H). apply result_bind_Ok in H as (cd & Hcd & H).
    apply result_bind_Ok in H as (nx & Hnx & H). apply result_bind_Ok in H as (fi & Hfi & H).
    apply result_bind_Ok in H as (db1 & (Hac & Hu & ->)%update_attempt_Ok & H).
    apply result_bind_Ok in H as (db2 & [Hec ->]%update_event_Ok & H%Ok_inj).
    simplify_eq H. intros <- <-. split; [done|]. right.
    destruct (outcome_completed _ _ _ _ _ _ _ Ho) as [<- _].
    exists e, a, o, d. constructor; try done.
    + lia.
    + by eapply stored_completed_at_range.
    + intros Hok. destruct (encoded_outcome_reads o Hok) as [R1 _ R3 R4 R5 R6].
      rewrite Hjson, Hval in R1.
      assert (value = canon (outcome_value o)) as -> by congruence.
      assert (st = oc_delivery_state o) as -> by congruence.
      assert (cd = oc_error_code o) as -> by congruence.
      assert (nx = oc_next_attempt_at o) as -> by congruence.
      assert (fi = oc_finalized_at o) as -> by congruence.
      split; [done|]. unfold set_attempts, set_events.
      cbn [db_events db_attempts ev_event_id finalized_event at_key completed_attempt].
      assert (ev_event_id e = cl_event_id (rc_claim r)) as ->
        by (apply matches_event_true in Hm; tauto).
      change (at_key (completed_attempt a d r)) with (cl_event_id (attempt_claim a),
        cl_claim_generation (attempt_claim a)). by rewrite Hc.
Qed.

Lemma finalize_facts_valid E p t r cause db r' db' :
  _finalize E p t r cause db = Ok (r', db') →
  facts_valid (facts_of (rc_claim r) PH_FINALIZE (Some (rc_outcome_digest r))) = true.
Proof.
  unfold _finalize.
  intros (c & [Hv ->]%checked_claim_Ok & (f & [-> Hfv]%facts_Ok & _)%result_bind_Ok)%result_bind_Ok.
  exact Hfv.
Qed.

(** ** The custody invariant *)

(** A completed attempt stores the text and digest of one representable outcome. *)
Definition stores_outcome (a : OutboxDeliveryAttempt) (o : Outcome) : Prop :=
  at_outcome_json a = Some (_encode (outcome_value o)) ∧
  at_outcome_digest a = canonical_json_hash (outcome_value o) ∧
  outcome_ok o ∧ oc_invoked_at o = at_invoked_at a ∧
  (if decide (oc_delivery_state o = DS_retryable)
   then is_Some (oc_next_attempt_at o) ∧ oc_finalized_at o = None
   else oc_next_attempt_at o = None ∧ oc_finalized_at o = Some (oc_receipt_completed_at o)).

Definition attempt_wf (a : OutboxDeliveryAttempt) : Prop :=
  (∀ i, at_invoked_at a = Some i → instant_ok i = true) ∧
  match at_stage a with
  | ST_claimed => at_invoked_at a = None ∧ at_outcome_json a = None ∧
      at_outcome_digest a = None ∧ at_invoke_decision_event_id a = None ∧ at_finalize_decision_event_id a = None
  | ST_invoked => is_Some (at_invoked_at a) ∧ at_outcome_json a = None ∧
      at_outcome_digest a = None ∧ is_Some (at_invoke_decision_event_id a) ∧ at_finalize_decision_event_id a = None
  | ST_completed => (∃ o, stores_outcome a o) ∧ is_Some (at_finalize_decision_event_id a)
  end.

Definition no_lease (e : OutboxEvent) : Prop :=
  ev_claim_owner e = None ∧ ev_claimed_at e = None ∧ ev_claim_expires_at e = None.

(** How the current generation's attempt justifies the event's delivery columns. *)
Definition current_custody (e : OutboxEvent) (current : option OutboxDeliveryAttempt) : Prop :=
  match ev_delivery_state e with
  | DS_pending =>
      ev_claim_generation e = 0 ∧ no_lease e ∧ is_Some (ev_next_attempt_at e) ∧
      ev_last_attempt_at e = None ∧ ev_last_error_code e = None ∧ ev_finalized_at e = None
  | DS_claimed =>
      ∃ a, current = Some a ∧ at_stage a ≠ ST_completed ∧
      ev_claim_owner e = Some (at_claim_owner a) ∧ ev_claimed_at e = Some (at_claimed_at a) ∧
      ev_claim_expires_at e = Some (at_claim_expires_at a) ∧
      ev_last_attempt_at e = Some (at_claimed_at a) ∧ ev_next_attempt_at e = None ∧
      ev_finalized_at e = None
  | DS_retryable | DS_acknowledged | DS_dead_letter =>
      ∃ a o, current = Some a ∧ at_stage a = ST_completed ∧ stores_outcome a o ∧
      no_lease e ∧ ev_last_attempt_at e = Some (at_claimed_at a) ∧
      ev_delivery_state e = oc_delivery_state o ∧ ev_last_error_code e = oc_error_code o ∧
      ev_next_attempt_at e = oc_next_attempt_at o ∧ ev_finalized_at e = oc_finalized_at o
  | DS_cancelled => False
  end.

(** An event and the attempts of its generations. *)
Record event_custody (e : OutboxEvent) (atts : Z → option OutboxDeliveryAttempt) : Prop := {
  ec_gen : 0 ≤ ev_claim_generation e ∧ ev_attempt_count e = ev_claim_generation e;
  ec_dom : ∀ g, is_Some (atts g) ↔ 1 ≤ g ≤ ev_claim_generation e;
  ec_bind : ∀ g a, atts g = Some a →
    at_event_id a = ev_event_id e ∧ at_claim_generation a = g ∧
    at_project_id a = ev_project_id e ∧ at_payload_digest a = ev_payload_digest e ∧
    ev_occurred_at e ≤ at_claimed_at a ∧ claim_valid (attempt_claim a) = true ∧ attempt_wf a;
  ec_past : ∀ g a, atts g = Some a → g < ev_claim_generation e → at_stage a = ST_completed;
  ec_current : current_custody e (atts (ev_claim_generation e));
  ec_open : ev_archived_at e = None;
}.

Record custody (db : Db) : Prop := {
  cu_event : ∀ id e, db_events db !! id = Some e →
    ev_event_id e = id ∧ event_custody e (λ g, db_attempts db !! (id, g));
  cu_owner : ∀ id g a, db_attempts db !! (id, g) = Some a → is_Some (db_events db !! id);
}.

Lemma event_custody_ext e f g :
  (∀ x, f x = g x) → event_custody e f → event_custody e g.
Proof.
  intros Hfg [H1 H2 H3 H4 H5 H6]. constructor; try done.
  - intros x. rewrite <- Hfg. apply H2.
  - intros x a. rewrite <- Hfg. apply H3.
  - intros x a. rewrite <- Hfg. apply H4.
  - by rewrite <- Hfg.
Qed.

Definition with_attempt (atts : Z → option OutboxDeliveryAttempt) (g : Z)
    (a : OutboxDeliveryAttempt) (x : Z) : option OutboxDeliveryAttempt :=
  if decide (x = g) then Some a else atts x.

(** A transaction on one event and one of its attempts. *)
Lemma custody_write db id g e' a' :
  custody db → ev_event_id e' = id →
  event_custody e' (with_attempt (λ x, db_attempts db !! (id, x)) g a') →
  custody {| db_events := <[id := e']> (db_events db);
             db_attempts := <[(id, g) := a']> (db_attempts db) |}.
Proof.
  intros [Hev Hown] Hid He'. constructor; cbn [db_events db_attempts].
  - intros id2 e2. rewrite lookup_insert_Some. intros [[<- <-]|[Hne He2]].
    + split; [done|]. eapply event_custody_ext; [|exact He']. intros x.
      unfold with_attempt. destruct (decide (x = g)) as [->|Hx].
      * by rewrite lookup_insert_eq.
      * by rewrite lookup_insert_ne by congruence.
    + destruct (Hev _ _ He2) as [<- Hc]. split; [done|].
      eapply event_custody_ext; [|exact Hc]. intros x. by rewrite lookup_insert_ne by congruence.
  - intros id2 g2 a2. rewrite lookup_insert_Some. intros [[[= <- <-] _]|[_ H2]].
    + rewrite lookup_insert_eq. eauto.
    + apply Hown in H2. destruct (decide (id = id2)) as [<-|].
      * rewrite lookup_insert_eq. eauto.
      * by rewrite lookup_insert_ne.
Qed.

(** Replacing the current attempt, with the delivery columns that go with it. *)
Lemma event_custody_current e e' atts a a' :
  event_custody e atts → atts (ev_claim_generation e) = Some a →
  ev_event_id e' = ev_event_id e → ev_project_id e' = ev_project_id e →
  ev_payload_digest e' = ev_payload_digest e → ev_occurred_at e' = ev_occurred_at e →
  ev_claim_generation e' = ev_claim_generation e →
  ev_attempt_count e' = ev_attempt_count e → ev_archived_at e' = ev_archived_at e →
  attempt_claim a' = attempt_claim a → attempt_wf a' → current_custody e' (Some a') →
  event_custody e' (with_attempt atts (ev_claim_generation e) a').
Proof.
  intros [Hg Hd Hb Hp Hc Ho] Ha E1 E2 E3 E4 E5 E6 E7 Hcl Hwf Hcur.
  destruct (Hb _ _ Ha) as (B1 & B2 & B3 & B4 & B5 & B6 & B7).
  pose proof Hcl as Hcl'. injection Hcl as C1 C2 C3 C4 C5 C6 C7.
  constructor; rewrite ?E1, ?E2, ?E3, ?E4, ?E5, ?E6, ?E7; try done.
  - intros g. unfold with_attempt. destruct (decide _) as [->|]; [|apply Hd].
    rewrite <- Hd, Ha. split; eauto.
  - intros g x. unfold with_attempt. destruct (decide _) as [->|]; [|apply Hb].
    intros [= <-]. rewrite C1, C2, C3, C4, C6, Hcl'. done.
  - intros g x. unfold with_attempt. destruct (decide _) as [->|]; [lia|apply Hp].
  - unfold with_attempt. by rewrite decide_True.
Qed.

(** ** Preservation *)

Lemma checked_attempt_claim_valid a :
  attempt_checks a = true → claim_valid (attempt_claim a) = true.
Proof.
  intros (H1 & H2 & H3 & H4 & H5)%attempt_checks_lease.
  unfold claim_valid, attempt_claim. cbn. unfold in_range in H1. rewrite H2, H3. lia.
Qed.

Lemma settled_past e atts g a :
  event_custody e atts → claimable_state (ev_delivery_state e) = true →
  atts g = Some a → at_stage a = ST_completed.
Proof.
  intros Hc Hs Ha. assert (is_Some (atts g)) as Hi%(ec_dom _ _ Hc) by eauto.
  destruct (decide (g < ev_claim_generation e)); [by eapply ec_past|].
  assert (g = ev_claim_generation e) as -> by lia.
  pose proof (ec_current _ _ Hc) as Hcur. unfold current_custody in Hcur.
  destruct (ev_delivery_state e); try done; [lia|]. naive_solver.
Qed.

Lemma claim_preserves p t c db db' e d :
  custody db → claim_written p t c db db' e d → custody db'.
Proof.
  intros Hcu Hw. destruct (cu_event _ Hcu _ _ (cw_event _ _ _ _ _ _ _ Hw)) as [Hid Hc].
  pose proof (cw_generation _ _ _ _ _ _ _ Hw) as Hgen.
  pose proof (cw_attempt_checks _ _ _ _ _ _ _ Hw) as Hac.
  rewrite (cw_db _ _ _ _ _ _ _ Hw), Hid. apply custody_write; [done|exact Hid|].
  pose proof (ec_gen _ _ Hc). pose proof (ec_dom _ _ Hc) as Hdom. cbn beta in *.
  constructor; cbn [claimed_event ev_claim_generation ev_attempt_count].
  - lia.
  - intros g. unfold with_attempt. destruct (decide _) as [->|]; [split; [lia|eauto]|].
    rewrite Hdom. lia.
  - intros g a. unfold with_attempt. destruct (decide _) as [->|]; [|apply Hc].
    intros [= <-]. cbn. rewrite Hid. split_and!; try done.
    + symmetry. apply (cw_project _ _ _ _ _ _ _ Hw).
    + symmetry. apply (cw_digest _ _ _ _ _ _ _ Hw).
    + by apply (timestamp_checks_claimed _ _ (cw_event_checks _ _ _ _ _ _ _ Hw)).
    + by apply checked_attempt_claim_valid in Hac.
  - intros g a. unfold with_attempt. destruct (decide _) as [->|]; [lia|].
    intros Ha _. by apply (settled_past _ _ _ _ Hc (cw_state _ _ _ _ _ _ _ Hw) Ha).
  - unfold with_attempt. rewrite decide_True by done.
    eexists. cbn. split_and!; try done.
    pose proof (ec_current _ _ Hc) as Hcur. pose proof (cw_state _ _ _ _ _ _ _ Hw) as Hs.
    unfold current_custody in Hcur.
    destruct (ev_delivery_state e); try done; [by destruct_and!|].
    destruct Hcur as (a & o & _ & _ & (_ & _ & _ & _ & Hfin) & _ & _ & Es & _ & _ & ->).
    rewrite decide_True in Hfin by done. apply Hfin.
  - exact (ec_open _ _ Hc).
Qed.

Lemma invocation_preserves E p t c db db' e a d :
  custody db → instant_ok (rd_write t) = true →
  invocation_written E p t c db db' e a d → custody db'.
Proof.
  intros Hcu Hok Hw. pose proof (iw_event _ _ _ _ _ _ _ _ _ Hw) as He.
  destruct (cu_event _ Hcu _ _ He) as [Hid Hc].
  pose proof (proj1 (matches_event_true _ _) (iw_matches _ _ _ _ _ _ _ _ _ Hw))
    as (Ms & _ & _ & _ & Mg & _).
  pose proof (iw_attempt _ _ _ _ _ _ _ _ _ Hw) as Ha.
  rewrite (iw_db _ _ _ _ _ _ _ _ _ Hw). unfold set_attempts.
  rewrite <- (insert_id (db_events db) _ _ He). apply custody_write; [done..|].
  rewrite <- Mg in Ha |- *.
  pose proof (ec_current _ _ Hc) as Hcur. unfold current_custody in Hcur. rewrite Ms in Hcur.
  destruct Hcur as (a' & Ha' & Hcur). assert (a' = a) as -> by congruence.
  apply event_custody_current with (e := e) (a := a); try done.
  - split; [cbn; by intros i [= <-]|]. cbn.
    destruct (ec_bind _ _ Hc _ _ Ha) as (_ & _ & _ & _ & _ & _ & _ & Hst).
    rewrite (iw_stage _ _ _ _ _ _ _ _ _ Hw) in Hst. naive_solver.
  - unfold current_custody. rewrite Ms. eexists. split; [done|]. cbn. naive_solver.
Qed.

Lemma finalize_written_ok E p t r cause db db' e a o d :
  custody db → finalize_written E p t r cause db db' e a o d → outcome_ok o.
Proof.
  intros Hcu Hw. eapply outcome_case_ok.
  - apply outcome_cases, (fw_outcome _ _ _ _ _ _ _ _ _ _ _ Hw).
  - apply (fw_completed _ _ _ _ _ _ _ _ _ _ _ Hw).
  - destruct (cu_event _ Hcu _ _ (fw_event _ _ _ _ _ _ _ _ _ _ _ Hw)) as [_ Hc].
    destruct (ec_bind _ _ Hc _ _ (fw_attempt _ _ _ _ _ _ _ _ _ _ _ Hw))
      as (_ & _ & _ & _ & _ & _ & Hi & _). exact Hi.
Qed.

Lemma outcome_closed c inv cause now opts ru o :
  _outcome c inv cause now opts ru = Ok o →
  (if decide (oc_delivery_state o = DS_retryable)
   then is_Some (oc_next_attempt_at o) ∧ oc_finalized_at o = None
   else oc_next_attempt_at o = None ∧ oc_finalized_at o = Some (oc_receipt_completed_at o)) ∧
  (oc_delivery_state o = DS_retryable ∨ oc_delivery_state o = DS_acknowledged ∨
   oc_delivery_state o = DS_dead_letter).
Proof. intros H%outcome_cases. destruct H; cbn; naive_solver. Qed.

Lemma finalize_preserves E p t r cause db db' e a o d :
  custody db → finalize_written E p t r cause db db' e a o d → custody db'.
Proof.
  intros Hcu Hw. pose proof (finalize_written_ok _ _ _ _ _ _ _ _ _ _ _ Hcu Hw) as Hok.
  destruct (fw_db _ _ _ _ _ _ _ _ _ _ _ Hw Hok) as [_ ->].
  pose proof (fw_event _ _ _ _ _ _ _ _ _ _ _ Hw) as He.
  pose proof (fw_attempt _ _ _ _ _ _ _ _ _ _ _ Hw) as Ha.
  pose proof (fw_outcome _ _ _ _ _ _ _ _ _ _ _ Hw) as Ho.
  destruct (cu_event _ Hcu _ _ He) as [Hid Hc].
  pose proof (proj1 (matches_event_true _ _) (fw_matches _ _ _ _ _ _ _ _ _ _ _ Hw))
    as (Ms & _ & _ & _ & Mg & _).
  apply custody_write; [done|exact Hid|]. rewrite <- Mg in Ha |- *.
  pose proof (ec_current _ _ Hc) as Hcur. unfold current_custody in Hcur. rewrite Ms in Hcur.
  destruct Hcur as (a' & Ha' & _ & _ & _ & _ & Hl & _). assert (a' = a) as -> by congruence.
  destruct (outcome_closed _ _ _ _ _ _ _ Ho) as [Hcl Hst].
  destruct (outcome_completed _ _ _ _ _ _ _ Ho) as [_ Hinv].
  assert (stores_outcome (completed_attempt a d r) o) as Hso.
  { split_and!; cbn; try done.
    - by rewrite (fw_json _ _ _ _ _ _ _ _ _ _ _ Hw).
    - by rewrite (fw_digest _ _ _ _ _ _ _ _ _ _ _ Hw). }
  apply event_custody_current with (e := e) (a := a); try done.
  - split; [|cbn; eauto]. destruct (ec_bind _ _ Hc _ _ Ha) as (_ & _ & _ & _ & _ & _ & Hi & _).
    exact Hi.
  - assert (current_custody (finalized_event e (oc_delivery_state o) (oc_error_code o)
      (oc_next_attempt_at o) (oc_finalized_at o)) (Some (completed_attempt a d r)) ↔
      ∃ a1 o1, Some (completed_attempt a d r) = Some a1 ∧ at_stage a1 = ST_completed ∧
        stores_outcome a1 o1 ∧ oc_delivery_state o = oc_delivery_state o1 ∧
        oc_error_code o = oc_error_code o1 ∧ oc_next_attempt_at o = oc_next_attempt_at o1 ∧
        oc_finalized_at o = oc_finalized_at o1 ∧
        ev_last_attempt_at e = Some (at_claimed_at a1)) as ->.
    { unfold current_custody, no_lease. cbn.
      destruct Hst as [-> | [-> | ->]]; naive_solver. }
    exists (completed_attempt a d r), o. done.
Qed.
