(* ===== verification/OutboxSystem.v ===== *)
(** * The outbox as a system of concurrent transactions

    Any number of appenders and dispatcher workers commit transactions against one
    database.  [step] is one committed transaction (or one unlocked proposal); reachable
    states are those an arbitrary interleaving produces, with arbitrary callers, receipts,
    authorization answers and clock readings.  The abstract machine [Abs] says what the
    outbox promises for one event: it idles, is leased for the next generation, runs at most
    once in that generation, and then idles again or closes for ever.  [delivery_refines]
    shows that every transaction is one abstract step of one event. *)

From stdpp Require Import relations.
From S2P Require Import Prelude Text Digest Json Instant OutboxApi OutboxStore OutboxAppend.
From S2P Require Import OutboxDelivery OutboxOutcome OutboxCustody.

(** ** The abstract machine *)

Inductive Abs :=
| Idle (generation : Z)
| Leased (generation : Z)
| Running (generation : Z)
| Closed (generation : Z) (state : DeliveryState).

Inductive abs_step : option Abs → option Abs → Prop :=
| as_append : abs_step None (Some (Idle 0))
| as_lease g : abs_step (Some (Idle g)) (Some (Leased (g + 1)))
| as_run g : abs_step (Some (Leased g)) (Some (Running g))
| as_expire g : abs_step (Some (Leased g)) (Some (Idle g))
| as_exhaust g : abs_step (Some (Leased g)) (Some (Closed g DS_dead_letter))
| as_retry g : abs_step (Some (Running g)) (Some (Idle g))
| as_close g s : s = DS_acknowledged ∨ s = DS_dead_letter →
    abs_step (Some (Running g)) (Some (Closed g s)).

Definition abs_event (db : Db) (id : uuid) : option Abs :=
  e ← db_events db !! id;
  let g := ev_claim_generation e in
  match ev_delivery_state e with
  | DS_pending | DS_retryable => Some (Idle g)
  | DS_claimed =>
      a ← db_attempts db !! (id, g);
      match at_stage a with
      | ST_claimed => Some (Leased g)
      | ST_invoked => Some (Running g)
      | ST_completed => None
      end
  | s => Some (Closed g s)
  end.

(** ** Steps of the system *)

Record Sys := {
  sy_db : Db;
  sy_claims : list OutboxClaim;   (* leases proposed by some worker *)
  sy_log : list (uuid * Z);       (* invocations handed to a handler *)
}.

Section System.
Context (E : Engine) (fold_wide : Z → str) (project_exists : uuid → bool).

Inductive step (s : Sys) : Sys → Prop :=
| step_append new_id now i r db' :
    append fold_wide project_exists new_id now i (sy_db s) = Ok (r, db') →
    step s {| sy_db := db'; sy_claims := sy_claims s; sy_log := sy_log s |}
| step_propose now id pid owner c :
    claim_propose E (sy_db s) now id pid owner = Ok (Some c) →
    step s {| sy_db := sy_db s; sy_claims := c :: sy_claims s; sy_log := sy_log s |}
| step_claim p t c r db' :
    c ∈ sy_claims s → claim_commit p t c (sy_db s) = Ok (r, db') →
    step s {| sy_db := db'; sy_claims := sy_claims s; sy_log := sy_log s |}
| step_invoke p t c envelope db' :
    instant_ok (rd_write t) = true →
    _begin_invocation E p t c (sy_db s) = Ok (Some envelope, db') →
    step s {| sy_db := db'; sy_claims := sy_claims s;
              sy_log := (cl_event_id c, cl_claim_generation c) :: sy_log s |}
| step_finalize p t receipt cause r db' :
    _finalize E p t receipt cause (sy_db s) = Ok (r, db') →
    step s {| sy_db := db'; sy_claims := sy_claims s; sy_log := sy_log s |}.

Definition initial : Sys := {| sy_db := empty_db; sy_claims := []; sy_log := [] |}.
Definition reachable (s : Sys) : Prop := rtc step initial s.

Lemma reachable_ind_strong (P : Sys → Prop) :
  P initial → (∀ s s', reachable s → P s → step s s' → P s') → ∀ s, reachable s → P s.
Proof.
  intros H0 Hs. apply rtc_ind_r; [done|]. intros y z Hy Hyz IH. by apply (Hs y z).
Qed.

(** ** Custody always holds *)

Lemma append_preserves new_id now i db r db' :
  event_keys_ok db → custody db →
  append fold_wide project_exists new_id now i db = Ok (r, db') → custody db'.
Proof.
  intros Hk Hcu H. destruct (append_Ok _ _ _ _ _ _ _ _ Hk H)
    as (digest & Hd & _ & Hc & [(_ & Hf & _ & -> & _)|(e & _ & _ & -> & _)]); [|done].
  destruct Hcu as [Hev Hown]. constructor; cbn [set_events db_events db_attempts].
  - intros id e. rewrite lookup_insert_Some. intros [[<- <-]|[_ He]]; [|by apply Hev].
    assert (∀ g, db_attempts db !! (new_id, g) = None) as Hn.
    { intros g. destruct (db_attempts db !! (new_id, g)) as [a|] eqn:Ha; [|done].
      apply Hown in Ha as [e He]. congruence. }
    split; [done|]. constructor; cbn [inserted_event ev_claim_generation ev_archived_at];
      [done| | | | |done].
    + intros g. rewrite Hn. split; [by intros [? [=]]|lia].
    + intros g a. by rewrite Hn.
    + intros g a. by rewrite Hn.
    + unfold current_custody, no_lease. cbn. by split_and!.
  - intros id g a Ha. rewrite lookup_insert_is_Some'. right. by eapply Hown.
Qed.

(** Keys are never rewritten: an update keeps [event_id] and [idempotency_key]. *)
Lemma event_keys_ok_update db id e e' atts :
  event_keys_ok db → db_events db !! id = Some e →
  ev_event_id e' = ev_event_id e → ev_idempotency_key e' = ev_idempotency_key e →
  event_keys_ok {| db_events := <[id := e']> (db_events db); db_attempts := atts |}.
Proof.
  intros [K1 K2] He Hid Hkey. constructor; cbn.
  - intros x y. rewrite lookup_insert_Some. intros [[<- <-]|[_ Hy]]; [|by apply K1].
    rewrite Hid. by apply K1.
  - intros i j a b. rewrite !lookup_insert_Some.
    intros [[<- <-]|[Hi Ha]] [[<- <-]|[Hj Hb]] Heq; [done| | |].
    + apply (K2 _ _ _ _ He Hb). by rewrite <- Hkey.
    + apply (K2 _ _ _ _ Ha He). by rewrite <- Hkey.
    + by apply (K2 _ _ _ _ Ha Hb).
Qed.

Lemma event_keys_ok_attempts db f : event_keys_ok db → event_keys_ok (set_attempts f db).
Proof. intros [K1 K2]. constructor; done. Qed.

Definition sound (db : Db) : Prop := event_keys_ok db ∧ custody db.

Lemma initial_sound : sound empty_db.
Proof.
  split; [apply empty_keys_ok|]. constructor; cbn; intros *; rewrite lookup_empty; done.
Qed.

Lemma claim_sound p t c db r db' :
  sound db → claim_commit p t c db = Ok (r, db') → sound db'.
Proof.
  intros [Hk Hcu] H. destruct (claim_commit_Ok _ _ _ _ _ _ H) as [[_ ->]|(_ & e & d & Hw)];
    [done|]. split; [|by eapply claim_preserves].
  pose proof (cw_event _ _ _ _ _ _ _ Hw) as He.
  rewrite (cw_db _ _ _ _ _ _ _ Hw), (ko_id _ Hk _ _ He).
  by eapply event_keys_ok_update.
Qed.

Lemma invocation_sound p t c db r db' :
  sound db → instant_ok (rd_write t) = true →
  _begin_invocation E p t c db = Ok (r, db') → sound db'.
Proof.
  intros [Hk Hcu] Hok H.
  destruct (begin_invocation_Ok _ _ _ _ _ _ _ H) as [[_ ->]|(e & a & d & _ & Hw)]; [done|].
  split; [|by eapply invocation_preserves].
  rewrite (iw_db _ _ _ _ _ _ _ _ _ Hw). by apply event_keys_ok_attempts.
Qed.

Lemma finalize_sound p t r cause db r' db' :
  sound db → _finalize E p t r cause db = Ok (r', db') → sound db'.
Proof.
  intros [Hk Hcu] H. destruct (finalize_Ok _ _ _ _ _ _ _ _ H)
    as [_ [[-> _]|(e & a & o & d & Hw)]]; [done|].
  split; [|by eapply finalize_preserves].
  pose proof (finalize_written_ok _ _ _ _ _ _ _ _ _ _ _ Hcu Hw) as Hok.
  destruct (fw_db _ _ _ _ _ _ _ _ _ _ _ Hw Hok) as [_ ->].
  eapply event_keys_ok_update; [done|apply (fw_event _ _ _ _ _ _ _ _ _ _ _ Hw)|done|done].
Qed.

Lemma step_sound s s' : sound (sy_db s) → step s s' → sound (sy_db s').
Proof.
  intros Hs. destruct 1; cbn [sy_db]; [|done|by eapply claim_sound|by eapply invocation_sound|
    by eapply finalize_sound].
  split; [|by destruct Hs; eapply append_preserves]. destruct Hs. by eapply append_keys_ok.
Qed.

Lemma reachable_sound s : reachable s → sound (sy_db s).
Proof.
  revert s. apply reachable_ind_strong; [apply initial_sound|].
  intros s s' _ IH Hst. by eapply step_sound.
Qed.

(** ** Refinement *)

Lemma abs_frame db id id' e' g a' :
  id' ≠ id →
  abs_event {| db_events := <[id := e']> (db_events db);
               db_attempts := <[(id, g) := a']> (db_attempts db) |} id' = abs_event db id'.
Proof.
  intros Hne. unfold abs_event. cbn [db_events db_attempts].
  rewrite lookup_insert_ne by congruence. destruct (db_events db !! id'); [|done]. cbn.
  destruct (ev_delivery_state _); try done. by rewrite lookup_insert_ne by congruence.
Qed.

Lemma abs_claimed db id e a :
  db_events db !! id = Some e → ev_delivery_state e = DS_claimed →
  db_attempts db !! (id, ev_claim_generation e) = Some a →
  abs_event db id = match at_stage a with
                    | ST_claimed => Some (Leased (ev_claim_generation e))
                    | ST_invoked => Some (Running (ev_claim_generation e))
                    | ST_completed => None
                    end.
Proof. intros He Hs Ha. unfold abs_event. rewrite He. cbn. rewrite Hs. by rewrite Ha. Qed.

(** One committed write, seen as an abstract step of one event. *)
Definition one_step (db db' : Db) : Prop :=
  db' = db ∨
  ∃ id, abs_step (abs_event db id) (abs_event db' id) ∧
        ∀ id', id' ≠ id → abs_event db' id' = abs_event db id' ∧
                          db_events db' !! id' = db_events db !! id'.

Lemma claim_refines p t c db db' e d :
  sound db → claim_written p t c db db' e d → one_step db db'.
Proof.
  intros [Hk Hcu] Hw. right. exists (cl_event_id c).
  pose proof (cw_event _ _ _ _ _ _ _ Hw) as He. pose proof (ko_id _ Hk _ _ He) as Hid.
  rewrite (cw_db _ _ _ _ _ _ _ Hw), Hid. split.
  - unfold abs_event. cbn [db_events db_attempts]. rewrite lookup_insert_eq, He.
    cbn [mbind option_bind claimed_event ev_delivery_state ev_claim_generation].
    rewrite lookup_insert_eq. cbn [mbind option_bind claimed_attempt at_stage].
    rewrite (cw_generation _ _ _ _ _ _ _ Hw).
    pose proof (cw_state _ _ _ _ _ _ _ Hw) as Hs.
    destruct (ev_delivery_state e); try done; apply as_lease.
  - intros id' Hne. split; [by apply abs_frame|]. cbn. by rewrite lookup_insert_ne by congruence.
Qed.

Lemma invocation_refines p t c db db' e a d :
  sound db → invocation_written E p t c db db' e a d → one_step db db'.
Proof.
  intros [Hk Hcu] Hw. right. exists (cl_event_id c).
  pose proof (iw_event _ _ _ _ _ _ _ _ _ Hw) as He.
  pose proof (iw_attempt _ _ _ _ _ _ _ _ _ Hw) as Ha.
  pose proof (proj1 (matches_event_true _ _) (iw_matches _ _ _ _ _ _ _ _ _ Hw))
    as (Ms & _ & _ & _ & Mg & _).
  rewrite (iw_db _ _ _ _ _ _ _ _ _ Hw). unfold set_attempts.
  rewrite <- (insert_id (db_events db) _ _ He). split.
  - rewrite <- Mg in *. rewrite (abs_claimed db _ e a) by done.
    rewrite (iw_stage _ _ _ _ _ _ _ _ _ Hw).
    rewrite (abs_claimed _ _ e (invoked_attempt a (rd_write t) d)); [apply as_run| |done|];
      cbn; by rewrite lookup_insert_eq.
  - intros id' Hne. split; [by apply abs_frame|]. cbn. by rewrite lookup_insert_ne by congruence.
Qed.

Lemma finalize_refines p t r cause db db' e a o d :
  sound db → finalize_written E p t r cause db db' e a o d → one_step db db'.
Proof.
  intros [Hk Hcu] Hw. right. exists (cl_event_id (rc_claim r)).
  pose proof (finalize_written_ok _ _ _ _ _ _ _ _ _ _ _ Hcu Hw) as Hok.
  destruct (fw_db _ _ _ _ _ _ _ _ _ _ _ Hw Hok) as [_ ->].
  pose proof (fw_event _ _ _ _ _ _ _ _ _ _ _ Hw) as He.
  pose proof (fw_attempt _ _ _ _ _ _ _ _ _ _ _ Hw) as Ha.
  pose proof (fw_outcome _ _ _ _ _ _ _ _ _ _ _ Hw) as Ho.
  pose proof (proj1 (matches_event_true _ _) (fw_matches _ _ _ _ _ _ _ _ _ _ _ Hw))
    as (Ms & _ & _ & _ & Mg & _).
  destruct (cu_event _ Hcu _ _ He) as [Hid Hc]. split.
  - rewrite <- Mg in Ha. rewrite (abs_claimed db _ e a) by done.
    destruct (ec_bind _ _ Hc _ _ Ha) as (_ & _ & _ & _ & _ & _ & _ & Hst).
    unfold abs_event. cbn [db_events db_attempts]. rewrite lookup_insert_eq.
    cbn [mbind option_bind finalized_event ev_delivery_state ev_claim_generation].
    pose proof (fw_stage _ _ _ _ _ _ _ _ _ _ _ Hw) as Hns.
    apply outcome_cases in Ho. destruct (at_stage a); [| |done].
    + destruct Hst as [Hi _]. rewrite Hi in Ho.
      inversion Ho; subst; cbn; constructor.
    + destruct Hst as [[i Hi] _]. rewrite Hi in Ho.
      inversion Ho; subst; cbn; constructor; tauto.
  - intros id' Hne. split; [by apply abs_frame|]. cbn. by rewrite lookup_insert_ne by congruence.
Qed.

Lemma append_refines new_id now i db r db' :
  sound db → append fold_wide project_exists new_id now i db = Ok (r, db') → one_step db db'.
Proof.
  intros [Hk Hcu] H. destruct (append_Ok _ _ _ _ _ _ _ _ Hk H)
    as (digest & _ & _ & _ & [(_ & Hf & _ & -> & _)|(e & _ & _ & -> & _)]); [|by left].
  right. exists new_id. split.
  - unfold abs_event. cbn [set_events db_events]. rewrite Hf, lookup_insert_eq. apply as_append.
  - intros id' Hne. unfold abs_event. cbn [set_events db_events db_attempts].
    by rewrite lookup_insert_ne.
Qed.

Lemma step_refines s s' : sound (sy_db s) → step s s' → one_step (sy_db s) (sy_db s').
Proof.
  intros Hs. destruct 1 as [? ? ? ? ? H|? ? ? ? ? H|? ? c ? ? Hc H|? ? ? ? ? Hok H|? ? ? ? ? ? H];
    cbn [sy_db].
  - by eapply append_refines.
  - by left.
  - destruct (claim_commit_Ok _ _ _ _ _ _ H) as [[_ ->]|(_ & e & d & Hw)]; [by left|].
    by eapply claim_refines.
  - destruct (begin_invocation_Ok _ _ _ _ _ _ _ H) as [[? ->]|(e & a & d & _ & Hw)];
      [by left|]. by eapply invocation_refines.
  - destruct (finalize_Ok _ _ _ _ _ _ _ _ H) as [_ [[-> _]|(e & a & o & d & Hw)]];
      [by left|]. by eapply finalize_refines.
Qed.

Lemma rtc_reachable s s' : reachable s → rtc step s s' → reachable s'.
Proof. unfold reachable. intros H1 H2. by transitivity s. Qed.

(** ** Rows outlive steps *)

Definition same_envelope (e e' : OutboxEvent) : Prop :=
  ev_event_id e' = ev_event_id e ∧ ev_event_type e' = ev_event_type e ∧
  ev_event_version e' = ev_event_version e ∧ ev_producer e' = ev_producer e ∧
  ev_aggregate_type e' = ev_aggregate_type e ∧ ev_aggregate_id e' = ev_aggregate_id e ∧
  ev_project_id e' = ev_project_id e ∧ ev_correlation_id e' = ev_correlation_id e ∧
  ev_causation_event_id e' = ev_causation_event_id e ∧
  ev_idempotency_key e' = ev_idempotency_key e ∧ ev_payload e' = ev_payload e ∧
  ev_payload_digest e' = ev_payload_digest e ∧ ev_occurred_at e' = ev_occurred_at e ∧
  ev_not_before_at e' = ev_not_before_at e.

#[local] Instance same_envelope_preorder : PreOrder same_envelope.
Proof.
  split; [by intros e; repeat split|].
  intros e1 e2 e3 H1 H2. unfold same_envelope in *. destruct_and!. split_and!; congruence.
Qed.

(** What a step may change of a row that exists. *)
Definition row_kept (db db' : Db) : Prop :=
  ∀ id e, db_events db !! id = Some e →
  ∃ e', db_events db' !! id = Some e' ∧ same_envelope e e' ∧
        (ev_claim_generation e ≤ ev_claim_generation e').

Lemma row_kept_refl db : row_kept db db.
Proof. intros id e He. exists e. split_and!; done. Qed.

Lemma row_kept_insert db id e e' atts :
  db_events db !! id = Some e → same_envelope e e' →
  ev_claim_generation e ≤ ev_claim_generation e' →
  row_kept db {| db_events := <[id := e']> (db_events db); db_attempts := atts |}.
Proof.
  intros He Hs Hg id2 e2 He2. cbn. destruct (decide (id2 = id)) as [->|].
  - rewrite lookup_insert_eq. exists e'. assert (e2 = e) as -> by congruence. done.
  - rewrite lookup_insert_ne by done. exists e2. split_and!; done.
Qed.

Lemma step_rows s s' : sound (sy_db s) → step s s' → row_kept (sy_db s) (sy_db s').
Proof.
  intros [Hk Hcu].
  destruct 1 as [? ? ? ? ? H|? ? ? ? ? H|? ? c ? ? Hc H|? ? ? ? ? Hok H|? ? ? ? ? ? H];
    cbn [sy_db]; try apply row_kept_refl.
  - destruct (append_Ok _ _ _ _ _ _ _ _ Hk H)
      as (digest & _ & _ & _ & [(_ & Hf & _ & -> & _)|(e & _ & _ & -> & _)]);
      [|apply row_kept_refl].
    intros id e He. exists e. cbn. rewrite lookup_insert_ne by congruence. done.
  - destruct (claim_commit_Ok _ _ _ _ _ _ H) as [[_ ->]|(_ & e & d & Hw)];
      [apply row_kept_refl|].
    pose proof (cw_event _ _ _ _ _ _ _ Hw) as He. pose proof (cw_generation _ _ _ _ _ _ _ Hw).
    rewrite (cw_db _ _ _ _ _ _ _ Hw), (ko_id _ Hk _ _ He).
    eapply row_kept_insert; [done|by repeat split|cbn; lia].
  - destruct (begin_invocation_Ok _ _ _ _ _ _ _ H) as [[? ->]|(e & a & d & _ & Hw)];
      [apply row_kept_refl|].
    rewrite (iw_db _ _ _ _ _ _ _ _ _ Hw). intros id x Hx. by exists x.
  - destruct (finalize_Ok _ _ _ _ _ _ _ _ H) as [_ [[-> _]|(e & a & o & d & Hw)]];
      [apply row_kept_refl|].
    pose proof (finalize_written_ok _ _ _ _ _ _ _ _ _ _ _ Hcu Hw) as Ho.
    destruct (fw_db _ _ _ _ _ _ _ _ _ _ _ Hw Ho) as [_ ->].
    eapply row_kept_insert; [apply (fw_event _ _ _ _ _ _ _ _ _ _ _ Hw)|by repeat split|done].
Qed.

Lemma steps_rows s s' : reachable s → rtc step s s' → row_kept (sy_db s) (sy_db s').
Proof.
  intros Hr H. induction H as [s|s1 s2 s3 H1 _ IH]; [apply row_kept_refl|].
  assert (reachable s2) as Hr2 by (apply (rtc_reachable s1); [done|by apply rtc_once]).
  intros id e He.
  destruct (step_rows _ _ (reachable_sound _ Hr) H1 _ _ He) as (e2 & He2 & Hs2 & Hg2).
  destruct (IH Hr2 _ _ He2) as (e3 & He3 & Hs3 & Hg3).
  exists e3. split_and!; [done|by transitivity e2|lia].
Qed.

(** ** The invocation log *)

Definition logged (s : Sys) : Prop :=
  NoDup (sy_log s) ∧
  ∀ id g, (id, g) ∈ sy_log s →
    ∃ a, db_attempts (sy_db s) !! (id, g) = Some a ∧ is_Some (at_invoked_at a).

(** Attempts keep their invocation marker. *)
Definition markers_kept (db db' : Db) : Prop :=
  ∀ k a, db_attempts db !! k = Some a → is_Some (at_invoked_at a) →
  ∃ a', db_attempts db' !! k = Some a' ∧ is_Some (at_invoked_at a').

Lemma markers_insert db evs k a a' :
  db_attempts db !! k = a → (∀ x, a = Some x → is_Some (at_invoked_at x) →
                                 is_Some (at_invoked_at a')) →
  markers_kept db {| db_events := evs; db_attempts := <[k := a']> (db_attempts db) |}.
Proof.
  intros Hk Ha k2 x Hx Hi. cbn. destruct (decide (k2 = k)) as [->|].
  - rewrite lookup_insert_eq. exists a'. split; [done|]. apply (Ha x); [congruence|done].
  - rewrite lookup_insert_ne by done. eauto.
Qed.

Lemma logged_mono s db' cl :
  logged s → markers_kept (sy_db s) db' →
  logged {| sy_db := db'; sy_claims := cl; sy_log := sy_log s |}.
Proof.
  intros [Hn Hl] Hm. split; [done|]. cbn. intros id g Hin.
  destruct (Hl id g Hin) as (a & Ha & Hi). by eapply Hm.
Qed.

Lemma step_logged s s' : sound (sy_db s) → logged s → step s s' → logged s'.
Proof.
  intros [Hk Hcu] Hl.
  destruct 1 as [? ? ? ? ? H|? ? ? ? ? H|? ? c ? ? Hc H|? ? c ? ? Hok H|? ? ? ? ? ? H].
  - apply logged_mono; [done|]. destruct (append_Ok _ _ _ _ _ _ _ _ Hk H)
      as (digest & _ & _ & _ & [(_ & Hf & _ & -> & _)|(e & _ & _ & -> & _)]);
    intros k a Ha Hi; eauto.
  - done.
  - apply logged_mono; [done|].
    destruct (claim_commit_Ok _ _ _ _ _ _ H) as [[_ ->]|(_ & e & d & Hw)];
      [intros k a Ha Hi; eauto|].
    rewrite (cw_db _ _ _ _ _ _ _ Hw). eapply markers_insert; [done|].
    rewrite (cw_fresh _ _ _ _ _ _ _ Hw). done.
  - destruct (begin_invocation_Ok _ _ _ _ _ _ _ H) as [[? ->]|(e & a & d & _ & Hw)]; [done|].
    pose proof (iw_attempt _ _ _ _ _ _ _ _ _ Hw) as Ha.
    destruct (cu_event _ Hcu _ _ (iw_event _ _ _ _ _ _ _ _ _ Hw)) as [_ Hcust].
    destruct (ec_bind _ _ Hcust _ _ Ha) as (_ & _ & _ & _ & _ & _ & _ & Hst).
    rewrite (iw_stage _ _ _ _ _ _ _ _ _ Hw) in Hst. destruct Hst as [Hinv _].
    rewrite (iw_db _ _ _ _ _ _ _ _ _ Hw). destruct Hl as [Hn Hl]. split; cbn [sy_log sy_db].
    + constructor; [|done]. intros Hin. destruct (Hl _ _ Hin) as (a' & Ha' & Hi).
      assert (a' = a) as -> by congruence. rewrite Hinv in Hi. by destruct Hi.
    + intros id g Hin. cbn [set_attempts db_attempts].
      destruct (decide ((id, g) = (cl_event_id c, cl_claim_generation c))) as [[= -> ->]|Hne].
      * rewrite lookup_insert_eq. eexists. split; [done|]. cbn. eauto.
      * rewrite lookup_insert_ne by congruence. apply Hl. set_solver.
  - apply logged_mono; [done|].
    destruct (finalize_Ok _ _ _ _ _ _ _ _ H) as [_ [[-> _]|(e & a & o & d & Hw)]];
      [intros k a Ha Hi; eauto|].
    pose proof (finalize_written_ok _ _ _ _ _ _ _ _ _ _ _ Hcu Hw) as Ho.
    destruct (fw_db _ _ _ _ _ _ _ _ _ _ _ Hw Ho) as [_ ->].
    eapply markers_insert; [done|]. rewrite (fw_attempt _ _ _ _ _ _ _ _ _ _ _ Hw).
    cbn. naive_solver.
Qed.

Lemma reachable_logged s : reachable s → logged s.
Proof.
  revert s. apply reachable_ind_strong.
  - split; [apply NoDup_nil_2|]. cbn. intros id g Hin. by apply elem_of_nil in Hin.
  - intros s s' Hr IH Hst. eapply step_logged; eauto. by apply reachable_sound.
Qed.

(** ** Generations *)

Definition bounded (s : Sys) : Prop :=
  (∀ id e, db_events (sy_db s) !! id = Some e →
    ev_claim_generation e ≤ max_attempts (options_of E e)) ∧
  (∀ c, c ∈ sy_claims s → ∃ e, db_events (sy_db s) !! cl_event_id c = Some e ∧
    cl_claim_generation c ≤ max_attempts (options_of E e)).

Lemma options_of_envelope e e' : same_envelope e e' → options_of E e' = options_of E e.
Proof. intros (_ & H1 & H2 & _). unfold options_of. by rewrite H1, H2. Qed.

Lemma claims_kept s db' :
  row_kept (sy_db s) db' → bounded s →
  ∀ c, c ∈ sy_claims s → ∃ e, db_events db' !! cl_event_id c = Some e ∧
    cl_claim_generation c ≤ max_attempts (options_of E e).
Proof.
  intros Hk [_ Hb] c Hc. destruct (Hb c Hc) as (e & He & Hg).
  destruct (Hk _ _ He) as (e' & He' & Hs & _). exists e'.
  by rewrite (options_of_envelope _ _ Hs).
Qed.

Lemma claim_propose_Ok db now id pid owner c :
  claim_propose E db now id pid owner = Ok (Some c) →
  ∃ e, db_events db !! id = Some e ∧ ev_project_id e = pid ∧
    registered (eg_registry E) (ev_event_type e) (ev_event_version e) = true ∧
    claimable_state (ev_delivery_state e) = true ∧ due e now = true ∧
    ev_claim_generation e < max_attempts (options_of E e) ∧
    claim_valid c = true ∧ cl_event_id c = ev_event_id e ∧ cl_project_id c = pid ∧
    cl_payload_digest c = ev_payload_digest e ∧
    cl_claim_generation c = ev_claim_generation e + 1 ∧ cl_claim_owner c = owner ∧
    cl_claimed_at c = now ∧
    cl_claim_expires_at c = now + lease_seconds (options_of E e) * us_per_second.
Proof.
  unfold claim_propose. destruct (event db id pid) as [e|] eqn:He; [|done].
  apply event_Some in He as [He Hp].
  destruct (_ || _) eqn:Hg; [done|].
  rewrite !orb_false_iff, !negb_false_iff in Hg. destruct Hg as [[[G1 G2] G3] G4].
  intros (x & [-> _]%oget_Ok%add_seconds_Some & (c' & [Hv ->]%new_claim_Ok & H%Ok_inj)%result_bind_Ok)%result_bind_Ok.
  injection H as <-. exists e. cbn. split_and!; try done. lia.
Qed.

Lemma step_bounded s s' :
  (∀ e, 0 ≤ max_attempts (options_of E e)) →
  sound (sy_db s) → bounded s → step s s' → bounded s'.
Proof.
  intros Hopt Hsound Hb Hst. pose proof (step_rows _ _ Hsound Hst) as Hrows.
  pose proof (claims_kept s _ Hrows Hb) as Hcl. destruct Hsound as [Hk Hcu], Hb as [Hb Hbc].
  destruct Hst as [? ? ? ? ? H|? ? ? ? c H|? ? c ? ? Hc H|? ? ? ? ? Hok H|? ? ? ? ? ? H];
    (split; cbn [sy_db sy_claims] in *; [|try exact Hcl]).
  - destruct (append_Ok _ _ _ _ _ _ _ _ Hk H)
      as (digest & _ & _ & _ & [(_ & Hf & _ & -> & _)|(e & _ & _ & -> & _)]); [|exact Hb].
    intros id e. cbn. rewrite lookup_insert_Some. intros [[<- <-]|[_ He]]; [apply Hopt|by eapply Hb].
  - exact Hb.
  - intros c'. rewrite elem_of_cons. intros [->|Hc]; [|by apply Hbc].
    destruct (claim_propose_Ok _ _ _ _ _ _ H)
      as (e & He & _ & _ & _ & _ & Hg & _ & Hid & _ & _ & Hgc & _).
    exists e. rewrite Hid, (ko_id _ Hk _ _ He). split; [done|lia].
  - destruct (claim_commit_Ok _ _ _ _ _ _ H) as [[_ ->]|(_ & e & d & Hw)]; [exact Hb|].
    rewrite (cw_db _ _ _ _ _ _ _ Hw). cbn. intros id x. rewrite lookup_insert_Some.
    intros [[<- <-]|[_ Hx]]; [|by eapply Hb].
    destruct (Hbc c Hc) as (e1 & He1 & Hg1). rewrite (cw_event _ _ _ _ _ _ _ Hw) in He1.
    injection He1 as <-. exact Hg1.
  - destruct (begin_invocation_Ok _ _ _ _ _ _ _ H) as [[? ->]|(e & a & d & _ & Hw)]; [exact Hb|].
    rewrite (iw_db _ _ _ _ _ _ _ _ _ Hw). exact Hb.
  - destruct (finalize_Ok _ _ _ _ _ _ _ _ H) as [_ [[-> _]|(e & a & o & d & Hw)]]; [exact Hb|].
    pose proof (finalize_written_ok _ _ _ _ _ _ _ _ _ _ _ Hcu Hw) as Ho.
    destruct (fw_db _ _ _ _ _ _ _ _ _ _ _ Hw Ho) as [_ ->].
    intros id x. cbn. rewrite lookup_insert_Some. intros [[<- <-]|[_ Hx]]; [|by eapply Hb].
    exact (Hb _ _ (fw_event _ _ _ _ _ _ _ _ _ _ _ Hw)).
Qed.

Lemma reachable_bounded s :
  (∀ e, 0 ≤ max_attempts (options_of E e)) → reachable s → bounded s.
Proof.
  intros Hopt. revert s. apply reachable_ind_strong.
  - split; cbn; [intros id e; by rewrite lookup_empty|]. intros c Hin. by apply elem_of_nil in Hin.
  - intros s s' Hr IH Hst. eapply step_bounded; eauto. by apply reachable_sound.
Qed.

(** ** Completed attempts never change *)

Lemma step_completed s s' k a :
  sound (sy_db s) → step s s' → db_attempts (sy_db s) !! k = Some a →
  at_stage a = ST_completed → db_attempts (sy_db s') !! k = Some a.
Proof.
  intros [Hk Hcu] Hst Ha Hs.
  destruct Hst as [? ? ? ? ? H|? ? ? ? c H|? ? c ? ? Hc H|? ? ? ? ? Hok H|? ? ? ? ? ? H];
    cbn [sy_db]; try done.
  - destruct (append_Ok _ _ _ _ _ _ _ _ Hk H)
      as (digest & _ & _ & _ & [(_ & Hf & _ & -> & _)|(e & _ & _ & -> & _)]); done.
  - destruct (claim_commit_Ok _ _ _ _ _ _ H) as [[_ ->]|(_ & e & d & Hw)]; [done|].
    rewrite (cw_db _ _ _ _ _ _ _ Hw). cbn. rewrite lookup_insert_ne; [done|]. intros <-.
    pose proof (cw_fresh _ _ _ _ _ _ _ Hw). congruence.
  - destruct (begin_invocation_Ok _ _ _ _ _ _ _ H) as [[? ->]|(e & a' & d & _ & Hw)]; [done|].
    rewrite (iw_db _ _ _ _ _ _ _ _ _ Hw). cbn. rewrite lookup_insert_ne; [done|]. intros <-.
    pose proof (iw_attempt _ _ _ _ _ _ _ _ _ Hw). pose proof (iw_stage _ _ _ _ _ _ _ _ _ Hw).
    congruence.
  - destruct (finalize_Ok _ _ _ _ _ _ _ _ H) as [_ [[-> _]|(e & a' & o & d & Hw)]]; [done|].
    pose proof (finalize_written_ok _ _ _ _ _ _ _ _ _ _ _ Hcu Hw) as Ho.
    destruct (fw_db _ _ _ _ _ _ _ _ _ _ _ Hw Ho) as [_ ->].
    cbn. rewrite lookup_insert_ne; [done|]. intros <-.
    pose proof (fw_attempt _ _ _ _ _ _ _ _ _ _ _ Hw).
    pose proof (fw_stage _ _ _ _ _ _ _ _ _ _ _ Hw). congruence.
Qed.

Lemma steps_completed s s' k a :
  reachable s → rtc step s s' → db_attempts (sy_db s) !! k = Some a →
  at_stage a = ST_completed → db_attempts (sy_db s') !! k = Some a.
Proof.
  intros Hr H Ha Hs. induction H as [|s1 s2 s3 H1 _ IH]; [done|].
  apply IH; [by apply (rtc_reachable s1); [|apply rtc_once]|].
  eapply step_completed; eauto. by apply reachable_sound.
Qed.
End System.

Lemma new_engine_options g o eo E e :
  new_engine g o eo = Ok E → options_valid (options_of E e) = true.
Proof.
  unfold new_engine. intros [Ho [Heo H%Ok_inj]%ensure_bind_Ok]%ensure_bind_Ok. subst E.
  unfold options_of, _options_for. cbn. destruct (list_find _ eo) as [[i [k x]]|] eqn:Hf; [|done].
  apply list_find_Some in Hf as (Hi & _ & _). rewrite forallb_forall in Heo.
  apply list_elem_of_lookup_2, list_elem_of_In, Heo, andb_prop in Hi as [_ Hi]. exact Hi.
Qed.
