(* ===== verification/OutboxGuarantees.v ===== *)
(** * What the outbox guarantees

    The theorems a producer, a worker or a handler relies on, for every interleaving of
    appends, proposals, claims, invocations and finalizations, with a concrete run that
    satisfies their hypotheses. *)

From stdpp Require Import relations.
From S2P Require Import Prelude Text Digest Json Instant OutboxApi OutboxStore OutboxAppend.
From S2P Require Import OutboxDelivery OutboxOutcome OutboxCustody OutboxSystem.

(** ** A concrete run: append, claim, invoke, acknowledge *)

Definition sample_registry : HandlerRegistry :=
  {| rg_handlers := [(lit "TaskRoutingRequested", 1)]; rg_replay_safe := [] |}.
Definition sample_engine : Engine :=
  {| eg_registry := sample_registry; eg_options := default_options; eg_event_options := [] |}.
Definition sample_authority : PreparedAuthority :=
  {| pa_prepared := λ _, true;
     pa_consume := λ f, Some {| ad_decision_id := match fx_phase f with
                                  PH_CLAIM => 11 | PH_INVOKE => 12 | PH_FINALIZE => 13 end;
                                ad_action_id := OUTBOX_DISPATCH_ACTION;
                                ad_permission_id := OUTBOX_DISPATCH_PERMISSION;
                                ad_outcome := ALLOW |} |}.
Definition sample_at (us : Z) : Readings :=
  {| rd_locked := sample_now + us; rd_write := sample_now + us + 1 |}.

Definition sample_claim : OutboxClaim :=
  {| cl_event_id := sample_id; cl_project_id := 9; cl_payload_digest := sample_digest;
     cl_claim_generation := 1; cl_claim_owner := lit "worker-1";
     cl_claimed_at := sample_now + 10;
     cl_claim_expires_at := sample_now + 10 + 300 * us_per_second |}.
Definition sample_claimed : Db :=
  {| db_events := {[sample_id := claimed_event sample_event sample_claim]};
     db_attempts := {[(sample_id, 1) := claimed_attempt sample_claim 11]} |}.
Definition sample_invoked : Db :=
  {| db_events := {[sample_id := claimed_event sample_event sample_claim]};
     db_attempts := {[(sample_id, 1)
       := invoked_attempt (claimed_attempt sample_claim 11) (sample_now + 31) 12]} |}.
Definition sample_outcome : Outcome :=
  {| oc_delivery_state := DS_acknowledged; oc_error_code := None; oc_next_attempt_at := None;
     oc_finalized_at := Some (sample_now + 40); oc_receipt_completed_at := sample_now + 40;
     oc_invocation_unknown := false; oc_invoked_at := Some (sample_now + 31) |}.
Definition sample_receipt : DeliveryReceipt :=
  {| rc_claim := sample_claim; rc_outcome_json := _encode (outcome_value sample_outcome);
     rc_outcome_digest := default [] (canonical_json_hash (outcome_value sample_outcome)) |}.
Definition sample_done : Db :=
  {| db_events := {[sample_id := finalized_event (claimed_event sample_event sample_claim)
       DS_acknowledged None None (Some (sample_now + 40))]};
     db_attempts := {[(sample_id, 1) := completed_attempt
       (invoked_attempt (claimed_attempt sample_claim 11) (sample_now + 31) 12) 13
       sample_receipt]} |}.

Lemma sample_propose_ok :
  claim_propose sample_engine appended_db (sample_now + 10) sample_id 9 (lit "worker-1")
  = Ok (Some sample_claim).
Proof. vm_compute. reflexivity. Defined.

Lemma sample_claim_ok :
  claim_commit sample_authority (sample_at 20) sample_claim appended_db
  = Ok (Some sample_claim, sample_claimed).
Proof. vm_compute. reflexivity. Defined.

Lemma sample_invoke_ok :
  _begin_invocation sample_engine sample_authority (sample_at 30) sample_claim sample_claimed
  = Ok (Some (envelope_of sample_event sample_claim), sample_invoked).
Proof. vm_compute. reflexivity. Defined.

Lemma sample_finalize_ok :
  _finalize sample_engine sample_authority (sample_at 50) sample_receipt FC_ACKNOWLEDGE
    sample_invoked = Ok (sample_receipt, sample_done).
Proof. vm_compute. reflexivity. Defined.

Abbreviation sample_reachable :=
  (reachable sample_engine (λ c, [c]) (λ _, true)) (only parsing).
Abbreviation sample_step := (step sample_engine (λ c, [c]) (λ _, true)) (only parsing).

Definition sys_proposed : Sys :=
  {| sy_db := appended_db; sy_claims := [sample_claim]; sy_log := [] |}.
Definition sys_claimed : Sys :=
  {| sy_db := sample_claimed; sy_claims := [sample_claim]; sy_log := [] |}.
Definition sys_invoked : Sys :=
  {| sy_db := sample_invoked; sy_claims := [sample_claim]; sy_log := [(sample_id, 1)] |}.
Definition sys_done : Sys :=
  {| sy_db := sample_done; sy_claims := [sample_claim]; sy_log := [(sample_id, 1)] |}.

Definition sys_appended : Sys := {| sy_db := appended_db; sy_claims := []; sy_log := [] |}.

Lemma sample_appended_step : sample_step initial sys_appended.
Proof.
  exact (step_append sample_engine _ _ initial sample_id sample_now sample_input sample_result
    appended_db sample_append_ok).
Defined.

Lemma sample_proposed_step : sample_step sys_appended sys_proposed.
Proof.
  exact (step_propose sample_engine _ _ sys_appended (sample_now + 10) sample_id 9
    (lit "worker-1") sample_claim sample_propose_ok).
Defined.

Lemma sample_proposed_reachable : sample_reachable sys_proposed.
Proof.
  exact (rtc_l _ _ _ _ sample_appended_step
    (rtc_l _ _ _ _ sample_proposed_step (rtc_refl _ _))).
Defined.

Lemma sample_claimed_step : sample_step sys_proposed sys_claimed.
Proof.
  refine (step_claim sample_engine _ _ sys_proposed sample_authority (sample_at 20) sample_claim
    (Some sample_claim) sample_claimed _ sample_claim_ok).
  apply elem_of_cons. by left.
Defined.

Lemma sample_invoked_step : sample_step sys_claimed sys_invoked.
Proof.
  exact (step_invoke sample_engine _ _ sys_claimed sample_authority (sample_at 30) sample_claim
    (envelope_of sample_event sample_claim) sample_invoked eq_refl sample_invoke_ok).
Defined.

Lemma sample_done_step : sample_step sys_invoked sys_done.
Proof.
  exact (step_finalize sample_engine _ _ sys_invoked sample_authority (sample_at 50)
    sample_receipt FC_ACKNOWLEDGE sample_receipt sample_done sample_finalize_ok).
Defined.

Lemma sample_claimed_reachable : sample_reachable sys_claimed.
Proof. eapply rtc_r; [exact sample_proposed_reachable|exact sample_claimed_step]. Defined.

Lemma sample_invoked_reachable : sample_reachable sys_invoked.
Proof. eapply rtc_r; [exact sample_claimed_reachable|exact sample_invoked_step]. Defined.

Lemma sample_done_reachable : sample_reachable sys_done.
Proof. eapply rtc_r; [exact sample_invoked_reachable|exact sample_done_step]. Defined.

(** ** Safety *)

Section Guarantees.
Context (E : Engine) (fold_wide : Z → str) (project_exists : uuid → bool).
Local Abbreviation reachable := (reachable E fold_wide project_exists).
Local Abbreviation step := (step E fold_wide project_exists).

(** C31. Custody holds in every reachable state: an event has exactly one attempt per
    generation up to its own, all but the current one completed, each bound to its
    project and payload digest; a claimed event carries exactly the lease of its open
    attempt, and any other event carries exactly the outcome its last attempt stores. *)
Theorem reachable_custody s : reachable s → custody (sy_db s).
Proof. intros H. apply (reachable_sound _ _ _ _ H). Qed.

(** C2. Refinement: every committed transaction of a reachable state is either
    invisible or exactly one step of the abstract life cycle of one event (append,
    lease of the next generation, run, expire, retry, close), and leaves every other
    event as it was. *)
Theorem delivery_refines s s' : reachable s → step s s' → one_step (sy_db s) (sy_db s').
Proof. intros Hr Hs. eapply step_refines; [by eapply reachable_sound|exact Hs]. Qed.

(** Closing is final: once an event is acknowledged or dead-lettered, no later
    sequence of transactions changes any column of its row. *)
Theorem closed_is_final s s' id g st :
  reachable s → rtc step s s' → abs_event (sy_db s) id = Some (Closed g st) →
  db_events (sy_db s') !! id = db_events (sy_db s) !! id ∧
  abs_event (sy_db s') id = Some (Closed g st).
Proof.
  intros Hr H Ha. induction H as [|s1 s2 s3 H1 _ IH]; [done|].
  assert (db_events (sy_db s2) !! id = db_events (sy_db s1) !! id ∧
          abs_event (sy_db s2) id = Some (Closed g st)) as [E1 E2].
  { destruct (step_refines _ _ _ _ _ (reachable_sound _ _ _ _ Hr) H1)
      as [->|(id' & Hst & Hfr)]; [done|].
    destruct (decide (id = id')) as [<-|Hne]; [rewrite Ha in Hst; inversion Hst|].
    destruct (Hfr id Hne) as [-> ->]. done. }
  destruct IH as [E3 E4]; [by eapply rtc_reachable, rtc_once|done|]. split; congruence.
Qed.

(** C18. At most one invocation per generation: however workers race, the log of
    envelopes handed to handlers never contains the same event and generation twice. *)
Theorem invoked_at_most_once s : reachable s → NoDup (sy_log s).
Proof. intros H. apply (reachable_logged _ _ _ _ H). Qed.

(** Attempts are bounded: for an engine built from valid options, no event is ever
    claimed for a generation beyond the [max_attempts] of its type. *)
Theorem generations_bounded g o eo s id e :
  new_engine g o eo = Ok E → reachable s → db_events (sy_db s) !! id = Some e →
  0 ≤ ev_claim_generation e ≤ max_attempts (options_of E e).
Proof.
  intros HE Hr He. split.
  - apply (cu_event _ (proj2 (reachable_sound _ _ _ _ Hr)) _ _ He).
  - eapply (reachable_bounded _ _ _ _); [|done|done]. intros x.
    pose proof (options_valid_bounds _ (new_engine_options _ _ _ _ x HE)). lia.
Qed.

(** The envelope is immutable: identity, type, aggregate, correlation, causation,
    key, payload, digest, occurrence and not-before never change after the append, and
    the claim generation never decreases. *)
Theorem envelope_immutable s s' id e :
  reachable s → rtc step s s' → db_events (sy_db s) !! id = Some e →
  ∃ e', db_events (sy_db s') !! id = Some e' ∧ same_envelope e e' ∧
        ev_claim_generation e ≤ ev_claim_generation e'.
Proof. intros Hr H He. exact (steps_rows _ _ _ _ _ Hr H _ _ He). Qed.

(** The lease excludes: two claims on one event that could both still start an
    invocation in the same state are the same lease, generation and owner included. *)
Theorem lease_exclusive s p1 p2 t1 t2 c1 c2 env1 env2 db1 db2 :
  reachable s → cl_event_id c1 = cl_event_id c2 →
  _begin_invocation E p1 t1 c1 (sy_db s) = Ok (Some env1, db1) →
  _begin_invocation E p2 t2 c2 (sy_db s) = Ok (Some env2, db2) →
  c1 = c2 ∧ env1 = env2.
Proof.
  intros Hr Hid H1 H2.
  destruct (begin_invocation_Ok _ _ _ _ _ _ _ H1) as [[? _]|(e1 & a1 & d1 & E1 & W1)]; [done|].
  destruct (begin_invocation_Ok _ _ _ _ _ _ _ H2) as [[? _]|(e2 & a2 & d2 & E2 & W2)]; [done|].
  pose proof (iw_event _ _ _ _ _ _ _ _ _ W1) as He1.
  pose proof (iw_event _ _ _ _ _ _ _ _ _ W2) as He2. rewrite <- Hid in He2.
  assert (e2 = e1) as -> by congruence.
  pose proof (proj1 (matches_event_true _ _) (iw_matches _ _ _ _ _ _ _ _ _ W1)).
  pose proof (proj1 (matches_event_true _ _) (iw_matches _ _ _ _ _ _ _ _ _ W2)).
  destruct_and!. assert (c1 = c2) as ->; [|by simplify_eq].
  destruct c1, c2; cbn in *. f_equal; congruence.
Qed.

(** Finalization replays exactly: after a receipt was committed, any later
    finalization with that receipt, in any later state and for any stated cause, returns
    the stored receipt and writes nothing, provided authority is granted again. *)
Theorem finalize_replays s s' p t p' t' r cause cause' r' db' d :
  reachable s → _finalize E p t r cause (sy_db s) = Ok (r', db') →
  rtc step {| sy_db := db'; sy_claims := sy_claims s; sy_log := sy_log s |} s' →
  let f := facts_of (rc_claim r) PH_FINALIZE (Some (rc_outcome_digest r)) in
  pa_prepared p' f = true → allowed p' f d →
  _finalize E p' t' r cause' (sy_db s') = Ok (r, sy_db s').
Proof.
  intros Hr H Hst f Hp Hal.
  pose proof (step_finalize E fold_wide project_exists _ _ _ _ _ _ _ H) as Hs1.
  assert (reachable s') as Hr'
    by (eapply rtc_reachable; [exact Hr|by eapply rtc_l]).
  assert (∃ a, db_attempts (sy_db s') !! (cl_event_id (rc_claim r), cl_claim_generation (rc_claim r))
      = Some a ∧ attempt_claim a = rc_claim r ∧ at_stage a = ST_completed ∧
      at_outcome_json a = Some (rc_outcome_json r) ∧
      at_outcome_digest a = Some (rc_outcome_digest r)) as (a & Ha & Hc & Hsg & Hj & Hd).
  { destruct (finalize_Ok _ _ _ _ _ _ _ _ H) as [_ [[-> (a & Ha & Hc & Hsg & Hj & Hd)]|(e & a & o & d' & Hw)]].
    - exists a. split_and!; try done. eapply steps_completed; [exact Hr| |done|done].
      by eapply rtc_l.
    - destruct (reachable_sound _ _ _ _ Hr) as [_ Hcu].
      pose proof (finalize_written_ok _ _ _ _ _ _ _ _ _ _ _ Hcu Hw) as Ho.
      destruct (fw_db _ _ _ _ _ _ _ _ _ _ _ Hw Ho) as [_ ->].
      exists (completed_attempt a d' r). split_and!; try done.
      + eapply steps_completed; [|exact Hst| |done].
        * eapply rtc_reachable; [exact Hr|by apply rtc_once].
        * cbn. apply lookup_insert_eq.
      + apply (fw_claim _ _ _ _ _ _ _ _ _ _ _ Hw). }
  destruct (reachable_sound _ _ _ _ Hr') as [_ Hcu].
  destruct (cu_owner _ Hcu _ _ _ Ha) as [e He].
  destruct (cu_event _ Hcu _ _ He) as [Hid Hec].
  destruct (ec_bind _ _ Hec _ _ Ha) as (_ & _ & B3 & _ & _ & B6 & _).
  assert (cl_project_id (rc_claim r) = at_project_id a) as Epr by (by rewrite <- Hc).
  rewrite Hc in B6. unfold _finalize, _checked_claim. rewrite B6. run.
  assert (_facts (rc_claim r) PH_FINALIZE (Some (rc_outcome_digest r)) = Ok f) as ->.
  { apply facts_Ok. split; [done|]. apply (finalize_facts_valid _ _ _ _ _ _ _ _ H). }
  run. rewrite Hp. run.
  rewrite (proj2 (event_Some _ _ _ e)) by (split; congruence). run.
  rewrite (proj2 (attempt_Some _ _ a)) by (split; congruence). run.
  unfold claim_from_attempt, new_claim. rewrite Hc, B6. run.
  rewrite bool_decide_eq_true_2 by done. run. rewrite decide_True by done.
  unfold _receipt. rewrite Hj, Hd. run. destruct r as [c j dg]. cbn in *.
  rewrite bool_decide_eq_true_2 by done. run.
  rewrite (proj2 (consume_allow_Ok _ _ d)) by done. done.
Qed.
End Guarantees.

(** ** The hypotheses hold on the concrete run *)

Lemma reachable_custody_witness : custody sample_done.
Proof. exact (reachable_custody _ _ _ sys_done sample_done_reachable). Defined.

Lemma delivery_refines_witness : one_step sample_invoked sample_done.
Proof.
  exact (delivery_refines _ _ _ sys_invoked sys_done sample_invoked_reachable sample_done_step).
Defined.

Lemma closed_is_final_witness :
  abs_event sample_done sample_id = Some (Closed 1 DS_acknowledged).
Proof.
  refine (proj2 (closed_is_final _ _ _ sys_done sys_done sample_id 1 DS_acknowledged
    sample_done_reachable (rtc_refl _ _) _)). vm_compute. reflexivity.
Defined.

Lemma invoked_at_most_once_witness : NoDup [(sample_id, 1)].
Proof. exact (invoked_at_most_once _ _ _ sys_done sample_done_reachable). Defined.

Lemma sample_done_event :
  db_events sample_done !! sample_id
  = Some (finalized_event (claimed_event sample_event sample_claim)
            DS_acknowledged None None (Some (sample_now + 40))).
Proof. apply lookup_singleton_eq. Defined.

Lemma generations_bounded_witness :
  0 ≤ 1 ≤ max_attempts (options_of sample_engine sample_event).
Proof.
  exact (generations_bounded _ _ _ sample_registry default_options [] sys_done sample_id _
    eq_refl sample_done_reachable sample_done_event).
Defined.

Lemma envelope_immutable_witness :
  ∃ e', db_events sample_done !! sample_id = Some e' ∧
        same_envelope (claimed_event sample_event sample_claim) e' ∧
        1 ≤ ev_claim_generation e'.
Proof.
  exact (envelope_immutable _ _ _ sys_invoked sys_done sample_id _ sample_invoked_reachable
    (rtc_once _ _ sample_done_step) (lookup_singleton_eq _ _)).
Defined.

Lemma lease_exclusive_witness : sample_claim = sample_claim.
Proof.
  exact (proj1 (lease_exclusive _ _ _ sys_claimed _ _ _ _ _ _ _ _ _ _ sample_claimed_reachable
    eq_refl sample_invoke_ok sample_invoke_ok)).
Defined.

Lemma finalize_replays_witness :
  _finalize sample_engine sample_authority (sample_at 900) sample_receipt FC_UNKNOWN sample_done
  = Ok (sample_receipt, sample_done).
Proof.
  refine (finalize_replays _ _ _ sys_invoked sys_done sample_authority (sample_at 50)
    sample_authority (sample_at 900) sample_receipt FC_ACKNOWLEDGE FC_UNKNOWN sample_receipt
    sample_done 13 sample_invoked_reachable sample_finalize_ok (rtc_refl _ _) eq_refl _).
  eexists. split_and!; reflexivity.
Defined.
