(* ===== verification/OutboxProgress.v ===== *)
(** * Progress: the engine gets its work through the database

    Every write of the engine meets the CHECK constraints of its tables, so a worker that
    is authorized, in time and given fresh decision identities carries a due event from its
    queue to a stored receipt.  [deliver_acknowledges] and [recover_releases] state this for
    the whole operations. *)

From S2P Require Import Prelude Text Digest Json Instant OutboxApi OutboxStore OutboxAppend.
From S2P Require Import OutboxDelivery OutboxOutcome OutboxCustody OutboxSystem OutboxGuarantees.

(** ** Constraints met *)

Lemma claim_valid_fields c :
  claim_valid c = true ↔
  digest_pattern (cl_payload_digest c) = true ∧ 1 ≤ cl_claim_generation c ≤ 2147483647 ∧
  owner_pattern (cl_claim_owner c) = true ∧
  0 < cl_claim_expires_at c - cl_claimed_at c ≤ 3600 * us_per_second.
Proof. unfold claim_valid. rewrite !andb_true_iff, !Z.leb_le, Z.ltb_lt. tauto. Qed.

Lemma claim_facts_valid c phase :
  claim_valid c = true → phase ≠ PH_FINALIZE → facts_valid (facts_of c phase None) = true.
Proof.
  intros (H1 & H2 & H3 & H4)%claim_valid_fields Hp. unfold facts_valid, in_range. cbn.
  rewrite H1, H3. rewrite !andb_true_iff. split_and!; try done; try lia. by destruct phase.
Qed.

Lemma final_facts_valid c d :
  claim_valid c = true → digest_pattern d = true →
  facts_valid (facts_of c PH_FINALIZE (Some d)) = true.
Proof.
  intros (H1 & H2 & H3 & H4)%claim_valid_fields Hd. unfold facts_valid, in_range. cbn.
  rewrite H1, H3, Hd. rewrite !andb_true_iff. split_and!; try done; lia.
Qed.

Lemma envelope_checks_envelope e e' :
  same_envelope e e' → envelope_checks e' = envelope_checks e.
Proof.
  intros (E1 & E2 & E3 & E4 & E5 & E6 & E7 & E8 & E9 & E10 & E11 & E12 & E13 & E14).
  unfold envelope_checks. by rewrite E1, E2, E3, E4, E5, E8, E10, E11, E12.
Qed.

(** The constraints of a row, as facts about its columns. *)
Lemma event_checks_parts e :
  event_checks e = true ↔
  envelope_checks e = true ∧ column_checks e = true ∧ timestamp_checks e = true ∧
  delivery_state_shape e = true.
Proof. unfold event_checks. rewrite !andb_true_iff. tauto. Qed.

Lemma due_after e now t :
  event_checks e = true → due e now = true → now ≤ t →
  ev_occurred_at e ≤ t ∧ ∀ n, ev_not_before_at e = Some n → n ≤ t.
Proof.
  intros (_ & _ & Ht & _)%event_checks_parts Hd Hle. unfold due in Hd.
  destruct (ev_next_attempt_at e) as [n|] eqn:En; [|done].
  unfold timestamp_checks in Ht. autorewrite with sql in Ht. rewrite En in Ht.
  rewrite !andb_true_iff in Ht. destruct Ht as [H1 [H2 _]]. split; [lia|].
  intros m Em. rewrite Em in H1. lia.
Qed.

Lemma claimed_event_checks e c :
  event_checks e = true → ev_finalized_at e = None → ev_archived_at e = None →
  claim_valid c = true → due e (cl_claimed_at c) = true →
  event_checks (claimed_event e c) = true.
Proof.
  intros He Hf Ha (_ & Hg & Ho & Hl)%claim_valid_fields Hd.
  destruct (due_after _ _ _ He Hd (Z.le_refl _)) as [Hocc Hnb].
  apply event_checks_parts in He as (H1 & H2 & _ & _). apply event_checks_parts. split_and!.
  - rewrite (envelope_checks_envelope e); [done|by repeat split].
  - unfold column_checks in *. cbn. rewrite !andb_true_iff in *. destruct_and!.
    split_and!; try done; lia.
  - unfold timestamp_checks. autorewrite with sql. cbn. rewrite Hf, Ha.
    rewrite !andb_true_iff. destruct (ev_not_before_at e) as [n|]; [specialize (Hnb n eq_refl)|];
      split_and!; try done; lia.
  - unfold delivery_state_shape, in_state. autorewrite with sql. cbn. rewrite Hf, Ha.
    rewrite Z.eqb_refl. rewrite (proj2 (Z.gtb_lt _ _)) by lia. done.
Qed.

Lemma claimed_attempt_checks c d :
  claim_valid c = true → attempt_checks (claimed_attempt c d) = true.
Proof.
  intros (H1 & H2 & H3 & H4)%claim_valid_fields.
  unfold attempt_checks, attempt_shape_checks, in_range. autorewrite with sql. cbn.
  rewrite H1, H3. rewrite !andb_true_iff. split_and!; try done; lia.
Qed.

Lemma invoked_attempt_checks a now d :
  claim_valid (attempt_claim a) = true → at_outcome_json a = None →
  at_outcome_digest a = None → at_finalize_decision_event_id a = None →
  at_claimed_at a ≤ now < at_claim_expires_at a →
  attempt_checks (invoked_attempt a now d) = true.
Proof.
  intros (H1 & H2 & H3 & H4)%claim_valid_fields Hj Hd Hf Ht. cbn in *.
  unfold attempt_checks, attempt_shape_checks, outcome_check, in_range. autorewrite with sql. cbn.
  rewrite H1, H3, Hj, Hd, Hf. rewrite !andb_true_iff. split_and!; try done; try lia.
  rewrite !orb_true_iff, !andb_true_iff. right. left. split_and!; done || lia.
Qed.

Lemma completed_attempt_checks a d r o cause opts ru :
  attempt_checks a = true → attempt_wf a → at_stage a ≠ ST_completed →
  rc_claim r = attempt_claim a →
  _outcome (attempt_claim a) (at_invoked_at a) cause (oc_receipt_completed_at o) opts ru = Ok o →
  receipt_of (attempt_claim a) o = Ok r → options_valid opts = true →
  instant_ok (oc_receipt_completed_at o) = true → at_claimed_at a ≤ oc_receipt_completed_at o →
  (∀ i, at_invoked_at a = Some i → i ≤ oc_receipt_completed_at o) →
  attempt_checks (completed_attempt a d r) = true.
Proof.
  intros Hc [Hi Hwf] Hs Hr Ho Hro Hopts Hok Hcl Hinv.
  pose proof (checked_attempt_claim_valid _ Hc) as Hv.
  apply claim_valid_fields in Hv as (H1 & H2 & H3 & H4). cbn in H1, H2, H3, H4.
  assert (outcome_check (completed_attempt a d r) = true) as Hoc.
  { eapply (outcome_db_valid (attempt_claim a)); eauto. cbn. lia. }
  unfold attempt_checks. rewrite Hoc, andb_true_r.
  unfold attempt_checks in Hc. apply andb_prop in Hc as [Hc _].
  unfold attempt_shape_checks in *. autorewrite with sql in *. cbn in *.
  rewrite !andb_true_iff in *. destruct Hc as [_ Hshape].
  unfold in_range. rewrite !andb_true_iff. split_and!; try done; try lia.
  - destruct (at_stage a); [| |done].
    + destruct Hwf as (-> & _ & _ & -> & _). done.
    + destruct Hwf as ([i ->] & _ & _ & [x ->] & _). done.
  - destruct (at_stage a); [| |done].
    + by destruct Hwf as (-> & _).
    + destruct Hwf as ([i Ei] & _). rewrite Ei in *. cbn in *.
      rewrite !orb_true_iff, !andb_true_iff in *. right. right. naive_solver lia.
Qed.

Lemma finalized_event_checks e c cause now opts ru inv o :
  event_checks e = true → ev_delivery_state e = DS_claimed → 1 ≤ ev_claim_generation e →
  ev_attempt_count e = ev_claim_generation e → ev_archived_at e = None →
  ev_claimed_at e = Some (cl_claimed_at c) → ev_last_attempt_at e = Some (cl_claimed_at c) →
  cl_claimed_at c ≤ now → 1 ≤ cl_claim_generation c → options_valid opts = true →
  _outcome c inv cause now opts ru = Ok o →
  event_checks (finalized_event e (oc_delivery_state o) (oc_error_code o)
                  (oc_next_attempt_at o) (oc_finalized_at o)) = true.
Proof.
  intros He Hs Hg Hcnt Har Hcl Hla Hle Hgc Hopts Ho.
  pose proof (timestamp_checks_claimed _ _ He Hcl) as Hocc.
  assert (∀ n, ev_not_before_at e = Some n → n ≤ cl_claimed_at c) as Hnb.
  { intros n Hn. apply event_checks_parts in He as (_ & _ & Ht & _).
    unfold timestamp_checks in Ht. autorewrite with sql in Ht. rewrite Hn, Hcl in Ht.
    rewrite !andb_true_iff in Ht. cbn in Ht. lia. }
  pose proof (backoff_bounds opts _ Hopts Hgc) as Hb.
  pose proof (options_valid_bounds _ Hopts) as Hob.
  assert (∀ r, add_seconds now (backoff opts (cl_claim_generation c)) = Some r → now < r) as Hr.
  { intros r [-> _]%add_seconds_Some. unfold us_per_second. lia. }
  apply event_checks_parts in He as (H1 & H2 & _ & _). apply event_checks_parts. split_and!.
  - rewrite (envelope_checks_envelope e); [done|by repeat split].
  - unfold column_checks in *. cbn. rewrite !andb_true_iff in *. destruct_and!.
    split_and!; try done. apply outcome_cases in Ho. by destruct Ho.
  - unfold timestamp_checks. autorewrite with sql. cbn. rewrite Har, Hla.
    apply outcome_cases in Ho. rewrite !andb_true_iff.
    destruct Ho; cbn; try match goal with H : add_seconds _ _ = Some _ |- _ => apply Hr in H end;
      (destruct (ev_not_before_at e) as [n|]; [specialize (Hnb n eq_refl)|]);
      split_and!; try done; lia.
  - unfold delivery_state_shape, in_state. autorewrite with sql. cbn. rewrite Har, Hla, Hcnt.
    apply outcome_cases in Ho. rewrite (proj2 (Z.gtb_lt _ _)) by lia.
    destruct Ho; cbn; rewrite ?orb_true_r; done.
Qed.

(** ** Stored rows satisfy their constraints *)

Definition decision_columns : list (OutboxDeliveryAttempt → option uuid) :=
  [Some ∘ at_claim_decision_event_id; at_invoke_decision_event_id; at_finalize_decision_event_id].

Definition distinct_column (f : OutboxDeliveryAttempt → option uuid)
    (atts : gmap (uuid * Z) OutboxDeliveryAttempt) : Prop :=
  ∀ k1 k2 a1 a2 x, atts !! k1 = Some a1 → atts !! k2 = Some a2 →
    f a1 = Some x → f a2 = Some x → k1 = k2.

Record intact (db : Db) : Prop := {
  it_event : ∀ id e, db_events db !! id = Some e →
    event_checks e = true ∧ canonical_json_hash (ev_payload e) = Some (ev_payload_digest e);
  it_attempt : ∀ k a, db_attempts db !! k = Some a → attempt_checks a = true;
  it_distinct : ∀ f, f ∈ decision_columns → distinct_column f (db_attempts db);
}.

Lemma unique_column_true f db a :
  unique_column f db a = true ↔
  ∀ k b, db_attempts db !! k = Some b → k ≠ at_key a → f b = None ∨ f b ≠ f a.
Proof.
  unfold unique_column. rewrite forallb_forall. split.
  - intros H k b Hb Hk. specialize (H (k, b)). cbn in H.
    rewrite !orb_true_iff, negb_true_iff, !bool_decide_eq_true, bool_decide_eq_false in H.
    destruct H as [[H|H]|H]; [|done|by left|by right].
    by apply list_elem_of_In, elem_of_map_to_list.
  - intros H [k b] Hin%list_elem_of_In%elem_of_map_to_list. cbn.
    rewrite !orb_true_iff, negb_true_iff, !bool_decide_eq_true, bool_decide_eq_false.
    destruct (decide (k = at_key a)); [tauto|]. destruct (H k b Hin); tauto.
Qed.

Lemma distinct_insert f db a :
  distinct_column f (db_attempts db) → unique_column f db a = true →
  distinct_column f (<[at_key a := a]> (db_attempts db)).
Proof.
  intros Hd Hu k1 k2 a1 a2 x. rewrite unique_column_true in Hu. rewrite !lookup_insert_Some.
  intros [[<- <-]|[H1 L1]] [[<- <-]|[H2 L2]] F1 F2; [done| | |by eapply Hd].
  - exfalso. destruct (Hu _ _ L2 ltac:(congruence)); congruence.
  - exfalso. destruct (Hu _ _ L1 ltac:(congruence)); congruence.
Qed.

Lemma intact_attempt db a :
  intact db → attempt_checks a = true → decisions_unique db a = true →
  intact (set_attempts <[at_key a := a]> db).
Proof.
  intros [H1 H2 H3] Hc Hu. unfold decisions_unique in Hu. rewrite !andb_true_iff in Hu.
  constructor; cbn [set_attempts db_events db_attempts]; [done| |].
  - intros k x. rewrite lookup_insert_Some. intros [[<- <-]|[_ Hx]]; [done|by eapply H2].
  - intros f Hf. apply distinct_insert; [by apply H3|].
    unfold decision_columns in Hf. rewrite !elem_of_cons in Hf.
    destruct Hf as [->|[->|[->|Hf]]]; [tauto..|]. by apply elem_of_nil in Hf.
Qed.

Lemma intact_event db id e :
  intact db → event_checks e = true →
  canonical_json_hash (ev_payload e) = Some (ev_payload_digest e) →
  intact (set_events <[id := e]> db).
Proof.
  intros [H1 H2 H3] Hc Hh. constructor; cbn [set_events db_events db_attempts]; [|done|done].
  intros id2 e2. rewrite lookup_insert_Some. intros [[<- <-]|[_ He]]; [done|by eapply H1].
Qed.

Lemma step_intact E fold_wide project_exists s s' :
  sound (sy_db s) → intact (sy_db s) → step E fold_wide project_exists s s' → intact (sy_db s').
Proof.
  intros [Hk Hcu] Hi.
  destruct 1 as [? ? ? ? ? H|? ? ? ? ? H|? ? c ? ? Hc H|? ? c ? ? Hok H|? ? r ? ? ? H];
    cbn [sy_db].
  - destruct (append_Ok _ _ _ _ _ _ _ _ Hk H)
      as (digest & Hd & _ & Hch & [(_ & Hf & _ & -> & _)|(e & _ & _ & -> & _)]); [|done].
    apply andb_prop in Hch as [Hch _]. by apply intact_event.
  - done.
  - destruct (claim_commit_Ok _ _ _ _ _ _ H) as [[_ ->]|(_ & e & d & Hw)]; [done|].
    rewrite (cw_db _ _ _ _ _ _ _ Hw).
    pose proof (it_event _ Hi _ _ (cw_event _ _ _ _ _ _ _ Hw)) as [_ Hh].
    exact (intact_event _ _ _ (intact_attempt _ _ Hi (cw_attempt_checks _ _ _ _ _ _ _ Hw)
      (cw_unique _ _ _ _ _ _ _ Hw)) (cw_event_checks _ _ _ _ _ _ _ Hw) Hh).
  - destruct (begin_invocation_Ok _ _ _ _ _ _ _ H) as [[? ->]|(e & a & d & _ & Hw)]; [done|].
    rewrite (iw_db _ _ _ _ _ _ _ _ _ Hw).
    pose proof (intact_attempt _ _ Hi (iw_checks _ _ _ _ _ _ _ _ _ Hw)
      (iw_unique _ _ _ _ _ _ _ _ _ Hw)) as Hia.
    rewrite <- (iw_claim _ _ _ _ _ _ _ _ _ Hw). exact Hia.
  - destruct (finalize_Ok _ _ _ _ _ _ _ _ H) as [_ [[-> _]|(e & a & o & d & Hw)]]; [done|].
    pose proof (finalize_written_ok _ _ _ _ _ _ _ _ _ _ _ Hcu Hw) as Ho.
    destruct (fw_db _ _ _ _ _ _ _ _ _ _ _ Hw Ho) as [Hec ->].
    pose proof (it_event _ Hi _ _ (fw_event _ _ _ _ _ _ _ _ _ _ _ Hw)) as [_ Hh].
    pose proof (intact_event _ (cl_event_id (rc_claim r)) _
      (intact_attempt _ _ Hi (fw_attempt_checks _ _ _ _ _ _ _ _ _ _ _ Hw)
        (fw_unique _ _ _ _ _ _ _ _ _ _ _ Hw)) Hec Hh) as Hia.
    unfold set_events, set_attempts in Hia. cbn [db_events db_attempts] in Hia.
    change (at_key (completed_attempt a d r)) with
      (cl_event_id (attempt_claim a), cl_claim_generation (attempt_claim a)) in Hia.
    rewrite (fw_claim _ _ _ _ _ _ _ _ _ _ _ Hw) in Hia. exact Hia.
Qed.

Lemma reachable_intact E fold_wide project_exists s :
  reachable E fold_wide project_exists s → intact (sy_db s).
Proof.
  revert s. apply reachable_ind_strong.
  - constructor; cbn; intros *; rewrite ?lookup_empty; done.
  - intros s s' Hr IH Hst. eapply step_intact; eauto. by eapply reachable_sound.
Qed.

(** ** Each transaction succeeds when it should *)

(** The port admits the facts and answers them with decision [d]. *)
Definition grants (p : PreparedAuthority) (f : OutboxDispatchFacts) (d : uuid) : Prop :=
  pa_prepared p f = true ∧ allowed p f d.

(** A decision no stored attempt carries in the given column. *)
Definition fresh_in (f : OutboxDeliveryAttempt → option uuid) (db : Db) (d : uuid) : Prop :=
  ∀ k a, db_attempts db !! k = Some a → f a ≠ Some d.

(** A row that differs from a stored one only by one fresh decision stays unique. *)
Lemma decisions_unique_kept db k a a' f d :
  intact db → db_attempts db !! k = Some a → at_key a' = k → fresh_in f db d → f a' = Some d →
  (∀ g, g ∈ decision_columns → g = f ∨ g a' = g a) → decisions_unique db a' = true.
Proof.
  intros Hi Ha Hk Hf Hd Hother.
  assert (∀ g, g ∈ decision_columns → unique_column g db a' = true) as Hu.
  { intros g Hg. apply unique_column_true. intros k2 b Hb Hne.
    destruct (Hother g Hg) as [->|Eg].
    - right. rewrite Hd. by apply (Hf _ _ Hb).
    - destruct (g b) as [x|] eqn:Hx; [|by left]. right. rewrite Eg. intros Ex.
      apply Hne. rewrite Hk. by apply (it_distinct _ Hi g Hg k2 k b a x). }
  unfold decisions_unique. rewrite !Hu; [done|set_solver..].
Qed.

Lemma claim_commit_succeeds p t c db e d :
  sound db → intact db → db_events db !! cl_event_id c = Some e →
  ev_project_id e = cl_project_id c → ev_payload_digest e = cl_payload_digest c →
  claimable_state (ev_delivery_state e) = true →
  cl_claim_generation c = ev_claim_generation e + 1 → claim_valid c = true →
  due e (cl_claimed_at c) = true → cl_claimed_at c ≤ rd_locked t →
  rd_locked t < cl_claim_expires_at c → rd_write t < cl_claim_expires_at c →
  grants p (facts_of c PH_CLAIM None) d →
  fresh_in (Some ∘ at_claim_decision_event_id) db d →
  ∃ db', claim_commit p t c db = Ok (Some c, db').
Proof.
  intros [Hk Hcu] Hi He Hp Hdig Hs Hg Hv Hdue Ht1 Ht2 Ht3 [Hpr Hal] Hf.
  destruct (cu_event _ Hcu _ _ He) as [Hid Hc].
  assert (due e (rd_locked t) = true) as Hdue'.
  { unfold due in *. destruct (ev_next_attempt_at e); [lia|done]. }
  assert (ev_finalized_at e = None) as Hfin.
  { pose proof (ec_current _ _ Hc) as Hcur. unfold current_custody in Hcur.
    destruct (ev_delivery_state e); try done; [naive_solver|].
    destruct Hcur as (a & o & _ & _ & (_ & _ & _ & _ & Hcl) & _ & _ & Es & _ & _ & ->).
    rewrite decide_True in Hcl by done. apply Hcl. }
  assert (db_attempts db !! (cl_event_id c, cl_claim_generation c) = None) as Hnone.
  { destruct (db_attempts db !! _) as [a|] eqn:Ha; [|done].
    assert (1 ≤ cl_claim_generation c ≤ ev_claim_generation e) by (apply (ec_dom _ _ Hc); eauto).
    lia. }
  assert (event_checks (claimed_event e c) = true) as Hec.
  { apply claimed_event_checks; try done; [by apply (it_event _ Hi _ _ He)|apply (ec_open _ _ Hc)]. }
  unfold claim_commit. rewrite (proj2 (facts_Ok c PH_CLAIM None _)) by
    (split; [reflexivity|by apply claim_facts_valid]). run. rewrite Hpr. run.
  rewrite (proj2 (event_Some _ _ _ e)) by done.
  rewrite Hs, Hdig, str_eqb_refl, Hdue', (proj2 (Z.eqb_eq _ _)) by lia. run.
  rewrite (proj2 (Z.leb_gt _ _)) by done. rewrite (proj2 (consume_allow_Ok _ _ d)) by done.
  run. rewrite (proj2 (Z.leb_gt _ _)) by done. run.
  rewrite update_event_succeeds by done. run.
  rewrite insert_attempt_succeeds; [run; eauto|exact Hnone| |by apply claimed_attempt_checks|].
  - cbn. rewrite Hid, lookup_insert_eq. eauto.
  - change (decisions_unique db (claimed_attempt c d) = true). unfold decisions_unique.
    rewrite !andb_true_iff. split_and!; apply unique_column_true; cbn; intros k b Hb _.
    + right. exact (Hf _ _ Hb).
    + destruct (at_invoke_decision_event_id b); [by right|by left].
    + destruct (at_finalize_decision_event_id b); [by right|by left].
Qed.

Lemma begin_invocation_succeeds E p t c db e a d :
  sound db → intact db → db_events db !! cl_event_id c = Some e → matches_event e c = true →
  db_attempts db !! (cl_event_id c, cl_claim_generation c) = Some a → attempt_claim a = c →
  at_stage a = ST_claimed → rd_locked t < cl_claim_expires_at c →
  cl_claimed_at c ≤ rd_write t < cl_claim_expires_at c →
  registered (eg_registry E) (ev_event_type e) (ev_event_version e) = true →
  grants p (facts_of c PH_INVOKE None) d → fresh_in at_invoke_decision_event_id db d →
  ∃ db', _begin_invocation E p t c db = Ok (Some (envelope_of e c), db').
Proof.
  intros [Hk Hcu] Hi He Hm Ha Hac Hst Ht1 Ht2 Hreg [Hpr Hal] Hf.
  destruct (cu_event _ Hcu _ _ He) as [Hid Hc].
  destruct (ec_bind _ _ Hc _ _ Ha) as (_ & _ & B3 & B4 & _ & B6 & _ & Hwf).
  rewrite Hst in Hwf. destruct Hwf as (W1 & W2 & W3 & W4 & W5).
  pose proof (proj1 (matches_event_true _ _) Hm) as (_ & _ & M3 & M4 & _).
  unfold _begin_invocation, _checked_claim. assert (claim_valid c = true) as Hv by congruence.
  rewrite Hv. run.
  rewrite (proj2 (facts_Ok c PH_INVOKE None _)) by
    (split; [reflexivity|by apply claim_facts_valid]). run. rewrite Hpr. run.
  rewrite (proj2 (event_Some _ _ _ e)) by done.
  rewrite (proj2 (attempt_Some _ _ a)) by (split; congruence). rewrite Hm. run.
  unfold claim_from_attempt. rewrite (proj2 (new_claim_Ok _ c)) by (split; congruence). run.
  rewrite Hreg, Hst, (proj2 (Z.leb_gt _ _)) by lia.
  rewrite !bool_decide_eq_true_2 by done. run.
  rewrite (proj2 (it_event _ Hi _ _ He)), M4. run. rewrite str_eqb_refl. run.
  rewrite (proj2 (consume_allow_Ok _ _ d)) by done. run.
  rewrite (proj2 (Z.leb_gt _ _)) by lia. run.
  rewrite update_attempt_succeeds; [run; eauto| |].
  - apply invoked_attempt_checks; try done. rewrite <- Hac in Ht2. exact Ht2.
  - eapply (decisions_unique_kept _ _ a _ at_invoke_decision_event_id d Hi Ha); try done.
    + rewrite <- Hac. done.
    + intros g Hg. unfold decision_columns in Hg. rewrite !elem_of_cons in Hg.
      destruct Hg as [->|[->|[->|Hg]]]; [by right|by left|by right|by apply elem_of_nil in Hg].
Qed.

Lemma finalize_succeeds E p t c cause now db e a o r d :
  sound db → intact db → options_valid (options_of E e) = true →
  db_events db !! cl_event_id c = Some e → matches_event e c = true →
  db_attempts db !! (cl_event_id c, cl_claim_generation c) = Some a → attempt_claim a = c →
  at_stage a ≠ ST_completed →
  _outcome c (at_invoked_at a) cause now (options_of E e) (retry_unknown_of E e) = Ok o →
  receipt_of c o = Ok r → instant_ok now = true → cl_claimed_at c ≤ now ≤ rd_locked t →
  (∀ i, at_invoked_at a = Some i → i ≤ now) →
  crossed_expiry now (cl_claim_expires_at c) (rd_locked t) = false →
  crossed_expiry now (cl_claim_expires_at c) (rd_write t) = false →
  grants p (facts_of c PH_FINALIZE (Some (rc_outcome_digest r))) d →
  fresh_in at_finalize_decision_event_id db d →
  ∃ db', _finalize E p t r cause db = Ok (r, db') ∧
    db_events db' !! cl_event_id c = Some (finalized_event e (oc_delivery_state o)
      (oc_error_code o) (oc_next_attempt_at o) (oc_finalized_at o)).
Proof.
  intros [Hk Hcu] Hi Hopt He Hm Ha Hac Hst Ho Hr Hok [Ht1 Ht2] Hinv Hx1 Hx2 [Hpr Hal] Hf.
  destruct (cu_event _ Hcu _ _ He) as [Hid Hc].
  destruct (ec_bind _ _ Hc _ _ Ha) as (_ & _ & B3 & B4 & _ & B6 & B7).
  pose proof (proj1 (matches_event_true _ _) Hm) as (M1 & M2 & M3 & M4 & M5 & M6 & M7 & M8).
  pose proof (proj1 (receipt_of_Ok _ _ _) Hr) as (R1 & R2 & R3).
  assert (claim_valid c = true) as Hv by congruence.
  assert (1 ≤ cl_claim_generation c) as Hg by (apply claim_valid_fields in Hv; lia).
  assert (outcome_ok o) as Hoo.
  { eapply outcome_case_ok; [by apply outcome_cases|done|apply B7]. }
  destruct (outcome_completed _ _ _ _ _ _ _ Ho) as [Hnow Hoi]. subst now.
  destruct (encoded_outcome_reads o Hoo) as [D1 D2 D3 D4 D5 D6].
  assert (ev_last_attempt_at e = Some (cl_claimed_at c)) as Hla.
  { pose proof (ec_current _ _ Hc) as Hcur. unfold current_custody in Hcur. rewrite M1, M5 in Hcur.
    destruct Hcur as (a' & Ha' & _ & _ & _ & _ & Hl & _).
    assert (a' = a) as -> by congruence. by rewrite <- Hac. }
  pose proof (ec_gen _ _ Hc) as [_ Hcnt].
  assert (event_checks (finalized_event e (oc_delivery_state o) (oc_error_code o)
    (oc_next_attempt_at o) (oc_finalized_at o)) = true) as Hec.
  { eapply finalized_event_checks; try done; [by apply (it_event _ Hi _ _ He)|lia|].
    apply (ec_open _ _ Hc). }
  unfold _finalize, _checked_claim. rewrite R1, Hv. run.
  rewrite (proj2 (facts_Ok c PH_FINALIZE _ _)) by (split; [reflexivity|];
    apply final_facts_valid; [done|by eapply canonical_json_hash_pattern]). run.
  rewrite Hpr. run.
  rewrite (proj2 (event_Some _ _ _ e)) by done. run.
  rewrite (proj2 (attempt_Some _ _ a)) by (split; congruence). run.
  unfold claim_from_attempt. rewrite (proj2 (new_claim_Ok _ c)) by (split; congruence). run.
  rewrite bool_decide_eq_true_2 by done. run. rewrite decide_False by done.
  rewrite (proj2 (Z.eqb_eq _ _) M5), Hm. run. rewrite R2, D1, bind_oget, D2, bind_Ok.
  rewrite Ho, bind_Ok. rewrite (proj2 (Z.ltb_ge _ _)) by done. rewrite str_eqb_refl, Hx1.
  rewrite bool_decide_eq_true_2 by done. run.
  rewrite (proj2 (consume_allow_Ok _ _ d)) by done. run. rewrite Hx2. run.
  rewrite D3, bind_Ok, D4, bind_Ok, D5, bind_Ok, D6, bind_Ok.
  rewrite update_attempt_succeeds.
  - rewrite bind_Ok. rewrite update_event_succeeds by done. run. eexists. split; [reflexivity|].
    cbn. rewrite M2. apply lookup_insert_eq.
  - eapply completed_attempt_checks; try done; try (rewrite Hac; done).
    + by eapply it_attempt.
    + rewrite <- Hac in Ht1. exact Ht1.
  - eapply (decisions_unique_kept _ _ a _ at_finalize_decision_event_id d Hi Ha); try done.
    + rewrite <- Hac. done.
    + intros g Hgc. unfold decision_columns in Hgc. rewrite !elem_of_cons in Hgc.
      destruct Hgc as [->|[->|[->|Hgc]]]; [by right|by right|by left|by apply elem_of_nil in Hgc].
Qed.

(** ** Whole operations *)

Lemma finalize_read_open E db now c cause e a o r :
  claim_valid c = true → db_events db !! cl_event_id c = Some e → ev_project_id e = cl_project_id c →
  db_attempts db !! (cl_event_id c, cl_claim_generation c) = Some a → attempt_claim a = c →
  at_stage a ≠ ST_completed →
  _outcome c (at_invoked_at a) cause now (options_of E e) (retry_unknown_of E e) = Ok o →
  receipt_of c o = Ok r →
  finalize_read E db now c cause =
    Ok {| pl_receipt := r; pl_invoked_at := at_invoked_at a; pl_options := options_of E e;
          pl_retry_unknown := retry_unknown_of E e |}.
Proof.
  intros Hv He Hp Ha Hc Hs Ho Hr. unfold finalize_read, _checked_claim. rewrite Hv. run.
  rewrite (proj2 (event_Some _ _ _ e)) by done. run.
  assert (at_project_id a = cl_project_id c) as Hap by (by rewrite <- Hc).
  rewrite (proj2 (attempt_Some _ _ a)) by done. run.
  unfold claim_from_attempt. rewrite (proj2 (new_claim_Ok _ c)) by (split; congruence). run.
  rewrite bool_decide_eq_true_2 by done. run. rewrite decide_False by done. run.
  rewrite Ho, bind_Ok, Hr, bind_Ok. done.
Qed.

Lemma receipt_exists c o :
  outcome_ok o → ∃ r, receipt_of c o = Ok r.
Proof.
  intros Ho. destruct (canonical_json_hash (outcome_value o)) as [d|] eqn:Hd.
  - eexists {| rc_claim := c; rc_outcome_json := _; rc_outcome_digest := d |}.
    apply receipt_of_Ok. split_and!; [reflexivity|reflexivity|exact Hd].
  - exfalso. unfold canonical_json_hash in Hd.
    destruct (outcome_value_encodable o Ho) as [b Hb]. rewrite Hb in Hd. done.
Qed.

(** [finalize] run alone on an open attempt commits the outcome of its cause. *)
Lemma finalize_op_succeeds E p t c cause db e a o d :
  sound db → intact db → options_valid (options_of E e) = true →
  db_events db !! cl_event_id c = Some e → matches_event e c = true →
  db_attempts db !! (cl_event_id c, cl_claim_generation c) = Some a → attempt_claim a = c →
  at_stage a ≠ ST_completed →
  _outcome c (at_invoked_at a) cause (fr_read t) (options_of E e) (retry_unknown_of E e) = Ok o →
  instant_ok (fr_read t) = true →
  cl_claimed_at c ≤ fr_read t ≤ rd_locked (fr_first t) →
  (∀ i, at_invoked_at a = Some i → i ≤ fr_read t) →
  crossed_expiry (fr_read t) (cl_claim_expires_at c) (rd_locked (fr_first t)) = false →
  crossed_expiry (fr_read t) (cl_claim_expires_at c) (rd_write (fr_first t)) = false →
  (∀ dg, grants p (facts_of c PH_FINALIZE (Some dg)) d) →
  fresh_in at_finalize_decision_event_id db d →
  ∃ db' r, finalize E p t c cause db = (db', Ok r) ∧ rc_claim r = c ∧
    rc_outcome_json r = _encode (outcome_value o) ∧
    db_events db' !! cl_event_id c = Some (finalized_event e (oc_delivery_state o)
      (oc_error_code o) (oc_next_attempt_at o) (oc_finalized_at o)).
Proof.
  intros Hs Hi Hopt He Hm Ha Hac Hst Ho Hok Ht Hinv Hx1 Hx2 Hg Hf.
  destruct Hs as [Hk Hcu]. destruct (cu_event _ Hcu _ _ He) as [Hid Hc].
  destruct (ec_bind _ _ Hc _ _ Ha) as (_ & _ & B3 & _ & _ & B6 & B7).
  destruct (receipt_exists c o) as [r Hr].
  { eapply outcome_case_ok; [by apply outcome_cases|done|apply B7]. }
  destruct (finalize_succeeds E p (fr_first t) c cause (fr_read t) db e a o r d)
    as (db' & Hfin & Hev); try done.
  exists db', r. unfold finalize.
  rewrite (finalize_read_open E db (fr_read t) c cause e a o r) by
    (done || congruence || (apply matches_event_true in Hm; naive_solver)).
  cbn [pl_receipt]. rewrite Hfin. cbn [commit].
  apply receipt_of_Ok in Hr as (R1 & R2 & _). done.
Qed.

(** A port that answers each phase with its own decision. *)
Definition grants_phases (p : PreparedAuthority) (d1 d2 d3 : uuid) : Prop :=
  ∀ f, grants p f (match fx_phase f with PH_CLAIM => d1 | PH_INVOKE => d2 | PH_FINALIZE => d3 end).

(** The readings of one delivery, in order and within the lease taken at [dt_claim]. *)
Record in_lease (t : DeliverReadings) (lease : Z) : Prop := {
  il_start : instant_ok (dt_claim t) = true;
  il_end : instant_ok (dt_claim t + lease * us_per_second) = true;
  il_claim : dt_claim t ≤ rd_locked (dt_claim_commit t) < dt_claim t + lease * us_per_second;
  il_claim_write : rd_write (dt_claim_commit t) < dt_claim t + lease * us_per_second;
  il_invoke : rd_locked (dt_invoke t) < dt_claim t + lease * us_per_second;
  il_invoke_write : dt_claim t ≤ rd_write (dt_invoke t) ≤ fr_read (dt_final t);
  il_final : fr_read (dt_final t) ≤ rd_locked (fr_first (dt_final t));
  il_final_end : rd_locked (fr_first (dt_final t)) < dt_claim t + lease * us_per_second ∧
                 rd_write (fr_first (dt_final t)) < dt_claim t + lease * us_per_second;
}.

Lemma propose_due E db now id pid owner e :
  event_keys_ok db → intact db → db_events db !! id = Some e → ev_project_id e = pid →
  registered (eg_registry E) (ev_event_type e) (ev_event_version e) = true →
  claimable_state (ev_delivery_state e) = true → due e now = true →
  0 ≤ ev_claim_generation e < max_attempts (options_of E e) →
  options_valid (options_of E e) = true → owner_pattern owner = true →
  instant_ok (now + lease_seconds (options_of E e) * us_per_second) = true →
  claim_propose E db now id pid owner =
    Ok (Some {| cl_event_id := id; cl_project_id := pid; cl_payload_digest := ev_payload_digest e;
                cl_claim_generation := ev_claim_generation e + 1; cl_claim_owner := owner;
                cl_claimed_at := now;
                cl_claim_expires_at := now + lease_seconds (options_of E e) * us_per_second |}).
Proof.
  intros Hk Hi He Hp Hreg Hs Hd Hg Hopt Ho Hok. unfold claim_propose.
  rewrite (proj2 (event_Some _ _ _ e)) by done. cbv zeta. rewrite Hreg, Hs, Hd. run.
  rewrite (proj2 (Z.leb_gt _ _)) by lia.
  rewrite (proj2 (add_seconds_Some _ _ _)) by (split; [reflexivity|done]). run.
  rewrite (ko_id _ Hk _ _ He). pose proof (options_valid_bounds _ Hopt) as Hob.
  unfold new_claim.
  match goal with |- context [claim_valid ?c] => assert (claim_valid c = true) as Hv end;
    [|rewrite Hv; reflexivity].
  apply claim_valid_fields. cbn.
  pose proof (it_event _ Hi _ _ He) as [Hc _]. apply event_checks_parts in Hc as (Hc & _).
  unfold envelope_checks in Hc. rewrite !andb_true_iff in Hc. destruct_and!.
  unfold us_per_second. split_and!; try done; lia.
Qed.

Lemma ack_outcome c i now opts ru :
  now < cl_claim_expires_at c →
  _outcome c (Some i) FC_ACKNOWLEDGE now opts ru =
    Ok {| oc_delivery_state := DS_acknowledged; oc_error_code := None; oc_next_attempt_at := None;
          oc_finalized_at := Some now; oc_receipt_completed_at := now;
          oc_invocation_unknown := false; oc_invoked_at := Some i |}.
Proof. intros H. unfold _outcome. rewrite (proj2 (Z.leb_gt _ _)) by done. reflexivity. Qed.

Section Stages.
Context (E : Engine) (fold_wide : Z → str) (project_exists : uuid → bool).
Local Abbreviation reachable := (reachable E fold_wide project_exists).

Lemma fresh_insert f db evs k a d :
  fresh_in f db d → f a ≠ Some d →
  fresh_in f {| db_events := evs; db_attempts := <[k := a]> (db_attempts db) |} d.
Proof.
  intros Hf Ha k2 b. cbn. rewrite lookup_insert_Some. intros [[<- <-]|[_ Hb]]; [done|].
  by eapply Hf.
Qed.

(** The claim stage leaves a reachable state that holds the new lease. *)
Lemma claim_stage s p read t id pid owner e d1 :
  reachable s → options_valid (options_of E e) = true →
  db_events (sy_db s) !! id = Some e → ev_project_id e = pid →
  registered (eg_registry E) (ev_event_type e) (ev_event_version e) = true →
  claimable_state (ev_delivery_state e) = true → due e read = true →
  ev_claim_generation e < max_attempts (options_of E e) → owner_pattern owner = true →
  let expires := read + lease_seconds (options_of E e) * us_per_second in
  instant_ok expires = true → read ≤ rd_locked t < expires → rd_write t < expires →
  (∀ c, grants p (facts_of c PH_CLAIM None) d1) →
  fresh_in (Some ∘ at_claim_decision_event_id) (sy_db s) d1 →
  ∃ c db', claim E p read t id pid owner (sy_db s) = (db', Ok (Some c)) ∧
    claim_valid c = true ∧ cl_event_id c = id ∧ cl_project_id c = pid ∧
    cl_claim_generation c = ev_claim_generation e + 1 ∧ cl_claimed_at c = read ∧
    cl_claim_expires_at c = expires ∧ cl_payload_digest c = ev_payload_digest e ∧
    db' = {| db_events := <[id := claimed_event e c]> (db_events (sy_db s));
             db_attempts := <[(id, ev_claim_generation e + 1) := claimed_attempt c d1]>
                              (db_attempts (sy_db s)) |} ∧
    ∃ s', reachable s' ∧ sy_db s' = db'.
Proof.
  intros Hr Hopt He Hp Hreg Hcs Hdue Hgm Hown expires Hok Ht1 Ht2 Hgr Hf.
  destruct (reachable_sound _ _ _ _ Hr) as [Hk Hcu]. pose proof (reachable_intact _ _ _ _ Hr) as Hi.
  destruct (cu_event _ Hcu _ _ He) as [Hid Hc]. pose proof (ec_gen _ _ Hc) as [Hg0 _].
  pose proof (propose_due E (sy_db s) read id pid owner e Hk Hi He Hp Hreg Hcs Hdue
    ltac:(lia) Hopt Hown Hok) as Hprop.
  set (c := Build_OutboxClaim _ _ _ _ _ _ _) in Hprop.
  destruct (claim_propose_Ok _ _ _ _ _ _ _ Hprop) as (x0 & _ & _ & _ & _ & _ & _ & Hv & _).
  destruct (claim_commit_succeeds p t c (sy_db s) e d1)
    as [db1 Hc1]; try done; [cbn; lia|cbn; lia|].
  destruct (claim_commit_Ok _ _ _ _ _ _ Hc1) as [[? _]|(_ & e' & d' & Hw)]; [done|].
  pose proof (cw_event _ _ _ _ _ _ _ Hw) as He'. cbn [cl_event_id c] in He'.
  assert (e' = e) as -> by congruence.
  assert (d' = d1) as ->.
  { destruct (cw_allowed _ _ _ _ _ _ _ Hw) as (x & Hx & <- & _).
    destruct (Hgr c) as [_ (y & Hy & <- & _)]. congruence. }
  exists c, db1. split; [unfold claim; rewrite Hprop, Hc1; done|].
  split_and!; try done.
  - rewrite (cw_db _ _ _ _ _ _ _ Hw), Hid. done.
  - exists {| sy_db := db1; sy_claims := c :: sy_claims s; sy_log := sy_log s |}.
    split; [|done]. apply (rtc_reachable _ _ _ s); [done|].
    eapply rtc_l; [by eapply step_propose|]. apply rtc_once.
    apply (step_claim _ _ _ (Build_Sys (sy_db s) (c :: sy_claims s) (sy_log s)) p t c (Some c));
      [apply elem_of_cons; by left|exact Hc1].
Qed.

Lemma invoke_stage s p t c e a d2 :
  reachable s → db_events (sy_db s) !! cl_event_id c = Some e → matches_event e c = true →
  db_attempts (sy_db s) !! (cl_event_id c, cl_claim_generation c) = Some a →
  attempt_claim a = c → at_stage a = ST_claimed → rd_locked t < cl_claim_expires_at c →
  cl_claimed_at c ≤ rd_write t < cl_claim_expires_at c → instant_ok (rd_write t) = true →
  registered (eg_registry E) (ev_event_type e) (ev_event_version e) = true →
  grants p (facts_of c PH_INVOKE None) d2 →
  fresh_in at_invoke_decision_event_id (sy_db s) d2 →
  ∃ db', _begin_invocation E p t c (sy_db s) = Ok (Some (envelope_of e c), db') ∧
    db' = set_attempts <[(cl_event_id c, cl_claim_generation c)
                         := invoked_attempt a (rd_write t) d2]> (sy_db s) ∧
    ∃ s', reachable s' ∧ sy_db s' = db'.
Proof.
  intros Hr He Hm Ha Hac Hst Ht1 Ht2 Hok Hreg Hgr Hf.
  destruct (begin_invocation_succeeds E p t c (sy_db s) e a d2
    (reachable_sound _ _ _ _ Hr) (reachable_intact _ _ _ _ Hr)) as [db' Hb]; try done.
  exists db'. split; [done|].
  destruct (begin_invocation_Ok _ _ _ _ _ _ _ Hb) as [[? _]|(e' & a' & d' & _ & Hw)]; [done|].
  assert (a' = a) as -> by (pose proof (iw_attempt _ _ _ _ _ _ _ _ _ Hw); congruence).
  assert (d' = d2) as ->.
  { destruct (iw_allowed _ _ _ _ _ _ _ _ _ Hw) as (x & Hx & <- & _).
    destruct Hgr as [_ (y & Hy & <- & _)]. congruence. }
  split; [apply (iw_db _ _ _ _ _ _ _ _ _ Hw)|].
  exists (Build_Sys db' (sy_claims s) ((cl_event_id c, cl_claim_generation c) :: sy_log s)).
  split; [|done]. apply (rtc_reachable _ _ _ s); [done|].
  apply rtc_once. eapply step_invoke; [|exact Hb]. done.
Qed.
End Stages.

(** C22. A due event is delivered: in any reachable state, a worker with a valid owner name
    whose phases are authorized with fresh decisions, whose readings stay within the lease and
    whose handler acknowledges in time, takes a registered event that still has attempts left
    from the queue to a stored acknowledgement of the next generation, in one [deliver]. *)
Theorem deliver_acknowledges g o eo E fold_wide project_exists s p t h id pid owner e d1 d2 d3 :
  new_engine g o eo = Ok E → reachable E fold_wide project_exists s →
  db_events (sy_db s) !! id = Some e → ev_project_id e = pid →
  registered (eg_registry E) (ev_event_type e) (ev_event_version e) = true →
  claimable_state (ev_delivery_state e) = true → due e (dt_claim t) = true →
  ev_claim_generation e < max_attempts (options_of E e) → owner_pattern owner = true →
  in_lease t (lease_seconds (options_of E e)) → instant_ok (rd_write (dt_invoke t)) = true →
  instant_ok (fr_read (dt_final t)) = true →
  grants_phases p d1 d2 d3 → fresh_in (Some ∘ at_claim_decision_event_id) (sy_db s) d1 →
  fresh_in at_invoke_decision_event_id (sy_db s) d2 →
  fresh_in at_finalize_decision_event_id (sy_db s) d3 →
  handler_cause h = FC_ACKNOWLEDGE →
  ∃ db' r, deliver E p t (Some h) id pid owner (sy_db s) = (db', Ok (Some r)) ∧
    cl_event_id (rc_claim r) = id ∧
    cl_claim_generation (rc_claim r) = ev_claim_generation e + 1 ∧
    abs_event db' id = Some (Closed (ev_claim_generation e + 1) DS_acknowledged).
Proof.
  intros HE Hr He Hp Hreg Hcs Hdue Hgm Hown [L1 L2 L3 L4 L5 L6 L7 [L8 L9]] Hok1 Hok2 Hgr F1 F2 F3 Hh.
  pose proof (new_engine_options _ _ _ _ e HE) as Hopt.
  destruct (claim_stage E fold_wide project_exists s p (dt_claim t) (dt_claim_commit t) id pid owner
    e d1) as (c & db1 & Hclaim & Hv & C1 & C2 & C3 & C4 & C5 & C6 & Edb1 & s1 & Hr1 & Es1);
    try done.
  assert (db_events (sy_db s1) !! cl_event_id c = Some (claimed_event e c)) as He1
    by (rewrite Es1, Edb1, C1; apply lookup_insert_eq).
  assert (db_attempts (sy_db s1) !! (cl_event_id c, cl_claim_generation c)
          = Some (claimed_attempt c d1)) as Ha1
    by (rewrite Es1, Edb1, C1, C3; apply lookup_insert_eq).
  assert (matches_event (claimed_event e c) c = true) as Hm1.
  { apply matches_event_true. cbn. destruct (cu_event _ (proj2 (reachable_sound _ _ _ _ Hr)) _ _ He).
    split_and!; congruence. }
  destruct (invoke_stage E fold_wide project_exists s1 p (dt_invoke t) c (claimed_event e c)
    (claimed_attempt c d1) d2) as (db2 & Hinv & Edb2 & s2 & Hr2 & Es2); try done; [by destruct c|lia|lia|
    rewrite Es1, Edb1; by apply fresh_insert|].
  assert (db_events (sy_db s2) !! cl_event_id c = Some (claimed_event e c)) as He2
    by (rewrite Es2, Edb2; exact He1).
  set (a2 := invoked_attempt (claimed_attempt c d1) (rd_write (dt_invoke t)) d2) in Edb2.
  assert (db_attempts (sy_db s2) !! (cl_event_id c, cl_claim_generation c) = Some a2) as Ha2
    by (rewrite Es2, Edb2; apply lookup_insert_eq).
  assert (fr_read (dt_final t) < cl_claim_expires_at c) as Hlt by lia.
  destruct (finalize_op_succeeds E p (dt_final t) c FC_ACKNOWLEDGE (sy_db s2) (claimed_event e c) a2 _ d3
    (reachable_sound _ _ _ _ Hr2) (reachable_intact _ _ _ _ Hr2) Hopt He2 Hm1 Ha2
    ltac:(by destruct c) ltac:(done)
    (ack_outcome c (rd_write (dt_invoke t)) _ _ _ Hlt)) as (db3 & r & Hfin & R1 & _ & He3);
    try done.
  { lia. }
  { intros i [= <-]. lia. }
  { unfold crossed_expiry. lia. }
  { unfold crossed_expiry. lia. }
  { rewrite Es2, Edb2. unfold set_attempts. apply fresh_insert; [|done].
    rewrite Es1, Edb1. by apply fresh_insert. }
  exists db3, r. split_and!; [|congruence|congruence|].
  - unfold deliver, recover. rewrite (proj2 (event_Some _ _ _ e)) by done.
    rewrite bool_decide_eq_false_2 by (intros Hx; by rewrite Hx in Hcs). cbn [negb orb].
    rewrite Hclaim. unfold invoke. rewrite <- Es1, Hinv, Hh, <- Es2, Hfin. done.
  - unfold abs_event. rewrite <- C1, He3. cbn. by rewrite C3.
Qed.

Lemma expired_outcome c inv now opts ru :
  options_valid opts = true → 1 ≤ cl_claim_generation c → cl_claim_expires_at c ≤ now →
  0 ≤ now → instant_ok (now + us_per_day) = true →
  ∃ o, _outcome c inv FC_EXPIRED now opts ru = Ok o ∧
    oc_delivery_state o =
      if (cl_claim_generation c <? max_attempts opts) && (negb (is_some inv) || ru)
      then DS_retryable else DS_dead_letter.
Proof.
  intros Ho Hg He Hn Hok. pose proof (backoff_bounds opts _ Ho Hg) as Hb.
  pose proof (options_valid_bounds _ Ho) as Hob.
  assert (∃ r, add_seconds now (backoff opts (cl_claim_generation c)) = Some r) as [r Hr].
  { eexists. apply add_seconds_Some. split; [reflexivity|].
    unfold instant_ok, us_per_day, us_per_second in *. lia. }
  unfold _outcome. rewrite (proj2 (Z.leb_le _ _)), Hr by done.
  destruct inv as [i|]; cbn.
  - destruct ru, (cl_claim_generation c <? max_attempts opts); cbn; eauto.
  - destruct (Z.leb_spec (max_attempts opts) (cl_claim_generation c));
      destruct (Z.ltb_spec (cl_claim_generation c) (max_attempts opts)); try lia; cbn; eauto.
Qed.

(** Expired custody is released: in any reachable state, [recover] on a claimed event whose
    lease has run out commits a receipt; the event returns to the queue exactly when attempts
    are left and it was never handed to a handler (or its handler is registered replay safe),
    and is dead-lettered otherwise, so an unknown effect is never silently repeated. *)
Theorem recover_releases g o eo E fold_wide project_exists s p read t id pid e a d3 :
  new_engine g o eo = Ok E → reachable E fold_wide project_exists s →
  db_events (sy_db s) !! id = Some e → ev_project_id e = pid →
  ev_delivery_state e = DS_claimed → lease_expired e read = true →
  db_attempts (sy_db s) !! (id, ev_claim_generation e) = Some a →
  read ≤ fr_read t ≤ rd_locked (fr_first t) → instant_ok (fr_read t) = true →
  instant_ok (fr_read t + us_per_day) = true →
  (∀ c dg, grants p (facts_of c PH_FINALIZE (Some dg)) d3) →
  fresh_in at_finalize_decision_event_id (sy_db s) d3 →
  ∃ db' r, recover E p read t id pid (sy_db s) = (db', Ok (Some r)) ∧
    rc_claim r = attempt_claim a ∧
    abs_event db' id =
      if (ev_claim_generation e <? max_attempts (options_of E e))
         && (negb (is_some (at_invoked_at a)) || retry_unknown_of E e)
      then Some (Idle (ev_claim_generation e))
      else Some (Closed (ev_claim_generation e) DS_dead_letter).
Proof.
  intros HE Hr He Hp Hs Hexp Ha Ht Hok Hok2 Hgr Hf.
  pose proof (new_engine_options _ _ _ _ e HE) as Hopt.
  pose proof (reachable_sound _ _ _ _ Hr) as [Hk Hcu]. destruct (cu_event _ Hcu _ _ He) as [Hid Hc].
  destruct (ec_bind _ _ Hc _ _ Ha) as (B1 & B2 & B3 & B4 & B5 & B6 & B7).
  pose proof (ec_current _ _ Hc) as Hcur. unfold current_custody in Hcur. rewrite Hs in Hcur.
  destruct Hcur as (a' & Ha' & Hst & Q1 & Q2 & Q3 & Q4 & _). assert (a' = a) as -> by congruence.
  unfold lease_expired in Hexp. rewrite Q3 in Hexp.
  set (c := attempt_claim a). assert (1 ≤ cl_claim_generation c) as Hg
    by (apply claim_valid_fields in B6; cbn; cbn in B6; lia).
  assert (0 ≤ fr_read t) as Hn by (unfold instant_ok in Hok; lia).
  assert (cl_claim_expires_at c ≤ fr_read t) as Hle by (cbn; lia).
  destruct (expired_outcome c (at_invoked_at a) (fr_read t) (options_of E e) (retry_unknown_of E e)
    Hopt Hg Hle Hn Hok2) as (o' & Ho & Hstate).
  assert (matches_event e c = true) as Hm.
  { apply matches_event_true. cbn. split_and!; congruence. }
  assert (cl_event_id c = id ∧ cl_claim_generation c = ev_claim_generation e) as [E1 E2]
    by (cbn; split; congruence).
  assert (cl_claimed_at c < cl_claim_expires_at c) as Hlt by (apply claim_valid_fields in B6; cbn in *; lia).
  destruct (finalize_op_succeeds E p t c FC_EXPIRED (sy_db s) e a o' d3)
    as (db' & r & Hfin & R1 & _ & He'); try done;
    [by apply (reachable_intact _ _ _ _ Hr)|congruence|congruence|lia| | | |].
  - intros i Hi. destruct (invoked_in_lease _ _ (it_attempt _ (reachable_intact _ _ _ _ Hr) _ _ Ha) Hi). cbn in *. lia.
  - unfold crossed_expiry. lia.
  - unfold crossed_expiry. lia.
  - exists db', r. split_and!; [|done|].
    + unfold recover. rewrite (proj2 (event_Some _ _ _ e)) by done.
      rewrite bool_decide_eq_true_2 by done. unfold lease_expired. rewrite Q3, Hexp. cbn [negb orb].
      assert (claim_from_event e = Ok c) as ->; [|by rewrite Hfin].
      unfold claim_from_event. rewrite Q1, Q2, Q3. apply new_claim_Ok.
      assert (attempt_claim a = Build_OutboxClaim (ev_event_id e) (ev_project_id e)
        (ev_payload_digest e) (ev_claim_generation e) (at_claim_owner a) (at_claimed_at a)
        (at_claim_expires_at a)) as Eq by (unfold attempt_claim; f_equal; congruence).
      rewrite <- Eq. done.
    + unfold abs_event. rewrite <- E1, He'. cbn. rewrite Hstate, E2.
      by destruct ((ev_claim_generation e <? max_attempts (options_of E e)) && _).
Qed.

(** ** Concrete runs *)

Definition sample_final : FinalReadings :=
  {| fr_read := sample_now + 40; fr_first := sample_at 50; fr_again := sample_at 60 |}.
Definition sample_readings : DeliverReadings :=
  {| dt_recover := sample_now + 5; dt_recover_final := sample_final;
     dt_claim := sample_now + 10; dt_claim_commit := sample_at 20;
     dt_invoke := sample_at 30; dt_final := sample_final |}.
Definition acknowledged_run : HandlerRun :=
  {| hr_done := true; hr_in_time := true; hr_cancelled := false;
     hr_result := HR_outcome HO_ACKNOWLEDGE |}.

Lemma sample_grants : grants_phases sample_authority 11 12 13.
Proof. intros f. split; [reflexivity|]. eexists. split; [reflexivity|]. split_and!; reflexivity. Defined.

Lemma deliver_acknowledges_witness :
  ∃ db' r, deliver sample_engine sample_authority sample_readings (Some acknowledged_run)
             sample_id 9 (lit "worker-1") appended_db = (db', Ok (Some r)) ∧
    abs_event db' sample_id = Some (Closed 1 DS_acknowledged).
Proof.
  destruct (deliver_acknowledges sample_registry default_options [] sample_engine (λ c, [c])
    (λ _, true) sys_appended sample_authority sample_readings acknowledged_run sample_id 9
    (lit "worker-1") sample_event 11 12 13) as (db' & r & H1 & _ & _ & H2);
    try match goal with |- _ = _ => vm_compute; reflexivity end.
  - exact (rtc_once _ _ sample_appended_step).
  - vm_compute. reflexivity.
  - constructor; vm_compute; repeat split; congruence.
  - exact sample_grants.
  - intros k a Ha. cbn in Ha. by rewrite lookup_empty in Ha.
  - intros k a Ha. cbn in Ha. by rewrite lookup_empty in Ha.
  - intros k a Ha. cbn in Ha. by rewrite lookup_empty in Ha.
  - exists db', r. exact (conj H1 H2).
Defined.

Definition expired_final : FinalReadings :=
  {| fr_read := sample_now + 400 * us_per_second;
     fr_first := sample_at (401 * us_per_second); fr_again := sample_at (402 * us_per_second) |}.

Lemma recover_releases_witness :
  ∃ db' r, recover sample_engine sample_authority (sample_now + 399 * us_per_second) expired_final
             sample_id 9 sample_claimed = (db', Ok (Some r)) ∧
    abs_event db' sample_id = Some (Idle 1).
Proof.
  destruct (recover_releases sample_registry default_options [] sample_engine (λ c, [c])
    (λ _, true) sys_claimed sample_authority (sample_now + 399 * us_per_second) expired_final
    sample_id 9 (claimed_event sample_event sample_claim) (claimed_attempt sample_claim 11) 13)
    as (db' & r & H1 & _ & H2); try match goal with |- _ = _ => vm_compute; reflexivity end.
  - exact sample_claimed_reachable.
  - split; vm_compute; congruence.
  - intros c dg. exact (sample_grants (facts_of c PH_FINALIZE (Some dg))).
  - intros k a. cbn. rewrite lookup_singleton_Some. intros [_ <-]. discriminate.
  - exists db', r. exact (conj H1 H2).
Defined.
