(* ===== verification/OutboxObserve.v ===== *)
(** * Observation of delivery state (modules/outbox/delivery_repository.py)

    The single-statement readers of the two tables: the candidate scan a dispatcher pages
    through, the committed-invocation observer and fence that feature handlers rely on, the
    project drain counters, and the reconciliation readers for deliveries whose outcome is
    unknown.  None of them writes.  Row locks serialize transactions and do not change what
    is read, so [lock] has no counterpart. *)

From stdpp Require Import relations.
From S2P Require Import Prelude Text Digest Json Instant OutboxApi OutboxStore OutboxAppend.
From S2P Require Import OutboxDelivery OutboxOutcome OutboxCustody OutboxSystem OutboxGuarantees.
From S2P Require Import OutboxProgress.

(** ** Candidates *)

Definition is_candidate (g : HandlerRegistry) (now : instant) (e : OutboxEvent) : bool :=
  (claimable_state (ev_delivery_state e) && due e now
   && registered g (ev_event_type e) (ev_event_version e))
  || (bool_decide (ev_delivery_state e = DS_claimed) && lease_expired e now).

Definition after_cursor (after : option uuid) (e : OutboxEvent) : bool :=
  match after with Some x => x <? ev_event_id e | None => true end.

(** The matching rows in [event_id] order. *)
Definition candidate_rows (g : HandlerRegistry) (now : instant) (after : option uuid) (db : Db)
    : list OutboxEvent :=
  List.filter (λ e, is_candidate g now e && after_cursor after e) (events_by_id db).

Definition candidate_of (e : OutboxEvent) : DeliveryCandidate :=
  {| cd_event_id := ev_event_id e; cd_project_id := ev_project_id e |}.

(** [DeliveryRepository.candidates]; [limit] is at least 1 here. *)
Definition candidates_page (g : HandlerRegistry) (now : instant) (after : option uuid)
    (limit : nat) (db : Db) : DeliveryCandidatePage :=
  let rows := take (limit + 1) (candidate_rows g now after db) in
  let items := map candidate_of (take limit rows) in
  {| pg_items := items;
     pg_next_after := if (limit <? length rows)%nat then cd_event_id <$> last items else None |}.

(** [OutboxDelivery.candidates] *)
Definition candidates (E : Engine) (now : instant) (after : option uuid) (limit : Z) (db : Db)
    : result Exn DeliveryCandidatePage :=
  _ ← ensure (in_range 1 500 limit) EX_unavailable;
  Ok (candidates_page (eg_registry E) now after (Z.to_nat limit) db).

(** ** Committed invocations *)

Definition jsonb_eq (v w : json) : bool := bool_decide (canon v = canon w).

(** The join of an event with the attempt of its current generation. *)
Definition current_attempt (db : Db) (e : OutboxEvent) : option OutboxDeliveryAttempt :=
  db_attempts db !! (ev_event_id e, ev_claim_generation e).

Definition observe_row (now : instant) (n : OutboxEventEnvelope) (payload : json)
    (e : OutboxEvent) (a : OutboxDeliveryAttempt) : bool :=
  let c := en_claim n in
  (ev_project_id e =? cl_project_id c)
  && str_eqb (ev_payload_digest e) (cl_payload_digest c)
  && str_eqb (ev_event_type e) (en_event_type n)
  && (ev_event_version e =? en_event_version n)
  && str_eqb (ev_aggregate_type e) (en_aggregate_type n)
  && (ev_aggregate_id e =? en_aggregate_id n)
  && str_eqb (ev_correlation_id e) (en_correlation_id n)
  && bool_decide (ev_causation_event_id e = en_causation_event_id n)
  && str_eqb (ev_idempotency_key e) (en_idempotency_key n)
  && (ev_occurred_at e =? en_occurred_at n)
  && jsonb_eq (ev_payload e) payload
  && bool_decide (ev_delivery_state e = DS_claimed)
  && bool_decide (at_stage a = ST_invoked)
  && bool_decide (at_outcome_json a = None)
  && (ev_claim_generation e =? cl_claim_generation c)
  && bool_decide (ev_claim_owner e = Some (cl_claim_owner c))
  && bool_decide (ev_claimed_at e = Some (cl_claimed_at c))
  && bool_decide (ev_claim_expires_at e = Some (cl_claim_expires_at c))
  && (at_project_id a =? ev_project_id e)
  && str_eqb (at_payload_digest a) (ev_payload_digest e)
  && bool_decide (Some (at_claim_owner a) = ev_claim_owner e)
  && bool_decide (Some (at_claimed_at a) = ev_claimed_at e)
  && bool_decide (Some (at_claim_expires_at a) = ev_claim_expires_at e)
  && match ev_claim_expires_at e with Some t => now <? t | None => false end.

(** [DeliveryRepository.observe] *)
Definition observe (db : Db) (now : instant) (n : OutboxEventEnvelope)
    : option CommittedInvocationObservation :=
  let c := en_claim n in
  if negb (claim_valid c) then None
  else match loads (en_payload_json n) with
  | Some (JObj kvs) =>
      let payload := JObj kvs in
      if negb (str_eqb (dumps payload) (en_payload_json n))
         || negb (bool_decide (canonical_json_hash payload = Some (cl_payload_digest c)))
      then None
      else
        e ← db_events db !! cl_event_id c;
        a ← current_attempt db e;
        if observe_row now n payload e a
        then Some {| ob_claim := c; ob_observed_at := now |} else None
  | _ => None
  end.

(** [DeliveryRepository.fence_invocation]; [root] tells whether the session is in a root
    transaction. *)
Definition fence_invocation (root : bool) (db : Db) (now : instant) (n : OutboxEventEnvelope)
    : result Exn (option CommittedInvocationObservation) :=
  _ ← ensure root EX_unavailable;
  if negb (claim_valid (en_claim n)) then Ok None
  else match event db (cl_event_id (en_claim n)) (cl_project_id (en_claim n)),
             attempt db (en_claim n) with
  | Some _, Some _ => Ok (observe db now n)
  | _, _ => Ok None
  end.

(** ** Drain *)

(** [jsonb_extract_path_text(outcome_json::jsonb, k)] *)
Definition json_text (v : json) : option str :=
  match v with
  | JBool true => Some (lit "true")
  | JBool false => Some (lit "false")
  | JStr s => Some s
  | JInt n => Some (str_int n)
  | JNull => None
  | _ => Some (dumps v)
  end.

Definition outcome_text (a : OutboxDeliveryAttempt) (k : string) : option str :=
  text ← at_outcome_json a; v ← loads text; x ← member (lit k) v; json_text x.

Definition unresolved (a : OutboxDeliveryAttempt) : bool :=
  bool_decide (at_stage a = ST_completed)
  && bool_decide (outcome_text a "invocation_unknown" = Some (lit "true")).

Definition count {A} (f : A → bool) (l : list A) : Z := Z.of_nat (length (List.filter f l)).

(** [DeliveryRepository.drain] *)
Definition drain (g : HandlerRegistry) (now : instant) (project_id : uuid) (db : Db)
    : result Exn DrainObservation :=
  let rows := List.filter (λ e, ev_project_id e =? project_id) (events_by_id db) in
  let has s e := bool_decide (ev_delivery_state e = s) in
  let joined f e := match current_attempt db e with Some a => f a | None => false end in
  let missing e := (0 <? ev_claim_generation e)
                   && match current_attempt db e with None => true | Some _ => false end in
  _ ← ensure (count missing rows =? 0) EX_delivery_persistence;
  Ok {| dr_project_id := project_id; dr_observed_at := now;
        dr_pending := count (has DS_pending) rows;
        dr_claimed := count (has DS_claimed) rows;
        dr_retryable := count (has DS_retryable) rows;
        dr_invoked := count (joined (λ a, bool_decide (at_stage a = ST_invoked))) rows;
        dr_unresolved := count (joined unresolved) rows;
        dr_unsupported :=
          count (λ e, (has DS_pending e || has DS_claimed e || has DS_retryable e)
                      && negb (registered g (ev_event_type e) (ev_event_version e))) rows;
        dr_dead_letter := count (has DS_dead_letter) rows |}.

(** ** Reconciliation of unknown outcomes *)

Definition _child (e : OutboxEvent) : ReconciliationChildObservation :=
  {| ch_event_id := ev_event_id e; ch_payload_digest := ev_payload_digest e;
     ch_payload_json := dumps (ev_payload e); ch_occurred_at := ev_occurred_at e;
     ch_state := match ev_delivery_state e with
                 | DS_pending | DS_retryable => CS_pending
                 | DS_claimed => CS_active
                 | DS_acknowledged => CS_acknowledged
                 | DS_dead_letter =>
                     if decide (ev_last_error_code e = Some (lit "INVOKE_OUTCOME_UNKNOWN"))
                     then CS_unknown else CS_held
                 | DS_cancelled => CS_held
                 end |}.

Definition _envelope (e : OutboxEvent) (a : OutboxDeliveryAttempt) : result Exn OutboxEventEnvelope :=
  c ← claim_from_attempt a; Ok (envelope_of e c).

Definition _unknown_predicate (event_types : list (str * Z)) (e : OutboxEvent)
    (a : OutboxDeliveryAttempt) : bool :=
  selector_in (ev_event_type e, ev_event_version e) event_types
  && bool_decide (ev_delivery_state e = DS_dead_letter)
  && bool_decide (ev_last_error_code e = Some (lit "INVOKE_OUTCOME_UNKNOWN"))
  && is_some (ev_finalized_at e)
  && (at_project_id a =? ev_project_id e)
  && str_eqb (at_payload_digest a) (ev_payload_digest e)
  && bool_decide (at_stage a = ST_completed)
  && bool_decide (outcome_text a "invocation_unknown" = Some (lit "true"))
  && bool_decide (outcome_text a "delivery_state" = Some (lit "dead_letter"))
  && bool_decide (outcome_text a "error_code" = Some (lit "INVOKE_OUTCOME_UNKNOWN")).

(** The loop of [_children] over the child events found. *)
Fixpoint collect_children (originals : list (uuid * uuid)) (found : list OutboxEvent)
    (values : list (uuid * ReconciliationChildObservation))
    : result Exn (list (uuid * ReconciliationChildObservation)) :=
  match found with
  | [] => Ok values
  | e :: rest =>
      match ev_causation_event_id e with
      | None => Raise EX_value
      | Some key =>
          _ ← ensure (negb (bool_decide (key ∈ values.*1))
                      && bool_decide ((key, ev_project_id e) ∈ originals)) EX_unavailable;
          collect_children originals rest (values ++ [(key, _child e)])
      end
  end.

Definition caused_by (child_event_type : str) (keys : list uuid) (e : OutboxEvent) : bool :=
  str_eqb (ev_event_type e) child_event_type && (ev_event_version e =? 1)
  && match ev_causation_event_id e with Some k => bool_decide (k ∈ keys) | None => false end.

(** Ordered by causation, then identity. *)
Definition causation_le (a b : OutboxEvent) : Prop :=
  let ka := default 0 (ev_causation_event_id a) in
  let kb := default 0 (ev_causation_event_id b) in
  ka < kb ∨ (ka = kb ∧ ev_event_id a ≤ ev_event_id b).
#[export] Instance causation_le_dec : RelDecision causation_le.
Proof. intros a b. unfold causation_le. apply _. Defined.

Definition _children (db : Db) (originals : list (uuid * uuid)) (child_event_type : str)
    : result Exn (list (uuid * ReconciliationChildObservation)) :=
  if bool_decide (originals = []) then Ok []
  else collect_children originals
         (merge_sort causation_le
            (List.filter (caused_by child_event_type originals.*1) (events_by_id db))) [].

Definition child_of (id : uuid) (l : list (uuid * ReconciliationChildObservation))
    : option ReconciliationChildObservation :=
  snd <$> List.find (λ kv, kv.1 =? id) l.

Definition unknown_item (children : list (uuid * ReconciliationChildObservation))
    (ea : OutboxEvent * OutboxDeliveryAttempt) : result Exn FinalizedUnknownDelivery :=
  n ← _envelope ea.1 ea.2;
  final ← oget (ev_finalized_at ea.1) EX_value;
  Ok {| fu_envelope := n; fu_finalized_at := final;
        fu_child := child_of (ev_event_id ea.1) children |}.

(** [DeliveryRepository.read_finalized_unknown] *)
Definition read_finalized_unknown (db : Db) (project_id event_id : uuid)
    (event_types : list (str * Z)) (child_event_type : str)
    : result Exn (option FinalizedUnknownDelivery) :=
  _ ← ensure (negb (bool_decide (event_types = []))) EX_unavailable;
  match event db event_id project_id with
  | None => Ok None
  | Some e =>
      match current_attempt db e with
      | None => Ok None
      | Some a =>
          if negb (_unknown_predicate event_types e a) then Ok None
          else
            children ← _children db [(ev_event_id e, ev_project_id e)] child_event_type;
            item ← unknown_item children (e, a);
            Ok (Some item)
      end
  end.

(** Ordered by finalization time, then identity. *)
Definition final_key (e : OutboxEvent) : Z * Z := (default 0 (ev_finalized_at e), ev_event_id e).
Definition key_lt (p q : Z * Z) : bool := (p.1 <? q.1) || ((p.1 =? q.1) && (p.2 <? q.2)).
Definition final_le (a b : OutboxEvent * OutboxDeliveryAttempt) : Prop :=
  key_lt (final_key b.1) (final_key a.1) = false.
#[export] Instance final_le_dec : RelDecision final_le.
Proof. intros a b. unfold final_le. apply _. Defined.

(** Events of the project joined with their current attempts. *)
Definition joined_rows (db : Db) (project_id : uuid) : list (OutboxEvent * OutboxDeliveryAttempt) :=
  omap (λ e, if ev_project_id e =? project_id
             then (λ a, (e, a)) <$> current_attempt db e else None) (events_by_id db).

Definition after_final (after : option (instant * uuid)) (e : OutboxEvent) : bool :=
  match after with Some k => key_lt k (final_key e) | None => true end.

Fixpoint map_result {E A B} (f : A → result E B) (l : list A) : result E (list B) :=
  match l with
  | [] => Ok []
  | x :: l' => y ← f x; ys ← map_result f l'; Ok (y :: ys)
  end.

(** [DeliveryRepository.list_finalized_unknown] *)
Definition list_finalized_unknown (db : Db) (project_id : uuid) (event_types : list (str * Z))
    (child_event_type : str) (after : option (instant * uuid)) (limit : Z)
    : result Exn FinalizedUnknownDeliveryPage :=
  _ ← ensure (negb (bool_decide (event_types = [])) && in_range 1 100 limit) EX_unavailable;
  let matching := List.filter (λ ea, _unknown_predicate event_types ea.1 ea.2
                                     && after_final after ea.1) (joined_rows db project_id) in
  let rows := take (Z.to_nat limit + 1) (merge_sort final_le matching) in
  let selected := take (Z.to_nat limit) rows in
  children ← _children db (map (λ ea, (ev_event_id ea.1, ev_project_id ea.1)) selected)
               child_event_type;
  items ← map_result (unknown_item children) selected;
  Ok {| fp_items := items; fp_has_more := (Z.to_nat limit <? length rows)%nat |}.

(** [DeliveryRepository.fence_reconciliation] *)
Definition fence_reconciliation (root : bool) (db : Db) (now : instant)
    (original child : OutboxEventEnvelope) (event_types : list (str * Z)) (child_event_type : str)
    : result Exn (option CommittedInvocationObservation) :=
  _ ← ensure root EX_unavailable;
  retained ← read_finalized_unknown db (cl_project_id (en_claim original))
               (cl_event_id (en_claim original)) event_types child_event_type;
  match retained with
  | None => Ok None
  | Some u =>
      match fu_child u with
      | None => Ok None
      | Some ch =>
          if negb (bool_decide (fu_envelope u = original))
             || negb (ch_event_id ch =? cl_event_id (en_claim child))
             || negb (str_eqb (en_event_type child) child_event_type)
             || negb (en_event_version child =? 1)
             || negb (cl_project_id (en_claim child) =? cl_project_id (en_claim original))
             || negb (str_eqb (en_aggregate_type child) (lit "outbox_delivery"))
             || negb (en_aggregate_id child =? cl_event_id (en_claim original))
             || negb (bool_decide (en_causation_event_id child
                                   = Some (cl_event_id (en_claim original))))
          then Ok None
          else fence_invocation root db now child
      end
  end.

(** ** The observer recognizes exactly the current invocation *)

Lemma observe_row_true now n payload e a :
  observe_row now n payload e a = true ↔
  ev_project_id e = cl_project_id (en_claim n) ∧
  ev_payload_digest e = cl_payload_digest (en_claim n) ∧
  ev_event_type e = en_event_type n ∧ ev_event_version e = en_event_version n ∧
  ev_aggregate_type e = en_aggregate_type n ∧ ev_aggregate_id e = en_aggregate_id n ∧
  ev_correlation_id e = en_correlation_id n ∧
  ev_causation_event_id e = en_causation_event_id n ∧
  ev_idempotency_key e = en_idempotency_key n ∧ ev_occurred_at e = en_occurred_at n ∧
  canon (ev_payload e) = canon payload ∧ ev_delivery_state e = DS_claimed ∧
  at_stage a = ST_invoked ∧ at_outcome_json a = None ∧
  ev_claim_generation e = cl_claim_generation (en_claim n) ∧
  ev_claim_owner e = Some (cl_claim_owner (en_claim n)) ∧
  ev_claimed_at e = Some (cl_claimed_at (en_claim n)) ∧
  ev_claim_expires_at e = Some (cl_claim_expires_at (en_claim n)) ∧
  at_project_id a = ev_project_id e ∧ at_payload_digest a = ev_payload_digest e ∧
  Some (at_claim_owner a) = ev_claim_owner e ∧ Some (at_claimed_at a) = ev_claimed_at e ∧
  Some (at_claim_expires_at a) = ev_claim_expires_at e ∧
  (∃ t, ev_claim_expires_at e = Some t ∧ now < t).
Proof.
  unfold observe_row, jsonb_eq.
  rewrite !andb_true_iff, !bool_decide_eq_true, !Z.eqb_eq, !str_eqb_true.
  assert (match ev_claim_expires_at e with Some t => now <? t | None => false end = true ↔
    ∃ t, ev_claim_expires_at e = Some t ∧ now < t) as ->.
  { destruct (ev_claim_expires_at e) as [t|]; [rewrite Z.ltb_lt|]; naive_solver. }
  tauto.
Qed.

(** The envelope that the current, still leased invocation of an event was given. *)
Definition live_invocation (db : Db) (now : instant) (n : OutboxEventEnvelope) : Prop :=
  ∃ e a, db_events db !! cl_event_id (en_claim n) = Some e ∧
    ev_delivery_state e = DS_claimed ∧
    db_attempts db !! (ev_event_id e, ev_claim_generation e) = Some a ∧
    at_stage a = ST_invoked ∧ n = envelope_of e (attempt_claim a) ∧
    now < at_claim_expires_at a.

Lemma observe_live db now n ob :
  sound db → observe db now n = Some ob →
  ob = {| ob_claim := en_claim n; ob_observed_at := now |} ∧ live_invocation db now n.
Proof.
  intros [Hk Hcu]. unfold observe. destruct (claim_valid (en_claim n)); [|done]. cbn [negb].
  destruct (loads (en_payload_json n)) as [[| | | | |kvs]|]; try done.
  destruct (_ || _) eqn:Hg; [done|]. rewrite orb_false_iff, !negb_false_iff in Hg.
  destruct Hg as [Hd%str_eqb_true _].
  destruct (db_events db !! cl_event_id (en_claim n)) as [e|] eqn:He; [|done]. cbn.
  destruct (current_attempt db e) as [a|] eqn:Ha; [|done]. cbn.
  destruct (observe_row _ _ _ _ _) eqn:Hrow; [|done]. intros [= <-]. split; [done|].
  apply observe_row_true in Hrow. unfold current_attempt in Ha.
  destruct (cu_event _ Hcu _ _ He) as [Hid Hc]. rewrite Hid in Ha.
  destruct (ec_bind _ _ Hc _ _ Ha) as (B1 & B2 & _).
  exists e, a. rewrite Hid. destruct_and!. split_and!; try done.
  - assert (dumps (ev_payload e) = en_payload_json n) as Hp.
    { rewrite <- Hd, <- (dumps_canon (ev_payload e)), <- (dumps_canon (JObj kvs)). congruence. }
    assert (attempt_claim a = en_claim n) as ->.
    { destruct (en_claim n); unfold attempt_claim; cbn in *. f_equal; congruence. }
    unfold envelope_of, _encode. destruct n; cbn in *. f_equal; congruence.
  - match goal with H : ∃ t, _ ∧ now < t |- _ => destruct H as (t & Et & Ht) end.
    assert (t = at_claim_expires_at a) as <- by congruence. done.
Qed.

Lemma live_observed E fold_wide project_exists s now n :
  reachable E fold_wide project_exists s →
  (∀ e, db_events (sy_db s) !! cl_event_id (en_claim n) = Some e →
        json_wf (ev_payload e) = true ∧ event_checks e = true ∧
        canonical_json_hash (ev_payload e) = Some (ev_payload_digest e)) →
  live_invocation (sy_db s) now n →
  observe (sy_db s) now n = Some {| ob_claim := en_claim n; ob_observed_at := now |}.
Proof.
  intros Hr Hwf (e & a & He & Hs & Ha & Hst & Hn & Ht).
  destruct (reachable_sound _ _ _ _ Hr) as [Hk Hcu]. destruct (Hwf e He) as (Hw & Hch & Hh).
  destruct (cu_event _ Hcu _ _ He) as [Hid Hc]. rewrite Hid in Ha.
  destruct (ec_bind _ _ Hc _ _ Ha) as (B1 & B2 & B3 & B4 & _ & B6 & _ & B7).
  rewrite Hst in B7. destruct B7 as (_ & W2 & _).
  pose proof (ec_current _ _ Hc) as Hcur. unfold current_custody in Hcur. rewrite Hs in Hcur.
  destruct Hcur as (a' & Ha' & _ & Q1 & Q2 & Q3 & _). assert (a' = a) as -> by congruence.
  assert (en_claim n = attempt_claim a) as Ec by (by rewrite Hn).
  assert (en_payload_json n = dumps (ev_payload e)) as Ep by (by rewrite Hn).
  unfold observe. rewrite Ec, B6, Ep, read_back by done. cbn [negb].
  assert (∃ kvs, ev_payload e = JObj kvs) as [kvs Ekv].
  { unfold event_checks, envelope_checks in Hch. rewrite !andb_true_iff in Hch. destruct_and!.
    unfold payload_shape in *. destruct (ev_payload e); try done. eauto. }
  assert (∃ kvs', canon (ev_payload e) = JObj kvs') as [kvs' Ec'] by (rewrite Ekv; by eexists).
  rewrite Ec', <- Ec', dumps_canon, str_eqb_refl, canonical_json_hash_canon.
  rewrite Hh. cbn [cl_payload_digest attempt_claim]. rewrite B4, bool_decide_eq_true_2 by done.
  cbn [negb orb]. rewrite Ec in He. rewrite He. cbn [mbind option_bind].
  unfold current_attempt. rewrite Hid, Ha. cbn [mbind option_bind].
  assert (observe_row now n (canon (ev_payload e)) e a = true) as ->; [|done].
  apply observe_row_true. rewrite Hn. cbn. split_and!; try done; try congruence.
  - symmetry. apply canon_canon.
  - eauto.
Qed.

(** The observer is exact: in any reachable state it confirms an envelope if and only if
    that envelope, claim and payload text included, is the one given to the event's current
    invocation and the lease is still running; everything else is concealed as absent. *)
Theorem observe_exact E fold_wide project_exists s now n ob :
  reachable E fold_wide project_exists s →
  (∀ e, db_events (sy_db s) !! cl_event_id (en_claim n) = Some e →
        json_wf (ev_payload e) = true) →
  observe (sy_db s) now n = Some ob ↔
  ob = {| ob_claim := en_claim n; ob_observed_at := now |} ∧ live_invocation (sy_db s) now n.
Proof.
  intros Hr Hwf. split.
  - apply observe_live. by eapply reachable_sound.
  - intros [-> Hl]. eapply live_observed; [done| |done]. intros e He.
    destruct (it_event _ (reachable_intact _ _ _ _ Hr) _ _ He). auto.
Qed.

Lemma sample_invoked_event :
  db_events sample_invoked !! sample_id = Some (claimed_event sample_event sample_claim).
Proof. apply lookup_singleton_eq. Defined.

Lemma sample_invoked_attempt :
  db_attempts sample_invoked !! (sample_id, 1)
  = Some (invoked_attempt (claimed_attempt sample_claim 11) (sample_now + 31) 12).
Proof. apply lookup_singleton_eq. Defined.

Lemma observe_exact_witness :
  observe sample_invoked (sample_now + 35) (envelope_of sample_event sample_claim)
  = Some {| ob_claim := sample_claim; ob_observed_at := sample_now + 35 |}.
Proof.
  refine (proj2 (observe_exact _ _ _ sys_invoked _ _ _ sample_invoked_reachable _) _).
  - intros e He. change (db_events sample_invoked !! sample_id = Some e) in He.
    rewrite sample_invoked_event in He. injection He as <-. vm_compute. reflexivity.
  - split; [reflexivity|].
    exists (claimed_event sample_event sample_claim),
      (invoked_attempt (claimed_attempt sample_claim 11) (sample_now + 31) 12).
    split; [exact sample_invoked_event|]. split; [reflexivity|].
    split; [exact sample_invoked_attempt|]. split; [reflexivity|]. split; reflexivity.
Defined.

(** The fence agrees with the observer: inside a root transaction on a reachable state it
    answers exactly what the observer answers, and outside one it refuses. *)
Theorem fence_is_observe E fold_wide project_exists s root now n :
  reachable E fold_wide project_exists s →
  fence_invocation root (sy_db s) now n =
    if root then Ok (observe (sy_db s) now n) else Raise EX_unavailable.
Proof.
  intros Hr. unfold fence_invocation. destruct root; [run|done].
  destruct (observe (sy_db s) now n) as [ob|] eqn:Ho.
  - destruct (observe_live _ _ _ _ (reachable_sound _ _ _ _ Hr) Ho)
      as [-> (e & a & He & _ & Ha & _ & Hn & _)].
    destruct (reachable_sound _ _ _ _ Hr) as [Hk Hcu]. destruct (cu_event _ Hcu _ _ He) as [Hid Hc].
    rewrite Hid in Ha. destruct (ec_bind _ _ Hc _ _ Ha) as (B1 & B2 & B3 & _ & _ & B6 & _).
    assert (en_claim n = attempt_claim a) as Ec by (by rewrite Hn). rewrite Ec in *. rewrite B6.
    rewrite (proj2 (event_Some _ _ _ e)) by (split; [done|by rewrite <- B3]).
    rewrite (proj2 (attempt_Some _ _ a)); [done|]. split; [|done]. cbn. by rewrite B2.
  - destruct (claim_valid (en_claim n)); [|done]. cbn [negb].
    by destruct (event (sy_db s) (cl_event_id (en_claim n)) (cl_project_id (en_claim n))),
      (attempt (sy_db s) (en_claim n)).
Qed.

Lemma fence_is_observe_witness :
  fence_invocation true sample_invoked (sample_now + 35) (envelope_of sample_event sample_claim)
  = Ok (observe sample_invoked (sample_now + 35) (envelope_of sample_event sample_claim)).
Proof. exact (fence_is_observe _ _ _ sys_invoked true _ _ sample_invoked_reachable). Defined.

(** ** Scanning candidates page by page *)

Fixpoint scan (fuel : nat) (g : HandlerRegistry) (now : instant) (limit : nat)
    (after : option uuid) (db : Db) : list DeliveryCandidate :=
  match fuel with
  | O => []
  | S fuel =>
      let page := candidates_page g now after limit db in
      pg_items page ++ match pg_next_after page with
                       | Some x => scan fuel g now limit (Some x) db
                       | None => []
                       end
  end.

Definition id_lt (a b : OutboxEvent) : Prop := ev_event_id a < ev_event_id b.

Lemma events_by_id_sorted db : event_keys_ok db → StronglySorted id_lt (events_by_id db).
Proof.
  intros Hk. assert (Transitive ev_id_le) as Htr by (intros a b c; unfold ev_id_le; lia).
  assert (Total ev_id_le) as Hto by (intros a b; unfold ev_id_le; lia).
  assert (StronglySorted ev_id_le (events_by_id db)) as Hs
    by (apply StronglySorted_merge_sort; apply _).
  assert (NoDup (map ev_event_id (events_by_id db))) as Hnd.
  { unfold events_by_id. rewrite merge_sort_Permutation.
    change (map ev_event_id (map_to_list (db_events db)).*2)
      with (ev_event_id <$> (map_to_list (db_events db)).*2). rewrite <- list_fmap_compose.
    apply NoDup_fmap_2_strong; [|apply NoDup_map_to_list].
    intros [i e1] [j e2] Hi%elem_of_map_to_list Hj%elem_of_map_to_list Heq. cbn in Heq.
    rewrite (ko_id _ Hk _ _ Hi), (ko_id _ Hk _ _ Hj) in Heq. subst j. congruence. }
  revert Hs Hnd. generalize (events_by_id db). intros l. induction 1 as [|x l Hl IH Hx]; cbn.
  { constructor. }
  intros [Hn Hnd]%NoDup_cons. constructor; [by apply IH|]. rewrite Forall_forall in Hx |- *.
  intros y Hy. specialize (Hx y Hy). unfold ev_id_le, id_lt in *.
  assert (ev_event_id x ≠ ev_event_id y); [|lia]. intros Heq. apply Hn. rewrite Heq.
  apply list_elem_of_In, in_map. by apply list_elem_of_In.
Qed.

Lemma filter_sorted (f : OutboxEvent → bool) l :
  StronglySorted id_lt l → StronglySorted id_lt (List.filter f l).
Proof.
  induction 1 as [|x l Hl IH Hx]; cbn; [constructor|]. destruct (f x); [|done].
  constructor; [done|]. rewrite Forall_forall in *. intros y Hy. apply Hx.
  apply list_elem_of_In in Hy. apply filter_In in Hy as [Hy _]. by apply list_elem_of_In.
Qed.

(** In a list sorted by identity, the rows after the cursor are a suffix. *)
Lemma filter_after l i y :
  StronglySorted id_lt l → l !! i = Some y →
  List.filter (after_cursor (Some (ev_event_id y))) l = drop (S i) l.
Proof.
  intros Hs. revert i y. induction Hs as [|x l Hl IH Hx]; intros i y; [done|].
  rewrite Forall_forall in Hx. unfold id_lt in Hx. destruct i as [|i]; cbn.
  - intros [= <-]. rewrite Z.ltb_irrefl. clear IH.
    assert (∀ z, z ∈ l → ev_event_id x < ev_event_id z) as Hlt by done. clear Hx Hl.
    induction l as [|z l IHl]; [done|]. cbn.
    rewrite (proj2 (Z.ltb_lt _ _)) by (apply Hlt; set_solver). f_equal.
    destruct l; [done|]. apply IHl. intros w Hw. apply Hlt. set_solver.
  - intros Hy. pose proof (Hx y ltac:(by eapply list_elem_of_lookup_2)) as Hlt.
    rewrite (proj2 (Z.ltb_ge _ _)) by lia. by apply IH.
Qed.

Lemma filter_filter {A} (f g : A → bool) l :
  List.filter (λ x, f x && g x) l = List.filter g (List.filter f l).
Proof.
  induction l as [|x l IH]; [done|]. cbn. destruct (f x); cbn; [|done].
  destruct (g x); by rewrite IH.
Qed.

Section Scan.
Context (g : HandlerRegistry) (now : instant) (db : Db) (limit : nat).
Context (Hk : event_keys_ok db) (Hlimit : (1 ≤ limit)%nat).

Definition all_candidates : list OutboxEvent := candidate_rows g now None db.

Lemma all_candidates_sorted : StronglySorted id_lt all_candidates.
Proof. apply filter_sorted, events_by_id_sorted, Hk. Qed.

Lemma candidate_rows_after i y :
  all_candidates !! i = Some y →
  candidate_rows g now (Some (ev_event_id y)) db = drop (S i) all_candidates.
Proof.
  intros Hy. rewrite <- (filter_after _ _ _ all_candidates_sorted Hy).
  unfold all_candidates, candidate_rows. rewrite !filter_filter. f_equal.
  induction (List.filter (is_candidate g now) (events_by_id db)) as [|x l IH]; [done|].
  cbn. by f_equal.
Qed.

(** The page that starts at position [k] of the candidates. *)
Lemma page_at after k :
  candidate_rows g now after db = drop k all_candidates →
  pg_items (candidates_page g now after limit db)
    = map candidate_of (take limit (drop k all_candidates)) ∧
  pg_next_after (candidates_page g now after limit db)
    = if (k + limit <? length all_candidates)%nat
      then ev_event_id <$> all_candidates !! (k + limit - 1)%nat else None.
Proof.
  intros Hr. unfold candidates_page. rewrite Hr. cbn [pg_items pg_next_after].
  rewrite take_take, Nat.min_l by lia. split; [done|].
  rewrite length_take, length_drop.
  destruct (Nat.ltb_spec (k + limit) (length all_candidates)).
  - rewrite (proj2 (Nat.ltb_lt _ _)) by lia. rewrite last_lookup, length_map, length_take, length_drop.
    rewrite Nat.min_l by lia.
    change (map candidate_of (take limit (drop k all_candidates)))
      with (candidate_of <$> take limit (drop k all_candidates)).
    rewrite list_lookup_fmap, lookup_take_lt, lookup_drop by lia.
    replace (k + pred limit)%nat with (k + limit - 1)%nat by lia.
    by destruct (all_candidates !! (k + limit - 1)%nat).
  - rewrite (proj2 (Nat.ltb_ge _ _)) by lia. done.
Qed.

Lemma scan_from fuel after k :
  candidate_rows g now after db = drop k all_candidates →
  (length all_candidates - k < fuel)%nat →
  scan fuel g now limit after db = map candidate_of (drop k all_candidates).
Proof.
  revert after k. induction fuel as [|fuel IH]; intros after k Hr Hf; [lia|]. cbn [scan].
  destruct (page_at after k Hr) as [-> ->].
  destruct (Nat.ltb_spec (k + limit) (length all_candidates)) as [Hlt|Hge].
  - destruct (lookup_lt_is_Some_2 all_candidates (k + limit - 1)) as [y Hy]; [lia|].
    rewrite Hy. cbn. rewrite (IH (Some (ev_event_id y)) (k + limit)%nat).
    + rewrite <- drop_drop, <- map_app, take_drop. done.
    + rewrite (candidate_rows_after _ _ Hy). f_equal. lia.
    + lia.
  - rewrite app_nil_r, take_ge; [done|]. rewrite length_drop. lia.
Qed.
End Scan.

(** Paging loses nothing: following [next_after] from the start with any page size yields
    every candidate of the snapshot exactly once, in identity order, and stops. *)
Theorem candidates_scan_complete g now limit db :
  event_keys_ok db → (1 ≤ limit)%nat →
  scan (S (length (candidate_rows g now None db))) g now limit None db
  = map candidate_of (candidate_rows g now None db).
Proof.
  intros Hk Hl. apply (scan_from g now db limit Hk Hl _ None 0%nat); [done|].
  unfold all_candidates. lia.
Qed.

Lemma candidates_scan_complete_witness :
  scan 2 sample_registry (sample_now + 5) 1 None appended_db
  = [{| cd_event_id := sample_id; cd_project_id := 9 |}].
Proof.
  refine (candidates_scan_complete sample_registry (sample_now + 5) 1 appended_db _ _).
  - exact (proj1 (reachable_sound sample_engine (λ c, [c]) (λ _, true) sys_appended
      (rtc_once _ _ sample_appended_step))).
  - lia.
Defined.

(** ** Drain counters *)

Lemma count_cons {A} (f : A → bool) x l : count f (x :: l) = Z.b2z (f x) + count f l.
Proof. unfold count. cbn. destruct (f x); cbn [length Z.b2z]; lia. Qed.

Lemma count_le {A} (f g : A → bool) l :
  (∀ x, x ∈ l → f x = true → g x = true) → 0 ≤ count f l ≤ count g l.
Proof.
  induction l as [|x l IH]; intros H; [done|]. rewrite !count_cons.
  specialize (IH ltac:(intros y Hy; apply H; set_solver)).
  pose proof (H x ltac:(set_solver)). destruct (f x), (g x); cbn; naive_solver lia.
Qed.

Lemma count_zero {A} (f : A → bool) l : (∀ x, x ∈ l → f x = false) → count f l = 0.
Proof.
  induction l as [|x l IH]; intros H; [done|]. rewrite count_cons, IH, (H x); set_solver.
Qed.

Definition project_rows (db : Db) (project_id : uuid) : list OutboxEvent :=
  List.filter (λ e, ev_project_id e =? project_id) (events_by_id db).

Definition in_delivery_state (s : DeliveryState) (e : OutboxEvent) : bool :=
  bool_decide (ev_delivery_state e = s).

Lemma project_rows_stored db pid e :
  e ∈ project_rows db pid → ∃ id, db_events db !! id = Some e.
Proof.
  intros Hin. apply list_elem_of_In, filter_In in Hin as [He _].
  apply list_elem_of_In in He. unfold events_by_id in He. rewrite merge_sort_Permutation in He.
  apply list_elem_of_fmap in He as ([id x] & -> & Hin%elem_of_map_to_list). eauto.
Qed.

Lemma states_partition l :
  (∀ e, e ∈ l → ev_delivery_state e ≠ DS_cancelled) →
  count (in_delivery_state DS_pending) l + count (in_delivery_state DS_claimed) l
  + count (in_delivery_state DS_retryable) l + count (in_delivery_state DS_acknowledged) l
  + count (in_delivery_state DS_dead_letter) l = Z.of_nat (length l).
Proof.
  induction l as [|e l IH]; intros H; [done|]. rewrite !count_cons.
  specialize (IH ltac:(intros x Hx; apply H; set_solver)). specialize (H e ltac:(set_solver)).
  assert (∀ s, in_delivery_state s e = bool_decide (ev_delivery_state e = s)) as Hs by done.
  rewrite !Hs. cbn [length].
  destruct (ev_delivery_state e); try done;
    repeat match goal with
    | |- context [bool_decide (?a = ?b)] =>
        first [ replace (bool_decide (a = b)) with true by reflexivity
              | replace (bool_decide (a = b)) with false by reflexivity ]
    end; cbn [Z.b2z]; lia.
Qed.

Lemma count_any {A} (f g h k : A → bool) l :
  0 ≤ count (λ x, (f x || g x || h x) && k x) l ≤ count f l + count g l + count h l.
Proof.
  induction l as [|x l IH]; [done|]. rewrite !count_cons.
  cbv beta. destruct (f x), (g x), (h x), (k x); cbn [orb andb Z.b2z]; lia.
Qed.

Lemma running_is_claimed e atts a :
  event_custody e atts → atts (ev_claim_generation e) = Some a → at_stage a = ST_invoked →
  ev_delivery_state e = DS_claimed.
Proof.
  intros Hc Ha Hs. pose proof (ec_current _ _ Hc) as Hcur. unfold current_custody in Hcur.
  destruct (ev_delivery_state e); try done;
    try (destruct Hcur as (a' & o & Ha' & Hst & _); congruence).
  assert (1 ≤ ev_claim_generation e ≤ ev_claim_generation e) by (apply (ec_dom _ _ Hc); eauto). lia.
Qed.

(** Draining never fabricates and never fails on a reachable state: the state counters
    partition the project's events (acknowledged ones make up the rest), running invocations
    are among the claimed events, and unsupported ones among the open events. *)
Theorem drain_partitions E fold_wide project_exists s g now pid :
  reachable E fold_wide project_exists s →
  ∃ o, drain g now pid (sy_db s) = Ok o ∧
    dr_pending o + dr_claimed o + dr_retryable o
      + count (in_delivery_state DS_acknowledged) (project_rows (sy_db s) pid)
      + dr_dead_letter o = Z.of_nat (length (project_rows (sy_db s) pid)) ∧
    dr_invoked o ≤ dr_claimed o ∧
    dr_unsupported o ≤ dr_pending o + dr_claimed o + dr_retryable o.
Proof.
  intros Hr. destruct (reachable_sound _ _ _ _ Hr) as [Hk Hcu]. unfold drain.
  fold (project_rows (sy_db s) pid). set (rows := project_rows (sy_db s) pid).
  assert (∀ e, e ∈ rows → event_custody e (λ x, db_attempts (sy_db s) !! (ev_event_id e, x))) as Hc.
  { intros e (id & He)%project_rows_stored. destruct (cu_event _ Hcu _ _ He) as [<- Hec]. exact Hec. }
  assert (∀ e, e ∈ rows → (0 <? ev_claim_generation e)
    && match current_attempt (sy_db s) e with None => true | Some _ => false end = false) as Hmiss.
  { intros e He. destruct (Z.ltb_spec 0 (ev_claim_generation e)); [|done].
    destruct (proj2 (ec_dom _ _ (Hc e He) (ev_claim_generation e)) ltac:(lia)) as [a Ha].
    unfold current_attempt. by rewrite Ha. }
  rewrite (count_zero _ rows Hmiss).
  run. eexists. split; [reflexivity|]. cbn [dr_pending dr_claimed dr_retryable dr_dead_letter
    dr_invoked dr_unsupported]. split_and!.
  - apply states_partition. intros e He Hx. pose proof (ec_current _ _ (Hc e He)) as Hcur.
    unfold current_custody in Hcur. by rewrite Hx in Hcur.
  - apply (count_le _ (in_delivery_state DS_claimed)). intros e He Hi. apply bool_decide_eq_true.
    unfold current_attempt in Hi.
    destruct (db_attempts (sy_db s) !! _) as [a|] eqn:Ha; [|done].
    apply bool_decide_eq_true in Hi. by eapply running_is_claimed; [apply Hc|exact Ha|].
  - apply count_any.
Qed.

Lemma drain_partitions_witness :
  ∃ o, drain sample_registry (sample_now + 35) 9 sample_invoked = Ok o ∧ dr_invoked o ≤ dr_claimed o.
Proof.
  destruct (drain_partitions _ _ _ sys_invoked sample_registry (sample_now + 35) 9
    sample_invoked_reachable) as (o & H1 & _ & H2 & _).
  exists o. exact (conj H1 H2).
Defined.
