(* ===== verification/RateControl.v ===== *)
(** * Durable API rate control (modules/api_controls)

    One counter row per scope and pseudonymous key digest, consumed by a single upsert
    statement in database time, followed by a bounded prune of other expired rows.  The
    model keeps the table as a finite map, the two SQL statements as functions on it, and
    the framing and HMAC of the key digest.  Database times are arguments, the rows that
    other transactions hold locked (which the prune skips) too; the theorems over runs take
    requests in commit order with readings that do not decrease.  Main results: a fixed
    window never allows more than the limit and never denies before it, the advertised
    [retry_after] really reaches the next window, and the key digest separates scopes and
    identities up to a SHA-256 collision. *)

From stdpp Require Import relations.
From S2P Require Import Prelude Text Digest Instant.

(** ** Key digests (service.py) *)

Inductive RateScope := FIRST_ACCESS_SCOPE | ADMIN_MUTATION_SCOPE | AUTHORIZATION_READ_SCOPE.

#[export] Instance RateScope_eq_dec : EqDecision RateScope.
Proof. solve_decision. Defined.
#[export] Instance RateScope_countable : Countable RateScope.
Proof.
  refine (inj_countable' (λ s, match s with FIRST_ACCESS_SCOPE => 0%nat
    | ADMIN_MUTATION_SCOPE => 1%nat | AUTHORIZATION_READ_SCOPE => 2%nat end)
    (λ n, match n with O => FIRST_ACCESS_SCOPE | 1%nat => ADMIN_MUTATION_SCOPE
    | _ => AUTHORIZATION_READ_SCOPE end) _). by intros [].
Defined.

(** [control_scope.encode("ascii")] *)
Definition scope_bytes (s : RateScope) : bytes :=
  match s with
  | FIRST_ACCESS_SCOPE => lit "first_access"
  | ADMIN_MUTATION_SCOPE => lit "admin_mutation"
  | AUTHORIZATION_READ_SCOPE => lit "authorization_read"
  end.

Definition RATE_KEY_DOMAIN : bytes := lit "workstream-api-rate/v1".
Definition MAX_IDENTITY_BYTES : Z := 4096.
Definition PRUNE_BATCH_SIZE : nat := 100.

Inductive RateError := RateControlUnavailableError.

Definition _frame (value : bytes) : bytes := to_bytes_be 4 (len value) ++ value.

Definition rate_preimage (scope : RateScope) (issuer subject : bytes) : bytes :=
  concat (map _frame [RATE_KEY_DOMAIN; scope_bytes scope; issuer; subject]).

Definition identity_bytes (s : str) : result RateError bytes :=
  b ← oget (utf8_encode s) RateControlUnavailableError;
  _ ← ensure ((1 <=? len b) && (len b <=? MAX_IDENTITY_BYTES)) RateControlUnavailableError;
  Ok b.

(** [key] is the decoded secret. *)
Definition rate_key_digest (key : bytes) (scope : RateScope) (issuer subject : str)
    : result RateError bytes :=
  issuer_bytes ← identity_bytes issuer;
  subject_bytes ← identity_bytes subject;
  Ok (hmac_sha256 key (rate_preimage scope issuer_bytes subject_bytes)).

(** ** Counters (models.py, repository.py) *)

Record ApiRateControlCounter := {
  rc_window_started_at : instant;
  rc_window_expires_at : instant;
  rc_request_count : Z;
  rc_updated_at : instant;
}.

Abbreviation rate_key := (RateScope * list Z)%type.
#[export] Instance rate_key_countable : Countable rate_key := prod_countable.
Abbreviation Counters := (@gmap rate_key _ rate_key_countable ApiRateControlCounter).

Definition max_count : Z := 9223372036854775807.

(** The CHECK constraints; the scope is a closed type here. *)
Definition counter_checks (k : rate_key) (c : ApiRateControlCounter) : bool :=
  (len k.2 =? 32)
  && (1 <=? rc_request_count c) && (rc_request_count c <=? max_count)
  && (rc_window_started_at c <? rc_window_expires_at c).

Record ConsumedCounter := {
  cc_db_now : instant;
  cc_window_started_at : instant;
  cc_window_expires_at : instant;
  cc_request_count : Z;
}.

(** The row [UPSERT_COUNTER] leaves. *)
Definition upserted (old : option ApiRateControlCounter) (db_now : instant) (window_seconds : Z)
    : ApiRateControlCounter :=
  let fresh := {| rc_window_started_at := db_now;
                  rc_window_expires_at := db_now + window_seconds * us_per_second;
                  rc_request_count := 1; rc_updated_at := db_now |} in
  match old with
  | None => fresh
  | Some c =>
      if rc_window_expires_at c <=? db_now then fresh
      else {| rc_window_started_at := rc_window_started_at c;
              rc_window_expires_at := rc_window_expires_at c;
              rc_request_count := if rc_request_count c =? max_count
                                  then rc_request_count c else rc_request_count c + 1;
              rc_updated_at := db_now |}
  end.

(** [ApiRateControlRepository.consume] *)
Definition consume_counter (k : rate_key) (db_now : instant) (window_seconds : Z) (t : Counters)
    : result RateError (ConsumedCounter * Counters) :=
  let c := upserted (t !! k) db_now window_seconds in
  _ ← ensure (counter_checks k c) RateControlUnavailableError;
  Ok ({| cc_db_now := db_now; cc_window_started_at := rc_window_started_at c;
         cc_window_expires_at := rc_window_expires_at c;
         cc_request_count := rc_request_count c |}, <[k := c]> t).

Definition expires_le (p q : rate_key * ApiRateControlCounter) : Prop :=
  rc_window_expires_at p.2 ≤ rc_window_expires_at q.2.
#[export] Instance expires_le_dec : RelDecision expires_le.
Proof. intros p q. unfold expires_le. apply _. Defined.

(** The rows [PRUNE_EXPIRED] deletes. *)
Definition prunable (locked : rate_key → bool) (k : rate_key) (now : instant) (batch : nat)
    (t : Counters) : list (rate_key * ApiRateControlCounter) :=
  take batch (merge_sort expires_le
    (List.filter (λ p, (rc_window_expires_at p.2 <=? now) && negb (bool_decide (p.1 = k))
                       && negb (locked p.1)) (map_to_list t))).

(** [ApiRateControlRepository.prune_expired] *)
Definition prune_expired (locked : rate_key → bool) (k : rate_key) (now : instant) (batch : nat)
    (t : Counters) : Counters :=
  foldr (λ p t, delete p.1 t) t (prunable locked k now batch t).

(** ** [RateControlService.consume] *)

Record RateControlDecision := {
  rd_allowed : bool;
  rd_request_count : Z;
  rd_retry_after : Z;
}.

(** [math.ceil] of a duration in seconds. *)
Definition ceil_seconds (us : Z) : Z := - ((- us) / us_per_second).

Definition rate_decision (c : ConsumedCounter) (limit window_seconds : Z) : RateControlDecision :=
  {| rd_allowed := cc_request_count c <=? limit;
     rd_request_count := cc_request_count c;
     rd_retry_after :=
       Z.max 1 (Z.min window_seconds
                  (ceil_seconds (cc_window_expires_at c - cc_db_now c))) |}.

(** The readings of the two statements and the rows locked during the prune. *)
Record RateEnv := { re_now : instant; re_prune : instant; re_locked : rate_key → bool }.

Definition consume (key : option bytes) (env : RateEnv) (scope : RateScope) (issuer subject : str)
    (limit window_seconds : Z) (t : Counters)
    : result RateError (RateControlDecision * Counters) :=
  key ← oget key RateControlUnavailableError;
  digest ← rate_key_digest key scope issuer subject;
  cc ← consume_counter (scope, digest) (re_now env) window_seconds t;
  let t := prune_expired (re_locked env) (scope, digest) (re_prune env) PRUNE_BATCH_SIZE cc.2 in
  Ok (rate_decision cc.1 limit window_seconds, t).

(** ** Framing *)

Lemma frame_inj a b x y :
  len a < 2 ^ 32 → len b < 2 ^ 32 → _frame a ++ x = _frame b ++ y → a = b ∧ x = y.
Proof.
  intros Ha Hb. unfold _frame. rewrite <- !app_assoc. intros [Hl H]%app_inj_1.
  2: { by rewrite !to_bytes_be_length. }
  apply to_bytes_be_inj in Hl; [|unfold len in *; change (256 ^ Z.of_nat 4) with (2 ^ 32); lia..].
  apply app_inj_1; [unfold len in Hl; lia|done].
Qed.

Lemma rate_preimage_inj s1 s2 i1 i2 u1 u2 :
  len i1 <= MAX_IDENTITY_BYTES → len i2 <= MAX_IDENTITY_BYTES →
  len u1 <= MAX_IDENTITY_BYTES → len u2 <= MAX_IDENTITY_BYTES →
  rate_preimage s1 i1 u1 = rate_preimage s2 i2 u2 → s1 = s2 ∧ i1 = i2 ∧ u1 = u2.
Proof.
  unfold MAX_IDENTITY_BYTES. intros H1 H2 H3 H4. unfold rate_preimage. cbn [map concat].
  assert (∀ s, len (scope_bytes s) < 2 ^ 32) as Hs by (intros []; reflexivity).
  intros [_ H]%frame_inj; [|reflexivity..].
  apply frame_inj in H as [Hsc H]; [|apply Hs..].
  apply frame_inj in H as [-> H]; [|lia..]. apply frame_inj in H as [-> _]; [|lia..].
  split; [|done]. by destruct s1, s2.
Qed.

(** Two inputs with the same digest under one key are equal, or exhibit a collision. *)
Lemma hmac_inj key m1 m2 :
  hmac_sha256 key m1 = hmac_sha256 key m2 →
  m1 = m2 ∨ ∃ b1 b2, b1 ≠ b2 ∧ sha256 b1 = sha256 b2.
Proof.
  unfold hmac_sha256. set (k := _ ++ replicate _ 0). intros H.
  destruct (decide (map (Z.lxor 0x36) k ++ m1 = map (Z.lxor 0x36) k ++ m2)) as [E|Hne].
  - left. by apply app_inv_head in E.
  - destruct (decide (sha256 (map (Z.lxor 0x36) k ++ m1) = sha256 (map (Z.lxor 0x36) k ++ m2)))
      as [E|Hne2]; [right; eauto|].
    right. eexists _, _. split; [|exact H]. intros E%app_inv_head. done.
Qed.

Lemma identity_bytes_Ok s b :
  identity_bytes s = Ok b ↔ utf8_encode s = Some b ∧ 1 ≤ len b ≤ MAX_IDENTITY_BYTES.
Proof.
  unfold identity_bytes. rewrite result_bind_Ok. setoid_rewrite oget_Ok.
  setoid_rewrite ensure_bind_Ok. split.
  - intros (x & Hx & Hr & Hb%Ok_inj). subst x. split; [done|lia].
  - intros [Hx Hr]. exists b. split_and!; [done|lia|done].
Qed.

(** Keys separate: two identities that obtain the same counter key under one secret have
    the same scope, issuer and subject, unless an explicit SHA-256 collision exists; the
    length framing admits no confusion between issuer and subject. *)
Theorem rate_key_separates key s1 s2 i1 i2 u1 u2 d :
  is_str i1 = true → is_str i2 = true → is_str u1 = true → is_str u2 = true →
  rate_key_digest key s1 i1 u1 = Ok d → rate_key_digest key s2 i2 u2 = Ok d →
  (s1 = s2 ∧ i1 = i2 ∧ u1 = u2) ∨ ∃ b1 b2, b1 ≠ b2 ∧ sha256 b1 = sha256 b2.
Proof.
  intros W1 W2 W3 W4. unfold rate_key_digest.
  intros (a1 & [A1 R1]%identity_bytes_Ok & (c1 & [C1 Q1]%identity_bytes_Ok & H1%Ok_inj)%result_bind_Ok)%result_bind_Ok.
  intros (a2 & [A2 R2]%identity_bytes_Ok & (c2 & [C2 Q2]%identity_bytes_Ok & H2%Ok_inj)%result_bind_Ok)%result_bind_Ok.
  rewrite <- H2 in H1. apply hmac_inj in H1 as [H|H]; [left|by right].
  apply rate_preimage_inj in H as (-> & -> & ->); [|lia..].
  split_and!; [done|by eapply utf8_encode_inj..].
Qed.

Lemma rate_key_separates_witness :
  ∃ d, rate_key_digest (replicate 32 7) ADMIN_MUTATION_SCOPE (lit "https://id") (lit "u1") = Ok d ∧
  ((ADMIN_MUTATION_SCOPE = ADMIN_MUTATION_SCOPE ∧ lit "https://id" = lit "https://id" ∧
    lit "u1" = lit "u1") ∨ ∃ b1 b2, b1 ≠ b2 ∧ sha256 b1 = sha256 b2).
Proof.
  eexists. split; [vm_compute; reflexivity|].
  eapply (rate_key_separates (replicate 32 7)); vm_compute; reflexivity.
Defined.

(** ** Pruning *)

Lemma prunable_spec locked k now batch t p :
  p ∈ prunable locked k now batch t →
  t !! p.1 = Some p.2 ∧ rc_window_expires_at p.2 ≤ now ∧ p.1 ≠ k.
Proof.
  unfold prunable. intros (i & Hp & _)%elem_of_take.
  apply list_elem_of_lookup_2 in Hp. rewrite merge_sort_Permutation in Hp.
  apply list_elem_of_In, filter_In in Hp as [Hin Hf].
  rewrite !andb_true_iff, !negb_true_iff, bool_decide_eq_false in Hf.
  apply list_elem_of_In in Hin. destruct p as [k' c]. apply elem_of_map_to_list in Hin.
  split_and!; [done|cbn in *; lia|tauto].
Qed.

Lemma foldr_delete_lookup (l : list (rate_key * ApiRateControlCounter)) (t : Counters) k :
  foldr (λ p t, delete p.1 t) t l !! k = if decide (k ∈ l.*1) then None else t !! k.
Proof.
  induction l as [|[k' c] l IH]; [by rewrite decide_False by set_solver|].
  rewrite fmap_cons. cbn [foldr fst].
  destruct (decide (k = k')) as [->|Hne].
  - rewrite lookup_delete_eq, decide_True by set_solver. done.
  - rewrite lookup_delete_ne, IH by done.
    destruct (decide (k ∈ l.*1)); [by rewrite decide_True by set_solver|].
    by rewrite decide_False by set_solver.
Qed.

(** Pruning touches neither the consumed row nor a row whose window is still open. *)
Lemma prune_expired_lookup locked k now batch t k' :
  prune_expired locked k now batch t !! k' = t !! k' ∨
  (k' ≠ k ∧ prune_expired locked k now batch t !! k' = None ∧
   ∃ c, t !! k' = Some c ∧ rc_window_expires_at c ≤ now).
Proof.
  unfold prune_expired. rewrite foldr_delete_lookup.
  destruct (decide (k' ∈ (prunable locked k now batch t).*1)) as [Hin|]; [|by left].
  right. apply list_elem_of_fmap in Hin as ([k2 c] & -> & Hp).
  apply prunable_spec in Hp as (H1 & H2 & H3). cbn in *. eauto.
Qed.

Lemma prune_expired_self locked k now batch t :
  prune_expired locked k now batch t !! k = t !! k.
Proof. destruct (prune_expired_lookup locked k now batch t k) as [->|[? _]]; done. Qed.

(** ** Fixed windows *)

Record RateSys := {
  rs_counters : Counters;
  rs_clock : instant;
  (* key, window and answer of every committed request, latest first *)
  rs_log : list (rate_key * instant * bool);
}.

Section Windows.
(** The limit and window configured for each scope. *)
Context (limit window : RateScope → Z).
Context (Hwindow : ∀ s, 0 < window s) (Hlimit : ∀ s, limit s < max_count).

Inductive rstep (s : RateSys) : RateSys → Prop :=
| rstep_consume key env scope issuer subject digest d t' c :
    rs_clock s ≤ re_now env ≤ re_prune env →
    rate_key_digest key scope issuer subject = Ok digest →
    consume (Some key) env scope issuer subject (limit scope) (window scope) (rs_counters s)
      = Ok (d, t') →
    t' !! (scope, digest) = Some c →
    rstep s {| rs_counters := t'; rs_clock := re_prune env;
               rs_log := (scope, digest, rc_window_started_at c, rd_allowed d) :: rs_log s |}.

Definition rinitial : RateSys := {| rs_counters := ∅; rs_clock := 0; rs_log := [] |}.

Definition entry_in (k : rate_key) (w : instant) (x : rate_key * instant * bool) : bool :=
  bool_decide (x.1 = (k, w)) && x.2.

(** Requests of key [k] allowed in the window that started at [w]. *)
Definition allowed_in (log : list (rate_key * instant * bool)) (k : rate_key) (w : instant) : Z :=
  Z.of_nat (length (List.filter (entry_in k w) log)).

Definition quota (k : rate_key) : Z := Z.max 0 (limit k.1).
Definition span (k : rate_key) : Z := window k.1 * us_per_second.

Record windows_ok (s : RateSys) : Prop := {
  wo_row : ∀ k c, rs_counters s !! k = Some c →
    rc_window_expires_at c = rc_window_started_at c + span k ∧
    1 ≤ rc_request_count c ≤ max_count ∧ rc_window_started_at c ≤ rs_clock s ∧
    allowed_in (rs_log s) k (rc_window_started_at c) = Z.min (rc_request_count c) (quota k);
  wo_past : ∀ k w b, (k, w, b) ∈ rs_log s →
    (∃ c, rs_counters s !! k = Some c ∧ rc_window_started_at c = w) ∨
    (w + span k ≤ rs_clock s ∧
     ∀ c, rs_counters s !! k = Some c → w + span k ≤ rc_window_started_at c);
  wo_quota : ∀ k w, allowed_in (rs_log s) k w ≤ quota k;
}.

Lemma allowed_in_cons log k w k' w' b :
  allowed_in ((k', w', b) :: log) k w =
  allowed_in log k w + (if decide ((k', w') = (k, w)) then Z.b2z b else 0).
Proof.
  unfold allowed_in. cbn [List.filter]. unfold entry_in at 1. cbn [fst snd].
  destruct (decide ((k', w') = (k, w))) as [E|E].
  - rewrite bool_decide_eq_true_2 by done. destruct b; cbn [andb length Z.b2z]; lia.
  - rewrite bool_decide_eq_false_2 by done. cbn [andb]. lia.
Qed.

Lemma allowed_in_none log k w :
  (∀ b, (k, w, b) ∉ log) → allowed_in log k w = 0.
Proof.
  intros H. unfold allowed_in. destruct (List.filter (entry_in k w) log) as [|x l] eqn:E; [done|].
  exfalso. assert (In x (List.filter (entry_in k w) log)) as Hin by (rewrite E; by left).
  apply filter_In in Hin as [Hin Hx]. unfold entry_in in Hx.
  apply andb_prop in Hx as [Hx _]. apply bool_decide_eq_true in Hx.
  destruct x as [x b]. cbn in Hx. subst x. by apply (H b), list_elem_of_In.
Qed.

Lemma consume_inv key env scope issuer subject digest l w t d t' :
  rate_key_digest key scope issuer subject = Ok digest →
  consume (Some key) env scope issuer subject l w t = Ok (d, t') →
  let c := upserted (t !! (scope, digest)) (re_now env) w in
  t' = prune_expired (re_locked env) (scope, digest) (re_prune env) PRUNE_BATCH_SIZE
         (<[(scope, digest) := c]> t) ∧
  counter_checks (scope, digest) c = true ∧
  rd_allowed d = (rc_request_count c <=? l) ∧ rd_request_count d = rc_request_count c ∧
  rd_retry_after d =
    Z.max 1 (Z.min w (ceil_seconds (rc_window_expires_at c - re_now env))).
Proof.
  intros Hd. unfold consume. cbn [oget mbind result_bind]. rewrite Hd. cbn [mbind result_bind].
  unfold consume_counter. rewrite result_bind_Ok. intros (cc & Hc & H%Ok_inj).
  apply ensure_bind_Ok in Hc as [Hc Hcc%Ok_inj]. subst cc.
  injection H as <- <-. done.
Qed.

(** The two ways an upsert goes: a fresh window, or one more use of the open one. *)
Lemma upserted_row old now w :
  (∀ o, old = Some o → rc_request_count o ≤ max_count) →
  (upserted old now w =
     {| rc_window_started_at := now; rc_window_expires_at := now + w * us_per_second;
        rc_request_count := 1; rc_updated_at := now |} ∧
   ∀ o, old = Some o → rc_window_expires_at o ≤ now) ∨
  ∃ o, old = Some o ∧ now < rc_window_expires_at o ∧
    rc_window_started_at (upserted old now w) = rc_window_started_at o ∧
    rc_window_expires_at (upserted old now w) = rc_window_expires_at o ∧
    rc_request_count (upserted old now w) = Z.min max_count (rc_request_count o + 1).
Proof.
  intros Hmax. unfold upserted. destruct old as [o|]; [|by left].
  destruct (rc_window_expires_at o <=? now) eqn:E.
  - left. split; [done|]. intros ? [= <-]. lia.
  - right. exists o. specialize (Hmax o eq_refl).
    split_and!; [done|lia|done|done|]. cbn. destruct (rc_request_count o =? max_count) eqn:E2; lia.
Qed.

Lemma span_pos k : 0 < span k.
Proof. unfold span, us_per_second. specialize (Hwindow k.1). lia. Qed.

(** A window that starts now has no entry yet. *)
Lemma fresh_window_unlogged s k now :
  windows_ok s → rs_clock s ≤ now →
  (∀ o, rs_counters s !! k = Some o → rc_window_expires_at o ≤ now) →
  ∀ b, (k, now, b) ∉ rs_log s.
Proof.
  intros Hs Hnow Hold b Hin. pose proof (span_pos k).
  destruct (wo_past _ Hs _ _ _ Hin) as [(o & Ho & Hw)|[Hw _]]; [|lia].
  pose proof (Hold _ Ho). apply (wo_row _ Hs) in Ho as (? & _). lia.
Qed.

(** One upsert keeps the account of the key's current window. *)
Lemma upserted_account s k now :
  windows_ok s → rs_clock s ≤ now →
  let c := upserted (rs_counters s !! k) now (window k.1) in
  rc_window_expires_at c = rc_window_started_at c + span k ∧
  1 ≤ rc_request_count c ≤ max_count ∧ rc_window_started_at c ≤ now ∧
  allowed_in (rs_log s) k (rc_window_started_at c) +
    Z.b2z (rc_request_count c <=? limit k.1) = Z.min (rc_request_count c) (quota k).
Proof.
  intros Hs Hnow c. pose proof (Hlimit k.1) as Hl. unfold max_count in *.
  destruct (upserted_row (rs_counters s !! k) now (window k.1)) as [[E Hold]|(o & Ho & Hlt & E1 & E2 & E3)].
  { intros o Ho. apply (wo_row _ Hs) in Ho as (_ & ? & _). unfold max_count in *; lia. }
  - subst c. rewrite E. cbn [rc_window_started_at rc_window_expires_at rc_request_count].
    rewrite allowed_in_none by (eapply fresh_window_unlogged; eauto).
    unfold span, quota. split_and!; [lia..|].
    destruct (1 <=? limit k.1) eqn:El; cbn [Z.b2z]; lia.
  - subst c. rewrite E1, E2, E3. apply (wo_row _ Hs) in Ho as (H1 & H2 & H3 & H4).
    unfold max_count in *. rewrite H4. unfold quota in *. split_and!; [lia..|].
    destruct (Z.min _ _ <=? limit k.1) eqn:El; cbn [Z.b2z]; lia.
Qed.

Lemma windows_ok_initial : windows_ok rinitial.
Proof.
  split; cbn.
  - intros k c. by rewrite lookup_empty.
  - intros k w b. by rewrite elem_of_nil.
  - intros k w. unfold allowed_in, quota. cbn. lia.
Qed.

(** What a step leaves under each key. *)
Lemma stepped_lookup (locked : rate_key → bool) (prune : instant) (k k' : rate_key)
    (c c' : ApiRateControlCounter) (t : Counters) :
  prune_expired locked k prune PRUNE_BATCH_SIZE (<[k := c]> t) !! k' = Some c' →
  (k' = k ∧ c' = c) ∨ (k' ≠ k ∧ t !! k' = Some c').
Proof.
  intros H. destruct (prune_expired_lookup locked k prune PRUNE_BATCH_SIZE (<[k := c]> t) k')
    as [E|(_ & E & _)]; rewrite E in H; [|done].
  destruct (decide (k' = k)) as [->|Hne].
  - rewrite lookup_insert_eq in H. left. split; [done|]. congruence.
  - rewrite lookup_insert_ne in H by done. by right.
Qed.

Lemma stepped_keeps (locked : rate_key → bool) (prune : instant) (k k' : rate_key)
    (c c' : ApiRateControlCounter) (t : Counters) :
  k' ≠ k → t !! k' = Some c' →
  prune_expired locked k prune PRUNE_BATCH_SIZE (<[k := c]> t) !! k' = Some c' ∨
  (prune_expired locked k prune PRUNE_BATCH_SIZE (<[k := c]> t) !! k' = None ∧
   rc_window_expires_at c' ≤ prune).
Proof.
  intros Hne Hc. destruct (prune_expired_lookup locked k prune PRUNE_BATCH_SIZE (<[k := c]> t) k')
    as [E|(_ & E & o & Ho & Hle)]; rewrite E.
  - left. by rewrite lookup_insert_ne by done.
  - right. rewrite lookup_insert_ne in Ho by done. split; [done|]. congruence.
Qed.

Lemma upserted_past s k now w b :
  windows_ok s → rs_clock s ≤ now → (k, w, b) ∈ rs_log s →
  let c := upserted (rs_counters s !! k) now (window k.1) in
  rc_window_started_at c = w ∨ (w + span k ≤ now ∧ w + span k ≤ rc_window_started_at c).
Proof.
  intros Hs Hnow Hin c. apply (wo_past _ Hs) in Hin.
  destruct (upserted_row (rs_counters s !! k) now (window k.1)) as [[E Hold]|(o & Ho & Hlt & E1 & _)].
  { intros o Ho. apply (wo_row _ Hs) in Ho as (_ & ? & _). lia. }
  - right. subst c. rewrite E. cbn.
    destruct Hin as [(o & Ho & <-)|[? _]]; [|lia].
    pose proof (Hold _ Ho). apply (wo_row _ Hs) in Ho as (? & _). lia.
  - subst c. rewrite E1. destruct Hin as [(o' & Ho' & <-)|[? Hr]].
    + left. congruence.
    + right. specialize (Hr _ Ho). lia.
Qed.

Lemma windows_ok_step s s' : windows_ok s → rstep s s' → windows_ok s'.
Proof.
  intros Hs [key env scope issuer subject digest d t' c Hclk Hd Hcons Hc].
  destruct (consume_inv _ _ _ _ _ _ _ _ _ _ _ Hd Hcons) as (-> & _ & Hal & _).
  set (k := (scope, digest)) in *.
  destruct (upserted_account s k (re_now env) Hs (proj1 Hclk)) as (A1 & A2 & A3 & A4).
  change (window k.1) with (window scope) in *. change (limit k.1) with (limit scope) in *.
  rewrite prune_expired_self, lookup_insert_eq in Hc. apply (inj Some) in Hc. rewrite Hc in *.
  clear Hcons. split; cbn [rs_counters rs_clock rs_log]; rewrite ?Hal.
  - intros k' c' [[-> ->]|[Hne Ho]]%stepped_lookup; rewrite allowed_in_cons.
    + rewrite decide_True by done. split_and!; [lia..|done].
    + rewrite decide_False by congruence.
      apply (wo_row _ Hs) in Ho as (? & ? & ? & ?). split_and!; lia.
  - intros k' w b. rewrite elem_of_cons. intros [[= -> -> ->]|Hin].
    { left. exists c. split; [|done]. by rewrite prune_expired_self, lookup_insert_eq. }
    destruct (decide (k' = k)) as [->|Hne].
    + rewrite prune_expired_self, lookup_insert_eq.
      destruct (upserted_past s k (re_now env) w b Hs (proj1 Hclk) Hin) as [E|[E1 E2]];
        change (window k.1) with (window scope) in *; rewrite Hc in *; [left; eauto|right].
      split; [lia|]. by intros ? [= <-].
    + destruct (wo_past _ Hs _ _ _ Hin) as [(o & Ho & Hw)|[Hw Hr]].
      * destruct (stepped_keeps (re_locked env) (re_prune env) k k' c o _ Hne Ho) as [E|[E Hle]];
          rewrite E; [left; eauto|right].
        apply (wo_row _ Hs) in Ho as (? & _). split; [lia|done].
      * right. split; [lia|]. intros c' [[-> _]|[_ Ho]]%stepped_lookup; [done|eauto].
  - intros k' w. rewrite allowed_in_cons.
    pose proof (wo_quota _ Hs k' w). case_decide as E; [|lia].
    injection E as <- <-. unfold k in *. lia.
Qed.

Lemma windows_ok_reachable s : rtc rstep rinitial s → windows_ok s.
Proof.
  intros H. pose proof windows_ok_initial as H0. revert H H0. generalize rinitial.
  induction 1 as [|x y z Hxy _ IH]; [done|]. intros Hx. apply IH. by eapply windows_ok_step.
Qed.

(** Every row a committed request leaves passed the table's CHECK constraints. *)
Lemma rows_checked s :
  rtc rstep rinitial s → ∀ k c, rs_counters s !! k = Some c → counter_checks k c = true.
Proof.
  intros H. assert (∀ k c, rs_counters rinitial !! k = Some c → counter_checks k c = true) as H0
    by (intros k c; cbn; by rewrite lookup_empty).
  revert H H0. generalize rinitial. induction 1 as [|x y z Hxy _ IH]; [done|]. intros Hx. apply IH.
  destruct Hxy as [key env scope issuer subject digest d t' c _ Hd Hcons _]. cbn.
  destruct (consume_inv _ _ _ _ _ _ _ _ _ _ _ Hd Hcons) as (-> & Hck & _).
  intros k' c' [[-> ->]|[_ Ho]]%stepped_lookup; [done|by apply Hx].
Qed.
End Windows.

(** C37. Fixed windows are exact.  For any positive windows and any limits below the counter's
    saturation point, after any sequence of committed requests of any identities with
    database readings in order: the requests of a key allowed in one window never exceed the
    limit; in the window a live row describes, the number that was allowed is exactly the smaller of
    the row's count and the limit, and the window has its configured length; a live row satisfies
    the table's CHECK constraints. *)
Theorem rate_window_exact limit window s :
  (∀ r, 0 < window r) → (∀ r, limit r < max_count) → rtc (rstep limit window) rinitial s →
  (∀ k w, allowed_in (rs_log s) k w ≤ Z.max 0 (limit k.1)) ∧
  (∀ k c, rs_counters s !! k = Some c →
     allowed_in (rs_log s) k (rc_window_started_at c)
       = Z.min (rc_request_count c) (Z.max 0 (limit k.1)) ∧
     rc_window_expires_at c = rc_window_started_at c + window k.1 * us_per_second ∧
     counter_checks k c = true).
Proof.
  intros Hw Hl Hr. pose proof (windows_ok_reachable _ _ Hw Hl s Hr) as H. split; [by apply H|].
  intros k c Hc. pose proof (rows_checked _ _ s Hr k c Hc). by apply H in Hc as (? & _ & _ & ?).
Qed.

(** The advertised delay is sound.  A decision's [retry_after] is at least one second and
    at most the window (or one second); if a denied caller waits that long after the reading
    the decision was made at, its window has expired, and the next request of that identity
    opens a new window and is counted as its first. *)
Theorem retry_after_sound key env1 env2 scope issuer subject limit window t d1 t1 d2 t2 :
  0 < window → (∀ k c, t !! k = Some c →
    rc_window_expires_at c ≤ re_now env1 + window * us_per_second) →
  consume (Some key) env1 scope issuer subject limit window t = Ok (d1, t1) →
  consume (Some key) env2 scope issuer subject limit window t1 = Ok (d2, t2) →
  re_now env1 + rd_retry_after d1 * us_per_second ≤ re_now env2 →
  1 ≤ rd_retry_after d1 ≤ window ∧ rd_request_count d2 = 1 ∧ rd_allowed d2 = (1 <=? limit).
Proof.
  intros Hw Ht H1 H2 Hwait.
  assert (∃ digest, rate_key_digest key scope issuer subject = Ok digest) as [digest Hd].
  { unfold consume in H1. cbn [oget mbind result_bind] in H1.
    destruct (rate_key_digest key scope issuer subject); [eauto|done]. }
  destruct (consume_inv _ _ _ _ _ _ _ _ _ _ _ Hd H1) as (-> & _ & _ & _ & R1).
  destruct (consume_inv _ _ _ _ _ _ _ _ _ _ _ Hd H2) as (_ & _ & A2 & N2 & _).
  rewrite prune_expired_self, lookup_insert_eq in A2, N2.
  set (c := upserted (t !! _) _ _) in *.
  assert (rc_window_expires_at c ≤ re_now env1 + window * us_per_second) as Hc.
  { subst c. unfold upserted. destruct (t !! _) as [o|] eqn:E; [|cbn [rc_window_expires_at]; lia].
    destruct (rc_window_expires_at o <=? re_now env1); cbn [rc_window_expires_at]; [lia|].
    by apply Ht in E. }
  assert (rc_window_expires_at c ≤ re_now env2) as Hexp.
  { rewrite R1 in Hwait. unfold ceil_seconds, us_per_second in *.
    set (x := rc_window_expires_at c - re_now env1) in *.
    pose proof (Z.mul_div_le (- x) 1000000). lia. }
  assert (rc_request_count (upserted (Some c) (re_now env2) window) = 1) as E.
  { cbn. by rewrite (proj2 (Z.leb_le _ _) Hexp). }
  rewrite E in A2, N2. split_and!; [lia..|done].
Qed.

(** ** A sample run: two requests within one window, one after it *)

Definition sample_rate_key : bytes := replicate 32 7.
Definition sample_rate_env (now : instant) : RateEnv :=
  {| re_now := now; re_prune := now; re_locked := λ _, false |}.
Definition sample_digest : bytes :=
  Eval vm_compute in
    hmac_sha256 sample_rate_key (rate_preimage ADMIN_MUTATION_SCOPE (lit "i") (lit "u")).

Definition sample_counter (start count updated : Z) : ApiRateControlCounter :=
  {| rc_window_started_at := start; rc_window_expires_at := start + 60000000;
     rc_request_count := count; rc_updated_at := updated |}.
Definition sample_counters (start count updated : Z) : Counters :=
  {[ (ADMIN_MUTATION_SCOPE, sample_digest) := sample_counter start count updated ]}.

Lemma sample_digest_Ok :
  rate_key_digest sample_rate_key ADMIN_MUTATION_SCOPE (lit "i") (lit "u") = Ok sample_digest.
Proof. vm_compute. reflexivity. Qed.

(** Consuming when no other identity has a row. *)
Lemma consume_alone key (env : RateEnv) scope issuer subject (digest : bytes) (limit window : Z)
    (o : option ApiRateControlCounter) (t : Counters) :
  rate_key_digest key scope issuer subject = Ok digest →
  t = from_option (λ c : ApiRateControlCounter, {[ (scope, digest) := c ]}) ∅ o →
  let c := upserted o (re_now env) window in
  counter_checks (scope, digest) c = true →
  consume (Some key) env scope issuer subject limit window t =
  Ok (rate_decision {| cc_db_now := re_now env; cc_window_started_at := rc_window_started_at c;
        cc_window_expires_at := rc_window_expires_at c; cc_request_count := rc_request_count c |}
        limit window, {[ (scope, digest) := c ]}).
Proof.
  intros Hd Ht c Hc. unfold consume. rewrite bind_oget, Hd, bind_Ok. unfold consume_counter.
  assert (t !! (scope, digest) = o) as ->.
  { subst t. destruct o; cbn; [apply lookup_singleton_eq|apply lookup_empty]. }
  fold c. rewrite Hc. cbn [ensure mbind result_bind fst snd]. f_equal. f_equal.
  assert (<[(scope, digest):=c]> t = {[(scope, digest):=c]}) as ->.
  { subst t. destruct o; cbn; [apply insert_singleton_eq|done]. }
  unfold prune_expired, prunable. rewrite map_to_list_singleton. cbn [List.filter fst snd].
  rewrite bool_decide_eq_true_2 by done. by rewrite andb_false_r.
Qed.

Lemma sample_first :
  consume (Some sample_rate_key) (sample_rate_env 5) ADMIN_MUTATION_SCOPE (lit "i") (lit "u") 1 60 ∅
  = Ok ({| rd_allowed := true; rd_request_count := 1; rd_retry_after := 60 |}, sample_counters 5 1 5).
Proof. by rewrite (consume_alone _ _ _ _ _ _ _ _ None _ sample_digest_Ok). Qed.

Lemma sample_second :
  consume (Some sample_rate_key) (sample_rate_env 6000005) ADMIN_MUTATION_SCOPE (lit "i") (lit "u")
    1 60 (sample_counters 5 1 5)
  = Ok ({| rd_allowed := false; rd_request_count := 2; rd_retry_after := 54 |},
        sample_counters 5 2 6000005).
Proof.
  by rewrite (consume_alone _ _ _ _ _ _ _ _ (Some (sample_counter 5 1 5)) _ sample_digest_Ok).
Qed.

Lemma sample_third :
  consume (Some sample_rate_key) (sample_rate_env 60000005) ADMIN_MUTATION_SCOPE (lit "i") (lit "u")
    1 60 (sample_counters 5 2 6000005)
  = Ok ({| rd_allowed := true; rd_request_count := 1; rd_retry_after := 60 |},
        sample_counters 60000005 1 60000005).
Proof.
  by rewrite (consume_alone _ _ _ _ _ _ _ _ (Some (sample_counter 5 2 6000005)) _ sample_digest_Ok).
Qed.

Definition sample_rate_state : RateSys :=
  {| rs_counters := sample_counters 5 2 6000005; rs_clock := 6000005;
     rs_log := [((ADMIN_MUTATION_SCOPE, sample_digest), 5, false);
                ((ADMIN_MUTATION_SCOPE, sample_digest), 5, true)] |}.

Definition sample_rate_mid : RateSys :=
  {| rs_counters := sample_counters 5 1 5; rs_clock := 5;
     rs_log := [((ADMIN_MUTATION_SCOPE, sample_digest), 5, true)] |}.

Lemma sample_clock_1 : 0 ≤ 5 ≤ 5.
Proof. lia. Qed.

Lemma sample_clock_2 : 5 ≤ 6000005 ≤ 6000005.
Proof. lia. Qed.

Lemma sample_rate_run : rtc (rstep (λ _, 1) (λ _, 60)) rinitial sample_rate_state.
Proof.
  apply rtc_l with sample_rate_mid; [|apply rtc_once].
  - exact (rstep_consume (λ _, 1) (λ _, 60) rinitial sample_rate_key (sample_rate_env 5) _ _ _
      sample_digest _ _ (sample_counter 5 1 5) sample_clock_1 sample_digest_Ok
      sample_first (lookup_singleton_eq _ _)).
  - exact (rstep_consume (λ _, 1) (λ _, 60) sample_rate_mid sample_rate_key (sample_rate_env 6000005)
      _ _ _ sample_digest _ _ (sample_counter 5 2 6000005) sample_clock_2 sample_digest_Ok sample_second
      (lookup_singleton_eq _ _)).
Qed.

Lemma rate_window_exact_witness :
  rtc (rstep (λ _, 1) (λ _, 60)) rinitial sample_rate_state ∧
  ∀ k w, allowed_in (rs_log sample_rate_state) k w ≤ 1.
Proof.
  split; [apply sample_rate_run|].
  apply (rate_window_exact (λ _, 1) (λ _, 60) sample_rate_state);
    [done|done|apply sample_rate_run].
Defined.

Lemma sample_unexpired (k : rate_key) c :
  sample_counters 5 1 5 !! k = Some c → rc_window_expires_at c ≤ 6000005 + 60 * us_per_second.
Proof.
  unfold sample_counters. intros [_ <-]%lookup_singleton_Some. vm_compute. discriminate.
Qed.

Lemma retry_after_sound_witness : 1 ≤ 54 ≤ 60 ∧ 1 = 1 ∧ true = (1 <=? 1).
Proof.
  refine (retry_after_sound sample_rate_key (sample_rate_env 6000005) (sample_rate_env 60000005)
    ADMIN_MUTATION_SCOPE (lit "i") (lit "u") 1 60 (sample_counters 5 1 5)
    {| rd_allowed := false; rd_request_count := 2; rd_retry_after := 54 |} (sample_counters 5 2 6000005)
    {| rd_allowed := true; rd_request_count := 1; rd_retry_after := 60 |}
    (sample_counters 60000005 1 60000005) _ sample_unexpired sample_second sample_third _).
  { lia. }
  vm_compute. discriminate.
Defined.
