(* ===== verification/ModelApi.v ===== *)
(** * Model usage values (modules/model_usage/api.py)

    The strict values exchanged with the model-call ledger, their pydantic validators, their
    JSON dumps (the facts that authority evidence commits to), and the pricing arithmetic.
    UUIDs are their 128-bit integers and timestamps instants; money is in integer
    nano-dollars.  Main result: a settled cost never exceeds the reservation that was made
    for its dispatch. *)

From S2P Require Import Prelude Text Digest Json Instant OutboxApi OutboxStore.

(** ** Errors *)

(** The exceptions that leave the ledger; the first three carry the source's code. *)
Inductive ModelExn :=
| ModelCallUnavailable (code : string)
| ModelCallConflict (code : string)
| ModelCallBudgetUnavailable (code : string)
| ValueError        (* pydantic's ValidationError and the property errors *)
| DatabaseError     (* a constraint or a trigger refused the statement *)
| PortError.        (* raised by an authority, execution or evidence port *)

(** ** Texts *)

Definition Identifier (s : str) : bool :=
  match_token is_lower (λ c, is_lower c || is_digit c || (c =? 95) || (c =? 46) || (c =? 45)) 0 99 s.
Definition ProviderIdentifier (s : str) : bool :=
  match_token is_alnum (λ c, token_char c || (c =? 47)) 0 159 s.
Definition ProviderResponseIdentifier (s : str) : bool := match_token is_alnum token_char 0 255 s.

Definition max_nanodollars : Z := 9000000000000000000.
Definition Nanodollars (n : Z) : bool := in_range 0 max_nanodollars n.


(** ** Profiles *)

Record ModelProfileSelector := {
  ps_profile_id : uuid; ps_profile_version : Z; ps_profile_digest : str }.

#[export] Instance ModelProfileSelector_eq_dec : EqDecision ModelProfileSelector.
Proof. solve_decision. Defined.

Definition selector_valid (s : ModelProfileSelector) : bool :=
  (1 <=? ps_profile_version s) && digest_pattern (ps_profile_digest s)
  && uuid7_shape (ps_profile_id s).

Inductive ReasoningEffort := RE_none | RE_minimal | RE_low | RE_medium | RE_high | RE_xhigh | RE_max.
Inductive TextVerbosity := TV_low | TV_medium | TV_high.

#[export] Instance ReasoningEffort_eq_dec : EqDecision ReasoningEffort.
Proof. solve_decision. Defined.
#[export] Instance TextVerbosity_eq_dec : EqDecision TextVerbosity.
Proof. solve_decision. Defined.

Definition effort_text (e : ReasoningEffort) : str :=
  match e with
  | RE_none => lit "none" | RE_minimal => lit "minimal" | RE_low => lit "low"
  | RE_medium => lit "medium" | RE_high => lit "high" | RE_xhigh => lit "xhigh"
  | RE_max => lit "max"
  end.
Definition verbosity_text (v : TextVerbosity) : str :=
  match v with TV_low => lit "low" | TV_medium => lit "medium" | TV_high => lit "high" end.

Record ModelGenerationSettings := {
  gs_reasoning_effort : ReasoningEffort; gs_text_verbosity : TextVerbosity }.

#[export] Instance ModelGenerationSettings_eq_dec : EqDecision ModelGenerationSettings.
Proof. solve_decision. Defined.

Definition settings_json (s : ModelGenerationSettings) : json :=
  JObj [kv "reasoning_effort" (JStr (effort_text (gs_reasoning_effort s)));
        kv "text_verbosity" (JStr (verbosity_text (gs_text_verbosity s)))].

Record ModelPricing := {
  pricing_policy_id : uuid;
  pricing_policy_version : Z;
  pricing_policy_digest : str;
  uncached_input_nanodollars_per_token : Z;
  cached_input_nanodollars_per_token : Z;
  output_nanodollars_per_token : Z;
}.

#[export] Instance ModelPricing_eq_dec : EqDecision ModelPricing.
Proof. solve_decision. Defined.

Definition pricing_valid (p : ModelPricing) : bool :=
  (1 <=? pricing_policy_version p) && digest_pattern (pricing_policy_digest p)
  && Nanodollars (uncached_input_nanodollars_per_token p)
  && Nanodollars (cached_input_nanodollars_per_token p)
  && Nanodollars (output_nanodollars_per_token p)
  && uuid7_shape (pricing_policy_id p)
  && (0 <? Z.max (uncached_input_nanodollars_per_token p)
             (Z.max (cached_input_nanodollars_per_token p) (output_nanodollars_per_token p))).

Definition pricing_json (p : ModelPricing) : json :=
  JObj [kv "pricing_policy_id" (json_uuid (pricing_policy_id p));
        kv "pricing_policy_version" (JInt (pricing_policy_version p));
        kv "pricing_policy_digest" (JStr (pricing_policy_digest p));
        kv "uncached_input_nanodollars_per_token" (JInt (uncached_input_nanodollars_per_token p));
        kv "cached_input_nanodollars_per_token" (JInt (cached_input_nanodollars_per_token p));
        kv "output_nanodollars_per_token" (JInt (output_nanodollars_per_token p))].

Record ProjectModelProfileSpec := {
  sp_project_id : uuid;
  sp_profile_version : Z;
  sp_provider : str;
  sp_api : str;
  sp_model_snapshot : str;
  sp_settings : ModelGenerationSettings;
  maximum_request_bytes : Z;
  maximum_output_bytes : Z;
  maximum_response_bytes : Z;
  maximum_input_tokens : Z;
  maximum_output_tokens : Z;
  maximum_calls : Z;
  maximum_total_request_bytes : Z;
  maximum_total_response_bytes : Z;
  maximum_total_input_tokens : Z;
  maximum_total_output_tokens : Z;
  allowed_tools : list str;
  maximum_tool_calls : Z;
  maximum_tool_output_bytes : Z;
  deadline_ms : Z;
  sp_pricing : ModelPricing;
}.

#[export] Instance ProjectModelProfileSpec_eq_dec : EqDecision ProjectModelProfileSpec.
Proof. solve_decision. Defined.

(** [tuple(sorted(tools)) == tools] *)
Fixpoint strs_sorted (l : list str) : bool :=
  match l with
  | a :: (b :: _) as l' => str_leb a b && strs_sorted l'
  | _ => true
  end.

Definition bounded_totals (p : ProjectModelProfileSpec) : list (Z * Z) :=
  [(maximum_request_bytes p, maximum_total_request_bytes p);
   (maximum_response_bytes p, maximum_total_response_bytes p);
   (maximum_input_tokens p, maximum_total_input_tokens p);
   (maximum_output_tokens p, maximum_total_output_tokens p)].

(** The [coherent_bounds] validator. *)
Definition coherent_bounds (p : ProjectModelProfileSpec) : bool :=
  let tool_free := match allowed_tools p with [] => true | _ => false end in
  negb (maximum_response_bytes p <? 6 * maximum_output_bytes p + 4096)
  && bool_decide (NoDup (allowed_tools p))
  && strs_sorted (allowed_tools p)
  && negb (tool_free && negb ((maximum_tool_calls p =? 0) && (maximum_tool_output_bytes p =? 0)))
  && negb (negb tool_free
           && ((maximum_tool_calls p =? 0) || (maximum_tool_output_bytes p =? 0)))
  && negb (existsb (λ x, x.2 <? x.1) (bounded_totals p))
  && negb (existsb (λ x, x.1 * maximum_calls p <? x.2) (bounded_totals p)).

Definition spec_valid (p : ProjectModelProfileSpec) : bool :=
  (1 <=? sp_profile_version p)
  && ProviderIdentifier (sp_provider p) && ProviderIdentifier (sp_api p)
  && ProviderIdentifier (sp_model_snapshot p)
  && in_range 1 1048576 (maximum_request_bytes p)
  && in_range 1 1048576 (maximum_output_bytes p)
  && in_range 1 1048576 (maximum_response_bytes p)
  && in_range 1 10000000 (maximum_input_tokens p)
  && in_range 1 10000000 (maximum_output_tokens p)
  && in_range 1 100 (maximum_calls p)
  && in_range 1 104857600 (maximum_total_request_bytes p)
  && in_range 1 104857600 (maximum_total_response_bytes p)
  && in_range 1 100000000 (maximum_total_input_tokens p)
  && in_range 1 100000000 (maximum_total_output_tokens p)
  && forallb Identifier (allowed_tools p)
  && in_range 0 1000 (maximum_tool_calls p)
  && in_range 0 104857600 (maximum_tool_output_bytes p)
  && in_range 100 3600000 (deadline_ms p)
  && pricing_valid (sp_pricing p)
  && coherent_bounds p.

Definition spec_json (p : ProjectModelProfileSpec) : json :=
  JObj [kv "project_id" (json_uuid (sp_project_id p));
        kv "profile_version" (JInt (sp_profile_version p));
        kv "provider" (JStr (sp_provider p));
        kv "api" (JStr (sp_api p));
        kv "model_snapshot" (JStr (sp_model_snapshot p));
        kv "settings" (settings_json (sp_settings p));
        kv "maximum_request_bytes" (JInt (maximum_request_bytes p));
        kv "maximum_output_bytes" (JInt (maximum_output_bytes p));
        kv "maximum_response_bytes" (JInt (maximum_response_bytes p));
        kv "maximum_input_tokens" (JInt (maximum_input_tokens p));
        kv "maximum_output_tokens" (JInt (maximum_output_tokens p));
        kv "maximum_calls" (JInt (maximum_calls p));
        kv "maximum_total_request_bytes" (JInt (maximum_total_request_bytes p));
        kv "maximum_total_response_bytes" (JInt (maximum_total_response_bytes p));
        kv "maximum_total_input_tokens" (JInt (maximum_total_input_tokens p));
        kv "maximum_total_output_tokens" (JInt (maximum_total_output_tokens p));
        kv "allowed_tools" (JArr (map JStr (allowed_tools p)));
        kv "maximum_tool_calls" (JInt (maximum_tool_calls p));
        kv "maximum_tool_output_bytes" (JInt (maximum_tool_output_bytes p));
        kv "deadline_ms" (JInt (deadline_ms p));
        kv "pricing" (pricing_json (sp_pricing p))].

Definition input_rate (p : ProjectModelProfileSpec) : Z :=
  Z.max (uncached_input_nanodollars_per_token (sp_pricing p))
        (cached_input_nanodollars_per_token (sp_pricing p)).

Definition maximum_reservation_nanodollars (p : ProjectModelProfileSpec) : result ModelExn Z :=
  let value := maximum_total_input_tokens p * input_rate p
    + maximum_total_output_tokens p * output_nanodollars_per_token (sp_pricing p) in
  _ ← ensure (negb ((value <=? 0) || (max_nanodollars <? value))) ValueError;
  Ok value.

Definition maximum_dispatch_reservation_nanodollars (p : ProjectModelProfileSpec)
    : result ModelExn Z :=
  let value := maximum_input_tokens p * input_rate p
    + maximum_output_tokens p * output_nanodollars_per_token (sp_pricing p) in
  _ ← ensure (negb (value <=? 0)) ValueError;
  run_limit ← maximum_reservation_nanodollars p;
  _ ← ensure (negb (run_limit <? value)) ValueError;
  Ok value.

Record ModelProfileProvisioningFacts := {
  pf_operation_id : uuid;
  pf_actor_profile_id : uuid;
  pf_spec : ProjectModelProfileSpec;
  pf_profile_digest : str;
}.

#[export] Instance ModelProfileProvisioningFacts_eq_dec : EqDecision ModelProfileProvisioningFacts.
Proof. solve_decision. Defined.

Definition profile_facts_valid (f : ModelProfileProvisioningFacts) : bool :=
  spec_valid (pf_spec f) && digest_pattern (pf_profile_digest f)
  && bool_decide (canonical_json_hash (spec_json (pf_spec f)) = Some (pf_profile_digest f)).

Definition profile_facts_json (f : ModelProfileProvisioningFacts) : json :=
  JObj [kv "operation_id" (json_uuid (pf_operation_id f));
        kv "actor_profile_id" (json_uuid (pf_actor_profile_id f));
        kv "spec" (spec_json (pf_spec f));
        kv "profile_digest" (JStr (pf_profile_digest f))].

Record ProjectModelProfile := {
  pp_facts : ModelProfileProvisioningFacts;
  pp_profile_id : uuid;
  pp_authorization_evidence_id : uuid;
  pp_created_at : instant;
}.

Definition pp_spec (p : ProjectModelProfile) : ProjectModelProfileSpec := pf_spec (pp_facts p).

Definition selector (p : ProjectModelProfile) : ModelProfileSelector :=
  {| ps_profile_id := pp_profile_id p;
     ps_profile_version := sp_profile_version (pp_spec p);
     ps_profile_digest := pf_profile_digest (pp_facts p) |}.

(** ** Budgets *)

Record ProjectModelBudgetConfigurationSpec := {
  bs_project_id : uuid;
  bs_configuration_version : Z;
  authorized_total_nanodollars : Z;
  externally_reconciled_prior_spend_nanodollars : Z;
  lifetime_limit_nanodollars : Z;
}.

#[export] Instance ProjectModelBudgetConfigurationSpec_eq_dec :
  EqDecision ProjectModelBudgetConfigurationSpec.
Proof. solve_decision. Defined.

Definition budget_spec_valid (s : ProjectModelBudgetConfigurationSpec) : bool :=
  (1 <=? bs_configuration_version s)
  && Nanodollars (authorized_total_nanodollars s)
  && Nanodollars (externally_reconciled_prior_spend_nanodollars s)
  && Nanodollars (lifetime_limit_nanodollars s)
  && negb (lifetime_limit_nanodollars s <=? 0)
  && negb (authorized_total_nanodollars s <=? 0)
  && negb (authorized_total_nanodollars s
           <? externally_reconciled_prior_spend_nanodollars s + lifetime_limit_nanodollars s).

Definition budget_spec_json (s : ProjectModelBudgetConfigurationSpec) : json :=
  JObj [kv "project_id" (json_uuid (bs_project_id s));
        kv "configuration_version" (JInt (bs_configuration_version s));
        kv "authorized_total_nanodollars" (JInt (authorized_total_nanodollars s));
        kv "externally_reconciled_prior_spend_nanodollars"
           (JInt (externally_reconciled_prior_spend_nanodollars s));
        kv "lifetime_limit_nanodollars" (JInt (lifetime_limit_nanodollars s))].

Record ModelBudgetProvisioningFacts := {
  bf_operation_id : uuid;
  bf_actor_profile_id : uuid;
  bf_spec : ProjectModelBudgetConfigurationSpec;
  bf_configuration_digest : str;
}.

#[export] Instance ModelBudgetProvisioningFacts_eq_dec : EqDecision ModelBudgetProvisioningFacts.
Proof. solve_decision. Defined.

Definition budget_facts_valid (f : ModelBudgetProvisioningFacts) : bool :=
  budget_spec_valid (bf_spec f) && digest_pattern (bf_configuration_digest f)
  && bool_decide (canonical_json_hash (budget_spec_json (bf_spec f))
                  = Some (bf_configuration_digest f)).

Definition budget_facts_json (f : ModelBudgetProvisioningFacts) : json :=
  JObj [kv "operation_id" (json_uuid (bf_operation_id f));
        kv "actor_profile_id" (json_uuid (bf_actor_profile_id f));
        kv "spec" (budget_spec_json (bf_spec f));
        kv "configuration_digest" (JStr (bf_configuration_digest f))].

Record ProjectModelBudgetConfiguration := {
  pb_facts : ModelBudgetProvisioningFacts;
  pb_configuration_id : uuid;
  pb_authorization_evidence_id : uuid;
  pb_created_at : instant;
  pb_lifetime_reserved_nanodollars : Z;
  pb_lifetime_settled_nanodollars : Z;
}.

(** ** Paid slots *)

(** [ModelPaidSlotKey] without its [slot_index]: the identity of a whole checker run. *)
Record EnvelopeKey := {
  ek_project_id : uuid;
  ek_assignment_id : uuid;
  ek_submission_id : uuid;
  ek_submission_version : Z;
  ek_requirement_id : str;
  ek_registry_entry_digest : str;
  ek_configuration_sha256 : str;
  ek_profile : ModelProfileSelector;
}.

#[export] Instance EnvelopeKey_eq_dec : EqDecision EnvelopeKey.
Proof. solve_decision. Defined.

Record ModelPaidSlotKey := { sk_envelope : EnvelopeKey; sk_slot_index : Z }.

#[export] Instance ModelPaidSlotKey_eq_dec : EqDecision ModelPaidSlotKey.
Proof. solve_decision. Defined.

Definition slot_project (k : ModelPaidSlotKey) : uuid := ek_project_id (sk_envelope k).
Definition slot_profile (k : ModelPaidSlotKey) : ModelProfileSelector := ek_profile (sk_envelope k).

Definition slot_key_valid (k : ModelPaidSlotKey) : bool :=
  let e := sk_envelope k in
  (1 <=? ek_submission_version e) && Identifier (ek_requirement_id e)
  && digest_pattern (ek_registry_entry_digest e) && digest_pattern (ek_configuration_sha256 e)
  && selector_valid (ek_profile e) && in_range 0 99 (sk_slot_index k).

Definition envelope_key_items (e : EnvelopeKey) : list (str * json) :=
  [kv "project_id" (json_uuid (ek_project_id e));
   kv "assignment_id" (json_uuid (ek_assignment_id e));
   kv "submission_id" (json_uuid (ek_submission_id e));
   kv "submission_version" (JInt (ek_submission_version e));
   kv "requirement_id" (JStr (ek_requirement_id e));
   kv "registry_entry_digest" (JStr (ek_registry_entry_digest e));
   kv "configuration_sha256" (JStr (ek_configuration_sha256 e));
   kv "profile_id" (json_uuid (ps_profile_id (ek_profile e)));
   kv "profile_version" (JInt (ps_profile_version (ek_profile e)));
   kv "profile_digest" (JStr (ps_profile_digest (ek_profile e)))].

Definition slot_key_json (k : ModelPaidSlotKey) : json :=
  JObj (envelope_key_items (sk_envelope k) ++ [kv "slot_index" (JInt (sk_slot_index k))]).

Inductive SetupPhase := SP_draft | SP_review | SP_correction.

#[export] Instance SetupPhase_eq_dec : EqDecision SetupPhase.
Proof. solve_decision. Defined.

Definition phase_text (p : SetupPhase) : str :=
  match p with
  | SP_draft => lit "draft" | SP_review => lit "review" | SP_correction => lit "correction"
  end.

(** [SetupModelUsageSlotKey] without [phase] and [call_index]. *)
Record SetupEnvelopeKey := {
  xk_compilation_attempt_id : uuid;
  xk_project_id : uuid;
  xk_guide_id : uuid;
  xk_source_snapshot_id : uuid;
  xk_setup_run_id : uuid;
  xk_setup_generation : Z;
  xk_runtime_configuration_hash : str;
  xk_profile : ModelProfileSelector;
}.

#[export] Instance SetupEnvelopeKey_eq_dec : EqDecision SetupEnvelopeKey.
Proof. solve_decision. Defined.

Record SetupModelUsageSlotKey := {
  xs_envelope : SetupEnvelopeKey; xs_phase : SetupPhase; xs_call_index : Z }.

#[export] Instance SetupModelUsageSlotKey_eq_dec : EqDecision SetupModelUsageSlotKey.
Proof. solve_decision. Defined.

Definition setup_project (k : SetupModelUsageSlotKey) : uuid := xk_project_id (xs_envelope k).
Definition setup_profile (k : SetupModelUsageSlotKey) : ModelProfileSelector :=
  xk_profile (xs_envelope k).

Definition setup_key_valid (k : SetupModelUsageSlotKey) : bool :=
  let e := xs_envelope k in
  (1 <=? xk_setup_generation e) && digest_pattern (xk_runtime_configuration_hash e)
  && selector_valid (xk_profile e) && in_range 0 99 (xs_call_index k)
  && uuid7_shape (xk_compilation_attempt_id e) && uuid7_shape (xk_setup_run_id e).

Definition setup_key_json (k : SetupModelUsageSlotKey) : json :=
  let e := xs_envelope k in
  JObj [kv "compilation_attempt_id" (json_uuid (xk_compilation_attempt_id e));
        kv "project_id" (json_uuid (xk_project_id e));
        kv "guide_id" (json_uuid (xk_guide_id e));
        kv "source_snapshot_id" (json_uuid (xk_source_snapshot_id e));
        kv "setup_run_id" (json_uuid (xk_setup_run_id e));
        kv "setup_generation" (JInt (xk_setup_generation e));
        kv "runtime_configuration_hash" (JStr (xk_runtime_configuration_hash e));
        kv "profile_id" (json_uuid (ps_profile_id (xk_profile e)));
        kv "profile_version" (JInt (ps_profile_version (xk_profile e)));
        kv "profile_digest" (JStr (ps_profile_digest (xk_profile e)));
        kv "phase" (JStr (phase_text (xs_phase k)));
        kv "call_index" (JInt (xs_call_index k))].

(** ** Executions, evidence and effects *)

Record ModelCallExecutionFacts := {
  ex_project_id : uuid;
  ex_task_id : uuid;
  ex_assignment_id : uuid;
  ex_submission_id : uuid;
  ex_submission_version : Z;
  ex_evaluation_request_id : uuid;
  ex_evaluation_generation : Z;
  ex_checker_run_id : uuid;
  ex_worker_lease_id : uuid;
  ex_worker_lease_generation : Z;
  ex_worker_lease_expires_at : instant;
}.

#[export] Instance ModelCallExecutionFacts_eq_dec : EqDecision ModelCallExecutionFacts.
Proof. solve_decision. Defined.

Definition execution_valid (x : ModelCallExecutionFacts) : bool :=
  (1 <=? ex_submission_version x) && (1 <=? ex_evaluation_generation x)
  && (1 <=? ex_worker_lease_generation x).

(** [dump_datetime] is pydantic's rendering of a datetime. *)
Definition execution_json (dump_datetime : instant → str) (x : ModelCallExecutionFacts) : json :=
  JObj [kv "project_id" (json_uuid (ex_project_id x));
        kv "task_id" (json_uuid (ex_task_id x));
        kv "assignment_id" (json_uuid (ex_assignment_id x));
        kv "submission_id" (json_uuid (ex_submission_id x));
        kv "submission_version" (JInt (ex_submission_version x));
        kv "evaluation_request_id" (json_uuid (ex_evaluation_request_id x));
        kv "evaluation_generation" (JInt (ex_evaluation_generation x));
        kv "checker_run_id" (json_uuid (ex_checker_run_id x));
        kv "worker_lease_id" (json_uuid (ex_worker_lease_id x));
        kv "worker_lease_generation" (JInt (ex_worker_lease_generation x));
        kv "worker_lease_expires_at" (JStr (dump_datetime (ex_worker_lease_expires_at x)))].

Record ModelCallEvidence := {
  me_binding_id : uuid;
  me_content_id : uuid;
  me_put_attempt_id : uuid;
  me_verification_receipt_id : uuid;
  me_content_sha256 : str;
  me_byte_count : Z;
}.

#[export] Instance ModelCallEvidence_eq_dec : EqDecision ModelCallEvidence.
Proof. solve_decision. Defined.

Definition evidence_valid (e : ModelCallEvidence) : bool :=
  digest_pattern (me_content_sha256 e) && in_range 1 1048576 (me_byte_count e).

Definition evidence_json (e : ModelCallEvidence) : json :=
  JObj [kv "binding_id" (json_uuid (me_binding_id e));
        kv "content_id" (json_uuid (me_content_id e));
        kv "put_attempt_id" (json_uuid (me_put_attempt_id e));
        kv "verification_receipt_id" (json_uuid (me_verification_receipt_id e));
        kv "content_sha256" (JStr (me_content_sha256 e));
        kv "byte_count" (JInt (me_byte_count e));
        kv "media_type" (JStr (lit "application/json"))].

Record ModelCallEffectAuthorityFacts := {
  ea_project_id : uuid;
  ea_task_id : uuid;
  ea_slot_id : uuid;
  ea_slot_key : ModelPaidSlotKey;
  ea_attempt_id : uuid;
  ea_internal_call_request_id : uuid;
}.

#[export] Instance ModelCallEffectAuthorityFacts_eq_dec : EqDecision ModelCallEffectAuthorityFacts.
Proof. solve_decision. Defined.

Definition effect_facts_json (f : ModelCallEffectAuthorityFacts) : json :=
  JObj [kv "project_id" (json_uuid (ea_project_id f));
        kv "task_id" (json_uuid (ea_task_id f));
        kv "slot_id" (json_uuid (ea_slot_id f));
        kv "slot_key" (slot_key_json (ea_slot_key f));
        kv "attempt_id" (json_uuid (ea_attempt_id f));
        kv "internal_call_request_id" (json_uuid (ea_internal_call_request_id f))].

Record SetupModelEffectAuthorityFacts := {
  xa_project_id : uuid;
  xa_slot_id : uuid;
  xa_slot_key : SetupModelUsageSlotKey;
  xa_effect_id : uuid;
  xa_internal_call_request_id : uuid;
}.

#[export] Instance SetupModelEffectAuthorityFacts_eq_dec : EqDecision SetupModelEffectAuthorityFacts.
Proof. solve_decision. Defined.

Definition setup_effect_json (f : SetupModelEffectAuthorityFacts) : json :=
  JObj [kv "project_id" (json_uuid (xa_project_id f));
        kv "slot_id" (json_uuid (xa_slot_id f));
        kv "slot_key" (setup_key_json (xa_slot_key f));
        kv "effect_id" (json_uuid (xa_effect_id f));
        kv "internal_call_request_id" (json_uuid (xa_internal_call_request_id f))].

Inductive EffectState :=
| ES_prepared | ES_dispatching | ES_uncertain | ES_completed | ES_known_failed | ES_known_no_effect.

#[export] Instance EffectState_eq_dec : EqDecision EffectState.
Proof. solve_decision. Defined.

Definition effect_state_text (s : EffectState) : str :=
  match s with
  | ES_prepared => lit "prepared" | ES_dispatching => lit "dispatching"
  | ES_uncertain => lit "uncertain" | ES_completed => lit "completed"
  | ES_known_failed => lit "known_failed" | ES_known_no_effect => lit "known_no_effect"
  end.

(** [AttachedModelCallAttempt]; [PreparedModelCallAttempt] is the one whose state is
    [ES_prepared]. *)
Record AttachedModelCallAttempt := {
  at_slot_id : uuid;
  at_slot_key : ModelPaidSlotKey;
  at_attempt_id : uuid;
  at_attempt_number : Z;
  at_internal_call_request_id : uuid;
  at_request_sha256 : str;
  at_state : EffectState;
  at_replayed : bool;
}.

Definition attempt_valid (a : AttachedModelCallAttempt) : bool :=
  slot_key_valid (at_slot_key a) && (1 <=? at_attempt_number a)
  && digest_pattern (at_request_sha256 a).

Definition prepared_valid (a : AttachedModelCallAttempt) : bool :=
  attempt_valid a && bool_decide (at_state a = ES_prepared).

Definition attempt_json (a : AttachedModelCallAttempt) : json :=
  JObj [kv "slot_id" (json_uuid (at_slot_id a));
        kv "slot_key" (slot_key_json (at_slot_key a));
        kv "attempt_id" (json_uuid (at_attempt_id a));
        kv "attempt_number" (JInt (at_attempt_number a));
        kv "internal_call_request_id" (json_uuid (at_internal_call_request_id a));
        kv "request_sha256" (JStr (at_request_sha256 a));
        kv "state" (JStr (effect_state_text (at_state a)));
        kv "replayed" (JBool (at_replayed a))].

Record PreparedSetupModelUsageEffect := {
  xp_envelope_id : uuid;
  xp_slot_id : uuid;
  xp_slot_key : SetupModelUsageSlotKey;
  xp_effect_id : uuid;
  xp_attempt_number : Z;
  xp_internal_call_request_id : uuid;
  xp_request_sha256 : str;
  xp_replayed : bool;
}.

Definition setup_prepared_valid (a : PreparedSetupModelUsageEffect) : bool :=
  setup_key_valid (xp_slot_key a) && (1 <=? xp_attempt_number a)
  && digest_pattern (xp_request_sha256 a).

Definition setup_prepared_json (a : PreparedSetupModelUsageEffect) : json :=
  JObj [kv "envelope_id" (json_uuid (xp_envelope_id a));
        kv "slot_id" (json_uuid (xp_slot_id a));
        kv "slot_key" (setup_key_json (xp_slot_key a));
        kv "effect_id" (json_uuid (xp_effect_id a));
        kv "attempt_number" (JInt (xp_attempt_number a));
        kv "internal_call_request_id" (json_uuid (xp_internal_call_request_id a));
        kv "request_sha256" (JStr (xp_request_sha256 a));
        kv "state" (JStr (lit "prepared"));
        kv "replayed" (JBool (xp_replayed a))].

Record ModelCallUsage := {
  us_input_tokens : Z;
  us_cached_input_tokens : Z;
  us_output_tokens : Z;
  us_reasoning_tokens : Z;
}.

#[export] Instance ModelCallUsage_eq_dec : EqDecision ModelCallUsage.
Proof. solve_decision. Defined.

Definition usage_valid (u : ModelCallUsage) : bool :=
  (0 <=? us_input_tokens u) && (0 <=? us_cached_input_tokens u)
  && (0 <=? us_output_tokens u) && (0 <=? us_reasoning_tokens u)
  && negb ((us_input_tokens u <? us_cached_input_tokens u)
           || (us_output_tokens u <? us_reasoning_tokens u)).

Definition usage_json (u : ModelCallUsage) : json :=
  JObj [kv "input_tokens" (JInt (us_input_tokens u));
        kv "cached_input_tokens" (JInt (us_cached_input_tokens u));
        kv "output_tokens" (JInt (us_output_tokens u));
        kv "reasoning_tokens" (JInt (us_reasoning_tokens u))].

Record KnownNoEffectProof := {
  np_proof_id : uuid; np_proof_digest : str; np_observed_at : instant }.

#[export] Instance KnownNoEffectProof_eq_dec : EqDecision KnownNoEffectProof.
Proof. solve_decision. Defined.

Definition proof_valid (p : KnownNoEffectProof) : bool := digest_pattern (np_proof_digest p).

(** ** Results *)

Record ModelDispatchReservation := {
  dr_slot_id : uuid;
  dr_attempt_id : uuid;
  dr_attempt_number : Z;
  dr_internal_call_request_id : uuid;
  dr_effect : ModelCallEffectAuthorityFacts;
  dr_request_sha256 : str;
  dr_request_evidence : ModelCallEvidence;
  dr_budget_configuration_id : uuid;
  dr_budget_configuration_version : Z;
  dr_budget_configuration_digest : str;
  dr_reserved_nanodollars : Z;
  dr_state : EffectState;
  dr_provider_response_id : option str;
  dr_response_evidence : option ModelCallEvidence;
  dr_replayed : bool;
}.

Record ModelCallRecoveryAttachment := {
  ra_slot_id : uuid;
  ra_attempt_id : uuid;
  ra_attempt_number : Z;
  ra_internal_call_request_id : uuid;
  ra_provider_response_id : str;
  ra_state : EffectState;
  ra_replayed : bool;
}.

(** [CompletedModelCall] and [KnownFailedModelCall], which have the same fields. *)
Record CompletedModelCall := {
  cm_slot_id : uuid;
  cm_attempt_id : uuid;
  cm_attempt_number : Z;
  cm_internal_call_request_id : uuid;
  cm_provider_response_id : str;
  cm_request_evidence : ModelCallEvidence;
  cm_response_evidence : ModelCallEvidence;
  cm_usage : ModelCallUsage;
  cm_settled_nanodollars : Z;
  cm_completed_at : instant;
  cm_replayed : bool;
}.

Record ModelActionEvidence := { ae_evidence_id : uuid; ae_facts_digest : str }.

(** ** Digests and cost *)

(** [rstrip("0")] *)
Fixpoint rstrip_zeros (s : str) : str :=
  match s with
  | [] => []
  | c :: s' =>
      match rstrip_zeros s' with
      | [] => if c =? 48 then [] else [c]
      | r => c :: r
      end
  end.

(** Years are printed with four digits. *)
Definition model_usage_instant (t : instant) : str :=
  let '(y, mo, d) := ord2ymd (t / us_per_day + 1) in
  let us := t mod us_per_day in
  let sec := us / us_per_second in
  let f := us mod us_per_second in
  pad_dec 4 y ++ 45 :: pad_dec 2 mo ++ 45 :: pad_dec 2 d ++ 84 ::
  pad_dec 2 (sec / 3600) ++ 58 :: pad_dec 2 (sec / 60 mod 60) ++ 58 :: pad_dec 2 (sec mod 60) ++
  (if f =? 0 then [] else 46 :: rstrip_zeros (pad_dec 6 f)) ++ lit "+00:00".

Definition no_effect_facts (proof_id : uuid) (proof_digest : str) (observed_at : instant) : json :=
  JObj [kv "state" (JStr (lit "known_no_effect"));
        kv "proof_id" (json_uuid proof_id);
        kv "proof_digest" (JStr proof_digest);
        kv "observed_at" (JStr (model_usage_instant observed_at))].

Definition known_failed_facts (provider_response_id response_sha : str) (u : ModelCallUsage)
    (settled : Z) : json :=
  JObj [kv "state" (JStr (lit "known_failed"));
        kv "provider_response_id" (JStr provider_response_id);
        kv "response_content_sha256" (JStr response_sha);
        kv "usage" (usage_json u);
        kv "settled_nanodollars" (JInt settled)].

(** [model_retry_terminal_digest] on either kind of terminal. *)
Definition model_retry_terminal_digest (terminal : CompletedModelCall + KnownNoEffectProof)
    : option str :=
  canonical_json_hash
    match terminal with
    | inr p => no_effect_facts (np_proof_id p) (np_proof_digest p) (np_observed_at p)
    | inl c => known_failed_facts (cm_provider_response_id c)
                 (me_content_sha256 (cm_response_evidence c)) (cm_usage c)
                 (cm_settled_nanodollars c)
    end.

Definition model_usage_cost (p : ProjectModelProfileSpec) (u : ModelCallUsage)
    : result ModelExn Z :=
  _ ← ensure (usage_valid u) ValueError;
  _ ← ensure (negb ((maximum_input_tokens p <? us_input_tokens u)
                    || (maximum_output_tokens p <? us_output_tokens u)))
        (ModelCallConflict "model usage exceeds the approved profile");
  let uncached := us_input_tokens u - us_cached_input_tokens u in
  let pricing := sp_pricing p in
  let value := uncached * uncached_input_nanodollars_per_token pricing
    + us_cached_input_tokens u * cached_input_nanodollars_per_token pricing
    + us_output_tokens u * output_nanodollars_per_token pricing in
  _ ← ensure (negb (value <? 0)) (ModelCallConflict "model usage cost exceeds the approved reservation");
  run_limit ← maximum_reservation_nanodollars p;
  _ ← ensure (negb (run_limit <? value))
        (ModelCallConflict "model usage cost exceeds the approved reservation");
  Ok value.

Definition model_action_digest (action : string) (facts : json) : option str :=
  canonical_json_hash (JObj [kv "action" (JStr (lit action)); kv "facts" facts]).

(** ** Pricing *)

Lemma pricing_valid_rates p :
  pricing_valid p = true →
  0 ≤ uncached_input_nanodollars_per_token p ∧ 0 ≤ cached_input_nanodollars_per_token p ∧
  0 ≤ output_nanodollars_per_token p.
Proof. unfold pricing_valid, Nanodollars, in_range. rewrite !andb_true_iff. lia. Qed.

Lemma dispatch_reservation_Ok p r :
  maximum_dispatch_reservation_nanodollars p = Ok r ↔
  r = maximum_input_tokens p * input_rate p
      + maximum_output_tokens p * output_nanodollars_per_token (sp_pricing p) ∧ 0 < r ∧
  ∃ m, maximum_reservation_nanodollars p = Ok m ∧ r ≤ m.
Proof.
  unfold maximum_dispatch_reservation_nanodollars. cbv zeta.
  rewrite ensure_bind_Ok, result_bind_Ok. setoid_rewrite ensure_bind_Ok. split.
  - intros (H1 & m & Hm & H2 & <-%Ok_inj). split_and!; [done|lia|]. exists m. split; [done|lia].
  - intros (-> & H1 & m & Hm & H2). split; [lia|]. exists m.
    split; [exact Hm|]. split; [lia|reflexivity].
Qed.

Lemma model_usage_cost_inv p u c :
  model_usage_cost p u = Ok c →
  usage_valid u = true ∧ us_input_tokens u ≤ maximum_input_tokens p ∧
  us_output_tokens u ≤ maximum_output_tokens p ∧ 0 ≤ c ∧
  c = (us_input_tokens u - us_cached_input_tokens u)
        * uncached_input_nanodollars_per_token (sp_pricing p)
      + us_cached_input_tokens u * cached_input_nanodollars_per_token (sp_pricing p)
      + us_output_tokens u * output_nanodollars_per_token (sp_pricing p).
Proof.
  unfold model_usage_cost. cbv zeta. rewrite !ensure_bind_Ok, result_bind_Ok.
  setoid_rewrite ensure_bind_Ok.
  intros (Hu & Ht & Hv & m & Hm & Hl & <-%Ok_inj). split_and!; [done|lia..].
Qed.

(** Token classes priced at no more than the larger input rate. *)
Lemma token_cost_bound i c o mi mo ru rc ro :
  0 ≤ c ≤ i → i ≤ mi → 0 ≤ o ≤ mo → 0 ≤ ru → 0 ≤ rc → 0 ≤ ro →
  (i - c) * ru + c * rc + o * ro ≤ mi * Z.max ru rc + mo * ro.
Proof.
  intros. transitivity ((i - c) * Z.max ru rc + c * Z.max ru rc + o * ro).
  - apply Z.add_le_mono_r, Z.add_le_mono; apply Z.mul_le_mono_nonneg_l; lia.
  - rewrite <- Z.mul_add_distr_r. apply Z.add_le_mono; apply Z.mul_le_mono_nonneg_r; lia.
Qed.

Lemma cost_bound p u c r :
  pricing_valid (sp_pricing p) = true → maximum_dispatch_reservation_nanodollars p = Ok r →
  model_usage_cost p u = Ok c → 0 ≤ c ≤ r.
Proof.
  intros (Hu & Hc & Ho)%pricing_valid_rates (-> & _)%dispatch_reservation_Ok
    (Huse & Hi & Hout & Hc0 & Ec)%model_usage_cost_inv.
  split; [done|]. rewrite Ec. unfold input_rate. unfold usage_valid in Huse.
  rewrite !andb_true_iff in Huse. apply token_cost_bound; lia.
Qed.

(** The cost of any usage report. *)
Lemma usage_cost_spec p u r :
  pricing_valid (sp_pricing p) = true → maximum_dispatch_reservation_nanodollars p = Ok r →
  usage_valid u = true →
  if (us_input_tokens u <=? maximum_input_tokens p)
     && (us_output_tokens u <=? maximum_output_tokens p)
  then ∃ c, model_usage_cost p u = Ok c ∧ 0 ≤ c ≤ r ∧
    c = (us_input_tokens u - us_cached_input_tokens u)
          * uncached_input_nanodollars_per_token (sp_pricing p)
        + us_cached_input_tokens u * cached_input_nanodollars_per_token (sp_pricing p)
        + us_output_tokens u * output_nanodollars_per_token (sp_pricing p)
  else model_usage_cost p u = Raise (ModelCallConflict "model usage exceeds the approved profile").
Proof.
  intros Hp Hr Hu. pose proof Hp as (Ru & Rc & Ro)%pricing_valid_rates.
  pose proof Hr as (Er & Hr0 & m & Hm & Hrm)%dispatch_reservation_Ok.
  assert (0 ≤ us_cached_input_tokens u ≤ us_input_tokens u ∧ 0 ≤ us_output_tokens u) as [Hci Ho].
  { unfold usage_valid in Hu. rewrite !andb_true_iff in Hu. lia. }
  unfold model_usage_cost. cbv zeta. rewrite Hu. cbn [ensure mbind result_bind].
  destruct ((us_input_tokens u <=? _) && _) eqn:E.
  - apply andb_true_iff in E as [E1 E2]. set (c := _ + us_output_tokens u * _).
    assert (0 ≤ c ≤ r) as Hc.
    { split; [unfold c; apply Z.add_nonneg_nonneg; [apply Z.add_nonneg_nonneg|]; apply Z.mul_nonneg_nonneg; lia|].
      rewrite Er. unfold c, input_rate. apply token_cost_bound; lia. }
    exists c. rewrite (proj2 (orb_false_iff _ _)) by lia. rewrite (proj2 (Z.ltb_ge c 0)) by lia.
    cbn [negb ensure mbind result_bind]. rewrite Hm. cbn [mbind result_bind].
    rewrite (proj2 (Z.ltb_ge m c)) by lia. done.
  - apply andb_false_iff in E. rewrite (proj2 (orb_true_iff _ _)) by lia. reflexivity.
Qed.

(** C30. A reservation covers its settlement.  For a priced profile whose dispatch reservation
    is defined, every usage report within the profile's token limits is priced, its cost is
    the exact integer sum over the disjoint token classes, and the cost lies between zero and
    the amount reserved for one dispatch; a report outside the limits is refused. *)
Theorem reservation_covers_settlement p u r :
  pricing_valid (sp_pricing p) = true → maximum_dispatch_reservation_nanodollars p = Ok r →
  usage_valid u = true →
  if (us_input_tokens u <=? maximum_input_tokens p)
     && (us_output_tokens u <=? maximum_output_tokens p)
  then ∃ c, model_usage_cost p u = Ok c ∧ 0 ≤ c ≤ r ∧
    c = (us_input_tokens u - us_cached_input_tokens u)
          * uncached_input_nanodollars_per_token (sp_pricing p)
        + us_cached_input_tokens u * cached_input_nanodollars_per_token (sp_pricing p)
        + us_output_tokens u * output_nanodollars_per_token (sp_pricing p)
  else model_usage_cost p u = Raise (ModelCallConflict "model usage exceeds the approved profile").
Proof. apply usage_cost_spec. Qed.

Definition sample_pricing : ModelPricing :=
  {| pricing_policy_id := 0x019000000000700080000000000000b1; pricing_policy_version := 1;
     pricing_policy_digest := lit "sha256:" ++ repeat 97 64;
     uncached_input_nanodollars_per_token := 3000; cached_input_nanodollars_per_token := 300;
     output_nanodollars_per_token := 15000 |}.

Definition sample_spec : ProjectModelProfileSpec :=
  {| sp_project_id := 11; sp_profile_version := 1; sp_provider := lit "openai";
     sp_api := lit "responses"; sp_model_snapshot := lit "model-2026-01-01";
     sp_settings := {| gs_reasoning_effort := RE_low; gs_text_verbosity := TV_low |};
     maximum_request_bytes := 65536; maximum_output_bytes := 8192;
     maximum_response_bytes := 65536; maximum_input_tokens := 1000;
     maximum_output_tokens := 500; maximum_calls := 4; maximum_total_request_bytes := 131072;
     maximum_total_response_bytes := 131072; maximum_total_input_tokens := 2000;
     maximum_total_output_tokens := 1000; allowed_tools := []; maximum_tool_calls := 0;
     maximum_tool_output_bytes := 0; deadline_ms := 60000; sp_pricing := sample_pricing |}.

Definition sample_usage : ModelCallUsage :=
  {| us_input_tokens := 800; us_cached_input_tokens := 300; us_output_tokens := 200;
     us_reasoning_tokens := 50 |}.

Lemma reservation_covers_settlement_witness :
  spec_valid sample_spec = true ∧
  ∃ c, model_usage_cost sample_spec sample_usage = Ok c ∧ 0 ≤ c ≤ 10500000.
Proof.
  split; [vm_compute; reflexivity|].
  pose proof (reservation_covers_settlement sample_spec sample_usage 10500000
    eq_refl eq_refl eq_refl) as H.
  cbn in H. destruct H as (c & H1 & H2 & _). exists c. split; [exact H1|exact H2].
Defined.
