(* ===== verification/ModelStore.v ===== *)
(** * Model usage tables (modules/model_usage/models.py, repository.py)

    The rows of the model-call ledger with their CHECK and UNIQUE constraints, and the
    repository's reads, writes and envelope aggregates.  The ledger is a record of finite
    maps by primary key.  Advisory and row locks serialise the callers and have no effect on
    the state; foreign keys into other modules and the guard triggers of the migration are
    the parameter [ca_admits] of a call, an arbitrary further condition of the database on a
    write, so that what is proved holds whatever they refuse. *)

From S2P Require Import Prelude Text Digest Json Instant OutboxApi OutboxStore ModelApi.

(** ** Rows *)

(** [model_usage_profiles]; the columns that hold the specification are [mp_spec]. *)
Record ModelUsageProfile := {
  mp_id : uuid;
  mp_spec : ProjectModelProfileSpec;
  mp_profile_digest : str;
  mp_operation_id : uuid;
  mp_actor_profile_id : uuid;
  mp_authorization_evidence_id : uuid;
  mp_created_at : instant;
}.

Definition profile_checks (r : ModelUsageProfile) : bool :=
  let p := mp_spec r in let price := sp_pricing p in
  uuid7_shape (mp_id r)
  && digest_pattern (mp_profile_digest r) && digest_pattern (pricing_policy_digest price)
  && (0 <? sp_profile_version p) && (0 <? pricing_policy_version price)
  && in_range 1 100 (maximum_calls p)
  && in_range 1 1048576 (maximum_request_bytes p)
  && in_range 1 1048576 (maximum_output_bytes p)
  && in_range 1 1048576 (maximum_response_bytes p)
  && (6 * maximum_output_bytes p + 4096 <=? maximum_response_bytes p)
  && in_range 1 10000000 (maximum_input_tokens p)
  && in_range 1 10000000 (maximum_output_tokens p)
  && in_range 100 3600000 (deadline_ms p)
  && in_range (maximum_request_bytes p) 104857600 (maximum_total_request_bytes p)
  && in_range (maximum_response_bytes p) 104857600 (maximum_total_response_bytes p)
  && in_range (maximum_input_tokens p) 100000000 (maximum_total_input_tokens p)
  && in_range (maximum_output_tokens p) 100000000 (maximum_total_output_tokens p)
  && (maximum_total_request_bytes p <=? maximum_request_bytes p * maximum_calls p)
  && (maximum_total_response_bytes p <=? maximum_response_bytes p * maximum_calls p)
  && (maximum_total_input_tokens p <=? maximum_input_tokens p * maximum_calls p)
  && (maximum_total_output_tokens p <=? maximum_output_tokens p * maximum_calls p)
  && in_range 0 1000 (maximum_tool_calls p)
  && in_range 0 104857600 (maximum_tool_output_bytes p)
  && match allowed_tools p with
     | [] => (maximum_tool_calls p =? 0) && (maximum_tool_output_bytes p =? 0)
     | _ => (0 <? maximum_tool_calls p) && (0 <? maximum_tool_output_bytes p)
     end
  && (0 <=? uncached_input_nanodollars_per_token price)
  && (0 <=? cached_input_nanodollars_per_token price)
  && (0 <=? output_nanodollars_per_token price)
  && (0 <? Z.max (uncached_input_nanodollars_per_token price)
             (Z.max (cached_input_nanodollars_per_token price) (output_nanodollars_per_token price))).

Record ModelUsageBudgetAccount := {
  ba_project_id : uuid;
  ba_current_configuration_id : uuid;
  ba_lifetime_reserved_nanodollars : Z;
  ba_lifetime_settled_nanodollars : Z;
}.

Definition account_checks (a : ModelUsageBudgetAccount) : bool :=
  (0 <=? ba_lifetime_reserved_nanodollars a) && (0 <=? ba_lifetime_settled_nanodollars a).

Record ModelUsageBudgetConfiguration := {
  bc_id : uuid;
  bc_spec : ProjectModelBudgetConfigurationSpec;
  bc_configuration_digest : str;
  bc_operation_id : uuid;
  bc_actor_profile_id : uuid;
  bc_authorization_evidence_id : uuid;
  bc_created_at : instant;
}.

Definition configuration_checks (c : ModelUsageBudgetConfiguration) : bool :=
  let s := bc_spec c in
  uuid7_shape (bc_id c) && digest_pattern (bc_configuration_digest c)
  && (0 <? bs_configuration_version s) && (0 <? authorized_total_nanodollars s)
  && (0 <=? externally_reconciled_prior_spend_nanodollars s)
  && (0 <? lifetime_limit_nanodollars s)
  && (externally_reconciled_prior_spend_nanodollars s + lifetime_limit_nanodollars s
      <=? authorized_total_nanodollars s).

Record CheckerModelUsageEnvelope := {
  ce_id : uuid; ce_task_id : uuid; ce_key : EnvelopeKey; ce_created_at : instant }.

Definition envelope_key_checks (k : EnvelopeKey) : bool :=
  digest_pattern (ek_registry_entry_digest k) && digest_pattern (ek_configuration_sha256 k)
  && digest_pattern (ps_profile_digest (ek_profile k))
  && (0 <? ek_submission_version k) && (0 <? ps_profile_version (ek_profile k))
  && Identifier (ek_requirement_id k).

Record CheckerModelUsageSlot := {
  cs_id : uuid;
  cs_envelope_id : uuid;
  cs_task_id : uuid;
  cs_key : ModelPaidSlotKey;
  cs_first_request_sha256 : str;
  cs_created_at : instant;
}.

Definition slot_checks (s : CheckerModelUsageSlot) : bool :=
  uuid7_shape (cs_id s) && envelope_key_checks (sk_envelope (cs_key s))
  && digest_pattern (cs_first_request_sha256 s) && in_range 0 99 (sk_slot_index (cs_key s)).

Record SetupModelUsageEnvelope := {
  se_id : uuid; se_key : SetupEnvelopeKey; se_created_at : instant }.

Definition setup_key_checks (k : SetupEnvelopeKey) : bool :=
  digest_pattern (xk_runtime_configuration_hash k)
  && digest_pattern (ps_profile_digest (xk_profile k))
  && (0 <? xk_setup_generation k) && (0 <? ps_profile_version (xk_profile k)).

Record SetupModelUsageSlot := {
  ss_id : uuid;
  ss_envelope_id : uuid;
  ss_key : SetupModelUsageSlotKey;
  ss_request_sha256 : str;
  ss_created_at : instant;
}.

Definition setup_slot_checks (s : SetupModelUsageSlot) : bool :=
  uuid7_shape (ss_id s) && setup_key_checks (xs_envelope (ss_key s))
  && digest_pattern (ss_request_sha256 s) && in_range 0 99 (xs_call_index (ss_key s)).

(** *** Effects

    The nullable columns of [model_usage_effects] are grouped by the operation that writes
    them; [provider_response_id] is written by two of them. *)

Record EvidenceColumns := {
  ec_binding_id : option uuid;
  ec_content_id : option uuid;
  ec_put_attempt_id : option uuid;
  ec_verification_receipt_id : option uuid;
  ec_content_sha256 : option str;
  ec_byte_count : option Z;
}.

Definition no_evidence : EvidenceColumns := Build_EvidenceColumns None None None None None None.

Record DispatchColumns := {
  dc_request : EvidenceColumns;
  dc_budget_configuration_id : option uuid;
  dc_budget_configuration_version : option Z;
  dc_budget_configuration_digest : option str;
  dc_reserved_nanodollars : option Z;
  dc_execution_facts : option ModelCallExecutionFacts;
  dc_authorization_evidence_id : option uuid;
  dc_dispatched_at : option instant;
}.

Definition no_dispatch : DispatchColumns :=
  Build_DispatchColumns no_evidence None None None None None None None.

Record ObservationColumns := {
  oc_uncertainty_digest : option str;
  oc_authorization_evidence_id : option uuid;
}.

Definition no_observation : ObservationColumns := Build_ObservationColumns None None.

Record TerminalColumns := {
  tc_response : EvidenceColumns;
  tc_input_tokens : option Z;
  tc_cached_input_tokens : option Z;
  tc_output_tokens : option Z;
  tc_reasoning_tokens : option Z;
  tc_settled_nanodollars : option Z;
  tc_settlement_authorization_evidence_id : option uuid;
  tc_settled_at : option instant;
  tc_no_effect_proof_id : option uuid;
  tc_no_effect_proof_digest : option str;
  tc_no_effect_observed_at : option instant;
  tc_authorization_evidence_id : option uuid;
  tc_terminal_at : option instant;
}.

Definition no_terminal : TerminalColumns :=
  Build_TerminalColumns no_evidence None None None None None None None None None None None None.

Record ModelUsageEffect := {
  ef_id : uuid;
  ef_checker_slot_id : option uuid;
  ef_setup_slot_id : option uuid;
  ef_attempt_number : Z;
  ef_internal_call_request_id : uuid;
  ef_parent_attempt_id : option uuid;
  ef_request_sha256 : str;
  ef_state : EffectState;
  ef_prepared_execution_facts : option ModelCallExecutionFacts;
  ef_prepared_authorization_evidence_id : uuid;
  ef_prepared_at : instant;
  ef_provider_response_id : option str;
  ef_dispatch : DispatchColumns;
  ef_observation : ObservationColumns;
  ef_terminal : TerminalColumns;
}.

Definition ef_reserved (e : ModelUsageEffect) : option Z := dc_reserved_nanodollars (ef_dispatch e).
Definition ef_settled (e : ModelUsageEffect) : option Z := tc_settled_nanodollars (ef_terminal e).

(** [case when x is null then true else b] of a CHECK *)
Definition null_or (o : option Z) (f : Z → bool) : bool :=
  match o with Some x => f x | None => true end.

(** A comparison with NULL does not violate a CHECK. *)
Definition usage_columns_check (t : TerminalColumns) : bool :=
  null_or (tc_input_tokens t) (λ i,
    (0 <=? i)
    && null_or (tc_cached_input_tokens t) (λ c, in_range 0 i c)
    && null_or (tc_output_tokens t) (λ o, (0 <=? o)
         && null_or (tc_reasoning_tokens t) (λ r, in_range 0 o r))
    && null_or (tc_reasoning_tokens t) (λ r, 0 <=? r)).

Definition effect_checks (e : ModelUsageEffect) : bool :=
  uuid7_shape (ef_id e) && digest_pattern (ef_request_sha256 e)
  && (0 <? ef_attempt_number e)
  && null_or (ef_reserved e) (λ r, 0 <? r)
  && null_or (ef_settled e) (λ s, 0 <=? s)
  && usage_columns_check (ef_terminal e)
  && match ef_checker_slot_id e, ef_setup_slot_id e with
     | Some _, None | None, Some _ => true
     | _, _ => false
     end.

Record CheckerModelUsageRecovery := {
  cr_id : uuid;
  cr_attempt_id : uuid;
  cr_checker_run_id : uuid;
  cr_worker_lease_id : uuid;
  cr_worker_lease_generation : Z;
  cr_execution_facts : ModelCallExecutionFacts;
  cr_effect_facts : ModelCallEffectAuthorityFacts;
  cr_authorization_evidence_id : uuid;
  cr_created_at : instant;
}.

Definition recovery_checks (r : CheckerModelUsageRecovery) : bool :=
  uuid7_shape (cr_id r) && (0 <? cr_worker_lease_generation r).

(** ** The ledger *)

Record Ledger := {
  lg_profiles : gmap Z ModelUsageProfile;
  lg_configurations : gmap Z ModelUsageBudgetConfiguration;
  lg_accounts : gmap Z ModelUsageBudgetAccount;
  lg_envelopes : gmap Z CheckerModelUsageEnvelope;
  lg_slots : gmap Z CheckerModelUsageSlot;
  lg_setup_envelopes : gmap Z SetupModelUsageEnvelope;
  lg_setup_slots : gmap Z SetupModelUsageSlot;
  lg_effects : gmap Z ModelUsageEffect;
  lg_recoveries : gmap Z CheckerModelUsageRecovery;
}.

Definition empty_ledger : Ledger := Build_Ledger ∅ ∅ ∅ ∅ ∅ ∅ ∅ ∅ ∅.

Definition with_profiles f L := Build_Ledger (f (lg_profiles L)) (lg_configurations L)
  (lg_accounts L) (lg_envelopes L) (lg_slots L) (lg_setup_envelopes L) (lg_setup_slots L)
  (lg_effects L) (lg_recoveries L).
Definition with_configurations f L := Build_Ledger (lg_profiles L) (f (lg_configurations L))
  (lg_accounts L) (lg_envelopes L) (lg_slots L) (lg_setup_envelopes L) (lg_setup_slots L)
  (lg_effects L) (lg_recoveries L).
Definition with_accounts f L := Build_Ledger (lg_profiles L) (lg_configurations L)
  (f (lg_accounts L)) (lg_envelopes L) (lg_slots L) (lg_setup_envelopes L) (lg_setup_slots L)
  (lg_effects L) (lg_recoveries L).
Definition with_envelopes f L := Build_Ledger (lg_profiles L) (lg_configurations L)
  (lg_accounts L) (f (lg_envelopes L)) (lg_slots L) (lg_setup_envelopes L) (lg_setup_slots L)
  (lg_effects L) (lg_recoveries L).
Definition with_slots f L := Build_Ledger (lg_profiles L) (lg_configurations L)
  (lg_accounts L) (lg_envelopes L) (f (lg_slots L)) (lg_setup_envelopes L) (lg_setup_slots L)
  (lg_effects L) (lg_recoveries L).
Definition with_setup_envelopes f L := Build_Ledger (lg_profiles L) (lg_configurations L)
  (lg_accounts L) (lg_envelopes L) (lg_slots L) (f (lg_setup_envelopes L)) (lg_setup_slots L)
  (lg_effects L) (lg_recoveries L).
Definition with_setup_slots f L := Build_Ledger (lg_profiles L) (lg_configurations L)
  (lg_accounts L) (lg_envelopes L) (lg_slots L) (lg_setup_envelopes L) (f (lg_setup_slots L))
  (lg_effects L) (lg_recoveries L).
Definition with_effects f L := Build_Ledger (lg_profiles L) (lg_configurations L)
  (lg_accounts L) (lg_envelopes L) (lg_slots L) (lg_setup_envelopes L) (lg_setup_slots L)
  (f (lg_effects L)) (lg_recoveries L).
Definition with_recoveries f L := Build_Ledger (lg_profiles L) (lg_configurations L)
  (lg_accounts L) (lg_envelopes L) (lg_slots L) (lg_setup_envelopes L) (lg_setup_slots L)
  (lg_effects L) (f (lg_recoveries L)).

(** What a call takes from its surroundings: identifiers from [new_record_id], database
    times, and the database's further conditions. *)
Record Call := {
  ca_transaction : bool;                 (* an active root transaction *)
  ca_row_id : uuid;                      (* profile, configuration, recovery *)
  ca_envelope_id : uuid;
  ca_slot_id : uuid;
  ca_effect_id : uuid;
  ca_request_id : uuid;
  ca_created_at : instant;               (* column defaults *)
  ca_now : instant;                      (* the first [now()] of the call *)
  ca_now2 : instant;                     (* the second *)
  ca_admits : Ledger → Ledger → bool;
}.

(** [require_model_call_transaction] *)
Definition require_model_call_transaction (c : Call) : result ModelExn unit :=
  ensure (ca_transaction c) (ModelCallUnavailable "model_call_transaction_unavailable").

(** ** Writes *)

(** A UNIQUE constraint on [f]; rows whose [f] has a NULL do not take part. *)
Definition unique_on {A K} `{EqDecision K} (f : A → option K) (id : uuid) (r : A) (t : gmap Z A)
    : bool :=
  forallb (λ p, bool_decide (p.1 = id) || bool_decide (f p.2 = None)
                || negb (bool_decide (f p.2 = f r))) (map_to_list t).

(** The flush of one written row. *)
Definition flush (c : Call) (ok : bool) (L L' : Ledger) : result ModelExn Ledger :=
  _ ← ensure (ok && ca_admits c L L') DatabaseError;
  Ok L'.

Definition fresh_id {A} (id : uuid) (t : gmap Z A) : bool := bool_decide (t !! id = None).

Definition add_profile (c : Call) (r : ModelUsageProfile) (L : Ledger) : result ModelExn Ledger :=
  let t := lg_profiles L in
  flush c (fresh_id (mp_id r) t && profile_checks r
           && unique_on (λ x, Some (sp_project_id (mp_spec x), sp_profile_version (mp_spec x)))
                (mp_id r) r t
           && unique_on (λ x, Some (mp_profile_digest x)) (mp_id r) r t
           && unique_on (λ x, Some (mp_operation_id x)) (mp_id r) r t
           && unique_on (λ x, Some (mp_authorization_evidence_id x)) (mp_id r) r t)
    L (with_profiles (insert (mp_id r) r) L).

Definition add_configuration (c : Call) (r : ModelUsageBudgetConfiguration) (L : Ledger)
    : result ModelExn Ledger :=
  let t := lg_configurations L in
  flush c (fresh_id (bc_id r) t && configuration_checks r
           && unique_on (λ x, Some (bs_project_id (bc_spec x), bs_configuration_version (bc_spec x)))
                (bc_id r) r t
           && unique_on (λ x, Some (bc_configuration_digest x)) (bc_id r) r t
           && unique_on (λ x, Some (bc_operation_id x)) (bc_id r) r t
           && unique_on (λ x, Some (bc_authorization_evidence_id x)) (bc_id r) r t)
    L (with_configurations (insert (bc_id r) r) L).

Definition account_row_ok (a : ModelUsageBudgetAccount) (L : Ledger) : bool :=
  account_checks a
  && unique_on (λ x, Some (ba_current_configuration_id x)) (ba_project_id a) a (lg_accounts L).

Definition add_account (c : Call) (a : ModelUsageBudgetAccount) (L : Ledger)
    : result ModelExn Ledger :=
  flush c (fresh_id (ba_project_id a) (lg_accounts L) && account_row_ok a L)
    L (with_accounts (insert (ba_project_id a) a) L).

Definition update_account (c : Call) (a : ModelUsageBudgetAccount) (L : Ledger)
    : result ModelExn Ledger :=
  flush c (account_row_ok a L) L (with_accounts (insert (ba_project_id a) a) L).

Definition add_envelope (c : Call) (r : CheckerModelUsageEnvelope) (L : Ledger)
    : result ModelExn Ledger :=
  flush c (fresh_id (ce_id r) (lg_envelopes L)
           && uuid7_shape (ce_id r) && envelope_key_checks (ce_key r)
           && unique_on (λ x, Some (ce_key x)) (ce_id r) r (lg_envelopes L))
    L (with_envelopes (insert (ce_id r) r) L).

Definition add_slot (c : Call) (r : CheckerModelUsageSlot) (L : Ledger) : result ModelExn Ledger :=
  flush c (fresh_id (cs_id r) (lg_slots L) && slot_checks r
           && unique_on (λ x, Some (cs_key x)) (cs_id r) r (lg_slots L))
    L (with_slots (insert (cs_id r) r) L).

(** The columns of [setup_model_usage_envelopes_stable_identity] and of the slots' one. *)
Definition setup_envelope_identity (k : SetupEnvelopeKey) : uuid * str * ModelProfileSelector :=
  (xk_compilation_attempt_id k, xk_runtime_configuration_hash k, xk_profile k).
Definition setup_slot_identity (k : SetupModelUsageSlotKey)
    : uuid * str * ModelProfileSelector * SetupPhase * Z :=
  (setup_envelope_identity (xs_envelope k), xs_phase k, xs_call_index k).

Definition add_setup_envelope (c : Call) (r : SetupModelUsageEnvelope) (L : Ledger)
    : result ModelExn Ledger :=
  let t := lg_setup_envelopes L in
  flush c (fresh_id (se_id r) t && uuid7_shape (se_id r) && setup_key_checks (se_key r)
           && unique_on (λ x, Some (setup_envelope_identity (se_key x))) (se_id r) r t
           && unique_on (λ x, Some (xk_compilation_attempt_id (se_key x))) (se_id r) r t)
    L (with_setup_envelopes (insert (se_id r) r) L).

Definition add_setup_slot (c : Call) (r : SetupModelUsageSlot) (L : Ledger)
    : result ModelExn Ledger :=
  flush c (fresh_id (ss_id r) (lg_setup_slots L) && setup_slot_checks r
           && unique_on (λ x, Some (setup_slot_identity (ss_key x))) (ss_id r) r (lg_setup_slots L))
    L (with_setup_slots (insert (ss_id r) r) L).

(** The CHECK and UNIQUE constraints of [model_usage_effects]. *)
Definition effect_row_ok (e : ModelUsageEffect) (L : Ledger) : bool :=
  let t := lg_effects L in let id := ef_id e in
  effect_checks e
  && unique_on (λ x, s ← ef_checker_slot_id x; Some (s, ef_attempt_number x)) id e t
  && unique_on (λ x, s ← ef_setup_slot_id x; Some (s, ef_attempt_number x)) id e t
  && unique_on (λ x, Some (ef_internal_call_request_id x)) id e t
  && unique_on (λ x, Some (ef_prepared_authorization_evidence_id x)) id e t
  && unique_on (λ x, dc_authorization_evidence_id (ef_dispatch x)) id e t
  && unique_on (λ x, tc_settlement_authorization_evidence_id (ef_terminal x)) id e t
  && unique_on (λ x, tc_authorization_evidence_id (ef_terminal x)) id e t
  && unique_on (λ x, oc_authorization_evidence_id (ef_observation x)) id e t.

Definition add_effect (c : Call) (e : ModelUsageEffect) (L : Ledger) : result ModelExn Ledger :=
  flush c (fresh_id (ef_id e) (lg_effects L) && effect_row_ok e L)
    L (with_effects (insert (ef_id e) e) L).

(** One flush of an effect and, when it moved, of the account of its project. *)
Definition update_effect (c : Call) (e : ModelUsageEffect) (a : option ModelUsageBudgetAccount)
    (L : Ledger) : result ModelExn Ledger :=
  let L' := with_effects (insert (ef_id e) e) L in
  match a with
  | None => flush c (effect_row_ok e L) L L'
  | Some a => flush c (effect_row_ok e L && account_row_ok a L) L
                (with_accounts (insert (ba_project_id a) a) L')
  end.

Definition add_recovery (c : Call) (r : CheckerModelUsageRecovery) (L : Ledger)
    : result ModelExn Ledger :=
  let t := lg_recoveries L in
  flush c (fresh_id (cr_id r) t && recovery_checks r
           && unique_on (λ x, Some (cr_attempt_id x, cr_checker_run_id x, cr_worker_lease_id x,
                                    cr_worker_lease_generation x)) (cr_id r) r t
           && unique_on (λ x, Some (cr_authorization_evidence_id x)) (cr_id r) r t)
    L (with_recoveries (insert (cr_id r) r) L).

(** ** Reads *)

Definition rows {A} (t : gmap Z A) : list A := (map_to_list t).*2.
Definition first_row {A} (p : A → bool) (t : gmap Z A) : option A := head (List.filter p (rows t)).

(** [order_by(f.desc()).limit(1)] *)
Fixpoint max_by {A} (f : A → Z) (l : list A) : option A :=
  match l with
  | [] => None
  | x :: l' => match max_by f l' with
               | Some y => if f x <? f y then Some y else Some x
               | None => Some x
               end
  end.

Definition profile_by_operation (op : uuid) (L : Ledger) : option ModelUsageProfile :=
  first_row (λ r, mp_operation_id r =? op) (lg_profiles L).
Definition profile_by_version (project : uuid) (v : Z) (L : Ledger) : option ModelUsageProfile :=
  first_row (λ r, (sp_project_id (mp_spec r) =? project) && (sp_profile_version (mp_spec r) =? v))
    (lg_profiles L).
Definition latest_profile (project : uuid) (L : Ledger) : option ModelUsageProfile :=
  max_by (λ r, sp_profile_version (mp_spec r))
    (List.filter (λ r, sp_project_id (mp_spec r) =? project) (rows (lg_profiles L))).
Definition profile_exact (s : ModelProfileSelector) (L : Ledger) : option ModelUsageProfile :=
  r ← lg_profiles L !! ps_profile_id s;
  if (sp_profile_version (mp_spec r) =? ps_profile_version s)
     && str_eqb (mp_profile_digest r) (ps_profile_digest s)
  then Some r else None.

Definition budget_account (project : uuid) (L : Ledger) : option ModelUsageBudgetAccount :=
  lg_accounts L !! project.
Definition budget_configuration_by_operation (op : uuid) (L : Ledger)
    : option ModelUsageBudgetConfiguration :=
  first_row (λ r, bc_operation_id r =? op) (lg_configurations L).
Definition budget_configuration_by_version (project : uuid) (v : Z) (L : Ledger)
    : option ModelUsageBudgetConfiguration :=
  first_row (λ r, (bs_project_id (bc_spec r) =? project)
                  && (bs_configuration_version (bc_spec r) =? v)) (lg_configurations L).
Definition current_budget_configuration (a : ModelUsageBudgetAccount) (L : Ledger)
    : option ModelUsageBudgetConfiguration :=
  lg_configurations L !! ba_current_configuration_id a.

Definition envelope (k : ModelPaidSlotKey) (L : Ledger) : option CheckerModelUsageEnvelope :=
  first_row (λ r, bool_decide (ce_key r = sk_envelope k)) (lg_envelopes L).
Definition slot (k : ModelPaidSlotKey) (L : Ledger) : option CheckerModelUsageSlot :=
  first_row (λ r, bool_decide (cs_key r = k)) (lg_slots L).
Definition latest_attempt (slot_id : uuid) (L : Ledger) : option ModelUsageEffect :=
  max_by ef_attempt_number
    (List.filter (λ e, bool_decide (ef_checker_slot_id e = Some slot_id)) (rows (lg_effects L))).

Definition setup_envelope (k : SetupModelUsageSlotKey) (L : Ledger) : option SetupModelUsageEnvelope :=
  first_row (λ r, bool_decide (se_key r = xs_envelope k)) (lg_setup_envelopes L).
Definition setup_slot (k : SetupModelUsageSlotKey) (L : Ledger) : option SetupModelUsageSlot :=
  first_row (λ r, bool_decide (setup_slot_identity (ss_key r) = setup_slot_identity k))
    (lg_setup_slots L).
Definition latest_setup_effect (slot_id : uuid) (L : Ledger) : option ModelUsageEffect :=
  max_by ef_attempt_number
    (List.filter (λ e, bool_decide (ef_setup_slot_id e = Some slot_id)) (rows (lg_effects L))).

Definition attempt (id : uuid) (L : Ledger) : option ModelUsageEffect := lg_effects L !! id.

Definition recovery (attempt_id : uuid) (x : ModelCallExecutionFacts) (L : Ledger)
    : option CheckerModelUsageRecovery :=
  first_row (λ r, (cr_attempt_id r =? attempt_id) && (cr_checker_run_id r =? ex_checker_run_id x)
                  && (cr_worker_lease_id r =? ex_worker_lease_id x)
                  && (cr_worker_lease_generation r =? ex_worker_lease_generation x))
    (lg_recoveries L).

(** ** Envelope totals *)

Record ModelUsageEnvelopeTotals := {
  tt_dispatches : Z;
  tt_pending_dispatches : Z;
  tt_reserved_nanodollars : Z;
  tt_settled_nanodollars : Z;
  tt_request_bytes : Z;
  tt_response_bytes : Z;
  tt_input_tokens : Z;
  tt_output_tokens : Z;
}.

Definition pending (e : ModelUsageEffect) : bool :=
  bool_decide (ef_state e = ES_dispatching) || bool_decide (ef_state e = ES_uncertain).

(** [sum] over the rows, ignoring NULLs. *)
Definition sum_rows (f : ModelUsageEffect → Z) (t : gmap Z ModelUsageEffect) : Z :=
  sumZ (f <$> rows t).

Definition nulls0 (o : option Z) : Z := default 0 o.

Definition reserved_amount (e : ModelUsageEffect) : Z :=
  if pending e then nulls0 (ef_reserved e) else 0.
Definition settled_amount (e : ModelUsageEffect) : Z := nulls0 (ef_settled e).

(** The aggregate of both totals queries, over the effects the join selects. *)
Definition totals (member : ModelUsageEffect → bool) (t : gmap Z ModelUsageEffect)
    : ModelUsageEnvelopeTotals :=
  let sum f := sum_rows (λ e, if member e then f e else 0) t in
  {| tt_dispatches := sum (λ e, if bool_decide (ef_state e = ES_prepared) then 0 else 1);
     tt_pending_dispatches := sum (λ e, if pending e then 1 else 0);
     tt_reserved_nanodollars := sum reserved_amount;
     tt_settled_nanodollars := sum settled_amount;
     tt_request_bytes := sum (λ e, nulls0 (ec_byte_count (dc_request (ef_dispatch e))));
     tt_response_bytes := sum (λ e, nulls0 (ec_byte_count (tc_response (ef_terminal e))));
     tt_input_tokens := sum (λ e, nulls0 (tc_input_tokens (ef_terminal e)));
     tt_output_tokens := sum (λ e, nulls0 (tc_output_tokens (ef_terminal e))) |}.

Definition in_envelope (id : uuid) (L : Ledger) (e : ModelUsageEffect) : bool :=
  match ef_checker_slot_id e ≫= λ s, lg_slots L !! s with
  | Some s => cs_envelope_id s =? id
  | None => false
  end.

Definition envelope_totals (id : uuid) (L : Ledger) : ModelUsageEnvelopeTotals :=
  totals (in_envelope id L) (lg_effects L).

Definition in_setup_envelope (id : uuid) (L : Ledger) (e : ModelUsageEffect) : bool :=
  match ef_setup_slot_id e ≫= λ s, lg_setup_slots L !! s with
  | Some s => ss_envelope_id s =? id
  | None => false
  end.

Definition setup_envelope_totals (id : uuid) (L : Ledger) : ModelUsageEnvelopeTotals :=
  totals (in_setup_envelope id L) (lg_effects L).
