(* ===== verification/ModelService.v ===== *)
(** * The checker model-call service (modules/model_usage/service.py, profiles.py)

    [ModelCallService] as functions from a ledger to a result and a ledger; a call that
    raises leaves its caller's transaction to be rolled back, so it changes nothing.  The
    authority, current-execution and evidence ports are a record of functions.  Locks order
    the callers and do not appear: every row a call decides on is re-read under its lock. *)

From S2P Require Import Prelude Text Digest Json Instant OutboxApi OutboxStore ModelApi ModelStore.

(** ** [_sha] *)

(** What Python takes from the Unicode database for code points above 127: decimal digit
    values, white space, and lower-casing of a text that has such code points. *)
Record Unicode := {
  un_decimal : Z → option Z;
  un_space : Z → bool;
  un_lower : str → str;
}.

Definition ascii_space (c : Z) : bool := (c =? 32) || in_range 9 13 c || in_range 28 31 c.
Definition ascii_lower (c : Z) : Z := if is_upper c then c + 32 else c.

(** The text [int()] scans: other scripts' digits and spaces become ASCII ones. *)
Definition int_text (u : Unicode) (s : str) : str :=
  map (λ c, if c <? 128 then c
            else match un_decimal u c with
                 | Some d => 48 + d
                 | None => if un_space u c then 32 else 63
                 end) s.

Fixpoint lstrip (s : str) : str :=
  match s with
  | c :: s' => if ascii_space c then lstrip s' else s
  | [] => []
  end.

(** Hexadecimal digits with single underscores between them. *)
Fixpoint hex_digits (after_digit : bool) (s : str) : bool :=
  match s with
  | [] => after_digit
  | c :: s' =>
      if c =? 95 then after_digit && match s' with [] => false | _ => hex_digits false s' end
      else is_hex_digit (ascii_lower c) && hex_digits true s'
  end.

(** [int(s, 16)] does not raise. *)
Definition int16_ok (u : Unicode) (s : str) : bool :=
  let s := rev (lstrip (rev (lstrip (int_text u s)))) in
  let s := match s with c :: s' => if (c =? 43) || (c =? 45) then s' else s | [] => [] end in
  match s with
  | 48 :: x :: s' =>
      if ascii_lower x =? 120
      then hex_digits false match s' with 95 :: r => r | _ => s' end
      else hex_digits false s
  | _ => hex_digits false s
  end.

Definition str_lower (u : Unicode) (s : str) : str :=
  if forallb (λ c, c <? 128) s then map ascii_lower s else un_lower u s.

Definition _sha (u : Unicode) (value : str) : result ModelExn str :=
  _ ← ensure (negb (negb (len value =? 71) || negb (starts_with (lit "sha256:") value)))
        (ModelCallConflict "model_call_digest_invalid");
  _ ← ensure (int16_ok u (drop 7 value)) (ModelCallConflict "model_call_digest_invalid");
  _ ← ensure (str_eqb (drop 7 value) (str_lower u (drop 7 value)))
        (ModelCallConflict "model_call_digest_invalid");
  Ok value.

(** ** Ports *)

Record ModelPorts := {
  authorize_profile : ModelProfileProvisioningFacts → result ModelExn ModelActionEvidence;
  authorize_budget : ModelBudgetProvisioningFacts → result ModelExn ModelActionEvidence;
  authorize_prepare :
    ModelCallExecutionFacts → ModelPaidSlotKey → str → result ModelExn ModelActionEvidence;
  authorize_dispatch : ModelCallExecutionFacts → AttachedModelCallAttempt → ModelCallEvidence →
    result ModelExn ModelActionEvidence;
  authorize_recover :
    ModelCallExecutionFacts → ModelCallEffectAuthorityFacts → result ModelExn ModelActionEvidence;
  authorize_observe :
    ModelCallEffectAuthorityFacts → option str → str → result ModelExn ModelActionEvidence;
  authorize_child : uuid → uuid → str → result ModelExn ModelActionEvidence;
  authorize_complete : ModelCallEffectAuthorityFacts → option ModelCallEvidence → str →
    result ModelExn ModelActionEvidence;
  require_current : ModelCallExecutionFacts → ModelPaidSlotKey → result ModelExn unit;
  require_recovery_current : ModelPaidSlotKey → uuid → result ModelExn unit;
  require_request : AttachedModelCallAttempt → ModelCallEvidence → result ModelExn unit;
  require_response : uuid → ModelCallEvidence → result ModelExn unit;
  dump_datetime : instant → str;
  unicode : Unicode;
}.

(** The service's [_require_authority], and the setup service's with its own code. *)
Definition require_authority (code : string) (action : string) (facts : json)
    (evidence : ModelActionEvidence) : result ModelExn unit :=
  digest ← oget (model_action_digest action facts) ValueError;
  ensure (str_eqb (ae_facts_digest evidence) digest) (ModelCallUnavailable code).

Definition _require_authority := require_authority "model_call_authority_unavailable".

(** ** Stored values *)

Definition stored_model_profile (r : ModelUsageProfile) : result ModelExn ProjectModelProfile :=
  let facts := {| pf_operation_id := mp_operation_id r;
                  pf_actor_profile_id := mp_actor_profile_id r; pf_spec := mp_spec r;
                  pf_profile_digest := mp_profile_digest r |} in
  _ ← ensure (profile_facts_valid facts && uuid7_shape (mp_id r)) ValueError;
  Ok {| pp_facts := facts; pp_profile_id := mp_id r;
        pp_authorization_evidence_id := mp_authorization_evidence_id r;
        pp_created_at := mp_created_at r |}.

(** [_evidence(row, prefix)] on one side's columns *)
Definition _evidence (c : EvidenceColumns) : result ModelExn ModelCallEvidence :=
  let code := ModelCallUnavailable "model_call_evidence_unavailable" in
  binding ← oget (ec_binding_id c) code;
  content ← oget (ec_content_id c) code;
  put ← oget (ec_put_attempt_id c) code;
  receipt ← oget (ec_verification_receipt_id c) code;
  sha ← oget (ec_content_sha256 c) code;
  count ← oget (ec_byte_count c) code;
  let e := {| me_binding_id := binding; me_content_id := content; me_put_attempt_id := put;
              me_verification_receipt_id := receipt; me_content_sha256 := sha;
              me_byte_count := count |} in
  _ ← ensure (evidence_valid e) ValueError;
  Ok e.

(** [_set_evidence] *)
Definition _set_evidence (e : ModelCallEvidence) : EvidenceColumns :=
  {| ec_binding_id := Some (me_binding_id e); ec_content_id := Some (me_content_id e);
     ec_put_attempt_id := Some (me_put_attempt_id e);
     ec_verification_receipt_id := Some (me_verification_receipt_id e);
     ec_content_sha256 := Some (me_content_sha256 e); ec_byte_count := Some (me_byte_count e) |}.

(** [_attempt]: a prepared row is projected as [PreparedModelCallAttempt]. *)
Definition _attempt (s : CheckerModelUsageSlot) (e : ModelUsageEffect) (replayed : bool)
    : result ModelExn AttachedModelCallAttempt :=
  let a := {| at_slot_id := cs_id s; at_slot_key := cs_key s; at_attempt_id := ef_id e;
              at_attempt_number := ef_attempt_number e;
              at_internal_call_request_id := ef_internal_call_request_id e;
              at_request_sha256 := ef_request_sha256 e; at_state := ef_state e;
              at_replayed := replayed |} in
  _ ← ensure (attempt_valid a) ValueError;
  Ok a.

Definition _effect (s : CheckerModelUsageSlot) (e : ModelUsageEffect) : ModelCallEffectAuthorityFacts :=
  {| ea_project_id := slot_project (cs_key s); ea_task_id := cs_task_id s; ea_slot_id := cs_id s;
     ea_slot_key := cs_key s; ea_attempt_id := ef_id e;
     ea_internal_call_request_id := ef_internal_call_request_id e |}.

Definition _require_effect (supplied : ModelCallEffectAuthorityFacts) (s : CheckerModelUsageSlot)
    (e : ModelUsageEffect) : result ModelExn unit :=
  ensure (bool_decide (supplied = _effect s e)) (ModelCallUnavailable "model_call_effect_unavailable").

(** [_usage]: absent, complete, or partial and refused *)
Definition _usage (t : TerminalColumns) : result ModelExn (option ModelCallUsage) :=
  match tc_input_tokens t, tc_cached_input_tokens t, tc_output_tokens t, tc_reasoning_tokens t with
  | None, None, None, None => Ok None
  | Some i, Some c, Some o, Some r =>
      let u := {| us_input_tokens := i; us_cached_input_tokens := c; us_output_tokens := o;
                  us_reasoning_tokens := r |} in
      _ ← ensure (usage_valid u) ValueError;
      Ok (Some u)
  | _, _, _, _ => Raise (ModelCallUnavailable "model_call_usage_unavailable")
  end.

(** [_stored_retry_terminal_digest]; [None] where the stored facts are incomplete *)
Definition _stored_retry_terminal_digest (e : ModelUsageEffect) : result ModelExn (option str) :=
  let t := ef_terminal e in
  match ef_state e with
  | ES_known_no_effect =>
      match tc_no_effect_proof_id t, tc_no_effect_proof_digest t, tc_no_effect_observed_at t,
            ef_reserved e with
      | Some pid, Some pd, Some at_, Some _ =>
          d ← oget (canonical_json_hash (no_effect_facts pid pd at_)) ValueError; Ok (Some d)
      | _, _, _, _ => Ok None
      end
  | ES_known_failed =>
      usage ← _usage t;
      match usage, ef_provider_response_id e, ec_content_sha256 (tc_response t), ef_settled e,
            tc_settlement_authorization_evidence_id t, tc_settled_at t with
      | Some u, Some rid, Some sha, Some settled, Some _, Some _ =>
          d ← oget (canonical_json_hash (known_failed_facts rid sha u settled)) ValueError;
          Ok (Some d)
      | _, _, _, _, _, _ => Ok None
      end
  | _ => Ok None
  end.

(** ** Administration *)

Definition provision_profile (P : ModelPorts) (c : Call) (facts : ModelProfileProvisioningFacts)
    (L : Ledger) : result ModelExn (ProjectModelProfile * Ledger) :=
  _ ← require_model_call_transaction c;
  _ ← ensure (profile_facts_valid facts) ValueError;
  _ ← maximum_reservation_nanodollars (pf_spec facts);
  authority ← authorize_profile P facts;
  _ ← _require_authority "profile" (profile_facts_json facts) authority;
  let spec := pf_spec facts in
  match profile_by_operation (pf_operation_id facts) L with
  | Some row =>
      existing ← stored_model_profile row;
      _ ← ensure (bool_decide (pp_facts existing = facts))
            (ModelCallConflict "model_profile_operation_conflict");
      Ok (existing, L)
  | None =>
      _ ← ensure (bool_decide (profile_by_version (sp_project_id spec) (sp_profile_version spec) L = None))
            (ModelCallConflict "model_profile_version_conflict");
      let expected := match latest_profile (sp_project_id spec) L with
                      | None => 1
                      | Some r => sp_profile_version (mp_spec r) + 1
                      end in
      _ ← ensure (sp_profile_version spec =? expected)
            (ModelCallConflict "model_profile_version_conflict");
      let row := {| mp_id := ca_row_id c; mp_spec := spec;
                    mp_profile_digest := pf_profile_digest facts;
                    mp_operation_id := pf_operation_id facts;
                    mp_actor_profile_id := pf_actor_profile_id facts;
                    mp_authorization_evidence_id := ae_evidence_id authority;
                    mp_created_at := ca_created_at c |} in
      L ← add_profile c row L;
      result ← stored_model_profile row;
      Ok (result, L)
  end.

(** The facts of a stored configuration. *)
Definition stored_budget_facts (r : ModelUsageBudgetConfiguration) : ModelBudgetProvisioningFacts :=
  {| bf_operation_id := bc_operation_id r; bf_actor_profile_id := bc_actor_profile_id r;
     bf_spec := bc_spec r; bf_configuration_digest := bc_configuration_digest r |}.

Definition _budget_result (r : ModelUsageBudgetConfiguration) (a : ModelUsageBudgetAccount)
    : result ModelExn ProjectModelBudgetConfiguration :=
  _ ← ensure (budget_facts_valid (stored_budget_facts r) && uuid7_shape (bc_id r)
              && Nanodollars (ba_lifetime_reserved_nanodollars a)
              && Nanodollars (ba_lifetime_settled_nanodollars a)) ValueError;
  Ok {| pb_facts := stored_budget_facts r; pb_configuration_id := bc_id r;
        pb_authorization_evidence_id := bc_authorization_evidence_id r;
        pb_created_at := bc_created_at r;
        pb_lifetime_reserved_nanodollars := ba_lifetime_reserved_nanodollars a;
        pb_lifetime_settled_nanodollars := ba_lifetime_settled_nanodollars a |}.

Definition provision_budget (P : ModelPorts) (c : Call) (facts : ModelBudgetProvisioningFacts)
    (L : Ledger) : result ModelExn (ProjectModelBudgetConfiguration * Ledger) :=
  _ ← require_model_call_transaction c;
  _ ← ensure (budget_facts_valid facts) ValueError;
  authority ← authorize_budget P facts;
  _ ← _require_authority "budget" (budget_facts_json facts) authority;
  let spec := bf_spec facts in
  match budget_configuration_by_operation (bf_operation_id facts) L with
  | Some by_operation =>
      account ← oget (budget_account (bs_project_id spec) L)
                  (ModelCallUnavailable "model_budget_account_unavailable");
      result ← _budget_result by_operation account;
      _ ← ensure (bool_decide (pb_facts result = facts))
            (ModelCallConflict "model_budget_operation_conflict");
      Ok (result, L)
  | None =>
      let account := budget_account (bs_project_id spec) L in
      let current := a ← account; current_budget_configuration a L in
      let expected := match current with
                      | None => 1
                      | Some r => bs_configuration_version (bc_spec r) + 1
                      end in
      _ ← ensure (bs_configuration_version spec =? expected)
            (ModelCallConflict "model_budget_version_conflict");
      _ ← ensure (match current with
                  | None => true
                  | Some r =>
                      negb ((authorized_total_nanodollars spec
                             <? authorized_total_nanodollars (bc_spec r))
                            || (externally_reconciled_prior_spend_nanodollars spec
                                <? externally_reconciled_prior_spend_nanodollars (bc_spec r)))
                  end) (ModelCallConflict "model_budget_reconciliation_conflict");
      _ ← ensure (bool_decide (budget_configuration_by_version (bs_project_id spec)
                                 (bs_configuration_version spec) L = None))
            (ModelCallConflict "model_budget_version_conflict");
      let reserved := match account with None => 0 | Some a => ba_lifetime_reserved_nanodollars a end in
      let settled := match account with None => 0 | Some a => ba_lifetime_settled_nanodollars a end in
      _ ← ensure (negb (lifetime_limit_nanodollars spec <? reserved + settled))
            (ModelCallBudgetUnavailable "model_budget_below_lifetime_usage");
      let row := {| bc_id := ca_row_id c; bc_spec := spec;
                    bc_configuration_digest := bf_configuration_digest facts;
                    bc_operation_id := bf_operation_id facts;
                    bc_actor_profile_id := bf_actor_profile_id facts;
                    bc_authorization_evidence_id := ae_evidence_id authority;
                    bc_created_at := ca_created_at c |} in
      L ← add_configuration c row L;
      let account' := {| ba_project_id := bs_project_id spec;
                         ba_current_configuration_id := bc_id row;
                         ba_lifetime_reserved_nanodollars := reserved;
                         ba_lifetime_settled_nanodollars := settled |} in
      L ← match account with None => add_account c account' L | Some _ => update_account c account' L end;
      result ← _budget_result row account';
      Ok (result, L)
  end.

(** ** Preparation *)

(** [read_exact], which is also [_profile_for_slot] *)
Definition read_exact (c : Call) (s : ModelProfileSelector) (project_id : uuid) (L : Ledger)
    : result ModelExn ProjectModelProfile :=
  _ ← require_model_call_transaction c;
  _ ← ensure (selector_valid s) ValueError;
  row ← oget (profile_exact s L) (ModelCallUnavailable "model_profile_unavailable");
  result ← stored_model_profile row;
  _ ← ensure (sp_project_id (pp_spec result) =? project_id)
        (ModelCallUnavailable "model_profile_unavailable");
  Ok result.

(** [_profile_for_slot]; its [registry_entry_id] is not used by the body *)
Definition _profile_for_slot (c : Call) (k : ModelPaidSlotKey) (L : Ledger)
    : result ModelExn ProjectModelProfile := read_exact c (slot_profile k) (slot_project k) L.

Definition _profile_for_stored_slot (k : ModelPaidSlotKey) (L : Ledger)
    : result ModelExn ProjectModelProfile :=
  row ← oget (profile_exact (slot_profile k) L) (ModelCallUnavailable "model_profile_unavailable");
  result ← stored_model_profile row;
  _ ← ensure (sp_project_id (pp_spec result) =? slot_project k)
        (ModelCallUnavailable "model_profile_unavailable");
  Ok result.

Definition _require_execution_slot (x : ModelCallExecutionFacts) (k : ModelPaidSlotKey)
    : result ModelExn unit :=
  let e := sk_envelope k in
  ensure (negb (negb (ex_project_id x =? ek_project_id e)
                || negb (ex_assignment_id x =? ek_assignment_id e)
                || negb (ex_submission_id x =? ek_submission_id e)
                || negb (ex_submission_version x =? ek_submission_version e)))
    (ModelCallUnavailable "model_call_execution_unavailable").

Definition _require_checker_envelope (c : Call) (x : ModelCallExecutionFacts)
    (k : ModelPaidSlotKey) (L : Ledger) : result ModelExn (CheckerModelUsageEnvelope * Ledger) :=
  match envelope k L with
  | None =>
      let row := {| ce_id := ca_envelope_id c; ce_task_id := ex_task_id x;
                    ce_key := sk_envelope k; ce_created_at := ca_created_at c |} in
      L ← add_envelope c row L;
      Ok (row, L)
  | Some row =>
      _ ← ensure (ce_task_id row =? ex_task_id x) (ModelCallConflict "model_call_envelope_conflict");
      Ok (row, L)
  end.

(** A new attempt row; both services create these. *)
Definition new_effect (c : Call) (checker_slot setup_slot : option uuid) (number : Z)
    (parent : option uuid) (request_sha256 : str) (facts : option ModelCallExecutionFacts)
    (evidence : uuid) : ModelUsageEffect :=
  {| ef_id := ca_effect_id c; ef_checker_slot_id := checker_slot; ef_setup_slot_id := setup_slot;
     ef_attempt_number := number; ef_internal_call_request_id := ca_request_id c;
     ef_parent_attempt_id := parent; ef_request_sha256 := request_sha256;
     ef_state := ES_prepared; ef_prepared_execution_facts := facts;
     ef_prepared_authorization_evidence_id := evidence; ef_prepared_at := ca_created_at c;
     ef_provider_response_id := None; ef_dispatch := no_dispatch;
     ef_observation := no_observation; ef_terminal := no_terminal |}.

Definition slot_or_create (c : Call) (env : CheckerModelUsageEnvelope) (x : ModelCallExecutionFacts)
    (k : ModelPaidSlotKey) (request_sha256 : str) (L : Ledger)
    : result ModelExn (CheckerModelUsageSlot * Ledger) :=
  match slot k L with
  | None =>
      let row := {| cs_id := ca_slot_id c; cs_envelope_id := ce_id env; cs_task_id := ex_task_id x;
                    cs_key := k; cs_first_request_sha256 := request_sha256;
                    cs_created_at := ca_created_at c |} in
      L ← add_slot c row L;
      Ok (row, L)
  | Some row =>
      _ ← ensure (negb (negb (str_eqb (cs_first_request_sha256 row) request_sha256)
                        || negb (cs_task_id row =? ex_task_id x)))
            (ModelCallConflict "model_call_request_conflict");
      Ok (row, L)
  end.

Definition prepare_attempt (P : ModelPorts) (c : Call) (x : ModelCallExecutionFacts)
    (k : ModelPaidSlotKey) (request_sha256 : str) (L : Ledger)
    : result ModelExn (AttachedModelCallAttempt * Ledger) :=
  _ ← require_model_call_transaction c;
  _ ← ensure (execution_valid x) ValueError;
  _ ← ensure (slot_key_valid k) ValueError;
  request_sha256 ← _sha (unicode P) request_sha256;
  _ ← _require_execution_slot x k;
  authority ← authorize_prepare P x k request_sha256;
  _ ← _require_authority "prepare"
        (JObj [kv "execution" (execution_json (dump_datetime P) x); kv "slot" (slot_key_json k);
               kv "request_sha256" (JStr request_sha256)]) authority;
  _ ← require_current P x k;
  _ ← _profile_for_slot c k L;
  envL ← _require_checker_envelope c x k L;
  slotL ← slot_or_create c envL.1 x k request_sha256 envL.2;
  let '(slot_row, L) := slotL in
  match latest_attempt (cs_id slot_row) L with
  | Some a => r ← _attempt slot_row a true; Ok (r, L)
  | None =>
      let row := new_effect c (Some (cs_id slot_row)) None 1 None request_sha256 (Some x)
                   (ae_evidence_id authority) in
      L ← add_effect c row L;
      r ← _attempt slot_row row false;
      Ok (r, L)
  end.

Definition _eligible_parent (e : ModelUsageEffect) (terminal_digest : str) : result ModelExn bool :=
  d ← _stored_retry_terminal_digest e;
  Ok (bool_decide (d = Some terminal_digest)).

Definition prepare_recovery_child (P : ModelPorts) (c : Call) (k : ModelPaidSlotKey)
    (parent_attempt_id : uuid) (terminal_digest request_sha256 : str) (L : Ledger)
    : result ModelExn (AttachedModelCallAttempt * Ledger) :=
  _ ← require_model_call_transaction c;
  _ ← ensure (slot_key_valid k) ValueError;
  terminal_digest ← _sha (unicode P) terminal_digest;
  request_sha256 ← _sha (unicode P) request_sha256;
  authority ← authorize_child P (slot_project k) parent_attempt_id terminal_digest;
  _ ← _require_authority "child"
        (JObj [kv "project_id" (json_uuid (slot_project k));
               kv "parent_attempt_id" (json_uuid parent_attempt_id);
               kv "terminal_digest" (JStr terminal_digest)]) authority;
  _ ← require_recovery_current P k parent_attempt_id;
  _ ← _profile_for_slot c k L;
  _ ← oget (envelope k L) (ModelCallUnavailable "model_call_parent_unavailable");
  slot_row ← oget (slot k L) (ModelCallUnavailable "model_call_parent_unavailable");
  _ ← ensure (str_eqb (cs_first_request_sha256 slot_row) request_sha256)
        (ModelCallConflict "model_call_request_conflict");
  latest ← oget (latest_attempt (cs_id slot_row) L)
             (ModelCallUnavailable "model_call_parent_unavailable");
  let parent := if ef_id latest =? parent_attempt_id then Some latest
                else attempt parent_attempt_id L in
  let refused := ModelCallConflict "model_call_parent_not_retryable" in
  parent ← oget parent refused;
  _ ← ensure (bool_decide (ef_checker_slot_id parent = Some (cs_id slot_row))) refused;
  eligible ← _eligible_parent parent terminal_digest;
  _ ← ensure eligible refused;
  if ef_id latest =? parent_attempt_id then
    let child := new_effect c (Some (cs_id slot_row)) None (ef_attempt_number latest + 1)
                   (Some parent_attempt_id) request_sha256 None (ae_evidence_id authority) in
    L ← add_effect c child L;
    r ← _attempt slot_row child false;
    Ok (r, L)
  else
    _ ← ensure ((1 <? ef_attempt_number latest) && bool_decide (ef_state latest = ES_prepared)
                && bool_decide (ef_parent_attempt_id latest = Some parent_attempt_id)
                && str_eqb (ef_request_sha256 latest) request_sha256)
          (ModelCallConflict "model_call_parent_superseded");
    r ← _attempt slot_row latest true;
    Ok (r, L).

(** ** Dispatch *)

(** The run ceilings, which both services check before they reserve. *)
Definition envelope_exhausted (tt : ModelUsageEnvelopeTotals) (p : ProjectModelProfileSpec)
    (run_limit reservation bytes : Z) : bool :=
  (maximum_calls p <=? tt_dispatches tt)
  || (run_limit <? tt_reserved_nanodollars tt + tt_settled_nanodollars tt + reservation)
  || (maximum_total_request_bytes p <? tt_request_bytes tt + bytes)
  || (maximum_total_response_bytes p
      <? tt_response_bytes tt + (tt_pending_dispatches tt + 1) * maximum_response_bytes p)
  || (maximum_total_input_tokens p
      <? tt_input_tokens tt + (tt_pending_dispatches tt + 1) * maximum_input_tokens p)
  || (maximum_total_output_tokens p
      <? tt_output_tokens tt + (tt_pending_dispatches tt + 1) * maximum_output_tokens p).

Definition over_lifetime (a : ModelUsageBudgetAccount) (b : ModelUsageBudgetConfiguration)
    (reservation : Z) : bool :=
  lifetime_limit_nanodollars (bc_spec b)
  <? ba_lifetime_reserved_nanodollars a + ba_lifetime_settled_nanodollars a + reservation.

(** The row and the account after a reservation. *)
Definition dispatched_effect (e : ModelUsageEffect) (request : ModelCallEvidence)
    (b : ModelUsageBudgetConfiguration) (reservation : Z) (facts : option ModelCallExecutionFacts)
    (evidence : uuid) (now : instant) : ModelUsageEffect :=
  {| ef_id := ef_id e; ef_checker_slot_id := ef_checker_slot_id e;
     ef_setup_slot_id := ef_setup_slot_id e; ef_attempt_number := ef_attempt_number e;
     ef_internal_call_request_id := ef_internal_call_request_id e;
     ef_parent_attempt_id := ef_parent_attempt_id e; ef_request_sha256 := ef_request_sha256 e;
     ef_state := ES_dispatching; ef_prepared_execution_facts := ef_prepared_execution_facts e;
     ef_prepared_authorization_evidence_id := ef_prepared_authorization_evidence_id e;
     ef_prepared_at := ef_prepared_at e; ef_provider_response_id := ef_provider_response_id e;
     ef_dispatch :=
       {| dc_request := _set_evidence request; dc_budget_configuration_id := Some (bc_id b);
          dc_budget_configuration_version := Some (bs_configuration_version (bc_spec b));
          dc_budget_configuration_digest := Some (bc_configuration_digest b);
          dc_reserved_nanodollars := Some reservation; dc_execution_facts := facts;
          dc_authorization_evidence_id := Some evidence; dc_dispatched_at := Some now |};
     ef_observation := ef_observation e; ef_terminal := ef_terminal e |}.

Definition move_account (a : ModelUsageBudgetAccount) (reserved settled : Z)
    : ModelUsageBudgetAccount :=
  {| ba_project_id := ba_project_id a;
     ba_current_configuration_id := ba_current_configuration_id a;
     ba_lifetime_reserved_nanodollars := ba_lifetime_reserved_nanodollars a + reserved;
     ba_lifetime_settled_nanodollars := ba_lifetime_settled_nanodollars a + settled |}.

(** [_dispatch_result]; the row's slot is always supplied *)
Definition _dispatch_result (e : ModelUsageEffect) (s : CheckerModelUsageSlot) (replayed : bool)
    : result ModelExn ModelDispatchReservation :=
  _ ← ensure (bool_decide (ef_state e = ES_dispatching) || bool_decide (ef_state e = ES_uncertain)
              || bool_decide (ef_state e = ES_completed))
        (ModelCallConflict "model_call_not_dispatchable");
  let d := ef_dispatch e in
  slot_id ← oget (ef_checker_slot_id e) ValueError;
  request ← _evidence (dc_request d);
  config ← oget (dc_budget_configuration_id d) ValueError;
  version ← oget (dc_budget_configuration_version d) ValueError;
  digest ← oget (dc_budget_configuration_digest d) ValueError;
  reserved ← oget (dc_reserved_nanodollars d) ValueError;
  response ← match ec_content_sha256 (tc_response (ef_terminal e)) with
             | Some _ => r ← _evidence (tc_response (ef_terminal e)); Ok (Some r)
             | None => Ok None
             end;
  _ ← ensure ((1 <=? ef_attempt_number e) && slot_key_valid (cs_key s)
              && digest_pattern (ef_request_sha256 e) && (1 <=? version)
              && digest_pattern digest && Nanodollars reserved
              && match ef_provider_response_id e with
                 | Some r => ProviderResponseIdentifier r | None => true end) ValueError;
  Ok {| dr_slot_id := slot_id; dr_attempt_id := ef_id e; dr_attempt_number := ef_attempt_number e;
        dr_internal_call_request_id := ef_internal_call_request_id e; dr_effect := _effect s e;
        dr_request_sha256 := ef_request_sha256 e; dr_request_evidence := request;
        dr_budget_configuration_id := config; dr_budget_configuration_version := version;
        dr_budget_configuration_digest := digest; dr_reserved_nanodollars := reserved;
        dr_state := ef_state e; dr_provider_response_id := ef_provider_response_id e;
        dr_response_evidence := response; dr_replayed := replayed |}.

Definition reserve_dispatch (P : ModelPorts) (c : Call) (x : ModelCallExecutionFacts)
    (a : AttachedModelCallAttempt) (request : ModelCallEvidence) (L : Ledger)
    : result ModelExn (ModelDispatchReservation * Ledger) :=
  _ ← require_model_call_transaction c;
  _ ← ensure (execution_valid x) ValueError;
  _ ← ensure (prepared_valid a) ValueError;
  _ ← ensure (evidence_valid request) ValueError;
  let k := at_slot_key a in
  _ ← _require_execution_slot x k;
  let authority_attempt :=
    {| at_slot_id := at_slot_id a; at_slot_key := k; at_attempt_id := at_attempt_id a;
       at_attempt_number := at_attempt_number a;
       at_internal_call_request_id := at_internal_call_request_id a;
       at_request_sha256 := at_request_sha256 a; at_state := at_state a; at_replayed := false |} in
  authority ← authorize_dispatch P x authority_attempt request;
  _ ← _require_authority "dispatch"
        (JObj [kv "execution" (execution_json (dump_datetime P) x);
               kv "attempt" (attempt_json authority_attempt);
               kv "request_evidence" (evidence_json request)]) authority;
  _ ← require_current P x k;
  _ ← require_request P a request;
  profile ← _profile_for_stored_slot k L;
  let p := pp_spec profile in
  _ ← ensure (negb (negb (str_eqb (me_content_sha256 request) (at_request_sha256 a))
                    || (maximum_request_bytes p <? me_byte_count request)))
        (ModelCallConflict "model_call_request_evidence_conflict");
  env ← oget (envelope k L) (ModelCallUnavailable "model_call_envelope_unavailable");
  let gone := ModelCallUnavailable "model_call_attempt_unavailable" in
  slot_row ← oget (slot k L) gone;
  _ ← ensure (cs_id slot_row =? at_slot_id a) gone;
  row ← oget (attempt (at_attempt_id a) L) gone;
  _ ← ensure (bool_decide (ef_checker_slot_id row = Some (cs_id slot_row))) gone;
  if negb (bool_decide (ef_state row = ES_prepared)) then
    stored ← _evidence (dc_request (ef_dispatch row));
    _ ← ensure (bool_decide (stored = request)) (ModelCallConflict "model_call_dispatch_conflict");
    r ← _dispatch_result row slot_row true;
    Ok (r, L)
  else
    _ ← ensure (negb (negb (str_eqb (ef_request_sha256 row) (at_request_sha256 a))
                      || negb (ef_attempt_number row =? at_attempt_number a)
                      || negb (ef_internal_call_request_id row =? at_internal_call_request_id a)))
          (ModelCallConflict "model_call_attempt_conflict");
    let tt := envelope_totals (ce_id env) L in
    reservation ← maximum_dispatch_reservation_nanodollars p;
    run_limit ← maximum_reservation_nanodollars p;
    _ ← ensure (negb (envelope_exhausted tt p run_limit reservation (me_byte_count request)))
          (ModelCallBudgetUnavailable "model_run_envelope_unavailable");
    account ← oget (budget_account (slot_project k) L)
                (ModelCallBudgetUnavailable "model_budget_unavailable");
    budget ← oget (current_budget_configuration account L)
               (ModelCallBudgetUnavailable "model_budget_unavailable");
    _ ← ensure (negb (over_lifetime account budget reservation))
          (ModelCallBudgetUnavailable "model_budget_exhausted");
    let row := dispatched_effect row request budget reservation (Some x)
                 (ae_evidence_id authority) (ca_now c) in
    L ← update_effect c row (Some (move_account account reservation 0)) L;
    r ← _dispatch_result row slot_row false;
    Ok (r, L).

(** ** Terminal custody *)

Definition _terminal_preflight (c : Call) (attempt_id : uuid) (L : Ledger)
    : result ModelExn (CheckerModelUsageSlot * ProjectModelProfile) :=
  _ ← require_model_call_transaction c;
  let gone := ModelCallUnavailable "model_call_attempt_unavailable" in
  row ← oget (attempt attempt_id L) gone;
  s ← oget (ef_checker_slot_id row ≫= λ i, lg_slots L !! i) gone;
  profile_row ← oget (profile_exact (slot_profile (cs_key s)) L)
                  (ModelCallUnavailable "model_profile_unavailable");
  profile ← stored_model_profile profile_row;
  Ok (s, profile).

(** The envelope and slot re-read under their locks. *)
Definition lock_slot (s : CheckerModelUsageSlot) (L : Ledger) : result ModelExn CheckerModelUsageSlot :=
  let k := cs_key s in
  _ ← oget (envelope k L) (ModelCallUnavailable "model_call_envelope_unavailable");
  locked ← oget (slot k L) (ModelCallUnavailable "model_call_attempt_unavailable");
  _ ← ensure (cs_id locked =? cs_id s) (ModelCallUnavailable "model_call_attempt_unavailable");
  Ok locked.

Definition _lock_terminal (s : CheckerModelUsageSlot) (attempt_id : uuid) (L : Ledger)
    : result ModelExn ModelUsageEffect :=
  let gone := ModelCallUnavailable "model_call_attempt_unavailable" in
  _ ← lock_slot s L;
  row ← oget (attempt attempt_id L) gone;
  _ ← ensure (bool_decide (ef_checker_slot_id row = Some (cs_id s))) gone;
  Ok row.

(** [_require_effect_pending]; returns the reservation *)
Definition require_pending (conflict unavailable : string) (e : ModelUsageEffect)
    : result ModelExn Z :=
  _ ← ensure (pending e) (ModelCallConflict conflict);
  oget (ef_reserved e) (ModelCallUnavailable unavailable).

Definition _require_effect_pending :=
  require_pending "model_call_terminal_conflict" "model_call_reservation_unavailable".

(** [_settle] with [cost]; [_release] is the same without a settled amount. *)
Definition _settle (reserved cost : Z) (project : uuid) (L : Ledger)
    : result ModelExn ModelUsageBudgetAccount :=
  account ← oget (budget_account project L) (ModelCallUnavailable "model_budget_unavailable");
  _ ← ensure (negb (ba_lifetime_reserved_nanodollars account <? reserved))
        (ModelCallUnavailable "model_budget_conservation_failed");
  Ok (move_account account (- reserved) cost).

Definition _release (reserved : Z) (project : uuid) (L : Ledger)
    : result ModelExn ModelUsageBudgetAccount := _settle reserved 0 project L.

(** The row with a new state, provider response, observation and terminal columns. *)
Definition with_outcome (e : ModelUsageEffect) (s : EffectState) (rid : option str)
    (o : ObservationColumns) (t : TerminalColumns) : ModelUsageEffect :=
  {| ef_id := ef_id e; ef_checker_slot_id := ef_checker_slot_id e;
     ef_setup_slot_id := ef_setup_slot_id e; ef_attempt_number := ef_attempt_number e;
     ef_internal_call_request_id := ef_internal_call_request_id e;
     ef_parent_attempt_id := ef_parent_attempt_id e; ef_request_sha256 := ef_request_sha256 e;
     ef_state := s; ef_prepared_execution_facts := ef_prepared_execution_facts e;
     ef_prepared_authorization_evidence_id := ef_prepared_authorization_evidence_id e;
     ef_prepared_at := ef_prepared_at e; ef_provider_response_id := rid;
     ef_dispatch := ef_dispatch e; ef_observation := o; ef_terminal := t |}.

Definition uncertain_effect (e : ModelUsageEffect) (digest : str) (rid : option str)
    (evidence : uuid) : ModelUsageEffect :=
  with_outcome e ES_uncertain rid
    {| oc_uncertainty_digest := Some digest; oc_authorization_evidence_id := Some evidence |}
    (ef_terminal e).

(** [_set_evidence], [_set_usage] and the terminal columns of a settled call; only a known
    failure writes the settlement columns. *)
Definition settled_effect (e : ModelUsageEffect) (failed : bool) (rid : str)
    (response : ModelCallEvidence) (u : ModelCallUsage) (cost : Z) (evidence : uuid)
    (settled_at terminal_at : instant) : ModelUsageEffect :=
  let t := ef_terminal e in
  with_outcome e (if failed then ES_known_failed else ES_completed) (Some rid) (ef_observation e)
    {| tc_response := _set_evidence response;
       tc_input_tokens := Some (us_input_tokens u);
       tc_cached_input_tokens := Some (us_cached_input_tokens u);
       tc_output_tokens := Some (us_output_tokens u);
       tc_reasoning_tokens := Some (us_reasoning_tokens u);
       tc_settled_nanodollars := Some cost;
       tc_settlement_authorization_evidence_id :=
         if failed then Some evidence else tc_settlement_authorization_evidence_id t;
       tc_settled_at := if failed then Some settled_at else tc_settled_at t;
       tc_no_effect_proof_id := tc_no_effect_proof_id t;
       tc_no_effect_proof_digest := tc_no_effect_proof_digest t;
       tc_no_effect_observed_at := tc_no_effect_observed_at t;
       tc_authorization_evidence_id := Some evidence; tc_terminal_at := Some terminal_at |}.

Definition released_effect (e : ModelUsageEffect) (p : KnownNoEffectProof) (evidence : uuid)
    (terminal_at : instant) : ModelUsageEffect :=
  let t := ef_terminal e in
  with_outcome e ES_known_no_effect (ef_provider_response_id e) (ef_observation e)
    {| tc_response := tc_response t; tc_input_tokens := tc_input_tokens t;
       tc_cached_input_tokens := tc_cached_input_tokens t; tc_output_tokens := tc_output_tokens t;
       tc_reasoning_tokens := tc_reasoning_tokens t;
       tc_settled_nanodollars := tc_settled_nanodollars t;
       tc_settlement_authorization_evidence_id := tc_settlement_authorization_evidence_id t;
       tc_settled_at := tc_settled_at t; tc_no_effect_proof_id := Some (np_proof_id p);
       tc_no_effect_proof_digest := Some (np_proof_digest p);
       tc_no_effect_observed_at := Some (np_observed_at p);
       tc_authorization_evidence_id := Some evidence; tc_terminal_at := Some terminal_at |}.

(** [_completed_result] and [_failed_result] *)
Definition _completed_result (e : ModelUsageEffect) (replayed : bool)
    : result ModelExn CompletedModelCall :=
  let t := ef_terminal e in
  let gone := ModelCallUnavailable "model_call_completion_unavailable" in
  usage ← _usage t;
  u ← oget usage gone;
  terminal_at ← oget (tc_terminal_at t) gone;
  settled ← oget (tc_settled_nanodollars t) gone;
  slot_id ← oget (ef_checker_slot_id e) ValueError;
  rid ← oget (ef_provider_response_id e) ValueError;
  request ← _evidence (dc_request (ef_dispatch e));
  response ← _evidence (tc_response t);
  _ ← ensure ((1 <=? ef_attempt_number e) && ProviderResponseIdentifier rid
              && Nanodollars settled) ValueError;
  Ok {| cm_slot_id := slot_id; cm_attempt_id := ef_id e; cm_attempt_number := ef_attempt_number e;
        cm_internal_call_request_id := ef_internal_call_request_id e;
        cm_provider_response_id := rid; cm_request_evidence := request;
        cm_response_evidence := response; cm_usage := u; cm_settled_nanodollars := settled;
        cm_completed_at := terminal_at; cm_replayed := replayed |}.

(** ** Attachment of a fresh run *)

Definition effect_facts_valid (f : ModelCallEffectAuthorityFacts) : bool :=
  slot_key_valid (ea_slot_key f).

(** What [attach_recovery] and [attach_completed] do before they look at the row's state. *)
Definition attach_preflight (P : ModelPorts) (c : Call) (x : ModelCallExecutionFacts)
    (f : ModelCallEffectAuthorityFacts) (L : Ledger)
    : result ModelExn (ModelActionEvidence * CheckerModelUsageSlot) :=
  _ ← require_model_call_transaction c;
  _ ← ensure (execution_valid x) ValueError;
  _ ← ensure (effect_facts_valid f) ValueError;
  _ ← _require_execution_slot x (ea_slot_key f);
  _ ← ensure (ex_task_id x =? ea_task_id f) (ModelCallUnavailable "model_call_execution_unavailable");
  authority ← authorize_recover P x f;
  _ ← _require_authority "recover"
        (JObj [kv "execution" (execution_json (dump_datetime P) x);
               kv "effect" (effect_facts_json f)]) authority;
  _ ← require_current P x (ea_slot_key f);
  let gone := ModelCallUnavailable "model_call_attempt_unavailable" in
  row ← oget (attempt (ea_attempt_id f) L) gone;
  s ← oget (ef_checker_slot_id row ≫= λ i, lg_slots L !! i) gone;
  _ ← _require_execution_slot x (cs_key s);
  locked ← lock_slot s L;
  Ok (authority, locked).

(** The attachment row, unless this run and lease already have one. *)
Definition attach_row (c : Call) (x : ModelCallExecutionFacts) (f : ModelCallEffectAuthorityFacts)
    (evidence : uuid) (L : Ledger) : result ModelExn (bool * Ledger) :=
  match recovery (ea_attempt_id f) x L with
  | Some _ => Ok (true, L)
  | None =>
      L ← add_recovery c
        {| cr_id := ca_row_id c; cr_attempt_id := ea_attempt_id f;
           cr_checker_run_id := ex_checker_run_id x; cr_worker_lease_id := ex_worker_lease_id x;
           cr_worker_lease_generation := ex_worker_lease_generation x; cr_execution_facts := x;
           cr_effect_facts := f; cr_authorization_evidence_id := evidence;
           cr_created_at := ca_created_at c |} L;
      Ok (false, L)
  end.

Definition attach_recovery (P : ModelPorts) (c : Call) (x : ModelCallExecutionFacts)
    (f : ModelCallEffectAuthorityFacts) (L : Ledger)
    : result ModelExn (ModelCallRecoveryAttachment * Ledger) :=
  pre ← attach_preflight P c x f L;
  let '(authority, s) := pre in
  let unavailable := ModelCallUnavailable "model_call_recovery_unavailable" in
  row ← oget (attempt (ea_attempt_id f) L) unavailable;
  _ ← _require_effect f s row;
  rid ← oget (ef_provider_response_id row) unavailable;
  _ ← ensure (pending row) unavailable;
  done_L ← attach_row c x f (ae_evidence_id authority) L;
  _ ← ensure ((1 <=? ef_attempt_number row) && ProviderResponseIdentifier rid) ValueError;
  Ok ({| ra_slot_id := cs_id s; ra_attempt_id := ef_id row;
         ra_attempt_number := ef_attempt_number row;
         ra_internal_call_request_id := ef_internal_call_request_id row;
         ra_provider_response_id := rid; ra_state := ef_state row; ra_replayed := done_L.1 |},
      done_L.2).

Definition attach_completed (P : ModelPorts) (c : Call) (x : ModelCallExecutionFacts)
    (f : ModelCallEffectAuthorityFacts) (L : Ledger)
    : result ModelExn (CompletedModelCall * Ledger) :=
  pre ← attach_preflight P c x f L;
  let '(authority, s) := pre in
  let unavailable := ModelCallUnavailable "model_call_completion_unavailable" in
  row ← oget (attempt (ea_attempt_id f) L) unavailable;
  _ ← ensure (bool_decide (ef_state row = ES_completed)) unavailable;
  _ ← _require_effect f s row;
  done_L ← attach_row c x f (ae_evidence_id authority) L;
  r ← _completed_result row done_L.1;
  Ok (r, done_L.2).

(** ** Observation and completion *)

Definition mark_uncertain (P : ModelPorts) (c : Call) (f : ModelCallEffectAuthorityFacts)
    (uncertainty_digest : str) (rid : option str) (L : Ledger)
    : result ModelExn (ModelDispatchReservation * Ledger) :=
  _ ← require_model_call_transaction c;
  _ ← ensure (effect_facts_valid f) ValueError;
  digest ← _sha (unicode P) uncertainty_digest;
  _ ← ensure (match rid with Some r => ProviderResponseIdentifier r | None => true end) ValueError;
  authority ← authorize_observe P f rid digest;
  _ ← _require_authority "observe"
        (JObj [kv "effect" (effect_facts_json f); kv "provider_response_id" (json_opt JStr rid);
               kv "observation_digest" (JStr digest)]) authority;
  pre ← _terminal_preflight c (ea_attempt_id f) L;
  let s := pre.1 in
  row ← _lock_terminal s (ea_attempt_id f) L;
  _ ← _require_effect f s row;
  let conflict := ModelCallConflict "model_call_uncertainty_conflict" in
  if bool_decide (ef_state row = ES_uncertain) then
    _ ← ensure (negb (negb (bool_decide (oc_uncertainty_digest (ef_observation row) = Some digest))
                      || negb (bool_decide (ef_provider_response_id row = rid)))) conflict;
    r ← _dispatch_result row s true;
    Ok (r, L)
  else
    _ ← ensure (bool_decide (ef_state row = ES_dispatching)) conflict;
    let row := uncertain_effect row digest rid (ae_evidence_id authority) in
    L ← update_effect c row None L;
    r ← _dispatch_result row s false;
    Ok (r, L).

Definition terminal_json (status : string) (rid snapshot : str) (response : ModelCallEvidence)
    (u : ModelCallUsage) : json :=
  JObj [kv "status" (JStr (lit status)); kv "provider_response_id" (JStr rid);
        kv "provider_model_snapshot" (JStr snapshot);
        kv "response_evidence" (evidence_json response); kv "usage" (usage_json u)].

(** The checks of [complete] and [complete_known_failure] that precede the ledger. *)
Definition complete_authorized (P : ModelPorts) (failed : bool) (f : ModelCallEffectAuthorityFacts)
    (rid snapshot : str) (response : ModelCallEvidence) (usage : ModelCallUsage)
    : result ModelExn ModelActionEvidence :=
  _ ← ensure (effect_facts_valid f) ValueError;
  _ ← ensure (ProviderResponseIdentifier rid) ValueError;
  _ ← ensure (evidence_valid response) ValueError;
  _ ← ensure (usage_valid usage) ValueError;
  terminal_digest ← oget (canonical_json_hash
    (terminal_json (if failed then "known_failed" else "completed") rid snapshot response usage))
    ValueError;
  authority ← authorize_complete P f (Some response) terminal_digest;
  _ ← _require_authority "complete"
        (JObj [kv "effect" (effect_facts_json f); kv "response_evidence" (evidence_json response);
               kv "terminal_digest" (JStr terminal_digest)]) authority;
  _ ← require_response P (ea_attempt_id f) response;
  Ok authority.

(** [complete] when [failed] is false and [complete_known_failure] when it is true: the two
    methods differ in the status they commit to, in the terminal state and in the settlement
    columns. *)
Definition complete_call (P : ModelPorts) (c : Call) (failed : bool)
    (f : ModelCallEffectAuthorityFacts) (rid snapshot : str) (response : ModelCallEvidence)
    (usage : ModelCallUsage) (L : Ledger) : result ModelExn (CompletedModelCall * Ledger) :=
  authority ← complete_authorized P failed f rid snapshot response usage;
  pre ← _terminal_preflight c (ea_attempt_id f) L;
  let '(s, profile) := pre in
  let p := pp_spec profile in
  _ ← ensure (negb (negb (str_eqb snapshot (sp_model_snapshot p))
                    || (maximum_response_bytes p <? me_byte_count response)))
        (ModelCallConflict "model_call_response_conflict");
  cost ← model_usage_cost p usage;
  row ← _lock_terminal s (ea_attempt_id f) L;
  _ ← _require_effect f s row;
  if bool_decide (ef_state row = if failed then ES_known_failed else ES_completed) then
    let conflict := ModelCallConflict "model_call_terminal_conflict" in
    _ ← (if failed then _usage (ef_terminal row) else Ok None);
    _ ← ensure (bool_decide (ef_provider_response_id row = Some rid)) conflict;
    stored ← _evidence (tc_response (ef_terminal row));
    _ ← ensure (bool_decide (stored = response)) conflict;
    stored_usage ← _usage (ef_terminal row);
    _ ← ensure (bool_decide (stored_usage = Some usage)) conflict;
    _ ← ensure (bool_decide (ef_settled row = Some cost)) conflict;
    r ← _completed_result row true;
    Ok (r, L)
  else
    reserved ← _require_effect_pending row;
    _ ← ensure (match ef_provider_response_id row with Some r => str_eqb r rid | None => true end)
          (ModelCallConflict "model_call_provider_response_conflict");
    account ← _settle reserved cost (slot_project (cs_key s)) L;
    let row := settled_effect row failed rid response usage cost (ae_evidence_id authority)
                 (ca_now c) (if failed then ca_now2 c else ca_now c) in
    L ← update_effect c row (Some account) L;
    r ← _completed_result row false;
    Ok (r, L).

Definition complete (P : ModelPorts) (c : Call) := complete_call P c false.
Definition complete_known_failure (P : ModelPorts) (c : Call) := complete_call P c true.

Definition mark_known_no_effect (P : ModelPorts) (c : Call) (f : ModelCallEffectAuthorityFacts)
    (proof : KnownNoEffectProof) (L : Ledger)
    : result ModelExn (AttachedModelCallAttempt * Ledger) :=
  _ ← ensure (effect_facts_valid f) ValueError;
  _ ← ensure (proof_valid proof) ValueError;
  terminal_digest ← oget (model_retry_terminal_digest (inr proof)) ValueError;
  authority ← authorize_complete P f None terminal_digest;
  _ ← _require_authority "complete"
        (JObj [kv "effect" (effect_facts_json f); kv "response_evidence" JNull;
               kv "terminal_digest" (JStr terminal_digest)]) authority;
  pre ← _terminal_preflight c (ea_attempt_id f) L;
  let s := pre.1 in
  row ← _lock_terminal s (ea_attempt_id f) L;
  _ ← _require_effect f s row;
  let t := ef_terminal row in
  if bool_decide (ef_state row = ES_known_no_effect) then
    _ ← ensure (negb (negb (bool_decide (tc_no_effect_proof_id t = Some (np_proof_id proof)))
                      || negb (bool_decide (tc_no_effect_proof_digest t = Some (np_proof_digest proof)))
                      || negb (bool_decide (tc_no_effect_observed_at t = Some (np_observed_at proof)))))
          (ModelCallConflict "model_call_terminal_conflict");
    r ← _attempt s row true;
    Ok (r, L)
  else
    reserved ← _require_effect_pending row;
    _ ← ensure (bool_decide (ef_provider_response_id row = None))
          (ModelCallConflict "model_call_no_effect_conflict");
    account ← _release reserved (slot_project (cs_key s)) L;
    let row := released_effect row proof (ae_evidence_id authority) (ca_now c) in
    L ← update_effect c row (Some account) L;
    r ← _attempt s row false;
    Ok (r, L).
