(* ===== verification/ModelSetup.v ===== *)
(** * The setup model-use service (modules/model_usage/setup.py)

    [SetupModelUsageService]: effects owned by a guide compilation attempt, reserved against
    the same project budget and settled into the same effects table as the checker's.  The
    ports are PROJECTS' and AUTH's; the conventions are those of the checker service. *)

From S2P Require Import Prelude Text Digest Json Instant OutboxApi OutboxStore ModelApi ModelStore.
From S2P Require Import ModelService.

Record SetupModelOwnerProfile := {
  ow_selector : ModelProfileSelector; ow_provider : str; ow_api : str; ow_model_snapshot : str }.

Record SetupPorts := {
  authorize_setup_prepare : SetupModelUsageSlotKey → str → result ModelExn ModelActionEvidence;
  authorize_setup_dispatch :
    PreparedSetupModelUsageEffect → ModelCallEvidence → result ModelExn ModelActionEvidence;
  authorize_setup_observe :
    SetupModelEffectAuthorityFacts → option str → str → result ModelExn ModelActionEvidence;
  authorize_setup_complete : SetupModelEffectAuthorityFacts → option ModelCallEvidence → str →
    result ModelExn ModelActionEvidence;
  require_setup_request : PreparedSetupModelUsageEffect → ModelCallEvidence → result ModelExn unit;
  require_setup_response : uuid → ModelCallEvidence → result ModelExn unit;
  require_setup_current : SetupModelUsageSlotKey → result ModelExn SetupModelOwnerProfile;
  setup_unicode : Unicode;
}.

Definition setup_authority := require_authority "setup_model_authority_unavailable".

(** ** Values *)

Record SetupModelDispatchReservation := {
  xr_envelope_id : uuid;
  xr_slot_id : uuid;
  xr_slot_key : SetupModelUsageSlotKey;
  xr_effect_id : uuid;
  xr_attempt_number : Z;
  xr_internal_call_request_id : uuid;
  xr_effect : SetupModelEffectAuthorityFacts;
  xr_request_sha256 : str;
  xr_request_evidence : ModelCallEvidence;
  xr_budget_configuration_id : uuid;
  xr_budget_configuration_version : Z;
  xr_budget_configuration_digest : str;
  xr_reserved_nanodollars : Z;
  xr_replayed : bool;
}.

Record ObservedSetupModelUsageEffect := {
  xo_effect : SetupModelEffectAuthorityFacts;
  xo_uncertainty_digest : str;
  xo_provider_response_id : option str;
  xo_replayed : bool;
}.

Record CompletedSetupModelUsageEffect := {
  xc_effect : SetupModelEffectAuthorityFacts;
  xc_provider_response_id : str;
  xc_request_evidence : ModelCallEvidence;
  xc_response_evidence : ModelCallEvidence;
  xc_usage : ModelCallUsage;
  xc_settled_nanodollars : Z;
  xc_completed_at : instant;
  xc_state : EffectState;
  xc_replayed : bool;
}.

Record KnownNoEffectSetupModelUsageEffect := {
  xn_effect : SetupModelEffectAuthorityFacts;
  xn_proof : KnownNoEffectProof;
  xn_replayed : bool;
}.

(** [_prepared]: the state of the row is not looked at *)
Definition _prepared (env : SetupModelUsageEnvelope) (s : SetupModelUsageSlot)
    (e : ModelUsageEffect) (k : SetupModelUsageSlotKey) (replayed : bool)
    : result ModelExn PreparedSetupModelUsageEffect :=
  let a := {| xp_envelope_id := se_id env; xp_slot_id := ss_id s; xp_slot_key := k;
              xp_effect_id := ef_id e; xp_attempt_number := ef_attempt_number e;
              xp_internal_call_request_id := ef_internal_call_request_id e;
              xp_request_sha256 := ef_request_sha256 e; xp_replayed := replayed |} in
  _ ← ensure (setup_prepared_valid a) ValueError;
  Ok a.

Definition setup_effect_facts (s : SetupModelUsageSlot) (e : ModelUsageEffect)
    : SetupModelEffectAuthorityFacts :=
  {| xa_project_id := setup_project (ss_key s); xa_slot_id := ss_id s; xa_slot_key := ss_key s;
     xa_effect_id := ef_id e; xa_internal_call_request_id := ef_internal_call_request_id e |}.

Definition require_setup_effect (supplied : SetupModelEffectAuthorityFacts)
    (s : SetupModelUsageSlot) (e : ModelUsageEffect) : result ModelExn unit :=
  ensure (bool_decide (supplied = setup_effect_facts s e))
    (ModelCallUnavailable "setup_model_effect_unavailable").

Definition setup_effect_valid (f : SetupModelEffectAuthorityFacts) : bool :=
  setup_key_valid (xa_slot_key f).

(** ** Preparation *)

Definition _profile (k : SetupModelUsageSlotKey) (owner : option SetupModelOwnerProfile)
    (L : Ledger) : result ModelExn ProjectModelProfile :=
  let gone := ModelCallUnavailable "model_profile_unavailable" in
  row ← oget (profile_exact (setup_profile k) L) gone;
  profile ← stored_model_profile row;
  let p := pp_spec profile in
  _ ← ensure (negb (negb (sp_project_id p =? setup_project k)
                    || match owner with
                       | None => false
                       | Some o => negb (bool_decide (selector profile = ow_selector o))
                                   || negb (str_eqb (sp_provider p) (ow_provider o)
                                            && str_eqb (sp_api p) (ow_api o)
                                            && str_eqb (sp_model_snapshot p) (ow_model_snapshot o))
                       end)) gone;
  Ok profile.

Definition setup_prepare_facts (k : SetupModelUsageSlotKey) (request_sha256 : str) : json :=
  JObj [kv "slot" (setup_key_json k); kv "request_sha256" (JStr request_sha256)].

Definition setup_envelope_or_create (c : Call) (k : SetupModelUsageSlotKey) (L : Ledger)
    : result ModelExn (SetupModelUsageEnvelope * Ledger) :=
  match setup_envelope k L with
  | Some r => Ok (r, L)
  | None =>
      let row := {| se_id := ca_envelope_id c; se_key := xs_envelope k;
                    se_created_at := ca_created_at c |} in
      L ← add_setup_envelope c row L;
      Ok (row, L)
  end.

Definition setup_slot_or_create (c : Call) (env : SetupModelUsageEnvelope)
    (k : SetupModelUsageSlotKey) (request_sha256 : str) (L : Ledger)
    : result ModelExn (SetupModelUsageSlot * Ledger) :=
  match setup_slot k L with
  | None =>
      let row := {| ss_id := ca_slot_id c; ss_envelope_id := se_id env; ss_key := k;
                    ss_request_sha256 := request_sha256; ss_created_at := ca_created_at c |} in
      L ← add_setup_slot c row L;
      Ok (row, L)
  | Some row =>
      _ ← ensure (negb (negb (str_eqb (ss_request_sha256 row) request_sha256)
                        || negb (ss_envelope_id row =? se_id env)))
            (ModelCallConflict "setup_model_request_conflict");
      Ok (row, L)
  end.

Definition setup_prepare (P : SetupPorts) (c : Call) (k : SetupModelUsageSlotKey)
    (request_sha256 : str) (L : Ledger)
    : result ModelExn (PreparedSetupModelUsageEffect * Ledger) :=
  _ ← require_model_call_transaction c;
  _ ← ensure (setup_key_valid k) ValueError;
  authority ← authorize_setup_prepare P k request_sha256;
  _ ← setup_authority "setup_prepare" (setup_prepare_facts k request_sha256) authority;
  owner ← require_setup_current P k;
  profile ← _profile k (Some owner) L;
  _ ← ensure (negb (maximum_calls (pp_spec profile) <=? xs_call_index k))
        (ModelCallConflict "setup_model_call_index_conflict");
  envL ← setup_envelope_or_create c k L;
  slotL ← setup_slot_or_create c envL.1 k request_sha256 envL.2;
  let '(s, L) := slotL in
  match latest_setup_effect (ss_id s) L with
  | Some e => r ← _prepared envL.1 s e k true; Ok (r, L)
  | None =>
      let row := new_effect c None (Some (ss_id s)) 1 None request_sha256 None
                   (ae_evidence_id authority) in
      L ← add_effect c row L;
      r ← _prepared envL.1 s row k false;
      Ok (r, L)
  end.

(** [_completed] *)
Definition setup_completed (e : ModelUsageEffect) (s : SetupModelUsageSlot) (replayed : bool)
    : result ModelExn CompletedSetupModelUsageEffect :=
  let t := ef_terminal e in
  let gone := ModelCallUnavailable "setup_model_completion_unavailable" in
  usage ← _usage t;
  u ← oget usage gone;
  terminal_at ← oget (tc_terminal_at t) gone;
  settled ← oget (tc_settled_nanodollars t) gone;
  rid ← oget (ef_provider_response_id e) ValueError;
  request ← _evidence (dc_request (ef_dispatch e));
  response ← _evidence (tc_response t);
  _ ← ensure (ProviderResponseIdentifier rid && Nanodollars settled
              && (bool_decide (ef_state e = ES_completed)
                  || bool_decide (ef_state e = ES_known_failed))) ValueError;
  Ok {| xc_effect := setup_effect_facts s e; xc_provider_response_id := rid;
        xc_request_evidence := request; xc_response_evidence := response; xc_usage := u;
        xc_settled_nanodollars := settled; xc_completed_at := terminal_at;
        xc_state := ef_state e; xc_replayed := replayed |}.

(** [recover_existing] reads only. *)
Definition recover_existing (P : SetupPorts) (c : Call) (k : SetupModelUsageSlotKey)
    (request_sha256 : str) (L : Ledger)
    : result ModelExn
        (option (CompletedSetupModelUsageEffect + ObservedSetupModelUsageEffect)) :=
  _ ← require_model_call_transaction c;
  _ ← ensure (setup_key_valid k) ValueError;
  request_sha256 ← _sha (setup_unicode P) request_sha256;
  authority ← authorize_setup_prepare P k request_sha256;
  _ ← setup_authority "setup_prepare" (setup_prepare_facts k request_sha256) authority;
  owner ← require_setup_current P k;
  _ ← _profile k (Some owner) L;
  let replay := ModelCallUnavailable "setup_model_effect_not_replayable" in
  match setup_envelope k L with
  | None => Ok None
  | Some env =>
      match setup_slot k L with
      | None => Ok None
      | Some s =>
          _ ← ensure (negb (negb (ss_envelope_id s =? se_id env)
                            || negb (str_eqb (ss_request_sha256 s) request_sha256)))
                (ModelCallConflict "setup_model_request_conflict");
          match latest_setup_effect (ss_id s) L with
          | None => Ok None
          | Some e =>
              match ef_state e with
              | ES_prepared => Ok None
              | ES_uncertain =>
                  d ← oget (oc_uncertainty_digest (ef_observation e)) replay;
                  Ok (Some (inr {| xo_effect := setup_effect_facts s e; xo_uncertainty_digest := d;
                                   xo_provider_response_id := ef_provider_response_id e;
                                   xo_replayed := true |}))
              | ES_completed | ES_known_failed => r ← setup_completed e s true; Ok (Some (inl r))
              | ES_dispatching | ES_known_no_effect => Raise replay
              end
          end
      end
  end.

(** ** Dispatch *)

(** [_dispatch_result] of the setup service; the evidence is the supplied one *)
Definition setup_dispatch_result (env : SetupModelUsageEnvelope) (s : SetupModelUsageSlot)
    (e : ModelUsageEffect) (k : SetupModelUsageSlotKey) (evidence : ModelCallEvidence)
    (replayed : bool) : result ModelExn SetupModelDispatchReservation :=
  let d := ef_dispatch e in
  config ← oget (dc_budget_configuration_id d) ValueError;
  version ← oget (dc_budget_configuration_version d) ValueError;
  digest ← oget (dc_budget_configuration_digest d) ValueError;
  reserved ← oget (dc_reserved_nanodollars d) ValueError;
  _ ← ensure ((1 <=? ef_attempt_number e) && digest_pattern (ef_request_sha256 e)
              && (1 <=? version) && digest_pattern digest && Nanodollars reserved
              && (setup_project (ss_key s) =? setup_project k)
              && bool_decide (ss_key s = k)) ValueError;
  Ok {| xr_envelope_id := se_id env; xr_slot_id := ss_id s; xr_slot_key := k;
        xr_effect_id := ef_id e; xr_attempt_number := ef_attempt_number e;
        xr_internal_call_request_id := ef_internal_call_request_id e;
        xr_effect := setup_effect_facts s e; xr_request_sha256 := ef_request_sha256 e;
        xr_request_evidence := evidence; xr_budget_configuration_id := config;
        xr_budget_configuration_version := version; xr_budget_configuration_digest := digest;
        xr_reserved_nanodollars := reserved; xr_replayed := replayed |}.

Definition setup_reserve_dispatch (P : SetupPorts) (c : Call) (a : PreparedSetupModelUsageEffect)
    (request : ModelCallEvidence) (L : Ledger)
    : result ModelExn (SetupModelDispatchReservation * Ledger) :=
  _ ← require_model_call_transaction c;
  _ ← ensure (setup_prepared_valid a) ValueError;
  _ ← ensure (evidence_valid request) ValueError;
  authority ← authorize_setup_dispatch P a request;
  _ ← setup_authority "setup_dispatch"
        (JObj [kv "prepared" (setup_prepared_json a);
               kv "request_evidence" (evidence_json request)]) authority;
  let k := xp_slot_key a in
  owner ← require_setup_current P k;
  _ ← require_setup_request P a request;
  profile ← _profile k (Some owner) L;
  let p := pp_spec profile in
  _ ← ensure (negb (negb (str_eqb (me_content_sha256 request) (xp_request_sha256 a))
                    || (maximum_request_bytes p <? me_byte_count request)))
        (ModelCallConflict "setup_model_request_evidence_conflict");
  env ← oget (setup_envelope k L) (ModelCallUnavailable "setup_model_envelope_unavailable");
  _ ← ensure (se_id env =? xp_envelope_id a)
        (ModelCallUnavailable "setup_model_envelope_unavailable");
  let gone := ModelCallUnavailable "setup_model_effect_unavailable" in
  s ← oget (setup_slot k L) gone;
  _ ← ensure (ss_id s =? xp_slot_id a) gone;
  row ← oget (attempt (xp_effect_id a) L) gone;
  _ ← ensure (bool_decide (ef_setup_slot_id row = Some (ss_id s))) gone;
  if negb (bool_decide (ef_state row = ES_prepared)) then
    _ ← ensure (bool_decide (ec_content_sha256 (dc_request (ef_dispatch row))
                             = Some (me_content_sha256 request)))
          (ModelCallConflict "setup_model_dispatch_conflict");
    _ ← ensure (bool_decide (ef_state row = ES_dispatching))
          (ModelCallConflict "setup_model_effect_not_dispatchable");
    r ← setup_dispatch_result env s row k request true;
    Ok (r, L)
  else
    let tt := setup_envelope_totals (se_id env) L in
    reservation ← maximum_dispatch_reservation_nanodollars p;
    run_limit ← maximum_reservation_nanodollars p;
    _ ← ensure (negb (envelope_exhausted tt p run_limit reservation (me_byte_count request)))
          (ModelCallBudgetUnavailable "model_run_envelope_unavailable");
    let broke := ModelCallBudgetUnavailable "model_budget_unavailable" in
    account ← oget (budget_account (setup_project k) L) broke;
    budget ← oget (current_budget_configuration account L) broke;
    _ ← ensure (negb (over_lifetime account budget reservation)) broke;
    let row := dispatched_effect row request budget reservation (dc_execution_facts (ef_dispatch row))
                 (ae_evidence_id authority) (ca_now c) in
    L ← update_effect c row (Some (move_account account reservation 0)) L;
    r ← setup_dispatch_result env s row k request false;
    Ok (r, L).

(** ** Terminal custody *)

Definition setup_terminal_preflight (effect_id : uuid) (L : Ledger)
    : result ModelExn (SetupModelUsageSlot * ProjectModelProfile) :=
  let gone := ModelCallUnavailable "setup_model_effect_unavailable" in
  row ← oget (attempt effect_id L) gone;
  s ← oget (ef_setup_slot_id row ≫= λ i, lg_setup_slots L !! i) gone;
  profile ← _profile (ss_key s) None L;
  Ok (s, profile).

Definition setup_lock_terminal (s : SetupModelUsageSlot) (effect_id : uuid) (L : Ledger)
    : result ModelExn ModelUsageEffect :=
  let gone := ModelCallUnavailable "setup_model_effect_unavailable" in
  let k := ss_key s in
  _ ← oget (setup_envelope k L) (ModelCallUnavailable "setup_model_envelope_unavailable");
  locked ← oget (setup_slot k L) gone;
  _ ← ensure (ss_id locked =? ss_id s) gone;
  row ← oget (attempt effect_id L) gone;
  _ ← ensure (bool_decide (ef_setup_slot_id row = Some (ss_id s))) gone;
  Ok row.

Definition _require_pending :=
  require_pending "setup_model_terminal_conflict" "model_budget_unavailable".

Definition setup_mark_uncertain (P : SetupPorts) (c : Call) (f : SetupModelEffectAuthorityFacts)
    (uncertainty_digest : str) (rid : option str) (L : Ledger)
    : result ModelExn (ObservedSetupModelUsageEffect * Ledger) :=
  _ ← require_model_call_transaction c;
  _ ← ensure (setup_effect_valid f) ValueError;
  digest ← _sha (setup_unicode P) uncertainty_digest;
  _ ← ensure (match rid with Some r => ProviderResponseIdentifier r | None => true end) ValueError;
  authority ← authorize_setup_observe P f rid digest;
  _ ← setup_authority "setup_observe"
        (JObj [kv "effect" (setup_effect_json f); kv "provider_response_id" (json_opt JStr rid);
               kv "observation_digest" (JStr digest)]) authority;
  pre ← setup_terminal_preflight (xa_effect_id f) L;
  let s := pre.1 in
  row ← setup_lock_terminal s (xa_effect_id f) L;
  _ ← require_setup_effect f s row;
  let conflict := ModelCallConflict "setup_model_uncertainty_conflict" in
  let observed row d replayed :=
    {| xo_effect := setup_effect_facts s row; xo_uncertainty_digest := d;
       xo_provider_response_id := ef_provider_response_id row; xo_replayed := replayed |} in
  if bool_decide (ef_state row = ES_uncertain) then
    _ ← ensure (negb (negb (bool_decide (oc_uncertainty_digest (ef_observation row) = Some digest))
                      || negb (bool_decide (ef_provider_response_id row = rid)))) conflict;
    _ ← ensure (digest_pattern digest) ValueError;
    Ok (observed row digest true, L)
  else
    _ ← ensure (bool_decide (ef_state row = ES_dispatching)) conflict;
    let row := uncertain_effect row digest rid (ae_evidence_id authority) in
    L ← update_effect c row None L;
    _ ← ensure (digest_pattern digest) ValueError;
    Ok (observed row digest false, L).

Definition setup_terminal_json (rid snapshot : str) (response : ModelCallEvidence)
    (u : ModelCallUsage) (usable : bool) : json :=
  JObj [kv "status" (JStr (lit "completed")); kv "provider_response_id" (JStr rid);
        kv "provider_model_snapshot" (JStr snapshot);
        kv "response_evidence" (evidence_json response); kv "usage" (usage_json u);
        kv "usable" (JBool usable)].

Definition setup_complete (P : SetupPorts) (c : Call) (f : SetupModelEffectAuthorityFacts)
    (rid snapshot : str) (response : ModelCallEvidence) (usage : ModelCallUsage) (usable : bool)
    (L : Ledger) : result ModelExn (CompletedSetupModelUsageEffect * Ledger) :=
  _ ← require_model_call_transaction c;
  _ ← ensure (setup_effect_valid f) ValueError;
  _ ← ensure (ProviderResponseIdentifier rid) ValueError;
  _ ← ensure (evidence_valid response) ValueError;
  _ ← ensure (usage_valid usage) ValueError;
  terminal_digest ← oget (canonical_json_hash
    (setup_terminal_json rid snapshot response usage usable)) ValueError;
  authority ← authorize_setup_complete P f (Some response) terminal_digest;
  _ ← setup_authority "setup_complete"
        (JObj [kv "effect" (setup_effect_json f); kv "response_evidence" (evidence_json response);
               kv "terminal_digest" (JStr terminal_digest)]) authority;
  _ ← require_setup_response P (xa_effect_id f) response;
  pre ← setup_terminal_preflight (xa_effect_id f) L;
  let '(s, profile) := pre in
  let p := pp_spec profile in
  _ ← ensure (negb (negb (str_eqb snapshot (sp_model_snapshot p))
                    || (maximum_response_bytes p <? me_byte_count response)))
        (ModelCallConflict "setup_model_response_conflict");
  cost ← model_usage_cost p usage;
  row ← setup_lock_terminal s (xa_effect_id f) L;
  _ ← require_setup_effect f s row;
  let target := if usable then ES_completed else ES_known_failed in
  if bool_decide (ef_state row = ES_completed) || bool_decide (ef_state row = ES_known_failed) then
    let conflict := ModelCallConflict "setup_model_terminal_conflict" in
    _ ← ensure (bool_decide (ef_state row = target)) conflict;
    _ ← ensure (bool_decide (ef_provider_response_id row = Some rid)) conflict;
    stored ← _evidence (tc_response (ef_terminal row));
    _ ← ensure (bool_decide (stored = response)) conflict;
    stored_usage ← _usage (ef_terminal row);
    _ ← ensure (bool_decide (stored_usage = Some usage)) conflict;
    _ ← ensure (bool_decide (ef_settled row = Some cost)) conflict;
    r ← setup_completed row s true;
    Ok (r, L)
  else
    reserved ← _require_pending row;
    _ ← ensure (match ef_provider_response_id row with Some r => str_eqb r rid | None => true end)
          (ModelCallConflict "setup_model_provider_response_conflict");
    account ← _settle reserved cost (setup_project (ss_key s)) L;
    let row := settled_effect row (negb usable) rid response usage cost (ae_evidence_id authority)
                 (ca_now c) (if usable then ca_now c else ca_now2 c) in
    L ← update_effect c row (Some account) L;
    r ← setup_completed row s false;
    Ok (r, L).

Definition setup_mark_known_no_effect (P : SetupPorts) (c : Call)
    (f : SetupModelEffectAuthorityFacts) (proof : KnownNoEffectProof) (L : Ledger)
    : result ModelExn (KnownNoEffectSetupModelUsageEffect * Ledger) :=
  _ ← require_model_call_transaction c;
  _ ← ensure (setup_effect_valid f) ValueError;
  _ ← ensure (proof_valid proof) ValueError;
  terminal_digest ← oget (model_retry_terminal_digest (inr proof)) ValueError;
  authority ← authorize_setup_complete P f None terminal_digest;
  _ ← setup_authority "setup_complete"
        (JObj [kv "effect" (setup_effect_json f); kv "response_evidence" JNull;
               kv "terminal_digest" (JStr terminal_digest)]) authority;
  pre ← setup_terminal_preflight (xa_effect_id f) L;
  let s := pre.1 in
  row ← setup_lock_terminal s (xa_effect_id f) L;
  _ ← require_setup_effect f s row;
  let t := ef_terminal row in
  if bool_decide (ef_state row = ES_known_no_effect) then
    _ ← ensure (negb (negb (bool_decide (tc_no_effect_proof_id t = Some (np_proof_id proof)))
                      || negb (bool_decide (tc_no_effect_proof_digest t = Some (np_proof_digest proof)))
                      || negb (bool_decide (tc_no_effect_observed_at t = Some (np_observed_at proof)))))
          (ModelCallConflict "setup_model_terminal_conflict");
    Ok ({| xn_effect := setup_effect_facts s row; xn_proof := proof; xn_replayed := true |}, L)
  else
    reserved ← _require_pending row;
    _ ← ensure (bool_decide (ef_provider_response_id row = None))
          (ModelCallConflict "setup_model_no_effect_conflict");
    account ← _release reserved (setup_project (ss_key s)) L;
    let row := released_effect row proof (ae_evidence_id authority) (ca_now c) in
    L ← update_effect c row (Some account) L;
    Ok ({| xn_effect := setup_effect_facts s row; xn_proof := proof; xn_replayed := false |}, L).
