(* ===== verification/ModelLedger.v ===== *)
(** * The model-call ledger as a machine

    Every operation of the two services is a sequence of ledger moves: publishing a profile,
    configuring a budget, opening an envelope or a slot, preparing an attempt, reserving,
    marking uncertain, settling and releasing.  This file gives the moves, the invariant of
    the ledger (conservation of the accounts, run ceilings, retry chains) and its
    preservation; [ModelRefine] shows that the services' operations are such moves. *)

From stdpp Require Import relations.
From S2P Require Import Prelude Text Digest Json Instant OutboxApi OutboxStore ModelApi ModelStore.
From S2P Require Import ModelService.

(** ** Sums over a table *)

Lemma sum_rows_insert f t i e :
  t !! i = None → sum_rows f (<[i := e]> t) = f e + sum_rows f t.
Proof. intros H. unfold sum_rows, rows. by rewrite map_to_list_insert by done. Qed.

Lemma sum_rows_update f t i e e' :
  t !! i = Some e → sum_rows f (<[i := e']> t) = sum_rows f t - f e + f e'.
Proof.
  intros H. rewrite <- insert_delete_eq, sum_rows_insert by apply lookup_delete_eq.
  rewrite <- (insert_delete_id t i e H) at 2.
  rewrite (sum_rows_insert _ (delete i t)) by apply lookup_delete_eq. lia.
Qed.

Lemma sum_rows_ext f g t :
  (∀ i e, t !! i = Some e → f e = g e) → sum_rows f t = sum_rows g t.
Proof.
  induction t as [|i e t Hi IH] using map_ind; [done|]. intros H.
  rewrite !sum_rows_insert by done. rewrite (H i e), IH; [done| |apply lookup_insert_eq].
  intros j x Hj. apply (H j). rewrite lookup_insert_ne; [done|congruence].
Qed.

Lemma sum_rows_zero f t : (∀ i e, t !! i = Some e → f e = 0) → sum_rows f t = 0.
Proof.
  intros H. rewrite (sum_rows_ext f (λ _, 0)) by done. unfold sum_rows.
  induction (rows t) as [|x l IH]; [done|]. change (0 + sumZ ((λ _, 0) <$> l) = 0). lia.
Qed.

Lemma sum_rows_nonneg f t : (∀ i e, t !! i = Some e → 0 ≤ f e) → 0 ≤ sum_rows f t.
Proof.
  induction t as [|i e t Hi IH] using map_ind; [done|]. intros H. rewrite sum_rows_insert by done.
  assert (0 ≤ f e) by (apply (H i); apply lookup_insert_eq).
  assert (0 ≤ sum_rows f t); [|lia]. apply IH. intros j x Hj. apply (H j).
  rewrite lookup_insert_ne; [done|congruence].
Qed.

(** ** Owners *)

Inductive EnvRef := CheckerEnv (id : uuid) | SetupEnv (id : uuid).
Inductive SlotRef := CheckerSlot (id : uuid) | SetupSlot (id : uuid).

#[export] Instance EnvRef_eq_dec : EqDecision EnvRef.
Proof. solve_decision. Defined.
#[export] Instance SlotRef_eq_dec : EqDecision SlotRef.
Proof. solve_decision. Defined.

Record OwnerView := {
  ov_envelope : EnvRef; ov_project : uuid; ov_profile : ModelProfileSelector }.

Definition slot_of (e : ModelUsageEffect) : option SlotRef :=
  match ef_checker_slot_id e, ef_setup_slot_id e with
  | Some i, None => Some (CheckerSlot i)
  | None, Some i => Some (SetupSlot i)
  | _, _ => None
  end.

Definition slot_view (L : Ledger) (r : SlotRef) : option OwnerView :=
  match r with
  | CheckerSlot i =>
      s ← lg_slots L !! i;
      Some {| ov_envelope := CheckerEnv (cs_envelope_id s); ov_project := slot_project (cs_key s);
              ov_profile := slot_profile (cs_key s) |}
  | SetupSlot i =>
      s ← lg_setup_slots L !! i;
      Some {| ov_envelope := SetupEnv (ss_envelope_id s); ov_project := setup_project (ss_key s);
              ov_profile := setup_profile (ss_key s) |}
  end.

Definition owner (L : Ledger) (e : ModelUsageEffect) : option OwnerView :=
  slot_of e ≫= slot_view L.

Definition env_view (L : Ledger) (r : EnvRef) : option (uuid * ModelProfileSelector) :=
  match r with
  | CheckerEnv i => v ← lg_envelopes L !! i; Some (ek_project_id (ce_key v), ek_profile (ce_key v))
  | SetupEnv i => v ← lg_setup_envelopes L !! i; Some (xk_project_id (se_key v), xk_profile (se_key v))
  end.

Definition member (L : Ledger) (r : EnvRef) (e : ModelUsageEffect) : bool :=
  match owner L e with Some v => bool_decide (ov_envelope v = r) | None => false end.

Definition run_totals (L : Ledger) (r : EnvRef) : ModelUsageEnvelopeTotals :=
  totals (member L r) (lg_effects L).

(** What the effects of a project have reserved and settled. *)
Definition of_project (L : Ledger) (p : uuid) (f : ModelUsageEffect → Z) (e : ModelUsageEffect) : Z :=
  match owner L e with Some v => if ov_project v =? p then f e else 0 | None => 0 end.

Definition reserved_in (L : Ledger) (p : uuid) : Z := sum_rows (of_project L p reserved_amount) (lg_effects L).
Definition settled_in (L : Ledger) (p : uuid) : Z := sum_rows (of_project L p settled_amount) (lg_effects L).

(** The published profile a selector names. *)
Definition published (L : Ledger) (s : ModelProfileSelector) (p : ProjectModelProfileSpec) : Prop :=
  ∃ row prof, profile_exact s L = Some row ∧ stored_model_profile row = Ok prof ∧ pp_spec prof = p.

(** ** The invariant *)

Definition retryable (s : EffectState) : bool :=
  bool_decide (s = ES_known_failed) || bool_decide (s = ES_known_no_effect).

Definition terminal (s : EffectState) : bool := retryable s || bool_decide (s = ES_completed).

(** The columns an attempt has in each state. *)
Definition effect_shape (p : ProjectModelProfileSpec) (e : ModelUsageEffect) : Prop :=
  match ef_state e with
  | ES_prepared => ef_dispatch e = no_dispatch ∧ ef_terminal e = no_terminal ∧
                   ef_provider_response_id e = None
  | ES_dispatching | ES_uncertain =>
      ef_terminal e = no_terminal ∧
      (∃ request, evidence_valid request = true ∧ dc_request (ef_dispatch e) = _set_evidence request) ∧
      ∃ r, ef_reserved e = Some r ∧ maximum_dispatch_reservation_nanodollars p = Ok r
  | ES_completed | ES_known_failed =>
      ∃ r c, ef_reserved e = Some r ∧ ef_settled e = Some c ∧ 0 ≤ c ≤ r
  | ES_known_no_effect => (∃ r, ef_reserved e = Some r) ∧ ef_settled e = None
  end.

(** The run ceilings of a profile. *)
Definition run_bounded (t : ModelUsageEnvelopeTotals) (p : ProjectModelProfileSpec) : Prop :=
  tt_dispatches t ≤ maximum_calls p ∧
  (∀ m, maximum_reservation_nanodollars p = Ok m →
        tt_reserved_nanodollars t + tt_settled_nanodollars t ≤ m) ∧
  tt_request_bytes t ≤ maximum_total_request_bytes p ∧
  tt_response_bytes t + tt_pending_dispatches t * maximum_response_bytes p
    ≤ maximum_total_response_bytes p ∧
  tt_input_tokens t + tt_pending_dispatches t * maximum_input_tokens p
    ≤ maximum_total_input_tokens p ∧
  tt_output_tokens t + tt_pending_dispatches t * maximum_output_tokens p
    ≤ maximum_total_output_tokens p.

(** An attempt is the first of its slot or follows a proven failure. *)
Definition chained (L : Ledger) (e : ModelUsageEffect) : Prop :=
  (ef_attempt_number e = 1 ∧ ef_parent_attempt_id e = None) ∨
  ∃ p, lg_effects L !! ef_id p = Some p ∧ slot_of p = slot_of e ∧
       ef_parent_attempt_id e = Some (ef_id p) ∧
       ef_attempt_number e = ef_attempt_number p + 1 ∧ retryable (ef_state p) = true.

Definition account_ok (L : Ledger) (p : uuid) (a : ModelUsageBudgetAccount) : Prop :=
  ba_project_id a = p ∧
  ba_lifetime_reserved_nanodollars a = reserved_in L p ∧
  ba_lifetime_settled_nanodollars a = settled_in L p ∧
  ∃ b, lg_configurations L !! ba_current_configuration_id a = Some b ∧
    bs_project_id (bc_spec b) = p ∧
    ba_lifetime_reserved_nanodollars a + ba_lifetime_settled_nanodollars a
      ≤ lifetime_limit_nanodollars (bc_spec b).

Record effects_ok (L : Ledger) : Prop := {
  lo_id : ∀ i e, lg_effects L !! i = Some e → ef_id e = i;
  lo_shape : ∀ i e, lg_effects L !! i = Some e →
    ∃ v p, owner L e = Some v ∧ published L (ov_profile v) p ∧ effect_shape p e;
  lo_unique : ∀ i j e f, lg_effects L !! i = Some e → lg_effects L !! j = Some f →
    slot_of e = slot_of f → ef_attempt_number e = ef_attempt_number f → i = j;
  lo_chain : ∀ i e, lg_effects L !! i = Some e → chained L e;
  lo_number : ∀ i e, lg_effects L !! i = Some e → 1 ≤ ef_attempt_number e;
}.

Record owners_ok (L : Ledger) : Prop := {
  lo_slot : ∀ i s, lg_slots L !! i = Some s → cs_id s = i;
  lo_setup_slot : ∀ i s, lg_setup_slots L !! i = Some s → ss_id s = i;
  lo_envelope : ∀ i s, lg_envelopes L !! i = Some s → ce_id s = i;
  lo_setup_envelope : ∀ i s, lg_setup_envelopes L !! i = Some s → se_id s = i;
  lo_view : ∀ r v, slot_view L r = Some v →
    env_view L (ov_envelope v) = Some (ov_project v, ov_profile v);
  lo_env : ∀ r pr sel, env_view L r = Some (pr, sel) →
    ∃ p, published L sel p ∧ sp_project_id p = pr;
  lo_slot_key : ∀ i s, lg_slots L !! i = Some s →
    ∃ env, lg_envelopes L !! cs_envelope_id s = Some env ∧ ce_key env = sk_envelope (cs_key s);
  lo_setup_slot_key : ∀ i s, lg_setup_slots L !! i = Some s →
    ∃ env, lg_setup_envelopes L !! ss_envelope_id s = Some env ∧ se_key env = xs_envelope (ss_key s);
  lo_envelope_key : ∀ i j x y, lg_envelopes L !! i = Some x → lg_envelopes L !! j = Some y →
    ce_key x = ce_key y → i = j;
  lo_setup_envelope_key : ∀ i j x y,
    lg_setup_envelopes L !! i = Some x → lg_setup_envelopes L !! j = Some y →
    xk_compilation_attempt_id (se_key x) = xk_compilation_attempt_id (se_key y) → i = j;
  lo_slot_unique : ∀ i j x y, lg_slots L !! i = Some x → lg_slots L !! j = Some y →
    cs_key x = cs_key y → i = j;
}.

Record budgets_ok (L : Ledger) : Prop := {
  lo_account : ∀ p,
    match lg_accounts L !! p with
    | Some a => account_ok L p a
    | None => reserved_in L p = 0 ∧ settled_in L p = 0
    end;
  lo_configuration : ∀ i b, lg_configurations L !! i = Some b →
    bc_id b = i ∧ budget_spec_valid (bc_spec b) = true;
}.

Definition runs_ok (L : Ledger) : Prop :=
  ∀ r pr sel p, env_view L r = Some (pr, sel) → published L sel p → run_bounded (run_totals L r) p.

Record ledger_ok (L : Ledger) : Prop := {
  ok_owners : owners_ok L;
  ok_effects : effects_ok L;
  ok_budgets : budgets_ok L;
  ok_runs : runs_ok L;
}.

(** ** Moves *)

(** What an account of the project carries over to a new configuration. *)
Definition lifetime (L : Ledger) (p : uuid) : Z * Z :=
  match lg_accounts L !! p with
  | Some a => (ba_lifetime_reserved_nanodollars a, ba_lifetime_settled_nanodollars a)
  | None => (0, 0)
  end.

Definition configured (b : ModelUsageBudgetConfiguration) (L : Ledger) : ModelUsageBudgetAccount :=
  let p := bs_project_id (bc_spec b) in
  {| ba_project_id := p; ba_current_configuration_id := bc_id b;
     ba_lifetime_reserved_nanodollars := (lifetime L p).1;
     ba_lifetime_settled_nanodollars := (lifetime L p).2 |}.

(** An effect and its account written together. *)
Definition post (e : ModelUsageEffect) (a : ModelUsageBudgetAccount) (L : Ledger) : Ledger :=
  with_accounts (insert (ba_project_id a) a) (with_effects (insert (ef_id e) e) L).

Inductive move (L : Ledger) : Ledger → Prop :=
| mv_profile r :
    lg_profiles L !! mp_id r = None → move L (with_profiles (insert (mp_id r) r) L)
| mv_budget b :
    lg_configurations L !! bc_id b = None → budget_spec_valid (bc_spec b) = true →
    (lifetime L (bs_project_id (bc_spec b))).1 + (lifetime L (bs_project_id (bc_spec b))).2
      ≤ lifetime_limit_nanodollars (bc_spec b) →
    move L (with_accounts (insert (bs_project_id (bc_spec b)) (configured b L))
              (with_configurations (insert (bc_id b) b) L))
| mv_envelope r p :
    lg_envelopes L !! ce_id r = None → published L (ek_profile (ce_key r)) p →
    sp_project_id p = ek_project_id (ce_key r) →
    (∀ i x, lg_envelopes L !! i = Some x → ce_key x ≠ ce_key r) →
    move L (with_envelopes (insert (ce_id r) r) L)
| mv_slot s env :
    lg_slots L !! cs_id s = None → lg_envelopes L !! cs_envelope_id s = Some env →
    ce_key env = sk_envelope (cs_key s) →
    (∀ i x, lg_slots L !! i = Some x → cs_key x ≠ cs_key s) →
    move L (with_slots (insert (cs_id s) s) L)
| mv_setup_envelope r p :
    lg_setup_envelopes L !! se_id r = None → published L (xk_profile (se_key r)) p →
    sp_project_id p = xk_project_id (se_key r) →
    (∀ i x, lg_setup_envelopes L !! i = Some x →
            xk_compilation_attempt_id (se_key x) ≠ xk_compilation_attempt_id (se_key r)) →
    move L (with_setup_envelopes (insert (se_id r) r) L)
| mv_setup_slot s env :
    lg_setup_slots L !! ss_id s = None → lg_setup_envelopes L !! ss_envelope_id s = Some env →
    se_key env = xs_envelope (ss_key s) → move L (with_setup_slots (insert (ss_id s) s) L)
| mv_prepare e v :
    lg_effects L !! ef_id e = None → ef_state e = ES_prepared → ef_dispatch e = no_dispatch →
    ef_terminal e = no_terminal → ef_provider_response_id e = None →
    owner L e = Some v → chained L e →
    (∀ j f, lg_effects L !! j = Some f → slot_of f = slot_of e →
            ef_attempt_number f ≠ ef_attempt_number e) →
    move L (with_effects (insert (ef_id e) e) L)
| mv_dispatch e v p m r a b request facts evidence now :
    lg_effects L !! ef_id e = Some e → ef_state e = ES_prepared → owner L e = Some v →
    published L (ov_profile v) p → evidence_valid request = true →
    maximum_dispatch_reservation_nanodollars p = Ok r → maximum_reservation_nanodollars p = Ok m →
    envelope_exhausted (run_totals L (ov_envelope v)) p m r (me_byte_count request) = false →
    lg_accounts L !! ov_project v = Some a → current_budget_configuration a L = Some b →
    over_lifetime a b r = false →
    move L (post (dispatched_effect e request b r facts evidence now) (move_account a r 0) L)
| mv_uncertain e digest rid evidence :
    lg_effects L !! ef_id e = Some e → ef_state e = ES_dispatching →
    move L (with_effects (insert (ef_id e) (uncertain_effect e digest rid evidence)) L)
| mv_settle e v p r a failed rid response u c evidence t1 t2 :
    lg_effects L !! ef_id e = Some e → pending e = true → owner L e = Some v →
    published L (ov_profile v) p → ef_reserved e = Some r →
    me_byte_count response ≤ maximum_response_bytes p → model_usage_cost p u = Ok c →
    lg_accounts L !! ov_project v = Some a →
    move L (post (settled_effect e failed rid response u c evidence t1 t2) (move_account a (- r) c) L)
| mv_release e v r a proof evidence t :
    lg_effects L !! ef_id e = Some e → pending e = true → owner L e = Some v →
    ef_reserved e = Some r → lg_accounts L !! ov_project v = Some a →
    move L (post (released_effect e proof evidence t) (move_account a (- r) 0) L)
| mv_recovery r :
    lg_recoveries L !! cr_id r = None → move L (with_recoveries (insert (cr_id r) r) L).

(** ** Profiles stay published *)

Lemma published_fun L s p q : published L s p → published L s q → p = q.
Proof. intros (r & x & H1 & H2 & <-) (r' & x' & H1' & H2' & <-). congruence. Qed.

Lemma stored_model_profile_spec row prof :
  stored_model_profile row = Ok prof →
  pp_spec prof = mp_spec row ∧ spec_valid (mp_spec row) = true ∧
  pp_profile_id prof = mp_id row ∧ pf_profile_digest (pp_facts prof) = mp_profile_digest row.
Proof.
  unfold stored_model_profile. cbv zeta. intros [H <-%Ok_inj]%ensure_bind_Ok.
  apply andb_true_iff in H as [H _]. unfold profile_facts_valid in H. cbn in H.
  rewrite !andb_true_iff in H. tauto.
Qed.

Lemma published_valid L s p : published L s p → spec_valid p = true.
Proof. intros (row & prof & _ & (E & H & _)%stored_model_profile_spec & <-). by rewrite E. Qed.

Lemma spec_valid_bounds p :
  spec_valid p = true →
  pricing_valid (sp_pricing p) = true ∧ 1 ≤ maximum_calls p ∧
  1 ≤ maximum_total_request_bytes p ∧ 1 ≤ maximum_total_response_bytes p ∧
  1 ≤ maximum_total_input_tokens p ∧ 1 ≤ maximum_total_output_tokens p.
Proof.
  unfold spec_valid, in_range. rewrite !andb_true_iff. intros H. split_and!; [tauto|lia..].
Qed.

Lemma profile_exact_fresh r s L :
  lg_profiles L !! mp_id r = None →
  profile_exact s (with_profiles (insert (mp_id r) r) L) = profile_exact s L ∨
  profile_exact s L = None.
Proof.
  intros H. unfold profile_exact. cbn.
  destruct (decide (ps_profile_id s = mp_id r)) as [->|Hne].
  - right. by rewrite H.
  - left. by rewrite lookup_insert_ne.
Qed.

Lemma published_stable r s p L :
  lg_profiles L !! mp_id r = None → published L s p →
  published (with_profiles (insert (mp_id r) r) L) s p.
Proof.
  intros H (row & prof & H1 & H2). exists row, prof.
  destruct (profile_exact_fresh r s L H) as [->|E]; [done|congruence].
Qed.

(** ** Moves that leave the effects alone *)

(** The effects are the same and every slot keeps its view. *)
Record extends (L L' : Ledger) : Prop := {
  ex_effects : lg_effects L' = lg_effects L;
  ex_views : ∀ r v, slot_view L r = Some v → slot_view L' r = Some v;
  ex_published : ∀ s p, published L s p → published L' s p;
}.

Section Extends.
Context (L L' : Ledger) (Hext : extends L L') (Heff : effects_ok L).

Lemma extends_owner i e : lg_effects L !! i = Some e → owner L' e = owner L e.
Proof.
  intros (v & p & Hv & _)%(lo_shape _ Heff). rewrite Hv. unfold owner in *.
  destruct (slot_of e) as [r|]; [|done]. cbn in *. by apply Hext.
Qed.

Lemma extends_project f p :
  sum_rows (of_project L' p f) (lg_effects L') = sum_rows (of_project L p f) (lg_effects L).
Proof.
  rewrite (ex_effects _ _ Hext). apply sum_rows_ext. intros i e He.
  unfold of_project. by rewrite (extends_owner i).
Qed.

Lemma extends_totals r : run_totals L' r = run_totals L r.
Proof.
  unfold run_totals, totals. rewrite (ex_effects _ _ Hext).
  f_equal; apply sum_rows_ext; intros i e He; unfold member; by rewrite (extends_owner i).
Qed.

Lemma extends_effects : effects_ok L'.
Proof.
  split.
  - rewrite (ex_effects _ _ Hext). apply Heff.
  - rewrite (ex_effects _ _ Hext). intros i e He. rewrite (extends_owner i) by done.
    destruct (lo_shape _ Heff _ _ He) as (v & p & Hv & Hp & Hs). exists v, p.
    split_and!; [done|by apply Hext|done].
  - rewrite (ex_effects _ _ Hext). apply Heff.
  - unfold chained. rewrite (ex_effects _ _ Hext). apply Heff.
  - rewrite (ex_effects _ _ Hext). apply Heff.
Qed.

Lemma extends_budgets :
  lg_accounts L' = lg_accounts L →
  (∀ i b, lg_configurations L !! i = Some b → lg_configurations L' !! i = Some b) →
  (∀ i b, lg_configurations L' !! i = Some b → bc_id b = i ∧ budget_spec_valid (bc_spec b) = true) →
  budgets_ok L → budgets_ok L'.
Proof.
  intros Ha Hc Hc' [H1 H2]. split; [|done]. intros p. specialize (H1 p). rewrite Ha.
  unfold account_ok, reserved_in, settled_in in *. rewrite !extends_project.
  destruct (lg_accounts L !! p); [|done].
  destruct H1 as (E1 & E2 & E3 & b & E4 & E5). split_and!; [done..|]. exists b. eauto.
Qed.

(** The run ceilings of the envelopes that were there. *)
Lemma extends_runs :
  owners_ok L → runs_ok L →
  (∀ r x, env_view L' r = Some x → env_view L r = Some x ∨ env_view L r = None) →
  runs_ok L'.
Proof.
  intros Ho Hr Henv r pr sel p Hview Hp. rewrite extends_totals.
  destruct (Henv _ _ Hview) as [Hold|Hnone].
  - destruct (lo_env _ Ho _ _ _ Hold) as (q & Hq & _). eapply Hr; [done|].
    by rewrite (published_fun L' sel p q) by (done || by apply Hext).
  - assert (∀ i e, lg_effects L !! i = Some e → member L r e = false) as Hmem.
    { intros i e He. destruct (lo_shape _ Heff _ _ He) as (v & q & Hv & _).
      unfold member. rewrite Hv. apply bool_decide_eq_false. intros <-.
      unfold owner in Hv. destruct (slot_of e) as [x|]; [|done]. cbn in Hv.
      apply (lo_view _ Ho) in Hv. congruence. }
    apply published_valid, spec_valid_bounds in Hp as (_ & B1 & B2 & B3 & B4 & B5).
    unfold run_totals, totals, run_bounded. cbn.
    rewrite !sum_rows_zero by (intros i e He; by rewrite (Hmem i)).
    split_and!; [lia| |lia..].
    intros m Hm. unfold maximum_reservation_nanodollars in Hm. cbv zeta in Hm.
    apply ensure_bind_Ok in Hm as [Hm <-%Ok_inj]. lia.
Qed.
End Extends.

Lemma extends_refl_tables L L' :
  lg_effects L' = lg_effects L → lg_slots L' = lg_slots L → lg_setup_slots L' = lg_setup_slots L →
  lg_profiles L' = lg_profiles L → extends L L'.
Proof.
  intros H1 H2 H3 H4. split; [done| |].
  - intros [i|i] v; cbn; rewrite ?H2, ?H3; done.
  - intros s p. unfold published, profile_exact. by rewrite H4.
Qed.

(** The owners depend on the tables of profiles, slots and envelopes only. *)
Lemma owners_frame L L' :
  lg_profiles L' = lg_profiles L → lg_slots L' = lg_slots L → lg_setup_slots L' = lg_setup_slots L →
  lg_envelopes L' = lg_envelopes L → lg_setup_envelopes L' = lg_setup_envelopes L →
  owners_ok L → owners_ok L'.
Proof.
  destruct L, L'. cbn. intros -> -> -> -> -> [H1 H2 H3 H4 H5 H6 H7 H8 H9 H10 H11].
  split; [exact H1|exact H2|exact H3|exact H4|exact H5|exact H6|exact H7|exact H8|exact H9|exact H10
        |exact H11].
Qed.

Lemma move_profile_ok L r :
  ledger_ok L → lg_profiles L !! mp_id r = None → ledger_ok (with_profiles (insert (mp_id r) r) L).
Proof.
  intros [Ho He Hb Hr] Hfresh.
  assert (extends L (with_profiles (insert (mp_id r) r) L)) as Hext.
  { split; [done..|]. intros s p. by apply published_stable. }
  split.
  - destruct Ho as [H1 H2 H3 H4 H5 H6 H7 H8 H9 H10 H11]. split; [done..| |done|done|done|done|done].
    intros x pr sel Hx.
    destruct (H6 x pr sel Hx) as (p & Hp & Hpr). exists p. split; [|done]. by apply Hext.
  - by apply (extends_effects L).
  - eapply extends_budgets; eauto. apply Hb.
  - eapply extends_runs; eauto.
Qed.

Lemma move_envelope_ok L r p :
  ledger_ok L → lg_envelopes L !! ce_id r = None → published L (ek_profile (ce_key r)) p →
  sp_project_id p = ek_project_id (ce_key r) →
  (∀ i x, lg_envelopes L !! i = Some x → ce_key x ≠ ce_key r) →
  ledger_ok (with_envelopes (insert (ce_id r) r) L).
Proof.
  intros [Ho He Hb Hr] Hfresh Hp Hpr Hkey.
  assert (extends L (with_envelopes (insert (ce_id r) r) L)) as Hext by by apply extends_refl_tables.
  assert (∀ x y, env_view L x = Some y → env_view (with_envelopes (insert (ce_id r) r) L) x = Some y)
    as Hkeep.
  { intros [i|i] y; cbn; [|done]. intros H. rewrite lookup_insert_ne; [done|].
    intros <-. by rewrite Hfresh in H. }
  split.
  - destruct Ho as [H1 H2 H3 H4 H5 H6 H7 H8 H9 H10 H11]. split; [done..| | | | | |done| |done|done].
    + cbn. intros i s. rewrite lookup_insert_Some. intros [[<- <-]|[_ H]]; [done|by apply H3].
    + done.
    + intros x v Hx. by apply Hkeep, (H5 x).
    + intros [i|i] pr sel; cbn; [|by apply (H6 (SetupEnv i))].
      destruct (decide (ce_id r = i)) as [<-|Hne].
      * rewrite lookup_insert_eq. cbn. intros [= <- <-]. by exists p.
      * rewrite lookup_insert_ne by done. by apply (H6 (CheckerEnv i)).
    + cbn. intros i s Hs. destruct (H7 i s Hs) as (env & E1 & E2). exists env.
      split; [|done]. rewrite lookup_insert_ne; [done|]. intros E. by rewrite <- E, Hfresh in E1.
    + cbn. intros i j x y. rewrite !lookup_insert_Some.
      intros [[<- <-]|[_ Hx]] [[<- <-]|[_ Hy]] Hxy; [done|..].
      * by destruct (Hkey _ _ Hy).
      * by destruct (Hkey _ _ Hx).
      * by eapply H9.
  - by apply (extends_effects L).
  - eapply extends_budgets; eauto. apply Hb.
  - eapply extends_runs; eauto. intros x y Hy. destruct (env_view L x) as [z|] eqn:E; [left|by right].
    by rewrite (Hkeep _ _ E) in Hy.
Qed.

Lemma move_setup_envelope_ok L r p :
  ledger_ok L → lg_setup_envelopes L !! se_id r = None → published L (xk_profile (se_key r)) p →
  sp_project_id p = xk_project_id (se_key r) →
  (∀ i x, lg_setup_envelopes L !! i = Some x →
          xk_compilation_attempt_id (se_key x) ≠ xk_compilation_attempt_id (se_key r)) →
  ledger_ok (with_setup_envelopes (insert (se_id r) r) L).
Proof.
  intros [Ho He Hb Hr] Hfresh Hp Hpr Hkey.
  assert (extends L (with_setup_envelopes (insert (se_id r) r) L)) as Hext by by apply extends_refl_tables.
  assert (∀ x y, env_view L x = Some y →
    env_view (with_setup_envelopes (insert (se_id r) r) L) x = Some y) as Hkeep.
  { intros [i|i] y; cbn; [done|]. intros H. rewrite lookup_insert_ne; [done|].
    intros <-. by rewrite Hfresh in H. }
  split.
  - destruct Ho as [H1 H2 H3 H4 H5 H6 H7 H8 H9 H10 H11]. split; [done..| | | |done| |done| |done].
    + cbn. intros i s. rewrite lookup_insert_Some. intros [[<- <-]|[_ H]]; [done|by apply H4].
    + intros x v Hx. by apply Hkeep, (H5 x).
    + intros [i|i] pr sel; cbn; [by apply (H6 (CheckerEnv i))|].
      destruct (decide (se_id r = i)) as [<-|Hne].
      * rewrite lookup_insert_eq. cbn. intros [= <- <-]. by exists p.
      * rewrite lookup_insert_ne by done. by apply (H6 (SetupEnv i)).
    + cbn. intros i s Hs. destruct (H8 i s Hs) as (env & E1 & E2). exists env.
      split; [|done]. rewrite lookup_insert_ne; [done|]. intros E. by rewrite <- E, Hfresh in E1.
    + cbn. intros i j x y. rewrite !lookup_insert_Some.
      intros [[<- <-]|[_ Hx]] [[<- <-]|[_ Hy]] Hxy; [done|..].
      * by destruct (Hkey _ _ Hy).
      * by destruct (Hkey _ _ Hx).
      * by eapply H10.
  - by apply (extends_effects L).
  - eapply extends_budgets; eauto. apply Hb.
  - eapply extends_runs; eauto. intros x y Hy. destruct (env_view L x) as [z|] eqn:E; [left|by right].
    by rewrite (Hkeep _ _ E) in Hy.
Qed.

Lemma move_slot_ok L s env :
  ledger_ok L → lg_slots L !! cs_id s = None → lg_envelopes L !! cs_envelope_id s = Some env →
  ce_key env = sk_envelope (cs_key s) →
  (∀ i x, lg_slots L !! i = Some x → cs_key x ≠ cs_key s) →
  ledger_ok (with_slots (insert (cs_id s) s) L).
Proof.
  intros [Ho He Hb Hr] Hfresh Henv Hkey Huniq.
  assert (∀ x v, slot_view L x = Some v → slot_view (with_slots (insert (cs_id s) s) L) x = Some v)
    as Hkeep.
  { intros [i|i] v; cbn; [|done]. intros H. rewrite lookup_insert_ne; [done|].
    intros <-. by rewrite Hfresh in H. }
  assert (extends L (with_slots (insert (cs_id s) s) L)) as Hext by by split.
  split.
  - destruct Ho as [H1 H2 H3 H4 H5 H6 H7 H8 H9 H10 H11].
    split; [| | | | |exact H6| |exact H8|exact H9|exact H10|]; [|done..| | |].
    + cbn. intros i x. rewrite lookup_insert_Some. intros [[<- <-]|[_ H]]; [done|by apply H1].
    + intros [i|i] v; cbn; [|by apply (H5 (SetupSlot i))].
      destruct (decide (cs_id s = i)) as [<-|Hne].
      * rewrite lookup_insert_eq. cbn. intros [= <-]. cbn. rewrite Henv. cbn. by rewrite Hkey.
      * rewrite lookup_insert_ne by done. by apply (H5 (CheckerSlot i)).
    + cbn. intros i x. rewrite lookup_insert_Some. intros [[<- <-]|[_ H]]; [by exists env|by eapply H7].
    + cbn. intros i j x y. rewrite !lookup_insert_Some.
      intros [[<- <-]|[_ Hx]] [[<- <-]|[_ Hy]] Hxy; [done|..].
      * by destruct (Huniq _ _ Hy).
      * by destruct (Huniq _ _ Hx).
      * by eapply H11.
  - by apply (extends_effects L).
  - eapply extends_budgets; eauto. apply Hb.
  - eapply extends_runs; eauto.
Qed.

Lemma move_setup_slot_ok L s env :
  ledger_ok L → lg_setup_slots L !! ss_id s = None →
  lg_setup_envelopes L !! ss_envelope_id s = Some env →
  se_key env = xs_envelope (ss_key s) → ledger_ok (with_setup_slots (insert (ss_id s) s) L).
Proof.
  intros [Ho He Hb Hr] Hfresh Henv Hkey.
  assert (∀ x v, slot_view L x = Some v →
    slot_view (with_setup_slots (insert (ss_id s) s) L) x = Some v) as Hkeep.
  { intros [i|i] v; cbn; [done|]. intros H. rewrite lookup_insert_ne; [done|].
    intros <-. by rewrite Hfresh in H. }
  assert (extends L (with_setup_slots (insert (ss_id s) s) L)) as Hext by by split.
  split.
  - destruct Ho as [H1 H2 H3 H4 H5 H6 H7 H8 H9 H10 H11].
    split; [| | | | |exact H6|exact H7| |exact H9|exact H10|exact H11]; [done| |done..| |].
    + cbn. intros i x. rewrite lookup_insert_Some. intros [[<- <-]|[_ H]]; [done|by apply H2].
    + intros [i|i] v; cbn; [by apply (H5 (CheckerSlot i))|].
      destruct (decide (ss_id s = i)) as [<-|Hne].
      * rewrite lookup_insert_eq. cbn. intros [= <-]. cbn. rewrite Henv. cbn. by rewrite Hkey.
      * rewrite lookup_insert_ne by done. by apply (H5 (SetupSlot i)).
    + cbn. intros i x. rewrite lookup_insert_Some. intros [[<- <-]|[_ H]]; [by exists env|by eapply H8].
  - by apply (extends_effects L).
  - eapply extends_budgets; eauto. apply Hb.
  - eapply extends_runs; eauto.
Qed.

Lemma lifetime_ok L p : budgets_ok L → lifetime L p = (reserved_in L p, settled_in L p).
Proof.
  intros Hb. pose proof (lo_account _ Hb p) as H. unfold lifetime.
  destruct (lg_accounts L !! p) as [a|]; [|by destruct H as [-> ->]].
  by destruct H as (_ & -> & -> & _).
Qed.

Lemma move_budget_ok L b :
  ledger_ok L → lg_configurations L !! bc_id b = None → budget_spec_valid (bc_spec b) = true →
  (lifetime L (bs_project_id (bc_spec b))).1 + (lifetime L (bs_project_id (bc_spec b))).2
    ≤ lifetime_limit_nanodollars (bc_spec b) →
  ledger_ok (with_accounts (insert (bs_project_id (bc_spec b)) (configured b L))
               (with_configurations (insert (bc_id b) b) L)).
Proof.
  intros [Ho He Hb Hr] Hfresh Hvalid Hlim. set (p := bs_project_id (bc_spec b)) in *.
  set (L' := with_accounts _ _). assert (extends L L') as Hext by by apply extends_refl_tables.
  split; [by apply (owners_frame L)|by apply (extends_effects L)| |by eapply extends_runs; eauto].
  split.
  - intros q. unfold account_ok, reserved_in, settled_in. rewrite !(extends_project L) by done.
    change (lg_accounts L') with (<[p := configured b L]> (lg_accounts L)).
    change (lg_configurations L') with (<[bc_id b := b]> (lg_configurations L)).
    destruct (decide (p = q)) as [<-|Hne].
    + rewrite lookup_insert_eq. unfold configured. cbn.
      fold p. rewrite lifetime_ok in * by done. cbn. split_and!; [done..|].
      exists b. rewrite lookup_insert_eq. done.
    + rewrite lookup_insert_ne by done. pose proof (lo_account _ Hb q) as H.
      destruct (lg_accounts L !! q) as [a|]; [|done].
      destruct H as (E1 & E2 & E3 & x & E4 & E5). split_and!; [done..|]. exists x.
      rewrite lookup_insert_ne; [done|]. intros E. by rewrite <- E, Hfresh in E4.
  - intros i x. change (lg_configurations L') with (<[bc_id b := b]> (lg_configurations L)).
    rewrite lookup_insert_Some. intros [[<- <-]|[_ H]]; [done|by apply (lo_configuration _ Hb)].
Qed.

(** ** Preparing an attempt *)

Lemma move_prepare_ok L e v :
  ledger_ok L → lg_effects L !! ef_id e = None → ef_state e = ES_prepared →
  ef_dispatch e = no_dispatch → ef_terminal e = no_terminal → ef_provider_response_id e = None →
  owner L e = Some v → chained L e →
  (∀ j f, lg_effects L !! j = Some f → slot_of f = slot_of e →
          ef_attempt_number f ≠ ef_attempt_number e) →
  ledger_ok (with_effects (insert (ef_id e) e) L).
Proof.
  intros [Ho He Hb Hr] Hfresh Hst Hd Ht Hrid Hv Hch Huniq.
  set (L' := with_effects _ L).
  assert (reserved_amount e = 0 ∧ settled_amount e = 0) as [Hr0 Hs0].
  { unfold reserved_amount, settled_amount, pending, ef_settled. by rewrite Hst, Ht. }
  assert (∀ x, chained L x → chained L' x) as Hchain.
  { intros x [H|(p & Hp & H)]; [by left|right]. exists p. split; [|done]. cbn.
    rewrite lookup_insert_ne; [done|]. intros E. by rewrite <- E, Hfresh in Hp. }
  split; [by apply (owners_frame L)| | |].
  - split; cbn.
    + intros i x. rewrite lookup_insert_Some. intros [[<- <-]|[_ H]]; [done|by apply (lo_id _ He)].
    + intros i x. rewrite lookup_insert_Some. intros [[<- <-]|[_ H]].
      * unfold owner in Hv. destruct (slot_of e) as [s|] eqn:Es; [|done]. cbn in Hv.
        destruct (lo_env _ Ho _ _ _ (lo_view _ Ho _ _ Hv)) as (p & Hp & _). exists v, p.
        split_and!; [unfold owner; rewrite Es; exact Hv|done|unfold effect_shape; by rewrite Hst].
      * destruct (lo_shape _ He _ _ H) as (v' & p & ? & ? & ?). by exists v', p.
    + intros i j x y. rewrite !lookup_insert_Some.
      intros [[<- <-]|[_ Hx]] [[<- <-]|[_ Hy]] Hslot Hnum; [done|..].
      * by destruct (Huniq _ _ Hy).
      * by destruct (Huniq _ _ Hx).
      * by eapply (lo_unique _ He).
    + intros i x. rewrite lookup_insert_Some.
      intros [[<- <-]|[_ H]]; apply Hchain; [done|by apply (lo_chain _ He) in H].
    + intros i x. rewrite lookup_insert_Some.
      intros [[<- <-]|[_ H]]; [|by eapply (lo_number _ He)].
      destruct Hch as [[-> _]|(p & Hp & _ & _ & -> & _)]; [lia|].
      apply (lo_number _ He) in Hp. lia.
  - split; [|apply Hb]. intros p. pose proof (lo_account _ Hb p) as H.
    assert (∀ f, f e = 0 → sum_rows (of_project L' p f) (lg_effects L')
                           = sum_rows (of_project L p f) (lg_effects L)) as Hsum.
    { intros f Hf. cbn. rewrite sum_rows_insert by done. unfold of_project at 1.
      change (owner L' e) with (owner L e). rewrite Hv, Hf. by destruct (_ =? _). }
    unfold account_ok, reserved_in, settled_in. rewrite !Hsum by done. exact H.
  - intros r pr sel p Hview Hp. pose proof (Hr r pr sel p Hview Hp) as H.
    assert (run_totals L' r = run_totals L r) as ->; [|done].
    unfold run_totals, totals. cbn. f_equal; rewrite sum_rows_insert by done;
      change (member L' r e) with (member L r e);
      unfold reserved_amount, settled_amount, pending, ef_reserved, ef_settled;
      rewrite ?Hst, ?Hd, ?Ht; cbn; by destruct (member L r e).
Qed.

(** ** Updating an attempt *)

Section Update.
Context (L L' : Ledger) (e e' : ModelUsageEffect) (v : OwnerView) (p : ProjectModelProfileSpec).
Context (Hok : ledger_ok L).
Context (Hold : lg_effects L !! ef_id e = Some e).
Context (Hnew : lg_effects L' = <[ef_id e := e']> (lg_effects L)).
Context (Hprofiles : lg_profiles L' = lg_profiles L) (Hslots : lg_slots L' = lg_slots L).
Context (Hsetup : lg_setup_slots L' = lg_setup_slots L).
Context (Henvs : lg_envelopes L' = lg_envelopes L).
Context (Hsenvs : lg_setup_envelopes L' = lg_setup_envelopes L).
Context (Hconfigs : lg_configurations L' = lg_configurations L).
Context (Hid : ef_id e' = ef_id e) (Hslot : slot_of e' = slot_of e).
Context (Hnum : ef_attempt_number e' = ef_attempt_number e).
Context (Hparent : ef_parent_attempt_id e' = ef_parent_attempt_id e).
Context (Hst : retryable (ef_state e) = false).
Context (Hv : owner L e = Some v) (Hp : published L (ov_profile v) p).

Lemma update_owner x : owner L' x = owner L x.
Proof. unfold owner. destruct (slot_of x) as [[i|i]|]; cbn; by rewrite ?Hslots, ?Hsetup. Qed.

Lemma update_owner_new : owner L' e' = Some v.
Proof. rewrite update_owner. unfold owner in *. by rewrite Hslot. Qed.

Lemma update_published s q : published L' s q ↔ published L s q.
Proof. unfold published, profile_exact. by rewrite Hprofiles. Qed.

Lemma update_effects : effect_shape p e' → effects_ok L'.
Proof.
  intros Hshape. pose proof (ok_effects _ Hok) as He.
  split; rewrite Hnew.
  - intros i x. rewrite lookup_insert_Some. intros [[<- <-]|[_ H]]; [done|by apply (lo_id _ He)].
  - intros i x. rewrite lookup_insert_Some. intros [[<- <-]|[_ H]].
    + exists v, p. rewrite update_owner_new. split_and!; [done|by apply update_published|done].
    + apply (lo_shape _ He) in H as (v' & q & H1 & H2 & H3). exists v', q.
      rewrite update_owner. split_and!; [done|by apply update_published|done].
  - assert (∀ i x, <[ef_id e := e']> (lg_effects L) !! i = Some x → ∃ y, lg_effects L !! i = Some y ∧
      slot_of x = slot_of y ∧ ef_attempt_number x = ef_attempt_number y) as Hback.
    { intros i x. rewrite lookup_insert_Some. intros [[<- <-]|[_ H]]; [by exists e|by exists x]. }
    intros i j x y (x0 & X1 & X2 & X3)%Hback (y0 & Y1 & Y2 & Y3)%Hback ??.
    eapply (lo_unique _ He); [done..| |]; congruence.
  - assert (∀ x, chained L x → chained L' x) as Hchain.
    { intros x [H|(q & Hq & H)]; [by left|right]. exists q. split; [|done]. rewrite Hnew.
      rewrite lookup_insert_ne; [done|]. intros E. rewrite <- E, Hold in Hq.
      injection Hq as <-. destruct H as (_ & _ & _ & H). congruence. }
    intros i x. rewrite lookup_insert_Some. intros [[<- <-]|[_ H]].
    + pose proof (Hchain _ (lo_chain _ He _ _ Hold)) as H.
      unfold chained in *. by rewrite Hnum, Hparent, Hslot.
    + by apply Hchain, (lo_chain _ He i).
  - intros i x. rewrite lookup_insert_Some. intros [[<- <-]|[_ H]].
    + rewrite Hnum. by eapply (lo_number _ He).
    + by eapply (lo_number _ He).
Qed.

Lemma update_sum f g : (∀ x, f x = g x) →
  sum_rows f (lg_effects L') = sum_rows g (lg_effects L) - g e + g e'.
Proof.
  intros E. rewrite Hnew, (sum_rows_ext f g) by done. by apply sum_rows_update.
Qed.

Lemma update_project f q :
  sum_rows (of_project L' q f) (lg_effects L') =
  sum_rows (of_project L q f) (lg_effects L) + (if ov_project v =? q then f e' - f e else 0).
Proof.
  rewrite (update_sum _ (of_project L q f)).
  2: { intros x. unfold of_project. by rewrite update_owner. }
  assert (owner L e' = Some v) as Hv' by (unfold owner in *; by rewrite Hslot).
  unfold of_project at 2 3. rewrite Hv, Hv'. destruct (_ =? _); lia.
Qed.

(** The account of the owner moved by what the effect moved. *)
Lemma update_budgets a a' :
  lg_accounts L !! ov_project v = Some a →
  lg_accounts L' = <[ov_project v := a']> (lg_accounts L) →
  a' = move_account a (reserved_amount e' - reserved_amount e) (settled_amount e' - settled_amount e) →
  (∀ b, lg_configurations L !! ba_current_configuration_id a = Some b →
     ba_lifetime_reserved_nanodollars a' + ba_lifetime_settled_nanodollars a'
       ≤ lifetime_limit_nanodollars (bc_spec b)) →
  budgets_ok L'.
Proof.
  intros Ha Ha' -> Hlim. destruct Hok as [_ _ Hb _]. split.
  - intros q. pose proof (lo_account _ Hb q) as H. rewrite Ha'.
    unfold account_ok, reserved_in, settled_in in *. rewrite !update_project, Hconfigs.
    destruct (decide (ov_project v = q)) as [<-|Hne].
    + rewrite lookup_insert_eq. rewrite Ha in H. rewrite Z.eqb_refl.
      destruct H as (E1 & E2 & E3 & b & E4 & E5 & E6). cbn. split_and!; [done|lia|lia|].
      exists b. split_and!; [done..|]. apply (Hlim b E4).
    + rewrite lookup_insert_ne by done. rewrite (proj2 (Z.eqb_neq _ _)) by done.
      by rewrite !Z.add_0_r.
  - rewrite Hconfigs. apply Hb.
Qed.

Lemma update_budgets_same :
  lg_accounts L' = lg_accounts L → reserved_amount e' = reserved_amount e →
  settled_amount e' = settled_amount e → budgets_ok L'.
Proof.
  intros Ha E1 E2. destruct Hok as [_ _ Hb _]. split; [|rewrite Hconfigs; apply Hb].
  intros q. pose proof (lo_account _ Hb q) as H. rewrite Ha.
  unfold account_ok, reserved_in, settled_in in *. rewrite !update_project, Hconfigs, E1, E2.
  rewrite !Z.sub_diag. by destruct (_ =? _); rewrite !Z.add_0_r.
Qed.

Lemma update_member x r : member L' r x = member L r x.
Proof. unfold member. by rewrite update_owner. Qed.

Lemma update_runs : run_bounded (run_totals L' (ov_envelope v)) p → runs_ok L'.
Proof.
  intros Hb r pr sel q Hview Hq. destruct Hok as [Ho _ _ Hr].
  assert (env_view L r = Some (pr, sel)) as Hview0.
  { destruct r; cbn in *; by rewrite ?Henvs, ?Hsenvs in Hview. }
  apply update_published in Hq.
  destruct (decide (ov_envelope v = r)) as [<-|Hne].
  - unfold owner in Hv. destruct (slot_of e) as [s|]; [|done]. cbn in Hv.
    pose proof (lo_view _ Ho _ _ Hv) as Hw. rewrite Hview0 in Hw. injection Hw as -> ->.
    by rewrite (published_fun _ _ _ _ Hq Hp).
  - assert (run_totals L' r = run_totals L r) as ->; [|by eapply Hr].
    assert (∀ x, slot_of x = slot_of e → member L r x = false) as Hm.
    { intros x Hx. unfold member. assert (owner L x = Some v) as ->.
      { unfold owner in *. by rewrite Hx. }
      by apply bool_decide_eq_false. }
    unfold run_totals, totals. f_equal;
      (erewrite update_sum; [|intros x; rewrite update_member; reflexivity]);
      cbn beta; rewrite (Hm e), (Hm e') by done; lia.
Qed.

(** The totals of the effect's own run. *)
Lemma update_totals :
  run_totals L' (ov_envelope v) =
  let t := run_totals L (ov_envelope v) in
  let d (f : ModelUsageEffect → Z) := f e' - f e in
  {| tt_dispatches := tt_dispatches t
       + d (λ e, if bool_decide (ef_state e = ES_prepared) then 0 else 1);
     tt_pending_dispatches := tt_pending_dispatches t + d (λ e, if pending e then 1 else 0);
     tt_reserved_nanodollars := tt_reserved_nanodollars t + d reserved_amount;
     tt_settled_nanodollars := tt_settled_nanodollars t + d settled_amount;
     tt_request_bytes := tt_request_bytes t
       + d (λ e, nulls0 (ec_byte_count (dc_request (ef_dispatch e))));
     tt_response_bytes := tt_response_bytes t
       + d (λ e, nulls0 (ec_byte_count (tc_response (ef_terminal e))));
     tt_input_tokens := tt_input_tokens t + d (λ e, nulls0 (tc_input_tokens (ef_terminal e)));
     tt_output_tokens := tt_output_tokens t + d (λ e, nulls0 (tc_output_tokens (ef_terminal e))) |}.
Proof.
  assert (∀ x, slot_of x = slot_of e → member L (ov_envelope v) x = true) as Hm.
  { intros x Hx. unfold member. assert (owner L x = Some v) as ->.
    { unfold owner in *. by rewrite Hx. }
    by apply bool_decide_eq_true. }
  unfold run_totals, totals. cbn. f_equal;
    (erewrite update_sum; [|intros x; rewrite update_member; reflexivity]);
    cbn beta; rewrite (Hm e), (Hm e') by done; lia.
Qed.
End Update.

(** ** Reserving, marking, settling, releasing *)

(** Decides the comparisons of known states in the goal. *)
Ltac decide_states :=
  repeat match goal with
  | |- context [bool_decide (?a = ?b)] =>
      first [rewrite (bool_decide_eq_true_2 (a = b)) by done
            |rewrite (bool_decide_eq_false_2 (a = b)) by done]
  end.

Lemma pending_state e : pending e = true → ef_state e = ES_dispatching ∨ ef_state e = ES_uncertain.
Proof. unfold pending. rewrite orb_true_iff, !bool_decide_eq_true. done. Qed.

(** The shape of a pending effect, read off the invariant. *)
Lemma pending_shape L e v p :
  ledger_ok L → lg_effects L !! ef_id e = Some e → pending e = true → owner L e = Some v →
  published L (ov_profile v) p →
  ef_terminal e = no_terminal ∧
  (∃ request, evidence_valid request = true ∧ dc_request (ef_dispatch e) = _set_evidence request) ∧
  ∃ r, ef_reserved e = Some r ∧ maximum_dispatch_reservation_nanodollars p = Ok r.
Proof.
  intros Hok He Hpend Hv Hp. destruct (lo_shape _ (ok_effects _ Hok) _ _ He) as (v' & q & Hv' & Hq & H).
  rewrite Hv in Hv'. injection Hv' as <-. rewrite (published_fun _ _ _ _ Hp Hq) in *.
  unfold effect_shape in H. apply pending_state in Hpend as [E|E]; by rewrite E in H.
Qed.

Lemma own_run_bounded L e v p :
  ledger_ok L → owner L e = Some v → published L (ov_profile v) p →
  run_bounded (run_totals L (ov_envelope v)) p.
Proof.
  intros Hok Hv Hp. unfold owner in Hv. destruct (slot_of e) as [s|]; [|done]. cbn in Hv.
  by eapply (ok_runs _ Hok), Hp; apply (lo_view _ (ok_owners _ Hok) _ _ Hv).
Qed.

Lemma own_account L v a :
  ledger_ok L → lg_accounts L !! ov_project v = Some a → account_ok L (ov_project v) a.
Proof.
  intros Hok Ha. pose proof (lo_account _ (ok_budgets _ Hok) (ov_project v)) as H.
  by rewrite Ha in H.
Qed.

Lemma move_dispatch_ok L e v p m r a b request facts evidence now :
  ledger_ok L → lg_effects L !! ef_id e = Some e → ef_state e = ES_prepared → owner L e = Some v →
  published L (ov_profile v) p → evidence_valid request = true →
  maximum_dispatch_reservation_nanodollars p = Ok r → maximum_reservation_nanodollars p = Ok m →
  envelope_exhausted (run_totals L (ov_envelope v)) p m r (me_byte_count request) = false →
  lg_accounts L !! ov_project v = Some a → current_budget_configuration a L = Some b →
  over_lifetime a b r = false →
  ledger_ok (post (dispatched_effect e request b r facts evidence now) (move_account a r 0) L).
Proof.
  intros Hok He Hst Hv Hp Hreq Hr Hm Hroom Ha Hcfg Hlim.
  set (e' := dispatched_effect _ _ _ _ _ _ _). set (L' := post _ _ _).
  pose proof (own_account _ _ _ Hok Ha) as (Ep & _).
  destruct (lo_shape _ (ok_effects _ Hok) _ _ He) as (v' & q & Hv' & Hq & Hsh).
  rewrite Hv in Hv'. injection Hv' as <-. rewrite (published_fun _ _ _ _ Hq Hp) in Hsh. clear q Hq.
  unfold effect_shape in Hsh. rewrite Hst in Hsh. destruct Hsh as (Hd & Ht & Hrid).
  assert (reserved_amount e = 0 ∧ settled_amount e = 0 ∧ reserved_amount e' = r ∧ settled_amount e' = 0)
    as (W1 & W2 & W3 & W4).
  { unfold reserved_amount, settled_amount, pending, ef_settled. cbn. by rewrite Hst, Ht. }
  split.
  - apply (owners_frame L); [done..|apply Hok].
  - eapply (update_effects L L' e e'); try done; [by rewrite Hst|].
    cbn. split_and!; [done|by exists request|by exists r].
  - eapply (update_budgets L L' e e' v) with (a := a) (a' := move_account a r 0); try done;
      [cbn; by rewrite Ep|..].
    + rewrite W1, W2, W3, W4. f_equal; lia.
    + intros b' Hb'. unfold current_budget_configuration in Hcfg. rewrite Hb' in Hcfg.
      injection Hcfg as ->. unfold over_lifetime in Hlim. cbn. lia.
  - eapply (update_runs L L' e e'); try done.
    rewrite (update_totals L L' e e' v) by done.
    assert (pending e = false) as P1 by (unfold pending; by rewrite Hst).
    revert Hroom. generalize (run_totals L (ov_envelope v)). intros t Hroom. cbv zeta beta.
    rewrite W1, W2, W3, W4, P1, Hst, Hd. change (pending e') with true.
    unfold envelope_exhausted in Hroom. rewrite !orb_false_iff in Hroom. unfold run_bounded. cbn.
    rewrite Ht. decide_states. cbn.
    split_and!; [lia| |lia..]. intros m' Hm'. rewrite Hm in Hm'. injection Hm' as <-. lia.
Qed.

Lemma move_uncertain_ok L e digest rid evidence :
  ledger_ok L → lg_effects L !! ef_id e = Some e → ef_state e = ES_dispatching →
  ledger_ok (with_effects (insert (ef_id e) (uncertain_effect e digest rid evidence)) L).
Proof.
  intros Hok He Hst. set (e' := uncertain_effect _ _ _ _). set (L' := with_effects _ _).
  destruct (lo_shape _ (ok_effects _ Hok) _ _ He) as (v & p & Hv & Hp & Hsh).
  unfold effect_shape in Hsh. rewrite Hst in Hsh.
  assert (reserved_amount e' = reserved_amount e) as W1.
  { unfold reserved_amount, pending. cbn. by rewrite Hst. }
  assert (pending e = true) as Hpend by (unfold pending; by rewrite Hst).
  split.
  - apply (owners_frame L); [done..|apply Hok].
  - eapply (update_effects L L' e e'); try done. by rewrite Hst.
  - by eapply (update_budgets_same L L' e e').
  - eapply (update_runs L L' e e'); try done.
    rewrite (update_totals L L' e e' v) by done.
    pose proof (own_run_bounded _ _ _ _ Hok Hv Hp) as B. revert B.
    generalize (run_totals L (ov_envelope v)). intros t (B1 & B2 & B3 & B4 & B5 & B6). cbv zeta beta.
    rewrite W1, (Hpend : pending e = true), Hst. change (pending e') with true.
    unfold run_bounded. cbn. decide_states.
    split_and!; [lia| |lia..]. intros m Hm. specialize (B2 m Hm). change (settled_amount e') with (settled_amount e). lia.
Qed.

Lemma move_settle_ok L e v p r a failed rid response u c evidence t1 t2 :
  ledger_ok L → lg_effects L !! ef_id e = Some e → pending e = true → owner L e = Some v →
  published L (ov_profile v) p → ef_reserved e = Some r →
  me_byte_count response ≤ maximum_response_bytes p → model_usage_cost p u = Ok c →
  lg_accounts L !! ov_project v = Some a →
  ledger_ok (post (settled_effect e failed rid response u c evidence t1 t2) (move_account a (- r) c) L).
Proof.
  intros Hok He Hpend Hv Hp Hres Hbytes Hcost Ha.
  set (e' := settled_effect _ _ _ _ _ _ _ _ _). set (L' := post _ _ _).
  pose proof (own_account _ _ _ Hok Ha) as (Ep & _ & _ & b & Hb & _ & Hlim).
  destruct (pending_shape _ _ _ _ Hok He Hpend Hv Hp) as (Ht & _ & r' & Hr' & Hdisp).
  rewrite Hres in Hr'. injection Hr' as <-.
  pose proof (published_valid _ _ _ Hp) as (Hprice & _)%spec_valid_bounds.
  pose proof (cost_bound _ _ _ _ Hprice Hdisp Hcost) as Hc.
  pose proof (model_usage_cost_inv _ _ _ Hcost) as (_ & Hi & Ho & _).
  assert (pending e' = false) as Hpend' by (unfold pending; cbn; by destruct failed).
  assert (reserved_amount e = r ∧ settled_amount e = 0 ∧ reserved_amount e' = 0 ∧ settled_amount e' = c)
    as (W1 & W2 & W3 & W4).
  { unfold reserved_amount, settled_amount. rewrite Hpend, Hpend', Hres.
    unfold ef_settled. cbn. by rewrite Ht. }
  assert (retryable (ef_state e) = false) as Hnr.
  { by apply pending_state in Hpend as [E|E]; rewrite E. }
  assert (bool_decide (ef_state e = ES_prepared) = false) as Hnp.
  { by apply pending_state in Hpend as [E|E]; rewrite E. }
  split.
  - apply (owners_frame L); [done..|apply Hok].
  - eapply (update_effects L L' e e'); try done.
    unfold effect_shape. cbn. destruct failed; by exists r, c.
  - eapply (update_budgets L L' e e' v) with (a := a) (a' := move_account a (- r) c); try done;
      [cbn; by rewrite Ep|..].
    + rewrite W1, W2, W3, W4. f_equal; lia.
    + intros b' Hb'. rewrite Hb in Hb'. injection Hb' as <-. cbn. lia.
  - eapply (update_runs L L' e e'); try done.
    rewrite (update_totals L L' e e' v) by done.
    pose proof (own_run_bounded _ _ _ _ Hok Hv Hp) as B. revert B.
    generalize (run_totals L (ov_envelope v)). intros tt (B1 & B2 & B3 & B4 & B5 & B6). cbv zeta beta.
    rewrite W1, W2, W3, W4, Hpend, Hpend', Hnp, Ht.
    assert (bool_decide (ef_state e' = ES_prepared) = false) as -> by (cbn; by destruct failed).
    unfold run_bounded. cbn. split_and!; [lia| |lia..]. intros m Hm. specialize (B2 m Hm). lia.
Qed.

Lemma move_release_ok L e v r a proof evidence t :
  ledger_ok L → lg_effects L !! ef_id e = Some e → pending e = true → owner L e = Some v →
  ef_reserved e = Some r → lg_accounts L !! ov_project v = Some a →
  ledger_ok (post (released_effect e proof evidence t) (move_account a (- r) 0) L).
Proof.
  intros Hok He Hpend Hv Hres Ha.
  set (e' := released_effect _ _ _ _). set (L' := post _ _ _).
  pose proof (own_account _ _ _ Hok Ha) as (Ep & _ & _ & b & Hb & _ & Hlim).
  destruct (lo_shape _ (ok_effects _ Hok) _ _ He) as (v' & p & Hv' & Hp & _).
  rewrite Hv in Hv'. injection Hv' as <-.
  destruct (pending_shape _ _ _ _ Hok He Hpend Hv Hp) as (Ht & _ & r' & Hr' & Hdisp).
  rewrite Hres in Hr'. injection Hr' as <-.
  apply dispatch_reservation_Ok in Hdisp as (_ & Hr0 & _).
  pose proof (published_valid _ _ _ Hp) as Hpv.
  assert (reserved_amount e = r ∧ settled_amount e = 0 ∧ reserved_amount e' = 0 ∧ settled_amount e' = 0)
    as (W1 & W2 & W3 & W4).
  { unfold reserved_amount, settled_amount. rewrite Hpend, Hres. unfold ef_settled. cbn. by rewrite Ht. }
  assert (retryable (ef_state e) = false ∧ bool_decide (ef_state e = ES_prepared) = false) as [Hnr Hnp].
  { by apply pending_state in Hpend as [E|E]; rewrite E. }
  split.
  - apply (owners_frame L); [done..|apply Hok].
  - eapply (update_effects L L' e e'); try done.
    cbn. split; [by exists r|]. unfold ef_settled. cbn. by rewrite Ht.
  - eapply (update_budgets L L' e e' v) with (a := a) (a' := move_account a (- r) 0); try done;
      [cbn; by rewrite Ep|..].
    + rewrite W1, W2, W3, W4. f_equal; lia.
    + intros b' Hb'. rewrite Hb in Hb'. injection Hb' as <-. cbn. lia.
  - eapply (update_runs L L' e e'); try done.
    rewrite (update_totals L L' e e' v) by done.
    pose proof (own_run_bounded _ _ _ _ Hok Hv Hp) as B. revert B.
    generalize (run_totals L (ov_envelope v)). intros tt (B1 & B2 & B3 & B4 & B5 & B6). cbv zeta beta.
    assert (1 ≤ maximum_response_bytes p ∧ 1 ≤ maximum_input_tokens p ∧ 1 ≤ maximum_output_tokens p)
      as (P1 & P2 & P3).
    { unfold spec_valid, in_range in Hpv. rewrite !andb_true_iff in Hpv. lia. }
    rewrite W1, W2, W3, W4, Hpend, Hnp. change (pending e') with false. rewrite Ht.
    unfold run_bounded. cbn. rewrite Ht. decide_states. cbn.
    split_and!; [lia| |lia..]. intros m Hm. specialize (B2 m Hm). lia.
Qed.

Lemma move_ok L L' : ledger_ok L → move L L' → ledger_ok L'.
Proof.
  intros Hok Hm. destruct Hm.
  - by apply move_profile_ok.
  - by apply move_budget_ok.
  - by eapply move_envelope_ok.
  - by eapply move_slot_ok.
  - by eapply move_setup_envelope_ok.
  - by eapply move_setup_slot_ok.
  - by eapply move_prepare_ok.
  - by eapply move_dispatch_ok.
  - by apply move_uncertain_ok.
  - by eapply move_settle_ok.
  - by eapply move_release_ok.
  - destruct Hok as [Ho He Hb Hr]. set (L' := with_recoveries _ L).
    assert (extends L L') as Hext by by apply extends_refl_tables.
    split; [by apply (owners_frame L)|by apply (extends_effects L)| |by eapply extends_runs; eauto].
    eapply extends_budgets; eauto. apply Hb.
Qed.

Lemma moves_ok L L' : ledger_ok L → rtc move L L' → ledger_ok L'.
Proof. intros H. induction 1 as [|x y z Hxy _ IH]; [done|]. by eapply IH, move_ok. Qed.

Lemma empty_ledger_ok : ledger_ok empty_ledger.
Proof.
  split; [split|split|split|]; cbn; try (intros; by rewrite lookup_empty in *).
  - intros [i|i] v; cbn; by rewrite lookup_empty.
  - intros [i|i] pr sel; cbn; by rewrite lookup_empty.
  - intros [i|i] pr sel p; cbn; by rewrite lookup_empty.
Qed.
