(* ===== verification/ModelRefine.v ===== *)
(** * The services refine the ledger machine

    Every successful call of the checker service and of the setup service is a sequence of
    moves of [ModelLedger]; a call that raises changes nothing.  So the ledger's invariant
    holds in every state the services can reach. *)

From stdpp Require Import relations.
From S2P Require Import Prelude Text Digest Json Instant OutboxApi OutboxStore ModelApi ModelStore.
From S2P Require Import ModelService ModelSetup ModelLedger.

(** Takes a successful call apart, step by step. *)
Ltac peel H :=
  repeat match type of H with
  | (ensure _ _ ≫= _) = Ok _ => apply ensure_bind_Ok in H as [? H]
  | (oget _ _ ≫= _) = Ok _ => apply result_bind_Ok in H as (? & ?%oget_Ok & H)
  | (_ ≫= _) = Ok _ => apply result_bind_Ok in H as (? & ? & H)
  end.

(** ** Writes *)

Lemma flush_Ok c ok L L' L'' : flush c ok L L' = Ok L'' → ok = true ∧ L'' = L'.
Proof. unfold flush. intros [H <-%Ok_inj]%ensure_bind_Ok. apply andb_true_iff in H. tauto. Qed.

Lemma fresh_id_None {A} id (t : gmap Z A) : fresh_id id t = true → t !! id = None.
Proof. unfold fresh_id. by rewrite bool_decide_eq_true. Qed.

Lemma unique_on_spec {A K} `{EqDecision K} (f : A → option K) id r (t : gmap Z A) :
  unique_on f id r t = true → ∀ i x, t !! i = Some x → i ≠ id → f x ≠ None → f x ≠ f r.
Proof.
  unfold unique_on. rewrite forallb_forall. intros H i x Hi Hne Hn.
  specialize (H (i, x)). rewrite <- list_elem_of_In, elem_of_map_to_list in H. specialize (H Hi).
  cbn in H. rewrite !orb_true_iff, negb_true_iff, !bool_decide_eq_true, bool_decide_eq_false in H.
  tauto.
Qed.

Ltac written H :=
  apply flush_Ok in H as [H ->]; rewrite ?andb_true_iff in H;
  split; [apply fresh_id_None; tauto|reflexivity].

Lemma add_profile_Ok c r L L' :
  add_profile c r L = Ok L' →
  lg_profiles L !! mp_id r = None ∧ L' = with_profiles (insert (mp_id r) r) L.
Proof. unfold add_profile. cbv zeta. intros H. written H. Qed.

Lemma add_configuration_Ok c r L L' :
  add_configuration c r L = Ok L' →
  lg_configurations L !! bc_id r = None ∧ L' = with_configurations (insert (bc_id r) r) L.
Proof. unfold add_configuration. cbv zeta. intros H. written H. Qed.

Lemma add_envelope_Ok c r L L' :
  add_envelope c r L = Ok L' →
  lg_envelopes L !! ce_id r = None ∧ L' = with_envelopes (insert (ce_id r) r) L ∧
  ∀ i x, lg_envelopes L !! i = Some x → ce_key x ≠ ce_key r.
Proof.
  unfold add_envelope. intros [H ->]%flush_Ok. rewrite !andb_true_iff in H.
  destruct H as [[[Hf%fresh_id_None _] _] Hu]. split_and!; [done..|]. intros i x Hx Hk.
  apply (unique_on_spec _ _ _ _ Hu i x Hx); [|done|by rewrite Hk]. intros ->. congruence.
Qed.

Lemma add_slot_Ok c r L L' :
  add_slot c r L = Ok L' →
  lg_slots L !! cs_id r = None ∧ L' = with_slots (insert (cs_id r) r) L ∧
  ∀ i x, lg_slots L !! i = Some x → cs_key x ≠ cs_key r.
Proof.
  unfold add_slot. intros [H ->]%flush_Ok. rewrite !andb_true_iff in H.
  destruct H as [[Hf%fresh_id_None _] Hu]. split_and!; [done..|]. intros i x Hx Hk.
  apply (unique_on_spec _ _ _ _ Hu i x Hx); [|done|by rewrite Hk]. intros ->. congruence.
Qed.

Lemma add_setup_envelope_Ok c r L L' :
  add_setup_envelope c r L = Ok L' →
  lg_setup_envelopes L !! se_id r = None ∧ L' = with_setup_envelopes (insert (se_id r) r) L ∧
  ∀ i x, lg_setup_envelopes L !! i = Some x →
         xk_compilation_attempt_id (se_key x) ≠ xk_compilation_attempt_id (se_key r).
Proof.
  unfold add_setup_envelope. cbv zeta. intros [H ->]%flush_Ok. rewrite !andb_true_iff in H.
  destruct H as [[[[Hf%fresh_id_None _] _] _] Hu]. split_and!; [done..|]. intros i x Hx Hk.
  apply (unique_on_spec _ _ _ _ Hu i x Hx); [|done|by rewrite Hk]. intros ->. congruence.
Qed.

Lemma add_setup_slot_Ok c r L L' :
  add_setup_slot c r L = Ok L' →
  lg_setup_slots L !! ss_id r = None ∧ L' = with_setup_slots (insert (ss_id r) r) L.
Proof. unfold add_setup_slot. intros H. written H. Qed.

Lemma add_recovery_Ok c r L L' :
  add_recovery c r L = Ok L' →
  lg_recoveries L !! cr_id r = None ∧ L' = with_recoveries (insert (cr_id r) r) L.
Proof. unfold add_recovery. cbv zeta. intros H. written H. Qed.

(** The slot and number of an inserted attempt are new. *)
Lemma add_effect_Ok c e L L' :
  ledger_ok L → add_effect c e L = Ok L' →
  lg_effects L !! ef_id e = None ∧ L' = with_effects (insert (ef_id e) e) L ∧
  ∀ j f, lg_effects L !! j = Some f → slot_of f = slot_of e →
         ef_attempt_number f ≠ ef_attempt_number e.
Proof.
  unfold add_effect, effect_row_ok. cbv zeta. intros Hok [H ->]%flush_Ok.
  rewrite !andb_true_iff in H. destruct H as (Hf%fresh_id_None & ((((((([_ U1] & U2) & _) & _) & _) & _) & _) & _)).
  split_and!; [done..|]. intros j f Hj Hs Hn.
  assert (j ≠ ef_id e) as Hne by (intros ->; congruence).
  destruct (lo_shape _ (ok_effects _ Hok) _ _ Hj) as (v & p & Hv & _).
  pose proof (unique_on_spec _ _ _ _ U1 j f Hj Hne) as X1.
  pose proof (unique_on_spec _ _ _ _ U2 j f Hj Hne) as X2.
  unfold owner in Hv. unfold slot_of in *.
  destruct (ef_checker_slot_id f), (ef_setup_slot_id f); cbn in *; try done;
    destruct (ef_checker_slot_id e), (ef_setup_slot_id e); cbn in *; try done.
  - apply X1; [done|]. congruence.
  - apply X2; [done|]. congruence.
Qed.

Lemma update_effect_Ok c e a L L' :
  update_effect c e a L = Ok L' →
  L' = match a with
       | Some a => post e a L
       | None => with_effects (insert (ef_id e) e) L
       end.
Proof. unfold update_effect. cbv zeta. destruct a; by intros [_ ->]%flush_Ok. Qed.

(** ** Reads *)

Lemma first_row_Some {A} (p : A → bool) (t : gmap Z A) r :
  first_row p t = Some r → p r = true ∧ ∃ i, t !! i = Some r.
Proof.
  unfold first_row. intros H. destruct (List.filter p (rows t)) as [|x l] eqn:E; [done|].
  injection H as ->. assert (In r (List.filter p (rows t))) as Hin by (rewrite E; by left).
  apply filter_In in Hin as [Hin Hp]. split; [done|]. unfold rows in Hin.
  apply list_elem_of_In, list_elem_of_fmap in Hin as ([i y] & -> & Hy).
  exists i. by apply elem_of_map_to_list in Hy.
Qed.

Lemma in_rows {A} (t : gmap Z A) r : In r (rows t) ↔ ∃ i, t !! i = Some r.
Proof.
  unfold rows. rewrite <- list_elem_of_In, list_elem_of_fmap. split.
  - intros ([i y] & -> & Hy). exists i. by apply elem_of_map_to_list in Hy.
  - intros [i Hi]. exists (i, r). split; [done|]. by apply elem_of_map_to_list.
Qed.

Lemma max_by_Some {A} (f : A → Z) l x :
  max_by f l = Some x → In x l ∧ ∀ y, In y l → f y ≤ f x.
Proof.
  revert x. induction l as [|a l IH]; intros x; cbn; [done|].
  destruct (max_by f l) as [y|] eqn:E.
  - destruct (IH y eq_refl) as [I1 I2]. destruct (f a <? f y) eqn:Ef; intros [= <-].
    + split; [by right|]. intros z [<-|Hz]; [lia|by apply I2].
    + split; [by left|]. intros z [<-|Hz]; [lia|]. specialize (I2 z Hz). lia.
  - intros [= <-]. split; [by left|]. intros z [<-|Hz]; [lia|].
    destruct l as [|b l]; [done|]. cbn in E. destruct (max_by f l); [by destruct (_ <? _)|done].
Qed.

Lemma envelope_Some k L r :
  owners_ok L → envelope k L = Some r →
  lg_envelopes L !! ce_id r = Some r ∧ ce_key r = sk_envelope k.
Proof.
  intros Ho [H [i Hi]]%first_row_Some. rewrite bool_decide_eq_true in H.
  by rewrite (lo_envelope _ Ho _ _ Hi).
Qed.

Lemma slot_Some k L s :
  owners_ok L → slot k L = Some s → lg_slots L !! cs_id s = Some s ∧ cs_key s = k.
Proof.
  intros Ho [H [i Hi]]%first_row_Some. rewrite bool_decide_eq_true in H.
  by rewrite (lo_slot _ Ho _ _ Hi).
Qed.

Lemma setup_envelope_Some k L r :
  owners_ok L → setup_envelope k L = Some r →
  lg_setup_envelopes L !! se_id r = Some r ∧ se_key r = xs_envelope k.
Proof.
  intros Ho [H [i Hi]]%first_row_Some. rewrite bool_decide_eq_true in H.
  by rewrite (lo_setup_envelope _ Ho _ _ Hi).
Qed.

Lemma setup_slot_Some k L s :
  owners_ok L → setup_slot k L = Some s →
  lg_setup_slots L !! ss_id s = Some s ∧ setup_slot_identity (ss_key s) = setup_slot_identity k.
Proof.
  intros Ho [H [i Hi]]%first_row_Some. rewrite bool_decide_eq_true in H.
  by rewrite (lo_setup_slot _ Ho _ _ Hi).
Qed.

Lemma usage_attempt_Some i L e :
  ledger_ok L → attempt i L = Some e → lg_effects L !! ef_id e = Some e ∧ ef_id e = i.
Proof. intros Hok H. pose proof (lo_id _ (ok_effects _ Hok) _ _ H) as E. by rewrite E. Qed.

(** ** Profiles and owners *)

Lemma read_exact_published c s pr L prof :
  read_exact c s pr L = Ok prof → published L s (pp_spec prof) ∧ sp_project_id (pp_spec prof) = pr.
Proof.
  unfold read_exact. intros H. peel H. apply Ok_inj in H. subst.
  split; [|lia]. eexists _, _. done.
Qed.

Lemma profile_for_stored_slot_published k L prof :
  _profile_for_stored_slot k L = Ok prof → published L (slot_profile k) (pp_spec prof).
Proof. unfold _profile_for_stored_slot. intros H. peel H. apply Ok_inj in H. subst. by eexists _, _. Qed.

Lemma setup_profile_published k o L prof :
  _profile k o L = Ok prof →
  published L (setup_profile k) (pp_spec prof) ∧ sp_project_id (pp_spec prof) = setup_project k.
Proof.
  unfold _profile. cbv zeta. intros H. peel H. apply Ok_inj in H. subst. split; [by eexists _, _|].
  match goal with H : negb (negb (_ =? _) || _) = true |- _ =>
    apply negb_true_iff, orb_false_iff in H as [H _] end.
  lia.
Qed.

(** The owner of a row that names a checker slot, or a setup slot. *)
Definition checker_view (s : CheckerModelUsageSlot) : OwnerView :=
  {| ov_envelope := CheckerEnv (cs_envelope_id s); ov_project := slot_project (cs_key s);
     ov_profile := slot_profile (cs_key s) |}.
Definition setup_view (s : SetupModelUsageSlot) : OwnerView :=
  {| ov_envelope := SetupEnv (ss_envelope_id s); ov_project := setup_project (ss_key s);
     ov_profile := setup_profile (ss_key s) |}.

Lemma owned L i e : ledger_ok L → lg_effects L !! i = Some e → ∃ v, owner L e = Some v.
Proof. intros Hok H. destruct (lo_shape _ (ok_effects _ Hok) _ _ H) as (v & _ & Hv & _). eauto. Qed.

Lemma checker_owner L i e s :
  ledger_ok L → lg_effects L !! i = Some e → ef_checker_slot_id e = Some (cs_id s) →
  lg_slots L !! cs_id s = Some s →
  owner L e = Some (checker_view s) ∧ slot_of e = Some (CheckerSlot (cs_id s)).
Proof.
  intros Hok [v Hv]%owned Hc Hs; [|done]. unfold owner, slot_of in *. rewrite Hc in *.
  destruct (ef_setup_slot_id e); [done|]. cbn. by rewrite Hs.
Qed.

Lemma setup_owner L i e s :
  ledger_ok L → lg_effects L !! i = Some e → ef_setup_slot_id e = Some (ss_id s) →
  lg_setup_slots L !! ss_id s = Some s →
  owner L e = Some (setup_view s) ∧ slot_of e = Some (SetupSlot (ss_id s)).
Proof.
  intros Hok [v Hv]%owned Hc Hs; [|done]. unfold owner, slot_of in *. rewrite Hc in *.
  destruct (ef_checker_slot_id e); [done|]. cbn. by rewrite Hs.
Qed.

(** The repository's aggregates are the totals of the run. *)
Lemma envelope_totals_run L id : ledger_ok L → envelope_totals id L = run_totals L (CheckerEnv id).
Proof.
  intros Hok. unfold envelope_totals, run_totals, totals.
  assert (∀ i e, lg_effects L !! i = Some e → in_envelope id L e = member L (CheckerEnv id) e) as E.
  { intros i e He. destruct (owned _ _ _ Hok He) as [v Hv].
    unfold in_envelope, member, owner, slot_of in *.
    destruct (ef_checker_slot_id e) as [x|], (ef_setup_slot_id e) as [y|]; cbn in *; try done.
    - destruct (lg_slots L !! x) as [s|]; [|done]. cbn. apply eq_true_iff_eq.
      rewrite Z.eqb_eq, bool_decide_eq_true. naive_solver.
    - destruct (lg_setup_slots L !! y); cbn; [|done]. by rewrite bool_decide_eq_false_2. }
  f_equal; apply sum_rows_ext; intros i e He; by rewrite (E i).
Qed.

Lemma setup_envelope_totals_run L id :
  ledger_ok L → setup_envelope_totals id L = run_totals L (SetupEnv id).
Proof.
  intros Hok. unfold setup_envelope_totals, run_totals, totals.
  assert (∀ i e, lg_effects L !! i = Some e → in_setup_envelope id L e = member L (SetupEnv id) e) as E.
  { intros i e He. destruct (owned _ _ _ Hok He) as [v Hv].
    unfold in_setup_envelope, member, owner, slot_of in *.
    destruct (ef_checker_slot_id e) as [x|], (ef_setup_slot_id e) as [y|]; cbn in *; try done.
    - destruct (lg_slots L !! x); cbn; [|done]. by rewrite bool_decide_eq_false_2.
    - destruct (lg_setup_slots L !! y) as [s|]; [|done]. cbn. apply eq_true_iff_eq.
      rewrite Z.eqb_eq, bool_decide_eq_true. naive_solver. }
  f_equal; apply sum_rows_ext; intros i e He; by rewrite (E i).
Qed.

Lemma checker_envelope_of L s env k :
  owners_ok L → lg_slots L !! cs_id s = Some s → cs_key s = k → envelope k L = Some env →
  cs_envelope_id s = ce_id env.
Proof.
  intros Ho Hs <- [He Hk]%envelope_Some; [|done].
  destruct (lo_slot_key _ Ho _ _ Hs) as (env' & E1 & E2).
  eapply (lo_envelope_key _ Ho); [done..|congruence].
Qed.

Lemma setup_envelope_of L s env k :
  owners_ok L → lg_setup_slots L !! ss_id s = Some s →
  setup_slot_identity (ss_key s) = setup_slot_identity k → setup_envelope k L = Some env →
  ss_envelope_id s = se_id env ∧ ss_key s = k.
Proof.
  intros Ho Hs Hk [He Hek]%setup_envelope_Some; [|done].
  destruct (lo_setup_slot_key _ Ho _ _ Hs) as (env' & E1 & E2).
  unfold setup_slot_identity, setup_envelope_identity in Hk. injection Hk as K1 K2 K3 K4 K5.
  assert (ss_envelope_id s = se_id env) as E.
  { eapply (lo_setup_envelope_key _ Ho); [done..|congruence]. }
  split; [done|]. rewrite E in E1. rewrite He in E1. injection E1 as <-.
  destruct (ss_key s), k. cbn in *. congruence.
Qed.

(** ** Administration *)

Lemma provision_profile_moves P c facts L r L' :
  ledger_ok L → provision_profile P c facts L = Ok (r, L') → rtc move L L'.
Proof.
  intros Hok H. unfold provision_profile in H. cbv zeta in H. peel H.
  destruct (profile_by_operation _ L); peel H; apply Ok_inj in H; simplify_eq; [done|].
  match goal with H : add_profile _ _ _ = Ok _ |- _ => apply add_profile_Ok in H as [? ->] end.
  apply rtc_once. by apply mv_profile.
Qed.

Lemma provision_budget_moves P c facts L r L' :
  ledger_ok L → provision_budget P c facts L = Ok (r, L') → rtc move L L'.
Proof.
  intros Hok H. unfold provision_budget in H. cbv zeta in H. peel H.
  destruct (budget_configuration_by_operation _ L); peel H; apply Ok_inj in H; simplify_eq; [done|].
  match goal with H : add_configuration _ ?b _ = Ok _ |- _ =>
    apply add_configuration_Ok in H as [Hfresh ->]; set (b0 := b) in * end.
  match goal with H : budget_facts_valid _ = true |- _ =>
    unfold budget_facts_valid in H; rewrite !andb_true_iff in H; destruct H as [[Hvalid _] _] end.
  apply rtc_once.
  assert (L' = with_accounts (insert (bs_project_id (bc_spec b0)) (configured b0 L))
                 (with_configurations (insert (bc_id b0) b0) L)) as ->.
  { unfold configured, lifetime, budget_account in *. cbn [bc_spec bc_id b0] in *.
    destruct (lg_accounts L !! bs_project_id (bf_spec facts)) as [a|] eqn:Ha;
      match goal with H : add_account _ _ _ = Ok _ |- _ => unfold add_account in H
                    | H : update_account _ _ _ = Ok _ |- _ => unfold update_account in H end;
      match goal with H : flush _ _ _ _ = Ok _ |- _ => by apply flush_Ok in H as [_ ->] end. }
  apply mv_budget; [done|exact Hvalid|].
  unfold lifetime, budget_account in *. cbn [bc_spec b0].
  match goal with H : negb (_ <? _) = true |- _ => revert H end.
  destruct (lg_accounts L !! bs_project_id (bf_spec facts)); cbn; lia.
Qed.

(** ** Preparation *)

Lemma checker_envelope_moves c x k L env L' p :
  ledger_ok L → published L (slot_profile k) p → sp_project_id p = slot_project k →
  _require_checker_envelope c x k L = Ok (env, L') →
  rtc move L L' ∧ lg_envelopes L' !! ce_id env = Some env ∧ ce_key env = sk_envelope k.
Proof.
  intros Hok Hp Hpr H. unfold _require_checker_envelope in H. cbv zeta in H.
  destruct (envelope k L) as [r|] eqn:E; peel H; apply Ok_inj in H; simplify_eq.
  - apply envelope_Some in E as [? ?]; [|apply Hok]. done.
  - match goal with H : add_envelope _ _ _ = Ok _ |- _ => apply add_envelope_Ok in H as (? & -> & ?) end.
    split_and!; [|apply lookup_insert_eq|done]. apply rtc_once. by eapply mv_envelope.
Qed.

Lemma slot_or_create_moves c env x k sha L s L' :
  ledger_ok L → lg_envelopes L !! ce_id env = Some env → ce_key env = sk_envelope k →
  slot_or_create c env x k sha L = Ok (s, L') →
  rtc move L L' ∧ lg_slots L' !! cs_id s = Some s ∧ cs_key s = k.
Proof.
  intros Hok He Hk H. unfold slot_or_create in H. cbv zeta in H.
  destruct (slot k L) as [r|] eqn:E; peel H; apply Ok_inj in H; simplify_eq.
  - apply slot_Some in E as [? ?]; [|apply Hok]. done.
  - match goal with H : add_slot _ _ _ = Ok _ |- _ => apply add_slot_Ok in H as (? & -> & ?) end.
    split_and!; [|apply lookup_insert_eq|done]. apply rtc_once. by eapply mv_slot.
Qed.

(** Adding a prepared attempt to a slot. *)
Lemma add_effect_moves c e L L' v :
  ledger_ok L → ef_state e = ES_prepared → ef_dispatch e = no_dispatch →
  ef_terminal e = no_terminal → ef_provider_response_id e = None → owner L e = Some v →
  chained L e → add_effect c e L = Ok L' → rtc move L L'.
Proof.
  intros Hok ????? Hch (Hf & -> & Hu)%add_effect_Ok; [|done]. apply rtc_once. by eapply mv_prepare.
Qed.

Lemma prepare_attempt_moves P c x k sha L r L' :
  ledger_ok L → prepare_attempt P c x k sha L = Ok (r, L') → rtc move L L'.
Proof.
  intros Hok H. unfold prepare_attempt in H. peel H.
  match goal with H : _profile_for_slot _ _ _ = Ok _ |- _ =>
    apply read_exact_published in H as [Hp Hpr] end.
  match goal with H : _require_checker_envelope _ _ _ _ = Ok ?y |- _ =>
    destruct y as [env L1]; eapply checker_envelope_moves in H as (M1 & E1 & E2); [|done..] end.
  pose proof (moves_ok _ _ Hok M1) as Hok1.
  match goal with H : slot_or_create _ _ _ _ _ _ = Ok ?y |- _ =>
    destruct y as [s L2]; eapply slot_or_create_moves in H as (M2 & S1 & S2); [|done..] end.
  pose proof (moves_ok _ _ Hok1 M2) as Hok2.
  assert (rtc move L L2) as M12 by (by etrans).
  cbn in H. destruct (latest_attempt _ _); peel H; apply Ok_inj in H; simplify_eq; [done|].
  etrans; [exact M12|].
  match goal with H : add_effect _ _ _ = Ok _ |- _ =>
    refine (add_effect_moves _ _ _ _ (checker_view s) Hok2 _ _ _ _ _ _ H); [done..| |] end.
  - unfold owner. cbn. by rewrite S1.
  - by left.
Qed.

(** The latest attempt of a slot. *)
Lemma latest_attempt_Some id L e :
  ledger_ok L → latest_attempt id L = Some e →
  lg_effects L !! ef_id e = Some e ∧ ef_checker_slot_id e = Some id.
Proof.
  intros Hok [Hin _]%max_by_Some. apply filter_In in Hin as [[i Hi]%in_rows Hs].
  rewrite bool_decide_eq_true in Hs. by rewrite (lo_id _ (ok_effects _ Hok) _ _ Hi).
Qed.

Lemma eligible_retryable e d : _eligible_parent e d = Ok true → retryable (ef_state e) = true.
Proof.
  unfold _eligible_parent. intros H. peel H. apply Ok_inj in H.
  unfold _stored_retry_terminal_digest in *. cbv zeta in *. destruct (ef_state e); simplify_eq; done.
Qed.

Lemma prepare_recovery_child_moves P c k parent d sha L r L' :
  ledger_ok L → prepare_recovery_child P c k parent d sha L = Ok (r, L') → rtc move L L'.
Proof.
  intros Hok H. unfold prepare_recovery_child in H. cbv zeta in H. peel H.
  match goal with H : latest_attempt _ _ = Some ?y |- _ =>
    apply latest_attempt_Some in H as [Hl Hls]; [|done]; rename y into latest end.
  match goal with H : slot _ _ = Some ?y |- _ =>
    apply slot_Some in H as [Hs Hsk]; [|apply Hok]; rename y into s end.
  destruct (ef_id latest =? parent) eqn:E; peel H; apply Ok_inj in H; simplify_eq; [|done].
  match goal with H : _eligible_parent _ _ = Ok true |- _ =>
    apply eligible_retryable in H as Hret end.
  destruct (checker_owner _ _ _ _ Hok Hl Hls Hs) as [Hv Hslot].
  apply Z.eqb_eq in E. subst parent.
  match goal with H : add_effect _ _ _ = Ok _ |- _ =>
    refine (add_effect_moves _ _ _ _ (checker_view s) Hok _ _ _ _ _ _ H); [done..| |] end.
  - unfold owner. cbn. by rewrite Hs.
  - right. eexists. split; [exact Hl|]. by rewrite Hslot.
Qed.

(** ** Dispatch *)

Lemma reserve_dispatch_moves P c x a request L r L' :
  ledger_ok L → reserve_dispatch P c x a request L = Ok (r, L') → rtc move L L'.
Proof.
  intros Hok H. unfold reserve_dispatch in H. cbv zeta in H. peel H.
  match goal with H : _profile_for_stored_slot _ _ = Ok _ |- _ =>
    apply profile_for_stored_slot_published in H as Hp end.
  match goal with H : slot _ _ = Some ?y |- _ =>
    apply slot_Some in H as [Hs Hsk]; [|apply Hok]; rename y into s end.
  match goal with H : attempt _ _ = Some ?y |- _ =>
    apply usage_attempt_Some in H as [He Hid]; [|done]; rename y into e end.
  match goal with H : bool_decide (ef_checker_slot_id e = _) = true |- _ =>
    apply bool_decide_eq_true in H as Hes end.
  match goal with H : envelope _ _ = Some ?y |- _ =>
    pose proof (checker_envelope_of _ _ _ _ (ok_owners _ Hok) Hs Hsk H) as Henv end.
  destruct (checker_owner _ _ _ _ Hok He Hes Hs) as [Hv _].
  destruct (bool_decide (ef_state e = ES_prepared)) eqn:Est; cbn [negb] in H; peel H;
    apply Ok_inj in H; simplify_eq; [|done].
  apply bool_decide_eq_true in Est.
  match goal with H : update_effect _ _ _ _ = Ok _ |- _ => apply update_effect_Ok in H as -> end.
  apply rtc_once. eapply mv_dispatch; try done.
  - cbn. by rewrite Hsk.
  - match goal with H : negb (envelope_exhausted _ _ _ _ _) = true |- _ =>
      apply negb_true_iff in H; rewrite envelope_totals_run, <- Henv in H by done; exact H end.
  - cbn. by rewrite Hsk.
  - by apply negb_true_iff.
Qed.

Lemma mark_uncertain_moves P c f d rid L r L' :
  ledger_ok L → mark_uncertain P c f d rid L = Ok (r, L') → rtc move L L'.
Proof.
  intros Hok H. unfold mark_uncertain in H. cbv zeta in H. peel H.
  match goal with H : _lock_terminal _ _ _ = Ok ?y |- _ =>
    rename y into e; unfold _lock_terminal in H; cbv zeta in H; peel H; apply Ok_inj in H; subst end.
  match goal with H : attempt _ _ = Some ?y |- _ => apply usage_attempt_Some in H as [He Hid]; [|done] end.
  case_bool_decide; peel H; apply Ok_inj in H; simplify_eq; [done|].
  match goal with H : update_effect _ _ _ _ = Ok _ |- _ => apply update_effect_Ok in H as -> end.
  match goal with H : bool_decide (_ = ES_dispatching) = true |- _ => apply bool_decide_eq_true in H end.
  apply rtc_once. by apply (mv_uncertain L e).
Qed.

(** ** Settlement *)

Lemma require_pending_Ok c1 c2 e r :
  require_pending c1 c2 e = Ok r → pending e = true ∧ ef_reserved e = Some r.
Proof. unfold require_pending. intros H. peel H. by apply oget_Ok in H. Qed.

Lemma settle_Ok r cost pr L a' :
  _settle r cost pr L = Ok a' →
  ∃ a, lg_accounts L !! pr = Some a ∧ a' = move_account a (- r) cost.
Proof. unfold _settle. intros H. peel H. apply Ok_inj in H. subst. by eexists. Qed.

(** The slot and the row that terminal operations work on. *)
Lemma terminal_row c i L s prof e :
  ledger_ok L → _terminal_preflight c i L = Ok (s, prof) → _lock_terminal s i L = Ok e →
  lg_effects L !! ef_id e = Some e ∧ ef_id e = i ∧ owner L e = Some (checker_view s) ∧
  published L (slot_profile (cs_key s)) (pp_spec prof).
Proof.
  intros Hok H1 H2. unfold _terminal_preflight in H1. cbv zeta in H1. peel H1. apply Ok_inj in H1.
  injection H1 as -> ->. unfold _lock_terminal in H2. cbv zeta in H2. peel H2. apply Ok_inj in H2.
  subst e. match goal with H : attempt i L = Some ?x, H' : attempt i L = Some ?y |- _ =>
    assert (x = y) as <- by congruence; clear H'; rename x into e;
    apply usage_attempt_Some in H as [He Hid]; [|done] end.
  match goal with H : (ef_checker_slot_id e ≫= _) = Some s |- _ =>
    destruct (ef_checker_slot_id e) as [j|] eqn:Ej; [|done]; cbn in H; rename H into Hs end.
  pose proof (lo_slot _ (ok_owners _ Hok) _ _ Hs) as Hj. subst j.
  destruct (checker_owner _ _ _ _ Hok He Ej Hs) as [Hv _].
  split_and!; [done..|]. by eexists _, _.
Qed.

Lemma complete_call_moves P c failed f rid snapshot response u L r L' :
  ledger_ok L → complete_call P c failed f rid snapshot response u L = Ok (r, L') → rtc move L L'.
Proof.
  intros Hok H. unfold complete_call in H. cbv zeta in H. peel H.
  match goal with H : _terminal_preflight _ _ _ = Ok ?y |- _ => destruct y as [s prof]; rename H into Hpre end.
  peel H.
  match goal with H : _lock_terminal _ _ _ = Ok ?y |- _ => rename y into e, H into Hlock end.
  destruct (terminal_row _ _ _ _ _ _ Hok Hpre Hlock) as (He & Hid & Hv & Hp).
  case_bool_decide; peel H; apply Ok_inj in H; simplify_eq; [done|].
  match goal with H : _require_effect_pending _ = Ok _ |- _ =>
    apply require_pending_Ok in H as [Hpend Hres] end.
  match goal with H : _settle _ _ _ _ = Ok _ |- _ => apply settle_Ok in H as (a & Ha & ->) end.
  match goal with H : update_effect _ _ _ _ = Ok _ |- _ => apply update_effect_Ok in H as -> end.
  match goal with H : negb (negb _ || (_ <? me_byte_count response)) = true |- _ =>
    apply negb_true_iff, orb_false_iff in H as [_ Hbytes] end.
  apply rtc_once. eapply mv_settle; try done. lia.
Qed.

Lemma mark_known_no_effect_moves P c f proof L r L' :
  ledger_ok L → mark_known_no_effect P c f proof L = Ok (r, L') → rtc move L L'.
Proof.
  intros Hok H. unfold mark_known_no_effect in H. cbv zeta in H. peel H.
  match goal with H : _terminal_preflight _ _ _ = Ok ?y |- _ => destruct y as [s prof]; rename H into Hpre end.
  match goal with H : _lock_terminal _ _ _ = Ok ?y |- _ => rename y into e, H into Hlock end.
  destruct (terminal_row _ _ _ _ _ _ Hok Hpre Hlock) as (He & Hid & Hv & Hp).
  case_bool_decide; peel H; apply Ok_inj in H; simplify_eq; [done|].
  match goal with H : _require_effect_pending _ = Ok _ |- _ =>
    apply require_pending_Ok in H as [Hpend Hres] end.
  match goal with H : _release _ _ _ = Ok _ |- _ => apply settle_Ok in H as (a & Ha & ->) end.
  match goal with H : update_effect _ _ _ _ = Ok _ |- _ => apply update_effect_Ok in H as -> end.
  apply rtc_once. by eapply mv_release.
Qed.

(** ** Attachment *)

Lemma attach_row_moves c x f ev L b L' :
  attach_row c x f ev L = Ok (b, L') → rtc move L L'.
Proof.
  unfold attach_row. intros H. destruct (recovery _ _ _); peel H; apply Ok_inj in H; simplify_eq; [done|].
  match goal with H : add_recovery _ _ _ = Ok _ |- _ => apply add_recovery_Ok in H as [? ->] end.
  apply rtc_once. by apply mv_recovery.
Qed.

Lemma attach_recovery_moves P c x f L r L' :
  attach_recovery P c x f L = Ok (r, L') → rtc move L L'.
Proof.
  intros H. unfold attach_recovery in H. cbv zeta in H. peel H.
  match goal with H : attach_preflight _ _ _ _ _ = Ok ?y |- _ => destruct y end. peel H.
  match goal with H : attach_row _ _ _ _ _ = Ok ?y |- _ =>
    destruct y; apply attach_row_moves in H as M end.
  apply Ok_inj in H. simplify_eq. done.
Qed.

Lemma attach_completed_moves P c x f L r L' :
  attach_completed P c x f L = Ok (r, L') → rtc move L L'.
Proof.
  intros H. unfold attach_completed in H. cbv zeta in H. peel H.
  match goal with H : attach_preflight _ _ _ _ _ = Ok ?y |- _ => destruct y end. peel H.
  match goal with H : attach_row _ _ _ _ _ = Ok ?y |- _ =>
    destruct y; apply attach_row_moves in H as M end.
  apply Ok_inj in H. simplify_eq. done.
Qed.

(** ** The setup service *)

Lemma setup_envelope_moves c k L env L' p :
  ledger_ok L → published L (setup_profile k) p → sp_project_id p = setup_project k →
  setup_envelope_or_create c k L = Ok (env, L') →
  rtc move L L' ∧ lg_setup_envelopes L' !! se_id env = Some env ∧ se_key env = xs_envelope k.
Proof.
  intros Hok Hp Hpr H. unfold setup_envelope_or_create in H. cbv zeta in H.
  destruct (setup_envelope k L) as [r|] eqn:E; peel H; apply Ok_inj in H; simplify_eq.
  - apply setup_envelope_Some in E as [? ?]; [|apply Hok]. done.
  - match goal with H : add_setup_envelope _ _ _ = Ok _ |- _ =>
      apply add_setup_envelope_Ok in H as (? & -> & ?) end.
    split_and!; [|apply lookup_insert_eq|done]. apply rtc_once. by eapply mv_setup_envelope.
Qed.

Lemma setup_slot_moves c env k sha L s L' :
  ledger_ok L → lg_setup_envelopes L !! se_id env = Some env → se_key env = xs_envelope k →
  setup_slot_or_create c env k sha L = Ok (s, L') →
  rtc move L L' ∧ lg_setup_slots L' !! ss_id s = Some s.
Proof.
  intros Hok He Hk H. unfold setup_slot_or_create in H. cbv zeta in H.
  destruct (setup_slot k L) as [r|] eqn:E; peel H; apply Ok_inj in H; simplify_eq.
  - apply setup_slot_Some in E as [? ?]; [|apply Hok]. done.
  - match goal with H : add_setup_slot _ _ _ = Ok _ |- _ => apply add_setup_slot_Ok in H as [? ->] end.
    split; [|apply lookup_insert_eq]. apply rtc_once. by eapply mv_setup_slot.
Qed.

Lemma setup_prepare_moves P c k sha L r L' :
  ledger_ok L → setup_prepare P c k sha L = Ok (r, L') → rtc move L L'.
Proof.
  intros Hok H. unfold setup_prepare in H. peel H.
  match goal with H : _profile _ _ _ = Ok _ |- _ => apply setup_profile_published in H as [Hp Hpr] end.
  match goal with H : setup_envelope_or_create _ _ _ = Ok ?y |- _ =>
    destruct y as [env L1]; eapply setup_envelope_moves in H as (M1 & E1 & E2); [|done..] end.
  pose proof (moves_ok _ _ Hok M1) as Hok1.
  match goal with H : setup_slot_or_create _ _ _ _ _ = Ok ?y |- _ =>
    destruct y as [s L2]; eapply setup_slot_moves in H as (M2 & S1); [|done..] end.
  pose proof (moves_ok _ _ Hok1 M2) as Hok2.
  assert (rtc move L L2) as M12 by (by etrans).
  cbn in H. destruct (latest_setup_effect _ _); peel H; apply Ok_inj in H; simplify_eq; [done|].
  etrans; [exact M12|].
  match goal with H : add_effect _ _ _ = Ok _ |- _ =>
    refine (add_effect_moves _ _ _ _ (setup_view s) Hok2 _ _ _ _ _ _ H); [done..| |] end.
  - unfold owner. cbn. by rewrite S1.
  - by left.
Qed.

Lemma setup_reserve_dispatch_moves P c a request L r L' :
  ledger_ok L → setup_reserve_dispatch P c a request L = Ok (r, L') → rtc move L L'.
Proof.
  intros Hok H. unfold setup_reserve_dispatch in H. cbv zeta in H. peel H.
  match goal with H : _profile _ _ _ = Ok _ |- _ => apply setup_profile_published in H as [Hp _] end.
  match goal with H : setup_slot _ _ = Some ?y |- _ =>
    apply setup_slot_Some in H as [Hs Hsk]; [|apply Hok]; rename y into s end.
  match goal with H : attempt _ _ = Some ?y |- _ =>
    apply usage_attempt_Some in H as [He Hid]; [|done]; rename y into e end.
  match goal with H : bool_decide (ef_setup_slot_id e = _) = true |- _ =>
    apply bool_decide_eq_true in H as Hes end.
  match goal with H : setup_envelope _ _ = Some ?y |- _ =>
    pose proof (setup_envelope_of _ _ _ _ (ok_owners _ Hok) Hs Hsk H) as [Henv Hkey] end.
  destruct (setup_owner _ _ _ _ Hok He Hes Hs) as [Hv _].
  destruct (bool_decide (ef_state e = ES_prepared)) eqn:Est; cbn [negb] in H; peel H;
    apply Ok_inj in H; simplify_eq; [|done].
  apply bool_decide_eq_true in Est.
  match goal with H : update_effect _ _ _ _ = Ok _ |- _ => apply update_effect_Ok in H as -> end.
  apply rtc_once. eapply mv_dispatch; try done.
  - cbn. by rewrite Hkey.
  - match goal with H : negb (envelope_exhausted _ _ _ _ _) = true |- _ =>
      apply negb_true_iff in H; rewrite setup_envelope_totals_run, <- Henv in H by done; exact H end.
  - cbn. by rewrite Hkey.
  - by apply negb_true_iff.
Qed.

Lemma setup_terminal_row i L s prof e :
  ledger_ok L → setup_terminal_preflight i L = Ok (s, prof) → setup_lock_terminal s i L = Ok e →
  lg_effects L !! ef_id e = Some e ∧ ef_id e = i ∧ owner L e = Some (setup_view s) ∧
  published L (setup_profile (ss_key s)) (pp_spec prof).
Proof.
  intros Hok H1 H2. unfold setup_terminal_preflight in H1. cbv zeta in H1. peel H1. apply Ok_inj in H1.
  injection H1 as -> ->. unfold setup_lock_terminal in H2. cbv zeta in H2. peel H2. apply Ok_inj in H2.
  subst e. match goal with H : attempt i L = Some ?x, H' : attempt i L = Some ?y |- _ =>
    assert (x = y) as <- by congruence; clear H'; rename x into e;
    apply usage_attempt_Some in H as [He Hid]; [|done] end.
  match goal with H : (ef_setup_slot_id e ≫= _) = Some s |- _ =>
    destruct (ef_setup_slot_id e) as [j|] eqn:Ej; [|done]; cbn in H; rename H into Hs end.
  pose proof (lo_setup_slot _ (ok_owners _ Hok) _ _ Hs) as Hj. subst j.
  destruct (setup_owner _ _ _ _ Hok He Ej Hs) as [Hv _].
  match goal with H : _profile _ _ _ = Ok _ |- _ => apply setup_profile_published in H as [Hp _] end.
  done.
Qed.

Lemma setup_mark_uncertain_moves P c f d rid L r L' :
  ledger_ok L → setup_mark_uncertain P c f d rid L = Ok (r, L') → rtc move L L'.
Proof.
  intros Hok H. unfold setup_mark_uncertain in H. cbv zeta in H. peel H.
  match goal with H : setup_terminal_preflight _ _ = Ok ?y |- _ => destruct y as [s prof]; rename H into Hpre end.
  match goal with H : setup_lock_terminal _ _ _ = Ok ?y |- _ => rename y into e, H into Hlock end.
  destruct (setup_terminal_row _ _ _ _ _ Hok Hpre Hlock) as (He & Hid & Hv & Hp).
  case_bool_decide; peel H; apply Ok_inj in H; simplify_eq; [done|].
  match goal with H : update_effect _ _ _ _ = Ok _ |- _ => apply update_effect_Ok in H as -> end.
  match goal with H : bool_decide (_ = ES_dispatching) = true |- _ => apply bool_decide_eq_true in H end.
  apply rtc_once. by apply (mv_uncertain L e).
Qed.

Lemma setup_complete_moves P c f rid snapshot response u usable L r L' :
  ledger_ok L → setup_complete P c f rid snapshot response u usable L = Ok (r, L') → rtc move L L'.
Proof.
  intros Hok H. unfold setup_complete in H. cbv zeta in H. peel H.
  match goal with H : setup_terminal_preflight _ _ = Ok ?y |- _ => destruct y as [s prof]; rename H into Hpre end.
  peel H.
  match goal with H : setup_lock_terminal _ _ _ = Ok ?y |- _ => rename y into e, H into Hlock end.
  destruct (setup_terminal_row _ _ _ _ _ Hok Hpre Hlock) as (He & Hid & Hv & Hp).
  destruct (bool_decide _ || bool_decide _); peel H; apply Ok_inj in H; simplify_eq; [done|].
  match goal with H : _require_pending _ = Ok _ |- _ =>
    apply require_pending_Ok in H as [Hpend Hres] end.
  match goal with H : _settle _ _ _ _ = Ok _ |- _ => apply settle_Ok in H as (a & Ha & ->) end.
  match goal with H : update_effect _ _ _ _ = Ok _ |- _ => apply update_effect_Ok in H as -> end.
  match goal with H : negb (negb _ || (_ <? me_byte_count response)) = true |- _ =>
    apply negb_true_iff, orb_false_iff in H as [_ Hbytes] end.
  apply rtc_once. eapply mv_settle; try done. lia.
Qed.

Lemma setup_mark_known_no_effect_moves P c f proof L r L' :
  ledger_ok L → setup_mark_known_no_effect P c f proof L = Ok (r, L') → rtc move L L'.
Proof.
  intros Hok H. unfold setup_mark_known_no_effect in H. cbv zeta in H. peel H.
  match goal with H : setup_terminal_preflight _ _ = Ok ?y |- _ => destruct y as [s prof]; rename H into Hpre end.
  match goal with H : setup_lock_terminal _ _ _ = Ok ?y |- _ => rename y into e, H into Hlock end.
  destruct (setup_terminal_row _ _ _ _ _ Hok Hpre Hlock) as (He & Hid & Hv & Hp).
  case_bool_decide; peel H; apply Ok_inj in H; simplify_eq; [done|].
  match goal with H : _require_pending _ = Ok _ |- _ =>
    apply require_pending_Ok in H as [Hpend Hres] end.
  match goal with H : _release _ _ _ = Ok _ |- _ => apply settle_Ok in H as (a & Ha & ->) end.
  match goal with H : update_effect _ _ _ _ = Ok _ |- _ => apply update_effect_Ok in H as -> end.
  apply rtc_once. by eapply mv_release.
Qed.

(** ** The services as a machine *)

(** One successful call of either service, with any ports, clock, identifiers and further
    conditions of the database. *)
Inductive lstep (L L' : Ledger) : Prop :=
| st_provision_profile P c facts r : provision_profile P c facts L = Ok (r, L') → lstep L L'
| st_provision_budget P c facts r : provision_budget P c facts L = Ok (r, L') → lstep L L'
| st_prepare P c x k sha r : prepare_attempt P c x k sha L = Ok (r, L') → lstep L L'
| st_child P c k parent d sha r :
    prepare_recovery_child P c k parent d sha L = Ok (r, L') → lstep L L'
| st_reserve P c x a request r : reserve_dispatch P c x a request L = Ok (r, L') → lstep L L'
| st_uncertain P c f d rid r : mark_uncertain P c f d rid L = Ok (r, L') → lstep L L'
| st_complete P c failed f rid snapshot response u r :
    complete_call P c failed f rid snapshot response u L = Ok (r, L') → lstep L L'
| st_no_effect P c f proof r : mark_known_no_effect P c f proof L = Ok (r, L') → lstep L L'
| st_attach_recovery P c x f r : attach_recovery P c x f L = Ok (r, L') → lstep L L'
| st_attach_completed P c x f r : attach_completed P c x f L = Ok (r, L') → lstep L L'
| st_setup_prepare P c k sha r : setup_prepare P c k sha L = Ok (r, L') → lstep L L'
| st_setup_reserve P c a request r : setup_reserve_dispatch P c a request L = Ok (r, L') → lstep L L'
| st_setup_uncertain P c f d rid r : setup_mark_uncertain P c f d rid L = Ok (r, L') → lstep L L'
| st_setup_complete P c f rid snapshot response u usable r :
    setup_complete P c f rid snapshot response u usable L = Ok (r, L') → lstep L L'
| st_setup_no_effect P c f proof r :
    setup_mark_known_no_effect P c f proof L = Ok (r, L') → lstep L L'.

Definition lreachable (L : Ledger) : Prop := rtc lstep empty_ledger L.

Lemma lstep_moves L L' : ledger_ok L → lstep L L' → rtc move L L'.
Proof.
  intros Hok Hs. destruct Hs.
  - by eapply provision_profile_moves.
  - by eapply provision_budget_moves.
  - by eapply prepare_attempt_moves.
  - by eapply prepare_recovery_child_moves.
  - by eapply reserve_dispatch_moves.
  - by eapply mark_uncertain_moves.
  - by eapply complete_call_moves.
  - by eapply mark_known_no_effect_moves.
  - by eapply attach_recovery_moves.
  - by eapply attach_completed_moves.
  - by eapply setup_prepare_moves.
  - by eapply setup_reserve_dispatch_moves.
  - by eapply setup_mark_uncertain_moves.
  - by eapply setup_complete_moves.
  - by eapply setup_mark_known_no_effect_moves.
Qed.

Lemma lsteps_moves L L' : ledger_ok L → rtc lstep L L' → rtc move L L'.
Proof.
  intros Hok H. induction H as [|x y z Hxy _ IH]; [done|].
  pose proof (lstep_moves _ _ Hok Hxy) as M. etrans; [exact M|]. apply IH. by eapply moves_ok.
Qed.

Lemma reachable_ok L : lreachable L → ledger_ok L.
Proof.
  intros H. eapply moves_ok; [apply empty_ledger_ok|]. apply lsteps_moves; [apply empty_ledger_ok|done].
Qed.
