(* ===== verification/ModelGuarantees.v ===== *)
(** * What the model-call ledger guarantees

    The properties of every ledger the two services can reach: lifetime accounts are exactly
    the sums of the effects and stay within the authorised limit, a run never exceeds the
    ceilings of its profile, a settled effect is final, a call is never retried while its
    outcome is open, and completion is idempotent. *)

From stdpp Require Import relations.
From S2P Require Import Prelude Text Digest Json Instant OutboxApi OutboxStore ModelApi ModelStore.
From S2P Require Import ModelService ModelSetup ModelLedger ModelRefine.

(** ** Amounts *)

Lemma reserved_amount_nonneg L i e : ledger_ok L → lg_effects L !! i = Some e → 0 ≤ reserved_amount e.
Proof.
  intros Hok He. destruct (lo_shape _ (ok_effects _ Hok) _ _ He) as (v & p & _ & _ & H).
  unfold reserved_amount. destruct (pending e) eqn:Hp; [|done].
  unfold effect_shape in H.
  assert (∃ r, ef_reserved e = Some r ∧ maximum_dispatch_reservation_nanodollars p = Ok r)
    as (r & Hr & Hd) by (apply pending_state in Hp as [E|E]; rewrite E in H; tauto).
  apply dispatch_reservation_Ok in Hd. rewrite Hr. cbn. lia.
Qed.

Lemma settled_amount_nonneg L i e : ledger_ok L → lg_effects L !! i = Some e → 0 ≤ settled_amount e.
Proof.
  intros Hok He. destruct (lo_shape _ (ok_effects _ Hok) _ _ He) as (v & p & _ & _ & H).
  unfold settled_amount, effect_shape in *. destruct (ef_state e) eqn:Es.
  - destruct H as (_ & H & _). unfold ef_settled. by rewrite H.
  - destruct H as (H & _). unfold ef_settled. by rewrite H.
  - destruct H as (H & _). unfold ef_settled. by rewrite H.
  - destruct H as (r & c & _ & Hc & ?). rewrite Hc. cbn. lia.
  - destruct H as (r & c & _ & Hc & ?). rewrite Hc. cbn. lia.
  - destruct H as [_ Hc]. by rewrite Hc.
Qed.

Lemma project_sum_nonneg L p f :
  (∀ i e, lg_effects L !! i = Some e → 0 ≤ f e) → 0 ≤ sum_rows (of_project L p f) (lg_effects L).
Proof.
  intros H. apply sum_rows_nonneg. intros i e He. unfold of_project.
  destruct (owner L e) as [v|]; [|done]. destruct (_ =? _); [by eapply H|done].
Qed.

Lemma reserved_in_nonneg L p : ledger_ok L → 0 ≤ reserved_in L p.
Proof. intros. apply project_sum_nonneg. eauto using reserved_amount_nonneg. Qed.

Lemma settled_in_nonneg L p : ledger_ok L → 0 ≤ settled_in L p.
Proof. intros. apply project_sum_nonneg. eauto using settled_amount_nonneg. Qed.

(** One pending effect is part of its project's reserved sum. *)
Lemma sum_rows_part f t i e :
  t !! i = Some e → (∀ j x, t !! j = Some x → 0 ≤ f x) → f e ≤ sum_rows f t.
Proof.
  intros Hi Hpos. rewrite <- (insert_delete_id t i e Hi), sum_rows_insert by apply lookup_delete_eq.
  assert (0 ≤ sum_rows f (delete i t)); [|lia]. apply sum_rows_nonneg. intros j x Hj.
  apply lookup_delete_Some in Hj as [_ Hj]. by eapply Hpos.
Qed.

Lemma reserved_part L i e v :
  ledger_ok L → lg_effects L !! i = Some e → owner L e = Some v →
  reserved_amount e ≤ reserved_in L (ov_project v).
Proof.
  intros Hok He Hv. unfold reserved_in.
  transitivity (of_project L (ov_project v) reserved_amount e).
  - unfold of_project. by rewrite Hv, Z.eqb_refl.
  - apply (sum_rows_part _ _ i); [done|]. intros j x Hj. unfold of_project.
    destruct (owner L x); [|done]. destruct (_ =? _); [|done]. by eapply reserved_amount_nonneg.
Qed.

Lemma pending_covered L i e v r a :
  ledger_ok L → lg_effects L !! i = Some e → pending e = true → owner L e = Some v →
  ef_reserved e = Some r → lg_accounts L !! ov_project v = Some a →
  r ≤ ba_lifetime_reserved_nanodollars a.
Proof.
  intros Hok He Hp Hv Hr Ha. pose proof (own_account _ _ _ Hok Ha) as (_ & -> & _).
  pose proof (reserved_part L i e v Hok He Hv) as H. unfold reserved_amount in H.
  by rewrite Hp, Hr in H.
Qed.

(** A settlement never exceeds the effect's reservation. *)
Lemma settlement_within L e v p r u c :
  ledger_ok L → lg_effects L !! ef_id e = Some e → pending e = true → owner L e = Some v →
  published L (ov_profile v) p → ef_reserved e = Some r → model_usage_cost p u = Ok c → 0 ≤ c ≤ r.
Proof.
  intros Hok He Hpend Hv Hp Hres Hcost.
  destruct (pending_shape _ _ _ _ Hok He Hpend Hv Hp) as (_ & _ & r' & Hr' & Hd).
  rewrite Hres in Hr'. injection Hr' as <-.
  pose proof (published_valid _ _ _ Hp) as (Hprice & _)%spec_valid_bounds. by eapply cost_bound.
Qed.

(** ** Accounts *)

(** C1. Lifetime budgets are conserved.  In every ledger the services can reach, through any
    calls of the checker and the setup service with any ports, the account of a project holds
    exactly the amounts its pending effects have reserved and its settled effects have cost;
    their sum is within the limit of the account's current configuration, which belongs to
    the project, and fits the column's 64 bits; a project without an account has nothing
    reserved or settled. *)
Theorem budget_conserved L p :
  lreachable L →
  match lg_accounts L !! p with
  | Some a =>
      ba_lifetime_reserved_nanodollars a = reserved_in L p ∧
      ba_lifetime_settled_nanodollars a = settled_in L p ∧
      0 ≤ ba_lifetime_reserved_nanodollars a ∧ 0 ≤ ba_lifetime_settled_nanodollars a ∧
      ∃ b, current_budget_configuration a L = Some b ∧ bs_project_id (bc_spec b) = p ∧
        ba_lifetime_reserved_nanodollars a + ba_lifetime_settled_nanodollars a
          ≤ lifetime_limit_nanodollars (bc_spec b) ∧
        lifetime_limit_nanodollars (bc_spec b) < 2 ^ 63
  | None => reserved_in L p = 0 ∧ settled_in L p = 0
  end.
Proof.
  intros Hok%reachable_ok. pose proof (lo_account _ (ok_budgets _ Hok) p) as H.
  destruct (lg_accounts L !! p) as [a|]; [|done].
  destruct H as (_ & E1 & E2 & b & Eb & Ep & Hl).
  split_and!; [done..|rewrite E1; by apply reserved_in_nonneg|rewrite E2; by apply settled_in_nonneg|].
  exists b. apply (lo_configuration _ (ok_budgets _ Hok)) in Eb as Hb. destruct Hb as [_ Hb].
  unfold budget_spec_valid, Nanodollars, in_range, max_nanodollars in Hb.
  rewrite !andb_true_iff in Hb. split_and!; [done..|lia].
Qed.

(** C17. Run ceilings hold.  In every reachable ledger, the effects under one checker envelope
    or one setup envelope together respect the envelope's profile: the number of dispatches,
    the reserved and settled amounts, the request bytes, and the response bytes and tokens
    with the maximum counted for every dispatch whose response is outstanding. *)
Theorem run_ceilings L p :
  lreachable L →
  (∀ i env, lg_envelopes L !! i = Some env → published L (ek_profile (ce_key env)) p →
            run_bounded (envelope_totals i L) p) ∧
  (∀ i env, lg_setup_envelopes L !! i = Some env → published L (xk_profile (se_key env)) p →
            run_bounded (setup_envelope_totals i L) p).
Proof.
  intros Hok%reachable_ok. split; intros i env Henv Hp.
  - rewrite envelope_totals_run by done. eapply (ok_runs _ Hok (CheckerEnv i)); [|done].
    cbn. by rewrite Henv.
  - rewrite setup_envelope_totals_run by done. eapply (ok_runs _ Hok (SetupEnv i)); [|done].
    cbn. by rewrite Henv.
Qed.

(** ** Effects over time *)

(** What never changes in an attempt, and how far it has come. *)
Definition same_attempt (e e' : ModelUsageEffect) : Prop :=
  ef_id e' = ef_id e ∧ ef_checker_slot_id e' = ef_checker_slot_id e ∧
  ef_setup_slot_id e' = ef_setup_slot_id e ∧ ef_attempt_number e' = ef_attempt_number e ∧
  ef_internal_call_request_id e' = ef_internal_call_request_id e ∧
  ef_parent_attempt_id e' = ef_parent_attempt_id e ∧ ef_request_sha256 e' = ef_request_sha256 e.

Definition state_rank (s : EffectState) : Z :=
  match s with
  | ES_prepared => 0 | ES_dispatching => 1 | ES_uncertain => 2
  | ES_completed | ES_known_failed | ES_known_no_effect => 3
  end.

Record evolves (e e' : ModelUsageEffect) : Prop := {
  ev_same : same_attempt e e';
  ev_rank : state_rank (ef_state e) ≤ state_rank (ef_state e');
  ev_dispatch : ef_state e ≠ ES_prepared → ef_dispatch e' = ef_dispatch e;
  ev_final : terminal (ef_state e) = true → e' = e;
}.

#[export] Instance evolves_preorder : PreOrder evolves.
Proof.
  split.
  - intros e. by split.
  - intros x y z [A1 A2 A3 A4] [B1 B2 B3 B4]. split.
    + unfold same_attempt in *. naive_solver congruence.
    + lia.
    + intros H. rewrite B3, A3; [done..|]. intros E. apply H. rewrite E in A2. cbn in A2.
      destruct (ef_state x); cbn in A2; done || lia.
    + intros H. pose proof (A4 H). subst y. by apply B4.
Qed.

Lemma pending_not_final e : pending e = true → ef_state e ≠ ES_prepared ∧ terminal (ef_state e) = false.
Proof. intros [E|E]%pending_state; by rewrite E. Qed.

Lemma move_evolves L L' i e :
  ledger_ok L → move L L' → lg_effects L !! i = Some e → ∃ e', lg_effects L' !! i = Some e' ∧ evolves e e'.
Proof.
  intros Hok Hm He. pose proof (lo_id _ (ok_effects _ Hok) _ _ He) as Hi.
  assert (∀ x x', lg_effects L !! ef_id x = Some x → evolves x x' →
    ∃ e', <[ef_id x := x']> (lg_effects L) !! i = Some e' ∧ evolves e e') as Hupd.
  { intros x x' Hx Hev. destruct (decide (ef_id x = i)) as [E|Hne].
    - rewrite E in *. rewrite He in Hx. injection Hx as <-. exists x'.
      by rewrite lookup_insert_eq.
    - exists e. by rewrite lookup_insert_ne. }
  destruct Hm; try by exists e.
  - exists e. split; [|done]. cbn. rewrite lookup_insert_ne; [done|congruence].
  - apply (Hupd e0); [done|]. split; [done|cbn; rewrite H0; cbn; lia|congruence|].
    intros Ht. by rewrite H0 in Ht.
  - apply (Hupd e0); [done|]. split; [done|cbn; rewrite H0; cbn; lia|done|]. intros Ht. by rewrite H0 in Ht.
  - apply pending_not_final in H0 as Hn. destruct Hn as [Hn1 Hn2]. apply (Hupd e0); [done|].
    split; [done| |done|congruence]. cbn. destruct (ef_state _), failed; cbn; lia.
  - apply pending_not_final in H0 as Hn. destruct Hn as [Hn1 Hn2]. apply (Hupd e0); [done|].
    split; [done| |done|congruence]. cbn. destruct (ef_state _); cbn; lia.
Qed.

Lemma moves_evolve L L' i e :
  ledger_ok L → rtc move L L' → lg_effects L !! i = Some e →
  ∃ e', lg_effects L' !! i = Some e' ∧ evolves e e'.
Proof.
  intros Hok H. revert e. induction H as [|x y z Hxy Hyz IH]; intros e He; [by exists e|].
  destruct (move_evolves _ _ _ _ Hok Hxy He) as (e1 & H1 & E1).
  destruct (IH (move_ok _ _ Hok Hxy) e1 H1) as (e2 & H2 & E2). exists e2. split; [done|]. by etrans.
Qed.

(** C19. An effect only moves forward and its outcome is final.  Once an attempt exists, every
    later ledger has it with the same identity, owner, number, parent and request digest; its
    state never goes back; its reservation and dispatch columns never change after dispatch;
    and once it is completed, known failed or known to have had no effect, the whole row is
    frozen, so a cost is settled at most once. *)
Theorem settled_is_final L L' i e :
  lreachable L → rtc lstep L L' → lg_effects L !! i = Some e →
  ∃ e', lg_effects L' !! i = Some e' ∧ same_attempt e e' ∧
    state_rank (ef_state e) ≤ state_rank (ef_state e') ∧
    (ef_state e ≠ ES_prepared → ef_dispatch e' = ef_dispatch e) ∧
    (terminal (ef_state e) = true → e' = e).
Proof.
  intros Hok%reachable_ok H%lsteps_moves He; [|done].
  destruct (moves_evolve _ _ _ _ Hok H He) as (e' & He' & [? ? ? ?]). by exists e'.
Qed.

(** ** Retries *)

Lemma chain_below L n e f i j :
  ledger_ok L → lg_effects L !! i = Some e → lg_effects L !! j = Some f → slot_of e = slot_of f →
  ef_attempt_number f = ef_attempt_number e + 1 + Z.of_nat n → 1 ≤ ef_attempt_number e →
  retryable (ef_state e) = true.
Proof.
  intros Hok He. revert f j. induction n as [|n IH]; intros f j Hf Hslot Hnum Hpos.
  - destruct (lo_chain _ (ok_effects _ Hok) _ _ Hf) as [[Hn _]|(p & Hp & Hps & _ & Hpn & Hpr)]; [lia|].
    assert (i = ef_id p) as ->.
    { eapply (lo_unique _ (ok_effects _ Hok)); [done..| |]; [congruence|lia]. }
    rewrite He in Hp. by injection Hp as ->.
  - destruct (lo_chain _ (ok_effects _ Hok) _ _ Hf) as [[Hn _]|(p & Hp & Hps & _ & Hpn & Hpr)]; [lia|].
    eapply (IH p); [done| |lia|done]. congruence.
Qed.

(** C21. A call is retried only after a proven failure.  In every reachable ledger the attempts
    of a slot are numbered without repetition, each later one is the child of the attempt
    before it, and of two attempts of a slot the earlier one is known to have failed or to
    have had no effect: while an attempt is prepared, dispatching, uncertain or completed it
    is the last one, so a slot has at most one such attempt. *)
Theorem retry_after_failure L i j e f :
  lreachable L → lg_effects L !! i = Some e → lg_effects L !! j = Some f → slot_of e = slot_of f →
  i ≠ j →
  (ef_attempt_number e < ef_attempt_number f ∧ retryable (ef_state e) = true ∧
   ∃ p, lg_effects L !! ef_id p = Some p ∧ slot_of p = slot_of f ∧
        ef_parent_attempt_id f = Some (ef_id p) ∧ ef_attempt_number f = ef_attempt_number p + 1) ∨
  (ef_attempt_number f < ef_attempt_number e ∧ retryable (ef_state f) = true ∧
   ∃ p, lg_effects L !! ef_id p = Some p ∧ slot_of p = slot_of e ∧
        ef_parent_attempt_id e = Some (ef_id p) ∧ ef_attempt_number e = ef_attempt_number p + 1).
Proof.
  intros Hok%reachable_ok He Hf Hslot Hne.
  assert (∀ i j e f, lg_effects L !! i = Some e → lg_effects L !! j = Some f → slot_of e = slot_of f →
    ef_attempt_number e < ef_attempt_number f → retryable (ef_state e) = true ∧
    ∃ p, lg_effects L !! ef_id p = Some p ∧ slot_of p = slot_of f ∧
      ef_parent_attempt_id f = Some (ef_id p) ∧ ef_attempt_number f = ef_attempt_number p + 1) as H.
  { clear -Hok. intros i j e f He Hf Hslot Hlt.
    pose proof (lo_number _ (ok_effects _ Hok) _ _ He). split.
    - eapply (chain_below L (Z.to_nat (ef_attempt_number f - ef_attempt_number e - 1))); [done..|lia|lia].
    - destruct (lo_chain _ (ok_effects _ Hok) _ _ Hf) as [[Hn _]|(p & Hp & Hps & Hpp & Hpn & _)]; [lia|].
      by exists p. }
  destruct (Z.lt_total (ef_attempt_number e) (ef_attempt_number f)) as [Hlt|[Heq|Hlt]].
  - left. split; [done|]. by eapply H.
  - destruct Hne. by eapply (lo_unique _ (ok_effects _ Hok)).
  - right. split; [done|]. by eapply H.
Qed.

(** ** Completion *)

Lemma ensure_bind_true {E A} (b : bool) (e : E) (k : unit → result E A) :
  b = true → (ensure b e ≫= k) = k tt.
Proof. by intros ->. Qed.

(** Repeats the steps of a call that are known to succeed. *)
Ltac redo := repeat match goal with
  | H : ?b = true |- (ensure ?b _ ≫= _) = _ => rewrite (ensure_bind_true b _ _ H)
  | H : ?m = Ok _ |- (?m ≫= _) = _ => rewrite H, bind_Ok
  | H : ?o = Some _ |- (oget ?o _ ≫= _) = _ => rewrite H, bind_oget
  end.

Lemma evidence_set e : evidence_valid e = true → _evidence (_set_evidence e) = Ok e.
Proof. intros H. destruct e. cbn -[evidence_valid]. by rewrite H. Qed.

Lemma usage_set t u :
  usage_valid u = true → tc_input_tokens t = Some (us_input_tokens u) →
  tc_cached_input_tokens t = Some (us_cached_input_tokens u) →
  tc_output_tokens t = Some (us_output_tokens u) →
  tc_reasoning_tokens t = Some (us_reasoning_tokens u) → _usage t = Ok (Some u).
Proof. intros H E1 E2 E3 E4. unfold _usage. rewrite E1, E2, E3, E4. destruct u. cbn -[usage_valid]. by rewrite H. Qed.

Definition with_replayed (b : bool) (r : CompletedModelCall) : CompletedModelCall :=
  {| cm_slot_id := cm_slot_id r; cm_attempt_id := cm_attempt_id r;
     cm_attempt_number := cm_attempt_number r;
     cm_internal_call_request_id := cm_internal_call_request_id r;
     cm_provider_response_id := cm_provider_response_id r;
     cm_request_evidence := cm_request_evidence r; cm_response_evidence := cm_response_evidence r;
     cm_usage := cm_usage r; cm_settled_nanodollars := cm_settled_nanodollars r;
     cm_completed_at := cm_completed_at r; cm_replayed := b |}.

Lemma completed_result_replay e b b' r :
  _completed_result e b = Ok r → _completed_result e b' = Ok (with_replayed b' r).
Proof.
  unfold _completed_result. cbv zeta. intros H. peel H. apply Ok_inj in H. subst r. redo. done.
Qed.

(** Terminal operations find the written row where they found the old one. *)
Lemma terminal_again c c' i L s prof e e' a :
  _terminal_preflight c i L = Ok (s, prof) → _lock_terminal s i L = Ok e → ef_id e = i →
  ef_id e' = ef_id e → ef_checker_slot_id e' = ef_checker_slot_id e → ca_transaction c' = true →
  _terminal_preflight c' i (post e' a L) = Ok (s, prof) ∧ _lock_terminal s i (post e' a L) = Ok e'.
Proof.
  intros H1 H2 Hi Hid Hslot Ht.
  assert (attempt i (post e' a L) = Some e') as Ha.
  { unfold attempt. cbn. rewrite Hid, Hi. apply lookup_insert_eq. }
  unfold _terminal_preflight in H1. cbv zeta in H1. peel H1. apply Ok_inj in H1. injection H1 as -> ->.
  unfold _lock_terminal in H2. cbv zeta in H2. peel H2. apply Ok_inj in H2. subst e.
  match goal with H : attempt i L = Some ?x, H' : attempt i L = Some ?y |- _ =>
    assert (x = y) as <- by congruence; clear H' end.
  split.
  - unfold _terminal_preflight. cbv zeta. unfold require_model_call_transaction. redo.
    rewrite Hslot. change (λ i, lg_slots (post e' a L) !! i) with (λ i, lg_slots L !! i). redo.
    change (profile_exact (slot_profile (cs_key s)) (post e' a L))
      with (profile_exact (slot_profile (cs_key s)) L). redo. done.
  - unfold _lock_terminal. cbv zeta. change (lock_slot s (post e' a L)) with (lock_slot s L). redo.
    rewrite Hslot. redo. done.
Qed.

Lemma terminal_slot c i L s prof :
  owners_ok L → _terminal_preflight c i L = Ok (s, prof) → lg_slots L !! cs_id s = Some s.
Proof.
  intros Ho H. unfold _terminal_preflight in H. cbv zeta in H. peel H. apply Ok_inj in H.
  injection H as -> ->.
  match goal with H : (?o ≫= _) = Some s |- _ => destruct o as [j|]; [|done]; cbn in H;
    pose proof (lo_slot _ Ho _ _ H) as <-; exact H end.
Qed.

Lemma require_effect_Ok f s e x : _require_effect f s e = Ok x → f = _effect s e.
Proof. unfold _require_effect, ensure. case_bool_decide; done. Qed.

Lemma completed_result_cost e b r :
  _completed_result e b = Ok r → cm_replayed r = b ∧ ef_settled e = Some (cm_settled_nanodollars r).
Proof.
  unfold _completed_result. cbv zeta. intros H. peel H. apply Ok_inj in H. by subst r.
Qed.

(** A settled row answers the call that settled it. *)
Lemma settled_row_replays e failed rid response u cost ev t1 t2 r :
  evidence_valid response = true → usage_valid u = true →
  let e' := settled_effect e failed rid response u cost ev t1 t2 in
  _completed_result e' false = Ok r →
  _usage (ef_terminal e') = Ok (Some u) ∧ _evidence (tc_response (ef_terminal e')) = Ok response ∧
  _completed_result e' true = Ok (with_replayed true r).
Proof.
  intros Hev Hu e' H. split_and!.
  - by apply usage_set.
  - by apply evidence_set.
  - by eapply completed_result_replay.
Qed.

Lemma complete_authorized_valid P failed f rid snapshot response u ev :
  complete_authorized P failed f rid snapshot response u = Ok ev →
  evidence_valid response = true ∧ usage_valid u = true.
Proof. unfold complete_authorized. intros H. by peel H. Qed.

(** A completion finds its effect settled by the same call. *)
Lemma complete_call_replays P c failed f rid snapshot response u L ev s prof e cost r :
  complete_authorized P failed f rid snapshot response u = Ok ev →
  _terminal_preflight c (ea_attempt_id f) L = Ok (s, prof) →
  negb (negb (str_eqb snapshot (sp_model_snapshot (pp_spec prof)))
        || (maximum_response_bytes (pp_spec prof) <? me_byte_count response)) = true →
  model_usage_cost (pp_spec prof) u = Ok cost →
  _lock_terminal s (ea_attempt_id f) L = Ok e → f = _effect s e →
  ef_state e = (if failed then ES_known_failed else ES_completed) →
  ef_provider_response_id e = Some rid → ef_settled e = Some cost →
  _usage (ef_terminal e) = Ok (Some u) → _evidence (tc_response (ef_terminal e)) = Ok response →
  _completed_result e true = Ok r →
  complete_call P c failed f rid snapshot response u L = Ok (r, L).
Proof.
  intros H1 H2 H3 H4 H5 H6 H7 H8 H9 H10 H11 H12.
  assert (_require_effect f s e = Ok tt) as Hreq.
  { unfold _require_effect. by rewrite bool_decide_eq_true_2. }
  assert (∃ x, (if failed then _usage (ef_terminal e) else Ok None) = Ok x) as [x Hx].
  { destruct failed; eauto. }
  unfold complete_call. cbv zeta. redo. rewrite bool_decide_eq_true_2 by done.
  redo. rewrite ensure_bind_true by by apply bool_decide_eq_true.
  redo. rewrite ensure_bind_true by by apply bool_decide_eq_true.
  redo. do 2 (rewrite ensure_bind_true by by apply bool_decide_eq_true). redo. done.
Qed.

(** What a completion that is not a replay has done. *)
Lemma complete_call_inv P c failed f rid snapshot response u L r L' :
  ledger_ok L → complete_call P c failed f rid snapshot response u L = Ok (r, L') →
  cm_replayed r = false →
  ∃ ev s prof e reserved cost a t1 t2,
    let e' := settled_effect e failed rid response u cost (ae_evidence_id ev) t1 t2 in
    complete_authorized P failed f rid snapshot response u = Ok ev ∧
    _terminal_preflight c (ea_attempt_id f) L = Ok (s, prof) ∧
    negb (negb (str_eqb snapshot (sp_model_snapshot (pp_spec prof)))
          || (maximum_response_bytes (pp_spec prof) <? me_byte_count response)) = true ∧
    model_usage_cost (pp_spec prof) u = Ok cost ∧
    _lock_terminal s (ea_attempt_id f) L = Ok e ∧ f = _effect s e ∧ pending e = true ∧
    ef_reserved e = Some reserved ∧ lg_accounts L !! slot_project (cs_key s) = Some a ∧
    L' = post e' (move_account a (- reserved) cost) L ∧ _completed_result e' false = Ok r.
Proof.
  intros Hok H Hrep. unfold complete_call in H. cbv zeta in H.
  apply result_bind_Ok in H as (ev & Hauth & H). apply result_bind_Ok in H as ([s prof] & Hpre & H).
  apply ensure_bind_Ok in H as [Hbounds H]. apply result_bind_Ok in H as (cost & Hcost & H).
  apply result_bind_Ok in H as (e & Hlock & H).
  apply result_bind_Ok in H as (x & Hf%require_effect_Ok & H).
  destruct (bool_decide (ef_state e = if failed then ES_known_failed else ES_completed));
    peel H; apply Ok_inj in H; injection H as <- <-.
  { exfalso. match goal with H : _completed_result _ true = Ok _ |- _ =>
      apply completed_result_cost in H as [? _] end. congruence. }
  match goal with H : _require_effect_pending _ = Ok ?y |- _ =>
    apply require_pending_Ok in H as [Hpend Hres] end.
  match goal with H : _settle _ _ _ _ = Ok _ |- _ => apply settle_Ok in H as (a & Ha & ->) end.
  match goal with H : update_effect _ _ _ _ = Ok _ |- _ => apply update_effect_Ok in H as -> end.
  eexists ev, s, prof, e, _, cost, a, _, _. split_and!; done.
Qed.

(** The price of a usage *)
Definition usage_price (c : ModelPricing) (u : ModelCallUsage) : Z :=
  (us_input_tokens u - us_cached_input_tokens u) * uncached_input_nanodollars_per_token c
  + us_cached_input_tokens u * cached_input_nanodollars_per_token c
  + us_output_tokens u * output_nanodollars_per_token c.

Lemma usage_cost_price p u c : model_usage_cost p u = Ok c → c = usage_price (sp_pricing p) u.
Proof.
  unfold model_usage_cost. cbv zeta. intros H. do 3 apply ensure_bind_Ok in H as [_ H].
  apply result_bind_Ok in H as (m & _ & H). by apply ensure_bind_Ok in H as [_ [= <-]].
Qed.

(** C29. Completion settles exactly once and is idempotent.  A call of [complete] or
    [complete_known_failure] that is not a replay takes a pending effect of the account's
    project to its terminal state, moves its whole reservation out of the account and the cost
    into the settled total.  The cost is the usage reported by the provider at the prices of the
    profile published for the effect's slot (input not cached, cached input and output tokens,
    each at its price), and the reservation covers it.  The same call repeated
    in any later transaction on that ledger returns the same result marked as a replay and
    changes nothing. *)
Theorem complete_idempotent P c failed f rid snapshot response u L r L' :
  lreachable L → complete_call P c failed f rid snapshot response u L = Ok (r, L') →
  cm_replayed r = false →
  (∃ e s reserved a,
     lg_effects L !! ea_attempt_id f = Some e ∧ pending e = true ∧ ef_reserved e = Some reserved ∧
     lg_slots L !! ea_slot_id f = Some s ∧ f = _effect s e ∧
     (∃ p, published L (slot_profile (cs_key s)) p ∧
        model_usage_cost p u = Ok (cm_settled_nanodollars r) ∧
        cm_settled_nanodollars r = usage_price (sp_pricing p) u) ∧
     0 ≤ cm_settled_nanodollars r ≤ reserved ∧
     lg_accounts L !! ea_project_id f = Some a ∧
     lg_accounts L' = <[ea_project_id f :=
       move_account a (- reserved) (cm_settled_nanodollars r)]> (lg_accounts L) ∧
     ∃ e', lg_effects L' = <[ea_attempt_id f := e']> (lg_effects L) ∧
       ef_state e' = (if failed then ES_known_failed else ES_completed) ∧
       ef_settled e' = Some (cm_settled_nanodollars r)) ∧
  ∀ c', ca_transaction c' = true →
    complete_call P c' failed f rid snapshot response u L' = Ok (with_replayed true r, L').
Proof.
  intros Hok%reachable_ok H Hrep.
  destruct (complete_call_inv _ _ _ _ _ _ _ _ _ _ _ Hok H Hrep)
    as (ev & s & prof & e & reserved & cost & a & t1 & t2 & Hauth & Hpre & Hbounds & Hcost & Hlock & Hf &
        Hpend & Hres & Ha & -> & Hr).
  set (e' := settled_effect _ _ _ _ _ _ _ _ _) in *.
  destruct (terminal_row _ _ _ _ _ _ Hok Hpre Hlock) as (He & Hid & Hv & Hp).
  destruct (completed_result_cost _ _ _ Hr) as [_ [= Ecost]].
  pose proof (own_account _ (checker_view s) _ Hok Ha) as (Ep & _). cbn in Ep.
  destruct (complete_authorized_valid _ _ _ _ _ _ _ _ Hauth) as [Hev Hu].
  split.
  - exists e, s, reserved, a. rewrite <- Ecost, Hf.
    cbn [ea_attempt_id ea_slot_id ea_project_id _effect].
    pose proof (terminal_slot _ _ _ _ _ (ok_owners _ Hok) Hpre) as Hslot.
    pose proof (settlement_within L e _ _ _ _ _ Hok He Hpend Hv Hp Hres Hcost).
    split_and!; [done..| |lia|lia|done|cbn; by rewrite Ep|by exists e'].
    exists (pp_spec prof). split_and!; [done|done|by apply usage_cost_price].
  - intros c' Hc'.
    destruct (terminal_again c c' _ L s prof e e' (move_account a (- reserved) cost)
      Hpre Hlock Hid eq_refl eq_refl Hc') as [Hpre' Hlock'].
    destruct (settled_row_replays e failed rid response u cost _ _ _ r Hev Hu Hr) as (R1 & R2 & R3).
    by eapply complete_call_replays.
Qed.

(** ** A pending effect can always be settled *)

Lemma first_row_exists {A} (p : A → bool) (t : gmap Z A) i r :
  t !! i = Some r → p r = true → ∃ x, first_row p t = Some x.
Proof.
  intros Hi Hp. unfold first_row. destruct (List.filter p (rows t)) as [|x l] eqn:E; [|by exists x].
  exfalso. assert (In r (List.filter p (rows t))) as Hin.
  { apply filter_In. split; [|done]. apply in_rows. eauto. }
  by rewrite E in Hin.
Qed.

(** The locks of a slot that exists succeed. *)
Lemma lock_slot_succeeds L s :
  owners_ok L → lg_slots L !! cs_id s = Some s → lock_slot s L = Ok s.
Proof.
  intros Ho Hs. destruct (lo_slot_key _ Ho _ _ Hs) as (env & Henv & Hkey).
  destruct (first_row_exists (λ r, bool_decide (ce_key r = sk_envelope (cs_key s))) (lg_envelopes L)
    _ _ Henv) as [x Hx]; [by apply bool_decide_eq_true|].
  destruct (first_row_exists (λ r, bool_decide (cs_key r = cs_key s)) (lg_slots L) _ _ Hs)
    as [y Hy]; [by apply bool_decide_eq_true|].
  assert (y = s) as ->.
  { destruct (slot_Some (cs_key s) L y Ho Hy) as [H1 H2].
    pose proof (lo_slot_unique _ Ho _ _ _ _ H1 Hs H2). congruence. }
  unfold lock_slot. cbv zeta. change (envelope (cs_key s) L = Some x) in Hx.
  change (slot (cs_key s) L = Some s) in Hy. redo.
  rewrite ensure_bind_true by apply Z.eqb_refl. done.
Qed.

Lemma terminal_preflight_succeeds c i L e s row prof :
  ca_transaction c = true → lg_effects L !! i = Some e → ef_checker_slot_id e = Some (cs_id s) →
  lg_slots L !! cs_id s = Some s → profile_exact (slot_profile (cs_key s)) L = Some row →
  stored_model_profile row = Ok prof → owners_ok L →
  _terminal_preflight c i L = Ok (s, prof) ∧ _lock_terminal s i L = Ok e.
Proof.
  intros Hc He Hes Hs Hrow Hprof Ho. change (attempt i L = Some e) in He. split.
  - unfold _terminal_preflight. cbv zeta. unfold require_model_call_transaction. redo.
    rewrite Hes. cbn [mbind option_bind]. redo. done.
  - unfold _lock_terminal. cbv zeta. pose proof (lock_slot_succeeds L s Ho Hs). redo.
    rewrite ensure_bind_true by by apply bool_decide_eq_true. done.
Qed.

(** The settled row projects to a complete result. *)
Lemma settled_row_result e s failed rid response u cost ev t1 t2 request :
  ef_checker_slot_id e = Some s → 1 ≤ ef_attempt_number e →
  dc_request (ef_dispatch e) = _set_evidence request → evidence_valid request = true →
  evidence_valid response = true → usage_valid u = true → ProviderResponseIdentifier rid = true →
  Nanodollars cost = true →
  ∃ r, _completed_result (settled_effect e failed rid response u cost ev t1 t2) false = Ok r.
Proof.
  intros Hs Hn Hreq Hrv Hev Hu Hrid Hcost. unfold _completed_result. cbv zeta.
  erewrite usage_set; [|done..]. rewrite bind_Ok.
  cbn [ef_terminal settled_effect with_outcome tc_terminal_at tc_settled_nanodollars
       ef_checker_slot_id ef_provider_response_id ef_dispatch tc_response ef_attempt_number].
  rewrite Hs, Hreq, (evidence_set request), (evidence_set response) by done.
  rewrite !bind_oget, !bind_Ok, Hrid, Hcost, (proj2 (Z.leb_le _ _) Hn). eauto.
Qed.

Lemma settlement_exists p u r :
  spec_valid p = true → maximum_dispatch_reservation_nanodollars p = Ok r → usage_valid u = true →
  us_input_tokens u ≤ maximum_input_tokens p → us_output_tokens u ≤ maximum_output_tokens p →
  ∃ c, model_usage_cost p u = Ok c ∧ 0 ≤ c ≤ r.
Proof.
  intros (Hp & _)%spec_valid_bounds Hr Hu Hi Ho.
  pose proof (usage_cost_spec p u r Hp Hr Hu) as H. rewrite (proj2 (andb_true_iff _ _)) in H by lia.
  destruct H as (c & Hc & Hb & _). by exists c.
Qed.

(** The project of a pending effect has an account that covers the reservation. *)
Lemma pending_has_account L e v r :
  ledger_ok L → lg_effects L !! ef_id e = Some e → pending e = true → owner L e = Some v →
  ef_reserved e = Some r →
  ∃ a, lg_accounts L !! ov_project v = Some a ∧ r ≤ ba_lifetime_reserved_nanodollars a.
Proof.
  intros Hok He Hpend Hv Hr. destruct (lg_accounts L !! ov_project v) as [a|] eqn:Ha.
  - exists a. split; [done|]. by eapply pending_covered.
  - exfalso. pose proof (lo_account _ (ok_budgets _ Hok) (ov_project v)) as H. rewrite Ha in H.
    destruct H as [H _]. pose proof (reserved_part L _ e v Hok He Hv) as Hpart.
    unfold reserved_amount in Hpart. rewrite Hpend, Hr, H in Hpart. cbn in Hpart.
    destruct (lo_shape _ (ok_effects _ Hok) _ _ He) as (v' & p & Hv' & Hp & _).
    rewrite Hv in Hv'. injection Hv' as <-.
    destruct (pending_shape _ _ _ _ Hok He Hpend Hv Hp) as (_ & _ & r' & Hr' & Hd).
    rewrite Hr in Hr'. injection Hr' as <-. apply dispatch_reservation_Ok in Hd. lia.
Qed.

(** The other branch of a completion. *)
Lemma complete_call_settles P c failed f rid snapshot response u L ev s prof e reserved cost a L' r :
  complete_authorized P failed f rid snapshot response u = Ok ev →
  _terminal_preflight c (ea_attempt_id f) L = Ok (s, prof) →
  negb (negb (str_eqb snapshot (sp_model_snapshot (pp_spec prof)))
        || (maximum_response_bytes (pp_spec prof) <? me_byte_count response)) = true →
  model_usage_cost (pp_spec prof) u = Ok cost →
  _lock_terminal s (ea_attempt_id f) L = Ok e → f = _effect s e → pending e = true →
  ef_reserved e = Some reserved →
  match ef_provider_response_id e with Some r => str_eqb r rid | None => true end = true →
  lg_accounts L !! slot_project (cs_key s) = Some a → reserved ≤ ba_lifetime_reserved_nanodollars a →
  let e' := settled_effect e failed rid response u cost (ae_evidence_id ev) (ca_now c)
              (if failed then ca_now2 c else ca_now c) in
  update_effect c e' (Some (move_account a (- reserved) cost)) L = Ok L' →
  _completed_result e' false = Ok r →
  complete_call P c failed f rid snapshot response u L = Ok (r, L').
Proof.
  intros H1 H2 H3 H4 H5 H6 Hp Hr H8 Ha Hle e' Hupd Hres.
  assert (_require_effect f s e = Ok tt) as Hreq.
  { unfold _require_effect. by rewrite bool_decide_eq_true_2. }
  assert (_require_effect_pending e = Ok reserved) as Hpend.
  { unfold _require_effect_pending, require_pending. by rewrite Hp, Hr. }
  assert (_settle reserved cost (slot_project (cs_key s)) L = Ok (move_account a (- reserved) cost)) as Hs.
  { unfold _settle, budget_account. rewrite Ha, bind_oget, ensure_bind_true by lia. done. }
  assert (bool_decide (ef_state e = if failed then ES_known_failed else ES_completed) = false) as Hst.
  { apply bool_decide_eq_false. apply pending_state in Hp as [E|E]; rewrite E; by destruct failed. }
  subst e'. unfold complete_call. cbv zeta. redo. rewrite Hst. redo. done.
Qed.

(** A pending effect can always be settled.  In every reachable ledger, for a dispatching
    or uncertain effect of a checker slot: once its completion is authorised and its usage
    and response are within its profile, and provided the database accepts the row and account it writes, the
    call of [complete] or [complete_known_failure] succeeds and is not a replay.  In
    particular the reservation is always covered by the account, so neither the missing-budget
    nor the conservation error can occur. *)
Theorem pending_can_settle P c failed f rid snapshot response u L e s p ev :
  lreachable L → lg_effects L !! ea_attempt_id f = Some e → pending e = true →
  lg_slots L !! cs_id s = Some s → ef_checker_slot_id e = Some (cs_id s) → f = _effect s e →
  published L (slot_profile (cs_key s)) p →
  complete_authorized P failed f rid snapshot response u = Ok ev → ca_transaction c = true →
  snapshot = sp_model_snapshot p → me_byte_count response ≤ maximum_response_bytes p →
  us_input_tokens u ≤ maximum_input_tokens p → us_output_tokens u ≤ maximum_output_tokens p →
  match ef_provider_response_id e with Some r => r = rid | None => True end →
  (∀ cost a reserved,
     model_usage_cost p u = Ok cost → lg_accounts L !! slot_project (cs_key s) = Some a →
     ef_reserved e = Some reserved →
     let e' := settled_effect e failed rid response u cost (ae_evidence_id ev) (ca_now c)
                 (if failed then ca_now2 c else ca_now c) in
     let a' := move_account a (- reserved) cost in
     update_effect c e' (Some a') L = Ok (post e' a' L)) →
  ∃ r L', complete_call P c failed f rid snapshot response u L = Ok (r, L') ∧ cm_replayed r = false.
Proof.
  intros Hok%reachable_ok He Hpend Hs Hes Hf Hp Hauth Hc -> Hbytes Hi Ho Hrid Hdb.
  pose proof (lo_id _ (ok_effects _ Hok) _ _ He) as Hid.
  assert (lg_effects L !! ef_id e = Some e) as He' by by rewrite Hid.
  destruct (checker_owner _ _ _ _ Hok He Hes Hs) as [Hv _].
  destruct (pending_shape _ _ _ _ Hok He' Hpend Hv Hp) as (_ & (request & Hrv & Hreq) & reserved & Hres & Hd).
  destruct Hp as (row & prof & Hrow & Hprof & <-).
  destruct (terminal_preflight_succeeds c _ L e s row prof Hc He Hes Hs Hrow Hprof (ok_owners _ Hok))
    as [Hpre Hlock].
  destruct (complete_authorized_valid _ _ _ _ _ _ _ _ Hauth) as [Hev Hu].
  assert (ProviderResponseIdentifier rid = true) as Hridv.
  { unfold complete_authorized in Hauth. by peel Hauth. }
  assert (published L (slot_profile (cs_key s)) (pp_spec prof)) as Hp by by eexists _, _.
  destruct (settlement_exists (pp_spec prof) u reserved) as [cost [Hcost Hcb]];
    [by apply published_valid in Hp|done..|].
  pose proof (pending_has_account L e _ reserved Hok He' Hpend Hv Hres) as (a & Ha & Hcov).
  destruct (settled_row_result e (cs_id s) failed rid response u cost (ae_evidence_id ev) (ca_now c)
    (if failed then ca_now2 c else ca_now c) request) as [r Hr]; try done.
  { by eapply (lo_number _ (ok_effects _ Hok)). }
  { apply dispatch_reservation_Ok in Hd as (_ & _ & m & Hm & Hle).
    unfold maximum_reservation_nanodollars in Hm. cbv zeta in Hm. peel Hm. apply Ok_inj in Hm.
    unfold Nanodollars, in_range. lia. }
  exists r. eexists. split; [|by apply completed_result_cost in Hr as [? _]].
  refine (complete_call_settles P c failed f rid _ response u L ev s prof e reserved cost a _ r Hauth Hpre
    _ Hcost Hlock Hf Hpend Hres _ Ha Hcov (Hdb _ _ _ Hcost Ha Hres) Hr).
  - unfold str_eqb. rewrite bool_decide_eq_true_2 by done. cbn. lia.
  - destruct (ef_provider_response_id e); [|done]. by apply bool_decide_eq_true.
Qed.

(** ** Retry digests *)

(** A result repeats the settled columns. *)
Lemma completed_result_fields e failed rid response u cost ev t1 t2 r :
  evidence_valid response = true → usage_valid u = true →
  _completed_result (settled_effect e failed rid response u cost ev t1 t2) false = Ok r →
  cm_attempt_id r = ef_id e ∧ cm_provider_response_id r = rid ∧
  cm_response_evidence r = response ∧ cm_usage r = u ∧ cm_settled_nanodollars r = cost.
Proof.
  intros Hev Hu H. unfold _completed_result in H. cbv zeta in H.
  erewrite usage_set in H; [|done..]. cbn -[_evidence] in H.
  rewrite (evidence_set response) in H by done. peel H.
  apply Ok_inj in H. subst r. cbn. split_and!; congruence.
Qed.

(** The terminal digest of a failure authorises its child.  After a completion that is not
    a replay, the stored row is found under the result's attempt id; for a known failure the
    digest a caller computes from the returned result is the one digest under which the row
    is an eligible parent, and a completed call is eligible under none. *)
Theorem retry_digest_agrees P c failed f rid snapshot response u L r L' d0 :
  lreachable L → complete_call P c failed f rid snapshot response u L = Ok (r, L') →
  cm_replayed r = false → model_retry_terminal_digest (inl r) = Some d0 →
  ∃ e', lg_effects L' !! cm_attempt_id r = Some e' ∧
    ∀ d, _eligible_parent e' d = Ok (failed && bool_decide (d = d0)).
Proof.
  intros Hok%reachable_ok H Hrep Hd0.
  destruct (complete_call_inv _ _ _ _ _ _ _ _ _ _ _ Hok H Hrep)
    as (ev & s & prof & e & reserved & cost & a & t1 & t2 & Hauth & _ & _ & _ & _ & _ & _ & _ & _ & -> & Hr).
  set (e' := settled_effect _ _ _ _ _ _ _ _ _) in *.
  destruct (complete_authorized_valid _ _ _ _ _ _ _ _ Hauth) as [Hev Hu].
  assert (_usage (ef_terminal e') = Ok (Some u)) as Husage by by apply usage_set.
  assert (cm_attempt_id r = ef_id e ∧ cm_provider_response_id r = rid ∧
    cm_response_evidence r = response ∧ cm_usage r = u ∧ cm_settled_nanodollars r = cost)
    as (E1 & E2 & E3 & E4 & E5) by by eapply completed_result_fields.
  exists e'. split; [rewrite E1; apply lookup_insert_eq|]. intros d.
  unfold _eligible_parent, _stored_retry_terminal_digest. cbv zeta. rewrite Husage.
  unfold model_retry_terminal_digest in Hd0. rewrite E2, E3, E4, E5 in Hd0.
  destruct failed; cbn [ef_state e' settled_effect with_outcome andb]; rewrite ?bind_Ok; [|done].
  cbn -[known_failed_facts canonical_json_hash]. rewrite Hd0, bind_oget, bind_Ok. f_equal.
  apply bool_decide_ext. naive_solver.
Qed.

(** ** The digest check of raw arguments *)

Lemma hex_not_space c : is_hex_digit c = true → ascii_space c = false.
Proof. unfold is_hex_digit, ascii_space, is_digit, in_range. lia. Qed.

Lemma hex_lower c : is_hex_digit c = true → ascii_lower c = c ∧ c < 128 ∧ c ≠ 95 ∧ c ≠ 120 ∧ c ≠ 43 ∧ c ≠ 45.
Proof.
  unfold is_hex_digit, ascii_lower, is_upper, is_digit, in_range. intros H.
  split_and!; [destruct ((65 <=? c) && (c <=? 90)) eqn:E; lia|lia..].
Qed.

Lemma hex_digits_true s : forallb is_hex_digit s = true → hex_digits true s = true.
Proof.
  induction s as [|c s IH]; [done|]. cbn. intros [Hc Hs]%andb_true_iff.
  destruct (hex_lower _ Hc) as (-> & _ & Hne & _). apply Z.eqb_neq in Hne. rewrite Hne, Hc. by apply IH.
Qed.

Lemma lstrip_hex s : forallb is_hex_digit s = true → lstrip s = s.
Proof. destruct s as [|c s]; [done|]. cbn. intros [Hc _]%andb_true_iff. by rewrite hex_not_space. Qed.

Lemma int16_ok_hex u s : forallb is_hex_digit s = true → s ≠ [] → int16_ok u s = true.
Proof.
  intros H Hne. unfold int16_ok.
  assert (int_text u s = s) as ->.
  { clear Hne. induction s as [|c s IH]; [done|]. cbn in *. apply andb_true_iff in H as [Hc Hs].
    destruct (hex_lower _ Hc) as (_ & Hlt & _). apply Z.ltb_lt in Hlt. rewrite Hlt. f_equal. by apply IH. }
  rewrite (lstrip_hex s) by done. rewrite lstrip_hex, rev_involutive.
  2:{ apply forallb_forall. intros c Hc. apply in_rev in Hc. by eapply forallb_forall in H. }
  assert (hex_digits false s = true) as Hd.
  { destruct s as [|c s]; [done|]. cbn in *. apply andb_true_iff in H as [Hc Hs].
    destruct (hex_lower _ Hc) as (-> & _ & H95 & _). apply Z.eqb_neq in H95. rewrite H95, Hc.
    by apply hex_digits_true. }
  destruct s as [|c s]; [done|].
  cbn in H. apply andb_true_iff in H as [Hc Hs]. destruct (hex_lower _ Hc) as (_ & _ & _ & _ & H43 & H45).
  apply Z.eqb_neq in H43, H45. rewrite H43, H45. cbn [orb].
  destruct s as [|x s]; [by destruct c as [|p|]; repeat (destruct p as [p|p|]; try exact Hd)|].
  cbn in Hs. apply andb_true_iff in Hs as [Hx _]. destruct (hex_lower _ Hx) as (Ex & _ & _ & H120 & _).
  rewrite Ex. apply Z.eqb_neq in H120. rewrite H120.
  by destruct c as [|p|]; repeat (destruct p as [p|p|]; try exact Hd).
Qed.

(** The raw digest check is lenient.  [_sha] returns every well-formed digest unchanged, whatever
    the Unicode database says, so no valid argument is refused; but it is not the closed check
    its comment calls it: because [int(text, 16)] takes a base prefix, a text the [Sha256]
    pattern rejects is returned as well. *)
Theorem sha_check u :
  (∀ s, digest_pattern s = true → _sha u s = Ok s) ∧
  (∃ s, _sha u s = Ok s ∧ digest_pattern s = false).
Proof.
  split.
  - intros s H. pose proof H as H'. unfold digest_pattern in H.
    apply andb_true_iff in H as [[Hp Hh]%andb_true_iff Hl]. unfold _sha.
    rewrite Hl, Hp. cbn [negb orb]. rewrite ensure_bind_true by done.
    assert (drop 7 s ≠ []) as Hne.
    { intros E. apply (f_equal length) in E. rewrite length_drop in E. unfold len in Hl. cbn in E. lia. }
    rewrite ensure_bind_true by by apply int16_ok_hex.
    rewrite ensure_bind_true; [done|]. unfold str_eqb, str_lower. apply bool_decide_eq_true_2.
    set (d := drop 7 s) in *. clearbody d. clear -Hh.
    assert (forallb (λ c, c <? 128) d = true ∧ map ascii_lower d = d) as [E1 E2].
    { induction d as [|c d IH]; [done|]. cbn in *. apply andb_true_iff in Hh as [Hc Hs].
      destruct (hex_lower _ Hc) as (E & Hlt & _). apply Z.ltb_lt in Hlt.
      destruct (IH Hs) as [E1 E2]. by rewrite Hlt, E1, E, E2. }
    by rewrite E1, E2.
  - exists (lit "sha256:0x" ++ repeat 97 62). split; vm_compute; reflexivity.
Qed.
