(* ===== verification/ModelRun.v ===== *)
(** * A run of the model ledger

    A concrete history of the ledger: a profile and a budget are provisioned, a slot is
    prepared, its call reserved and dispatched, the provider's failure settled, and a child
    attempt prepared under the failure's terminal digest.  Every operation and every digest is
    evaluated; the theorems of the ledger are applied to the ledgers of the run. *)

From stdpp Require Import relations.
From S2P Require Import Prelude Text Digest Json Instant OutboxApi OutboxStore ModelApi ModelStore.
From S2P Require Import ModelService ModelSetup ModelLedger ModelRefine ModelGuarantees.

(** The ledger a call leaves. *)
Definition final {R} (res : result ModelExn (R * Ledger)) (L : Ledger) : Ledger :=
  match res with Ok (_, L') => L' | Raise _ => L end.

Lemma final_Ok {R} (res : result ModelExn (R * Ledger)) L :
  is_ok res = true → ∃ r, res = Ok (r, final res L).
Proof. destruct res as [[r L']|]; [|done]. by exists r. Qed.

Definition sample_evidence_of (ev : uuid) (action : string) (facts : json)
    : result ModelExn ModelActionEvidence :=
  d ← oget (model_action_digest action facts) PortError;
  Ok {| ae_evidence_id := ev; ae_facts_digest := d |}.

(** Ports that authorise everything under one evidence id. *)
Definition sample_ports (ev : uuid) : ModelPorts := {|
  authorize_profile f := sample_evidence_of ev "profile" (profile_facts_json f);
  authorize_budget f := sample_evidence_of ev "budget" (budget_facts_json f);
  authorize_prepare x k sha := sample_evidence_of ev "prepare"
    (JObj [kv "execution" (execution_json isoformat x); kv "slot" (slot_key_json k);
           kv "request_sha256" (JStr sha)]);
  authorize_dispatch x a e := sample_evidence_of ev "dispatch"
    (JObj [kv "execution" (execution_json isoformat x); kv "attempt" (attempt_json a);
           kv "request_evidence" (evidence_json e)]);
  authorize_recover x f := sample_evidence_of ev "recover"
    (JObj [kv "execution" (execution_json isoformat x); kv "effect" (effect_facts_json f)]);
  authorize_observe f rid d := sample_evidence_of ev "observe"
    (JObj [kv "effect" (effect_facts_json f); kv "provider_response_id" (json_opt JStr rid);
           kv "observation_digest" (JStr d)]);
  authorize_child p i d := sample_evidence_of ev "child"
    (JObj [kv "project_id" (json_uuid p); kv "parent_attempt_id" (json_uuid i);
           kv "terminal_digest" (JStr d)]);
  authorize_complete f e d := sample_evidence_of ev "complete"
    (JObj [kv "effect" (effect_facts_json f); kv "response_evidence" (json_opt evidence_json e);
           kv "terminal_digest" (JStr d)]);
  require_current _ _ := Ok tt;
  require_recovery_current _ _ := Ok tt;
  require_request _ _ := Ok tt;
  require_response _ _ := Ok tt;
  dump_datetime := isoformat;
  unicode := {| un_decimal _ := None; un_space _ := false; un_lower s := s |};
|}.

Definition sid (n : Z) : uuid := 0x01900000000070008000000000000000 + n.

Definition sample_call (n : Z) : Call :=
  {| ca_transaction := true; ca_row_id := sid n; ca_envelope_id := sid (n + 1);
     ca_slot_id := sid (n + 2); ca_effect_id := sid (n + 3); ca_request_id := sid (n + 4);
     ca_created_at := 1000 * n; ca_now := 1000 * n + 1; ca_now2 := 1000 * n + 2;
     ca_admits _ _ := true |}.

Definition sample_profile_facts : ModelProfileProvisioningFacts :=
  {| pf_operation_id := 21; pf_actor_profile_id := 22; pf_spec := sample_spec;
     pf_profile_digest := default [] (canonical_json_hash (spec_json sample_spec)) |}.

Definition sample_budget_spec : ProjectModelBudgetConfigurationSpec :=
  {| bs_project_id := 11; bs_configuration_version := 1;
     authorized_total_nanodollars := 100000000;
     externally_reconciled_prior_spend_nanodollars := 0;
     lifetime_limit_nanodollars := 50000000 |}.

Definition sample_budget_facts : ModelBudgetProvisioningFacts :=
  {| bf_operation_id := 23; bf_actor_profile_id := 22; bf_spec := sample_budget_spec;
     bf_configuration_digest := default [] (canonical_json_hash (budget_spec_json sample_budget_spec)) |}.

Definition sha_text (c : Z) : str := lit "sha256:" ++ repeat c 64.

Definition sample_slot_key : ModelPaidSlotKey :=
  {| sk_envelope :=
       {| ek_project_id := 11; ek_assignment_id := 12; ek_submission_id := 13;
          ek_submission_version := 1; ek_requirement_id := lit "req";
          ek_registry_entry_digest := sha_text 98; ek_configuration_sha256 := sha_text 99;
          ek_profile := {| ps_profile_id := sid 16; ps_profile_version := 1;
                           ps_profile_digest := pf_profile_digest sample_profile_facts |} |};
     sk_slot_index := 0 |}.

Definition sample_execution : ModelCallExecutionFacts :=
  {| ex_project_id := 11; ex_task_id := 14; ex_assignment_id := 12; ex_submission_id := 13;
     ex_submission_version := 1; ex_evaluation_request_id := 15; ex_evaluation_generation := 1;
     ex_checker_run_id := 16; ex_worker_lease_id := 17; ex_worker_lease_generation := 1;
     ex_worker_lease_expires_at := 5000000 |}.

Definition sample_request : ModelCallEvidence :=
  {| me_binding_id := 31; me_content_id := 32; me_put_attempt_id := 33;
     me_verification_receipt_id := 34; me_content_sha256 := sha_text 100; me_byte_count := 400 |}.
Definition sample_response : ModelCallEvidence :=
  {| me_binding_id := 35; me_content_id := 36; me_put_attempt_id := 37;
     me_verification_receipt_id := 38; me_content_sha256 := sha_text 101; me_byte_count := 900 |}.

Definition ledger1 : Ledger :=
  final (provision_profile (sample_ports 41) (sample_call 16) sample_profile_facts empty_ledger) empty_ledger.
Definition ledger2 : Ledger :=
  final (provision_budget (sample_ports 42) (sample_call 32) sample_budget_facts ledger1) ledger1.
Definition ledger3 : Ledger :=
  final (prepare_attempt (sample_ports 43) (sample_call 48) sample_execution sample_slot_key
           (sha_text 100) ledger2) ledger2.

Definition sample_attempt : AttachedModelCallAttempt :=
  {| at_slot_id := sid 50; at_slot_key := sample_slot_key; at_attempt_id := sid 51;
     at_attempt_number := 1; at_internal_call_request_id := sid 52;
     at_request_sha256 := sha_text 100; at_state := ES_prepared; at_replayed := false |}.
Definition sample_effect : ModelCallEffectAuthorityFacts :=
  {| ea_project_id := 11; ea_task_id := 14; ea_slot_id := sid 50; ea_slot_key := sample_slot_key;
     ea_attempt_id := sid 51; ea_internal_call_request_id := sid 52 |}.

Definition ledger4 : Ledger :=
  final (reserve_dispatch (sample_ports 44) (sample_call 64) sample_execution sample_attempt
           sample_request ledger3) ledger3.
Definition failed_call : result ModelExn (CompletedModelCall * Ledger) :=
  complete_known_failure (sample_ports 45) (sample_call 80) sample_effect (lit "resp1")
    (lit "model-2026-01-01") sample_response sample_usage ledger4.
Definition ledger5 : Ledger := final failed_call ledger4.

Definition terminal_digest_of (res : result ModelExn (CompletedModelCall * Ledger)) : str :=
  match res with
  | Ok (r, _) => default [] (model_retry_terminal_digest (inl r))
  | Raise _ => []
  end.
Definition retry_digest : str := terminal_digest_of failed_call.
Definition ledger6 : Ledger :=
  final (prepare_recovery_child (sample_ports 46) (sample_call 96) sample_slot_key (sid 51)
           retry_digest (sha_text 100) ledger5) ledger5.

(** ** Tests of a ledger *)

Definition fresh_digest (res : result ModelExn (CompletedModelCall * Ledger)) (d : str) : bool :=
  match res with
  | Ok (r, _) => negb (cm_replayed r)
                 && bool_decide (model_retry_terminal_digest (inl r) = Some d)
  | Raise _ => false
  end.

(** The settlement of attempt [i], as [complete] would write it. *)
Definition settles (L : Ledger) (c : Call) (i slot : uuid) (f : ModelCallEffectAuthorityFacts)
    (reserved cost ev : Z) : bool :=
  match lg_effects L !! i, lg_slots L !! slot, lg_accounts L !! slot_project sample_slot_key with
  | Some e, Some s, Some a =>
      pending e && bool_decide (ef_checker_slot_id e = Some slot)
      && bool_decide (ef_provider_response_id e = None) && bool_decide (f = _effect s e)
      && bool_decide (cs_id s = slot) && bool_decide (ef_reserved e = Some reserved)
      && bool_decide (cs_key s = sample_slot_key)
      && effect_row_ok (settled_effect e false (lit "resp1") sample_response sample_usage cost ev
                          (ca_now c) (ca_now c)) L
      && account_row_ok (move_account a (- reserved) cost) L
  | _, _, _ => false
  end.

Definition profile_reads (L : Ledger) (k : ModelProfileSelector) (spec : ProjectModelProfileSpec) : bool :=
  match profile_exact k L with
  | Some row => match stored_model_profile row with
                | Ok prof => bool_decide (pp_spec prof = spec)
                | Raise _ => false
                end
  | None => false
  end.

Definition envelope_reads (L : Ledger) (i : uuid) (spec : ProjectModelProfileSpec) : bool :=
  match lg_envelopes L !! i with
  | Some env => profile_reads L (ek_profile (ce_key env)) spec
  | None => false
  end.

Definition account_is (L : Ledger) (p : uuid) (reserved settled : Z) : bool :=
  match lg_accounts L !! p with
  | Some a => (ba_lifetime_reserved_nanodollars a =? reserved)
              && (ba_lifetime_settled_nanodollars a =? settled)
  | None => false
  end.

Definition evidence_is (n : Z) (res : result ModelExn ModelActionEvidence) : bool :=
  match res with Ok ev => ae_evidence_id ev =? n | Raise _ => false end.

Definition siblings (L : Ledger) (i j : uuid) : bool :=
  match lg_effects L !! i, lg_effects L !! j with
  | Some e, Some e' => terminal (ef_state e) && bool_decide (slot_of e = slot_of e')
  | _, _ => false
  end.

Lemma profile_reads_published L k spec : profile_reads L k spec = true → published L k spec.
Proof.
  unfold profile_reads, published. destruct (profile_exact k L) as [row|] eqn:E; [|done].
  destruct (stored_model_profile row) as [prof|] eqn:E'; [|done]. intros H%bool_decide_eq_true_1.
  by exists row, prof.
Qed.

Lemma envelope_reads_published L i spec :
  envelope_reads L i spec = true →
  ∃ env, lg_envelopes L !! i = Some env ∧ published L (ek_profile (ce_key env)) spec.
Proof.
  unfold envelope_reads. destruct (lg_envelopes L !! i) as [env|]; [|done].
  intros H%profile_reads_published. by exists env.
Qed.

Lemma account_is_spec L p r s :
  account_is L p r s = true →
  ∃ a, lg_accounts L !! p = Some a ∧ ba_lifetime_reserved_nanodollars a = r
       ∧ ba_lifetime_settled_nanodollars a = s.
Proof.
  unfold account_is. destruct (lg_accounts L !! p) as [a|]; [|done]. intros H. exists a.
  split; [done|lia].
Qed.

Lemma siblings_spec L i j :
  siblings L i j = true →
  ∃ e e', lg_effects L !! i = Some e ∧ lg_effects L !! j = Some e' ∧ terminal (ef_state e) = true
          ∧ slot_of e = slot_of e'.
Proof.
  unfold siblings. destruct (lg_effects L !! i) as [e|], (lg_effects L !! j) as [e'|]; try done.
  intros [H1 H2%bool_decide_eq_true_1]%andb_true_iff. by exists e, e'.
Qed.

Lemma fresh_digest_spec res d L0 :
  fresh_digest res d = true →
  ∃ r, res = Ok (r, final res L0) ∧ cm_replayed r = false
       ∧ model_retry_terminal_digest (inl r) = Some d.
Proof.
  destruct res as [[r L]|]; [|done]. cbn [fresh_digest final].
  intros [H1%negb_true_iff H2%bool_decide_eq_true_1]%andb_true_iff. by exists r.
Qed.

Lemma settles_spec L c i slot f reserved cost ev :
  settles L c i slot f reserved cost ev = true →
  ∃ e s a, lg_effects L !! i = Some e ∧ lg_slots L !! slot = Some s
    ∧ lg_accounts L !! slot_project sample_slot_key = Some a
    ∧ pending e = true ∧ ef_checker_slot_id e = Some slot ∧ ef_provider_response_id e = None
    ∧ f = _effect s e ∧ cs_id s = slot ∧ ef_reserved e = Some reserved ∧ cs_key s = sample_slot_key
    ∧ effect_row_ok (settled_effect e false (lit "resp1") sample_response sample_usage cost ev
                       (ca_now c) (ca_now c)) L = true
    ∧ account_row_ok (move_account a (- reserved) cost) L = true.
Proof.
  unfold settles. destruct (lg_effects L !! i) as [e|], (lg_slots L !! slot) as [s|],
    (lg_accounts L !! slot_project sample_slot_key) as [a|]; try done.
  rewrite !andb_true_iff, !bool_decide_eq_true. intros H. exists e, s, a. tauto.
Qed.

(** ** The run *)

(** The run, evaluated once: every operation of it succeeds, and its ledgers hold the rows the
    theorems below speak of. *)
Definition run_tests : list bool :=
  [is_ok (provision_profile (sample_ports 41) (sample_call 16) sample_profile_facts empty_ledger);
   is_ok (provision_budget (sample_ports 42) (sample_call 32) sample_budget_facts ledger1);
   is_ok (prepare_attempt (sample_ports 43) (sample_call 48) sample_execution sample_slot_key
            (sha_text 100) ledger2);
   is_ok (reserve_dispatch (sample_ports 44) (sample_call 64) sample_execution sample_attempt
            sample_request ledger3);
   is_ok failed_call;
   is_ok (prepare_recovery_child (sample_ports 46) (sample_call 96) sample_slot_key (sid 51)
            retry_digest (sha_text 100) ledger5);
   settles ledger4 (sample_call 80) (sid 51) (sid 50) sample_effect 10500000 4590000 45;
   profile_reads ledger4 (slot_profile sample_slot_key) sample_spec;
   evidence_is 45 (complete_authorized (sample_ports 45) false sample_effect (lit "resp1")
                     (lit "model-2026-01-01") sample_response sample_usage);
   envelope_reads ledger5 (sid 49) sample_spec;
   account_is ledger5 11 0 4590000;
   siblings ledger6 (sid 51) (sid 99);
   fresh_digest failed_call retry_digest].

Lemma run_evaluates : run_tests = repeat true 13.
Proof. vm_compute. reflexivity. Qed.

(** Each test by its position. *)
Lemma run_test n b : nth_error run_tests n = Some b → (n < 13)%nat → b = true.
Proof.
  intros H Hn. rewrite run_evaluates in H. apply nth_error_In, repeat_spec in H. done.
Qed.

#[local] Strategy expand [ledger1 ledger2 ledger3 ledger4 ledger5 ledger6 failed_call
  complete_known_failure].
#[local] Strategy opaque [final].

Lemma step1 : lstep empty_ledger ledger1.
Proof. destruct (final_Ok _ empty_ledger (run_test 0 _ eq_refl ltac:(lia))) as [r H]. exact (st_provision_profile _ _ _ _ _ _ H). Qed.
Lemma step2 : lstep ledger1 ledger2.
Proof. destruct (final_Ok _ ledger1 (run_test 1 _ eq_refl ltac:(lia))) as [r H]. exact (st_provision_budget _ _ _ _ _ _ H). Qed.
Lemma step3 : lstep ledger2 ledger3.
Proof. destruct (final_Ok _ ledger2 (run_test 2 _ eq_refl ltac:(lia))) as [r H]. exact (st_prepare _ _ _ _ _ _ _ _ H). Qed.
Lemma step4 : lstep ledger3 ledger4.
Proof. destruct (final_Ok _ ledger3 (run_test 3 _ eq_refl ltac:(lia))) as [r H]. exact (st_reserve _ _ _ _ _ _ _ _ H). Qed.
Lemma step5 : lstep ledger4 ledger5.
Proof. destruct (final_Ok _ ledger4 (run_test 4 _ eq_refl ltac:(lia))) as [r H]. exact (st_complete ledger4 ledger5 (sample_ports 45) (sample_call 80) true sample_effect (lit "resp1")
           (lit "model-2026-01-01") sample_response sample_usage r H). Qed.
Lemma step6 : lstep ledger5 ledger6.
Proof. destruct (final_Ok _ ledger5 (run_test 5 _ eq_refl ltac:(lia))) as [r H]. exact (st_child _ _ _ _ _ _ _ _ _ H). Qed.

Lemma ledger4_reachable : lreachable ledger4.
Proof.
  exact (rtc_l _ _ _ _ step1 (rtc_l _ _ _ _ step2 (rtc_l _ _ _ _ step3 (rtc_once _ _ step4)))).
Qed.
Lemma ledger5_reachable : lreachable ledger5.
Proof. exact (rtc_r _ _ _ ledger4_reachable step5). Qed.
Lemma ledger6_reachable : lreachable ledger6.
Proof. exact (rtc_r _ _ _ ledger5_reachable step6). Qed.

Lemma failed_call_fresh :
  ∃ r, complete_call (sample_ports 45) (sample_call 80) true sample_effect (lit "resp1")
         (lit "model-2026-01-01") sample_response sample_usage ledger4 = Ok (r, ledger5)
       ∧ cm_replayed r = false ∧ model_retry_terminal_digest (inl r) = Some retry_digest.
Proof.
  destruct (fresh_digest_spec _ _ ledger4 (run_test 12 _ eq_refl ltac:(lia))) as (r & H & Hr & Hd).
  exact (ex_intro _ r (conj H (conj Hr Hd))).
Qed.

(** ** The theorems at the run's ledgers *)

#[local] Opaque ledger1 ledger2 ledger3 ledger4 ledger5 ledger6 failed_call retry_digest sample_ports.

Lemma budget_conserved_witness :
  lreachable ledger5 ∧
  ∃ a, lg_accounts ledger5 !! 11 = Some a ∧ reserved_in ledger5 11 = 0 ∧ settled_in ledger5 11 = 4590000.
Proof.
  split; [exact ledger5_reachable|].
  destruct (account_is_spec ledger5 11 0 4590000 (run_test 10 _ eq_refl ltac:(lia))) as (a & Ha & Hr & Hs).
  pose proof (budget_conserved ledger5 11 ledger5_reachable) as H. rewrite Ha in H.
  destruct H as (E1 & E2 & _). exists a. split; [exact Ha|]. split; congruence.
Defined.

Lemma run_ceilings_witness :
  lreachable ledger5 ∧ run_bounded (envelope_totals (sid 49) ledger5) sample_spec.
Proof.
  split; [exact ledger5_reachable|].
  destruct (envelope_reads_published ledger5 (sid 49) sample_spec (run_test 9 _ eq_refl ltac:(lia)))
    as (env & He & Hp).
  exact (proj1 (run_ceilings ledger5 sample_spec ledger5_reachable) (sid 49) env He Hp).
Defined.

Lemma retry_after_failure_witness :
  ∃ e f, lg_effects ledger6 !! sid 51 = Some e ∧ lg_effects ledger6 !! sid 99 = Some f ∧
    (retryable (ef_state e) = true ∨ retryable (ef_state f) = true).
Proof.
  destruct (siblings_spec ledger6 (sid 51) (sid 99) (run_test 11 _ eq_refl ltac:(lia)))
    as (e & f & He & Hf & _ & Hs). exists e, f. split; [exact He|]. split; [exact Hf|].
  assert (sid 51 ≠ sid 99) as Hne by (unfold sid; lia).
  destruct (retry_after_failure ledger6 (sid 51) (sid 99) e f ledger6_reachable He Hf Hs Hne)
    as [(_ & H & _)|(_ & H & _)]; [left|right]; exact H.
Defined.

Lemma settled_is_final_witness :
  ∃ e, lg_effects ledger6 !! sid 51 = Some e ∧ terminal (ef_state e) = true ∧
  ∀ L, rtc lstep ledger6 L → lg_effects L !! sid 51 = Some e.
Proof.
  destruct (siblings_spec ledger6 (sid 51) (sid 99) (run_test 11 _ eq_refl ltac:(lia)))
    as (e & f & He & _ & Ht & _).
  exists e. split; [exact He|]. split; [exact Ht|]. intros L HL.
  destruct (settled_is_final ledger6 L (sid 51) e ledger6_reachable HL He) as (e' & He' & _ & _ & _ & H).
  rewrite (H Ht) in He'. exact He'.
Defined.

Lemma complete_idempotent_witness :
  ∃ r, ∀ c, ca_transaction c = true →
    complete_call (sample_ports 45) c true sample_effect (lit "resp1") (lit "model-2026-01-01")
      sample_response sample_usage ledger5 = Ok (with_replayed true r, ledger5).
Proof.
  destruct failed_call_fresh as (r & H & Hr & _). exists r.
  exact (proj2 (complete_idempotent _ _ _ _ _ _ _ _ _ _ _ ledger4_reachable H Hr)).
Defined.

Lemma retry_digest_agrees_witness :
  ∃ i e, lg_effects ledger5 !! i = Some e ∧ _eligible_parent e retry_digest = Ok true.
Proof.
  destruct failed_call_fresh as (r & H & Hr & Hd).
  destruct (retry_digest_agrees _ _ _ _ _ _ _ _ _ _ _ _ ledger4_reachable H Hr Hd) as (e & He & Hel).
  exists (cm_attempt_id r), e. split; [exact He|]. rewrite Hel, bool_decide_eq_true_2; reflexivity.
Defined.

Lemma pending_can_settle_witness :
  ∃ r L, complete_call (sample_ports 45) (sample_call 80) false sample_effect (lit "resp1")
           (lit "model-2026-01-01") sample_response sample_usage ledger4 = Ok (r, L)
         ∧ cm_replayed r = false.
Proof.
  destruct (settles_spec _ _ _ _ _ _ _ _ (run_test 6 _ eq_refl ltac:(lia)))
    as (e & s & a & He & Hs & Ha & Hpend & Hes & Hnone & Hf & Hsid & Hres & Hkey & Hrow & Hacc).
  pose proof (run_test 8 _ eq_refl ltac:(lia)) as Hauth.
  destruct (complete_authorized _ _ _ _ _ _ _) as [ev|] eqn:Hev; [|discriminate Hauth].
  apply Z.eqb_eq in Hauth.
  refine (pending_can_settle (sample_ports 45) (sample_call 80) false sample_effect (lit "resp1") _
            sample_response sample_usage ledger4 e s sample_spec ev ledger4_reachable He Hpend
            _ _ Hf _ Hev eq_refl eq_refl _ _ _ _ _).
  - rewrite Hsid. exact Hs.
  - rewrite Hsid. exact Hes.
  - rewrite Hkey. exact (profile_reads_published _ _ _ (run_test 7 _ eq_refl ltac:(lia))).
  - vm_compute. discriminate.
  - vm_compute. discriminate.
  - vm_compute. discriminate.
  - rewrite Hnone. exact I.
  - intros cost a' reserved' Hcost Ha' Hres'. rewrite Hkey, Ha in Ha'. apply Some_inj in Ha' as <-.
    rewrite Hres in Hres'. apply Some_inj in Hres' as <-.
    assert (cost = 4590000) as -> by (vm_compute in Hcost; congruence).
    rewrite Hauth. unfold update_effect, flush. cbv zeta. rewrite Hrow, Hacc. reflexivity.
Defined.
