(* ===== verification/ZipSafety.v ===== *)
(** * The ZIP directory envelope (core/zip_safety.py)

    [zip_directory_layout] reads the end-of-central-directory records of an archive from at
    most its last 65,557 bytes, before anything is allocated for its inventory.  A seekable
    reader is the list of its bytes; [read_at] is a seek followed by a read, which is short
    at the end of the file.  Main results: an accepted layout lies inside the file, its
    directory ends exactly where its end record begins and nothing follows the comment; and
    the layout of an archive written with an end record is read back. *)

From S2P Require Import Prelude Text.

(** ** Readers and [struct] *)

(** [source.seek(pos); source.read(n)] *)
Definition read_at (source : bytes) (pos n : Z) : bytes :=
  take (Z.to_nat n) (drop (Z.to_nat pos) source).

(** [struct.unpack_from] of one little-endian field of [k] bytes *)
Definition field (b : bytes) (pos k : Z) : Z := from_bytes_le (read_at b pos k).

(** [bytes.rfind] of a non-empty pattern *)
Fixpoint rfind (p s : bytes) : option nat :=
  match s with
  | [] => None
  | _ :: s' =>
      match rfind p s' with
      | Some i => Some (S i)
      | None => if starts_with p s then Some O else None
      end
  end.

Definition _EOCD : bytes := [0x50; 0x4b; 5; 6].
Definition _ZIP64_LOCATOR : bytes := [0x50; 0x4b; 6; 7].
Definition _ZIP64_EOCD : bytes := [0x50; 0x4b; 6; 6].

(** [zipfile.BadZipFile], and the error of a seek beyond the largest file offset *)
Inductive ZipExn :=
| BadZipFile (reason : string)
| SeekError.

Record ZipDirectoryLayout := {
  entry_count : Z;
  directory_bytes : Z;
  directory_offset : Z;
  end_record_offset : Z;
}.

Definition max_tail : Z := 65557.

(** The zip64 records before an end record at [absolute_marker]. *)
Definition zip64_layout (source : bytes) (absolute_marker : Z) : result ZipExn ZipDirectoryLayout :=
  _ ← ensure (negb (absolute_marker <? 20)) (BadZipFile "missing zip64 locator");
  let locator := read_at source (absolute_marker - 20) 20 in
  _ ← ensure (negb (negb (len locator =? 20) || negb (str_eqb (take 4 locator) _ZIP64_LOCATOR)))
        (BadZipFile "missing zip64 locator");
  let locator_disk := field locator 4 4 in
  let record_offset := field locator 8 8 in
  let disk_count := field locator 16 4 in
  _ ← ensure (negb (negb (locator_disk =? 0) || negb (disk_count =? 1)))
        (BadZipFile "multi-disk archive");
  _ ← ensure (record_offset <? 2 ^ 63) SeekError;
  let record := read_at source record_offset 56 in
  _ ← ensure (negb ((len record <? 56) || negb (str_eqb (take 4 record) _ZIP64_EOCD)))
        (BadZipFile "missing zip64 end record");
  let record_disk := field record 16 4 in
  let directory_record_disk := field record 20 4 in
  let disk_entries64 := field record 24 8 in
  let entries64 := field record 32 8 in
  let directory_bytes64 := field record 40 8 in
  let directory_offset64 := field record 48 8 in
  _ ← ensure (negb (negb (record_disk =? 0) || negb (directory_record_disk =? 0)
                    || negb (disk_entries64 =? entries64))) (BadZipFile "multi-disk archive");
  _ ← ensure (directory_offset64 + directory_bytes64 =? record_offset)
        (BadZipFile "central directory offset disagreement");
  Ok {| entry_count := entries64; directory_bytes := directory_bytes64;
        directory_offset := directory_offset64; end_record_offset := record_offset |}.

Definition zip_directory_layout (source : bytes) (allow_zip64 : bool)
    : result ZipExn ZipDirectoryLayout :=
  let size := len source in
  let start := Z.max 0 (size - max_tail) in
  let tail := read_at source start max_tail in
  marker ← oget (Z.of_nat <$> rfind _EOCD tail) (BadZipFile "missing end of central directory");
  _ ← ensure (negb (len tail - marker <? 22)) (BadZipFile "missing end of central directory");
  let absolute_marker := start + marker in
  let comment_bytes := field tail (marker + 20) 2 in
  _ ← ensure (marker + 22 + comment_bytes =? len tail) (BadZipFile "trailing archive content");
  let disk := field tail (marker + 4) 2 in
  let directory_disk := field tail (marker + 6) 2 in
  let entries := field tail (marker + 10) 2 in
  let directory_bytes := field tail (marker + 12) 4 in
  let directory_offset := field tail (marker + 16) 4 in
  _ ← ensure (negb (negb (disk =? 0) || negb (directory_disk =? 0)))
        (BadZipFile "multi-disk archive");
  if negb (entries =? 0xFFFF) && negb (directory_bytes =? 0xFFFFFFFF) then
    _ ← ensure (directory_offset + directory_bytes =? absolute_marker)
          (BadZipFile "central directory offset disagreement");
    Ok {| entry_count := entries; directory_bytes := directory_bytes;
          directory_offset := directory_offset; end_record_offset := absolute_marker |}
  else
    _ ← ensure allow_zip64 (BadZipFile "zip64 archive is unsupported");
    zip64_layout source absolute_marker.

Definition zip_directory_facts (source : bytes) (allow_zip64 : bool) : result ZipExn (Z * Z) :=
  layout ← zip_directory_layout source allow_zip64;
  Ok (entry_count layout, directory_bytes layout).

(** ** Reading *)

Lemma len_pos s : 0 ≤ len s.
Proof. unfold len. lia. Qed.

Lemma read_at_length s pos n : 0 ≤ n → len (read_at s pos n) ≤ n.
Proof. intros. unfold read_at, len. rewrite length_take. lia. Qed.

Lemma read_at_inside s pos n : 0 ≤ pos → 0 < n → len (read_at s pos n) = n → pos + n ≤ len s.
Proof. intros Hp Hn. unfold read_at, len. rewrite length_take, length_drop. lia. Qed.

Lemma read_at_bytes s pos n : forallb is_byte s = true → forallb is_byte (read_at s pos n) = true.
Proof.
  unfold read_at. rewrite !forallb_forall. intros H x Hx. apply H.
  apply list_elem_of_In, elem_of_take in Hx as (i & Hx & _). rewrite lookup_drop in Hx.
  apply list_elem_of_In. by eapply list_elem_of_lookup_2.
Qed.

Lemma field_bound b pos k :
  forallb is_byte b = true → 0 ≤ k → 0 ≤ field b pos k < 256 ^ k.
Proof.
  intros Hb Hk. unfold field.
  destruct (from_bytes_le_bound (read_at b pos k)) as [H1 H2]; [by apply read_at_bytes|].
  split; [done|]. eapply Z.lt_le_trans; [done|]. apply Z.pow_le_mono_r; [lia|].
  by apply read_at_length.
Qed.

Lemma rfind_Some p s i :
  rfind p s = Some i → starts_with p (drop i s) = true ∧ rfind p (drop (S i) s) = None ∧ (i < length s)%nat.
Proof.
  revert i. induction s as [|x s IH]; intros i; [done|]. cbn [rfind length].
  destruct (rfind p s) as [j|] eqn:E.
  - intros [= <-]. destruct (IH j eq_refl) as (H1 & H2 & H3). cbn [drop]. split_and!; [done..|lia].
  - destruct (starts_with p (x :: s)) eqn:Hs; [|done]. intros [= <-]. cbn. rewrite drop_0.
    split_and!; [done..|lia].
Qed.

Lemma rfind_app p a b :
  p ≠ [] → starts_with p b = true → rfind p (drop 1 b) = None → rfind p (a ++ b) = Some (length a).
Proof.
  intros Hp Hs Hn. induction a as [|x a IH].
  - destruct b as [|y b]; [by destruct p|]. cbn in Hn. rewrite drop_0 in Hn. cbn. by rewrite Hn, Hs.
  - cbn. by rewrite IH.
Qed.

(** ** What an accepted layout says of the file *)

(** An end record at [m]: its signature, its own size and its comment fill the file. *)
Record ends_at (source : bytes) (m : Z) : Prop := {
  ea_inside : 0 ≤ m ∧ m + 22 ≤ len source;
  ea_signature : starts_with _EOCD (drop (Z.to_nat m) source) = true;
  ea_tail : len source - m ≤ max_tail;
  ea_comment : m + 22 + field source (m + 20) 2 = len source;
}.

Lemma read_at_drop s start pos n :
  0 ≤ start → 0 ≤ pos → pos + n ≤ max_tail →
  read_at (read_at s start max_tail) pos n = read_at s (start + pos) n.
Proof.
  intros Hs Hp Hn. unfold read_at. rewrite skipn_firstn_comm, take_take, drop_drop.
  f_equal; [|f_equal]; lia.
Qed.

Lemma field_drop s start pos n :
  0 ≤ start → 0 ≤ pos → pos + n ≤ max_tail →
  field (read_at s start max_tail) pos n = field s (start + pos) n.
Proof. intros. unfold field. by rewrite read_at_drop. Qed.

Lemma tail_length s : len (read_at s (Z.max 0 (len s - max_tail)) max_tail) = Z.min (len s) max_tail.
Proof. unfold read_at, len, max_tail. rewrite length_take, length_drop. lia. Qed.

Lemma starts_with_tail p s start m :
  0 ≤ start → 0 ≤ m → starts_with p (drop (Z.to_nat m) (read_at s start max_tail)) = true →
  starts_with p (drop (Z.to_nat (start + m)) s) = true.
Proof.
  intros Hs Hm H. unfold read_at in H. rewrite skipn_firstn_comm, drop_drop in H.
  replace (Z.to_nat (start + m)) with (Z.to_nat start + Z.to_nat m)%nat by lia.
  revert H. generalize (drop (Z.to_nat start + Z.to_nat m) s) as l.
  generalize (Z.to_nat max_tail - Z.to_nat m)%nat as k.
  induction p as [|x p IH]; intros k l; [by destruct l|].
  destruct k; [done|]. destruct l as [|y l]; [done|]. cbn. intros [-> H]%andb_true_iff. by eapply IH.
Qed.

Lemma zip64_layout_sound source m layout :
  forallb is_byte source = true → zip64_layout source m = Ok layout →
  0 ≤ entry_count layout < 2 ^ 64 ∧ 0 ≤ directory_offset layout ∧ 0 ≤ directory_bytes layout ∧
  directory_offset layout + directory_bytes layout = end_record_offset layout ∧
  end_record_offset layout + 56 ≤ len source ∧
  read_at source (end_record_offset layout) 4 = _ZIP64_EOCD.
Proof.
  intros Hb H. unfold zip64_layout in H. cbv zeta in H.
  apply ensure_bind_Ok in H as [_ H]. apply ensure_bind_Ok in H as [_ H].
  apply ensure_bind_Ok in H as [_ H]. apply ensure_bind_Ok in H as [_ H].
  set (loc := read_at source (m - 20) 20) in *. set (off := field loc 8 8) in *.
  assert (forallb is_byte loc = true) as Hl by by apply read_at_bytes.
  destruct (field_bound loc 8 8 Hl) as [Hoff _]; [lia|]. fold off in Hoff. clearbody off.
  set (rec := read_at source off 56) in *.
  assert (forallb is_byte rec = true) as Hr by by apply read_at_bytes.
  apply ensure_bind_Ok in H as [Hsig H]. apply ensure_bind_Ok in H as [_ H].
  apply ensure_bind_Ok in H as [Hsum H]. apply Ok_inj in H. subst layout.
  cbn [entry_count directory_offset directory_bytes end_record_offset].
  apply negb_true_iff, orb_false_iff in Hsig as [Hlen%Z.ltb_ge Hsig%negb_false_iff].
  apply bool_decide_eq_true_1 in Hsig. apply Z.eqb_eq in Hsum.
  pose proof (field_bound rec 32 8 Hr). pose proof (field_bound rec 40 8 Hr).
  pose proof (field_bound rec 48 8 Hr).
  assert (len rec = 56) as Elen by (pose proof (read_at_length source off 56); subst rec; lia).
  split_and!; try lia.
  - subst rec. apply read_at_inside in Elen; lia.
  - rewrite <- Hsig. unfold rec, read_at. rewrite take_take. f_equal.
Qed.

(** The steps every accepted archive passed. *)
Lemma layout_inv source allow layout :
  forallb is_byte source = true → zip_directory_layout source allow = Ok layout →
  ∃ m, ends_at source m ∧
    ((end_record_offset layout = m ∧ directory_offset layout + directory_bytes layout = m ∧
      entry_count layout = field source (m + 10) 2 ∧ directory_bytes layout = field source (m + 12) 4 ∧
      directory_offset layout = field source (m + 16) 4)
     ∨ (allow = true ∧ zip64_layout source m = Ok layout)).
Proof.
  intros Hb H. unfold zip_directory_layout in H. cbv zeta in H.
  set (start := Z.max 0 (len source - max_tail)) in *.
  set (tail := read_at source start max_tail) in *.
  assert (len tail = Z.min (len source) max_tail) as Htail by apply tail_length.
  apply result_bind_Ok in H as (marker & Hm & H). apply oget_Ok in Hm.
  destruct (rfind _EOCD tail) as [i|] eqn:Ei; [|done]. cbn in Hm. apply Some_inj in Hm as <-.
  destruct (rfind_Some _ _ _ Ei) as (Hsig & _ & Hi).
  apply ensure_bind_Ok in H as [H22%negb_true_iff H]. apply Z.ltb_ge in H22.
  apply ensure_bind_Ok in H as [Hc%Z.eqb_eq H].
  assert (0 ≤ start) by (subst start; lia).
  assert (∀ k n, 0 ≤ k → 0 ≤ n → k + n ≤ 22 →
    field tail (Z.of_nat i + k) n = field source (start + Z.of_nat i + k) n) as Hf.
  { intros k n Hk Hn Hkn. subst tail. rewrite field_drop; [|lia..]. f_equal. lia. }
  rewrite !Hf in H by lia. rewrite Hf in Hc by lia.
  exists (start + Z.of_nat i). split.
  - assert (start + len tail = len source) as Hend by (subst start; lia).
    split; [lia| |lia|lia].
    apply starts_with_tail; [lia..|]. subst tail. by rewrite Nat2Z.id.
  - apply ensure_bind_Ok in H as [_ H]. destruct (_ && _) in H.
    + left. apply ensure_bind_Ok in H as [Hs%Z.eqb_eq H]. apply Ok_inj in H. by subst layout.
    + right. by apply ensure_bind_Ok in H as [Ha H].
Qed.

(** An accepted layout is exact.  For any file of bytes: the file ends with one end record
    and its comment, at most 65,557 bytes from the end; the entry count and the directory lie
    inside the file, and the directory ends exactly where the layout's end record begins,
    which carries the signature of that record (the zip64 record only when zip64 is allowed),
    so no byte between the directory and its end record escapes the inventory. *)
Theorem layout_sound source allow layout :
  forallb is_byte source = true → zip_directory_layout source allow = Ok layout →
  (∃ m, ends_at source m ∧ (allow = false → end_record_offset layout = m)) ∧
  0 ≤ directory_offset layout ∧ 0 ≤ directory_bytes layout ∧ 0 ≤ entry_count layout ∧
  directory_offset layout + directory_bytes layout = end_record_offset layout ∧
  end_record_offset layout + 22 ≤ len source ∧
  (read_at source (end_record_offset layout) 4 = _EOCD ∨
   allow = true ∧ read_at source (end_record_offset layout) 4 = _ZIP64_EOCD).
Proof.
  intros Hb H. destruct (layout_inv _ _ _ Hb H) as (m & Hends & [(Em & Hs & E1 & E2 & E3)|[Ha Hz]]).
  - split; [by exists m|]. rewrite E1, Em, Hs.
    pose proof (field_bound source (m + 10) 2 Hb). pose proof (field_bound source (m + 12) 4 Hb).
    pose proof (field_bound source (m + 16) 4 Hb). destruct Hends as [Hin Hsig _ _].
    split_and!; try lia. left. exact (starts_with_take _ _ Hsig).
  - destruct (zip64_layout_sound _ _ _ Hb Hz) as (? & ? & ? & ? & ? & ?).
    split; [exists m; split; [done|congruence]|]. split_and!; try lia. by right.
Qed.

(** ** Archives written with an end record *)

(** [int.to_bytes(k, "little")] *)
Fixpoint to_bytes_le (k : nat) (n : Z) : bytes :=
  match k with
  | O => []
  | S k' => n mod 256 :: to_bytes_le k' (n / 256)
  end.

Lemma to_bytes_le_length k n : length (to_bytes_le k n) = k.
Proof. revert n. induction k; intros; cbn; auto. Qed.

Lemma from_to_bytes_le k n : 0 ≤ n < 256 ^ Z.of_nat k → from_bytes_le (to_bytes_le k n) = n.
Proof.
  revert n. induction k as [|k IH]; intros n; [cbn; lia|].
  rewrite Nat2Z.inj_succ, Z.pow_succ_r by lia. intros Hn. cbn [to_bytes_le from_bytes_le].
  rewrite IH; [pose proof (Z.div_mod n 256); lia|]. split; [apply Z.div_pos; lia|].
  apply Z.div_lt_upper_bound; lia.
Qed.

(** The end record of a single-disk archive with [n] entries, as [zipfile] writes it. *)
Definition end_record (n size offset : Z) (comment : bytes) : bytes :=
  _EOCD ++ to_bytes_le 2 0 ++ to_bytes_le 2 0 ++ to_bytes_le 2 n ++ to_bytes_le 2 n
  ++ to_bytes_le 4 size ++ to_bytes_le 4 offset ++ to_bytes_le 2 (len comment) ++ comment.

Lemma field_app a b c k n :
  len a = k → len b = n → field (a ++ b ++ c) k n = from_bytes_le b.
Proof.
  unfold field, read_at, len. intros <- <-. rewrite !Nat2Z.id, drop_app_length, take_app_length. done.
Qed.

Lemma end_record_fields n size offset comment :
  let r := end_record n size offset comment in
  field r 4 2 = from_bytes_le (to_bytes_le 2 0) ∧ field r 6 2 = from_bytes_le (to_bytes_le 2 0) ∧
  field r 10 2 = from_bytes_le (to_bytes_le 2 n) ∧ field r 12 4 = from_bytes_le (to_bytes_le 4 size) ∧
  field r 16 4 = from_bytes_le (to_bytes_le 4 offset) ∧
  field r 20 2 = from_bytes_le (to_bytes_le 2 (len comment)).
Proof. split_and!; reflexivity. Qed.

Lemma field_skip a r k n : 0 ≤ k → field (a ++ r) (len a + k) n = field r k n.
Proof.
  intros Hk. unfold field, read_at. do 2 f_equal. unfold len.
  replace (Z.to_nat (Z.of_nat (length a) + k)) with (length a + Z.to_nat k)%nat by lia.
  rewrite <- drop_drop. by rewrite drop_app_length.
Qed.

Lemma tail_of_record pre r :
  len r ≤ max_tail →
  let size := len (pre ++ r) in let start := Z.max 0 (size - max_tail) in
  read_at (pre ++ r) start max_tail = drop (Z.to_nat start) pre ++ r ∧
  start + len (drop (Z.to_nat start) pre) = len pre.
Proof.
  unfold read_at, len, max_tail. rewrite !length_app. intros Hr. cbv zeta.
  set (k := Z.to_nat (0 `max` _)). assert (k ≤ length pre)%nat by (subst k; lia).
  rewrite length_drop. split; [|subst k; lia].
  rewrite drop_app_le by lia. apply take_ge. rewrite length_app, length_drop. subst k. lia.
Qed.

(** Layouts are read back.  An archive that consists of local records, a central directory
    and the end record of a single-disk archive is read as that directory, provided the counts
    fit their fields without the zip64 escape values and no second end-record signature occurs
    inside the record's fields and comment. *)
Theorem layout_roundtrip body dir n comment allow :
  0 ≤ n < 0xFFFF → len dir < 0xFFFFFFFF → len body < 2 ^ 32 → len comment < 2 ^ 16 →
  rfind _EOCD (drop 1 (end_record n (len dir) (len body) comment)) = None →
  zip_directory_layout (body ++ dir ++ end_record n (len dir) (len body) comment) allow =
  Ok {| entry_count := n; directory_bytes := len dir; directory_offset := len body;
        end_record_offset := len body + len dir |}.
Proof.
  intros Hn Hd Hb Hc Hfind. set (r := end_record n (len dir) (len body) comment) in *.
  destruct (end_record_fields n (len dir) (len body) comment) as (F1 & F2 & F3 & F4 & F5 & F6).
  fold r in F1, F2, F3, F4, F5, F6.
  pose proof (len_pos dir). pose proof (len_pos body). pose proof (len_pos comment).
  rewrite from_to_bytes_le in F1, F2, F3, F4, F5, F6 by (cbn; lia).
  assert (len r = 22 + len comment) as Hr by (unfold r, end_record, len; cbn; lia).
  rewrite app_assoc. unfold zip_directory_layout. cbv zeta.
  destruct (tail_of_record (body ++ dir) r) as [Ht Hstart]; [unfold max_tail; lia|].
  set (start := Z.max _ _) in *. rewrite Ht. clear Ht.
  set (a := drop (Z.to_nat start) (body ++ dir)) in *.
  rewrite (rfind_app _EOCD a r) by done. cbn [fmap option_fmap option_map].
  change (Z.of_nat (length a)) with (len a).
  assert (len (a ++ r) = len a + len r) as Hl by (unfold len; rewrite length_app; lia).
  assert (len (body ++ dir) = len body + len dir) as Hbd by (unfold len; rewrite length_app; lia).
  rewrite bind_oget, Hl, !field_skip by lia. rewrite F1, F2, F3, F4, F5, F6.
  replace (len a + len r - len a <? 22) with false by lia. cbn [negb ensure]. rewrite bind_Ok.
  replace (len a + 22 + len comment =? len a + len r) with true by lia.
  replace (n =? 0xFFFF) with false by lia. replace (len dir =? 0xFFFFFFFF) with false by lia.
  cbn [ensure negb orb andb Z.eqb]. rewrite !bind_Ok.
  replace (len body + len dir =? start + len a) with true by lia. run.
  replace (start + len a) with (len body + len dir) by lia. done.
Qed.

Definition sample_archive_tail : bytes := end_record 3 5 7 [104; 105].

Lemma layout_roundtrip_witness :
  zip_directory_layout (repeat 1 7 ++ repeat 2 5 ++ sample_archive_tail) false =
  Ok {| entry_count := 3; directory_bytes := 5; directory_offset := 7; end_record_offset := 12 |}.
Proof.
  exact (layout_roundtrip (repeat 1 7) (repeat 2 5) 3 [104; 105] false
           ltac:(lia) eq_refl eq_refl eq_refl eq_refl).
Defined.

Lemma layout_sound_witness :
  ∃ m, ends_at (repeat 1 7 ++ repeat 2 5 ++ sample_archive_tail) m ∧ (false = false → 12 = m).
Proof.
  exact (proj1 (layout_sound (repeat 1 7 ++ repeat 2 5 ++ sample_archive_tail) false
    {| entry_count := 3; directory_bytes := 5; directory_offset := 7; end_record_offset := 12 |}
    eq_refl eq_refl)).
Defined.
