(* ===== verification/Archive.v ===== *)
(** * Submission archives: paths, inventory and local records
    (modules/artifacts/api/submission_archive.py, submission_archive.py)

    The structural facts of a contributor's outer ZIP: its limits, its entries, the rules for
    a path and for an inventory of entries, and the check that local records cover every byte
    before the central directory.  [unicodedata]'s normal form and case folding are the
    arguments [nfc] and [fold]; [zipfile]'s inventory enters as a list of [ZipInfo]. *)

From S2P Require Import Prelude Text Digest Json Instant OutboxApi ZipSafety.

Inductive SubmissionArchiveFailureCode :=
| MALFORMED | LIMIT_EXCEEDED | UNSAFE_ENTRY | COLLISION | ENCRYPTED | INTEGRITY_FAILURE | TIMEOUT.

(** What leaves the code: a rejection, an exception that [inspect] turns into [MALFORMED]
    ([OSError], [ValueError], [BadZipFile], [RuntimeError]), any other exception, and a loop of
    the model that ran out of fuel. *)
Inductive ArchiveExn :=
| Rejected (code : SubmissionArchiveFailureCode)
| Fault
| OtherFault
| OutOfFuel.

Inductive SubmissionArchiveEntryType := FILE | DIRECTORY.

#[export] Instance entry_type_eq_dec : EqDecision SubmissionArchiveEntryType.
Proof. solve_decision. Defined.

Record SubmissionArchiveEntry := {
  normalized_path : str;
  entry_type : SubmissionArchiveEntryType;
  byte_count : Z;
  entry_sha256 : option str;
  executable : option bool;
}.

#[export] Instance entry_eq_dec : EqDecision SubmissionArchiveEntry.
Proof. solve_decision. Defined.

Record SubmissionArchiveInspectionResult := {
  ir_entries : list SubmissionArchiveEntry;
  ir_entry_count : Z;
  ir_file_count : Z;
  ir_directory_count : Z;
  ir_total_expanded_bytes : Z;
}.

(** The deadline is the clock's business; see [expired] in [ArchiveRead]. *)
Record SubmissionArchiveLimits := {
  maximum_entries : Z;
  maximum_path_bytes : Z;
  maximum_path_depth : Z;
  maximum_central_directory_bytes : Z;
  maximum_entry_bytes : Z;
  maximum_expanded_bytes : Z;
  maximum_compression_ratio : Z;
}.

(** [SubmissionArchiveLimits.__post_init__], without the deadline *)
Definition limits_valid (l : SubmissionArchiveLimits) : bool :=
  forallb (Z.ltb 0) [maximum_entries l; maximum_path_bytes l; maximum_path_depth l;
                     maximum_central_directory_bytes l; maximum_entry_bytes l;
                     maximum_expanded_bytes l; maximum_compression_ratio l]
  && negb ((100000 <? maximum_entries l) || (256 <? maximum_path_depth l))
  && negb (512 * 1024 * 1024 <? maximum_expanded_bytes l)
  && negb (maximum_expanded_bytes l <? maximum_entry_bytes l).

(** ** Paths *)

Definition slash : Z := 47.

Definition join_path (parts : list str) : str := join slash parts.

Definition part_unsafe (p : str) : bool :=
  str_eqb p [] || str_eqb p (lit ".") || str_eqb p (lit "..")
  || ends_with (lit " ") p || ends_with (lit ".") p.

(** The conditions of [normalize_submission_archive_path] before its sizes. *)
Definition path_unsafe (path : str) (maximum_path_depth : Z) : bool :=
  let parts := str_split slash path in
  str_eqb path [] || existsb (Z.eqb 92) path || starts_with [slash] path
  || existsb (λ c, (c <? 32) || (c =? 127)) path
  || existsb part_unsafe parts
  || existsb (Z.eqb 58) (hd [] parts) || (maximum_path_depth <? Z.of_nat (length parts)).

Definition normalize_submission_archive_path (nfc : str → str) (path : str)
    (maximum_path_bytes maximum_path_depth : Z) : result ArchiveExn str :=
  let normalized := nfc path in
  _ ← ensure (negb (path_unsafe path maximum_path_depth)) (Rejected UNSAFE_ENTRY);
  path_bytes ← oget (utf8_encode path) Fault;
  normalized_bytes ← oget (utf8_encode normalized) Fault;
  _ ← ensure (negb (maximum_path_bytes <? Z.max (len path_bytes) (len normalized_bytes)))
        (Rejected UNSAFE_ENTRY);
  Ok normalized.

(** ** Inventories *)

(** [kinds.get(path)] for the dict built from the entries: the last entry wins *)
Definition kind_of (entries : list SubmissionArchiveEntry) (path : str)
    : option SubmissionArchiveEntryType :=
  foldl (λ k e, if str_eqb (normalized_path e) path then Some (entry_type e) else k) None entries.

(** [parts[:depth]] for [depth] in [range(1, len(parts))] *)
Definition proper_prefixes (parts : list str) : list (list str) :=
  map (λ d, take d parts) (seq 1 (length parts - 1)).

Definition ancestors_ok (entries : list SubmissionArchiveEntry) (e : SubmissionArchiveEntry) : bool :=
  forallb (λ pre, bool_decide (kind_of entries (join_path pre) = Some DIRECTORY))
    (proper_prefixes (str_split slash (normalized_path e))).

Fixpoint check_inventory (nfc fold : str → str) (all : list SubmissionArchiveEntry)
    (folded_paths : list str) (entries : list SubmissionArchiveEntry) : result ArchiveExn unit :=
  match entries with
  | [] => Ok tt
  | e :: rest =>
      let folded := fold (nfc (normalized_path e)) in
      _ ← ensure (negb (existsb (str_eqb folded) folded_paths)) (Rejected COLLISION);
      _ ← ensure (ancestors_ok all e) (Rejected COLLISION);
      check_inventory nfc fold all (folded :: folded_paths) rest
  end.

Definition validate_submission_archive_inventory (nfc fold : str → str)
    (entries : list SubmissionArchiveEntry) : result ArchiveExn unit :=
  check_inventory nfc fold entries [] entries.

(** ** The archive's inventory *)

Record ZipInfo := {
  filename : str;
  orig_filename : str;
  header_offset : Z;
  compress_type : Z;
  flag_bits : Z;
  CRC : Z;
  compress_size : Z;
  file_size : Z;
  external_attr : Z;
  create_system : Z;
}.

Definition is_dir (i : ZipInfo) : bool := ends_with [slash] (filename i).

Definition S_IFMT (mode : Z) : Z := Z.land mode 0xF000.
Definition S_IFREG : Z := 0x8000.
Definition S_IFDIR : Z := 0x4000.

Definition _validated_path (nfc : str → str) (l : SubmissionArchiveLimits) (info : ZipInfo)
    : result ArchiveExn (str * SubmissionArchiveEntryType) :=
  let raw := filename info in
  let is_directory := is_dir info in
  _ ← ensure (negb (is_directory && (negb (file_size info =? 0) || negb (compress_size info =? 0))))
        (Rejected UNSAFE_ENTRY);
  let path := if is_directory && ends_with [slash] raw then removelast raw else raw in
  path ← normalize_submission_archive_path nfc path (maximum_path_bytes l) (maximum_path_depth l);
  let kind := S_IFMT (Z.shiftr (external_attr info) 16) in
  _ ← ensure ((kind =? 0) || (kind =? S_IFREG) || (kind =? S_IFDIR)) (Rejected UNSAFE_ENTRY);
  _ ← ensure (negb (negb (Bool.eqb (kind =? S_IFDIR) is_directory) && negb (kind =? 0)))
        (Rejected UNSAFE_ENTRY);
  _ ← ensure (Z.land (flag_bits info) 1 =? 0) (Rejected ENCRYPTED);
  Ok (path, if is_directory then DIRECTORY else FILE).

Definition _normalized_executable (info : ZipInfo) : bool :=
  if negb (create_system info =? 3) then false
  else negb (Z.land (Z.shiftr (external_attr info) 16) 0x49 =? 0).

(** ** Local records *)

(** The upper half of code page 437. *)
Definition cp437_high : list Z :=
  [199; 252; 233; 226; 228; 224; 229; 231; 234; 235; 232; 239; 238; 236; 196; 197; 201; 230; 198;
    244; 246; 242; 251; 249; 255; 214; 220; 162; 163; 165; 8359; 402; 225; 237; 243; 250; 241;
    209; 170; 186; 191; 8976; 172; 189; 188; 161; 171; 187; 9617; 9618; 9619; 9474; 9508; 9569;
    9570; 9558; 9557; 9571; 9553; 9559; 9565; 9564; 9563; 9488; 9492; 9524; 9516; 9500; 9472;
    9532; 9566; 9567; 9562; 9556; 9577; 9574; 9568; 9552; 9580; 9575; 9576; 9572; 9573; 9561;
    9560; 9554; 9555; 9579; 9578; 9496; 9484; 9608; 9604; 9612; 9616; 9600; 945; 223; 915; 960;
    931; 963; 181; 964; 934; 920; 937; 948; 8734; 966; 949; 8745; 8801; 177; 8805; 8804; 8992;
    8993; 247; 8776; 176; 8729; 183; 8730; 8319; 178; 9632; 160].

Definition cp437_decode (b : bytes) : str :=
  map (λ x, if x <? 128 then x else nth (Z.to_nat (x - 128)) cp437_high 0) b.

(** [local_name_bytes.decode(encoding) == name]; strict UTF-8 decoding inverts encoding *)
Definition decodes_to (utf8 : bool) (b : bytes) (name : str) : bool :=
  if utf8 then bool_decide (utf8_encode name = Some b) else str_eqb (cp437_decode b) name.

Definition LOCAL : bytes := [0x50; 0x4b; 3; 4].
Definition DESCRIPTOR : bytes := [0x50; 0x4b; 7; 8].

Definition wide (info : ZipInfo) : bool :=
  (0xFFFFFFFF <? file_size info) || (0xFFFFFFFF <? compress_size info).

(** The data descriptor after the payload of a streamed record; the end of the record. *)
Definition check_descriptor (source : bytes) (info : ZipInfo) (payload_end : Z)
    : result ArchiveExn Z :=
  let broken := Rejected INTEGRITY_FAILURE in
  let descriptor := read_at source payload_end 24 in
  let offset := if starts_with DESCRIPTOR descriptor then 4 else 0 in
  _ ← ensure (negb (len descriptor <? offset + 12)) broken;
  let descriptor_crc := field descriptor offset 4 in
  _ ← ensure (negb (wide info && (len descriptor <? offset + 20))) broken;
  let k := if wide info then 8 else 4 in
  let descriptor_compressed := field descriptor (offset + 4) k in
  let descriptor_expanded := field descriptor (offset + 4 + k) k in
  _ ← ensure (negb (negb (descriptor_crc =? CRC info)
                    || negb (descriptor_compressed =? compress_size info)
                    || negb (descriptor_expanded =? file_size info))) broken;
  Ok (payload_end + offset + if wide info then 20 else 12).

Definition _validate_local_record (source : bytes) (info : ZipInfo) : result ArchiveExn Z :=
  let broken := Rejected INTEGRITY_FAILURE in
  let header := read_at source (header_offset info) 30 in
  _ ← ensure (negb (negb (len header =? 30) || negb (str_eqb (take 4 header) LOCAL))) broken;
  let flags := field header 6 2 in
  let compression := field header 8 2 in
  let crc := field header 14 4 in
  let compressed := field header 18 4 in
  let expanded := field header 22 4 in
  let name_bytes := field header 26 2 in
  let extra_bytes := field header 28 2 in
  _ ← ensure (negb (negb (flags =? flag_bits info) || negb (compression =? compress_type info))) broken;
  let local_name_bytes := read_at source (header_offset info + 30) name_bytes in
  _ ← ensure (len local_name_bytes =? name_bytes) broken;
  _ ← ensure (decodes_to (negb (Z.land flags 0x800 =? 0)) local_name_bytes (orig_filename info)) broken;
  let payload_end := header_offset info + 30 + name_bytes + extra_bytes + compress_size info in
  if negb (Z.land flags 8 =? 0) then check_descriptor source info payload_end
  else
    _ ← ensure (negb (negb (crc =? CRC info)
                      || negb ((compressed =? compress_size info) || (compressed =? 0xFFFFFFFF))
                      || negb ((expanded =? file_size info) || (expanded =? 0xFFFFFFFF)))) broken;
    Ok payload_end.

(** [sorted(infos, key=lambda item: item.header_offset)]: insertion keeps equal keys in order *)
Fixpoint insert_info (i : ZipInfo) (l : list ZipInfo) : list ZipInfo :=
  match l with
  | [] => [i]
  | j :: l' => if header_offset j <=? header_offset i then j :: insert_info i l' else i :: l
  end.
Definition sort_infos (l : list ZipInfo) : list ZipInfo := foldl (λ s i, insert_info i s) [] l.

Fixpoint cover (source : bytes) (expected_offset : Z) (infos : list ZipInfo) : result ArchiveExn Z :=
  match infos with
  | [] => Ok expected_offset
  | info :: rest =>
      _ ← ensure (header_offset info =? expected_offset) (Rejected INTEGRITY_FAILURE);
      next ← _validate_local_record source info;
      cover source next rest
  end.

Definition _validate_record_coverage (source : bytes) (infos : list ZipInfo) (directory_offset : Z)
    : result ArchiveExn unit :=
  expected_offset ← cover source 0 (sort_infos infos);
  ensure (expected_offset =? directory_offset) (Rejected INTEGRITY_FAILURE).

(** ** Inventories, declaratively *)

Definition folded_path (nfc fold : str → str) (e : SubmissionArchiveEntry) : str :=
  fold (nfc (normalized_path e)).

Lemma existsb_str_eqb s l : existsb (str_eqb s) l = true ↔ s ∈ l.
Proof.
  rewrite existsb_exists. unfold str_eqb. split.
  - intros (x & Hx & ->%bool_decide_eq_true). by apply list_elem_of_In.
  - intros H. exists s. split; [by apply list_elem_of_In|]. by apply bool_decide_eq_true.
Qed.

Lemma check_inventory_spec nfc fold all seen entries :
  check_inventory nfc fold all seen entries = Ok tt ↔
  NoDup (map (folded_path nfc fold) entries) ∧
  Forall (λ e, (folded_path nfc fold e ∉ seen) ∧ ancestors_ok all e = true) entries.
Proof.
  revert seen. induction entries as [|e rest IH]; intros seen; cbn [check_inventory map].
  { split; [intros _; split; constructor|done]. }
  rewrite !ensure_bind_Ok, IH, negb_true_iff, NoDup_cons, Forall_cons, !Forall_forall.
  fold (folded_path nfc fold e). rewrite <- not_true_iff_false, existsb_str_eqb, list_elem_of_fmap.
  split.
  - intros (Hs & Ha & Hn & H). split_and!; [|done..|].
    + intros (x & Ex & Hx). destruct (H x Hx) as [Hns _]. apply Hns. rewrite Ex. left.
    + intros x Hx. destruct (H x Hx) as [Hns ?]. split; [|done]. intros ?. apply Hns. by right.
  - intros ((Hs & Hn) & (Hse & Ha) & H). split_and!; [done..|]. intros x Hx.
    destruct (H x Hx) as [Hns ?]. split; [|done].
    intros [Ex|?]%elem_of_cons; [|done]. apply Hs. by exists x.
Qed.

Lemma kind_of_cons e entries path :
  kind_of (e :: entries) path =
  match kind_of entries path with
  | Some t => Some t
  | None => if str_eqb (normalized_path e) path then Some (entry_type e) else None
  end.
Proof.
  unfold kind_of. cbn [foldl].
  set (f := λ (k : option SubmissionArchiveEntryType) (e : SubmissionArchiveEntry), _).
  assert (∀ k, foldl f k entries = match foldl f None entries with Some t => Some t | None => k end)
    as H.
  { induction entries as [|x l IH]; intros k; [done|]. cbn. rewrite IH, (IH (f None x)).
    unfold f at 2 4. by destruct (foldl f None l), (str_eqb (normalized_path x) path). }
  by rewrite H.
Qed.

Lemma kind_of_unique entries path t :
  NoDup (map normalized_path entries) →
  kind_of entries path = Some t ↔
  ∃ e, e ∈ entries ∧ normalized_path e = path ∧ entry_type e = t.
Proof.
  revert t. induction entries as [|e l IH]; intros t Hn.
  { split; [done|]. intros (x & Hx & _). by apply not_elem_of_nil in Hx. }
  apply NoDup_cons in Hn as [He Hn]. assert (∀ t, _) as IH' by (intros t'; exact (IH t' Hn)). clear IH. rename IH' into IH.
  rewrite kind_of_cons. unfold str_eqb.
  assert (∀ x, x ∈ l → normalized_path x ≠ normalized_path e) as Hne.
  { intros x Hx Ex. apply He. rewrite <- Ex. by apply list_elem_of_fmap_2. }
  destruct (kind_of l path) as [t'|] eqn:Ek.
  - split.
    + intros [= <-]. destruct (proj1 (IH t') eq_refl) as (x & Hx & Hxp & Ht).
      exists x. split; [by right|done].
    + intros (x & [->|Hx]%elem_of_cons & Hxp & Ht).
      * destruct (proj1 (IH t') eq_refl) as (y & Hy & Hyp & _). by destruct (Hne y Hy); congruence.
      * f_equal. assert (Some t' = Some t) as [= ?]; [|done]. apply IH. by exists x.
  - case_bool_decide as Hp.
    + split; [intros [= <-]; exists e; split; [left|done]|].
      intros (x & [->|Hx]%elem_of_cons & Hxp & Ht); [by f_equal|]. by destruct (Hne x Hx); congruence.
    + split; [done|]. intros (x & [->|Hx]%elem_of_cons & Hxp & Ht); [done|].
      assert (None = Some t); [apply IH; by exists x|done].
Qed.

(** An inventory in which paths stay distinct after normalisation and case folding and every
    ancestor of an entry is an entry of its own, a directory. *)
Record inventory_ok (nfc fold : str → str) (entries : list SubmissionArchiveEntry) : Prop := {
  io_distinct : NoDup (map (folded_path nfc fold) entries);
  io_ancestors e d :
    e ∈ entries → (1 ≤ d < length (str_split slash (normalized_path e)))%nat →
    ∃ a, a ∈ entries ∧ normalized_path a = join_path (take d (str_split slash (normalized_path e)))
         ∧ entry_type a = DIRECTORY;
}.

Lemma folded_distinct nfc fold entries :
  NoDup (map (folded_path nfc fold) entries) → NoDup (map normalized_path entries).
Proof.
  induction entries as [|e l IH]; cbn [map]; [constructor|].
  intros [He Hn]%NoDup_cons. apply NoDup_cons. split; [|by apply IH].
  intros (x & Ex & Hx)%list_elem_of_fmap. apply He. apply list_elem_of_fmap. exists x.
  unfold folded_path. by rewrite Ex.
Qed.

Lemma ancestors_ok_spec entries e :
  NoDup (map normalized_path entries) →
  ancestors_ok entries e = true ↔
  ∀ d, (1 ≤ d < length (str_split slash (normalized_path e)))%nat →
    ∃ a, a ∈ entries ∧ normalized_path a = join_path (take d (str_split slash (normalized_path e)))
         ∧ entry_type a = DIRECTORY.
Proof.
  intros Hn. unfold ancestors_ok, proper_prefixes. rewrite forallb_forall.
  set (parts := str_split slash (normalized_path e)). split.
  - intros H d Hd. apply kind_of_unique; [done|]. eapply bool_decide_eq_true_1.
    apply (H (take d parts)). apply in_map_iff. exists d. split; [done|]. apply in_seq. lia.
  - intros H pre (d & <- & Hd%in_seq)%in_map_iff. apply bool_decide_eq_true_2, kind_of_unique; [done|].
    apply H. lia.
Qed.

Lemma inventory_iff nfc fold entries :
  validate_submission_archive_inventory nfc fold entries = Ok tt ↔ inventory_ok nfc fold entries.
Proof.
  unfold validate_submission_archive_inventory. rewrite check_inventory_spec, Forall_forall. split.
  - intros [Hn H]. split; [done|]. intros e d He Hd. destruct (H e He) as [_ Ha].
    exact (proj1 (ancestors_ok_spec entries e (folded_distinct _ _ _ Hn)) Ha d Hd).
  - intros [Hn H]. split; [done|]. intros e He. split; [apply not_elem_of_nil|].
    apply (ancestors_ok_spec entries e (folded_distinct _ _ _ Hn)). intros d Hd. by apply H.
Qed.

(** The inventory check is exact.  It accepts a list of entries if and only if their paths
    are pairwise distinct after NFC normalisation and case folding and every proper ancestor of
    every path is itself listed as a directory; every other list is rejected as a collision. *)
Theorem inventory_exact nfc fold entries :
  (validate_submission_archive_inventory nfc fold entries = Ok tt ↔ inventory_ok nfc fold entries) ∧
  (¬ inventory_ok nfc fold entries →
   validate_submission_archive_inventory nfc fold entries = Raise (Rejected COLLISION)).
Proof.
  split; [apply inventory_iff|]. intros Hno. rewrite <- inventory_iff in Hno. revert Hno.
  unfold validate_submission_archive_inventory. generalize ([] : list str) as seen.
  generalize entries at 1 3 as all.
  induction entries as [|e l IH]; intros all seen; cbn [check_inventory]; [done|].
  destruct (negb _); [|done]. destruct (ancestors_ok all e); [|done]. cbn [ensure].
  rewrite !bind_Ok. apply IH.
Qed.

(** ** Records that tile a prefix of the file *)

(** [tiles source o infos e]: the local records of [infos], in this order, follow each other
    without gap or overlap from [o] to [e]. *)
Inductive tiles (source : bytes) : Z → list ZipInfo → Z → Prop :=
| tiles_nil o : tiles source o [] o
| tiles_cons o info l m e :
    header_offset info = o → _validate_local_record source info = Ok m → o + 30 ≤ m →
    starts_with LOCAL (drop (Z.to_nat o) source) = true →
    tiles source m l e → tiles source o (info :: l) e.

Lemma starts_with_of_take p l : take (length p) l = p → starts_with p l = true.
Proof.
  revert l. induction p as [|x p IH]; intros l; [by destruct l|].
  destruct l as [|y l]; [done|]. cbn. intros [= <- H]. rewrite Z.eqb_refl. by apply IH.
Qed.

Lemma local_record_Ok source info e :
  forallb is_byte source = true → 0 ≤ header_offset info → 0 ≤ compress_size info →
  _validate_local_record source info = Ok e →
  header_offset info + 30 + compress_size info ≤ e ∧
  starts_with LOCAL (drop (Z.to_nat (header_offset info)) source) = true.
Proof.
  intros Hb Ho Hc H. unfold _validate_local_record in H. cbv zeta in H.
  set (header := read_at source (header_offset info) 30) in *.
  assert (forallb is_byte header = true) as Hh by by apply read_at_bytes.
  pose proof (field_bound header 26 2 Hh). pose proof (field_bound header 28 2 Hh).
  apply ensure_bind_Ok in H as [Hs H]. apply ensure_bind_Ok in H as [_ H].
  apply ensure_bind_Ok in H as [_ H]. apply ensure_bind_Ok in H as [_ H].
  apply negb_true_iff, orb_false_iff in Hs as [_ Hs%negb_false_iff]. apply bool_decide_eq_true_1 in Hs.
  split.
  - destruct (negb _) in H.
    + unfold check_descriptor in H. cbv zeta in H. do 3 (apply ensure_bind_Ok in H as [_ H]).
      apply Ok_inj in H. destruct (starts_with DESCRIPTOR _), (wide info); lia.
    + apply ensure_bind_Ok in H as [_ H]. apply Ok_inj in H. lia.
  - apply starts_with_of_take. rewrite <- Hs at 2. unfold header, read_at. by rewrite take_take.
Qed.

Lemma cover_tiles source o l e :
  forallb is_byte source = true → 0 ≤ o → Forall (λ i, 0 ≤ compress_size i) l →
  cover source o l = Ok e → tiles source o l e.
Proof.
  intros Hb. revert o. induction l as [|info l IH]; intros o Ho Hl; cbn [cover].
  { intros H. apply Ok_inj in H. subst. constructor. }
  apply Forall_cons in Hl as [Hi Hl]. intros H.
  apply ensure_bind_Ok in H as [Heq%Z.eqb_eq H]. apply result_bind_Ok in H as (m & Hm & H).
  destruct (local_record_Ok source info m) as [Hle Hsig]; [done|lia..|done|]. subst o.
  econstructor; [done|done|lia|done|]. apply IH; [lia|done..].
Qed.

Lemma tiles_le source o l e : tiles source o l e → o ≤ e.
Proof. induction 1; lia. Qed.

Lemma tiles_members source o l e i :
  tiles source o l e → i ∈ l →
  ∃ m, _validate_local_record source i = Ok m ∧ o ≤ header_offset i ∧ header_offset i < m ∧ m ≤ e.
Proof.
  induction 1 as [|o info l m e Ho Hv Hm _ Ht IH]; [by intros ?%not_elem_of_nil|].
  pose proof (tiles_le _ _ _ _ Ht). intros [->|Hi]%elem_of_cons.
  - exists m. split_and!; [done|lia..].
  - destruct (IH Hi) as (k & ? & ? & ? & ?). exists k. split_and!; [done|lia..].
Qed.

Lemma tiles_NoDup source o l e : tiles source o l e → NoDup l.
Proof.
  induction 1 as [|o info l m e Ho Hv Hm _ Ht IH]; [constructor|]. apply NoDup_cons. split; [|done].
  intros Hi. destruct (tiles_members _ _ _ _ _ Ht Hi) as (k & _ & ? & _). lia.
Qed.

Lemma tiles_point source o l e p :
  tiles source o l e → o ≤ p < e →
  ∃ i m, i ∈ l ∧ _validate_local_record source i = Ok m ∧ header_offset i ≤ p < m ∧
    ∀ j m', j ∈ l → _validate_local_record source j = Ok m' → header_offset j ≤ p < m' → j = i.
Proof.
  induction 1 as [|o info l m e Ho Hv Hm _ Ht IH]; intros Hp; [lia|].
  destruct (Z.lt_ge_cases p m) as [Hlt|Hge].
  - exists info, m. split_and!; [left|done|lia|lia|].
    intros j m' [->|Hj]%elem_of_cons Hj' Hjp; [done|].
    destruct (tiles_members _ _ _ _ _ Ht Hj) as (k & _ & ? & _). lia.
  - destruct IH as (i & k & Hi & Hk & Hik & Huniq); [lia|]. exists i, k. split_and!; [by right|done|lia|lia|].
    intros j m' [->|Hj]%elem_of_cons Hj' Hjp; [|by eapply Huniq].
    rewrite Hv in Hj'. apply Ok_inj in Hj'. lia.
Qed.

Lemma insert_info_Permutation i l : insert_info i l ≡ₚ i :: l.
Proof.
  induction l as [|j l IH]; [done|]. cbn. destruct (_ <=? _); [|done]. rewrite IH. constructor.
Qed.

Lemma sort_infos_Permutation l : sort_infos l ≡ₚ l.
Proof.
  unfold sort_infos. rewrite <- (app_nil_l l) at 2. generalize ([] : list ZipInfo) as s.
  induction l as [|i l IH]; intros s; cbn; [by rewrite app_nil_r|].
  rewrite IH, insert_info_Permutation. by rewrite <- Permutation_middle.
Qed.

(** No byte is hidden.  When the local records of an archive are accepted, they follow each
    other, in the order of their offsets, from byte 0 to the central directory without gap or
    overlap, each beginning with the local signature: every byte before the directory belongs
    to exactly one entry of the inventory, and no entry is listed twice. *)
Theorem record_coverage source infos off :
  forallb is_byte source = true → Forall (λ i, 0 ≤ compress_size i) infos →
  _validate_record_coverage source infos off = Ok tt →
  (∃ order, order ≡ₚ infos ∧ tiles source 0 order off) ∧ NoDup infos ∧
  ∀ p, 0 ≤ p < off →
    ∃ i e, i ∈ infos ∧ _validate_local_record source i = Ok e ∧ header_offset i ≤ p < e ∧
      ∀ j e', j ∈ infos → _validate_local_record source j = Ok e' → header_offset j ≤ p < e' → j = i.
Proof.
  intros Hb Hc H. unfold _validate_record_coverage in H.
  pose proof (sort_infos_Permutation infos) as Hperm. set (order := sort_infos infos) in *.
  assert (tiles source 0 order off) as Ht.
  { apply result_bind_Ok in H as (e & He & Heq). destruct (e =? off) eqn:Ee; [|done].
    apply Z.eqb_eq in Ee as <-. apply cover_tiles; [done|lia| |done]. by rewrite Hperm. }
  split_and!; [by exists order|rewrite <- Hperm; by eapply tiles_NoDup|].
  intros p Hp. destruct (tiles_point _ _ _ _ _ Ht Hp) as (i & e & Hi & He & Hie & Huniq).
  exists i, e. rewrite <- Hperm. split_and!; [done|done|lia|lia|].
  intros j e' Hj. apply Huniq. by rewrite Hperm.
Qed.

(** A stored entry [d/a] with the two bytes [hi]. *)
Definition sample_info : ZipInfo :=
  {| filename := lit "d/a"; orig_filename := lit "d/a"; header_offset := 0; compress_type := 0;
     flag_bits := 0; CRC := 0xd8932aac; compress_size := 2; file_size := 2;
     external_attr := Z.shiftl 0x81A4 16; create_system := 3 |}.
Definition sample_record : bytes :=
  LOCAL ++ to_bytes_le 2 20 ++ to_bytes_le 2 0 ++ to_bytes_le 2 0 ++ to_bytes_le 4 0
  ++ to_bytes_le 4 0xd8932aac ++ to_bytes_le 4 2 ++ to_bytes_le 4 2 ++ to_bytes_le 2 3
  ++ to_bytes_le 2 0 ++ lit "d/a" ++ lit "hi".

Lemma record_coverage_witness :
  NoDup [sample_info] ∧
  ∃ i e, i ∈ [sample_info] ∧ _validate_local_record sample_record i = Ok e ∧ header_offset i ≤ 34 < e.
Proof.
  destruct (record_coverage sample_record [sample_info] 35 eq_refl) as (_ & Hn & H).
  - constructor; [vm_compute; discriminate|constructor].
  - vm_compute. reflexivity.
  - split; [exact Hn|]. destruct (H 34 ltac:(lia)) as (i & e & Hi & He & Hp & _). by exists i, e.
Defined.
