(* ===== verification/ArchiveRead.v ===== *)
(** * Submission archives: reading and inspection (modules/artifacts/submission_archive.py)

    [SubmissionArchiveInspector.inspect]: the compressed streams, the members, the entries
    with their implicit directories, and the whole inspection of an outer ZIP.  What the code
    takes from [zipfile], [zlib], [unicodedata] and the clock is a record of functions; what is
    assumed of [zlib] is its documented contract, [zlib_ok].  Main results: the inflation loop
    ends and never asks for more than one byte beyond its limit, and an accepted archive yields
    a bounded, unambiguous inventory whose files carry the digests of their contents. *)

From S2P Require Import Prelude Text Digest Json Instant OutboxApi ZipSafety Archive.

(** [zlib.decompressobj(-15)]: [dz_step] is [decompress(data, max_length)] with the output, the
    [unconsumed_tail] and the next state; [None] is [zlib.error]. *)
Record Decompressor := {
  dz_state : Type;
  dz_init : dz_state;
  dz_step : dz_state → bytes → Z → option (bytes * bytes * dz_state);
  dz_flush : dz_state → option (bytes * dz_state);
  dz_eof : dz_state → bool;
  dz_unused : dz_state → bytes;
  dz_tail : dz_state → bytes;
}.

(** How reading a member ends: at its end, with one of the exceptions [_read_member] handles
    ([EOFError], [OSError], [RuntimeError], [BadZipFile]), or with another one. *)
Inductive StreamEnd := EndOfMember | HandledFault | UnhandledFault.

Record ArchiveEnv := {
  nfc : str → str;                                    (** [unicodedata.normalize("NFC", s)] *)
  fold : str → str;                                   (** [str.casefold] *)
  zlib : Decompressor;
  infolist : bytes → result ArchiveExn (list ZipInfo); (** [zipfile.ZipFile(...).infolist()] *)
  member : ZipInfo → list bytes * StreamEnd;          (** the chunks of [archive.open(info)] *)
  late_entry : nat → bool;                            (** the deadline test before entry [i] *)
  late_stream : nat → nat → bool;                     (** before compressed chunk [j] of entry [i] *)
  late_member : nat → nat → bool;                     (** at chunk [j] of member [i] *)
}.

Definition _READ_BYTES : Z := 1024 * 1024.

(** [sorted(items, key=...)] by a text key: insertion keeps equal keys in order *)
Fixpoint insert_by {A} (key : A → str) (e : A) (s : list A) : list A :=
  match s with
  | [] => [e]
  | x :: s' => if str_ltb (key e) (key x) then e :: s else x :: insert_by key e s'
  end.
Definition sort_by {A} (key : A → str) (s : list A) : list A :=
  foldl (λ acc e, insert_by key e acc) [] s.

(** [sorted(entries, key=lambda entry: entry.normalized_path)] *)
Definition sort_entries : list SubmissionArchiveEntry → list SubmissionArchiveEntry :=
  sort_by normalized_path.

Section Inspection.
Context (V : ArchiveEnv) (l : SubmissionArchiveLimits) (source : bytes).

Let broken := Rejected INTEGRITY_FAILURE.

(** ** Compressed streams *)

(** [while pending: ...]; the fuel is [inflate_fuel] *)
Fixpoint inflate (fuel : nat) (maximum : Z) (pending : bytes) (actual : Z) (d : dz_state (zlib V))
    : result ArchiveExn (Z * dz_state (zlib V)) :=
  match pending, fuel with
  | [], _ => Ok (actual, d)
  | _, O => Raise OutOfFuel
  | _, S f =>
      match dz_step (zlib V) d pending (Z.min _READ_BYTES (maximum - actual + 1)) with
      | None => Raise broken
      | Some (output, tail, d) =>
          let actual := actual + len output in
          _ ← ensure (negb (maximum <? actual)) (Rejected LIMIT_EXCEEDED);
          inflate f maximum tail actual d
      end
  end.

Definition inflate_fuel (maximum actual : Z) (pending : bytes) : nat :=
  Z.to_nat (len pending + (maximum - actual)).

(** [while remaining: ...]; every turn reads at least one byte *)
Fixpoint inflate_all (fuel : nat) (i j : nat) (maximum pos remaining actual : Z)
    (d : dz_state (zlib V)) : result ArchiveExn (Z * dz_state (zlib V)) :=
  if remaining =? 0 then Ok (actual, d)
  else match fuel with
  | O => Raise OutOfFuel
  | S f =>
      _ ← ensure (negb (late_stream V i j)) (Rejected TIMEOUT);
      let chunk := read_at source pos (Z.min _READ_BYTES remaining) in
      _ ← ensure (negb (len chunk =? 0)) broken;
      ad ← inflate (inflate_fuel maximum actual chunk) maximum chunk actual d;
      inflate_all f i (S j) maximum (pos + len chunk) (remaining - len chunk) ad.1 ad.2
  end.

Definition _validate_compressed_stream (i : nat) (info : ZipInfo) (maximum_output_bytes : Z)
    : result ArchiveExn unit :=
  if compress_type info =? 0 then
    ensure (compress_size info =? file_size info) broken
  else
    _ ← ensure (compress_type info =? 8) (Rejected MALFORMED);
    let header := read_at source (header_offset info) 30 in
    _ ← ensure (negb (len header <? 30)) broken;
    let pos := header_offset info + 30 + (field header 26 2 + field header 28 2) in
    ad ← inflate_all (Z.to_nat (compress_size info)) i O maximum_output_bytes pos
           (compress_size info) 0 (dz_init (zlib V));
    match dz_flush (zlib V) ad.2 with
    | None => Raise broken
    | Some (rest, d) =>
        let actual := ad.1 + len rest in
        ensure (negb (negb (dz_eof (zlib V) d) || negb (len (dz_unused (zlib V) d) =? 0)
                      || negb (len (dz_tail (zlib V) d) =? 0) || negb (actual =? file_size info)))
          broken
    end.

(** ** Members *)

Fixpoint read_chunks (i j : nat) (maximum_output : Z) (chunks : list bytes) (finish : StreamEnd)
    (actual : Z) (content : bytes) : result ArchiveExn (Z * bytes) :=
  match chunks with
  | [] =>
      match finish with
      | EndOfMember => Ok (actual, content)
      | HandledFault => Raise broken
      | UnhandledFault => Raise OtherFault
      end
  | chunk :: rest =>
      _ ← ensure (negb (late_member V i j)) (Rejected TIMEOUT);
      let actual := actual + len chunk in
      _ ← ensure (negb (maximum_output <? actual)) (Rejected LIMIT_EXCEEDED);
      read_chunks i (S j) maximum_output rest finish actual (content ++ chunk)
  end.

Definition _read_member (i : nat) (info : ZipInfo) (remaining_expanded_bytes : Z)
    : result ArchiveExn (Z * str) :=
  let maximum_output := Z.min (maximum_entry_bytes l) remaining_expanded_bytes in
  _ ← ensure (negb (maximum_output <? file_size info)) (Rejected LIMIT_EXCEEDED);
  _ ← ensure (negb (negb (file_size info =? 0)
                    && ((compress_size info =? 0)
                        || (compress_size info * maximum_compression_ratio l <? file_size info))))
        (Rejected LIMIT_EXCEEDED);
  _ ← _validate_compressed_stream i info maximum_output;
  ac ← read_chunks i O maximum_output (member V info).1 (member V info).2 0 [];
  _ ← ensure (ac.1 =? file_size info) broken;
  Ok (ac.1, lit "sha256:" ++ sha256_hex ac.2).

(** ** Entries *)

(** [PurePosixPath(path).parts] *)
Definition posix_parts (path : str) : list str :=
  let parts := List.filter (λ p, negb (str_eqb p [] || str_eqb p (lit "."))) (str_split slash path) in
  if starts_with [slash; slash] path && negb (starts_with [slash; slash; slash] path)
  then [slash; slash] :: parts
  else if starts_with [slash] path then [slash] :: parts else parts.

(** The dict [paths], by folded path *)
Definition Paths := list (str * SubmissionArchiveEntryType).
Definition paths_get (k : str) (paths : Paths) : option SubmissionArchiveEntryType :=
  snd <$> List.find (λ kv, str_eqb kv.1 k) paths.
Definition paths_in (k : str) (paths : Paths) : bool := existsb (λ kv, str_eqb kv.1 k) paths.
Definition paths_set (k : str) (t : SubmissionArchiveEntryType) (paths : Paths) : Paths :=
  if paths_in k paths then map (λ kv, if str_eqb kv.1 k then (k, t) else kv) paths
  else paths ++ [(k, t)].

Definition directory_entry (path : str) : SubmissionArchiveEntry :=
  {| normalized_path := path; entry_type := DIRECTORY; byte_count := 0; entry_sha256 := None;
     executable := None |}.

Record ReadState := {
  rs_results : list SubmissionArchiveEntry;
  rs_paths : Paths;
  rs_source_paths : list str;
  rs_total : Z;
}.

(** The loop over the ancestors of one path. *)
Fixpoint add_ancestors (prefixes : list (list str)) (paths : Paths)
    (results : list SubmissionArchiveEntry)
    : result ArchiveExn (Paths * list SubmissionArchiveEntry) :=
  match prefixes with
  | [] => Ok (paths, results)
  | pre :: rest =>
      let ancestor := fold V (nfc V (join_path pre)) in
      _ ← ensure (negb (bool_decide (paths_get ancestor paths = Some FILE))) (Rejected COLLISION);
      if paths_in ancestor paths then add_ancestors rest paths results
      else
        let paths := paths_set ancestor DIRECTORY paths in
        let results := results ++ [directory_entry (join_path pre)] in
        _ ← ensure (negb (maximum_entries l <? Z.of_nat (length paths))) (Rejected LIMIT_EXCEEDED);
        add_ancestors rest paths results
  end.

Definition read_entry (i : nat) (info : ZipInfo) (st : ReadState) : result ArchiveExn ReadState :=
  _ ← ensure (negb (late_entry V i)) (Rejected TIMEOUT);
  pk ← _validated_path (nfc V) l info;
  let '(path, kind) := pk in
  let folded := fold V (nfc V path) in
  _ ← ensure (negb (existsb (str_eqb folded) (rs_source_paths st)
                    || (paths_in folded (rs_paths st) && bool_decide (kind = FILE))))
        (Rejected COLLISION);
  pr ← add_ancestors (proper_prefixes (posix_parts path)) (rs_paths st) (rs_results st);
  let '(paths, results) := pr in
  _ ← ensure (negb (bool_decide (kind = FILE)
                    && existsb (λ kv, starts_with (folded ++ [slash]) kv.1) paths))
        (Rejected COLLISION);
  let paths := paths_set folded kind paths in
  let source_paths := folded :: rs_source_paths st in
  if bool_decide (kind = DIRECTORY) && existsb (λ e, str_eqb (normalized_path e) path) results then
    Ok {| rs_results := results; rs_paths := paths; rs_source_paths := source_paths;
          rs_total := rs_total st |}
  else
    ad ← (if bool_decide (kind = FILE) then
            ad ← _read_member i info (maximum_expanded_bytes l - rs_total st);
            Ok (ad.1, Some ad.2)
          else Ok (0, None));
    let '(actual, digest) := ad in
    let total := rs_total st + actual in
    _ ← ensure (negb (maximum_expanded_bytes l <? total)) (Rejected LIMIT_EXCEEDED);
    Ok {| rs_results := results ++
            [{| normalized_path := path; entry_type := kind; byte_count := actual;
                entry_sha256 := digest;
                executable := match digest with
                              | Some _ => Some (_normalized_executable info)
                              | None => None
                              end |}];
          rs_paths := paths; rs_source_paths := source_paths; rs_total := total |}.

Fixpoint read_loop (i : nat) (infos : list ZipInfo) (st : ReadState) : result ArchiveExn ReadState :=
  match infos with
  | [] => Ok st
  | info :: rest => st ← read_entry i info st; read_loop (S i) rest st
  end.

Definition _read_entries (infos : list ZipInfo) : result ArchiveExn (list SubmissionArchiveEntry) :=
  st ← read_loop O infos {| rs_results := []; rs_paths := []; rs_source_paths := []; rs_total := 0 |};
  Ok (rs_results st).

(** ** Inspection *)

Definition is_file (e : SubmissionArchiveEntry) : bool := bool_decide (entry_type e = FILE).
Definition files_of (s : list SubmissionArchiveEntry) : Z :=
  Z.of_nat (length (List.filter is_file s)).
Definition total_of (s : list SubmissionArchiveEntry) : Z := sumZ (map byte_count s).

(** The body of the [try] *)
Definition inspect_body : result ArchiveExn (list SubmissionArchiveEntry) :=
  let signature := read_at source 0 4 in
  _ ← ensure (existsb (str_eqb signature) [LOCAL; _EOCD; _ZIP64_EOCD]) (Rejected MALFORMED);
  layout ← match zip_directory_layout source true with Ok y => Ok y | Raise _ => Raise Fault end;
  _ ← ensure (negb ((maximum_entries l <? entry_count layout)
                    || (maximum_central_directory_bytes l <? directory_bytes layout)))
        (Rejected LIMIT_EXCEEDED);
  infos ← infolist V source;
  _ ← ensure (Z.of_nat (length infos) =? entry_count layout) (Rejected MALFORMED);
  _ ← _validate_record_coverage source infos (directory_offset layout);
  entries ← _read_entries infos;
  _ ← validate_submission_archive_inventory (nfc V) (fold V) entries;
  Ok entries.

Definition inspect : result ArchiveExn SubmissionArchiveInspectionResult :=
  match inspect_body with
  | Raise Fault => Raise (Rejected MALFORMED)
  | Raise e => Raise e
  | Ok entries =>
      Ok {| ir_entries := sort_entries entries;
            ir_entry_count := Z.of_nat (length entries);
            ir_file_count := files_of entries;
            ir_directory_count := Z.of_nat (length entries) - files_of entries;
            ir_total_expanded_bytes := total_of entries |}
  end.

End Inspection.
