(* ===== verification/ArchiveGuarantees.v ===== *)
(** * What an accepted submission archive guarantees

    The inflation loop ends and stays within its limit; an accepted archive has a bounded and
    unambiguous inventory whose files carry the sizes and digests of their contents. *)

From S2P Require Import Prelude Text Digest Json Instant OutboxApi ZipSafety Archive ArchiveRead.

(** ** Inflation *)

(** The documented contract of [decompress(data, max_length)] for a positive [max_length]: at
    most that many bytes come out, and input is left over only when the output is full. *)
Definition zlib_ok (Z : Decompressor) : Prop :=
  ∀ d pending m output tail d', 1 ≤ m → dz_step Z d pending m = Some (output, tail, d') →
    len output ≤ m ∧ len tail ≤ len pending ∧ (len output < m → tail = []).

(** The environment with another [decompress]. *)
Definition set_step (V : ArchiveEnv)
    (f : dz_state (zlib V) → bytes → Z → option (bytes * bytes * dz_state (zlib V))) : ArchiveEnv :=
  {| nfc := nfc V; fold := fold V;
     zlib := {| dz_state := dz_state (zlib V); dz_init := dz_init (zlib V); dz_step := f;
                dz_flush := dz_flush (zlib V); dz_eof := dz_eof (zlib V);
                dz_unused := dz_unused (zlib V); dz_tail := dz_tail (zlib V) |};
     infolist := infolist V; member := member V; late_entry := late_entry V;
     late_stream := late_stream V; late_member := late_member V |}.

Definition same_in_range (V : ArchiveEnv)
    (f : dz_state (zlib V) → bytes → Z → option (bytes * bytes * dz_state (zlib V))) : Prop :=
  ∀ d pending m, 1 ≤ m ≤ _READ_BYTES → f d pending m = dz_step (zlib V) d pending m.

Lemma inflate_step V maximum actual d p :
  zlib_ok (zlib V) → actual ≤ maximum →
  ∀ output tail d',
    dz_step (zlib V) d p (Z.min _READ_BYTES (maximum - actual + 1)) = Some (output, tail, d') →
    actual + len output ≤ maximum + 1 ∧ len tail ≤ len p ∧
    (tail ≠ [] → actual + 1 ≤ actual + len output).
Proof.
  intros Hz Ha output tail d' H. apply Hz in H as (H1 & H2 & H3); [|unfold _READ_BYTES; lia].
  split_and!; [lia|done|]. intros Ht.
  destruct (Z.lt_ge_cases (len output) (Z.min _READ_BYTES (maximum - actual + 1))) as [Hlt|Hge].
  - by apply H3 in Hlt.
  - unfold _READ_BYTES in *. lia.
Qed.

Lemma inflate_ends V fuel maximum p actual d :
  zlib_ok (zlib V) → actual ≤ maximum → (inflate_fuel maximum actual p ≤ fuel)%nat →
  inflate V fuel maximum p actual d ≠ Raise OutOfFuel ∧
  ∀ a d', inflate V fuel maximum p actual d = Ok (a, d') → actual ≤ a ≤ maximum.
Proof.
  intros Hz. revert p actual d. induction fuel as [|f IH]; intros p actual d Ha Hf.
  - destruct p as [|x p]; cbn; [split; [done|]; intros ? ? [= <- _]; lia|].
    unfold inflate_fuel, len in Hf. cbn in Hf. lia.
  - destruct p as [|x p]; cbn [inflate]; [split; [done|]; intros ? ? [= <- _]; lia|].
    destruct (dz_step _ _ _ _) as [[[output tail] d']|] eqn:Es; [|done].
    destruct (inflate_step V maximum actual d (x :: p) Hz Ha _ _ _ Es) as (H1 & H2 & H3).
    cbv zeta. destruct (maximum <? actual + len output) eqn:El; [done|]. apply Z.ltb_ge in El.
    cbn [negb ensure]. rewrite bind_Ok. pose proof (len_pos output).
    destruct (decide (tail = [])) as [->|Ht].
    + destruct f; cbn; (split; [done|]); intros ? ? [= <- _]; lia.
    + specialize (H3 Ht). destruct (IH tail (actual + len output) d') as [I1 I2]; [lia| |].
      { unfold inflate_fuel in *. lia. }
      split; [done|]. intros a d'' Hr. apply I2 in Hr. lia.
Qed.

Lemma inflate_limited V f fuel maximum p actual d :
  zlib_ok (zlib V) → same_in_range V f → actual ≤ maximum →
  inflate (set_step V f) fuel maximum p actual d = inflate V fuel maximum p actual d.
Proof.
  intros Hz Hs. revert p actual d. induction fuel as [|n IH]; intros p actual d Ha; [by destruct p|].
  destruct p as [|x p]; cbn [inflate]; [done|].
  change (dz_step (zlib (set_step V f))) with f.
  rewrite Hs by (unfold _READ_BYTES; lia).
  destruct (dz_step _ _ _ _) as [[[output tail] d']|] eqn:Es; [|done]. cbv zeta.
  destruct (maximum <? actual + len output) eqn:El; [done|]. apply Z.ltb_ge in El.
  cbn [negb ensure]. rewrite !bind_Ok. by apply IH.
Qed.

Lemma inflate_all_ends V source fuel i j maximum pos remaining actual d :
  zlib_ok (zlib V) → 0 ≤ remaining → actual ≤ maximum → (Z.to_nat remaining ≤ fuel)%nat →
  inflate_all V source fuel i j maximum pos remaining actual d ≠ Raise OutOfFuel ∧
  (∀ a d', inflate_all V source fuel i j maximum pos remaining actual d = Ok (a, d') → actual ≤ a ≤ maximum) ∧
  ∀ f, same_in_range V f →
    inflate_all (set_step V f) source fuel i j maximum pos remaining actual d =
    inflate_all V source fuel i j maximum pos remaining actual d.
Proof.
  intros Hz. revert j pos remaining actual d.
  induction fuel as [|n IH]; intros j pos remaining actual d Hr Ha Hf; cbn [inflate_all].
  { replace (remaining =? 0) with true by lia. split_and!; [done| |done]. intros ? ? [= <- _]. lia. }
  destruct (remaining =? 0) eqn:E0.
  { split_and!; [done| |done]. intros ? ? [= <- _]. lia. }
  change (late_stream (set_step V _)) with (late_stream V).
  destruct (late_stream V i j); [split_and!; done|]. cbn [negb ensure]. rewrite bind_Ok.
  set (chunk := read_at source pos _). destruct (len chunk =? 0) eqn:Ec; [split_and!; done|].
  cbn [negb ensure]. rewrite bind_Ok.
  assert (len chunk ≤ Z.min _READ_BYTES remaining) as Hle
    by (apply read_at_length; unfold _READ_BYTES; lia).
  pose proof (len_pos chunk).
  destruct (inflate_ends V (inflate_fuel maximum actual chunk) maximum chunk actual d) as [I1 I2]; [done..|].
  destruct (inflate V _ maximum chunk actual d) as [[a d']|e] eqn:Ei.
  - rewrite bind_Ok. cbn [fst snd]. specialize (I2 a d' eq_refl).
    destruct (IH (S j) (pos + len chunk) (remaining - len chunk) a d') as (J1 & J2 & J3); [lia..|].
    split_and!; [done| |].
    + intros b d'' Hb. apply J2 in Hb. lia.
    + intros f Hs. rewrite bind_Ok, (inflate_limited V f) by (done || lia). rewrite Ei, bind_Ok. by apply J3.
  - split_and!; [intros [= ->]; done|done|]. intros f Hs.
    rewrite bind_Ok, (inflate_limited V f) by (done || lia). by rewrite Ei.
Qed.

(** C39. Inflation is bounded and ends.  With a [zlib] that keeps its contract, the check of a
    compressed stream always returns, whatever the bytes are; it asks for between 1 byte and
    one read unit at a time (a request of 0 would mean no limit), since replacing [decompress]
    outside that range changes nothing; and the bytes inflated before the final flush of an
    accepted stream stay within the member's limit. *)
Theorem stream_bounded V source i info maximum :
  zlib_ok (zlib V) → 0 ≤ maximum → 0 ≤ compress_size info →
  _validate_compressed_stream V source i info maximum ≠ Raise OutOfFuel ∧
  (∀ f, same_in_range V f →
     _validate_compressed_stream (set_step V f) source i info maximum =
     _validate_compressed_stream V source i info maximum) ∧
  (_validate_compressed_stream V source i info maximum = Ok tt → compress_type info = 8 →
   ∃ pos inflated d rest d', 0 ≤ inflated ≤ maximum ∧
     inflate_all V source (Z.to_nat (compress_size info)) i O maximum pos (compress_size info) 0
       (dz_init (zlib V)) = Ok (inflated, d) ∧
     dz_flush (zlib V) d = Some (rest, d') ∧ inflated + len rest = file_size info).
Proof.
  intros Hz Hm Hc. unfold _validate_compressed_stream.
  destruct (compress_type info =? 0) eqn:E0.
  { split_and!; [by destruct (compress_size info =? file_size info)|done|lia]. }
  destruct (compress_type info =? 8) eqn:E8; [|done]. cbn [ensure]. rewrite !bind_Ok. cbv zeta.
  destruct (len _ <? 30); [done|]. cbn [negb ensure]. rewrite !bind_Ok.
  set (pos := header_offset info + 30 + _).
  destruct (inflate_all_ends V source (Z.to_nat (compress_size info)) i O maximum pos
              (compress_size info) 0 (dz_init (zlib V))) as (I1 & I2 & I3); [done..|].
  split_and!.
  - destruct (inflate_all V _ _ _ _ _ _ _ _ _) as [[a d]|e]; [|intros [= ->]; done].
    rewrite bind_Ok. destruct (dz_flush _ _) as [[rest d']|]; [|done]. by destruct (negb _).
  - intros f Hs. change (dz_init (zlib (set_step V f))) with (dz_init (zlib V)). rewrite I3 by done.
    destruct (inflate_all V _ _ _ _ _ _ _ _ _) as [[a d]|e]; [|done]. done.
  - intros H _. apply result_bind_Ok in H as ([a d] & Ha & H). cbn [fst snd] in H.
    destruct (dz_flush (zlib V) d) as [[rest d']|] eqn:Ef; [|done].
    exists pos, a, d, rest, d'. split_and!; [by apply I2 in Ha as [? _]|by apply I2 in Ha as [_ ?]|done..|].
    destruct (a + len rest =? file_size info) eqn:E; [lia|]. rewrite orb_true_r in H. done.
Qed.

(** ** Members *)

Lemma read_chunks_Ok V i j maximum chunks finish actual content a c :
  read_chunks V i j maximum chunks finish actual content = Ok (a, c) → actual ≤ maximum →
  c = content ++ concat chunks ∧ a = actual + len (concat chunks) ∧ a ≤ maximum.
Proof.
  revert j actual content. induction chunks as [|x chunks IH]; intros j actual content H Hm; cbn in H.
  { destruct finish; [|done..]. apply Ok_inj in H as [= <- <-]. rewrite app_nil_r. split_and!; [done|unfold len; cbn; lia|done]. }
  apply ensure_bind_Ok in H as [_ H]. apply ensure_bind_Ok in H as [Hl%negb_true_iff%Z.ltb_ge H].
  apply IH in H as (-> & -> & H); [|done]. cbn [concat]. rewrite app_assoc. split_and!; [done| |done].
  unfold len. rewrite length_app. lia.
Qed.

(** What the inspector knows of one file: its declared size is its actual size, within the
    limits and the compression ratio, and its digest is that of its contents. *)
Record member_read (V : ArchiveEnv) (l : SubmissionArchiveLimits) (info : ZipInfo) (n : Z) (digest : str)
    : Prop := {
  mr_size : n = file_size info;
  mr_content : n = len (concat (member V info).1);
  mr_digest : digest = lit "sha256:" ++ sha256_hex (concat (member V info).1);
  mr_limit : n ≤ maximum_entry_bytes l;
  mr_ratio : n ≤ compress_size info * maximum_compression_ratio l ∨ n = 0;
}.

Lemma read_member_Ok V l source i info remaining n digest :
  0 ≤ Z.min (maximum_entry_bytes l) remaining →
  _read_member V l source i info remaining = Ok (n, digest) →
  member_read V l info n digest ∧ 0 ≤ n ≤ remaining.
Proof.
  intros Hpos H. unfold _read_member in H. cbv zeta in H.
  apply ensure_bind_Ok in H as [Hlim%negb_true_iff%Z.ltb_ge H].
  apply ensure_bind_Ok in H as [Hratio H]. apply result_bind_Ok in H as (_ & _ & H).
  apply result_bind_Ok in H as ([a c] & Hc & H). cbn [fst snd] in H.
  apply ensure_bind_Ok in H as [Ha%Z.eqb_eq H]. apply Ok_inj in H as [= <- <-].
  apply read_chunks_Ok in Hc as (-> & E & Hle); [|done]. cbn [app] in *.
  pose proof (len_pos (concat (member V info).1)).
  split; [|lia]. split; [done|lia|done|lia|]. destruct (file_size info =? 0) eqn:E0; [lia|].
  destruct (_ || _) eqn:Er in Hratio; [done|]. apply orb_false_iff in Er as [_ Er]. lia.
Qed.

(** ** The dict of paths *)

Lemma str_eqb_eq a b : str_eqb a b = true ↔ a = b.
Proof. apply bool_decide_eq_true. Qed.

Lemma paths_set_keys k t (paths : Paths) :
  map fst (paths_set k t paths) = if paths_in k paths then map fst paths else map fst paths ++ [k].
Proof.
  unfold paths_set. destruct (paths_in k paths); [|by rewrite map_app].
  rewrite map_map. apply map_ext. intros [k' t']. cbn.
  destruct (str_eqb k' k) eqn:E; [|done]. by apply str_eqb_eq in E as ->.
Qed.

Lemma paths_in_keys k (paths : Paths) : paths_in k paths = true ↔ k ∈ map fst paths.
Proof.
  unfold paths_in. rewrite existsb_exists, list_elem_of_fmap. split.
  - intros ([k' t] & Hin & <-%str_eqb_eq). exists (k', t). split; [done|]. by apply list_elem_of_In.
  - intros ([k' t] & -> & Hin). exists (k', t). split; [by apply list_elem_of_In|]. by apply str_eqb_eq.
Qed.

Lemma paths_set_elem k t (paths : Paths) k' :
  k' ∈ map fst (paths_set k t paths) ↔ k' = k ∨ k' ∈ map fst paths.
Proof.
  rewrite paths_set_keys. destruct (paths_in k paths) eqn:E.
  - apply paths_in_keys in E. split; [by right|]. by intros [->|].
  - rewrite elem_of_app, list_elem_of_singleton. tauto.
Qed.

Lemma paths_set_length k t (paths : Paths) :
  Z.of_nat (length (paths_set k t paths)) ≤ Z.of_nat (length paths) + 1.
Proof.
  unfold paths_set. destruct (paths_in k paths); [rewrite length_map; lia|].
  rewrite length_app. cbn. lia.
Qed.

(** ** Entries *)

Definition entry_facts (V : ArchiveEnv) (l : SubmissionArchiveLimits) (infos : list ZipInfo)
    (e : SubmissionArchiveEntry) : Prop :=
  match entry_type e with
  | DIRECTORY => byte_count e = 0 ∧ entry_sha256 e = None ∧ executable e = None
  | FILE =>
      ∃ info digest, info ∈ infos ∧ _validated_path (nfc V) l info = Ok (normalized_path e, FILE) ∧
        member_read V l info (byte_count e) digest ∧ entry_sha256 e = Some digest ∧
        executable e = Some (_normalized_executable info)
  end.

Lemma entry_facts_mono V l infos infos' e :
  infos ⊆ infos' → entry_facts V l infos e → entry_facts V l infos' e.
Proof.
  intros Hsub. unfold entry_facts. destruct (entry_type e); [|done].
  intros (info & digest & Hin & H). exists info, digest. split; [by apply Hsub|done].
Qed.

(** What holds after the inventory entries [infos] were read. *)
Record read_inv (V : ArchiveEnv) (l : SubmissionArchiveLimits) (infos : list ZipInfo)
    (paths : Paths) (results : list SubmissionArchiveEntry) (total : Z) : Prop := {
  ri_entries : Forall (entry_facts V l infos) results;
  ri_total : total = total_of results;
  ri_bound : 0 ≤ total ≤ maximum_expanded_bytes l;
  ri_paths : Z.of_nat (length paths) ≤ maximum_entries l + Z.of_nat (length infos);
  ri_keys : ∀ e, e ∈ results → folded_path (nfc V) (fold V) e ∈ map fst paths;
}.

Lemma total_of_app a b : total_of (a ++ b) = total_of a + total_of b.
Proof. unfold total_of. by rewrite map_app, sumZ_app. Qed.

Lemma add_ancestors_inv V l infos prefixes paths results total paths' results' :
  read_inv V l infos paths results total →
  add_ancestors V l prefixes paths results = Ok (paths', results') →
  read_inv V l infos paths' results' total.
Proof.
  revert paths results. induction prefixes as [|pre rest IH]; intros paths results Hinv H; cbn in H.
  { by apply Ok_inj in H as [= <- <-]. }
  apply ensure_bind_Ok in H as [_ H]. destruct (paths_in _ paths) eqn:Ein; [by eapply IH|].
  apply ensure_bind_Ok in H as [Hle%negb_true_iff%Z.ltb_ge H]. eapply IH; [|exact H].
  destruct Hinv as [H1 H2 H3 H4 H5]. split.
  - apply Forall_app. split; [done|]. by constructor.
  - rewrite total_of_app. unfold total_of at 2. cbn. lia.
  - done.
  - lia.
  - intros e [He|He]%elem_of_app; apply paths_set_elem; [right; by apply H5|].
    apply list_elem_of_singleton in He as ->. by left.
Qed.

Lemma read_entry_inv V l source i info st st' infos :
  0 ≤ maximum_entry_bytes l →
  read_inv V l infos (rs_paths st) (rs_results st) (rs_total st) →
  read_entry V l source i info st = Ok st' →
  read_inv V l (infos ++ [info]) (rs_paths st') (rs_results st') (rs_total st').
Proof.
  intros Hme Hinv H. unfold read_entry in H. apply ensure_bind_Ok in H as [_ H].
  apply result_bind_Ok in H as ([path kind] & Hpath & H). apply ensure_bind_Ok in H as [_ H].
  apply result_bind_Ok in H as ([paths results] & Hanc & H). apply ensure_bind_Ok in H as [_ H].
  apply (add_ancestors_inv _ _ _ _ _ _ _ _ _ Hinv) in Hanc as [H1 H2 H3 H4 H5]. cbv zeta in H.
  assert (infos ⊆ infos ++ [info]) as Hsub by set_solver.
  assert (Forall (entry_facts V l (infos ++ [info])) results) as H1'.
  { eapply Forall_impl; [exact H1|]. intros e. by apply entry_facts_mono. }
  pose proof (paths_set_length (fold V (nfc V path)) kind paths) as Hlen.
  assert (Z.of_nat (length (infos ++ [info])) = Z.of_nat (length infos) + 1) as Hn
    by (rewrite length_app; cbn; lia).
  destruct (bool_decide (kind = DIRECTORY) && _) eqn:Eskip in H.
  { apply Ok_inj in H. subst st'. cbn. split; [done..|lia|].
    intros e He. apply paths_set_elem. right. by apply H5. }
  apply result_bind_Ok in H as ([actual digest] & Had & H).
  apply ensure_bind_Ok in H as [Htot%negb_true_iff%Z.ltb_ge H]. apply Ok_inj in H. subst st'. cbn.
  set (e' := Build_SubmissionArchiveEntry _ _ _ _ _).
  assert (entry_facts V l (infos ++ [info]) e' ∧ 0 ≤ actual) as [He' Hact].
  { unfold entry_facts, e'. cbn. destruct kind; cbn in Had.
    - apply result_bind_Ok in Had as ([n h] & Hm & Had). apply Ok_inj in Had as [= <- <-].
      destruct (Z.lt_ge_cases (maximum_expanded_bytes l - rs_total st) 0) as [Hneg|Hpos]; [lia|].
      apply read_member_Ok in Hm as [Hm Hb]; [|lia]. split; [|lia].
      exists info, h. split_and!; [set_solver|done..].
    - by apply Ok_inj in Had as [= <- <-]. }
  split; [|rewrite total_of_app; unfold total_of at 2; cbn; lia|lia|lia|].
  - apply Forall_app. split; [done|]. by constructor.
  - intros e [He|He]%elem_of_app; apply paths_set_elem; [right; by apply H5|].
    apply list_elem_of_singleton in He as ->. by left.
Qed.

Lemma read_loop_inv V l source i infos st st' done_ :
  0 ≤ maximum_entry_bytes l →
  read_inv V l done_ (rs_paths st) (rs_results st) (rs_total st) →
  read_loop V l source i infos st = Ok st' →
  read_inv V l (done_ ++ infos) (rs_paths st') (rs_results st') (rs_total st').
Proof.
  intros Hme. revert i st done_. induction infos as [|info rest IH]; intros i st dn Hinv H; cbn in H.
  { apply Ok_inj in H as <-. by rewrite app_nil_r. }
  apply result_bind_Ok in H as (st1 & H1 & H). apply (read_entry_inv _ _ _ _ _ _ _ _ Hme Hinv) in H1.
  rewrite cons_middle, app_assoc. by eapply IH.
Qed.

(** ** Order *)

Definition ordered_by {A} (key : A → str) (a b : A) : Prop := str_ltb (key b) (key a) = false.
Abbreviation path_le := (ordered_by normalized_path).

Section Sorting.
Context {A : Type} (key : A → str).

Lemma ordered_by_trans a b c : ordered_by key a b → ordered_by key b c → ordered_by key a c.
Proof.
  unfold ordered_by. intros Hab Hbc. destruct (str_ltb (key c) (key a)) eqn:E; [|done].
  destruct (str_ltb (key a) (key b)) eqn:Hba.
  - by rewrite (str_ltb_trans _ _ _ E Hba) in Hbc.
  - rewrite (str_ltb_total _ _ Hba Hab) in E. congruence.
Qed.

Lemma insert_by_Permutation e s : insert_by key e s ≡ₚ e :: s.
Proof.
  induction s as [|x s IH]; [done|]. cbn. destruct (str_ltb _ _); [done|]. rewrite IH. constructor.
Qed.

Lemma insert_by_sorted e s : StronglySorted (ordered_by key) s → StronglySorted (ordered_by key) (insert_by key e s).
Proof.
  induction 1 as [|x s Hs IH Hx]; [repeat constructor|]. cbn.
  destruct (str_ltb (key e) (key x)) eqn:E.
  - assert (ordered_by key e x) as Hex.
    { unfold ordered_by. destruct (str_ltb (key x) _) eqn:E'; [|done].
      pose proof (str_ltb_trans _ _ _ E E') as H. by rewrite str_ltb_irrefl in H. }
    constructor; [by constructor|]. constructor; [done|].
    eapply Forall_impl; [exact Hx|]. intros y. by apply ordered_by_trans.
  - constructor; [done|]. rewrite insert_by_Permutation. by constructor.
Qed.

Lemma sort_by_spec s : sort_by key s ≡ₚ s ∧ StronglySorted (ordered_by key) (sort_by key s).
Proof.
  unfold sort_by. rewrite <- (app_nil_l s) at 2.
  assert (StronglySorted (ordered_by key) []) as H0 by constructor. revert H0. generalize (@nil A) as acc.
  induction s as [|e s IH]; intros acc Hacc; cbn [foldl]; [by rewrite app_nil_r|].
  destruct (IH (insert_by key e acc)) as [H1 H2]; [by apply insert_by_sorted|]. split; [|done].
  rewrite H1, insert_by_Permutation. by rewrite <- Permutation_middle.
Qed.

Lemma insert_by_last e s : Forall (λ x, ordered_by key x e) s → insert_by key e s = s ++ [e].
Proof. induction 1 as [|x s Hx _ IH]; [done|]. cbn. unfold ordered_by in Hx. by rewrite Hx, IH. Qed.

(** Sorting leaves a sorted list as it is. *)
Lemma sort_by_sorted s : StronglySorted (ordered_by key) s → sort_by key s = s.
Proof.
  intros Hs. unfold sort_by. assert (Forall (λ e, Forall (λ x, ordered_by key x e) []) s) as H0
    by (apply Forall_true; constructor).
  rewrite <- (app_nil_l s) at 2. revert H0. generalize (@nil A) as acc.
  induction Hs as [|e s Hs IH He]; intros acc Hacc; cbn [foldl]; [by rewrite app_nil_r|].
  apply Forall_cons in Hacc as [Hae Hacc]. rewrite insert_by_last by done.
  rewrite IH, <- app_assoc; [done|]. rewrite Forall_forall in *. intros x Hx.
  apply Forall_app. split; [by apply Hacc|]. constructor; [by apply He|constructor].
Qed.
End Sorting.

Lemma inventory_ok_Permutation n f a b : a ≡ₚ b → inventory_ok n f a → inventory_ok n f b.
Proof.
  intros Hp [H1 H2]. split.
  - rewrite <- Hp. done.
  - intros e d He Hd. rewrite <- Hp in He. destruct (H2 e d He Hd) as (x & Hx & H). exists x.
    by rewrite <- Hp.
Qed.

#[export] Instance total_of_Permutation : Proper ((≡ₚ) ==> (=)) total_of.
Proof. intros a b H. unfold total_of. by rewrite H. Qed.

#[export] Instance files_of_Permutation : Proper ((≡ₚ) ==> (=)) files_of.
Proof.
  intros a b H. unfold files_of. f_equal.
  induction H as [|x a b _ IH|x y a|a b c _ IH1 _ IH2]; cbn [List.filter];
    [done| |by destruct (is_file x), (is_file y)|lia].
  destruct (is_file x); cbn; lia.
Qed.

(** ** Accepted archives *)

(** The name of a file entry: a safe relative path of the inventory, in normal form. *)
Definition path_bound (V : ArchiveEnv) (l : SubmissionArchiveLimits) (path : str) : Prop :=
  ∃ raw b, path = nfc V raw ∧ path_unsafe raw (maximum_path_depth l) = false ∧
    utf8_encode path = Some b ∧ len b ≤ maximum_path_bytes l.

Lemma validated_path_bound V l info path kind :
  _validated_path (nfc V) l info = Ok (path, kind) → path_bound V l path.
Proof.
  intros H. unfold _validated_path in H. apply ensure_bind_Ok in H as [_ H]. cbv zeta in H.
  apply result_bind_Ok in H as (p & Hp & H). do 3 (apply ensure_bind_Ok in H as [_ H]).
  apply Ok_inj in H as [= <- _]. unfold normalize_submission_archive_path in Hp. cbv zeta in Hp.
  apply ensure_bind_Ok in Hp as [Hu%negb_true_iff Hp].
  apply result_bind_Ok in Hp as (b1 & _ & Hp). apply result_bind_Ok in Hp as (b2 & Hb2 & Hp).
  apply ensure_bind_Ok in Hp as [Hle%negb_true_iff%Z.ltb_ge Hp]. apply Ok_inj in Hp as <-.
  apply oget_Ok in Hb2. eexists _, b2. split_and!; [reflexivity|done|done|lia].
Qed.

Lemma inspect_inv V l source r :
  inspect V l source = Ok r →
  ∃ layout infos st,
    zip_directory_layout source true = Ok layout ∧ infolist V source = Ok infos ∧
    Z.of_nat (length infos) = entry_count layout ∧ entry_count layout ≤ maximum_entries l ∧
    _validate_record_coverage source infos (directory_offset layout) = Ok tt ∧
    read_loop V l source O infos (Build_ReadState [] [] [] 0) = Ok st ∧
    validate_submission_archive_inventory (nfc V) (fold V) (rs_results st) = Ok tt ∧
    r = {| ir_entries := sort_entries (rs_results st);
           ir_entry_count := Z.of_nat (length (rs_results st));
           ir_file_count := files_of (rs_results st);
           ir_directory_count := Z.of_nat (length (rs_results st)) - files_of (rs_results st);
           ir_total_expanded_bytes := total_of (rs_results st) |}.
Proof.
  unfold inspect. destruct (inspect_body V l source) as [entries|[]] eqn:H; [|done..].
  intros [= <-]. unfold inspect_body in H. cbv zeta in H. apply ensure_bind_Ok in H as [_ H].
  apply result_bind_Ok in H as (layout & Hl & H).
  destruct (zip_directory_layout source true) as [y|] eqn:El; [|done]. apply Ok_inj in Hl as ->.
  apply ensure_bind_Ok in H as [Hlim%negb_true_iff%orb_false_iff H].
  apply result_bind_Ok in H as (infos & Hi & H). apply ensure_bind_Ok in H as [Hn%Z.eqb_eq H].
  apply result_bind_Ok in H as ([] & Hc & H). apply result_bind_Ok in H as (entries' & He & H).
  apply result_bind_Ok in H as ([] & Hv & H). apply Ok_inj in H as ->.
  unfold _read_entries in He. apply result_bind_Ok in He as (st & Hst & He). apply Ok_inj in He as <-.
  exists layout, infos, st. split_and!; [done|done|done| |done..]. lia.
Qed.

Lemma inspect_facts V l source r :
  limits_valid l = true → inspect V l source = Ok r →
  inventory_ok (nfc V) (fold V) (ir_entries r) ∧ StronglySorted path_le (ir_entries r) ∧
  ir_entry_count r = Z.of_nat (length (ir_entries r)) ∧
  ir_file_count r = files_of (ir_entries r) ∧
  ir_directory_count r = ir_entry_count r - ir_file_count r ∧
  ir_total_expanded_bytes r = total_of (ir_entries r) ∧
  0 ≤ ir_total_expanded_bytes r ≤ maximum_expanded_bytes l ∧
  ir_entry_count r ≤ 2 * maximum_entries l ∧
  ∃ infos, infolist V source = Ok infos ∧ Z.of_nat (length infos) ≤ maximum_entries l ∧
    ∀ e, e ∈ ir_entries r → entry_facts V l infos e ∧
      (entry_type e = FILE → path_bound V l (normalized_path e)).
Proof.
  intros Hlim H. destruct (inspect_inv _ _ _ _ H)
    as (layout & infos & st & _ & Hi & Hn & Hmax & _ & Hst & Hv & ->). cbn.
  destruct (sort_by_spec normalized_path (rs_results st)) as [Hperm Hsorted].
  fold (sort_entries (rs_results st)) in Hperm, Hsorted.
  unfold limits_valid in Hlim. rewrite !andb_true_iff, forallb_forall in Hlim.
  destruct Hlim as [[[Hpos _] _] _].
  assert (0 < maximum_entry_bytes l) as Hme by (apply Z.ltb_lt, Hpos; cbn; tauto).
  assert (0 < maximum_expanded_bytes l) as Hmx by (apply Z.ltb_lt, Hpos; cbn; tauto).
  assert (0 < maximum_entries l) as Hmn by (apply Z.ltb_lt, Hpos; cbn; tauto).
  apply (read_loop_inv _ _ _ _ _ _ _ []) in Hst as [H1 H2 H3 H4 H5]; [|lia|].
  2:{ split; [constructor|done|cbn; lia|cbn; lia|by intros e ?%not_elem_of_nil]. }
  apply inventory_iff in Hv. rewrite Forall_forall in H1. cbn [app] in *.
  split_and!; [by eapply inventory_ok_Permutation|done|by rewrite Hperm|by rewrite Hperm|done|
    by rewrite Hperm|lia|lia| |].
  - destruct Hv as [Hd _].
    assert (length (rs_results st) ≤ length (rs_paths st))%nat; [|lia].
    rewrite <- (length_map (folded_path (nfc V) (fold V)) (rs_results st)), <- (length_map fst (rs_paths st)).
    apply submseteq_length, NoDup_submseteq; [done|]. intros x (e & -> & He)%list_elem_of_fmap. by apply H5.
  - exists infos. split_and!; [done|lia|]. intros e He. rewrite Hperm in He. split; [by apply H1|].
    intros Hk. apply H1 in He. unfold entry_facts in He. rewrite Hk in He.
    destruct He as (info & digest & _ & Hp & _). by eapply validated_path_bound.
Qed.

(** C38. What inspection guarantees.  For valid limits, an accepted archive has an unambiguous
    inventory (distinct folded paths, every ancestor a listed directory) in path order with
    exact totals; its expanded size and every file are within their limits; a file's size and
    SHA-256 digest are those of the member it came from, which expands by no more than the
    compression ratio and lies under a safe relative path; the inventory read from the archive
    is within the entry limit, and with the implicit directories at most twice that. *)
Theorem inspect_sound V l source r :
  limits_valid l = true → inspect V l source = Ok r →
  inventory_ok (nfc V) (fold V) (ir_entries r) ∧ StronglySorted path_le (ir_entries r) ∧
  ir_entry_count r = Z.of_nat (length (ir_entries r)) ∧
  ir_file_count r = files_of (ir_entries r) ∧
  ir_directory_count r = ir_entry_count r - ir_file_count r ∧
  ir_total_expanded_bytes r = total_of (ir_entries r) ∧
  0 ≤ ir_total_expanded_bytes r ≤ maximum_expanded_bytes l ∧
  ir_entry_count r ≤ 2 * maximum_entries l ∧
  ∃ infos, infolist V source = Ok infos ∧ Z.of_nat (length infos) ≤ maximum_entries l ∧
    ∀ e, e ∈ ir_entries r → entry_facts V l infos e ∧
      (entry_type e = FILE → path_bound V l (normalized_path e)).
Proof. apply inspect_facts. Qed.
