(* ===== verification/ArchivePaths.v ===== *)
(** * The paths of an inspected archive

    Inspection and export both check paths with [normalize_submission_archive_path]; the export
    also asks that a path is its own normal form.  From what Unicode promises of normal form C it
    follows that the paths an inspection reports, the implicit directories included, pass that
    check unchanged. *)

From S2P Require Import Prelude Text Digest Json ZipSafety Archive ArchiveRead ArchiveGuarantees.

(** ** Normal form C *)

(** The characters the path rules speak of: control characters, space, full stop, slash, colon
    and backslash *)
Definition structural (c : Z) : bool :=
  (c <? 32) || (c =? 127) || existsb (Z.eqb c) [32; 46; 47; 58; 92].

(** What [unicodedata.normalize] promises (UAX 15): the normal form is stable, no text but the
    empty one is normalised to nothing, and the structural characters, which neither compose nor
    come from a decomposition nor are reordered, are boundaries of normalisation. *)
Class NormalForm (n : str → str) : Prop := {
  nf_stable s : n (n s) = n s;
  nf_nil : n [] = [];
  nf_empty s : n s = [] → s = [];
  nf_boundary c a b : structural c = true → n (a ++ c :: b) = n a ++ c :: n b;
  nf_kept c s : structural c = true → c ∈ n s → c ∈ s;
}.

#[export] Instance id_normal_form : NormalForm (λ s, s).
Proof. by split. Qed.

(** ** Splitting at slashes *)

Lemma str_split_nonempty c s : str_split c s ≠ [].
Proof. destruct s as [|x s]; [done|]. cbn. destruct (x =? c); [done|]. by destruct (str_split c s). Qed.

Lemma join_split c s : join c (str_split c s) = s.
Proof.
  induction s as [|x s IH]; [done|]. cbn [str_split]. pose proof (str_split_nonempty c s) as Hne.
  destruct (Z.eqb_spec x c) as [->|_].
  - destruct (str_split c s) as [|y l]; [done|]. rewrite join_cons2, IH. done.
  - destruct (str_split c s) as [|y [|z l]]; [done|by rewrite <- IH|].
    rewrite join_cons2 in *. cbn [app]. by rewrite <- IH.
Qed.

Lemma split_free c s p : p ∈ str_split c s → c ∉ p.
Proof.
  revert p. induction s as [|x s IH]; intros p; cbn [str_split].
  { intros ->%list_elem_of_singleton. apply not_elem_of_nil. }
  destruct (Z.eqb_spec x c) as [->|Hx].
  - intros [->|Hp]%elem_of_cons; [apply not_elem_of_nil|by apply IH].
  - destruct (str_split c s) as [|y l].
    + intros ->%list_elem_of_singleton. by intros ?%list_elem_of_singleton.
    + intros [->|Hp]%elem_of_cons; [|apply IH; by right]. intros [->|Hc]%elem_of_cons; [done|].
      revert Hc. apply IH. by left.
Qed.

Lemma split_app c a s : c ∉ a → str_split c (a ++ c :: s) = a :: str_split c s.
Proof.
  induction a as [|x a IH]; intros Ha; cbn [app str_split]; [by rewrite Z.eqb_refl|].
  apply not_elem_of_cons in Ha as [Hx Ha]. rewrite (proj2 (Z.eqb_neq x c)) by congruence. by rewrite IH.
Qed.

Lemma split_one c a : c ∉ a → str_split c a = [a].
Proof.
  induction a as [|x a IH]; intros Ha; [done|]. cbn. apply not_elem_of_cons in Ha as [Hx Ha].
  rewrite (proj2 (Z.eqb_neq x c)) by congruence. by rewrite IH.
Qed.

Lemma split_join c l : l ≠ [] → Forall (λ p, c ∉ p) l → str_split c (join c l) = l.
Proof.
  induction l as [|x [|y l] IH]; intros Hne H; [done| |].
  - apply split_one. by apply Forall_cons in H as [? _].
  - apply Forall_cons in H as [Hx H]. rewrite join_cons2, split_app by done. by rewrite IH.
Qed.

Lemma join_app c a b : a ≠ [] → b ≠ [] → join c (a ++ b) = join c a ++ c :: join c b.
Proof.
  intros Ha Hb. induction a as [|x [|y a] IH]; [done| |].
  - destruct b; [done|]. by rewrite <- join_cons2.
  - cbn [app] in *. rewrite !join_cons2, IH by done. by rewrite <- app_assoc.
Qed.

(** ** Normalising a path *)

Section Normal.
Context (n : str → str) `{Hn : NormalForm n}.

Lemma normal_join l : n (join slash l) = join slash (map n l).
Proof.
  induction l as [|x [|y l] IH]; [apply nf_nil|done|].
  cbn [map]. rewrite !join_cons2, nf_boundary by done. by rewrite IH.
Qed.

Lemma normal_split p : str_split slash (n p) = map n (str_split slash p).
Proof.
  rewrite <- (join_split slash p) at 1. rewrite normal_join. apply split_join.
  - intros E%map_eq_nil. by apply str_split_nonempty in E.
  - apply Forall_map, Forall_forall. intros q Hq Hs. apply (split_free slash p q Hq). by apply nf_kept in Hs.
Qed.

(** A structural character at the end was there before. *)
Lemma normal_last c s x : structural c = true → n s = x ++ [c] → ∃ y, s = y ++ [c] ∧ n y = x.
Proof.
  intros Hc E. assert (c ∈ s) as Hin.
  { apply (nf_kept c); [done|]. rewrite E. apply elem_of_app. right. by apply list_elem_of_singleton. }
  apply list_elem_of_split_r in Hin as (a & b & -> & Hb). rewrite nf_boundary in E by done.
  destruct (n b) as [|z m _] eqn:Enb using rev_ind.
  - apply nf_empty in Enb as ->. apply app_inj_tail in E as [E _]. by exists a.
  - exfalso. rewrite app_comm_cons, app_assoc in E. apply app_inj_tail in E as [_ ->].
    apply Hb, (nf_kept c); [done|]. rewrite Enb. apply elem_of_app. right. by apply list_elem_of_singleton.
Qed.

Lemma ends_with_one c s : ends_with [c] s = true ↔ ∃ x, s = x ++ [c].
Proof.
  unfold ends_with. cbn. split.
  - destruct (rev s) as [|y l] eqn:E; [done|]. rewrite andb_true_r. intros ->%Z.eqb_eq.
    exists (rev l). rewrite <- (rev_involutive s), E. done.
  - intros [x ->]. rewrite rev_app_distr. cbn. by rewrite Z.eqb_refl.
Qed.

Lemma part_safe p : part_unsafe p = false → part_unsafe (n p) = false.
Proof.
  assert (∀ c x, structural c = true → n p = x ++ [c] → ∃ y, p = y ++ [c] ∧ n y = x) as Hl by (intros; by apply normal_last).
  intros Hp. apply not_true_iff_false. intros H. apply not_true_iff_false in Hp. apply Hp.
  unfold part_unsafe, str_eqb in *. rewrite !orb_true_iff, !bool_decide_eq_true in *.
  change (lit " ") with [32] in *. change (lit ".") with [46] in *. rewrite !ends_with_one in *.
  destruct H as [[[[H|H]|H]|[x H]]|[x H]].
  - do 4 left. by apply nf_empty.
  - do 3 left. right. destruct (Hl 46 []) as (y & -> & ->%nf_empty); done.
  - right. destruct (Hl 46 [46]) as (y & -> & _); [done..|]. by exists y.
  - left. right. destruct (Hl 32 x) as (y & -> & _); [done..|]. by exists y.
  - right. destruct (Hl 46 x) as (y & -> & _); [done..|]. by exists y.
Qed.

Lemma existsb_false {A} (f : A → bool) l : existsb f l = false ↔ ∀ x, x ∈ l → f x = false.
Proof.
  rewrite <- not_true_iff_false, existsb_exists. split.
  - intros H x Hx. apply not_true_iff_false. intros Hf. apply H. exists x. by rewrite <- list_elem_of_In.
  - intros H (x & Hx%list_elem_of_In & Hf). by rewrite H in Hf.
Qed.

(** What the rules say of a path, by its parts *)
Record path_rules (path : str) (depth : Z) : Prop := {
  pr_nonempty : path ≠ [];
  pr_chars c : c ∈ path → c ≠ 92 ∧ 32 ≤ c ∧ c ≠ 127;
  pr_parts p : p ∈ str_split slash path → part_unsafe p = false;
  pr_drive : 58 ∉ hd [] (str_split slash path);
  pr_depth : Z.of_nat (length (str_split slash path)) ≤ depth;
}.

Lemma path_unsafe_rules path depth : path_unsafe path depth = false ↔ path_rules path depth.
Proof.
  unfold path_unsafe. cbv zeta. rewrite !orb_false_iff, !existsb_false, Z.ltb_ge. unfold str_eqb.
  rewrite bool_decide_eq_false. split.
  - intros [[[[[[H1 H2] H3] H4] H5] H6] H7]. split; [done| |done| |done].
    + intros c Hc. specialize (H2 c Hc). specialize (H4 c Hc). lia.
    + intros H%H6. done.
  - intros [H1 H2 H3 H4 H5]. split_and!; [done| | | |done| |done].
    + intros c Hc. specialize (H2 c Hc). lia.
    + destruct path as [|x path]; [done|]. cbn [starts_with]. rewrite andb_true_r. apply Z.eqb_neq. intros <-.
      assert (part_unsafe [] = false) as Hb by (apply H3; cbn; left). done.
    + intros c Hc. specialize (H2 c Hc). lia.
    + intros c Hc. apply Z.eqb_neq. by intros <-.
Qed.

Lemma normal_rules path depth : path_rules path depth → path_rules (n path) depth.
Proof.
  intros [H1 H2 H3 H4 H5]. assert (∀ c, c ∈ n path → structural c = true → c ∈ path) as Hk by (intros; by apply (nf_kept c)).
  split; rewrite ?normal_split.
  - by intros E%nf_empty.
  - intros c Hc. unfold structural in Hk. specialize (Hk c Hc). cbn in Hk. specialize (H2 c).
    split_and!; [intros ->|destruct (Z.lt_ge_cases c 32) as [Hlt|]; [|done]|intros ->].
    + by destruct (H2 (Hk eq_refl)).
    + replace (c <? 32) with true in Hk by lia. by destruct (H2 (Hk eq_refl)) as (_ & ? & _).
    + by destruct (H2 (Hk eq_refl)) as (_ & _ & ?).
  - intros p (q & -> & Hq)%list_elem_of_fmap. by apply part_safe, H3.
  - intros Hin. apply H4. destruct (str_split slash path) as [|q l] eqn:E; [by apply str_split_nonempty in E|].
    cbn in *. by apply (nf_kept 58) in Hin.
  - by rewrite length_map.
Qed.

(** A path in normal form that passes *)
Definition settled (path : str) (bytes depth : Z) : Prop :=
  normalize_submission_archive_path n path bytes depth = Ok path.

Lemma settled_path_iff path bytes depth :
  settled path bytes depth ↔
  path_rules path depth ∧ n path = path ∧ ∃ b, utf8_encode path = Some b ∧ len b ≤ bytes.
Proof.
  unfold settled, normalize_submission_archive_path. cbv zeta. rewrite ensure_bind_Ok, negb_true_iff, path_unsafe_rules. split.
  - intros [H1 H]. apply result_bind_Ok in H as (b1 & H2%oget_Ok & H). apply result_bind_Ok in H as (b2 & H3%oget_Ok & H).
    apply ensure_bind_Ok in H as [H4 H]. apply Ok_inj in H. rewrite H in *. split_and!; [done..|]. exists b1. split; [done|]. lia.
  - intros (H1 & H2 & b & H3 & H4). split; [done|]. rewrite H2, H3. run.
    replace (bytes <? Z.max (len b) (len b)) with false by lia. done.
Qed.

Lemma normalized_settled path bytes depth r :
  normalize_submission_archive_path n path bytes depth = Ok r → settled r bytes depth.
Proof.
  intros H. unfold normalize_submission_archive_path in H. cbv zeta in H.
  rewrite ensure_bind_Ok, negb_true_iff, path_unsafe_rules in H. destruct H as [H1 H].
  apply result_bind_Ok in H as (b1 & _ & H). apply result_bind_Ok in H as (b2 & H3%oget_Ok & H).
  apply ensure_bind_Ok in H as [H4 H]. apply Ok_inj in H as <-. apply settled_path_iff.
  split_and!; [by apply normal_rules|apply nf_stable|]. exists b2. split; [done|lia].
Qed.

(** The ancestors of a path *)

Lemma posix_parts_settled path bytes depth :
  settled path bytes depth → posix_parts path = str_split slash path.
Proof.
  intros ([H1 H2 H3 H4 H5] & _)%settled_path_iff. unfold posix_parts. cbv zeta.
  assert (starts_with [slash] path = false) as Hs.
  { destruct path as [|x path]; [done|]. cbn [starts_with]. rewrite andb_true_r. apply Z.eqb_neq. intros <-.
    assert (part_unsafe [] = false) as Hb by (apply H3; cbn; left). done. }
  assert (starts_with [slash; slash] path = false) as ->.
  { destruct path as [|x path]; [done|]. cbn [starts_with] in Hs |- *. rewrite andb_true_r in Hs. by rewrite Hs. }
  rewrite Hs. cbn [andb].
  assert (∀ l, (∀ p, p ∈ l → part_unsafe p = false) →
    List.filter (λ p, negb (str_eqb p [] || str_eqb p (lit "."))) l = l) as Hf; [|by apply Hf].
  intros l Hl. induction l as [|p l IH]; [done|]. cbn [List.filter].
  assert (part_unsafe p = false) as Hp by (apply Hl; left). unfold part_unsafe in Hp. rewrite !orb_false_iff in Hp.
  destruct Hp as [[[[-> ->] _] _] _]. cbn. f_equal. apply IH. intros q Hq. apply Hl. by right.
Qed.

Lemma ancestor_settled path bytes depth pre :
  settled path bytes depth → pre ∈ proper_prefixes (posix_parts path) → settled (join_path pre) bytes depth.
Proof.
  intros Hset. rewrite (posix_parts_settled _ _ _ Hset). unfold proper_prefixes.
  intros (d & -> & Hd%elem_of_seq)%list_elem_of_fmap.
  apply settled_path_iff in Hset as ([H1 H2 H3 H4 H5] & Hnp & b & Hb & Hlen).
  set (parts := str_split slash path) in *. unfold join_path.
  assert (take d parts ≠ []) as Hne by (intros E%(f_equal length); rewrite length_take in E; cbn in E; lia).
  assert (drop d parts ≠ []) as Hne' by (intros E%(f_equal length); rewrite length_drop in E; cbn in E; lia).
  assert (path = join slash (take d parts) ++ slash :: join slash (drop d parts)) as Ep.
  { rewrite <- join_app by done. rewrite take_drop. symmetry. apply join_split. }
  assert (str_split slash (join slash (take d parts)) = take d parts) as Es.
  { apply split_join; [done|]. apply Forall_forall. intros p Hp. apply (split_free slash path).
    fold parts. rewrite <- (take_drop d parts). apply elem_of_app. by left. }
  assert (∀ p, p ∈ take d parts → p ∈ parts) as Hsub.
  { intros p Hp. rewrite <- (take_drop d parts). apply elem_of_app. by left. }
  apply settled_path_iff. split_and!; [split; rewrite ?Es| |].
  - intros E. rewrite E in Es. change (str_split slash []) with [[]: str] in Es.
    assert (part_unsafe [] = false) as Hu; [|done]. apply H3, Hsub. rewrite <- Es. left.
  - intros c Hc. apply H2. rewrite Ep. apply elem_of_app. by left.
  - intros p Hp. by apply H3, Hsub.
  - destruct d as [|d]; [lia|]. revert H4. generalize parts. by intros [|x L].
  - rewrite length_take. lia.
  - rewrite normal_join. f_equal. rewrite <- firstn_map. f_equal. unfold parts. by rewrite <- normal_split, Hnp.
  - rewrite Ep, utf8_encode_app in Hb. destruct (utf8_encode (join slash (take d parts))) as [b1|]; [|done].
    exists b1. split; [done|]. destruct (utf8_encode (slash :: _)) as [b2|]; [|done]. injection Hb as <-.
    unfold len in *. rewrite length_app in Hlen. lia.
Qed.
End Normal.

(** ** Inspection *)

Section Inspected.
Context (V : ArchiveEnv) (l : SubmissionArchiveLimits) `{Hn : NormalForm (nfc V)}.

Definition settled_entry (e : SubmissionArchiveEntry) : Prop :=
  settled (nfc V) (normalized_path e) (maximum_path_bytes l) (maximum_path_depth l).

Lemma ancestors_settled prefixes paths results paths' results' :
  (∀ pre, pre ∈ prefixes → settled_entry (directory_entry (join_path pre))) →
  Forall settled_entry results → add_ancestors V l prefixes paths results = Ok (paths', results') →
  Forall settled_entry results'.
Proof.
  revert paths results. induction prefixes as [|pre rest IH]; intros paths results Hp Hr H; cbn in H.
  { by apply Ok_inj in H as [= <- <-]. }
  apply ensure_bind_Ok in H as [_ H].
  assert (∀ q, q ∈ rest → settled_entry (directory_entry (join_path q))) as Hp' by (intros; apply Hp; by right).
  destruct (paths_in _ paths); [by eapply IH|]. apply ensure_bind_Ok in H as [_ H]. eapply IH; [done| |exact H].
  apply Forall_app. split; [done|]. apply Forall_cons. split; [apply Hp; by left|done].
Qed.

Lemma read_entry_settled source i info st st' :
  Forall settled_entry (rs_results st) → read_entry V l source i info st = Ok st' →
  Forall settled_entry (rs_results st').
Proof.
  intros Hr H. unfold read_entry in H. apply ensure_bind_Ok in H as [_ H].
  apply result_bind_Ok in H as ([path kind] & Hpath & H). apply ensure_bind_Ok in H as [_ H].
  assert (settled (nfc V) path (maximum_path_bytes l) (maximum_path_depth l)) as Hs.
  { unfold _validated_path in Hpath. cbv zeta in Hpath. apply ensure_bind_Ok in Hpath as [_ Hpath].
    apply result_bind_Ok in Hpath as (p & Hp & Hpath). do 3 (apply ensure_bind_Ok in Hpath as [_ Hpath]).
    apply Ok_inj in Hpath as [= <- _]. by eapply normalized_settled. }
  apply result_bind_Ok in H as ([paths results] & Hanc & H). apply ensure_bind_Ok in H as [_ H].
  apply ancestors_settled in Hanc; [|intros pre; by apply ancestor_settled|done]. cbv zeta in H.
  destruct (bool_decide (kind = DIRECTORY) && _) in H; [by apply Ok_inj in H as <-|].
  apply result_bind_Ok in H as ([actual digest] & _ & H). apply ensure_bind_Ok in H as [_ H].
  apply Ok_inj in H as <-. apply Forall_app. split; [done|]. by apply Forall_cons.
Qed.

Lemma read_loop_settled source i infos st st' :
  Forall settled_entry (rs_results st) → read_loop V l source i infos st = Ok st' →
  Forall settled_entry (rs_results st').
Proof.
  revert i st. induction infos as [|info rest IH]; intros i st Hr H; cbn in H; [by apply Ok_inj in H as <-|].
  apply result_bind_Ok in H as (st1 & H1 & H). apply read_entry_settled in H1; [|done]. by eapply IH.
Qed.

(** Every path an inspection reports passes the check again, and is its own normal form. *)
Lemma inspected_settled source r :
  inspect V l source = Ok r → ∀ e, e ∈ ir_entries r → settled_entry e.
Proof.
  intros (layout & infos & st & _ & _ & _ & _ & _ & Hst & _ & ->)%inspect_inv e. cbn.
  destruct (sort_by_spec normalized_path (rs_results st)) as [Hperm _].
  fold (sort_entries (rs_results st)) in Hperm. rewrite Hperm.
  apply read_loop_settled in Hst; [|by cbn]. by apply Forall_forall.
Qed.
End Inspected.
