(* ===== verification/ArchiveExport.v ===== *)
(** * Submission archives: export and sealed trees (modules/artifacts/submission_archive.py)

    [exported_submission_tree] receives raw files chunk by chunk into a scratch workspace,
    reads every file back, and exposes the verified contents as a [SealedSubmissionTree].  The
    workspace is the list of files that were closed, in order, and the file that is open; what
    the operating system does with the workspace, an open or a write is an argument of the
    call; the directories themselves are not modelled.
    The archive whose implicit directories exceed the entry limit is at the end. *)

From S2P Require Import Prelude Text Digest Json Instant OutboxApi ZipSafety Archive ArchiveRead.
From S2P Require Import ArchiveGuarantees ArchivePaths.

(** ** Before the export *)

Fixpoint check_expected (n : str → str) (l : SubmissionArchiveLimits)
    (entries : list SubmissionArchiveEntry) : result ArchiveExn unit :=
  match entries with
  | [] => Ok tt
  | e :: rest =>
      path ← normalize_submission_archive_path n (normalized_path e) (maximum_path_bytes l)
               (maximum_path_depth l);
      _ ← ensure (negb (negb (str_eqb path (normalized_path e))
                        || (maximum_entry_bytes l <? byte_count e))) (Rejected INTEGRITY_FAILURE);
      check_expected n l rest
  end.

Definition export_preflight (n f : str → str) (l : SubmissionArchiveLimits)
    (expected : SubmissionArchiveInspectionResult) : result ArchiveExn unit :=
  _ ← validate_submission_archive_inventory n f (ir_entries expected);
  _ ← check_expected n l (ir_entries expected);
  ensure (negb ((maximum_entries l <? ir_entry_count expected)
                || (maximum_expanded_bytes l <? ir_total_expanded_bytes expected)))
    (Rejected LIMIT_EXCEEDED).

(** ** Receiving files *)

Record ExportState := {
  xs_descriptor : option bytes;        (** the open file and what it holds *)
  xs_position : nat;
  xs_written : Z;
  xs_files : list (str * bytes);       (** the closed files, first to last *)
}.

Definition export_start : ExportState :=
  {| xs_descriptor := None; xs_position := O; xs_written := 0; xs_files := [] |}.

(** What the operating system does: whether the file opens, and how many bytes are written
    before a write fails ([None]: none fails). *)
Record Os := { os_open : bool; os_write : option nat }.

(** The callback [receive]; its effects remain when it raises. *)
Definition receive (files : list SubmissionArchiveEntry) (os : Os) (e : SubmissionArchiveEntry)
    (content : bytes) (st : ExportState) : ExportState * result ArchiveExn unit :=
  let broken := Raise (Rejected INTEGRITY_FAILURE) in
  if negb (bool_decide (files !! xs_position st = Some e)) then (st, broken)
  else if bool_decide (xs_descriptor st = None) && negb (os_open os) then (st, Raise Fault)
  else
    let held := default [] (xs_descriptor st) in
    let opened := {| xs_descriptor := Some held; xs_position := xs_position st;
                     xs_written := xs_written st; xs_files := xs_files st |} in
    if (byte_count e <? xs_written st + len content)
       || ((len content =? 0) && negb (byte_count e =? 0)) then (opened, broken)
    else match os_write os with
    | Some k =>
        ({| xs_descriptor := Some (held ++ take k content); xs_position := xs_position st;
            xs_written := xs_written st; xs_files := xs_files st |}, Raise Fault)
    | None =>
        let held := held ++ content in
        let written := xs_written st + len content in
        (if written =? byte_count e then
           {| xs_descriptor := None; xs_position := S (xs_position st); xs_written := 0;
              xs_files := xs_files st ++ [(normalized_path e, held)] |}
         else
           {| xs_descriptor := Some held; xs_position := xs_position st; xs_written := written;
              xs_files := xs_files st |}, Ok tt)
    end.

(** The calls of [export(receive)]; an exporter may go on after a call that raised. *)
Fixpoint export_run (files : list SubmissionArchiveEntry)
    (calls : list (Os * SubmissionArchiveEntry * bytes)) (st : ExportState) : ExportState :=
  match calls with
  | [] => st
  | (os, e, content) :: rest => export_run files rest (receive files os e content st).1
  end.

(** ** Reading back *)

(** The newest file of a path; the exclusive creation flag admits only one. *)
Definition stored (files : list (str * bytes)) (path : str) : option bytes :=
  snd <$> List.find (λ kv, str_eqb kv.1 path) files.

Definition sha_of (content : bytes) : str := lit "sha256:" ++ sha256_hex content.

(** [_read_projected_file], for a regular file that keeps its mode *)
Definition _read_projected_file (fs : list (str * bytes)) (entries : list SubmissionArchiveEntry)
    (path : str) (maximum_bytes : Z) : result ArchiveExn bytes :=
  e ← oget (List.find (λ e, str_eqb (normalized_path e) path && is_file e) entries)
        (Rejected LIMIT_EXCEEDED);
  _ ← ensure (negb (maximum_bytes <? byte_count e)) (Rejected LIMIT_EXCEEDED);
  content ← oget (stored fs path) Fault;
  _ ← ensure (len content =? byte_count e) (Rejected INTEGRITY_FAILURE);
  _ ← ensure (negb (maximum_bytes <? len content)) (Rejected LIMIT_EXCEEDED);
  _ ← ensure (bool_decide (Some (sha_of content) = entry_sha256 e)) (Rejected INTEGRITY_FAILURE);
  Ok content.

(** [_seal_projected_content] *)
Fixpoint _seal_projected_content (fs : list (str * bytes)) (entries files : list SubmissionArchiveEntry)
    : result ArchiveExn (list (str * bytes)) :=
  match files with
  | [] => Ok []
  | e :: rest =>
      content ← _read_projected_file fs entries (normalized_path e) (byte_count e);
      more ← _seal_projected_content fs entries rest;
      Ok ((normalized_path e, content) :: more)
  end.

Record SealedSubmissionTree := {
  st_entries : list SubmissionArchiveEntry;
  st_content : list (str * bytes);
  st_closed : bool;
}.

Inductive TreeExn := TreeRejected (code : SubmissionArchiveFailureCode) | TreeClosed | ReadLimit.

Definition read_file (t : SealedSubmissionTree) (path : str) (maximum_bytes : Z) : result TreeExn bytes :=
  _ ← ensure (negb (st_closed t)) TreeClosed;
  _ ← ensure (negb (maximum_bytes <? 0)) ReadLimit;
  content ← oget (stored (st_content t) path) (TreeRejected LIMIT_EXCEEDED);
  _ ← ensure (negb (maximum_bytes <? len content)) (TreeRejected LIMIT_EXCEEDED);
  e ← oget (List.find (λ e, str_eqb (normalized_path e) path && is_file e) (st_entries t))
        (TreeRejected INTEGRITY_FAILURE);
  _ ← ensure (negb (negb (len content =? byte_count e)
                    || negb (bool_decide (Some (sha_of content) = entry_sha256 e))))
        (TreeRejected INTEGRITY_FAILURE);
  Ok content.

Definition _close (t : SealedSubmissionTree) : SealedSubmissionTree :=
  {| st_entries := []; st_content := []; st_closed := true |}.

(** What the operating system does with the workspace: whether it opens, whether it is a
    directory closed to others ([st_mode & 0o077 == 0]), whether the directories are made, and
    whether they are sealed ([0o500]). *)
Record Workspace := { ws_opens : bool; ws_private : bool; ws_mkdirs : bool; ws_seals : bool }.

(** [exported_submission_tree] up to the [yield] *)
Definition exported_submission_tree (n f : str → str) (l : SubmissionArchiveLimits) (ws : Workspace)
    (calls : list (Os * SubmissionArchiveEntry * bytes)) (expected : SubmissionArchiveInspectionResult)
    : result ArchiveExn SealedSubmissionTree :=
  _ ← export_preflight n f l expected;
  let files := List.filter is_file (ir_entries expected) in
  _ ← ensure (ws_opens ws) Fault;
  _ ← ensure (ws_private ws) (Rejected INTEGRITY_FAILURE);
  _ ← ensure (ws_mkdirs ws) Fault;
  let st := export_run files calls export_start in
  _ ← ensure (negb (negb (xs_position st =? length files)%nat
                    || negb (bool_decide (xs_descriptor st = None)))) (Rejected INTEGRITY_FAILURE);
  _ ← ensure (ws_seals ws) Fault;
  content ← _seal_projected_content (xs_files st) (ir_entries expected) files;
  Ok {| st_entries := ir_entries expected; st_content := content; st_closed := false |}.

(** ** An archive above the entry limit *)

Definition sample_zip : bytes :=
  [80; 75; 3; 4; 20; 0; 0; 0; 0; 0; 0; 0; 33; 80; 172; 42; 147; 216; 2; 0; 0; 0; 2; 0; 0; 0; 3; 0;
    0; 0; 100; 47; 97; 104; 105; 80; 75; 3; 4; 20; 0; 0; 0; 0; 0; 0; 0; 33; 80; 137; 172; 41; 98;
    2; 0; 0; 0; 2; 0; 0; 0; 1; 0; 0; 0; 98; 121; 111; 80; 75; 1; 2; 20; 3; 20; 0; 0; 0; 0; 0; 0;
    0; 33; 80; 172; 42; 147; 216; 2; 0; 0; 0; 2; 0; 0; 0; 3; 0; 0; 0; 0; 0; 0; 0; 0; 0; 0; 0; 164;
    129; 0; 0; 0; 0; 100; 47; 97; 80; 75; 1; 2; 20; 3; 20; 0; 0; 0; 0; 0; 0; 0; 33; 80; 137; 172;
    41; 98; 2; 0; 0; 0; 2; 0; 0; 0; 1; 0; 0; 0; 0; 0; 0; 0; 0; 0; 0; 0; 164; 129; 35; 0; 0; 0; 98;
    80; 75; 5; 6; 0; 0; 0; 0; 2; 0; 2; 0; 96; 0; 0; 0; 68; 0; 0; 0; 0; 0].

Definition sample_infos : list ZipInfo :=
  [sample_info;
   {| filename := lit "b"; orig_filename := lit "b"; header_offset := 35; compress_type := 0;
      flag_bits := 0; CRC := 0x6229ac89; compress_size := 2; file_size := 2;
      external_attr := 2175008768; create_system := 3 |}].

Definition sample_env : ArchiveEnv :=
  {| nfc s := s; fold s := s;
     zlib := {| dz_state := unit; dz_init := tt; dz_step _ _ _ := None; dz_flush _ := None;
                dz_eof _ := false; dz_unused _ := []; dz_tail _ := [] |};
     infolist _ := Ok sample_infos;
     member i := ([if header_offset i =? 0 then lit "hi" else lit "yo"], EndOfMember);
     late_entry _ := false; late_stream _ _ := false; late_member _ _ := false |}.

Definition small_limits : SubmissionArchiveLimits :=
  {| maximum_entries := 2; maximum_path_bytes := 1024; maximum_path_depth := 32;
     maximum_central_directory_bytes := 8 * 1024 * 1024; maximum_entry_bytes := 128 * 1024 * 1024;
     maximum_expanded_bytes := 512 * 1024 * 1024; maximum_compression_ratio := 100 |}.

Definition sample_inspection : result ArchiveExn SubmissionArchiveInspectionResult :=
  inspect sample_env small_limits sample_zip.

(** ** Lookups *)

Lemma find_entry entries e :
  NoDup (map normalized_path entries) → e ∈ entries → is_file e = true →
  List.find (λ x, str_eqb (normalized_path x) (normalized_path e) && is_file x) entries = Some e.
Proof.
  induction entries as [|x l IH]; intros Hn He Hf; [by apply not_elem_of_nil in He|].
  apply NoDup_cons in Hn as [Hx Hn]. cbn [List.find].
  apply elem_of_cons in He as [->|He]; [by rewrite (proj2 (str_eqb_eq _ _) eq_refl), Hf|].
  destruct (str_eqb (normalized_path x) (normalized_path e)) eqn:E; [|by apply IH].
  exfalso. apply Hx. apply str_eqb_eq in E as ->. by apply list_elem_of_fmap_2.
Qed.

Lemma stored_elem c path content :
  NoDup (map fst c) → (path, content) ∈ c → stored c path = Some content.
Proof.
  unfold stored. induction c as [|[k v] c IH]; intros Hn Hin; [by apply not_elem_of_nil in Hin|].
  apply NoDup_cons in Hn as [Hk Hn]. cbn [List.find fst].
  apply elem_of_cons in Hin as [[= <- <-]|Hin]; [by rewrite (proj2 (str_eqb_eq _ _) eq_refl)|].
  destruct (str_eqb k path) eqn:E; [|by apply IH].
  exfalso. apply Hk. apply str_eqb_eq in E as ->. apply list_elem_of_fmap. by exists (path, content).
Qed.

Lemma read_projected_Ok fs entries e content :
  NoDup (map normalized_path entries) → e ∈ entries → is_file e = true →
  _read_projected_file fs entries (normalized_path e) (byte_count e) = Ok content →
  len content = byte_count e ∧ entry_sha256 e = Some (sha_of content) ∧
  stored fs (normalized_path e) = Some content.
Proof.
  intros Hn He Hf H. unfold _read_projected_file in H. rewrite find_entry in H by done.
  rewrite bind_oget in H. apply ensure_bind_Ok in H as [_ H].
  apply result_bind_Ok in H as (c & Hc & H). apply oget_Ok in Hc.
  apply ensure_bind_Ok in H as [Hl%Z.eqb_eq H]. apply ensure_bind_Ok in H as [_ H].
  apply ensure_bind_Ok in H as [Hs%bool_decide_eq_true_1 H]. apply Ok_inj in H as ->. done.
Qed.

Lemma seal_Ok fs entries files c :
  _seal_projected_content fs entries files = Ok c →
  map fst c = map normalized_path files ∧
  ∀ e, e ∈ files → ∃ content, (normalized_path e, content) ∈ c ∧
    _read_projected_file fs entries (normalized_path e) (byte_count e) = Ok content.
Proof.
  revert c. induction files as [|e files IH]; intros c H; cbn in H.
  { apply Ok_inj in H as <-. split; [done|]. by intros ? ?%not_elem_of_nil. }
  apply result_bind_Ok in H as (content & Hc & H). apply result_bind_Ok in H as (more & Hm & H).
  apply Ok_inj in H as <-. destruct (IH _ Hm) as [H1 H2]. cbn. split; [by rewrite H1|].
  intros x [->|Hx]%elem_of_cons; [exists content; split; [left|done]|].
  destruct (H2 x Hx) as (c' & Hin & Hr). exists c'. split; [by right|done].
Qed.

Lemma filter_paths_NoDup (entries : list SubmissionArchiveEntry) :
  NoDup (map normalized_path entries) → NoDup (map normalized_path (List.filter is_file entries)).
Proof.
  induction entries as [|e l IH]; cbn [map List.filter]; [done|]. intros [He Hn]%NoDup_cons.
  destruct (is_file e); [|by apply IH]. cbn. apply NoDup_cons. split; [|by apply IH].
  intros (x & Ex & Hx)%list_elem_of_fmap. apply He. rewrite Ex. apply list_elem_of_fmap_2.
  apply list_elem_of_In, filter_In in Hx as [Hx _]. by apply list_elem_of_In.
Qed.

(** ** The stream of chunks *)

Fixpoint all_accepted (files : list SubmissionArchiveEntry)
    (calls : list (Os * SubmissionArchiveEntry * bytes)) (st : ExportState) : bool :=
  match calls with
  | [] => true
  | (os, e, content) :: rest =>
      is_ok (receive files os e content st).2 && all_accepted files rest (receive files os e content st).1
  end.

(** Everything received so far, in order. *)
Definition received (st : ExportState) : bytes :=
  concat (map snd (xs_files st)) ++ default [] (xs_descriptor st).

Lemma receive_received files os e content st :
  is_ok (receive files os e content st).2 = true →
  received (receive files os e content st).1 = received st ++ content.
Proof.
  unfold receive. destruct (negb (bool_decide _)); [done|]. destruct (_ && _); [done|].
  destruct (_ || _); [done|]. destruct (os_write os); [done|]. intros _. unfold received.
  cbn [fst snd]. destruct (_ =? _); cbn [xs_files xs_descriptor]; simpl (default _ (Some _));
    simpl (default _ None).
  - rewrite map_app, concat_app. cbn [map concat snd]. by rewrite !app_nil_r, <- app_assoc.
  - by rewrite <- app_assoc.
Qed.

Lemma export_received files calls st :
  all_accepted files calls st = true →
  received (export_run files calls st) = received st ++ concat (map snd calls).
Proof.
  revert st. induction calls as [|[[os e] content] calls IH]; intros st; cbn; [by rewrite app_nil_r|].
  intros [H1 H2]%andb_true_iff. rewrite IH by done. rewrite receive_received by done.
  by rewrite app_assoc.
Qed.

(** ** Theorems *)

Lemma preflight_paths n f l expected :
  export_preflight n f l expected = Ok tt → NoDup (map normalized_path (ir_entries expected)).
Proof.
  unfold export_preflight. intros ([] & H & _)%result_bind_Ok. apply inventory_iff in H.
  eapply folded_distinct, io_distinct, H.
Qed.

Lemma read_file_Ok t e content m :
  st_closed t = false → NoDup (map normalized_path (st_entries t)) → e ∈ st_entries t → is_file e = true →
  stored (st_content t) (normalized_path e) = Some content → len content = byte_count e →
  entry_sha256 e = Some (sha_of content) → byte_count e ≤ m →
  read_file t (normalized_path e) m = Ok content.
Proof.
  intros Hc Hn He Hf Hs Hl Hd Hm. unfold read_file. rewrite Hc, Hs. pose proof (len_pos content).
  replace (m <? 0) with false by lia. run.
  rewrite find_entry by done. run. rewrite Hl, Z.eqb_refl, Hd, bool_decide_eq_true_2 by done.
  replace (m <? byte_count e) with false by lia. by run.
Qed.

Lemma export_facts n f l ws calls expected t :
  exported_submission_tree n f l ws calls expected = Ok t →
  (∀ e, e ∈ ir_entries expected → is_file e = true →
     ∃ content, len content = byte_count e ∧ entry_sha256 e = Some (sha_of content) ∧
       ∀ m, byte_count e ≤ m → read_file t (normalized_path e) m = Ok content) ∧
  (∀ path m, read_file (_close t) path m = Raise TreeClosed) ∧
  (let files := List.filter is_file (ir_entries expected) in
   all_accepted files calls export_start = true →
   concat (map snd (xs_files (export_run files calls export_start))) = concat (map snd calls)).
Proof.
  intros H. unfold exported_submission_tree in H. cbv zeta in H.
  apply result_bind_Ok in H as ([] & Hpre & H). apply preflight_paths in Hpre as Hn.
  set (files := List.filter is_file (ir_entries expected)) in *.
  do 3 apply ensure_bind_Ok in H as [_ H]. apply ensure_bind_Ok in H as [Hend H].
  apply ensure_bind_Ok in H as [_ H]. apply result_bind_Ok in H as (c & Hseal & H).
  apply Ok_inj in H. subst t. destruct (seal_Ok _ _ _ _ Hseal) as [Hkeys Hall].
  split_and!; [|done|].
  - intros e He Hf. assert (e ∈ files) as Hin.
    { apply list_elem_of_In, filter_In. split; [by apply list_elem_of_In|done]. }
    destruct (Hall e Hin) as (content & Hc & Hr).
    destruct (read_projected_Ok _ _ _ _ Hn He Hf Hr) as (Hlen & Hsha & _).
    exists content. split_and!; [done..|]. intros m Hm. apply read_file_Ok; [done..| |done|done|done].
    apply stored_elem; [|done]. cbn. rewrite Hkeys. by apply filter_paths_NoDup.
  - cbv zeta. fold files. intros Hok. apply export_received in Hok. cbn [app] in Hok. unfold received in Hok.
    apply negb_true_iff, orb_false_iff in Hend as [_ Hd%negb_false_iff].
    apply bool_decide_eq_true_1 in Hd. rewrite Hd in Hok. cbn in Hok. by rewrite !app_nil_r in Hok.
Qed.

(** A sealed tree holds what was committed.  However the exporter behaves, when the export
    succeeds every file of the inspection can be read, within a limit that admits it, as
    contents whose length and SHA-256 digest are the recorded ones; nothing can be read after
    the tree is closed; and when no call failed the files, in inventory order, are exactly the
    chunks that were sent. *)
Theorem export_sealed n f l ws calls expected t :
  exported_submission_tree n f l ws calls expected = Ok t →
  (∀ e, e ∈ ir_entries expected → is_file e = true →
     ∃ content, len content = byte_count e ∧ entry_sha256 e = Some (sha_of content) ∧
       ∀ m, byte_count e ≤ m → read_file t (normalized_path e) m = Ok content) ∧
  (∀ path m, read_file (_close t) path m = Raise TreeClosed) ∧
  (let files := List.filter is_file (ir_entries expected) in
   all_accepted files calls export_start = true →
   concat (map snd (xs_files (export_run files calls export_start))) = concat (map snd calls)).
Proof. apply export_facts. Qed.

Lemma check_expected_Ok V l entries :
  (∀ e, e ∈ entries → settled_entry V l e) → Forall (λ e, byte_count e ≤ maximum_entry_bytes l) entries →
  check_expected (nfc V) l entries = Ok tt.
Proof.
  induction entries as [|e rest IH]; intros Hp Hb; [done|]. cbn.
  assert (settled_entry V l e) as He by (apply Hp; left). unfold settled_entry, settled in He. rewrite He.
  apply Forall_cons in Hb as [Hle Hb]. rewrite bind_Ok, (proj2 (str_eqb_eq _ _) eq_refl).
  replace (maximum_entry_bytes l <? byte_count e) with false by lia. run.
  apply IH; [|done]. intros x Hx. apply Hp. by right.
Qed.

Lemma entry_within V l infos e :
  0 ≤ maximum_entry_bytes l → entry_facts V l infos e → byte_count e ≤ maximum_entry_bytes l.
Proof.
  intros Hl. unfold entry_facts. destruct (entry_type e); [|lia]. intros (info & d & _ & _ & [? ? ? ? ?] & _). done.
Qed.

(** An inspected archive fails the checks before its export only by its number of entries. *)
Lemma preflight_inspected V l source r :
  NormalForm (nfc V) → limits_valid l = true → inspect V l source = Ok r →
  export_preflight (nfc V) (fold V) l r =
  if ir_entry_count r <=? maximum_entries l then Ok tt else Raise (Rejected LIMIT_EXCEEDED).
Proof.
  intros Hn Hl H.
  destruct (inspect_facts V l source r Hl H) as (Hinv & _ & _ & _ & _ & _ & [_ Htot] & _ & infos & _ & _ & He).
  unfold limits_valid in Hl. rewrite !andb_true_iff, forallb_forall in Hl. destruct Hl as [[[Hpos _] _] _].
  assert (0 < maximum_entry_bytes l) as Hme by (apply Z.ltb_lt, Hpos; cbn; tauto).
  unfold export_preflight. rewrite (proj2 (inventory_iff _ _ _) Hinv), bind_Ok.
  rewrite check_expected_Ok, bind_Ok; [|by eapply inspected_settled|].
  2:{ apply Forall_forall. intros e Hin. destruct (He e Hin) as [Hf _].
      by apply (entry_within V l infos); [lia|]. }
  replace (maximum_expanded_bytes l <? ir_total_expanded_bytes r) with false by lia.
  rewrite orb_false_r, <- Z.leb_antisym. by destruct (_ <=? _).
Qed.

(** C40. The entry limit is not enforced by inspection.  For valid limits, and a normalisation that
    keeps the laws of Unicode normal form C ([NormalForm]: it is stable, and path separators, dots,
    spaces, colons, backslashes and control characters are boundaries of it), the checks that the
    export makes before it writes accept an inspected archive under the same limits exactly when
    its entries, implicit directories included, are within [maximum_entries]; above that the whole
    export is refused as [LIMIT_EXCEEDED], whatever the workspace and the exporter do.  But
    inspection counts implicit directories only at the moment it adds one, so it accepts archives
    above the limit: one is given. *)
Theorem entry_limit_gap :
  (∀ V l source r, NormalForm (nfc V) → limits_valid l = true → inspect V l source = Ok r →
     export_preflight (nfc V) (fold V) l r =
       (if ir_entry_count r <=? maximum_entries l then Ok tt else Raise (Rejected LIMIT_EXCEEDED)) ∧
     (maximum_entries l < ir_entry_count r → ∀ ws calls,
        exported_submission_tree (nfc V) (fold V) l ws calls r = Raise (Rejected LIMIT_EXCEEDED))) ∧
  (∃ V l source r, NormalForm (nfc V) ∧ limits_valid l = true ∧ inspect V l source = Ok r ∧
     maximum_entries l < ir_entry_count r ∧
     export_preflight (nfc V) (fold V) l r = Raise (Rejected LIMIT_EXCEEDED)).
Proof.
  split.
  - intros V l source r Hn Hl H. pose proof (preflight_inspected V l source r Hn Hl H) as Hp. split; [exact Hp|].
    intros Hlt ws calls. unfold exported_submission_tree. rewrite Hp.
    by replace (ir_entry_count r <=? maximum_entries l) with false by lia.
  - destruct sample_inspection as [r|] eqn:E.
    + exists sample_env, small_limits, sample_zip, r. split; [apply id_normal_form|]. split; [done|]. split; [exact E|].
      vm_compute in E. apply Ok_inj in E as <-. split; vm_compute; reflexivity.
    + vm_compute in E. done.
Qed.

(** ** The sample archive *)

Definition inspected : SubmissionArchiveInspectionResult :=
  match sample_inspection with
  | Ok r => r
  | Raise _ => Build_SubmissionArchiveInspectionResult [] 0 0 0 0
  end.

Lemma inspect_sound_witness :
  ∃ r, inspect sample_env small_limits sample_zip = Ok r ∧ ir_entry_count r = 3 ∧
       inventory_ok (nfc sample_env) (fold sample_env) (ir_entries r).
Proof.
  exists inspected. split; [vm_compute; reflexivity|]. split; [vm_compute; reflexivity|].
  apply (inspect_sound sample_env small_limits sample_zip inspected);
    [vm_compute; reflexivity|vm_compute; reflexivity].
Defined.

(** Limits that admit the sample with its implicit directory. *)
Definition wide_limits : SubmissionArchiveLimits :=
  {| maximum_entries := 3; maximum_path_bytes := 1024; maximum_path_depth := 32;
     maximum_central_directory_bytes := 8 * 1024 * 1024; maximum_entry_bytes := 128 * 1024 * 1024;
     maximum_expanded_bytes := 512 * 1024 * 1024; maximum_compression_ratio := 100 |}.

Definition os_fine : Os := {| os_open := true; os_write := None |}.
Definition sample_file (path content : str) : SubmissionArchiveEntry :=
  {| normalized_path := path; entry_type := FILE; byte_count := len content;
     entry_sha256 := Some (sha_of content); executable := Some false |}.
Definition workspace : Workspace :=
  {| ws_opens := true; ws_private := true; ws_mkdirs := true; ws_seals := true |}.
Definition sample_calls : list (Os * SubmissionArchiveEntry * bytes) :=
  [(os_fine, sample_file (lit "b") (lit "yo"), lit "yo");
   (os_fine, sample_file (lit "d/a") (lit "hi"), lit "h");
   (os_fine, sample_file (lit "d/a") (lit "hi"), lit "i")].
Lemma sample_export_ok :
  is_ok (exported_submission_tree (λ s, s) (λ s, s) wide_limits workspace sample_calls inspected) = true.
Proof. vm_compute. reflexivity. Qed.

Lemma export_sealed_witness :
  ∃ t, exported_submission_tree (λ s, s) (λ s, s) wide_limits workspace sample_calls inspected = Ok t ∧
       ∀ path m, read_file (_close t) path m = Raise TreeClosed.
Proof.
  pose proof sample_export_ok as Hok.
  destruct (exported_submission_tree (λ s, s) (λ s, s) wide_limits workspace sample_calls inspected)
    as [t|x] eqn:E; [|discriminate Hok].
  exists t. split; [reflexivity|].
  exact (proj1 (proj2 (export_sealed (λ s, s) (λ s, s) wide_limits workspace sample_calls inspected t E))).
Defined.

(** A decompressor that copies, for the contract of [zlib]. *)
Definition copying : Decompressor :=
  {| dz_state := unit; dz_init := tt;
     dz_step _ p m := Some (take (Z.to_nat m) p, drop (Z.to_nat m) p, tt);
     dz_flush _ := Some ([], tt); dz_eof _ := true; dz_unused _ := []; dz_tail _ := [] |}.

Lemma copying_ok : zlib_ok copying.
Proof.
  intros d p m output tail d' Hm [= <- <- _]. unfold len. rewrite length_take, length_drop.
  split_and!; [lia|lia|]. intros H. apply drop_ge. lia.
Qed.

Definition copying_env : ArchiveEnv :=
  {| nfc s := s; fold s := s; zlib := copying; infolist _ := Ok []; member _ := ([], EndOfMember);
     late_entry _ := false; late_stream _ _ := false; late_member _ _ := false |}.
Definition deflated_info : ZipInfo :=
  {| filename := lit "d/a"; orig_filename := lit "d/a"; header_offset := 0; compress_type := 8;
     flag_bits := 0; CRC := 0; compress_size := 2; file_size := 2; external_attr := 0;
     create_system := 3 |}.

Lemma stream_bounded_witness :
  _validate_compressed_stream copying_env sample_record O deflated_info 10 = Ok tt ∧
  _validate_compressed_stream copying_env sample_record O deflated_info 10 ≠ Raise OutOfFuel.
Proof.
  split; [vm_compute; reflexivity|].
  exact (proj1 (stream_bounded copying_env sample_record O deflated_info 10 copying_ok
                  ltac:(lia) ltac:(cbn; lia))).
Defined.
