(* ===== verification/Manifest.v ===== *)
(** * Submission manifests and the change gate (modules/artifacts/submission_manifest.py)

    The canonical semantic manifest of an inspected archive: its JSON body, its digest, its
    recovery from stored JSON, and the gate that compares a successor with its predecessor.
    A [ValueError] is [Fault]; the values of stored entries keep the JSON types they were read
    with until the constructor checks them.  Main results: a manifest is recovered from its own
    body, and the gate calls two submissions unchanged exactly when their manifests have the
    same entries, up to a SHA-256 collision. *)

From S2P Require Import Prelude Text Digest Json Instant OutboxApi ZipSafety Archive ArchiveRead.
From S2P Require Import ArchiveGuarantees.

Definition SUBMISSION_MANIFEST_SCHEMA_VERSION : str := lit "workstream.submission_bundle_manifest.v1".

Record SubmissionManifest := {
  sm_sha256 : str;
  sm_entries : list SubmissionArchiveEntry;
  sm_entry_count : Z;
  sm_file_count : Z;
  sm_directory_count : Z;
  sm_total_expanded_bytes : Z;
}.

Definition opt_str (o : option str) : json := match o with Some s => JStr s | None => JNull end.
Definition opt_bool (o : option bool) : json := match o with Some b => JBool b | None => JNull end.

Definition entry_body (e : SubmissionArchiveEntry) : json :=
  match entry_type e with
  | DIRECTORY => JObj [kv "normalized_path" (JStr (normalized_path e));
                       kv "entry_type" (JStr (lit "directory"))]
  | FILE => JObj [kv "normalized_path" (JStr (normalized_path e));
                  kv "entry_type" (JStr (lit "file")); kv "sha256" (opt_str (entry_sha256 e));
                  kv "byte_count" (JInt (byte_count e)); kv "executable" (opt_bool (executable e))]
  end.

Definition _manifest_body (entries : list SubmissionArchiveEntry) : json :=
  JObj [kv "schema_version" (JStr SUBMISSION_MANIFEST_SCHEMA_VERSION);
        kv "entries" (JArr (map entry_body entries))].

Definition as_dict (m : SubmissionManifest) : json := _manifest_body (sm_entries m).

Record SubmissionBundleFile := { bf_path : str; bf_sha256 : str; bf_byte_count : Z }.

Definition max_manifest_bytes : Z := 512 * 1024 * 1024.

(** [SubmissionBundleFile.__post_init__] *)
Definition bundle_file (path : str) (sha256 : option str) (size : Z)
    : result ArchiveExn SubmissionBundleFile :=
  _ ← ensure (negb (str_eqb path [])) Fault;
  encoded ← oget (utf8_encode path) Fault;
  _ ← ensure (len encoded <=? 4096) Fault;
  sha256 ← oget sha256 Fault;
  _ ← ensure (digest_pattern sha256 && (0 <=? size) && (size <=? max_manifest_bytes)) Fault;
  Ok {| bf_path := path; bf_sha256 := sha256; bf_byte_count := size |}.

Fixpoint bundle_files (entries : list SubmissionArchiveEntry) : result ArchiveExn (list SubmissionBundleFile) :=
  match entries with
  | [] => Ok []
  | e :: rest =>
      if is_file e then
        f ← bundle_file (normalized_path e) (entry_sha256 e) (byte_count e);
        more ← bundle_files rest;
        Ok (f :: more)
      else bundle_files rest
  end.

Definition file_facts (m : SubmissionManifest) : result ArchiveExn (list SubmissionBundleFile) :=
  bundle_files (sm_entries m).

(** [ArtifactCommitment.validate_sha256] of a text *)
Definition validate_sha256 (s : str) : result ArchiveExn unit :=
  ensure (negb (negb (len s =? 71) || negb (starts_with (lit "sha256:") s)
                || negb (forallb is_hex_digit (drop 7 s)))) Fault.

(** An entry before its stored metadata is checked. *)
Record LooseEntry := {
  le_path : str; le_kind : SubmissionArchiveEntryType; le_size : Z; le_sha256 : json;
  le_executable : json }.

Definition loose (e : SubmissionArchiveEntry) : LooseEntry :=
  {| le_path := normalized_path e; le_kind := entry_type e; le_size := byte_count e;
     le_sha256 := opt_str (entry_sha256 e); le_executable := opt_bool (executable e) |}.

(** The check of one entry in [__post_init__]. *)
Definition tight (e : LooseEntry) : result ArchiveExn SubmissionArchiveEntry :=
  match le_kind e with
  | DIRECTORY =>
      match le_sha256 e, le_executable e with
      | JNull, JNull =>
          _ ← ensure (le_size e =? 0) Fault;
          Ok (directory_entry (le_path e))
      | _, _ => Raise Fault
      end
  | FILE =>
      _ ← ensure (negb (le_size e <? 0)) Fault;
      match le_sha256 e, le_executable e with
      | JStr s, JBool x =>
          _ ← validate_sha256 s;
          Ok {| normalized_path := le_path e; entry_type := FILE; byte_count := le_size e;
                entry_sha256 := Some s; executable := Some x |}
      | _, _ => Raise Fault
      end
  end.

Fixpoint tighten (l : list LooseEntry) : result ArchiveExn (list SubmissionArchiveEntry) :=
  match l with
  | [] => Ok []
  | e :: rest => e ← tight e; rest ← tighten rest; Ok (e :: rest)
  end.

Section Manifest.
Context (n f : str → str).

(** The constructor: [__post_init__].  The sort is stable, so the entries are in order exactly
    when their paths are. *)
Definition new_manifest (sha256 : str) (entries : list LooseEntry)
    (entry_count file_count directory_count total : Z) : result ArchiveExn SubmissionManifest :=
  _ ← ensure (bool_decide (map le_path (sort_by le_path entries) = map le_path entries)) Fault;
  entries ← tighten entries;
  _ ← validate_submission_archive_inventory n f entries;
  let files := files_of entries in
  _ ← ensure (negb (negb (entry_count =? Z.of_nat (length entries)) || negb (file_count =? files)
                    || negb (directory_count =? Z.of_nat (length entries) - files)
                    || negb (total =? total_of entries))) Fault;
  _ ← validate_sha256 sha256;
  digest ← oget (canonical_json_hash (_manifest_body entries)) Fault;
  _ ← ensure (str_eqb digest sha256) Fault;
  Ok {| sm_sha256 := sha256; sm_entries := entries; sm_entry_count := entry_count;
        sm_file_count := file_count; sm_directory_count := directory_count;
        sm_total_expanded_bytes := total |}.

Definition build_submission_manifest (inspection : SubmissionArchiveInspectionResult)
    : result ArchiveExn SubmissionManifest :=
  let entries := sort_entries (ir_entries inspection) in
  _ ← ensure (forallb (λ e, negb (is_file e && (bool_decide (entry_sha256 e = None)
                                                || bool_decide (executable e = None)))) entries) Fault;
  digest ← oget (canonical_json_hash (_manifest_body entries)) Fault;
  new_manifest digest (map loose entries) (ir_entry_count inspection) (ir_file_count inspection)
    (ir_directory_count inspection) (ir_total_expanded_bytes inspection).

(** [value.get(k)] and [set(value) == fields] of a dict, whose keys are distinct *)
Definition get (k : string) (kvs : list (str * json)) : option json := dict_get (lit k) kvs.
Definition same_fields (kvs : list (str * json)) (fields : list string) : bool :=
  forallb (λ p, existsb (λ k, str_eqb p.1 (lit k)) fields) kvs
  && forallb (λ k, existsb (λ p, str_eqb p.1 (lit k)) kvs) fields.

Definition is_text (s : string) (o : option json) : bool :=
  match o with Some (JStr t) => str_eqb t (lit s) | _ => false end.

(** The checks of a stored path *)
Definition check_path (paths : list str) (path : str) : result ArchiveExn unit :=
  _ ← ensure (negb (str_eqb path []) && negb (existsb (str_eqb path) paths)) Fault;
  normal ← normalize_submission_archive_path n path 4096 256;
  ensure (str_eqb normal path) Fault.

Definition check_size (size : Z) : result ArchiveExn unit :=
  ensure ((0 <=? size) && (size <=? max_manifest_bytes)) Fault.

(** One turn of the loop of [from_dict] *)
Definition stored_entry (paths : list str) (value : json) : result ArchiveExn LooseEntry :=
  match value with
  | JObj kvs =>
      let kind := get "entry_type" kvs in
      kf ← (if is_text "file" kind
            then Ok (FILE, ["normalized_path"; "entry_type"; "sha256"; "byte_count"; "executable"]%string)
            else if is_text "directory" kind
            then Ok (DIRECTORY, ["normalized_path"; "entry_type"]%string)
            else Raise Fault);
      let '(kind, fields) := kf in
      match get "normalized_path" kvs with
      | Some (JStr path) =>
          _ ← ensure (same_fields kvs fields) Fault;
          _ ← check_path paths path;
          match (if bool_decide (kind = FILE) then get "byte_count" kvs else Some (JInt 0)) with
          | Some (JInt size) =>
              _ ← check_size size;
              Ok {| le_path := path; le_kind := kind; le_size := size;
                    le_sha256 := default JNull (get "sha256" kvs);
                    le_executable := default JNull (get "executable" kvs) |}
          | _ => Raise Fault
          end
      | _ => Raise Fault
      end
  | _ => Raise Fault
  end.

Fixpoint stored_entries (paths : list str) (values : list json) : result ArchiveExn (list LooseEntry) :=
  match values with
  | [] => Ok []
  | v :: rest =>
      e ← stored_entry paths v;
      more ← stored_entries (le_path e :: paths) rest;
      Ok (e :: more)
  end.

Definition from_dict (body : json) (sha256 : str) : result ArchiveExn SubmissionManifest :=
  match body with
  | JObj kvs =>
      match get "schema_version" kvs, get "entries" kvs with
      | Some (JStr version), Some (JArr values) =>
          _ ← ensure (same_fields kvs ["schema_version"; "entries"]
                      && str_eqb version SUBMISSION_MANIFEST_SCHEMA_VERSION
                      && (Z.of_nat (length values) <=? 100000)) Fault;
          entries ← stored_entries [] values;
          let files := Z.of_nat (length (List.filter (λ e, bool_decide (le_kind e = FILE)) entries)) in
          let expanded := sumZ (map le_size entries) in
          _ ← ensure (negb (max_manifest_bytes <? expanded)) Fault;
          new_manifest sha256 entries (Z.of_nat (length entries)) files
            (Z.of_nat (length entries) - files) expanded
      | _, _ => Raise Fault
      end
  | _ => Raise Fault
  end.
End Manifest.

(** ** The change gate *)

Inductive SubmissionChangeFailureCode :=
| ARCHIVE_UNCHANGED | MANIFEST_UNCHANGED | CANONICAL_PREDECESSOR_UNAVAILABLE | PREDECESSOR_STALE.

Inductive SubmissionChangeExn :=
| ChangeRejected (code : SubmissionChangeFailureCode)
| InconsistentPredecessor.

Inductive SubmissionChangeOutcome := FIRST_SUBMISSION | CHANGED | UNCHANGED.

Record SubmissionCanonicalPredecessor := {
  pr_submission_id : uuid;
  pr_submission_version : Z;
  pr_archive_sha256 : str;
  pr_semantic_manifest_sha256 : str;
}.

#[export] Instance predecessor_eq_dec : EqDecision SubmissionCanonicalPredecessor.
Proof. solve_decision. Defined.
#[export] Instance change_outcome_eq_dec : EqDecision SubmissionChangeOutcome.
Proof. solve_decision. Defined.

(** [SubmissionCanonicalPredecessor.__post_init__] *)
Definition predecessor_valid (p : SubmissionCanonicalPredecessor) : bool :=
  (0 <? pr_submission_version p) && is_ok (validate_sha256 (pr_archive_sha256 p))
  && is_ok (validate_sha256 (pr_semantic_manifest_sha256 p)).

Record ArtifactCommitment := { ac_sha256 : str; ac_byte_count : Z; ac_media_type : str }.

(** [ArtifactCommitment.__post_init__] *)
Definition commitment_valid (c : ArtifactCommitment) : bool :=
  is_ok (validate_sha256 (ac_sha256 c)) && (0 <=? ac_byte_count c)
  && negb (str_eqb (ac_media_type c) []) && (len (ac_media_type c) <=? 255)
  && negb (existsb (λ c, (c <? 32) || (c =? 127)) (ac_media_type c)).

Record SubmissionChangeGateResult := {
  cg_archive_sha256 : str;
  cg_archive_byte_count : Z;
  cg_manifest : SubmissionManifest;
  cg_outcome : SubmissionChangeOutcome;
  cg_predecessor : option SubmissionCanonicalPredecessor;
}.

Definition bind_submission_change (commitment : ArtifactCommitment) (manifest : SubmissionManifest)
    (predecessor : option SubmissionCanonicalPredecessor) (predecessor_exists : bool)
    (current : option SubmissionCanonicalPredecessor)
    : result SubmissionChangeExn SubmissionChangeGateResult :=
  match predecessor with
  | None =>
      _ ← ensure (negb predecessor_exists) (ChangeRejected CANONICAL_PREDECESSOR_UNAVAILABLE);
      Ok {| cg_archive_sha256 := ac_sha256 commitment; cg_archive_byte_count := ac_byte_count commitment;
            cg_manifest := manifest; cg_outcome := FIRST_SUBMISSION; cg_predecessor := None |}
  | Some p =>
      _ ← ensure predecessor_exists InconsistentPredecessor;
      _ ← ensure (bool_decide (current = Some p)) (ChangeRejected PREDECESSOR_STALE);
      let unchanged := str_eqb (ac_sha256 commitment) (pr_archive_sha256 p)
                       || str_eqb (sm_sha256 manifest) (pr_semantic_manifest_sha256 p) in
      Ok {| cg_archive_sha256 := ac_sha256 commitment; cg_archive_byte_count := ac_byte_count commitment;
            cg_manifest := manifest; cg_outcome := if unchanged then UNCHANGED else CHANGED;
            cg_predecessor := Some p |}
  end.

Definition evaluate_submission_change (commitment : ArtifactCommitment) (manifest : SubmissionManifest)
    (predecessor : option SubmissionCanonicalPredecessor) (predecessor_exists : bool)
    (current : option SubmissionCanonicalPredecessor)
    : result SubmissionChangeExn SubmissionChangeGateResult :=
  result ← bind_submission_change commitment manifest predecessor predecessor_exists current;
  if bool_decide (cg_outcome result = UNCHANGED) then
    Raise (ChangeRejected
      (match predecessor with
       | Some p => if str_eqb (ac_sha256 commitment) (pr_archive_sha256 p)
                   then ARCHIVE_UNCHANGED else MANIFEST_UNCHANGED
       | None => MANIFEST_UNCHANGED
       end))
  else Ok result.

(** ** Manifests the constructor accepts *)

Definition entry_tight (e : SubmissionArchiveEntry) : Prop :=
  match entry_type e with
  | DIRECTORY => byte_count e = 0 ∧ entry_sha256 e = None ∧ executable e = None
  | FILE => 0 ≤ byte_count e ∧ ∃ s x, entry_sha256 e = Some s ∧ executable e = Some x ∧
              digest_pattern s = true
  end.

Lemma validate_sha256_Ok s : validate_sha256 s = Ok tt ↔ digest_pattern s = true.
Proof.
  unfold validate_sha256, digest_pattern.
  destruct (len s =? 71), (starts_with (lit "sha256:") s), (forallb is_hex_digit (drop 7 s)); done.
Qed.

Lemma tight_spec x e : tight x = Ok e ↔ x = loose e ∧ entry_tight e.
Proof.
  destruct x as [path kind size sha ex]. unfold tight, entry_tight, loose. cbn. split.
  - destruct kind.
    + intros [Hs%negb_true_iff%Z.ltb_ge H]%ensure_bind_Ok. destruct sha as [| | |s| |]; try done.
      destruct ex as [|b| | | |]; try done. apply result_bind_Ok in H as ([] & Hv & H).
      apply Ok_inj in H as <-. cbn. split; [done|]. split; [done|]. exists s, b. split_and!; [done..|].
      by apply validate_sha256_Ok.
    + destruct sha; try done. destruct ex; try done. intros [Hs%Z.eqb_eq H]%ensure_bind_Ok.
      apply Ok_inj in H as <-. cbn. subst size. done.
  - intros [[= -> -> -> -> ->] H]. destruct e as [p k b s x]. cbn in *. destruct k.
    + destruct H as (Hb & s' & x' & -> & -> & Hd). cbn. replace (b <? 0) with false by lia. run.
      by rewrite (proj2 (validate_sha256_Ok s') Hd).
    + by destruct H as (-> & -> & ->).
Qed.

#[export] Instance loose_inj : Inj (=) (=) loose.
Proof.
  intros [p k b s x] [p' k' b' s' x'] [= -> -> -> Hs Hx]. f_equal.
  - destruct s, s'; cbn in Hs; congruence.
  - destruct x, x'; cbn in Hx; congruence.
Qed.

Lemma loose_list_inj es es' : map loose es = map loose es' → es = es'.
Proof.
  revert es'. induction es as [|e es IH]; intros [|e' es']; cbn; [done..|].
  intros H. assert (loose e = loose e') as He%(inj loose) by congruence.
  assert (map loose es = map loose es') as Hes by congruence. subst. f_equal. by apply IH.
Qed.

Lemma tighten_spec xs es : tighten xs = Ok es ↔ xs = map loose es ∧ Forall entry_tight es.
Proof.
  revert es. induction xs as [|x xs IH]; intros es; cbn.
  - split; [intros H; by apply Ok_inj in H as <-|]. intros [H _]. by destruct es.
  - rewrite result_bind_Ok. split.
    + intros (e & He & (rest & Hr & H)%result_bind_Ok). apply Ok_inj in H as <-.
      apply tight_spec in He as [-> He]. apply IH in Hr as [-> Hr]. split; [done|]. by constructor.
    + intros [Hx Hf]. destruct es as [|e es]; [done|]. apply Forall_cons in Hf as [He Hf].
      injection Hx as -> Hx. exists e. split; [by apply tight_spec|].
      rewrite (proj2 (IH es)) by done. done.
Qed.

Record manifest_ok (n f : str → str) (m : SubmissionManifest) : Prop := {
  mo_sorted : StronglySorted path_le (sm_entries m);
  mo_tight : Forall entry_tight (sm_entries m);
  mo_inventory : inventory_ok n f (sm_entries m);
  mo_entries : sm_entry_count m = Z.of_nat (length (sm_entries m));
  mo_files : sm_file_count m = files_of (sm_entries m);
  mo_directories : sm_directory_count m = sm_entry_count m - sm_file_count m;
  mo_total : sm_total_expanded_bytes m = total_of (sm_entries m);
  mo_digest : canonical_json_hash (as_dict m) = Some (sm_sha256 m);
}.

Lemma sorted_map {A} (key : A → str) s :
  StronglySorted (ordered_by key) s ↔ StronglySorted (ordered_by id) (map key s).
Proof.
  induction s as [|x s IH]; cbn; [split; constructor|]. split; intros H; inversion_clear H as [|? ? Hs Hx].
  - constructor; [by apply IH|]. apply Forall_map. exact Hx.
  - constructor; [by apply IH|]. rewrite Forall_forall in Hx. apply Forall_forall. intros y Hy.
    apply (Hx (key y)). by apply list_elem_of_fmap_2.
Qed.

Lemma sorted_iff es :
  map le_path (sort_by le_path (map loose es)) = map le_path (map loose es) ↔ StronglySorted path_le es.
Proof.
  assert (map le_path (map loose es) = map normalized_path es) as E by by rewrite map_map.
  split.
  - intros H. destruct (sort_by_spec le_path (map loose es)) as [_ Hs].
    apply sorted_map in Hs. rewrite H, E in Hs. by apply sorted_map.
  - intros H%sorted_map. rewrite <- E in H. apply sorted_map in H. by rewrite sort_by_sorted.
Qed.

Lemma new_manifest_Ok n f sha xs ec fc dc total m :
  new_manifest n f sha xs ec fc dc total = Ok m →
  manifest_ok n f m ∧ xs = map loose (sm_entries m) ∧ sm_sha256 m = sha.
Proof.
  intros H. unfold new_manifest in H. apply ensure_bind_Ok in H as [Hs%bool_decide_eq_true_1 H].
  apply result_bind_Ok in H as (es & He & H). apply tighten_spec in He as [-> He].
  apply result_bind_Ok in H as ([] & Hv & H). apply inventory_iff in Hv. cbv zeta in H.
  apply ensure_bind_Ok in H as [Hc H]. apply result_bind_Ok in H as ([] & _ & H).
  apply result_bind_Ok in H as (d & Hd & H). apply oget_Ok in Hd.
  apply ensure_bind_Ok in H as [Ed%str_eqb_eq H]. apply Ok_inj in H. subst m sha. cbn.
  split; [|done]. rewrite !negb_true_iff, !orb_false_iff, !negb_false_iff, !Z.eqb_eq in Hc.
  destruct Hc as [[[-> ->] ->] ->]. split; cbn; [by apply sorted_iff|done..].
Qed.

Lemma new_manifest_ok n f m :
  manifest_ok n f m →
  new_manifest n f (sm_sha256 m) (map loose (sm_entries m)) (sm_entry_count m) (sm_file_count m)
    (sm_directory_count m) (sm_total_expanded_bytes m) = Ok m.
Proof.
  intros [H1 H2 H3 H4 H5 H6 H7 H8]. unfold new_manifest.
  rewrite bool_decide_eq_true_2 by by apply sorted_iff. run.
  rewrite (proj2 (tighten_spec _ _)) by done. rewrite bind_Ok, (proj2 (inventory_iff _ _ _)) by done.
  rewrite bind_Ok. cbv zeta. rewrite H6, H4, H5, H7, !Z.eqb_refl. run.
  rewrite (proj2 (validate_sha256_Ok _)) by by eapply canonical_json_hash_pattern.
  rewrite bind_Ok. change (_manifest_body (sm_entries m)) with (as_dict m). rewrite H8, bind_oget.
  rewrite (proj2 (str_eqb_eq _ _)) by done. run. f_equal. destruct m; cbn in *. congruence.
Qed.

(** ** Recovery *)

(** What [from_dict] demands beyond a valid manifest. *)
Record storable (n : str → str) (m : SubmissionManifest) : Prop := {
  so_count : sm_entry_count m ≤ 100000;
  so_total : sm_total_expanded_bytes m ≤ max_manifest_bytes;
  so_paths e : e ∈ sm_entries m →
    normalize_submission_archive_path n (normalized_path e) 4096 256 = Ok (normalized_path e);
}.

Lemma normalized_nonempty n path a b r :
  normalize_submission_archive_path n path a b = Ok r → path ≠ [].
Proof.
  unfold normalize_submission_archive_path. intros [H _]%ensure_bind_Ok -> . by cbn in H.
Qed.

Lemma check_path_Ok n paths path :
  path ∉ paths → normalize_submission_archive_path n path 4096 256 = Ok path →
  check_path n paths path = Ok tt.
Proof.
  intros Hp Hn. unfold check_path. rewrite Hn. pose proof (normalized_nonempty _ _ _ _ _ Hn) as Hne.
  replace (str_eqb path []) with false by (symmetry; by apply bool_decide_eq_false_2).
  replace (existsb (str_eqb path) paths) with false
    by (symmetry; by rewrite <- not_true_iff_false, existsb_str_eqb).
  run. by rewrite (proj2 (str_eqb_eq _ _)).
Qed.

Lemma stored_entry_body n paths e :
  entry_tight e → byte_count e ≤ max_manifest_bytes → normalized_path e ∉ paths →
  normalize_submission_archive_path n (normalized_path e) 4096 256 = Ok (normalized_path e) →
  stored_entry n paths (entry_body e) = Ok (loose e).
Proof.
  intros Ht Hb Hp Hn. apply (check_path_Ok n paths) in Hn; [|done].
  destruct e as [path k b s x]. unfold entry_tight in Ht.
  cbn [normalized_path entry_type byte_count entry_sha256 executable] in *. destruct k.
  - destruct Ht as (Hb0 & s' & x' & -> & -> & _).
    assert (check_size b = Ok tt) as Hs.
    { unfold check_size. by replace ((0 <=? b) && (b <=? max_manifest_bytes)) with true by lia. }
    lazy -[check_path check_size]. rewrite Hn, Hs. reflexivity.
  - destruct Ht as (-> & -> & ->). lazy -[check_path]. rewrite Hn. reflexivity.
Qed.

Lemma total_cons e es : total_of (e :: es) = byte_count e + total_of es.
Proof. reflexivity. Qed.

Lemma tight_size e : entry_tight e → 0 ≤ byte_count e.
Proof. unfold entry_tight. destruct (entry_type e); [tauto|]. intros (E & _). lia. Qed.

Lemma total_nonneg es : Forall entry_tight es → 0 ≤ total_of es.
Proof.
  induction 1 as [|x es Hx _ IH]; [done|]. rewrite total_cons. apply tight_size in Hx. lia.
Qed.

Lemma sizes_within es e :
  Forall entry_tight es → e ∈ es → 0 ≤ byte_count e ≤ total_of es.
Proof.
  induction 1 as [|x es Hx Hes IH]; [by intros ?%not_elem_of_nil|]. rewrite total_cons.
  apply total_nonneg in Hes. apply tight_size in Hx.
  intros [->|He]%elem_of_cons; [lia|]. apply IH in He. lia.
Qed.

Lemma stored_entries_body n paths es :
  Forall (λ e, entry_tight e ∧ byte_count e ≤ max_manifest_bytes ∧ (normalized_path e ∉ paths) ∧
    normalize_submission_archive_path n (normalized_path e) 4096 256 = Ok (normalized_path e)) es →
  NoDup (map normalized_path es) →
  stored_entries n paths (map entry_body es) = Ok (map loose es).
Proof.
  intros Hes. revert paths Hes. induction es as [|e es IH]; intros paths Hes Hn; [done|].
  apply Forall_cons in Hes as [(H1 & H2 & H3 & H4) Hes]. cbn [map] in *.
  apply NoDup_cons in Hn as [He Hn]. cbn [stored_entries].
  rewrite stored_entry_body by done. rewrite bind_Ok, IH; [done| |done].
  rewrite Forall_forall in Hes. apply Forall_forall. intros x Hx.
  destruct (Hes x Hx) as (? & ? & Hnp & ?). split_and!; [done..| |done].
  cbn [le_path loose]. intros [Ex|?]%elem_of_cons; [|done].
  apply He. rewrite <- Ex. by apply list_elem_of_fmap_2.
Qed.

Lemma loose_sizes es : sumZ (map le_size (map loose es)) = total_of es.
Proof. by rewrite map_map. Qed.

Lemma loose_files es :
  Z.of_nat (length (List.filter (λ e, bool_decide (le_kind e = FILE)) (map loose es))) = files_of es.
Proof.
  unfold files_of. f_equal. induction es as [|e es IH]; [done|]. cbn [map List.filter].
  change (bool_decide (le_kind (loose e) = FILE)) with (is_file e). destruct (is_file e); cbn; lia.
Qed.

Lemma manifest_from_dict n f m :
  manifest_ok n f m → storable n m → from_dict n f (as_dict m) (sm_sha256 m) = Ok m.
Proof.
  intros Hm [Hc Ht Hp]. pose proof (new_manifest_ok n f m Hm) as Hnew.
  destruct Hm as [H1 H2 H3 H4 H5 H6 H7 H8].
  unfold from_dict, as_dict, _manifest_body.
  change (get "schema_version" _) with (Some (JStr SUBMISSION_MANIFEST_SCHEMA_VERSION)).
  change (get "entries" _) with (Some (JArr (map entry_body (sm_entries m)))). cbv iota.
  change (same_fields _ _) with true. rewrite (proj2 (str_eqb_eq _ _)), length_map by done.
  replace (Z.of_nat (length (sm_entries m)) <=? 100000) with true by lia. run.
  rewrite stored_entries_body.
  - rewrite bind_Ok. cbv zeta. rewrite loose_sizes, loose_files, length_map.
    rewrite <- H7, <- H4, <- H5, <- H6.
    by replace (max_manifest_bytes <? sm_total_expanded_bytes m) with false by lia.
  - apply Forall_forall. intros e He. rewrite Forall_forall in H2.
    split_and!; [by apply H2| |apply not_elem_of_nil|by apply Hp].
    assert (Forall entry_tight (sm_entries m)) as Hall by by apply Forall_forall.
    pose proof (sizes_within _ _ Hall He). lia.
  - eapply folded_distinct, io_distinct, H3.
Qed.

(** The facts of one file *)
Definition fact_of (e : SubmissionArchiveEntry) : SubmissionBundleFile :=
  {| bf_path := normalized_path e; bf_sha256 := default [] (entry_sha256 e);
     bf_byte_count := byte_count e |}.

Lemma bundle_file_Ok n e :
  is_file e = true → entry_tight e → byte_count e ≤ max_manifest_bytes →
  normalize_submission_archive_path n (normalized_path e) 4096 256 = Ok (normalized_path e) →
  bundle_file (normalized_path e) (entry_sha256 e) (byte_count e) = Ok (fact_of e).
Proof.
  intros Hf%bool_decide_eq_true_1 Ht Hb Hn. unfold entry_tight in Ht. rewrite Hf in Ht.
  destruct Ht as (H0 & s & x & Hs & _ & Hd). pose proof (normalized_nonempty _ _ _ _ _ Hn) as Hne.
  unfold normalize_submission_archive_path in Hn. cbv zeta in Hn. apply ensure_bind_Ok in Hn as [_ Hn].
  apply result_bind_Ok in Hn as (b & Hb1%oget_Ok & Hn). apply result_bind_Ok in Hn as (b2 & _ & Hn).
  apply ensure_bind_Ok in Hn as [Hl _]. unfold bundle_file, fact_of. rewrite Hs, Hb1.
  replace (str_eqb (normalized_path e) []) with false by (symmetry; by apply bool_decide_eq_false_2).
  run. replace (len b <=? 4096) with true by lia. run. rewrite Hd.
  by replace (true && (0 <=? byte_count e) && (byte_count e <=? max_manifest_bytes)) with true by lia.
Qed.

Lemma storable_files n m :
  Forall entry_tight (sm_entries m) → sm_total_expanded_bytes m = total_of (sm_entries m) →
  storable n m → file_facts m = Ok (map fact_of (List.filter is_file (sm_entries m))).
Proof.
  intros Ht Htotal [_ Hmax Hp]. rewrite Htotal in Hmax. unfold file_facts.
  assert (∀ e, e ∈ sm_entries m → is_file e = true →
    bundle_file (normalized_path e) (entry_sha256 e) (byte_count e) = Ok (fact_of e)) as Hfile.
  { intros e He Hf. apply (bundle_file_Ok n); [done| | |by apply Hp].
    - rewrite Forall_forall in Ht. by apply Ht.
    - pose proof (sizes_within _ _ Ht He). lia. }
  clear -Hfile. induction (sm_entries m) as [|e es IH]; [done|]. cbn [bundle_files List.filter].
  assert (bundle_files es = Ok (map fact_of (List.filter is_file es))) as Hes
    by (apply IH; intros x Hx; apply Hfile; by right).
  destruct (is_file e) eqn:Hf; [|done]. rewrite Hfile, bind_Ok, Hes; [done|by left|done].
Qed.

Lemma built_ok n f inspection m :
  build_submission_manifest n f inspection = Ok m →
  manifest_ok n f m ∧ sm_entries m = sort_entries (ir_entries inspection).
Proof.
  intros H. unfold build_submission_manifest in H. cbv zeta in H. apply ensure_bind_Ok in H as [_ H].
  apply result_bind_Ok in H as (d & _ & H). apply new_manifest_Ok in H as (Hm & Hl & _).
  split; [done|]. symmetry in Hl. by apply loose_list_inj in Hl.
Qed.

(** A manifest is recovered from its own body.  What [build_submission_manifest] builds is
    a canonical manifest: sorted, unambiguous, with exact totals and the digest of its body;
    and within the stored bounds (entries, expanded bytes, normalised paths) its JSON body and
    digest give back the same manifest, and its file facts are those of its file entries. *)
Theorem manifest_roundtrip n f inspection m :
  build_submission_manifest n f inspection = Ok m →
  manifest_ok n f m ∧ sm_entries m = sort_entries (ir_entries inspection) ∧
  (storable n m → from_dict n f (as_dict m) (sm_sha256 m) = Ok m ∧
     file_facts m = Ok (map fact_of (List.filter is_file (sm_entries m)))).
Proof.
  intros (Hm & He)%built_ok. split_and!; [done..|]. intros Hs. split; [by apply manifest_from_dict|].
  apply (storable_files n); [by eapply mo_tight|by eapply mo_total|done].
Qed.

(** ** The body determines the entries *)

Lemma entry_body_inj e e' :
  entry_tight e → entry_tight e' → canon (entry_body e) = canon (entry_body e') → e = e'.
Proof.
  destruct e as [p k b s x], e' as [p' k' b' s' x']. unfold entry_tight, entry_body.
  cbn [normalized_path entry_type byte_count entry_sha256 executable]. destruct k, k'.
  - intros (_ & t & y & -> & -> & _) (_ & t' & y' & -> & -> & _) H. lazy in H. congruence.
  - intros _ _ H. lazy in H. congruence.
  - intros _ _ H. lazy in H. congruence.
  - intros (-> & -> & ->) (-> & -> & ->) H. lazy in H. congruence.
Qed.

Lemma canon_manifest_body es :
  canon (_manifest_body es) =
  JObj [kv "entries" (JArr (map canon (map entry_body es)));
        kv "schema_version" (JStr SUBMISSION_MANIFEST_SCHEMA_VERSION)].
Proof. reflexivity. Qed.

Lemma manifest_body_inj es es' :
  Forall entry_tight es → Forall entry_tight es' →
  canon (_manifest_body es) = canon (_manifest_body es') → es = es'.
Proof.
  rewrite !canon_manifest_body. intros He He' H.
  assert (map canon (map entry_body es) = map canon (map entry_body es')) as Hm.
  { unfold kv in H. congruence. }
  clear H. revert es' He' Hm. induction He as [|e es Ht _ IH]; intros [|e' es'] He' Hm; try done.
  apply Forall_cons in He' as [Ht' He']. cbn [map] in Hm. f_equal.
  - apply entry_body_inj; [done..|congruence].
  - apply IH; [done|congruence].
Qed.

Lemma hex_is_str s : forallb is_hex_digit s = true → is_str s = true.
Proof.
  unfold is_str. rewrite !forallb_forall. intros H c Hc. apply H in Hc.
  unfold is_hex_digit, is_digit, code_point in *. lia.
Qed.

Lemma digest_is_str s : digest_pattern s = true → is_str s = true.
Proof.
  unfold digest_pattern. rewrite !andb_true_iff. intros [[Hp Hh] _].
  rewrite <- (take_drop 7 s). unfold is_str. rewrite forallb_app. apply andb_true_iff. split.
  - change 7%nat with (length (lit "sha256:")). by rewrite (starts_with_take _ _ Hp).
  - by apply hex_is_str.
Qed.

Lemma manifest_body_wf es :
  Forall entry_tight es → forallb (λ e, is_str (normalized_path e)) es = true →
  json_wf (_manifest_body es) = true.
Proof.
  intros Ht Hp. cbn [_manifest_body json_wf kv forallb fst snd map].
  replace (forallb json_wf (map entry_body es)) with true; [reflexivity|].
  symmetry. induction Ht as [|e es He _ IH]; [done|]. cbn [map forallb] in *.
  apply andb_true_iff in Hp as [Hp Hps]. rewrite IH, andb_true_r by done. clear IH Hps.
  destruct e as [p k b s x]. unfold entry_tight, entry_body in *.
  cbn [normalized_path entry_type byte_count entry_sha256 executable] in *. destruct k.
  - destruct He as (_ & t & y & -> & -> & Hd). apply digest_is_str in Hd.
    lazy -[is_str]. rewrite Hp, Hd. vm_compute. reflexivity.
  - lazy -[is_str]. rewrite Hp. vm_compute. reflexivity.
Qed.

(** ** The gate *)

Definition paths_are_text (m : SubmissionManifest) : bool :=
  forallb (λ e, is_str (normalized_path e)) (sm_entries m).

(** Two different bodies with one SHA-256 *)
Definition body_collision (m m' : SubmissionManifest) : Prop :=
  ∃ b b', utf8_encode (dumps (as_dict m)) = Some b ∧ utf8_encode (dumps (as_dict m')) = Some b' ∧
          b ≠ b' ∧ sha256 b = sha256 b'.

Lemma same_digest n f m m' :
  manifest_ok n f m → manifest_ok n f m' →
  paths_are_text m = true → paths_are_text m' = true → sm_sha256 m = sm_sha256 m' →
  sm_entries m = sm_entries m' ∨ body_collision m m'.
Proof.
  intros Hm Hm' Hp Hp' E. pose proof (mo_digest _ _ _ Hm) as D. pose proof (mo_digest _ _ _ Hm') as D'.
  rewrite E in D.
  destruct (canonical_json_hash_eq (as_dict m) (as_dict m') _
              (manifest_body_wf _ (mo_tight _ _ _ Hm) Hp) (manifest_body_wf _ (mo_tight _ _ _ Hm') Hp') D D')
    as [Hc|Hc]; [left|by right].
  eapply manifest_body_inj; [by eapply mo_tight..|exact Hc].
Qed.

Lemma same_entries n f m m' :
  manifest_ok n f m → manifest_ok n f m' → sm_entries m = sm_entries m' → sm_sha256 m = sm_sha256 m'.
Proof.
  intros Hm%mo_digest Hm'%mo_digest E. unfold as_dict in *. rewrite E in Hm. congruence.
Qed.

(** The change gate compares contents.  For a successor whose predecessor's manifest is [m'],
    an accepted successor is recorded as changed, and both its archive and its entries differ;
    the gate refuses a stale predecessor, an identical archive, and otherwise only a manifest
    with the same entries (paths, types, sizes, digests, executable bits), unless the two
    bodies are a SHA-256 collision. *)
Theorem change_gate_semantic n f commitment m m' p current :
  manifest_ok n f m → manifest_ok n f m' → paths_are_text m = true → paths_are_text m' = true →
  pr_semantic_manifest_sha256 p = sm_sha256 m' →
  let same_archive := ac_sha256 commitment = pr_archive_sha256 p in
  match evaluate_submission_change commitment m (Some p) true current with
  | Ok r => current = Some p ∧ cg_outcome r = CHANGED ∧ cg_manifest r = m ∧ ¬ same_archive ∧
            sm_entries m ≠ sm_entries m'
  | Raise (ChangeRejected PREDECESSOR_STALE) => current ≠ Some p
  | Raise (ChangeRejected ARCHIVE_UNCHANGED) => current = Some p ∧ same_archive
  | Raise (ChangeRejected MANIFEST_UNCHANGED) =>
      current = Some p ∧ ¬ same_archive ∧ (sm_entries m = sm_entries m' ∨ body_collision m m')
  | Raise _ => False
  end.
Proof.
  intros Hm Hm' Hp Hp' E. cbv zeta. unfold evaluate_submission_change, bind_submission_change.
  destruct (decide (current = Some p)) as [->|Hc];
    [rewrite bool_decide_eq_true_2 by done|by rewrite bool_decide_eq_false_2 by done].
  destruct (str_eqb (ac_sha256 commitment) (pr_archive_sha256 p)) eqn:Ha; run.
  { by apply str_eqb_eq in Ha. }
  assert (ac_sha256 commitment ≠ pr_archive_sha256 p) as Hne by by intros ?%str_eqb_eq%not_false_iff_true.
  destruct (str_eqb (sm_sha256 m) (pr_semantic_manifest_sha256 p)) eqn:Hs; run;
    rewrite ?bool_decide_eq_true_2, ?bool_decide_eq_false_2 by done.
  - apply str_eqb_eq in Hs. rewrite E in Hs. split_and!; [done..|]. by eapply same_digest.
  - split_and!; try done. intros Hes. apply not_true_iff_false in Hs. apply Hs, str_eqb_eq.
    rewrite E. by eapply same_entries.
Qed.

(** ** A sample submission and its successor *)

Definition text_file (path : string) (content : str) : SubmissionArchiveEntry :=
  {| normalized_path := lit path; entry_type := FILE; byte_count := len content;
     entry_sha256 := Some (lit "sha256:" ++ sha256_hex content); executable := Some false |}.

Definition two_files (content : str) : SubmissionArchiveInspectionResult :=
  {| ir_entries := [text_file "notes/b.txt" content; directory_entry (lit "notes");
                    text_file "a.txt" (lit "alpha")];
     ir_entry_count := 3; ir_file_count := 2; ir_directory_count := 1;
     ir_total_expanded_bytes := 5 + len content |}.

Definition sample_manifest (content : str) : SubmissionManifest :=
  match build_submission_manifest id id (two_files content) with
  | Ok m => m
  | Raise _ => {| sm_sha256 := []; sm_entries := []; sm_entry_count := 0; sm_file_count := 0;
                  sm_directory_count := 0; sm_total_expanded_bytes := 0 |}
  end.

Definition first_manifest : SubmissionManifest := Eval vm_compute in sample_manifest (lit "one").
Definition next_manifest : SubmissionManifest := Eval vm_compute in sample_manifest (lit "two").

Lemma first_built : build_submission_manifest id id (two_files (lit "one")) = Ok first_manifest.
Proof. vm_compute. reflexivity. Qed.

Lemma next_built : build_submission_manifest id id (two_files (lit "two")) = Ok next_manifest.
Proof. vm_compute. reflexivity. Qed.

Lemma first_storable : storable id first_manifest.
Proof.
  split; [vm_compute; congruence..|]. apply Forall_forall.
  repeat constructor; vm_compute; reflexivity.
Qed.

Lemma manifest_roundtrip_witness :
  from_dict id id (as_dict first_manifest) (sm_sha256 first_manifest) = Ok first_manifest ∧
  file_facts first_manifest = Ok (map fact_of (List.filter is_file (sm_entries first_manifest))).
Proof. exact (proj2 (proj2 (manifest_roundtrip id id _ _ first_built)) first_storable). Defined.

Definition first_predecessor : SubmissionCanonicalPredecessor :=
  {| pr_submission_id := 1; pr_submission_version := 1;
     pr_archive_sha256 := lit "sha256:" ++ sha256_hex (lit "first archive");
     pr_semantic_manifest_sha256 := sm_sha256 first_manifest |}.

Definition next_commitment : ArtifactCommitment :=
  {| ac_sha256 := lit "sha256:" ++ sha256_hex (lit "next archive"); ac_byte_count := 12;
     ac_media_type := lit "application/zip" |}.

Lemma next_accepted :
  is_ok (evaluate_submission_change next_commitment next_manifest (Some first_predecessor) true
           (Some first_predecessor)) = true.
Proof. vm_compute. reflexivity. Qed.

(** The successor is accepted, and the theorem then tells its entries from the predecessor's. *)
Lemma change_gate_semantic_witness : sm_entries next_manifest ≠ sm_entries first_manifest.
Proof.
  pose proof (change_gate_semantic id id next_commitment next_manifest first_manifest first_predecessor
    (Some first_predecessor) (proj1 (built_ok _ _ _ _ next_built)) (proj1 (built_ok _ _ _ _ first_built))
    eq_refl eq_refl eq_refl) as H.
  pose proof next_accepted as Ha. cbv zeta in H.
  destruct (evaluate_submission_change _ _ _ _ _) as [r|e]; [tauto|discriminate Ha].
Defined.
