(* ===== verification/SubmissionFlow.v ===== *)
(** * From an uploaded archive to sealed files

    The components of a submission composed: what [inspect] accepts has a manifest, the manifest
    can be stored and recovered, and an export that succeeds serves exactly the files whose facts
    the manifest carries. *)

From S2P Require Import Prelude Text Digest Json Instant OutboxApi ZipSafety Archive ArchiveRead.
From S2P Require Import ArchiveGuarantees ArchiveExport Manifest.

(** ** Bodies that UTF-8 can encode *)

(** A code point that UTF-8 encodes *)
Definition scalar (c : Z) : bool := code_point c && negb (surrogate c).

Lemma utf8_encode_scalar s : forallb scalar s = true → is_Some (utf8_encode s).
Proof.
  induction s as [|c s IH]; [done|]. cbn [forallb utf8_encode]. intros [Hc Hs]%andb_prop.
  destruct (IH Hs) as [b ->]. unfold utf8_char, scalar in *.
  apply andb_prop in Hc as [_ Hc%negb_true_iff]. rewrite Hc. repeat case_match; eauto.
Qed.

Lemma utf8_encode_no_surrogate s b c :
  utf8_encode s = Some b → c ∈ s → surrogate c = false.
Proof.
  revert b. induction s as [|x s IH]; intros b H Hc; [by apply not_elem_of_nil in Hc|].
  cbn in H. destruct (utf8_char x) as [bx|] eqn:E; [|done].
  destruct (utf8_encode s) as [bs|] eqn:Es; [|done]. apply elem_of_cons in Hc as [->|Hc]; [|by eapply IH].
  unfold utf8_char in E. destruct (surrogate x) eqn:Hx; [|done]. unfold surrogate in Hx.
  repeat case_match; try done; lia.
Qed.

Lemma path_scalar s b : is_str s = true → utf8_encode s = Some b → forallb scalar s = true.
Proof.
  unfold is_str. rewrite !forallb_forall. intros Hs Hb c Hc. unfold scalar. rewrite Hs by done.
  by rewrite (utf8_encode_no_surrogate s b c Hb) by by apply list_elem_of_In.
Qed.

Lemma hex_scalar s : forallb is_hex_digit s = true → forallb scalar s = true.
Proof.
  rewrite !forallb_forall. intros H c Hc%H. unfold is_hex_digit, is_digit, scalar, code_point, surrogate in *.
  lia.
Qed.

Lemma digest_scalar s : digest_pattern s = true → forallb scalar s = true.
Proof.
  unfold digest_pattern. rewrite !andb_true_iff. intros [[Hp Hh] _].
  rewrite <- (take_drop 7 s), forallb_app. apply andb_true_iff. split.
  - change 7%nat with (length (lit "sha256:")). by rewrite (starts_with_take _ _ Hp).
  - by apply hex_scalar.
Qed.

Lemma body_encodable es :
  Forall entry_tight es → Forall (λ e, forallb scalar (normalized_path e) = true) es →
  ∃ d, canonical_json_hash (_manifest_body es) = Some d.
Proof.
  intros Ht Hp. unfold canonical_json_hash.
  destruct (utf8_encode_scalar (dumps (_manifest_body es))) as [b ->]; [|by eexists].
  apply dumps_chars; [intros c; unfold scalar, code_point, surrogate; lia..|].
  change (json_chars scalar (_manifest_body es)) with
    (forallb (json_chars scalar) (map entry_body es) && true). rewrite andb_true_r.
  apply forallb_forall. intros x (e & <- & He)%in_map_iff. apply list_elem_of_In in He.
  rewrite Forall_forall in Ht, Hp. specialize (Ht e He). specialize (Hp e He).
  destruct e as [p k c s x]. unfold entry_tight in Ht.
  cbn [normalized_path entry_type byte_count entry_sha256 executable] in *. destruct k.
  - destruct Ht as (_ & t & y & -> & -> & Hd). apply digest_scalar in Hd.
    cbn [entry_body entry_type normalized_path entry_sha256 executable opt_str opt_bool json_chars
         kv fst snd forallb]. rewrite Hp, Hd. vm_compute. reflexivity.
  - cbn [entry_body entry_type normalized_path json_chars kv fst snd forallb].
    rewrite Hp. vm_compute. reflexivity.
Qed.

(** ** Inspection, manifest, storage and export *)

Lemma facts_tight V l infos e : entry_facts V l infos e → entry_tight e.
Proof.
  unfold entry_facts, entry_tight. destruct (entry_type e); [|done].
  intros (info & digest & _ & _ & Hm & -> & ->).
  split; [rewrite (mr_content _ _ _ _ _ Hm); apply len_pos|]. exists digest, (_normalized_executable info).
  split_and!; [done..|]. rewrite (mr_digest _ _ _ _ _ Hm).
  destruct (sha256_hex_shape (concat (member V info).1)) as [Hl Hh]. unfold digest_pattern, len.
  by rewrite length_app, Hl, drop_app_length', Hh by done.
Qed.

Lemma tight_checks es : Forall entry_tight es →
  forallb (λ e, negb (is_file e && (bool_decide (entry_sha256 e = None)
                                    || bool_decide (executable e = None)))) es = true.
Proof.
  rewrite Forall_forall. intros H. apply forallb_forall. intros e He%list_elem_of_In%H.
  unfold entry_tight, is_file in *. destruct (entry_type e); [|done].
  by destruct He as (_ & s & x & -> & -> & _).
Qed.

(** Paths that are stored as they are: safe, in normal form, and within the stored bounds. *)
Definition storable_paths (n : str → str) (r : SubmissionArchiveInspectionResult) : Prop :=
  ∀ e, e ∈ ir_entries r → is_str (normalized_path e) = true ∧
    normalize_submission_archive_path n (normalized_path e) 4096 256 = Ok (normalized_path e).

Lemma normalized_encodes n path a b r :
  normalize_submission_archive_path n path a b = Ok r → is_Some (utf8_encode path).
Proof.
  intros H. unfold normalize_submission_archive_path in H. cbv zeta in H.
  apply ensure_bind_Ok in H as [_ H]. apply result_bind_Ok in H as (x & Hx%oget_Ok & _). by eexists.
Qed.

(** The manifest of an inspection *)
Lemma inspected_manifest V l source r :
  limits_valid l = true → maximum_entries l ≤ 50000 → inspect V l source = Ok r →
  storable_paths (nfc V) r →
  ∃ m, build_submission_manifest (nfc V) (fold V) r = Ok m ∧ sm_entries m = ir_entries r ∧
    manifest_ok (nfc V) (fold V) m ∧ storable (nfc V) m.
Proof.
  intros Hl Hn Hi Hp.
  destruct (inspect_facts V l source r Hl Hi)
    as (Hinv & Hs & Hc & Hf & Hd & Htot & [_ Hmax] & Hcount & infos & _ & _ & He).
  assert (Forall entry_tight (ir_entries r)) as Ht
    by (apply Forall_forall; intros e Hin; by eapply facts_tight, He).
  assert (maximum_expanded_bytes l ≤ max_manifest_bytes) as Hb.
  { unfold limits_valid, max_manifest_bytes in *. rewrite !andb_true_iff in Hl. lia. }
  destruct (body_encodable (ir_entries r)) as [d Hd']; [done| |].
  { apply Forall_forall. intros e Hin. destruct (Hp e Hin) as [Hstr Hnorm].
    destruct (normalized_encodes _ _ _ _ _ Hnorm) as [b Hb']. by eapply path_scalar. }
  exists {| sm_sha256 := d; sm_entries := ir_entries r; sm_entry_count := ir_entry_count r;
            sm_file_count := ir_file_count r; sm_directory_count := ir_directory_count r;
            sm_total_expanded_bytes := ir_total_expanded_bytes r |}.
  set (m := Build_SubmissionManifest _ _ _ _ _ _).
  assert (manifest_ok (nfc V) (fold V) m) as Hm by (split; cbn; try done; congruence).
  split_and!; [|done|done|].
  - unfold build_submission_manifest, sort_entries. rewrite sort_by_sorted by done. cbv zeta.
    rewrite tight_checks by done. run. rewrite Hd', bind_oget. exact (new_manifest_ok _ _ m Hm).
  - split; cbn; [lia|lia|]. intros e Hin. by apply Hp.
Qed.

(** C20. A submission flows through.  Whatever archive [inspect] accepts (under valid limits of at
    most 50,000 entries, with paths that can be stored as they are) has a manifest with exactly
    the inspected entries; the manifest is recovered from its JSON body and digest; and however
    the exporter behaves, a tree exported under the same limits serves every file the manifest
    names, with the recorded length and SHA-256 digest. *)
Theorem submission_flow V l source r :
  limits_valid l = true → maximum_entries l ≤ 50000 → inspect V l source = Ok r →
  storable_paths (nfc V) r →
  ∃ m facts, build_submission_manifest (nfc V) (fold V) r = Ok m ∧ sm_entries m = ir_entries r ∧
    from_dict (nfc V) (fold V) (as_dict m) (sm_sha256 m) = Ok m ∧ file_facts m = Ok facts ∧
    ∀ ws calls t ff, exported_submission_tree (nfc V) (fold V) l ws calls r = Ok t → ff ∈ facts →
      ∃ content, read_file t (bf_path ff) (bf_byte_count ff) = Ok content ∧
        len content = bf_byte_count ff ∧ sha_of content = bf_sha256 ff.
Proof.
  intros Hl Hn Hi Hp. destruct (inspected_manifest V l source r Hl Hn Hi Hp) as (m & Hb & Hes & Hm & Hst).
  exists m, (map fact_of (List.filter is_file (sm_entries m))).
  split_and!; [done|done|by apply manifest_from_dict| |].
  { apply (storable_files (nfc V)); [by eapply mo_tight|by eapply mo_total|done]. }
  intros ws calls t ff Hx (e & -> & He)%list_elem_of_fmap.
  apply list_elem_of_In, filter_In in He as [He Hf]. apply list_elem_of_In in He. rewrite Hes in He.
  destruct (export_facts _ _ _ _ _ _ _ Hx) as [Hall _].
  destruct (Hall e He Hf) as (content & Hlen & Hsha & Hr). exists content. cbn.
  rewrite Hsha. split_and!; [by apply Hr|done|done].
Qed.

Lemma sample_paths : storable_paths (nfc sample_env) inspected.
Proof.
  assert (Forall (λ e, is_str (normalized_path e) = true ∧
    normalize_submission_archive_path (nfc sample_env) (normalized_path e) 4096 256
    = Ok (normalized_path e)) (ir_entries inspected)) as H.
  { vm_compute ir_entries. repeat constructor; vm_compute; reflexivity. }
  intros e He. rewrite Forall_forall in H. by apply H.
Qed.

(** The sample archive, inspected, exported and read. *)
Lemma submission_flow_witness :
  ∃ m facts t, build_submission_manifest (nfc sample_env) (fold sample_env) inspected = Ok m ∧
    file_facts m = Ok facts ∧
    exported_submission_tree (nfc sample_env) (fold sample_env) wide_limits workspace sample_calls
      inspected = Ok t ∧
    ∀ ff, ff ∈ facts → ∃ content, read_file t (bf_path ff) (bf_byte_count ff) = Ok content ∧
        len content = bf_byte_count ff ∧ sha_of content = bf_sha256 ff.
Proof.
  destruct (submission_flow sample_env wide_limits sample_zip inspected)
    as (m & facts & Hb & _ & _ & Hf & H);
    [reflexivity|vm_compute; discriminate|vm_compute; reflexivity|exact sample_paths|].
  pose proof sample_export_ok as Hok.
  change (is_ok (exported_submission_tree (nfc sample_env) (fold sample_env) wide_limits workspace
                   sample_calls inspected) = true) in Hok.
  destruct (exported_submission_tree (nfc sample_env) (fold sample_env) wide_limits workspace
              sample_calls inspected) as [t|x] eqn:E; [|discriminate Hok].
  exists m, facts, t. split; [exact Hb|]. split; [exact Hf|]. split; [reflexivity|].
  intros ff. exact (H workspace sample_calls t ff E).
Defined.
