(* ===== verification/Lifecycle.v ===== *)
(** * The joint lifecycle controller (modules/reviews/api/lifecycle.py, reviews/lifecycle)

    One controller row decides whether accepted work may have new effects.  Its phase moves
    along authorised edges, one immutable history row per generation; every participant of an
    acceptance reads it through a fence that binds the caller's root transaction.  The tables
    are a record; a call that raises leaves its transaction to be rolled back.  What the session
    and the connection answer, the database time, new identities, the authority port and the
    triggers of the schema ([admits]) are arguments. *)

From S2P Require Import Prelude Text Digest Json Instant.

(** ** Values *)

Inductive JointLifecyclePhase := DISABLED | SHADOW | LIVE | DRAINING.

#[export] Instance phase_eq_dec : EqDecision JointLifecyclePhase.
Proof. solve_decision. Defined.

(** [phase.value] *)
Definition phase_value (p : JointLifecyclePhase) : str :=
  match p with
  | DISABLED => lit "disabled" | SHADOW => lit "shadow" | LIVE => lit "live"
  | DRAINING => lit "draining"
  end.

Definition max_generation : Z := 9223372036854775807.

Record JointLifecycleControlFacts := {
  cf_singleton_id : uuid;
  cf_phase : JointLifecyclePhase;
  cf_generation : Z;
  cf_new_effects_enabled : bool;
  cf_created_at : instant;
}.

(** The field bounds and [validate_genesis] *)
Definition control_facts_valid (f : JointLifecycleControlFacts) : bool :=
  (0 <=? cf_generation f) && (cf_generation f <=? max_generation)
  && uuid7_shape (cf_singleton_id f)
  && negb ((cf_generation f =? 0) && negb (bool_decide (cf_phase f = DISABLED)))
  && negb (cf_new_effects_enabled f
           && (negb (bool_decide (cf_phase f = LIVE)) || (cf_generation f <=? 0))).

Record LifecycleTransitionCommand := {
  lt_operation_id : uuid;
  lt_singleton_id : uuid;
  lt_actor_profile_id : uuid;
  lt_identity_link_id : uuid;
  lt_expected_generation : Z;
  lt_current_phase : JointLifecyclePhase;
  lt_target_phase : JointLifecyclePhase;
  lt_reviewed_manifest_digest : str;
  lt_deadline : instant;
  lt_reason : str;
}.

#[export] Instance command_eq_dec : EqDecision LifecycleTransitionCommand.
Proof. solve_decision. Defined.

(** The field bounds and [validate_transition_shape] *)
Definition command_valid (c : LifecycleTransitionCommand) : bool :=
  (0 <=? lt_expected_generation c) && (lt_expected_generation c <? max_generation)
  && digest_pattern (lt_reviewed_manifest_digest c)
  && (1 <=? len (lt_reason c)) && (len (lt_reason c) <=? 512)
  && negb (bool_decide (lt_current_phase c = lt_target_phase c))
  && negb ((lt_expected_generation c =? 0) && negb (bool_decide (lt_current_phase c = DISABLED))).

Record LifecycleTransitionFacts := {
  lf_command : LifecycleTransitionCommand;
  lf_observations_digest : str;
}.

Record LifecycleTransitionReceipt := {
  lr_operation_id : uuid;
  lr_singleton_id : uuid;
  lr_generation : Z;
  lr_phase : JointLifecyclePhase;
  lr_authorization_decision_event_id : uuid;
  lr_created_at : instant;
}.

Record LifecycleAuthorityReceipt := { la_decision_event_id : uuid; la_resource_context_digest : str }.

Inductive LifecycleExn :=
| JointLifecycleUnavailable
| InvalidValue            (** [ValueError], [ValidationError] *)
| AuthorityDenied         (** what the authority port raises *)
| DatabaseError           (** a constraint, a trigger or another fault of the database *).

(** ** Tables *)

Record JointLifecycleReleaseControl := {
  rc_id : uuid;
  rc_singleton : bool;
  rc_phase : JointLifecyclePhase;
  rc_generation : Z;
  rc_created_at : instant;
  rc_transition_id : option uuid;
}.

(** The CHECK constraints of the controller row *)
Definition control_checks (c : JointLifecycleReleaseControl) : bool :=
  uuid7_shape (rc_id c) && rc_singleton c && (0 <=? rc_generation c)
  && (rc_generation c <=? max_generation)
  && (negb (rc_generation c =? 0) || bool_decide (rc_phase c = DISABLED)).

Record JointLifecycleTransition := {
  jt_id : uuid;
  jt_operation_id : uuid;
  jt_singleton_id : uuid;
  jt_generation : Z;
  jt_previous_phase : JointLifecyclePhase;
  jt_phase : JointLifecyclePhase;
  jt_facts : LifecycleTransitionFacts;
  jt_resource_context_digest : str;
  jt_authorization_decision_event_id : uuid;
  jt_created_at : instant;
}.

(** The controller table, of at most one row by its unique [singleton], and the history in the
    order of its inserts. *)
Record LifecycleDb := {
  lc_control : option JointLifecycleReleaseControl;
  lc_transitions : list JointLifecycleTransition;
}.

(** The CHECK and UNIQUE constraints of a new history row *)
Definition transition_checks (history : list JointLifecycleTransition) (t : JointLifecycleTransition)
    : bool :=
  uuid7_shape (jt_id t) && (0 <? jt_generation t) && (jt_generation t <=? max_generation)
  && negb (existsb (λ u, (jt_id u =? jt_id t) || (jt_operation_id u =? jt_operation_id t)
                         || ((jt_singleton_id u =? jt_singleton_id t)
                             && (jt_generation u =? jt_generation t))
                         || (jt_authorization_decision_event_id u
                             =? jt_authorization_decision_event_id t)) history).

(** ** The manifest *)

Definition strings (l : list string) : json := JArr (map (λ s, JStr (lit s)) l).

Definition first_contribution_manifest : json :=
  JObj [kv "participants" (strings ["reviews.acceptance"; "tasks.accepted_effects";
                                    "contributions.records"]);
        kv "new_effects" (JStr (lit "live_root_transaction"));
        kv "replay" (JStr (lit "current_generation_select_only"));
        kv "live_readiness" (JStr (lit "no_pre_authority_final_acceptances"));
        kv "production_routing" (JStr (lit "selected_post_submit_completion"));
        kv "unavailable" (strings ["human_review"; "fulfillment_admission"; "payment_delivery"])].

Definition FIRST_CONTRIBUTION_MANIFEST_DIGEST : str :=
  default [] (canonical_json_hash first_contribution_manifest).

(** The literal that revision 0039 writes into [joint_lifecycle_new_effects_enabled] *)
Definition _NEW_MANIFEST : str :=
  lit "sha256:3a6704c3c79c243f5a032f2db9c4f47080716dfef86928f53e0f20b4d6047273".

(** The SQL function [joint_lifecycle_new_effects_enabled] *)
Definition joint_lifecycle_new_effects_enabled (db : LifecycleDb) (c : JointLifecycleReleaseControl)
    : bool :=
  rc_singleton c && bool_decide (rc_phase c = LIVE) && (0 <? rc_generation c)
  && match rc_transition_id c with
     | None => false
     | Some id =>
         existsb (λ t, (jt_id t =? id) && (jt_singleton_id t =? rc_id c)
                       && (jt_generation t =? rc_generation c)
                       && bool_decide (jt_phase t = rc_phase c)
                       && str_eqb (lt_reviewed_manifest_digest (lf_command (jt_facts t))) _NEW_MANIFEST)
           (lc_transitions db)
     end.

(** ** The fence *)

(** The answer of [pg_export_snapshot]: SQLSTATE 25001 reveals a raw savepoint. *)
Inductive ExportAnswer := Exported | ActiveSubtransaction | ExportFault.

(** What the session and its connection report during one call *)
Record Session := {
  ss_transaction : option Z;          (** the identity of the root transaction *)
  ss_active : bool;
  ss_nested : bool;
  ss_connection_nested : bool;
  ss_export : ExportAnswer;
}.

Definition require_root (s : Session) : result LifecycleExn unit :=
  _ ← ensure (negb (ss_connection_nested s)) JointLifecycleUnavailable;
  match ss_export s with
  | Exported => Ok tt
  | ActiveSubtransaction => Raise JointLifecycleUnavailable
  | ExportFault => Raise DatabaseError
  end.

Definition observe_generation (db : LifecycleDb) : result LifecycleExn Z :=
  match lc_control db with
  | Some c =>
      _ ← ensure ((0 <=? rc_generation c) && (rc_generation c <=? max_generation))
            JointLifecycleUnavailable;
      Ok (rc_generation c)
  | None => Raise JointLifecycleUnavailable
  end.

Definition control_facts (db : LifecycleDb) (c : JointLifecycleReleaseControl)
    : JointLifecycleControlFacts :=
  {| cf_singleton_id := rc_id c; cf_phase := rc_phase c; cf_generation := rc_generation c;
     cf_new_effects_enabled := joint_lifecycle_new_effects_enabled db c;
     cf_created_at := rc_created_at c |}.

Definition lock_controller (s : Session) (db : LifecycleDb)
    : result LifecycleExn JointLifecycleControlFacts :=
  _ ← ensure (bool_decide (ss_transaction s ≠ None) && ss_active s && negb (ss_nested s))
        JointLifecycleUnavailable;
  _ ← require_root s;
  c ← oget (lc_control db) JointLifecycleUnavailable;
  _ ← ensure (control_facts_valid (control_facts db c)) JointLifecycleUnavailable;
  Ok (control_facts db c).

Definition acquire (s : Session) (expected_generation : Z) (db : LifecycleDb)
    : result LifecycleExn JointLifecycleControlFacts :=
  _ ← ensure ((0 <=? expected_generation) && (expected_generation <=? max_generation))
        JointLifecycleUnavailable;
  facts ← lock_controller s db;
  _ ← ensure (cf_generation facts =? expected_generation) JointLifecycleUnavailable;
  Ok facts.

(** [_HeldLifecycleFence] *)
Record HeldFence := {
  hf_transaction : option Z;
  hf_facts : JointLifecycleControlFacts;
  hf_closed : bool;
}.

(** [hold], up to its [yield] *)
Definition hold (s : Session) (expected_generation : Z) (db : LifecycleDb)
    : result LifecycleExn HeldFence :=
  facts ← acquire s expected_generation db;
  Ok {| hf_transaction := ss_transaction s; hf_facts := facts; hf_closed := false |}.

Definition close (h : HeldFence) : HeldFence :=
  {| hf_transaction := hf_transaction h; hf_facts := hf_facts h; hf_closed := true |}.

(** [_HeldLifecycleFence.acquire]; a raw savepoint closes the view *)
Definition held_acquire (s : Session) (expected_generation : Z) (h : HeldFence)
    : HeldFence * result LifecycleExn JointLifecycleControlFacts :=
  if hf_closed h || negb (expected_generation =? cf_generation (hf_facts h))
     || negb (bool_decide (ss_transaction s = hf_transaction h))
     || bool_decide (hf_transaction h = None) || negb (ss_active s) || ss_nested s
     || ss_connection_nested s
  then (h, Raise JointLifecycleUnavailable)
  else match ss_export s with
  | Exported => (h, Ok (hf_facts h))
  | ActiveSubtransaction => (close h, Raise JointLifecycleUnavailable)
  | ExportFault => (h, Raise DatabaseError)
  end.

(** ** Transitions *)

Definition _EDGES : list (JointLifecyclePhase * JointLifecyclePhase) :=
  [(DISABLED, SHADOW); (SHADOW, LIVE); (SHADOW, DISABLED); (LIVE, DRAINING); (DRAINING, DISABLED)].

(** [LifecycleTransitionAuthorization] and [PreparedLifecycleTransition] *)
Record LifecycleAuthority := {
  au_lock : LifecycleTransitionCommand → bool;
  au_consume_new : LifecycleTransitionFacts → option LifecycleAuthorityReceipt;
  au_validate_replay : LifecycleTransitionFacts → uuid → bool;
}.

(** What one call takes from outside: the database time, the new identity, the insert's time
    stamp, whether an acceptance without routing custody is stored, and the schema's triggers. *)
Record TransitionInputs := {
  ti_session : Session;
  ti_authority : LifecycleAuthority;
  ti_now : instant;
  ti_new_id : uuid;
  ti_created_at : instant;
  ti_retained_acceptance : bool;
  ti_admits : LifecycleDb → LifecycleDb → bool;
}.

Definition _receipt (t : JointLifecycleTransition) : LifecycleTransitionReceipt :=
  {| lr_operation_id := jt_operation_id t; lr_singleton_id := jt_singleton_id t;
     lr_generation := jt_generation t; lr_phase := jt_phase t;
     lr_authorization_decision_event_id := jt_authorization_decision_event_id t;
     lr_created_at := jt_created_at t |}.

Definition observations (current : JointLifecycleControlFacts) (retained : bool) : json :=
  JObj [kv "singleton_id" (json_uuid (cf_singleton_id current));
        kv "generation" (JInt (cf_generation current));
        kv "phase" (JStr (phase_value (cf_phase current)));
        kv "retained_pre_authority_acceptance" (JBool retained);
        kv "manifest" (JStr FIRST_CONTRIBUTION_MANIFEST_DIGEST)].

(** The guard of a new transition *)
Definition transition_available (current : JointLifecycleControlFacts)
    (checked : LifecycleTransitionCommand) (now : instant) : bool :=
  negb (negb (cf_singleton_id current =? lt_singleton_id checked)
        || negb (cf_generation current =? lt_expected_generation checked)
        || negb (bool_decide (cf_phase current = lt_current_phase checked))
        || negb (bool_decide ((cf_phase current, lt_target_phase checked) ∈ _EDGES))
        || negb (str_eqb (lt_reviewed_manifest_digest checked) FIRST_CONTRIBUTION_MANIFEST_DIGEST)
        || (lt_deadline checked <=? now)).

Definition stage_transition (i : TransitionInputs) (current : JointLifecycleControlFacts)
    (facts : LifecycleTransitionFacts) (receipt : LifecycleAuthorityReceipt)
    : JointLifecycleTransition :=
  {| jt_id := ti_new_id i; jt_operation_id := lt_operation_id (lf_command facts);
     jt_singleton_id := cf_singleton_id current; jt_generation := cf_generation current + 1;
     jt_previous_phase := cf_phase current; jt_phase := lt_target_phase (lf_command facts);
     jt_facts := facts; jt_resource_context_digest := la_resource_context_digest receipt;
     jt_authorization_decision_event_id := la_decision_event_id receipt;
     jt_created_at := ti_created_at i |}.

Definition moved_control (c : JointLifecycleReleaseControl) (row : JointLifecycleTransition)
    : JointLifecycleReleaseControl :=
  {| rc_id := rc_id c; rc_singleton := rc_singleton c; rc_phase := jt_phase row;
     rc_generation := jt_generation row; rc_created_at := rc_created_at c;
     rc_transition_id := Some (jt_id row) |}.

(** The two flushes *)
Definition flush_transition (i : TransitionInputs) (row : JointLifecycleTransition) (db : LifecycleDb)
    : result LifecycleExn LifecycleDb :=
  _ ← ensure (transition_checks (lc_transitions db) row) DatabaseError;
  c ← oget (lc_control db) DatabaseError;
  let db' := {| lc_control := Some (moved_control c row); lc_transitions := lc_transitions db ++ [row] |} in
  _ ← ensure (control_checks (moved_control c row) && ti_admits i db db') DatabaseError;
  Ok db'.

Definition transition (i : TransitionInputs) (checked : LifecycleTransitionCommand) (db : LifecycleDb)
    : result LifecycleExn (LifecycleTransitionReceipt * LifecycleDb) :=
  _ ← ensure (command_valid checked) InvalidValue;
  current ← lock_controller (ti_session i) db;
  _ ← ensure (au_lock (ti_authority i) checked) AuthorityDenied;
  match List.find (λ t, jt_operation_id t =? lt_operation_id checked) (lc_transitions db) with
  | Some history =>
      _ ← ensure (negb (negb (bool_decide (lf_command (jt_facts history) = checked))
                        || negb (cf_singleton_id current =? jt_singleton_id history)))
            JointLifecycleUnavailable;
      _ ← ensure (au_validate_replay (ti_authority i) (jt_facts history)
                    (jt_authorization_decision_event_id history)) AuthorityDenied;
      Ok (_receipt history, db)
  | None =>
      _ ← ensure (transition_available current checked (ti_now i)) JointLifecycleUnavailable;
      _ ← ensure (negb (bool_decide (lt_target_phase checked = LIVE) && ti_retained_acceptance i))
            JointLifecycleUnavailable;
      digest ← oget (canonical_json_hash (observations current (ti_retained_acceptance i))) InvalidValue;
      let facts := {| lf_command := checked; lf_observations_digest := digest |} in
      receipt ← oget (au_consume_new (ti_authority i) facts) AuthorityDenied;
      let row := stage_transition i current facts receipt in
      db' ← flush_transition i row db;
      Ok (_receipt row, db')
  end.

(** ** What a successful call does *)

Lemma lock_controller_Ok s db f :
  lock_controller s db = Ok f →
  ∃ c, lc_control db = Some c ∧ f = control_facts db c ∧ control_facts_valid f = true.
Proof.
  intros H. unfold lock_controller in H. apply ensure_bind_Ok in H as [_ H].
  apply result_bind_Ok in H as (_ & _ & H). apply result_bind_Ok in H as (c & Hc%oget_Ok & H).
  apply ensure_bind_Ok in H as [Hv H]. apply Ok_inj in H as <-. by exists c.
Qed.

Definition find_operation (id : uuid) (ts : list JointLifecycleTransition)
    : option JointLifecycleTransition :=
  List.find (λ t, jt_operation_id t =? id) ts.

(** A new row, as far as the command and the controller determine it *)
Record staged (i : TransitionInputs) (cmd : LifecycleTransitionCommand) (db : LifecycleDb)
    (c : JointLifecycleReleaseControl) (row : JointLifecycleTransition) : Prop := {
  sg_id : jt_id row = ti_new_id i;
  sg_created : jt_created_at row = ti_created_at i;
  sg_command : lf_command (jt_facts row) = cmd;
  sg_operation : jt_operation_id row = lt_operation_id cmd;
  sg_singleton : jt_singleton_id row = rc_id c ∧ lt_singleton_id cmd = rc_id c;
  sg_generation : jt_generation row = rc_generation c + 1 ∧ lt_expected_generation cmd = rc_generation c;
  sg_previous : jt_previous_phase row = rc_phase c ∧ lt_current_phase cmd = rc_phase c;
  sg_phase : jt_phase row = lt_target_phase cmd;
  sg_edge : (jt_previous_phase row, jt_phase row) ∈ _EDGES;
  sg_manifest : lt_reviewed_manifest_digest cmd = FIRST_CONTRIBUTION_MANIFEST_DIGEST;
  sg_deadline : ti_now i < lt_deadline cmd;
  sg_ready : jt_phase row = LIVE → ti_retained_acceptance i = false;
  sg_checks : transition_checks (lc_transitions db) row = true;
  sg_control : control_checks (moved_control c row) = true;
}.

Definition moved (db : LifecycleDb) (c : JointLifecycleReleaseControl) (row : JointLifecycleTransition)
    : LifecycleDb :=
  {| lc_control := Some (moved_control c row); lc_transitions := lc_transitions db ++ [row] |}.

Lemma transition_available_true current cmd now :
  transition_available current cmd now = true →
  cf_singleton_id current = lt_singleton_id cmd ∧ cf_generation current = lt_expected_generation cmd ∧
  cf_phase current = lt_current_phase cmd ∧ (cf_phase current, lt_target_phase cmd) ∈ _EDGES ∧
  lt_reviewed_manifest_digest cmd = FIRST_CONTRIBUTION_MANIFEST_DIGEST ∧ now < lt_deadline cmd.
Proof.
  unfold transition_available. rewrite negb_true_iff, !orb_false_iff, !negb_false_iff.
  rewrite !Z.eqb_eq, !bool_decide_eq_true, Z.leb_gt. unfold str_eqb. rewrite bool_decide_eq_true. tauto.
Qed.

Lemma transition_Ok i cmd db r db' :
  transition i cmd db = Ok (r, db') →
  ∃ c, lc_control db = Some c ∧
    match find_operation (lt_operation_id cmd) (lc_transitions db) with
    | Some t => lf_command (jt_facts t) = cmd ∧ jt_singleton_id t = rc_id c ∧ r = _receipt t ∧ db' = db
    | None => ∃ row, staged i cmd db c row ∧ r = _receipt row ∧ db' = moved db c row
    end.
Proof.
  intros H. unfold transition in H. apply ensure_bind_Ok in H as [_ H].
  apply result_bind_Ok in H as (cur & Hlock & H). apply ensure_bind_Ok in H as [_ H].
  apply lock_controller_Ok in Hlock as (c & Hc & -> & _). exists c. split; [done|].
  unfold find_operation. destruct (List.find _ (lc_transitions db)) as [t|].
  - apply ensure_bind_Ok in H as [Hm H]. apply ensure_bind_Ok in H as [_ H]. apply Ok_inj in H as [= <- <-].
    apply negb_true_iff, orb_false_iff in Hm as [Hm%negb_false_iff%bool_decide_eq_true_1
      Hs%negb_false_iff%Z.eqb_eq]. done.
  - apply ensure_bind_Ok in H as [Hav%transition_available_true H].
    apply ensure_bind_Ok in H as [Hr H]. apply result_bind_Ok in H as (d & _ & H). cbv zeta in H.
    apply result_bind_Ok in H as (rc & _ & H). apply result_bind_Ok in H as (db2 & Hf & H).
    apply Ok_inj in H as [= <- <-]. set (row := stage_transition _ _ _ _) in *. exists row.
    unfold flush_transition in Hf. apply ensure_bind_Ok in Hf as [Hck Hf].
    rewrite Hc in Hf. run in Hf. cbv zeta in Hf. apply ensure_bind_Ok in Hf as [Hc2 Hf].
    apply Ok_inj in Hf as <-. apply andb_prop in Hc2 as [Hc2 _].
    destruct Hav as (H1 & H2 & H3 & H4 & H5 & H6). split; [|done].
    split; cbn; [done..|exact H5|done| |done|done]. intros E. rewrite bool_decide_eq_true_2 in Hr by done.
    by apply negb_true_iff in Hr.
Qed.

(** ** Histories *)

(** The phases follow each other along the edges. *)
Fixpoint follows (p : JointLifecyclePhase) (ts : list JointLifecycleTransition) : Prop :=
  match ts with
  | [] => True
  | t :: ts' => jt_previous_phase t = p ∧ (p, jt_phase t) ∈ _EDGES ∧ follows (jt_phase t) ts'
  end.

Definition final_phase (p : JointLifecyclePhase) (ts : list JointLifecycleTransition)
    : JointLifecyclePhase :=
  foldl (λ _ t, jt_phase t) p ts.

Lemma final_phase_snoc p ts t : final_phase p (ts ++ [t]) = jt_phase t.
Proof. unfold final_phase. by rewrite foldl_app. Qed.

Lemma follows_snoc p ts t :
  follows p (ts ++ [t]) ↔
  follows p ts ∧ jt_previous_phase t = final_phase p ts ∧ (final_phase p ts, jt_phase t) ∈ _EDGES.
Proof.
  revert p. induction ts as [|u ts IH]; intros p; cbn [app follows]; [unfold final_phase; cbn; tauto|].
  rewrite IH. change (final_phase p (u :: ts)) with (final_phase (jt_phase u) ts). tauto.
Qed.

(** One history row of generation [k + 1] *)
Record recorded (c : JointLifecycleReleaseControl) (k : nat) (t : JointLifecycleTransition) : Prop := {
  rd_generation : jt_generation t = Z.of_nat k + 1;
  rd_singleton : jt_singleton_id t = rc_id c;
  rd_operation : jt_operation_id t = lt_operation_id (lf_command (jt_facts t));
  rd_expected : lt_expected_generation (lf_command (jt_facts t)) = Z.of_nat k;
  rd_phases : lt_current_phase (lf_command (jt_facts t)) = jt_previous_phase t ∧
              lt_target_phase (lf_command (jt_facts t)) = jt_phase t;
  rd_manifest : lt_reviewed_manifest_digest (lf_command (jt_facts t)) = FIRST_CONTRIBUTION_MANIFEST_DIGEST;
}.

Record history_ok (db : LifecycleDb) (c : JointLifecycleReleaseControl) : Prop := {
  ho_control : lc_control db = Some c;
  ho_checks : control_checks c = true;
  ho_generation : rc_generation c = Z.of_nat (length (lc_transitions db));
  ho_rows : ∀ k t, lc_transitions db !! k = Some t → recorded c k t;
  ho_path : follows DISABLED (lc_transitions db);
  ho_phase : rc_phase c = final_phase DISABLED (lc_transitions db);
  ho_last : rc_transition_id c = jt_id <$> last (lc_transitions db);
  ho_ids : NoDup (map jt_id (lc_transitions db));
  ho_operations : NoDup (map jt_operation_id (lc_transitions db));
}.

Lemma NoDup_snoc {A} (l : list A) x : NoDup l → x ∉ l → NoDup (l ++ [x]).
Proof.
  intros Hl Hx. apply NoDup_app. split_and!; [done| |apply NoDup_singleton].
  intros y Hy ->%list_elem_of_singleton. done.
Qed.

Lemma moved_ok i cmd db c row : history_ok db c → staged i cmd db c row → history_ok (moved db c row) (moved_control c row).
Proof.
  intros [H1 H2 H3 H4 H5 H6 H7 H8 H9] S. destruct S as [Si Sc Scmd So [Ss Ss'] [Sg Sg'] [Sp Sp'] Sph Se Sm Sd Sr Sck Sct].
  unfold transition_checks in Sck. apply andb_prop in Sck as [_ Sck%negb_true_iff].
  assert (∀ u, u ∈ lc_transitions db → jt_id u ≠ jt_id row ∧ jt_operation_id u ≠ jt_operation_id row) as Hfresh.
  { intros u Hu%list_elem_of_In. rewrite <- not_true_iff_false, existsb_exists in Sck.
    split; intros E; apply Sck; exists u; split; try done; rewrite E, Z.eqb_refl, ?orb_true_r; done. }
  split; cbn.
  - done.
  - done.
  - rewrite length_app, Sg. cbn. lia.
  - intros k t. rewrite lookup_app_Some, list_lookup_singleton_Some.
    intros [Ht|(Hk & Hk' & <-)]; [destruct (H4 k t Ht); split; assumption|].
    assert (Z.of_nat k = rc_generation c) as Ek by lia.
    split; cbn; rewrite ?Scmd; [lia|done|done|lia|by rewrite Sp, Sp', Sph|exact Sm].
  - apply follows_snoc. rewrite <- H6. split_and!; [done|by rewrite Sp|]. by rewrite <- Sp.
  - by rewrite final_phase_snoc.
  - by rewrite last_snoc.
  - rewrite map_app. apply NoDup_snoc; [done|]. intros (u & E & Hu)%list_elem_of_fmap.
    destruct (Hfresh u Hu); congruence.
  - rewrite map_app. apply NoDup_snoc; [done|]. intros (u & E & Hu)%list_elem_of_fmap.
    destruct (Hfresh u Hu); congruence.
Qed.

(** ** Reachable controllers *)

(** The row that revision 0016 inserts *)
Definition genesis (c : JointLifecycleReleaseControl) : LifecycleDb :=
  {| lc_control := Some c; lc_transitions := [] |}.

Definition genesis_row (c : JointLifecycleReleaseControl) : Prop :=
  control_checks c = true ∧ rc_generation c = 0 ∧ rc_transition_id c = None.

(** A committed call, whoever makes it and whatever it is given *)
Definition lifecycle_step (db db' : LifecycleDb) : Prop :=
  ∃ i cmd r, transition i cmd db = Ok (r, db').

Definition lifecycle_reachable (db : LifecycleDb) : Prop :=
  ∃ c, genesis_row c ∧ rtc lifecycle_step (genesis c) db.

Lemma genesis_ok c : genesis_row c → history_ok (genesis c) c.
Proof.
  intros (Hc & Hg & Ht). split; cbn; try done; [|constructor..].
  unfold control_checks in Hc. apply andb_prop in Hc as [_ Hc]. rewrite Hg in Hc.
  by apply bool_decide_eq_true_1 in Hc.
Qed.

Lemma step_ok db db' c :
  lifecycle_step db db' → history_ok db c →
  ∃ c', history_ok db' c' ∧ rc_id c' = rc_id c ∧ lc_transitions db `prefix_of` lc_transitions db' ∧
    (db' = db ∨ rc_generation c' = rc_generation c + 1).
Proof.
  intros (i & cmd & r & H) Hok. apply transition_Ok in H as (c0 & Hc & H).
  assert (c0 = c) as -> by (rewrite (ho_control _ _ Hok) in Hc; congruence).
  destruct (find_operation _ _) as [t|].
  - destruct H as (_ & _ & _ & ->). exists c. split_and!; [done|done|done|by left].
  - destruct H as (row & S & _ & ->). exists (moved_control c row).
    split_and!; [by eapply moved_ok|done|by eexists|right]. cbn. by destruct (sg_generation _ _ _ _ _ S).
Qed.

Lemma steps_ok db db' c :
  rtc lifecycle_step db db' → history_ok db c →
  ∃ c', history_ok db' c' ∧ rc_id c' = rc_id c ∧ lc_transitions db `prefix_of` lc_transitions db'.
Proof.
  intros Hs. revert c. induction Hs as [db|db db1 db2 H _ IH]; intros c Hok.
  { exists c. split_and!; done. }
  destruct (step_ok _ _ _ H Hok) as (c1 & Hok1 & E1 & P1 & _).
  destruct (IH c1 Hok1) as (c2 & Hok2 & E2 & P2). exists c2. split_and!; [done|congruence|by etrans].
Qed.

Lemma lifecycle_reachable_ok db : lifecycle_reachable db → ∃ c, history_ok db c.
Proof.
  intros (c & Hg & Hs). destruct (steps_ok _ _ _ Hs (genesis_ok c Hg)) as (c' & H & _). by exists c'.
Qed.

(** The digest of the code and the literal of the schema are the same. *)
Lemma manifest_digests_agree : FIRST_CONTRIBUTION_MANIFEST_DIGEST = _NEW_MANIFEST.
Proof. vm_compute. reflexivity. Qed.

Lemma effects_enabled_live db c :
  history_ok db c → joint_lifecycle_new_effects_enabled db c = bool_decide (rc_phase c = LIVE).
Proof.
  intros [H1 H2 H3 H4 H5 H6 H7 H8 H9]. unfold joint_lifecycle_new_effects_enabled.
  destruct (decide (rc_phase c = LIVE)) as [E|E];
    [rewrite !bool_decide_eq_true_2 by done|by rewrite !bool_decide_eq_false_2, andb_false_r by done].
  unfold control_checks in H2. rewrite !andb_true_iff in H2. destruct H2 as [[[[_ Hs] _] _] _].
  rewrite Hs, E in *. rewrite H7. destruct (lc_transitions db) as [|t0 ts0] eqn:Et; [done|].
  destruct (last (t0 :: ts0)) as [t|] eqn:El; [|by apply last_None in El].
  rewrite last_lookup in El. assert (recorded c (pred (length (t0 :: ts0))) t) as R by by apply H4.
  cbn [fmap option_fmap option_map]. replace (0 <? rc_generation c) with true by (cbn in H3; lia).
  cbn [andb]. apply existsb_exists. exists t. split; [by eapply list_elem_of_In, list_elem_of_lookup_2|].
  assert (jt_phase t = LIVE) as Ep.
  { rewrite H6. destruct (exists_last (l:=t0::ts0)) as (l & x & Hx); [done|]. rewrite Hx in *.
    rewrite final_phase_snoc. rewrite length_app in El. cbn in El.
    rewrite Nat.add_1_r, Nat.pred_succ, lookup_app_r, Nat.sub_diag in El by lia. by injection El as ->. }
  rewrite Ep, (rd_singleton _ _ _ R), (rd_generation _ _ _ R), (rd_manifest _ _ _ R), !Z.eqb_refl.
  rewrite manifest_digests_agree. unfold str_eqb. rewrite !bool_decide_eq_true_2 by done.
  replace (_ =? rc_generation c) with true by (cbn in *; lia). done.
Qed.

(** C24. The controller's history is complete.  In every state authorised calls can reach, the
    controller's generation counts its history rows; the rows are numbered without gap, belong
    to the singleton, repeat neither an identity nor an operation, and their phases lead from
    disabled to the present phase along the permitted edges; and new effects are enabled exactly
    in the live phase, the manifest digest of the schema being the one of the code. *)
Theorem lifecycle_history db :
  lifecycle_reachable db →
  ∃ c, history_ok db c ∧ joint_lifecycle_new_effects_enabled db c = bool_decide (rc_phase c = LIVE).
Proof.
  intros (c & Hc)%lifecycle_reachable_ok. exists c. split; [done|]. by apply effects_enabled_live.
Qed.

(** A session whose calls run in the root transaction *)
Definition session_root (s : Session) : bool :=
  bool_decide (ss_transaction s ≠ None) && ss_active s && negb (ss_nested s)
  && negb (ss_connection_nested s) && match ss_export s with Exported => true | _ => false end.

Lemma lock_controller_root s db c :
  session_root s = true → history_ok db c → lock_controller s db = Ok (control_facts db c).
Proof.
  intros Hs Hok. pose proof (effects_enabled_live db c Hok) as Hen.
  unfold session_root in Hs. rewrite !andb_true_iff in Hs.
  destruct Hs as [[[[H1 H2] H3] H4] H5]. unfold lock_controller, require_root.
  rewrite H1, H2, H3, H4. destruct (ss_export s); [|done..]. run. rewrite (ho_control _ _ Hok). run.
  assert (control_facts_valid (control_facts db c) = true) as Hv; [|by rewrite Hv].
  pose proof (ho_checks _ _ Hok) as Hc. unfold control_checks in Hc. rewrite !andb_true_iff in Hc.
  destruct Hc as [[[[Hu Hsi] Hg] Hm] Hz]. unfold control_facts_valid, control_facts. cbn. rewrite Hen, Hg, Hm, Hu.
  cbn [andb]. destruct (decide (rc_phase c = LIVE)) as [E|E].
  - rewrite E in *. rewrite bool_decide_eq_false_2 in Hz |- * by done.
    rewrite bool_decide_eq_true_2 by done. destruct (rc_generation c =? 0) eqn:Ez; [done|].
    cbn. by replace (rc_generation c <=? 0) with false by lia.
  - rewrite (bool_decide_eq_false_2 _ E). cbn [andb negb].
    destruct (rc_generation c =? 0); [|done]. cbn in *. by rewrite Hz.
Qed.

Lemma find_operation_In id ts t :
  find_operation id ts = Some t → t ∈ ts ∧ jt_operation_id t = id.
Proof.
  intros [H1 H2%Z.eqb_eq]%List.find_some. split; [by apply list_elem_of_In|done].
Qed.

Lemma find_operation_prefix ts ts' t :
  t ∈ ts → ts `prefix_of` ts' → NoDup (map jt_operation_id ts') →
  find_operation (jt_operation_id t) ts' = Some t.
Proof.
  intros Ht [k ->] Hnd. assert (t ∈ ts ++ k) as Ht' by (apply elem_of_app; by left). clear Ht.
  induction (ts ++ k) as [|u l IH]; [by apply not_elem_of_nil in Ht'|]. cbn.
  cbn in Hnd. apply NoDup_cons in Hnd as [Hu Hnd].
  apply elem_of_cons in Ht' as [->|Ht']; [by rewrite Z.eqb_refl|].
  destruct (jt_operation_id u =? jt_operation_id t) eqn:E; [|by apply IH].
  apply Z.eqb_eq in E. exfalso. apply Hu. rewrite E. by apply list_elem_of_fmap_2.
Qed.

(** An operation is recorded once.  After a transition was committed, the same command, in
    any later state and whatever the phase has become, returns the receipt of the recorded row
    and changes nothing, as long as the caller's session is at its root and the authority
    validates the replay; a different command under the same operation never succeeds. *)
Theorem transition_replays db i cmd r db' db'' :
  lifecycle_reachable db → transition i cmd db = Ok (r, db') → rtc lifecycle_step db' db'' →
  (∀ j, session_root (ti_session j) = true → au_lock (ti_authority j) cmd = true →
     (∀ f d, lf_command f = cmd → au_validate_replay (ti_authority j) f d = true) →
     transition j cmd db'' = Ok (r, db'')) ∧
  (∀ j cmd' o, lt_operation_id cmd' = lt_operation_id cmd → cmd' ≠ cmd →
     transition j cmd' db'' ≠ Ok o).
Proof.
  intros (c & Hok)%lifecycle_reachable_ok H Hs.
  assert (command_valid cmd = true) as Hv by (unfold transition in H; by apply ensure_bind_Ok in H as [? _]).
  assert (∃ c' t, history_ok db' c' ∧ t ∈ lc_transitions db' ∧ lf_command (jt_facts t) = cmd ∧
            jt_operation_id t = lt_operation_id cmd ∧ r = _receipt t) as (c' & t & Hok' & Ht & Hcmd & Hop & ->).
  { apply transition_Ok in H as (c0 & Hc & H).
    assert (c0 = c) as -> by (rewrite (ho_control _ _ Hok) in Hc; congruence).
    destruct (find_operation _ _) as [t|] eqn:E.
    - destruct H as (Hm & _ & -> & ->). apply find_operation_In in E as [Ht Ho]. by exists c, t.
    - destruct H as (row & S & -> & ->). exists (moved_control c row), row.
      split_and!; [by eapply moved_ok|cbn; apply elem_of_app; right; by left|by apply S|by apply S|done]. }
  destruct (steps_ok _ _ _ Hs Hok') as (c'' & Hok'' & _ & Hp).
  assert (find_operation (lt_operation_id cmd) (lc_transitions db'') = Some t) as Hfind.
  { rewrite <- Hop. eapply find_operation_prefix; [done..|apply Hok'']. }
  split.
  - intros j Hroot Hlock Hval. unfold transition. rewrite Hv. run.
    rewrite (lock_controller_root _ _ _ Hroot Hok''), bind_Ok, Hlock. run.
    change (List.find _ _) with (find_operation (lt_operation_id cmd) (lc_transitions db'')).
    rewrite Hfind. cbv iota. rewrite (bool_decide_eq_true_2 _ Hcmd).
    assert (jt_singleton_id t = rc_id c'') as ->.
    { destruct Hp as [k Hk]. assert (t ∈ lc_transitions db'') as (n & Hn)%list_elem_of_lookup
        by (rewrite Hk; apply elem_of_app; by left). by apply (ho_rows _ _ Hok'' n t Hn). }
    cbn [cf_singleton_id control_facts]. rewrite Z.eqb_refl. run. by rewrite Hval.
  - intros j cmd' o Ho Hne Hx. destruct o as [r2 db2]. apply transition_Ok in Hx as (c2 & _ & Hx).
    rewrite Ho, Hfind in Hx. destruct Hx as (Hx & _). congruence.
Qed.
