(* ===== verification/Awards.v ===== *)
(** * Compensation awards (modules/compensation/api/awards.py, compensation/awards)

    The flush-only owner of the awards of one contribution: it copies every definition of the
    frozen rule into an immutable award, or checks that the stored set is exactly that.  The
    table is a finite map by identity; the identities and time stamps of new rows, the session's
    report and the triggers of the schema ([admits]) are arguments.  Main result: a successful
    call leaves exactly one award per definition, with the definition's facts, and a replay
    returns the same set. *)

From S2P Require Import Prelude Text Digest Json Instant.

(** ** Values *)

(** A [Decimal] of non-negative scale: [dc_units * 10 ^ - dc_scale] *)
Record Decimal := { dc_units : Z; dc_scale : Z }.

(** Python's [==] on decimals compares the numbers. *)
Definition dec_eqb (a b : Decimal) : bool :=
  dc_units a * 10 ^ dc_scale b =? dc_units b * 10 ^ dc_scale a.

Inductive CompensationInstrumentType := MONEY | PROJECT_POINTS.
Inductive Disposition := NEW | REPLAY.
Inductive CompensationMode := UNPAID | COMPENSATED.

#[export] Instance instrument_eq_dec : EqDecision CompensationInstrumentType.
Proof. solve_decision. Defined.
#[export] Instance disposition_eq_dec : EqDecision Disposition.
Proof. solve_decision. Defined.
#[export] Instance mode_eq_dec : EqDecision CompensationMode.
Proof. solve_decision. Defined.
#[export] Instance Decimal_eq_dec : EqDecision Decimal.
Proof. solve_decision. Defined.

(** The contribution type of these values is the literal [accepted_submission]. *)
Record AwardDefinitionFacts := {
  df_id : uuid;
  df_project_id : uuid;
  df_contribution_policy_version_id : uuid;
  df_instrument_type : CompensationInstrumentType;
  df_unit_code : str;
  df_quantity : Decimal;
  df_adapter_binding_id : uuid;
}.

Definition definition_valid (d : AwardDefinitionFacts) : bool :=
  (1 <=? len (df_unit_code d)) && (len (df_unit_code d) <=? 32) && (0 <? dc_units (df_quantity d)).

Record AwardContributionFacts := {
  an_id : uuid;
  an_project_id : uuid;
  an_contributor_id : uuid;
  an_contribution_policy_version_id : uuid;
}.

Record CompleteAwardSetRequest := {
  aw_disposition : Disposition;
  aw_compensation_mode : CompensationMode;
  aw_contribution : AwardContributionFacts;
  aw_definitions : list AwardDefinitionFacts;
  aw_correlation_id : uuid;
}.

(** The definitions a mode admits: none, or one or two of different instruments *)
Definition definitions_complete (mode : CompensationMode) (ds : list AwardDefinitionFacts) : bool :=
  (bool_decide (mode = UNPAID) && (length ds =? 0)%nat)
  || (bool_decide (mode = COMPENSATED) && (1 <=? length ds)%nat && (length ds <=? 2)%nat
      && bool_decide (NoDup (map df_instrument_type ds))).

Definition award_request_valid (r : CompleteAwardSetRequest) : bool :=
  forallb definition_valid (aw_definitions r) && (length (aw_definitions r) <=? 2)%nat
  && definitions_complete (aw_compensation_mode r) (aw_definitions r)
  && forallb (λ d, (df_project_id d =? an_project_id (aw_contribution r))
                   && (df_contribution_policy_version_id d
                       =? an_contribution_policy_version_id (aw_contribution r)))
       (aw_definitions r).

(** A row of [compensation_awards]; [CompensationAwardFacts] has the same fields. *)
Record CompensationAward := {
  wd_id : uuid;
  wd_project_id : uuid;
  wd_contribution_record_id : uuid;
  wd_contributor_id : uuid;
  wd_contribution_policy_version_id : uuid;
  wd_award_definition_id : uuid;
  wd_adapter_binding_id : uuid;
  wd_instrument_type : CompensationInstrumentType;
  wd_unit_code : str;
  wd_quantity : Decimal;
  wd_created_at : instant;
  wd_correlation_id : uuid;
}.

#[export] Instance award_eq_dec : EqDecision CompensationAward.
Proof. solve_decision. Defined.

(** The validators of [CompensationAwardFacts] *)
Definition award_facts_valid (a : CompensationAward) : bool :=
  (1 <=? len (wd_unit_code a)) && (len (wd_unit_code a) <=? 32) && (0 <? dc_units (wd_quantity a)).

(** The CHECK constraints of a row *)
Definition award_checks (a : CompensationAward) : bool :=
  let q := wd_quantity a in
  uuid7_shape (wd_id a) && (0 <? dc_units q) && (dc_units q <? 10 ^ 20 * 10 ^ dc_scale q)
  && (0 <=? dc_scale q) && (dc_scale q <=? 18)
  && (negb (bool_decide (wd_instrument_type a = PROJECT_POINTS)) || (dc_scale q =? 0)).

Inductive AwardExn := CompensationAwardConflict | AwardValueError | AwardDatabaseError.

(** ** The table *)

Abbreviation Awards := (gmap Z CompensationAward).

(** The primary key and [UNIQUE (contribution_record_id, instrument_type)] *)
Definition award_conflicts (t : Awards) (a : CompensationAward) : bool :=
  bool_decide (is_Some (t !! wd_id a))
  || existsb (λ kv, (wd_contribution_record_id kv.2 =? wd_contribution_record_id a)
                    && bool_decide (wd_instrument_type kv.2 = wd_instrument_type a)) (map_to_list t).

Definition insert_award (t : Awards) (a : CompensationAward) : result AwardExn Awards :=
  _ ← ensure (award_checks a && negb (award_conflicts t a)) AwardDatabaseError;
  Ok (<[wd_id a := a]> t).

Fixpoint insert_awards (l : list CompensationAward) (t : Awards) : result AwardExn Awards :=
  match l with
  | [] => Ok t
  | a :: l' => t ← insert_award t a; insert_awards l' t
  end.

(** ** The participant *)

(** What a call takes from outside: whether the session is in its root transaction, the identity
    and the time stamp of each new row, and the triggers. *)
Record AwardInputs := {
  wi_in_transaction : bool;
  wi_in_nested_transaction : bool;
  wi_new : nat → uuid * instant;
  wi_admits : Awards → Awards → bool;
}.

Definition new_award (i : AwardInputs) (r : CompleteAwardSetRequest) (k : nat)
    (d : AwardDefinitionFacts) : CompensationAward :=
  {| wd_id := (wi_new i k).1; wd_project_id := an_project_id (aw_contribution r);
     wd_contribution_record_id := an_id (aw_contribution r);
     wd_contributor_id := an_contributor_id (aw_contribution r);
     wd_contribution_policy_version_id := an_contribution_policy_version_id (aw_contribution r);
     wd_award_definition_id := df_id d; wd_adapter_binding_id := df_adapter_binding_id d;
     wd_instrument_type := df_instrument_type d; wd_unit_code := df_unit_code d;
     wd_quantity := df_quantity d; wd_created_at := (wi_new i k).2;
     wd_correlation_id := aw_correlation_id r |}.

Definition new_awards (i : AwardInputs) (r : CompleteAwardSetRequest) : list CompensationAward :=
  imap (new_award i r) (aw_definitions r).

(** [select ... where contribution_record_id = ... order by instrument_type] *)
Definition stored_awards (t : Awards) (contribution : uuid) : list CompensationAward :=
  let rows := List.filter (λ a, wd_contribution_record_id a =? contribution)
                (map snd (map_to_list t)) in
  List.filter (λ a, bool_decide (wd_instrument_type a = MONEY)) rows
  ++ List.filter (λ a, bool_decide (wd_instrument_type a = PROJECT_POINTS)) rows.

Definition _load (r : CompleteAwardSetRequest) (t : Awards) : result AwardExn (list CompensationAward) :=
  let awards := stored_awards t (an_id (aw_contribution r)) in
  _ ← ensure (forallb award_facts_valid awards) CompensationAwardConflict;
  Ok awards.

Definition definition_for (ds : list AwardDefinitionFacts) (t : CompensationInstrumentType)
    : option AwardDefinitionFacts :=
  List.find (λ d, bool_decide (df_instrument_type d = t)) ds.

Definition award_exact (r : CompleteAwardSetRequest) (a : CompensationAward) (d : AwardDefinitionFacts)
    : bool :=
  (wd_project_id a =? an_project_id (aw_contribution r))
  && (wd_contribution_record_id a =? an_id (aw_contribution r))
  && (wd_contributor_id a =? an_contributor_id (aw_contribution r))
  && (wd_contribution_policy_version_id a =? an_contribution_policy_version_id (aw_contribution r))
  && (wd_award_definition_id a =? df_id d) && (wd_adapter_binding_id a =? df_adapter_binding_id d)
  && str_eqb (wd_unit_code a) (df_unit_code d) && dec_eqb (wd_quantity a) (df_quantity d)
  && (wd_correlation_id a =? aw_correlation_id r).

(** The definitions have different instruments, so the dict has one entry for each. *)
Definition _require_exact_complete_set (r : CompleteAwardSetRequest) (awards : list CompensationAward)
    : result AwardExn unit :=
  _ ← ensure (length awards =? length (aw_definitions r))%nat CompensationAwardConflict;
  ensure (forallb (λ a, match definition_for (aw_definitions r) (wd_instrument_type a) with
                        | Some d => award_exact r a d
                        | None => false
                        end) awards) CompensationAwardConflict.

(** The validator of [CompleteAwardSetResult] *)
Definition award_result (awards : list CompensationAward) : result AwardExn (list CompensationAward) :=
  _ ← ensure ((length awards <=? 2)%nat && bool_decide (NoDup (map wd_instrument_type awards)))
        AwardValueError;
  Ok awards.

Definition complete_award_set (i : AwardInputs) (r : CompleteAwardSetRequest) (t : Awards)
    : result AwardExn (list CompensationAward * Awards) :=
  _ ← ensure (award_request_valid r) CompensationAwardConflict;
  _ ← ensure (wi_in_transaction i && negb (wi_in_nested_transaction i)) CompensationAwardConflict;
  t' ← (if bool_decide (aw_disposition r = NEW) then
          t' ← insert_awards (new_awards i r) t;
          _ ← ensure (wi_admits i t t') AwardDatabaseError;
          Ok t'
        else Ok t);
  awards ← _load r t';
  _ ← _require_exact_complete_set r awards;
  awards ← award_result awards;
  Ok (awards, t').

(** ** The table after an insert *)

Definition of_contribution (c : uuid) (t : Awards) : list CompensationAward :=
  List.filter (λ a, wd_contribution_record_id a =? c) (map snd (map_to_list t)).

Lemma stored_awards_perm t c : stored_awards t c ≡ₚ of_contribution c t.
Proof.
  unfold stored_awards. fold (of_contribution c t). generalize (of_contribution c t). intros l.
  induction l as [|a l IH]; [done|]. cbn [List.filter].
  destruct (wd_instrument_type a).
  - change (bool_decide (MONEY = MONEY)) with true. change (bool_decide (MONEY = PROJECT_POINTS)) with false.
    by constructor.
  - change (bool_decide (PROJECT_POINTS = PROJECT_POINTS)) with true.
    change (bool_decide (PROJECT_POINTS = MONEY)) with false.
    rewrite <- Permutation_middle. by constructor.
Qed.

Lemma of_contribution_elem c t a :
  a ∈ of_contribution c t ↔ wd_contribution_record_id a = c ∧ ∃ k, t !! k = Some a.
Proof.
  unfold of_contribution. rewrite list_elem_of_In, filter_In, <- list_elem_of_In, list_elem_of_fmap, Z.eqb_eq.
  split.
  - intros [([k b] & -> & H%elem_of_map_to_list) E]. split; [done|]. by exists k.
  - intros [E [k H]]. split; [|done]. exists (k, a). split; [done|]. by apply elem_of_map_to_list.
Qed.

Lemma stored_awards_elem c t a :
  a ∈ stored_awards t c ↔ wd_contribution_record_id a = c ∧ ∃ k, t !! k = Some a.
Proof. by rewrite stored_awards_perm, of_contribution_elem. Qed.

Lemma of_contribution_insert c t a :
  t !! wd_id a = None →
  of_contribution c (<[wd_id a := a]> t) ≡ₚ
  (if wd_contribution_record_id a =? c then [a] else []) ++ of_contribution c t.
Proof.
  intros H. unfold of_contribution. rewrite (map_to_list_insert _ _ _ H). cbn. by destruct (_ =? c).
Qed.

Lemma insert_award_Ok t a t' :
  insert_award t a = Ok t' →
  t' = <[wd_id a := a]> t ∧ t !! wd_id a = None ∧ award_checks a = true ∧
  ∀ k b, t !! k = Some b → wd_contribution_record_id b = wd_contribution_record_id a →
    wd_instrument_type b ≠ wd_instrument_type a.
Proof.
  unfold insert_award. intros [H Ht]%ensure_bind_Ok. apply Ok_inj in Ht as <-.
  apply andb_prop in H as [Hc H%negb_true_iff]. unfold award_conflicts in H.
  apply orb_false_iff in H as [H1%bool_decide_eq_false_1 H2]. split_and!; [done| |done|].
  - by apply eq_None_not_Some.
  - intros k b Hb E1 E2. apply not_true_iff_false in H2. apply H2, existsb_exists. exists (k, b).
    split; [by apply list_elem_of_In, elem_of_map_to_list|]. cbn. rewrite E1, Z.eqb_refl. cbn.
    by apply bool_decide_eq_true_2.
Qed.

(** Keys are identities, rows satisfy their CHECKs, and a contribution has at most one award of
    each instrument. *)
Record awards_ok (t : Awards) : Prop := {
  wo_keys k a : t !! k = Some a → wd_id a = k;
  wo_checks k a : t !! k = Some a → award_checks a = true;
  wo_unique j k a b : t !! j = Some a → t !! k = Some b →
    wd_contribution_record_id a = wd_contribution_record_id b →
    wd_instrument_type a = wd_instrument_type b → j = k;
}.

Lemma insert_award_ok t a t' : awards_ok t → insert_award t a = Ok t' → awards_ok t'.
Proof.
  intros [Hk Hc Hu] (-> & Hn & Ha & Hf)%insert_award_Ok. split.
  - intros k b [[<- <-]|[_ H]]%lookup_insert_Some; [done|by apply Hk].
  - intros k b [[<- <-]|[_ H]]%lookup_insert_Some; [done|by eapply Hc].
  - intros j k b d [[<- <-]|[Hj Hb]]%lookup_insert_Some [[<- <-]|[Hk' Hd]]%lookup_insert_Some E1 E2;
      [done| | |by eapply Hu].
    + by destruct (Hf k d Hd).
    + by destruct (Hf j b Hb).
Qed.

(** What inserting a list of rows does *)
Lemma insert_awards_Ok l t t' :
  awards_ok t → insert_awards l t = Ok t' →
  awards_ok t' ∧ (∀ c, of_contribution c t' ≡ₚ
                    List.filter (λ a, wd_contribution_record_id a =? c) l ++ of_contribution c t) ∧
  (∀ k a, t !! k = Some a → t' !! k = Some a) ∧
  (∀ k a, t' !! k = Some a → t !! k = Some a ∨ a ∈ l) ∧ (∀ a, a ∈ l → t' !! wd_id a = Some a).
Proof.
  revert t. induction l as [|a l IH]; intros t Hok H; cbn in H.
  { apply Ok_inj in H as <-. split_and!; [done|done|done|by left|by intros a ?%not_elem_of_nil]. }
  apply result_bind_Ok in H as (t1 & H1 & H). pose proof (insert_award_ok _ _ _ Hok H1) as Hok1.
  apply insert_award_Ok in H1 as (-> & Hn & _ & _).
  destruct (IH _ Hok1 H) as (Hok' & Hp & Hmono & Hback & Hin). split_and!; [done| | | |].
  - intros c. rewrite Hp, of_contribution_insert by done. cbn [List.filter].
    destruct (_ =? c); cbn; [by rewrite Permutation_middle|done].
  - intros k b Hb. apply Hmono. rewrite lookup_insert_ne; [done|]. congruence.
  - intros k b Hb. apply Hback in Hb as [[[_ <-]|[_ Hb]]%lookup_insert_Some|Hb];
      [by right; left|by left|by right; right].
  - intros b [->|Hb]%elem_of_cons; [|by apply Hin]. apply Hmono. apply lookup_insert_eq.
Qed.

(** ** Complete sets *)

Lemma new_awards_elem i r a :
  a ∈ new_awards i r → ∃ k d, aw_definitions r !! k = Some d ∧ a = new_award i r k d.
Proof. unfold new_awards. intros (k & d & -> & H)%elem_of_lookup_imap_1. by exists k, d. Qed.

Lemma new_awards_filter i r :
  List.filter (λ a, wd_contribution_record_id a =? an_id (aw_contribution r)) (new_awards i r)
  = new_awards i r.
Proof.
  apply forallb_filter_id, forallb_forall. intros a (k & d & _ & ->)%list_elem_of_In%new_awards_elem.
  apply Z.eqb_refl.
Qed.

Lemma new_awards_other i r c :
  c ≠ an_id (aw_contribution r) →
  List.filter (λ a, wd_contribution_record_id a =? c) (new_awards i r) = [].
Proof.
  intros Hc. apply elem_of_nil_inv. intros a [Ha E%Z.eqb_eq]%list_elem_of_In%filter_In.
  apply list_elem_of_In, new_awards_elem in Ha as (k & d & _ & ->). by cbn in E.
Qed.

(** [l] is the complete award set of a request: one award per definition, with its facts. *)
Definition exact_set (r : CompleteAwardSetRequest) (l : list CompensationAward) : Prop :=
  length l = length (aw_definitions r) ∧ NoDup (map wd_instrument_type l) ∧
  ∀ a, a ∈ l → ∃ d, d ∈ aw_definitions r ∧ df_instrument_type d = wd_instrument_type a ∧
    award_exact r a d = true.

Lemma definition_for_elem ds t d :
  definition_for ds t = Some d → d ∈ ds ∧ df_instrument_type d = t.
Proof.
  intros [H1 H2%bool_decide_eq_true_1]%List.find_some. split; [by apply list_elem_of_In|done].
Qed.

Lemma complete_award_set_Ok i r t l t' :
  complete_award_set i r t = Ok (l, t') →
  award_request_valid r = true ∧ l = stored_awards t' (an_id (aw_contribution r)) ∧ exact_set r l ∧
  forallb award_facts_valid l = true ∧
  match aw_disposition r with NEW => insert_awards (new_awards i r) t = Ok t' | REPLAY => t' = t end.
Proof.
  intros H. unfold complete_award_set in H. apply ensure_bind_Ok in H as [Hv H].
  apply ensure_bind_Ok in H as [_ H]. apply result_bind_Ok in H as (t1 & Ht & H).
  apply result_bind_Ok in H as (aws & Hl & H). apply result_bind_Ok in H as ([] & He & H).
  apply result_bind_Ok in H as (aws' & Hr & H). apply Ok_inj in H as [= <- <-].
  unfold _load in Hl. cbv zeta in Hl. apply ensure_bind_Ok in Hl as [Hf Hl]. apply Ok_inj in Hl as <-.
  unfold award_result in Hr. apply ensure_bind_Ok in Hr as [Hn Hr]. apply Ok_inj in Hr as <-.
  apply andb_prop in Hn as [_ Hn%bool_decide_eq_true_1].
  unfold _require_exact_complete_set in He. apply ensure_bind_Ok in He as [Hlen%Nat.eqb_eq He].
  split_and!; [done|done| |done|].
  - split_and!; [done..|]. intros a Ha. unfold ensure in He. destruct (forallb _ _) eqn:E in He; [|done].
    rewrite forallb_forall in E. apply list_elem_of_In, E in Ha. clear E.
    destruct (definition_for _ _) as [d|] eqn:Ed; [|done]. apply definition_for_elem in Ed as [Hd Ht'].
    by exists d.
  - destruct (aw_disposition r) eqn:Ed; cbn in Ht.
    + apply result_bind_Ok in Ht as (t2 & Hi & Ht). apply ensure_bind_Ok in Ht as [_ Ht].
      by apply Ok_inj in Ht as <-.
    + by apply Ok_inj in Ht.
Qed.

Lemma award_set_facts i r t l t' :
  awards_ok t → complete_award_set i r t = Ok (l, t') →
  awards_ok t' ∧ l = stored_awards t' (an_id (aw_contribution r)) ∧ exact_set r l ∧
  (∀ c, c ≠ an_id (aw_contribution r) → stored_awards t' c ≡ₚ stored_awards t c) ∧
  match aw_disposition r with
  | NEW => stored_awards t (an_id (aw_contribution r)) = [] ∧ l ≡ₚ new_awards i r
  | REPLAY => t' = t
  end.
Proof.
  intros Hok (Hv & Hl & Hex & _ & Hd)%complete_award_set_Ok. destruct (aw_disposition r) eqn:E.
  2:{ subst t'. split_and!; [done|done|done|done|done]. }
  destruct (insert_awards_Ok _ _ _ Hok Hd) as (Hok' & Hp & _).
  specialize (Hp (an_id (aw_contribution r))) as Hp1. rewrite new_awards_filter, <- stored_awards_perm, <- Hl in Hp1.
  assert (of_contribution (an_id (aw_contribution r)) t = []) as Hnone.
  { apply Permutation_length in Hp1 as Hlen. destruct Hex as [Hlen' _]. unfold new_awards in Hlen.
    rewrite length_app, length_imap in Hlen. apply nil_length_inv. lia. }
  rewrite Hnone, app_nil_r in Hp1. split_and!; [done|done|done| | |done].
  - intros c Hc. by rewrite !stored_awards_perm, Hp, new_awards_other by done.
  - apply Permutation_nil_r. by rewrite stored_awards_perm, Hnone.
Qed.

(** The same request as a replay *)
Definition as_replay (r : CompleteAwardSetRequest) : CompleteAwardSetRequest :=
  {| aw_disposition := REPLAY; aw_compensation_mode := aw_compensation_mode r;
     aw_contribution := aw_contribution r; aw_definitions := aw_definitions r;
     aw_correlation_id := aw_correlation_id r |}.

(** Once complete, a set is returned again by every replay. *)
Lemma award_set_replays i j r t l t' :
  complete_award_set i r t = Ok (l, t') → wi_in_transaction j = true → wi_in_nested_transaction j = false →
  complete_award_set j (as_replay r) t' = Ok (l, t').
Proof.
  intros H Ht Hn. unfold complete_award_set in H |- *. apply ensure_bind_Ok in H as [Hv H].
  apply ensure_bind_Ok in H as [_ H]. apply result_bind_Ok in H as (t1 & _ & H).
  apply result_bind_Ok in H as (aws & Hl & H). apply result_bind_Ok in H as ([] & He & H).
  apply result_bind_Ok in H as (aws' & Hr & H). apply Ok_inj in H as [= <- <-].
  change (award_request_valid (as_replay r)) with (award_request_valid r). rewrite Hv, Ht, Hn. run.
  change (_load (as_replay r)) with (_load r). rewrite bool_decide_eq_false_2 by done. run. rewrite Hl, bind_Ok.
  change (_require_exact_complete_set (as_replay r)) with (_require_exact_complete_set r).
  by rewrite He, bind_Ok, Hr.
Qed.

(** Awards are complete and exact.  When the award owner succeeds on a well-formed table, the
    contribution has exactly one stored award for each definition of the request, which carries
    the definition's unit, quantity and adapter and the contribution's lineage, and these are
    what is returned.  A new set is only written where no award of the contribution was stored,
    and changes no other row; a replay writes nothing. *)
Theorem award_set_exact i r t l t' :
  awards_ok t → complete_award_set i r t = Ok (l, t') →
  awards_ok t' ∧ l = stored_awards t' (an_id (aw_contribution r)) ∧ exact_set r l ∧
  (∀ c, c ≠ an_id (aw_contribution r) → stored_awards t' c ≡ₚ stored_awards t c) ∧
  match aw_disposition r with
  | NEW => stored_awards t (an_id (aw_contribution r)) = [] ∧ l ≡ₚ new_awards i r
  | REPLAY => t' = t
  end.
Proof. apply award_set_facts. Qed.
