(* ===== verification/Contributions.v ===== *)
(** * Contribution records (modules/contributions/api/participation.py, contributions/records)

    The participant that recognises accepted work: under the lifecycle fence it reads the frozen
    rule of the contribution policy, inserts (or finds) the contribution of one acceptance, and
    asks the owner of awards for the complete award set.  The award owner is an interface, the
    class [AwardPort]: what is proved of the participant holds for any owner, because it checks
    what the owner returns; [Awards] gives the real one.  Tables are finite maps by identity. *)

From S2P Require Import Prelude Text Digest Json Instant Lifecycle Awards.

(** ** Values *)

Record SubmitterParticipationRequest := {
  sp_acceptance_disposition : Disposition;
  sp_project_id : uuid;
  sp_task_id : uuid;
  sp_submission_id : uuid;
  sp_final_acceptance_id : uuid;
  sp_task_assignment_id : uuid;
  sp_contributor_id : uuid;
  sp_contribution_policy_version_id : uuid;
  sp_artifact_hash : str;
  sp_correlation_id : uuid;
  sp_expected_generation : Z;
}.

Definition participation_request_valid (r : SubmitterParticipationRequest) : bool :=
  digest_pattern (sp_artifact_hash r) && (0 <=? sp_expected_generation r)
  && (sp_expected_generation r <=? max_generation).

Record SubmitterContributionFacts := {
  sc_id : uuid;
  sc_project_id : uuid;
  sc_task_id : uuid;
  sc_submission_id : uuid;
  sc_contributor_id : uuid;
  sc_source_final_acceptance_id : uuid;
  sc_source_task_assignment_id : uuid;
  sc_artifact_hash : str;
  sc_contribution_policy_version_id : uuid;
  sc_created_at : instant;
}.

Record SubmitterParticipationResult := {
  pr_contribution : SubmitterContributionFacts;
  pr_awards : list CompensationAward;
}.

Inductive ContributionExn :=
| ContributionParticipationUnavailable
| ContributionParticipationConflict
| ContributionLifecycle (e : LifecycleExn)
| ContributionValueError
| ContributionMultipleResults     (** [MultipleResultsFound] of [one_or_none] *)
| ContributionDatabaseError.

(** ** Rows *)

Inductive ContributionType := accepted_submission | completed_review.
Inductive PolicyStatus := draft | published | retired.

#[export] Instance contribution_type_eq_dec : EqDecision ContributionType.
Proof. solve_decision. Defined.
#[export] Instance policy_status_eq_dec : EqDecision PolicyStatus.
Proof. solve_decision. Defined.

Record ContributionRecord := {
  cb_id : uuid;
  cb_project_id : uuid;
  cb_task_id : uuid;
  cb_submission_id : uuid;
  cb_contribution_type : ContributionType;
  cb_contributor_id : uuid;
  cb_source_review_id : option uuid;
  cb_source_review_lease_id : option uuid;
  cb_source_final_acceptance_id : option uuid;
  cb_source_task_assignment_id : option uuid;
  cb_artifact_hash : str;
  cb_contribution_policy_version_id : uuid;
  cb_created_at : instant;
}.

#[export] Instance contribution_eq_dec : EqDecision ContributionRecord.
Proof. solve_decision. Defined.

(** The CHECK constraints of a row *)
Definition contribution_checks (c : ContributionRecord) : bool :=
  uuid7_shape (cb_id c) && digest_pattern (cb_artifact_hash c)
  && match cb_contribution_type c, cb_source_review_id c, cb_source_review_lease_id c,
           cb_source_final_acceptance_id c, cb_source_task_assignment_id c with
     | completed_review, Some _, Some _, None, None => true
     | accepted_submission, None, None, Some _, Some _ => true
     | _, _, _, _, _ => false
     end.

Record ContributionPolicyVersion := {
  pv_id : uuid;
  pv_contribution_policy_id : uuid;
  pv_project_id : uuid;
  pv_version_number : Z;
  pv_status : PolicyStatus;
  pv_created_by : uuid;
  pv_created_at : instant;
  pv_published_by : option uuid;
  pv_published_at : option instant;
  pv_retired_by : option uuid;
  pv_retired_at : option instant;
  pv_last_updated_by : option uuid;
  pv_last_updated_at : option instant;
  pv_last_transition_operation_id : option uuid;
}.

Record ContributionRule := {
  ru_id : uuid;
  ru_contribution_policy_version_id : uuid;
  ru_project_id : uuid;
  ru_contribution_type : ContributionType;
  ru_compensation_mode : CompensationMode;
}.

(** The row of a definition: its facts, its rule and its type *)
Record ContributionAwardDefinition := {
  dr_facts : AwardDefinitionFacts;
  dr_contribution_rule_id : uuid;
  dr_contribution_type : ContributionType;
}.

(** The policy tables, which the participant only reads *)
Record PolicyTables := {
  pt_versions : list ContributionPolicyVersion;
  pt_rules : list ContributionRule;
  pt_definitions : list ContributionAwardDefinition;
}.

Abbreviation Contributions := (gmap Z ContributionRecord).

(** ** The frozen rule *)

Record FrozenSubmitterRule := {
  fr_compensation_mode : CompensationMode;
  fr_definitions : list AwardDefinitionFacts;
}.

(** The join of rules and versions *)
Definition matching_rules (t : PolicyTables) (project version : uuid) : list ContributionRule :=
  List.filter (λ r, (ru_project_id r =? project)
                    && bool_decide (ru_contribution_type r = accepted_submission)
                    && (ru_contribution_policy_version_id r =? version)
                    && existsb (λ v, (pv_id v =? version) && (pv_project_id v =? project)
                                     && negb (bool_decide (pv_status v = draft))) (pt_versions t))
    (pt_rules t).

Definition matching_definitions (t : PolicyTables) (rule project version : uuid)
    : list AwardDefinitionFacts :=
  let rows := List.filter (λ d, (dr_contribution_rule_id d =? rule)
                    && (df_project_id (dr_facts d) =? project)
                    && (df_contribution_policy_version_id (dr_facts d) =? version)
                    && bool_decide (dr_contribution_type d = accepted_submission)) (pt_definitions t) in
  let by_type i := List.filter (λ d, bool_decide (df_instrument_type d = i)) (map dr_facts rows) in
  by_type MONEY ++ by_type PROJECT_POINTS.

Definition get_frozen_rule (t : PolicyTables) (project version : uuid)
    : result ContributionExn FrozenSubmitterRule :=
  rule ← match matching_rules t project version with
         | [] => Raise ContributionParticipationUnavailable
         | [r] => Ok r
         | _ => Raise ContributionMultipleResults
         end;
  let definitions := matching_definitions t (ru_id rule) project version in
  _ ← ensure (forallb definition_valid definitions) ContributionParticipationUnavailable;
  _ ← ensure (definitions_complete (ru_compensation_mode rule) definitions)
        ContributionParticipationUnavailable;
  Ok {| fr_compensation_mode := ru_compensation_mode rule; fr_definitions := definitions |}.

(** What acceptance relies on from whoever changes policies: a rule that is frozen stays as it
    is. *)
Definition terms_kept (t t' : PolicyTables) : Prop :=
  ∀ project version rule, get_frozen_rule t project version = Ok rule →
    get_frozen_rule t' project version = Ok rule.

Lemma terms_kept_refl t : terms_kept t t.
Proof. by intros p v r. Qed.

(** ** The contribution row *)

(** What a call takes from outside: the identity and the time stamp of a new row and the
    triggers of the schema. *)
Record ContributionInputs := {
  ci_new_id : uuid;
  ci_created_at : instant;
  ci_admits : Contributions → Contributions → bool;
}.

Definition new_contribution (i : ContributionInputs) (r : SubmitterParticipationRequest)
    : ContributionRecord :=
  {| cb_id := ci_new_id i; cb_project_id := sp_project_id r; cb_task_id := sp_task_id r;
     cb_submission_id := sp_submission_id r; cb_contribution_type := accepted_submission;
     cb_contributor_id := sp_contributor_id r; cb_source_review_id := None;
     cb_source_review_lease_id := None;
     cb_source_final_acceptance_id := Some (sp_final_acceptance_id r);
     cb_source_task_assignment_id := Some (sp_task_assignment_id r);
     cb_artifact_hash := sp_artifact_hash r;
     cb_contribution_policy_version_id := sp_contribution_policy_version_id r;
     cb_created_at := ci_created_at i |}.

Definition from_acceptance (acceptance : uuid) (c : ContributionRecord) : bool :=
  bool_decide (cb_source_final_acceptance_id c = Some acceptance).

(** [_select_exact_source] *)
Definition _select_exact_source (r : SubmitterParticipationRequest) (t : Contributions)
    : option ContributionRecord :=
  List.find (λ c, from_acceptance (sp_final_acceptance_id r) c && (cb_project_id c =? sp_project_id r))
    (map snd (map_to_list t)).

Definition _matches (c : ContributionRecord) (r : SubmitterParticipationRequest) : bool :=
  (cb_project_id c =? sp_project_id r) && (cb_task_id c =? sp_task_id r)
  && (cb_submission_id c =? sp_submission_id r)
  && bool_decide (cb_contribution_type c = accepted_submission)
  && (cb_contributor_id c =? sp_contributor_id r)
  && bool_decide (cb_source_review_id c = None) && bool_decide (cb_source_review_lease_id c = None)
  && bool_decide (cb_source_final_acceptance_id c = Some (sp_final_acceptance_id r))
  && bool_decide (cb_source_task_assignment_id c = Some (sp_task_assignment_id r))
  && str_eqb (cb_artifact_hash c) (sp_artifact_hash r)
  && (cb_contribution_policy_version_id c =? sp_contribution_policy_version_id r).

(** [_facts], with the validators of [SubmitterContributionFacts] *)
Definition _facts (c : ContributionRecord) : result ContributionExn SubmitterContributionFacts :=
  match cb_source_final_acceptance_id c, cb_source_task_assignment_id c with
  | Some acceptance, Some assignment =>
      _ ← ensure (digest_pattern (cb_artifact_hash c)) ContributionParticipationConflict;
      Ok {| sc_id := cb_id c; sc_project_id := cb_project_id c; sc_task_id := cb_task_id c;
            sc_submission_id := cb_submission_id c; sc_contributor_id := cb_contributor_id c;
            sc_source_final_acceptance_id := acceptance;
            sc_source_task_assignment_id := assignment; sc_artifact_hash := cb_artifact_hash c;
            sc_contribution_policy_version_id := cb_contribution_policy_version_id c;
            sc_created_at := cb_created_at c |}
  | _, _ => Raise ContributionParticipationConflict
  end.

(** [insert ... on conflict (source_final_acceptance_id) do nothing]; any other violation raises *)
Definition insert_contribution (i : ContributionInputs) (c : ContributionRecord) (t : Contributions)
    : result ContributionExn (option Contributions) :=
  _ ← ensure (contribution_checks c) ContributionDatabaseError;
  if existsb (λ kv, bool_decide (cb_source_final_acceptance_id kv.2 = cb_source_final_acceptance_id c))
       (map_to_list t) then Ok None
  else
    _ ← ensure (negb (bool_decide (is_Some (t !! cb_id c))) && ci_admits i t (<[cb_id c := c]> t))
          ContributionDatabaseError;
    Ok (Some (<[cb_id c := c]> t)).

Definition apply_acceptance_disposition (i : ContributionInputs) (r : SubmitterParticipationRequest)
    (t : Contributions) : result ContributionExn (SubmitterContributionFacts * Contributions) :=
  match sp_acceptance_disposition r with
  | REPLAY =>
      winner ← oget (_select_exact_source r t) ContributionParticipationConflict;
      _ ← ensure (_matches winner r) ContributionParticipationConflict;
      facts ← _facts winner;
      Ok (facts, t)
  | NEW =>
      inserted ← insert_contribution i (new_contribution i r) t;
      t' ← oget inserted ContributionParticipationConflict;
      winner ← oget (t' !! ci_new_id i) ContributionParticipationConflict;
      _ ← ensure ((cb_project_id winner =? sp_project_id r) && _matches winner r)
            ContributionParticipationConflict;
      facts ← _facts winner;
      Ok (facts, t')
  end.

(** ** The participant *)

(** [CompleteAwardSetPort]: what the contribution owner asks of the award owner *)
Class AwardPort (S : Type) :=
  award_port : CompleteAwardSetRequest → S → result AwardExn (list CompensationAward * S).

Definition _award_matches (a : CompensationAward) (d : AwardDefinitionFacts)
    (c : SubmitterContributionFacts) (correlation_id : uuid) : bool :=
  (wd_project_id a =? sc_project_id c) && (wd_contribution_record_id a =? sc_id c)
  && (wd_contributor_id a =? sc_contributor_id c)
  && (wd_contribution_policy_version_id a =? sc_contribution_policy_version_id c)
  && (wd_award_definition_id a =? df_id d) && (wd_adapter_binding_id a =? df_adapter_binding_id d)
  && bool_decide (wd_instrument_type a = df_instrument_type d)
  && str_eqb (wd_unit_code a) (df_unit_code d) && dec_eqb (wd_quantity a) (df_quantity d)
  && (wd_correlation_id a =? correlation_id).

Definition _require_exact_awards (r : SubmitterParticipationRequest) (c : SubmitterContributionFacts)
    (rule : FrozenSubmitterRule) (awards : list CompensationAward) : result ContributionExn unit :=
  _ ← ensure (length awards =? length (fr_definitions rule))%nat ContributionParticipationConflict;
  ensure (forallb (λ a, match definition_for (fr_definitions rule) (wd_instrument_type a) with
                        | Some d => _award_matches a d c (sp_correlation_id r)
                        | None => false
                        end) awards) ContributionParticipationConflict.

Definition award_request (r : SubmitterParticipationRequest) (c : SubmitterContributionFacts)
    (rule : FrozenSubmitterRule) : CompleteAwardSetRequest :=
  {| aw_disposition := sp_acceptance_disposition r; aw_compensation_mode := fr_compensation_mode rule;
     aw_contribution := {| an_id := sc_id c; an_project_id := sc_project_id c;
                           an_contributor_id := sc_contributor_id c;
                           an_contribution_policy_version_id := sc_contribution_policy_version_id c |};
     aw_definitions := fr_definitions rule; aw_correlation_id := sp_correlation_id r |}.

(** The call of the port inside its [try], with the validation of what it returns *)
Definition ask_awards {S} `{AwardPort S} (r : CompleteAwardSetRequest) (s : S)
    : result ContributionExn (list CompensationAward * S) :=
  match award_port r s with
  | Ok (awards, s') =>
      match award_result awards with
      | Ok awards =>
          if forallb award_facts_valid awards then Ok (awards, s')
          else Raise ContributionParticipationConflict
      | Raise _ => Raise ContributionParticipationConflict
      end
  | Raise AwardDatabaseError => Raise ContributionDatabaseError
  | Raise _ => Raise ContributionParticipationConflict
  end.

(** [acquire] is the injected fence. *)
Definition participate_submitter {S} `{AwardPort S} (i : ContributionInputs)
    (acquire : Z → result LifecycleExn JointLifecycleControlFacts) (policies : PolicyTables)
    (checked : SubmitterParticipationRequest) (t : Contributions) (s : S)
    : result ContributionExn (SubmitterParticipationResult * Contributions * S) :=
  _ ← ensure (participation_request_valid checked) ContributionParticipationUnavailable;
  lifecycle ← match acquire (sp_expected_generation checked) with
              | Ok f => Ok f
              | Raise e => Raise (ContributionLifecycle e)
              end;
  _ ← ensure (negb (bool_decide (sp_acceptance_disposition checked = NEW)
                    && negb (cf_new_effects_enabled lifecycle))) ContributionParticipationUnavailable;
  rule ← get_frozen_rule policies (sp_project_id checked) (sp_contribution_policy_version_id checked);
  ct ← apply_acceptance_disposition i checked t;
  let '(contribution, t') := ct in
  let request := award_request checked contribution rule in
  _ ← ensure (award_request_valid request) ContributionValueError;
  aws ← ask_awards request s;
  let '(awards, s') := aws in
  _ ← _require_exact_awards checked contribution rule awards;
  Ok ({| pr_contribution := contribution; pr_awards := awards |}, t', s').

(** The award owner of [Awards] *)
#[export] Instance award_owner (i : AwardInputs) : AwardPort Awards := complete_award_set i.

(** ** What a successful participation guarantees *)

(** Keys are identities, rows satisfy their CHECKs, and an acceptance has at most one
    contribution. *)
Record contributions_ok (t : Contributions) : Prop := {
  co_keys k c : t !! k = Some c → cb_id c = k;
  co_checks k c : t !! k = Some c → contribution_checks c = true;
  co_unique j k c d a : t !! j = Some c → t !! k = Some d →
    cb_source_final_acceptance_id c = Some a → cb_source_final_acceptance_id d = Some a → j = k;
}.

Lemma insert_contribution_Ok i c t t' :
  insert_contribution i c t = Ok (Some t') →
  t' = <[cb_id c := c]> t ∧ t !! cb_id c = None ∧ contribution_checks c = true ∧
  ∀ k d, t !! k = Some d → cb_source_final_acceptance_id d ≠ cb_source_final_acceptance_id c.
Proof.
  unfold insert_contribution. intros [Hc H]%ensure_bind_Ok.
  destruct (existsb _ _) eqn:E; [by apply Ok_inj in H|].
  apply ensure_bind_Ok in H as [[Hn _]%andb_prop H]. apply Ok_inj in H as [= <-].
  apply negb_true_iff, bool_decide_eq_false_1, eq_None_not_Some in Hn. split_and!; [done..|].
  intros k d Hd Hs. apply not_true_iff_false in E. apply E, existsb_exists. exists (k, d).
  split; [by apply list_elem_of_In, elem_of_map_to_list|]. by apply bool_decide_eq_true_2.
Qed.

Lemma insert_contribution_ok i c t t' a :
  contributions_ok t → insert_contribution i c t = Ok (Some t') →
  cb_source_final_acceptance_id c = Some a → contributions_ok t'.
Proof.
  intros [Hk Hc Hu] (-> & Hn & Hcc & Hf)%insert_contribution_Ok Ha. split.
  - intros k d [[<- <-]|[_ H]]%lookup_insert_Some; [done|by apply Hk].
  - intros k d [[<- <-]|[_ H]]%lookup_insert_Some; [done|by eapply Hc].
  - intros j k d e b [[<- <-]|[_ Hd]]%lookup_insert_Some [[<- <-]|[_ He]]%lookup_insert_Some E1 E2;
      [done| | |by eapply Hu].
    + destruct (Hf k e He). congruence.
    + destruct (Hf j d Hd). congruence.
Qed.

(** The stored row a participation stands for *)
Definition contribution_of (r : SubmitterParticipationRequest) (f : SubmitterContributionFacts)
    (c : ContributionRecord) : Prop :=
  _facts c = Ok f ∧ _matches c r = true.

Lemma matches_fields c r :
  _matches c r = true →
  cb_project_id c = sp_project_id r ∧ cb_task_id c = sp_task_id r ∧
  cb_submission_id c = sp_submission_id r ∧ cb_contributor_id c = sp_contributor_id r ∧
  cb_source_final_acceptance_id c = Some (sp_final_acceptance_id r) ∧
  cb_source_task_assignment_id c = Some (sp_task_assignment_id r) ∧
  cb_artifact_hash c = sp_artifact_hash r ∧
  cb_contribution_policy_version_id c = sp_contribution_policy_version_id r.
Proof.
  unfold _matches, str_eqb. rewrite !andb_true_iff, !Z.eqb_eq, !bool_decide_eq_true. tauto.
Qed.

Lemma disposition_Ok i r t f t' :
  contributions_ok t → apply_acceptance_disposition i r t = Ok (f, t') →
  contributions_ok t' ∧ (∃ c, t' !! sc_id f = Some c ∧ contribution_of r f c) ∧
  match sp_acceptance_disposition r with
  | REPLAY => t' = t
  | NEW => t' = <[ci_new_id i := new_contribution i r]> t ∧ t !! ci_new_id i = None ∧ sc_id f = ci_new_id i ∧
           (∀ k d, t !! k = Some d → cb_source_final_acceptance_id d ≠ Some (sp_final_acceptance_id r))
  end.
Proof.
  intros Hok. unfold apply_acceptance_disposition.
  assert (∀ c, _facts c = Ok f → sc_id f = cb_id c) as Hid.
  { intros c. unfold _facts. destruct (cb_source_final_acceptance_id c), (cb_source_task_assignment_id c);
      try done. by intros [_ [= <-]]%ensure_bind_Ok. }
  destruct (sp_acceptance_disposition r) eqn:E.
  - intros (ins & Hi & (t1 & ->%oget_Ok & H)%result_bind_Ok)%result_bind_Ok.
    apply result_bind_Ok in H as (w & Hw%oget_Ok & H). apply ensure_bind_Ok in H as [[_ Hm]%andb_prop H].
    apply result_bind_Ok in H as (f' & Hf & H). apply Ok_inj in H as [= -> ->].
    pose proof (insert_contribution_ok _ _ _ _ _ Hok Hi eq_refl) as Hok'.
    apply insert_contribution_Ok in Hi as (Ht & Hn & _ & Hfresh). cbn in Ht, Hn, Hfresh.
    subst t'. rewrite lookup_insert_eq in Hw. injection Hw as <-.
    assert (sc_id f = ci_new_id i) as Ef by by rewrite (Hid _ Hf).
    split_and!; [done| |done|done|done|done]. exists (new_contribution i r). rewrite Ef, lookup_insert_eq. done.
  - intros (w & Hw%oget_Ok & H)%result_bind_Ok. apply ensure_bind_Ok in H as [Hm H].
    apply result_bind_Ok in H as (f' & Hf & H). apply Ok_inj in H as [= -> ->].
    split_and!; [done| |done]. exists w. split; [|done].
    apply List.find_some in Hw as [Hw _]. apply list_elem_of_In, list_elem_of_fmap in Hw as ([k c] & -> & Hw).
    apply elem_of_map_to_list in Hw. cbn in *. rewrite (Hid _ Hf). by rewrite (co_keys _ Hok _ _ Hw).
Qed.

Section AnyAwardOwner.
Context {S : Type} `{!AwardPort S}.

Lemma ask_awards_Ok r s l s' :
  ask_awards r s = Ok (l, s') →
  award_port r s = Ok (l, s') ∧ NoDup (map wd_instrument_type l) ∧ forallb award_facts_valid l = true.
Proof.
  unfold ask_awards. destruct (award_port r s) as [[l0 s0]|[]]; [|done..].
  unfold award_result. destruct (_ && _) eqn:E; run; [|done].
  destruct (forallb award_facts_valid l0) eqn:Ef; [|done]. intros H. apply Ok_inj in H as [= <- <-].
  apply andb_prop in E as [_ E%bool_decide_eq_true_1]. done.
Qed.

(** What the steps of a successful participation were *)
Lemma participate_Ok i acq pol r t (s : S) res t' s' :
  participate_submitter i acq pol r t s = Ok (res, t', s') →
  ∃ f rule, acq (sp_expected_generation r) = Ok f ∧
    (sp_acceptance_disposition r = NEW → cf_new_effects_enabled f = true) ∧
    get_frozen_rule pol (sp_project_id r) (sp_contribution_policy_version_id r) = Ok rule ∧
    apply_acceptance_disposition i r t = Ok (pr_contribution res, t') ∧
    ask_awards (award_request r (pr_contribution res) rule) s = Ok (pr_awards res, s') ∧
    _require_exact_awards r (pr_contribution res) rule (pr_awards res) = Ok tt.
Proof.
  intros H. unfold participate_submitter in H. apply ensure_bind_Ok in H as [_ H].
  apply result_bind_Ok in H as (f & Ha & H). apply ensure_bind_Ok in H as [Hl H].
  apply result_bind_Ok in H as (rule & Hr & H). apply result_bind_Ok in H as ([c t1] & Hc & H).
  cbv zeta in H. apply ensure_bind_Ok in H as [_ H].
  apply result_bind_Ok in H as ([l s1] & Hw & H). apply result_bind_Ok in H as ([] & He & H).
  apply Ok_inj in H as [= <- <- <-]. exists f, rule.
  destruct (acq _) as [f0|] eqn:Ea; [|done]. apply Ok_inj in Ha as ->. split_and!; try done.
  intros E. rewrite bool_decide_eq_true_2 in Hl by done. apply negb_true_iff in Hl. cbn in Hl.
  by apply negb_false_iff in Hl.
Qed.

(** The awards a participation exposes: one per definition of its rule, with its facts *)
Definition awards_exact (r : SubmitterParticipationRequest) (c : SubmitterContributionFacts)
    (rule : FrozenSubmitterRule) (l : list CompensationAward) : Prop :=
  length l = length (fr_definitions rule) ∧ NoDup (map wd_instrument_type l) ∧
  ∀ a, a ∈ l → ∃ d, d ∈ fr_definitions rule ∧ _award_matches a d c (sp_correlation_id r) = true.

Lemma participation_awards i acq pol r t (s : S) res t' s' :
  participate_submitter i acq pol r t s = Ok (res, t', s') →
  ∃ rule, get_frozen_rule pol (sp_project_id r) (sp_contribution_policy_version_id r) = Ok rule ∧
    awards_exact r (pr_contribution res) rule (pr_awards res).
Proof.
  intros (f & rule & _ & _ & Hr & _ & Hw & He)%participate_Ok.
  exists rule. split; [done|]. apply ask_awards_Ok in Hw as (_ & Hn & _).
  unfold _require_exact_awards in He. apply ensure_bind_Ok in He as [Hlen%Nat.eqb_eq He].
  split_and!; [done..|]. intros a Ha'. unfold ensure in He. destruct (forallb _ _) eqn:E in He; [|done].
  rewrite forallb_forall in E. apply list_elem_of_In, E in Ha'.
  destruct (definition_for _ _) as [d|] eqn:Ed; [|done]. apply definition_for_elem in Ed as [Hd' _]. by exists d.
Qed.

(** C25. Accepted work is recognised once, whoever owns the awards.  For any award owner, a
    successful participation exposes the stored contribution of the acceptance, with every fact
    of the request, and exactly one award per definition of the frozen rule, with that
    definition's facts.  A new participation needs enabled effects, and adds the one
    contribution of an acceptance that had none; a replay adds nothing. *)
Theorem participation_exact i acq pol r t (s : S) res t' s' :
  contributions_ok t → participate_submitter i acq pol r t s = Ok (res, t', s') →
  contributions_ok t' ∧
  (∃ c, t' !! sc_id (pr_contribution res) = Some c ∧ contribution_of r (pr_contribution res) c) ∧
  (∃ rule, get_frozen_rule pol (sp_project_id r) (sp_contribution_policy_version_id r) = Ok rule ∧
     awards_exact r (pr_contribution res) rule (pr_awards res)) ∧
  match sp_acceptance_disposition r with
  | REPLAY => t' = t
  | NEW => (∃ f, acq (sp_expected_generation r) = Ok f ∧ cf_new_effects_enabled f = true) ∧
      t' = <[ci_new_id i := new_contribution i r]> t ∧ t !! ci_new_id i = None ∧
      ∀ k d, t !! k = Some d → cb_source_final_acceptance_id d ≠ Some (sp_final_acceptance_id r)
  end.
Proof.
  intros Hok H. pose proof (participation_awards _ _ _ _ _ _ _ _ _ H) as Haw.
  apply participate_Ok in H as (f & rule & Ha & Hen & _ & Hd & _ & _).
  apply disposition_Ok in Hd as (Hok' & Hc & Hd); [|done]. split_and!; [done..|].
  destruct (sp_acceptance_disposition r); [|done]. destruct Hd as (-> & Hn & _ & Hf).
  split_and!; [|done..]. exists f. split; [done|]. by apply Hen.
Qed.
End AnyAwardOwner.

(** ** Replays *)

(** The same participation as a replay under another generation *)
Definition replayed (r : SubmitterParticipationRequest) (g : Z) : SubmitterParticipationRequest :=
  {| sp_acceptance_disposition := REPLAY; sp_project_id := sp_project_id r; sp_task_id := sp_task_id r;
     sp_submission_id := sp_submission_id r; sp_final_acceptance_id := sp_final_acceptance_id r;
     sp_task_assignment_id := sp_task_assignment_id r; sp_contributor_id := sp_contributor_id r;
     sp_contribution_policy_version_id := sp_contribution_policy_version_id r;
     sp_artifact_hash := sp_artifact_hash r; sp_correlation_id := sp_correlation_id r;
     sp_expected_generation := g |}.

Lemma select_exact_source_unique r t k c :
  contributions_ok t → t !! k = Some c → cb_source_final_acceptance_id c = Some (sp_final_acceptance_id r) →
  cb_project_id c = sp_project_id r → _select_exact_source r t = Some c.
Proof.
  intros Hok Hc Hs Hp. unfold _select_exact_source.
  assert (c ∈ map snd (map_to_list t)) as Hin.
  { apply list_elem_of_fmap. exists (k, c). split; [done|]. by apply elem_of_map_to_list. }
  destruct (List.find _ _) as [d|] eqn:E.
  - apply List.find_some in E as [Hd [Hf _]%andb_prop]. apply bool_decide_eq_true_1 in Hf.
    apply list_elem_of_In, list_elem_of_fmap in Hd as ([j d'] & -> & Hd). apply elem_of_map_to_list in Hd.
    cbn in *. assert (j = k) as -> by by eapply co_unique. congruence.
  - exfalso. apply list_elem_of_In, (List.find_none _ _ E) in Hin. unfold from_acceptance in Hin.
    by rewrite Hs, Hp, bool_decide_eq_true_2, Z.eqb_refl in Hin by done.
Qed.

Lemma participation_replays i j ai aj acq acq' f pol r t w res t' w' g :
  contributions_ok t →
  participate_submitter (H := award_owner ai) i acq pol r t w = Ok (res, t', w') →
  wi_in_transaction aj = true → wi_in_nested_transaction aj = false →
  0 ≤ g ≤ max_generation → acq' g = Ok f →
  participate_submitter (H := award_owner aj) j acq' pol (replayed r g) t' w' = Ok (res, t', w').
Proof.
  intros Hok H Ht Hn Hg Hf.
  assert (digest_pattern (sp_artifact_hash r) = true) as Hdig.
  { unfold participate_submitter in H. apply ensure_bind_Ok in H as [Hv _].
    unfold participation_request_valid in Hv. rewrite !andb_true_iff in Hv. tauto. }
  assert (∃ rule, award_request_valid (award_request r (pr_contribution res) rule) = true ∧
    get_frozen_rule pol (sp_project_id r) (sp_contribution_policy_version_id r) = Ok rule) as (rule0 & Hreq & Hr0).
  { unfold participate_submitter in H. apply ensure_bind_Ok in H as [_ H].
    apply result_bind_Ok in H as (f0 & _ & H). apply ensure_bind_Ok in H as [_ H].
    apply result_bind_Ok in H as (rule & Hr & H). apply result_bind_Ok in H as ([c t1] & _ & H).
    cbv zeta in H. apply ensure_bind_Ok in H as [Hv H]. apply result_bind_Ok in H as ([l s1] & _ & H).
    apply result_bind_Ok in H as ([] & _ & H). apply Ok_inj in H as [= <- <- <-]. by exists rule. }
  apply participate_Ok in H as (f0 & rule & _ & _ & Hr & Hd & Hw & He).
  assert (rule0 = rule) as -> by (rewrite Hr in Hr0; by apply Ok_inj in Hr0).
  apply disposition_Ok in Hd as (Hok' & (c & Hc & Hfacts & Hm) & _); [|done].
  unfold participate_submitter. unfold participation_request_valid. cbn [replayed sp_artifact_hash sp_expected_generation].
  rewrite Hdig. replace (0 <=? g) with true by lia. replace (g <=? max_generation) with true by lia. run.
  rewrite Hf, bind_Ok. rewrite bool_decide_eq_false_2 by done. run.
  cbn [replayed sp_project_id sp_contribution_policy_version_id]. rewrite Hr, bind_Ok.
  unfold apply_acceptance_disposition. cbn [replayed sp_acceptance_disposition]. cbv iota.
  destruct (matches_fields _ _ Hm) as (E1 & _ & _ & _ & E5 & _).
  rewrite (select_exact_source_unique (replayed r g) t' (sc_id (pr_contribution res)) c), bind_oget by done.
  change (_matches c (replayed r g)) with (_matches c r). rewrite Hm. run. rewrite Hfacts. run. cbv zeta.
  change (award_request (replayed r g) (pr_contribution res) rule) with
    (as_replay (award_request r (pr_contribution res) rule)).
  change (award_request_valid (as_replay ?x)) with (award_request_valid x). rewrite Hreq. run.
  apply ask_awards_Ok in Hw as Hw'. destruct Hw' as (Hport & Hnd & Hval). unfold ask_awards in Hw |- *.
  unfold award_port, award_owner in *. rewrite Hport in Hw.
  rewrite (award_set_replays _ aj _ _ _ _ Hport Ht Hn).
  destruct (award_result (pr_awards res)) as [l|] eqn:El; [|done]. destruct (forallb award_facts_valid l); [|done].
  apply Ok_inj in Hw as [= ->]. run.
  change (_require_exact_awards (replayed r g)) with (_require_exact_awards r). rewrite He. run.
  by destruct res.
Qed.
