(* ===== verification/Acceptance.v ===== *)
(** * Final acceptance (modules/reviews/acceptance, modules/tasks/accepted_effects.py)

    One transaction that turns a routed submission into accepted work: under the held lifecycle
    fence the task, its assignment and its latest submission are validated, the acceptance is
    stored, the task's effects are applied, and the contribution with its awards is recorded.
    The tables are one record; of tasks, assignments and submissions only the columns this
    transaction reads or writes are modelled.  The routing predicate of the schema,
    [task_routing_acceptance_matches], is modelled with the rows it reads: the routing manifest,
    the audit event of its authorization, and the router's profile and identity link.  The
    schema's triggers, time stamps, new identities and the session's reports at each step are
    arguments. *)

From S2P Require Import Prelude Text Digest Json Instant Lifecycle Awards Contributions.

(** ** Rows of the task module *)

Inductive TaskStatus :=
| TS_draft | TS_screening | TS_ready | TS_in_progress | TS_submitted | TS_evaluation_pending
| TS_review_pending | TS_needs_revision | TS_accepted.

Inductive AttemptStatus :=
| AT_evaluation_pending | AT_review_pending | AT_accepted | AT_needs_revision | AT_rejected.

#[export] Instance task_status_eq_dec : EqDecision TaskStatus.
Proof. solve_decision. Defined.
#[export] Instance attempt_status_eq_dec : EqDecision AttemptStatus.
Proof. solve_decision. Defined.

Record WorkstreamTask := {
  tk_id : uuid;
  tk_project_id : uuid;
  tk_locked_contribution_policy_version_id : option uuid;
  tk_locked_review_policy_id : option uuid;
  tk_status : TaskStatus;
  tk_assigned_to : option uuid;
}.

Record TaskAssignment := {
  ag_id : uuid;
  ag_project_id : uuid;
  ag_submitter_contribution_policy_version_id : uuid;
  ag_task_id : uuid;
  ag_contributor_id : uuid;
  ag_accepted_at : option instant;
  ag_released_at : option instant;
  ag_status : str;
}.

Record Submission := {
  sn_id : uuid;
  sn_contribution_policy_version_id : uuid;
  sn_task_assignment_id : uuid;
  sn_artifact_content_id : option uuid;
  sn_task_id : uuid;
  sn_contributor_id : uuid;
  sn_version : Z;
  sn_submitted_at : instant;
  sn_status : str;
  sn_attempt_status : AttemptStatus;
  sn_decided_at : option instant;
  sn_locked_review_policy_id : uuid;
}.

(** [ck attempt_decision] *)
Definition attempt_decided (s : AttemptStatus) : bool :=
  bool_decide (s ∈ [AT_accepted; AT_needs_revision; AT_rejected]).

(** ** Rows of the review module *)

Inductive AcceptanceSource := human_review | task_post_submit_route.

#[export] Instance acceptance_source_eq_dec : EqDecision AcceptanceSource.
Proof. solve_decision. Defined.

Record FinalAcceptanceInput := {
  fi_id : uuid;
  fi_project_id : uuid;
  fi_task_id : uuid;
  fi_submission_id : uuid;
  fi_acceptance_source : AcceptanceSource;
  fi_source_review_id : option uuid;
  fi_source_routing_manifest_id : option uuid;
  fi_accepted_submitter_id : uuid;
  fi_recorded_by : uuid;
  fi_policy_context_ref : uuid;
  fi_source_authorization_decision_id : uuid;
}.

#[export] Instance acceptance_input_eq_dec : EqDecision FinalAcceptanceInput.
Proof. solve_decision. Defined.

(** [exclusive_source]; also the CHECK [source_shape] *)
Definition exclusive_source (a : FinalAcceptanceInput) : bool :=
  let human := bool_decide (fi_acceptance_source a = human_review) in
  negb (negb (Bool.eqb (bool_decide (fi_source_review_id a ≠ None)) human)
        || Bool.eqb (bool_decide (fi_source_routing_manifest_id a ≠ None)) human).

(** A row of [final_acceptances], and [FinalAcceptanceFacts] *)
Record FinalAcceptance := { fa_input : FinalAcceptanceInput; fa_accepted_at : instant }.

#[export] Instance final_acceptance_eq_dec : EqDecision FinalAcceptance.
Proof. solve_decision. Defined.

Definition acceptance_checks (a : FinalAcceptance) : bool :=
  uuid7_shape (fi_id (fa_input a)) && exclusive_source (fa_input a).

(** The primary key and the UNIQUE constraints *)
Definition same_key (a b : FinalAcceptanceInput) : bool :=
  (fi_id a =? fi_id b) || (fi_task_id a =? fi_task_id b) || (fi_submission_id a =? fi_submission_id b)
  || (bool_decide (fi_source_review_id a ≠ None)
      && bool_decide (fi_source_review_id a = fi_source_review_id b))
  || (bool_decide (fi_source_routing_manifest_id a ≠ None)
      && bool_decide (fi_source_routing_manifest_id a = fi_source_routing_manifest_id b))
  || (fi_source_authorization_decision_id a =? fi_source_authorization_decision_id b).

(** ** Rows of the routing *)

(** A row of [task_post_submit_routing_manifests]: the columns the predicate of the schema reads,
    the two values it takes from [authority_context], and the digest of the authorized resource,
    which [task_routing_resource_digest] computes from the row. *)
Record RoutingManifest := {
  rm_project_id : uuid;
  rm_task_id : uuid;
  rm_submission_id : uuid;
  rm_content_sha256 : str;
  rm_routing_recommendation : str;
  rm_human_review_required : bool;
  rm_final_acceptance_id : option uuid;
  rm_authorized_lifecycle_generation : option Z;
  rm_authorization_decision_id : uuid;
  rm_router_actor_id : uuid;
  rm_router_identity_link_id : uuid;
  rm_locked_review_policy_id : option str;  (** [#>>'{source,locked_policy,locked_review_policy_id}'] *)
  rm_route_operation_id : option str;       (** [#>>'{request,route_operation_id}'] *)
  rm_resource_digest : str;
}.

(** The columns of [audit_events], [actor_profiles] and [actor_identity_links] it reads *)
Record RoutingAuditEvent := {
  av_actor_id : str;
  av_actor_ref_kind : option str;
  av_event_domain : str;
  av_event_type : str;
  av_action_id : option str;
  av_permission_id : option str;
  av_denial_code : option str;
  av_matched_grant_id : option str;
  av_project_id : option uuid;
  av_resource_type : option str;
  av_resource_id : option str;
  av_target_ref_kind : option str;
  av_target_ref_id : option str;
  av_request_id : option uuid;
  av_correlation_id : option uuid;
  av_idempotency_reference : option uuid;
  av_after_facts : option json;
}.

Record RouterProfile := { rp_actor_kind : str; rp_service_identity : option str }.
Record RouterIdentityLink := { rk_actor_profile_id : uuid; rk_subject_kind : str }.

Record RoutingTables := {
  rg_manifests : gmap Z RoutingManifest;
  rg_audit : gmap Z RoutingAuditEvent;
  rg_profiles : gmap Z RouterProfile;
  rg_links : gmap Z RouterIdentityLink;
}.

(** ** The database of the transaction *)

Abbreviation Acceptances := (gmap Z FinalAcceptance).

Record AcceptDb := {
  db_lifecycle : LifecycleDb;
  db_tasks : gmap Z WorkstreamTask;
  db_assignments : gmap Z TaskAssignment;
  db_submissions : gmap Z Submission;
  db_policies : PolicyTables;
  db_routing : RoutingTables;
  db_acceptances : Acceptances;
  db_contributions : Contributions;
  db_awards : Awards;
}.

Inductive AcceptExn :=
| FinalAcceptanceConflict
| FinalAcceptanceNotLive
| TaskAcceptedEffectsUnavailable
| AcceptContribution (e : ContributionExn)
| AcceptLifecycle (e : LifecycleExn)
| AcceptValueError
| AcceptRuntimeError
| AcceptDatabaseError.

(** ** Requests *)

Record TaskAcceptedEffectsRequest := {
  te_project_id : uuid;
  te_task_id : uuid;
  te_assignment_id : uuid;
  te_submission_id : uuid;
  te_submission_version : Z;
  te_contributor_id : uuid;
  te_contribution_policy_version_id : uuid;
  te_content_id : uuid;
  te_content_sha256 : str;
  te_final_acceptance_id : uuid;
  te_expected_task_status : TaskStatus;
}.

#[export] Instance effects_request_eq_dec : EqDecision TaskAcceptedEffectsRequest.
Proof. solve_decision. Defined.

Definition effects_request_valid (r : TaskAcceptedEffectsRequest) : bool :=
  (1 <=? te_submission_version r) && (te_submission_version r <=? 2147483647)
  && digest_pattern (te_content_sha256 r)
  && bool_decide (te_expected_task_status r ∈ [TS_evaluation_pending; TS_review_pending]).

Record TaskAcceptedPreparation := { tp_disposition : Disposition; tp_locked_review_policy_id : uuid }.

(** [TaskAcceptedEffectsResult]; its two states are the literals [accepted] and [completed]. *)
Record TaskAcceptedEffectsResult := { tr_request : TaskAcceptedEffectsRequest }.

Record FinalAcceptanceRequest := {
  fq_acceptance : FinalAcceptanceInput;
  fq_task_effects : TaskAcceptedEffectsRequest;
  fq_correlation_id : uuid;
  fq_expected_generation : Z;
}.

(** The bounds of the fields and [exact_effects] *)
Definition acceptance_request_valid (q : FinalAcceptanceRequest) : bool :=
  let acceptance := fq_acceptance q in
  let task := fq_task_effects q in
  let expected_status := if bool_decide (fi_acceptance_source acceptance = human_review)
                         then TS_review_pending else TS_evaluation_pending in
  exclusive_source acceptance && effects_request_valid task
  && (0 <=? fq_expected_generation q) && (fq_expected_generation q <=? max_generation)
  && negb (negb (fi_id acceptance =? te_final_acceptance_id task)
           || negb (fi_project_id acceptance =? te_project_id task)
           || negb (fi_task_id acceptance =? te_task_id task)
           || negb (fi_submission_id acceptance =? te_submission_id task)
           || negb (fi_accepted_submitter_id acceptance =? te_contributor_id task)
           || negb (bool_decide (te_expected_task_status task = expected_status))).

Record FinalAcceptanceResult := {
  fx_acceptance : FinalAcceptance;
  fx_task_effects : TaskAcceptedEffectsResult;
  fx_participation : SubmitterParticipationResult;
}.

(** What one acceptance takes from outside *)
Record AcceptInputs := {
  ai_enter : Session;                (** the session at [participate], *)
  ai_lock : Session;                 (** at [lock_accepted_effects], *)
  ai_apply : Session;                (** at [apply_accepted_effects], *)
  ai_contribute : Session;           (** and at [participate_submitter] *)
  ai_accepted_at : instant;
  ai_decided_at : option instant;    (** what the trigger derives for the submission *)
  ai_contribution : ContributionInputs;
  ai_awards : AwardInputs;
  ai_admits : AcceptDb → AcceptDb → bool;
}.

(** ** Writes *)

Definition set_acceptances (a : Acceptances) (db : AcceptDb) : AcceptDb :=
  {| db_lifecycle := db_lifecycle db; db_tasks := db_tasks db; db_assignments := db_assignments db;
     db_submissions := db_submissions db; db_policies := db_policies db; db_routing := db_routing db; db_acceptances := a;
     db_contributions := db_contributions db; db_awards := db_awards db |}.

Definition set_task_rows (t : gmap Z WorkstreamTask) (a : gmap Z TaskAssignment) (db : AcceptDb)
    : AcceptDb :=
  {| db_lifecycle := db_lifecycle db; db_tasks := t; db_assignments := a;
     db_submissions := db_submissions db; db_policies := db_policies db; db_routing := db_routing db;
     db_acceptances := db_acceptances db; db_contributions := db_contributions db;
     db_awards := db_awards db |}.

Definition set_submissions (s : gmap Z Submission) (db : AcceptDb) : AcceptDb :=
  {| db_lifecycle := db_lifecycle db; db_tasks := db_tasks db; db_assignments := db_assignments db;
     db_submissions := s; db_policies := db_policies db; db_routing := db_routing db; db_acceptances := db_acceptances db;
     db_contributions := db_contributions db; db_awards := db_awards db |}.

Definition set_economics (c : Contributions) (w : Awards) (db : AcceptDb) : AcceptDb :=
  {| db_lifecycle := db_lifecycle db; db_tasks := db_tasks db; db_assignments := db_assignments db;
     db_submissions := db_submissions db; db_policies := db_policies db; db_routing := db_routing db;
     db_acceptances := db_acceptances db; db_contributions := c; db_awards := w |}.

(** ** The task participant *)

Definition lock_project_task (db : AcceptDb) (project task : uuid) : option WorkstreamTask :=
  match db_tasks db !! task with
  | Some t => if tk_project_id t =? project then Some t else None
  | None => None
  end.

Definition lock_accepted_assignment (db : AcceptDb) (project task assignment : uuid)
    : option TaskAssignment :=
  match db_assignments db !! assignment with
  | Some a => if (ag_task_id a =? task) && (ag_project_id a =? project) then Some a else None
  | None => None
  end.

(** [order by version desc, submitted_at desc] *)
Definition later (a b : Submission) : bool :=
  (sn_version b <? sn_version a)
  || ((sn_version a =? sn_version b) && (sn_submitted_at b <=? sn_submitted_at a)).

Definition get_latest_submission_for_task (db : AcceptDb) (task : uuid) : option Submission :=
  foldr (λ s best, match best with Some b => if later s b then Some s else best | None => Some s end)
    None (List.filter (λ s, sn_task_id s =? task) (map snd (map_to_list (db_submissions db)))).

Definition held_facts (s : Session) (generation : Z) (h : HeldFence)
    : result AcceptExn JointLifecycleControlFacts :=
  match (held_acquire s generation h).2 with
  | Ok f => Ok f
  | Raise e => Raise (AcceptLifecycle e)
  end.

(** The lineage the three rows must have *)
Definition lineage_ok (r : TaskAcceptedEffectsRequest) (task : WorkstreamTask)
    (assignment : TaskAssignment) (latest : Submission) : bool :=
  bool_decide (tk_assigned_to task = Some (te_contributor_id r))
  && bool_decide (tk_locked_contribution_policy_version_id task = Some (te_contribution_policy_version_id r))
  && bool_decide (tk_locked_review_policy_id task ≠ None)
  && (ag_contributor_id assignment =? te_contributor_id r)
  && (ag_submitter_contribution_policy_version_id assignment =? te_contribution_policy_version_id r)
  && bool_decide (ag_accepted_at assignment ≠ None) && bool_decide (ag_released_at assignment = None)
  && (sn_id latest =? te_submission_id r) && (sn_version latest =? te_submission_version r)
  && (sn_task_assignment_id latest =? te_assignment_id r)
  && (sn_contributor_id latest =? te_contributor_id r)
  && (sn_contribution_policy_version_id latest =? te_contribution_policy_version_id r)
  && bool_decide (sn_artifact_content_id latest = Some (te_content_id r))
  && str_eqb (sn_status latest) (lit "submitted")
  && bool_decide (Some (sn_locked_review_policy_id latest) = tk_locked_review_policy_id task).

Definition disposition_of (r : TaskAcceptedEffectsRequest) (task : WorkstreamTask)
    (assignment : TaskAssignment) : option Disposition :=
  if bool_decide (tk_status task = te_expected_task_status r)
     && str_eqb (ag_status assignment) (lit "active") then Some NEW
  else if bool_decide (tk_status task = TS_accepted)
          && str_eqb (ag_status assignment) (lit "completed") then Some REPLAY
  else None.

Definition _lock_and_validate_rows (s : Session) (h : HeldFence) (r : TaskAcceptedEffectsRequest)
    (expected_generation : Z) (db : AcceptDb)
    : result AcceptExn (TaskAcceptedPreparation * WorkstreamTask * TaskAssignment) :=
  lifecycle ← held_facts s expected_generation h;
  task ← oget (lock_project_task db (te_project_id r) (te_task_id r)) TaskAcceptedEffectsUnavailable;
  assignment ← oget (lock_accepted_assignment db (te_project_id r) (te_task_id r) (te_assignment_id r))
                 TaskAcceptedEffectsUnavailable;
  latest ← oget (get_latest_submission_for_task db (te_task_id r)) TaskAcceptedEffectsUnavailable;
  _ ← ensure (lineage_ok r task assignment latest) TaskAcceptedEffectsUnavailable;
  disposition ← oget (disposition_of r task assignment) TaskAcceptedEffectsUnavailable;
  _ ← ensure (negb (bool_decide (disposition = NEW) && negb (cf_new_effects_enabled lifecycle)))
        TaskAcceptedEffectsUnavailable;
  policy ← oget (tk_locked_review_policy_id task) TaskAcceptedEffectsUnavailable;
  Ok ({| tp_disposition := disposition; tp_locked_review_policy_id := policy |}, task, assignment).

Definition lock_accepted_effects (s : Session) (h : HeldFence) (r : TaskAcceptedEffectsRequest)
    (expected_generation : Z) (db : AcceptDb) : result AcceptExn TaskAcceptedPreparation :=
  _ ← ensure (effects_request_valid r) TaskAcceptedEffectsUnavailable;
  x ← _lock_and_validate_rows s h r expected_generation db;
  Ok x.1.1.

Definition accepted_task (t : WorkstreamTask) : WorkstreamTask :=
  {| tk_id := tk_id t; tk_project_id := tk_project_id t;
     tk_locked_contribution_policy_version_id := tk_locked_contribution_policy_version_id t;
     tk_locked_review_policy_id := tk_locked_review_policy_id t; tk_status := TS_accepted;
     tk_assigned_to := tk_assigned_to t |}.

Definition completed_assignment (a : TaskAssignment) : TaskAssignment :=
  {| ag_id := ag_id a; ag_project_id := ag_project_id a;
     ag_submitter_contribution_policy_version_id := ag_submitter_contribution_policy_version_id a;
     ag_task_id := ag_task_id a; ag_contributor_id := ag_contributor_id a;
     ag_accepted_at := ag_accepted_at a; ag_released_at := ag_released_at a;
     ag_status := lit "completed" |}.

Definition decided_submission (outcome : AttemptStatus) (decided_at : option instant) (s : Submission)
    : Submission :=
  {| sn_id := sn_id s; sn_contribution_policy_version_id := sn_contribution_policy_version_id s;
     sn_task_assignment_id := sn_task_assignment_id s;
     sn_artifact_content_id := sn_artifact_content_id s; sn_task_id := sn_task_id s;
     sn_contributor_id := sn_contributor_id s; sn_version := sn_version s;
     sn_submitted_at := sn_submitted_at s; sn_status := sn_status s; sn_attempt_status := outcome;
     sn_decided_at := decided_at; sn_locked_review_policy_id := sn_locked_review_policy_id s |}.

(** [record_attempt_outcome]; the trigger derives the time of the decision *)
Definition record_attempt_outcome (i : AcceptInputs) (submission task : uuid) (outcome : AttemptStatus)
    (db : AcceptDb) : result AcceptExn AcceptDb :=
  match db_submissions db !! submission with
  | Some s =>
      _ ← ensure (sn_task_id s =? task) AcceptRuntimeError;
      let s' := decided_submission outcome (ai_decided_at i) s in
      let db' := set_submissions (<[submission := s']> (db_submissions db)) db in
      _ ← ensure (Bool.eqb (attempt_decided outcome) (bool_decide (ai_decided_at i ≠ None))
                  && ai_admits i db db') AcceptDatabaseError;
      Ok db'
  | None => Raise AcceptRuntimeError
  end.

Definition apply_accepted_effects (i : AcceptInputs) (h : HeldFence) (r : TaskAcceptedEffectsRequest)
    (disposition : Disposition) (expected_generation : Z) (db : AcceptDb)
    : result AcceptExn (TaskAcceptedEffectsResult * AcceptDb) :=
  _ ← ensure (effects_request_valid r) TaskAcceptedEffectsUnavailable;
  x ← _lock_and_validate_rows (ai_apply i) h r expected_generation db;
  let '(preparation, task, assignment) := x in
  _ ← ensure (bool_decide (tp_disposition preparation = disposition)) TaskAcceptedEffectsUnavailable;
  db ← (if bool_decide (disposition = NEW) then
          let db' := set_task_rows (<[te_task_id r := accepted_task task]> (db_tasks db))
                       (<[te_assignment_id r := completed_assignment assignment]> (db_assignments db)) db in
          _ ← ensure (ai_admits i db db') AcceptDatabaseError;
          record_attempt_outcome i (te_submission_id r) (te_task_id r) AT_accepted db'
        else Ok db);
  Ok ({| tr_request := r |}, db).

(** The SQL function [task_routing_receipt_valid]: the authorization of the manifest's router *)
Definition task_routing_receipt_valid (t : RoutingTables) (id : uuid) (m : RoutingManifest) : bool :=
  match rg_audit t !! rm_authorization_decision_id m, rg_profiles t !! rm_router_actor_id m,
        rg_links t !! rm_router_identity_link_id m with
  | Some a, Some p, Some l =>
      str_eqb (av_actor_id a) (uuid_text (rm_router_actor_id m))
      && (rk_actor_profile_id l =? rm_router_actor_id m)
      && str_eqb (rp_actor_kind p) (lit "service")
      && bool_decide (rp_service_identity p = Some (lit "workstream.task.post_submit_router"))
      && str_eqb (rk_subject_kind l) (lit "service")
      && bool_decide (av_actor_ref_kind a = Some (lit "actor_profile"))
      && str_eqb (av_event_domain a) (lit "authority")
      && str_eqb (av_event_type a) (lit "SensitiveAuthorizationAllowed")
      && bool_decide (av_action_id a = Some (lit "task.post_submit.route"))
      && bool_decide (av_permission_id a = av_action_id a)
      && bool_decide (av_denial_code a = None) && bool_decide (av_matched_grant_id a = None)
      && bool_decide (av_project_id a = Some (rm_project_id m))
      && bool_decide (av_resource_type a = Some (lit "task_post_submit_routing_manifest"))
      && bool_decide (av_resource_id a = Some (uuid_text id))
      && bool_decide (av_target_ref_kind a = Some (lit "project"))
      && bool_decide (av_target_ref_id a = Some (uuid_text (rm_project_id m)))
      && match av_request_id a with
         | Some r => bool_decide (rm_route_operation_id m = Some (uuid_text r))
                     && bool_decide (av_correlation_id a = Some r)
         | None => false
         end
      && bool_decide (av_idempotency_reference a = None)
      && bool_decide (canon <$> av_after_facts a =
           Some (canon (JObj [kv "allowed" (JBool true);
                              kv "resource_context_digest" (JStr (rm_resource_digest m))])))
  | _, _, _ => false
  end.

(** What [task_routing_acceptance_matches] asks of the manifest's own columns *)
Definition manifest_matches (m : RoutingManifest) (acceptance decision actor project task submission
    policy : uuid) : bool :=
  bool_decide (rm_final_acceptance_id m = Some acceptance)
  && (rm_authorization_decision_id m =? decision) && (rm_router_actor_id m =? actor)
  && (rm_project_id m =? project) && (rm_task_id m =? task) && (rm_submission_id m =? submission)
  && bool_decide (rm_locked_review_policy_id m = Some (uuid_text policy))
  && str_eqb (rm_routing_recommendation m) (lit "allow_review")
  && negb (rm_human_review_required m)
  && match rm_authorized_lifecycle_generation m with Some g => 0 <? g | None => false end.

(** The SQL function [task_routing_acceptance_matches], as revisions 0030, 0032 and 0039 leave it:
    a replay needs the current generation, a new acceptance also the generation the routing was
    authorized at and a live controller. *)
Definition task_routing_acceptance_matches (db : AcceptDb) (manifest acceptance decision actor project
    task submission policy : uuid) (generation : Z) (is_new : bool) : bool :=
  match rg_manifests (db_routing db) !! manifest, lc_control (db_lifecycle db) with
  | Some m, Some c =>
      rc_singleton c
      && manifest_matches m acceptance decision actor project task submission policy
      && (rc_generation c =? generation)
      && (negb is_new
          || (bool_decide (rm_authorized_lifecycle_generation m = Some (rc_generation c))
              && joint_lifecycle_new_effects_enabled (db_lifecycle db) c))
      && task_routing_receipt_valid (db_routing db) manifest m
  | _, _ => false
  end.

(** [require_routing_source]: the manifest of the content, and the schema's predicate on it *)
Definition require_routing_source (r : TaskAcceptedEffectsRequest)
    (manifest : option uuid) (source : FinalAcceptanceInput) (expected_generation : Z)
    (disposition : Disposition) (db : AcceptDb) : result AcceptExn unit :=
  _ ← ensure (effects_request_valid r) TaskAcceptedEffectsUnavailable;
  manifest ← oget manifest TaskAcceptedEffectsUnavailable;
  ensure (match rg_manifests (db_routing db) !! manifest with
          | Some m =>
              str_eqb (rm_content_sha256 m) (te_content_sha256 r)
              && task_routing_acceptance_matches db manifest (te_final_acceptance_id r)
                   (fi_source_authorization_decision_id source) (fi_recorded_by source)
                   (te_project_id r) (te_task_id r) (te_submission_id r)
                   (fi_policy_context_ref source) expected_generation
                   (bool_decide (disposition = NEW))
          | None => false
          end) TaskAcceptedEffectsUnavailable.

(** ** The acceptance row *)

Definition new_acceptance (i : AcceptInputs) (source : FinalAcceptanceInput) : FinalAcceptance :=
  {| fa_input := source; fa_accepted_at := ai_accepted_at i |}.

(** The rows that share an identity, a task, a submission or the source *)
Definition candidates (source : FinalAcceptanceInput) (t : Acceptances) : list FinalAcceptance :=
  let from_source a := match fi_source_review_id source with
                       | Some _ => bool_decide (fi_source_review_id a = fi_source_review_id source)
                       | None => bool_decide (fi_source_routing_manifest_id a
                                              = fi_source_routing_manifest_id source)
                       end in
  List.filter (λ a, (fi_id (fa_input a) =? fi_id source)
                    || (fi_task_id (fa_input a) =? fi_task_id source)
                    || (fi_submission_id (fa_input a) =? fi_submission_id source)
                    || from_source (fa_input a)) (map snd (map_to_list t)).

Definition insert_acceptance (i : AcceptInputs) (source : FinalAcceptanceInput) (db : AcceptDb)
    : result AcceptExn AcceptDb :=
  let row := new_acceptance i source in
  _ ← ensure (acceptance_checks row) AcceptDatabaseError;
  _ ← ensure (negb (existsb (λ kv, same_key source (fa_input kv.2)) (map_to_list (db_acceptances db))))
        FinalAcceptanceConflict;
  let db' := set_acceptances (<[fi_id source := row]> (db_acceptances db)) db in
  _ ← ensure (ai_admits i db db') AcceptDatabaseError;
  Ok db'.

Definition persist (i : AcceptInputs) (source : FinalAcceptanceInput) (disposition : Disposition)
    (db : AcceptDb) : result AcceptExn (FinalAcceptance * AcceptDb) :=
  db ← (if bool_decide (disposition = NEW) then insert_acceptance i source db else Ok db);
  match candidates source (db_acceptances db) with
  | [row] =>
      _ ← ensure (bool_decide (fa_input row = source)) FinalAcceptanceConflict;
      Ok (row, db)
  | _ => Raise FinalAcceptanceConflict
  end.

(** ** The acceptance participant *)

Definition participation_request (q : FinalAcceptanceRequest) (disposition : Disposition)
    : SubmitterParticipationRequest :=
  let source := fq_acceptance q in
  let task := fq_task_effects q in
  {| sp_acceptance_disposition := disposition; sp_project_id := fi_project_id source;
     sp_task_id := fi_task_id source; sp_submission_id := fi_submission_id source;
     sp_final_acceptance_id := fi_id source; sp_task_assignment_id := te_assignment_id task;
     sp_contributor_id := te_contributor_id task;
     sp_contribution_policy_version_id := te_contribution_policy_version_id task;
     sp_artifact_hash := te_content_sha256 task; sp_correlation_id := fq_correlation_id q;
     sp_expected_generation := fq_expected_generation q |}.

(** The comparison of the returned contribution *)
Definition contribution_expected (q : FinalAcceptanceRequest) (c : SubmitterContributionFacts) : bool :=
  let source := fq_acceptance q in
  let task := fq_task_effects q in
  (sc_project_id c =? fi_project_id source) && (sc_task_id c =? fi_task_id source)
  && (sc_submission_id c =? fi_submission_id source) && (sc_contributor_id c =? te_contributor_id task)
  && (sc_source_final_acceptance_id c =? fi_id source)
  && (sc_source_task_assignment_id c =? te_assignment_id task)
  && str_eqb (sc_artifact_hash c) (te_content_sha256 task)
  && (sc_contribution_policy_version_id c =? te_contribution_policy_version_id task).

Definition contribute (i : AcceptInputs) (h : HeldFence) (r : SubmitterParticipationRequest)
    (db : AcceptDb) : result AcceptExn (SubmitterParticipationResult * AcceptDb) :=
  match participate_submitter (S := Awards) (H := award_owner (ai_awards i)) (ai_contribution i)
          (λ g, (held_acquire (ai_contribute i) g h).2) (db_policies db) r
          (db_contributions db) (db_awards db) with
  | Ok (res, c, w) => Ok (res, set_economics c w db)
  | Raise e => Raise (AcceptContribution e)
  end.

Definition _participate (i : AcceptInputs) (h : HeldFence) (q : FinalAcceptanceRequest)
    (lifecycle : JointLifecycleControlFacts) (db : AcceptDb)
    : result AcceptExn (FinalAcceptanceResult * AcceptDb) :=
  let source := fq_acceptance q in
  let task := fq_task_effects q in
  prepared ← lock_accepted_effects (ai_lock i) h task (fq_expected_generation q) db;
  let disposition := tp_disposition prepared in
  _ ← ensure (negb (bool_decide (disposition = NEW) && negb (cf_new_effects_enabled lifecycle)))
        FinalAcceptanceConflict;
  _ ← ensure (tp_locked_review_policy_id prepared =? fi_policy_context_ref source) FinalAcceptanceConflict;
  _ ← ensure (negb (bool_decide (fi_acceptance_source source = human_review))) FinalAcceptanceConflict;
  _ ← require_routing_source task (fi_source_routing_manifest_id source) source
        (fq_expected_generation q) disposition db;
  ad ← persist i source disposition db;
  let '(acceptance, db) := ad in
  ed ← apply_accepted_effects i h task disposition (fq_expected_generation q) db;
  let '(effects, db) := ed in
  _ ← ensure (bool_decide (tr_request effects = task)) FinalAcceptanceConflict;
  pd ← contribute i h (participation_request q disposition) db;
  let '(participation, db) := pd in
  _ ← ensure (contribution_expected q (pr_contribution participation)) FinalAcceptanceConflict;
  Ok ({| fx_acceptance := acceptance; fx_task_effects := effects; fx_participation := participation |}, db).

(** [_PreparedFinalAcceptance] *)
Record Prepared := { pp_held : HeldFence; pp_generation : Z; pp_closed : bool }.

(** [prepare], up to its [yield] *)
Definition prepare (s : Session) (expected_generation : Z) (db : AcceptDb) : result AcceptExn Prepared :=
  match hold s expected_generation (db_lifecycle db) with
  | Ok h => Ok {| pp_held := h; pp_generation := expected_generation; pp_closed := false |}
  | Raise e => Raise (AcceptLifecycle e)
  end.

Definition require_new (s : Session) (p : Prepared) : result AcceptExn unit :=
  _ ← ensure (negb (pp_closed p)) FinalAcceptanceConflict;
  lifecycle ← held_facts s (pp_generation p) (pp_held p);
  ensure (cf_new_effects_enabled lifecycle) FinalAcceptanceNotLive.

(** The [except] clause of [participate] *)
Definition concealed (e : AcceptExn) : AcceptExn :=
  match e with
  | TaskAcceptedEffectsUnavailable | AcceptValueError
  | AcceptContribution (ContributionParticipationConflict | ContributionParticipationUnavailable
                        | ContributionValueError) => FinalAcceptanceConflict
  | _ => e
  end.

Definition participate (i : AcceptInputs) (p : Prepared) (q : FinalAcceptanceRequest) (db : AcceptDb)
    : result AcceptExn (FinalAcceptanceResult * AcceptDb) :=
  _ ← ensure (negb (pp_closed p)) FinalAcceptanceConflict;
  match (_ ← ensure (acceptance_request_valid q) AcceptValueError;
         _ ← ensure (fq_expected_generation q =? pp_generation p) FinalAcceptanceConflict;
         lifecycle ← held_facts (ai_enter i) (pp_generation p) (pp_held p);
         _participate i (pp_held p) q lifecycle db) with
  | Ok x => Ok x
  | Raise e => Raise (concealed e)
  end.

(** The whole transaction: prepare, participate, commit *)
Definition accept (s : Session) (i : AcceptInputs) (q : FinalAcceptanceRequest) (db : AcceptDb)
    : result AcceptExn (FinalAcceptanceResult * AcceptDb) :=
  p ← prepare s (fq_expected_generation q) db;
  participate i p q db.
