(* ===== verification/AcceptanceGuarantees.v ===== *)
(** * What a final acceptance guarantees

    Every committed acceptance has all of its effects or none, new effects need the live phase,
    a replay returns what was recorded and writes nothing, and in every reachable database the
    books of acceptances, contributions and awards agree. *)

From S2P Require Import Prelude Text Digest Json Instant Lifecycle Awards Contributions Acceptance.

(** ** Inversion of the steps *)

Lemma held_facts_Ok s g h f : held_facts s g h = Ok f → f = hf_facts h.
Proof.
  unfold held_facts, held_acquire. destruct (_ || _); [done|]. destruct (ss_export s); [|done..].
  by intros [= <-].
Qed.

Lemma prepare_Ok s g db p :
  prepare s g db = Ok p →
  ∃ c, lc_control (db_lifecycle db) = Some c ∧ hf_facts (pp_held p) = control_facts (db_lifecycle db) c ∧
    rc_generation c = g ∧ pp_generation p = g.
Proof.
  unfold prepare. destruct (hold s g (db_lifecycle db)) as [h|] eqn:E; [|done]. intros [= <-]. cbn.
  unfold hold in E. apply result_bind_Ok in E as (f & Ha & E). apply Ok_inj in E as <-. cbn.
  unfold acquire in Ha. apply ensure_bind_Ok in Ha as [_ Ha]. apply result_bind_Ok in Ha as (f' & Hl & Ha).
  apply ensure_bind_Ok in Ha as [Hg%Z.eqb_eq Ha]. apply Ok_inj in Ha as ->.
  apply lock_controller_Ok in Hl as (c & Hc & -> & _). by exists c.
Qed.

(** The rows a request selects, and how it finds them *)
Record selected (r : TaskAcceptedEffectsRequest) (db : AcceptDb) (task : WorkstreamTask)
    (assignment : TaskAssignment) (latest : Submission) : Prop := {
  se_task : lock_project_task db (te_project_id r) (te_task_id r) = Some task;
  se_assignment : lock_accepted_assignment db (te_project_id r) (te_task_id r) (te_assignment_id r)
                  = Some assignment;
  se_latest : get_latest_submission_for_task db (te_task_id r) = Some latest;
  se_lineage : lineage_ok r task assignment latest = true;
}.

Lemma rows_Ok s h r g db p task assignment :
  _lock_and_validate_rows s h r g db = Ok (p, task, assignment) →
  ∃ latest, selected r db task assignment latest ∧
    disposition_of r task assignment = Some (tp_disposition p) ∧
    tk_locked_review_policy_id task = Some (tp_locked_review_policy_id p) ∧
    (tp_disposition p = NEW → cf_new_effects_enabled (hf_facts h) = true).
Proof.
  intros H. unfold _lock_and_validate_rows in H. apply result_bind_Ok in H as (f & Hf%held_facts_Ok & H).
  apply result_bind_Ok in H as (t & Ht%oget_Ok & H). apply result_bind_Ok in H as (a & Ha%oget_Ok & H).
  apply result_bind_Ok in H as (l & Hl%oget_Ok & H). apply ensure_bind_Ok in H as [Hli H].
  apply result_bind_Ok in H as (d & Hd%oget_Ok & H). apply ensure_bind_Ok in H as [Hen H].
  apply result_bind_Ok in H as (pol & Hp%oget_Ok & H). apply Ok_inj in H as [= <- <- <-]. cbn.
  exists l. split_and!; [done|done|done|]. intros ->. subst f. cbn in Hen.
  by destruct (cf_new_effects_enabled (hf_facts h)).
Qed.

Lemma record_outcome_Ok i sub task o db db' :
  record_attempt_outcome i sub task o db = Ok db' →
  ∃ s, db_submissions db !! sub = Some s ∧ sn_task_id s = task ∧
    attempt_decided o = bool_decide (ai_decided_at i ≠ None) ∧
    db' = set_submissions (<[sub := decided_submission o (ai_decided_at i) s]> (db_submissions db)) db.
Proof.
  unfold record_attempt_outcome. destruct (db_submissions db !! sub) as [s|]; [|done].
  intros [Ht%Z.eqb_eq H]%ensure_bind_Ok. cbv zeta in H. apply ensure_bind_Ok in H as [[Hd _]%andb_prop H].
  apply Ok_inj in H as <-. exists s. split_and!; [done|done|by apply eqb_prop|done].
Qed.

(** The database after a task's rows were accepted *)
Definition task_effects (i : AcceptInputs) (r : TaskAcceptedEffectsRequest) (task : WorkstreamTask)
    (assignment : TaskAssignment) (s : Submission) (db : AcceptDb) : AcceptDb :=
  set_submissions (<[te_submission_id r := decided_submission AT_accepted (ai_decided_at i) s]>
                     (db_submissions db))
    (set_task_rows (<[te_task_id r := accepted_task task]> (db_tasks db))
       (<[te_assignment_id r := completed_assignment assignment]> (db_assignments db)) db).

Lemma apply_Ok i h r d g db x db' :
  apply_accepted_effects i h r d g db = Ok (x, db') →
  tr_request x = r ∧ ∃ task assignment latest, selected r db task assignment latest ∧
    disposition_of r task assignment = Some d ∧
    match d with
    | NEW => ∃ s, db_submissions db !! te_submission_id r = Some s ∧ sn_task_id s = te_task_id r ∧
               ai_decided_at i ≠ None ∧ db' = task_effects i r task assignment s db
    | REPLAY => db' = db
    end.
Proof.
  intros H. unfold apply_accepted_effects in H. apply ensure_bind_Ok in H as [_ H].
  apply result_bind_Ok in H as ([[p task] assignment] & Hr & H).
  apply ensure_bind_Ok in H as [Hp%bool_decide_eq_true_1 H]. apply result_bind_Ok in H as (db1 & Hd & H).
  apply Ok_inj in H as [= <- <-]. split; [done|]. apply rows_Ok in Hr as (l & Hs & Hdisp & _).
  exists task, assignment, l. rewrite Hp in Hdisp. split_and!; [done|done|]. destruct d; cbn in Hd.
  - cbv zeta in Hd. apply ensure_bind_Ok in Hd as [_ Hd].
    apply record_outcome_Ok in Hd as (s & Hs1 & Hs2 & Hs3 & ->). cbn in *. exists s.
    split_and!; [done|done| |done]. symmetry in Hs3. by apply bool_decide_eq_true_1 in Hs3.
  - by apply Ok_inj in Hd.
Qed.

Lemma same_key_refl a : same_key a a = true.
Proof. unfold same_key. by rewrite Z.eqb_refl. Qed.

Lemma persist_Ok i a d db row db' :
  persist i a d db = Ok (row, db') →
  fa_input row = a ∧ candidates a (db_acceptances db') = [row] ∧
  match d with
  | NEW => (∀ k b, db_acceptances db !! k = Some b → same_key a (fa_input b) = false) ∧
           db' = set_acceptances (<[fi_id a := new_acceptance i a]> (db_acceptances db)) db ∧
           acceptance_checks (new_acceptance i a) = true
  | REPLAY => db' = db
  end.
Proof.
  intros H. unfold persist in H. apply result_bind_Ok in H as (db1 & Hi & H).
  destruct (candidates a (db_acceptances db1)) as [|r [|]] eqn:Ec; [done| |done].
  apply ensure_bind_Ok in H as [Hr%bool_decide_eq_true_1 H]. apply Ok_inj in H as [= <- <-].
  split_and!; [done|done|]. destruct d; cbn in Hi; [|by apply Ok_inj in Hi].
  unfold insert_acceptance in Hi. cbv zeta in Hi. apply ensure_bind_Ok in Hi as [Hck Hi].
  apply ensure_bind_Ok in Hi as [Hn%negb_true_iff Hi]. apply ensure_bind_Ok in Hi as [_ Hi].
  apply Ok_inj in Hi as <-. split_and!; [|done|done]. intros k b Hb. apply not_true_iff_false. intros Hs.
  apply not_true_iff_false in Hn. apply Hn, existsb_exists. exists (k, b).
  split; [by apply list_elem_of_In, elem_of_map_to_list|done].
Qed.

(** The call of the contribution owner *)
Definition economics (i : AcceptInputs) (h : HeldFence) (q : FinalAcceptanceRequest) (d : Disposition)
    (db : AcceptDb) : result ContributionExn (SubmitterParticipationResult * Contributions * Awards) :=
  participate_submitter (S := Awards) (H := award_owner (ai_awards i)) (ai_contribution i)
    (λ g, (held_acquire (ai_contribute i) g h).2) (db_policies db) (participation_request q d)
    (db_contributions db) (db_awards db).

(** The routing of a request, apart from the lifecycle: its manifest is there, of its content and
    with its facts, and the router's authorization is on record. *)
Definition routed (q : FinalAcceptanceRequest) (db : AcceptDb) : Prop :=
  let a := fq_acceptance q in
  let r := fq_task_effects q in
  ∃ id m, fi_source_routing_manifest_id a = Some id ∧ rg_manifests (db_routing db) !! id = Some m ∧
    rm_content_sha256 m = te_content_sha256 r ∧
    manifest_matches m (te_final_acceptance_id r) (fi_source_authorization_decision_id a) (fi_recorded_by a)
      (te_project_id r) (te_task_id r) (te_submission_id r) (fi_policy_context_ref a) = true ∧
    task_routing_receipt_valid (db_routing db) id m = true.

Lemma routing_Ok q g d db :
  require_routing_source (fq_task_effects q) (fi_source_routing_manifest_id (fq_acceptance q)) (fq_acceptance q)
    g d db = Ok tt → routed q db.
Proof.
  unfold require_routing_source. intros [_ H]%ensure_bind_Ok. apply result_bind_Ok in H as (id & Hid%oget_Ok & H).
  apply ensure_Ok in H. destruct (rg_manifests (db_routing db) !! id) as [m|] eqn:Hm; [|done].
  apply andb_prop in H as [Hc H]. unfold task_routing_acceptance_matches in H. rewrite Hm in H.
  destruct (lc_control (db_lifecycle db)) as [c|]; [|done]. rewrite !andb_true_iff in H.
  exists id, m. unfold str_eqb in Hc. apply bool_decide_eq_true in Hc. tauto.
Qed.

(** A replay needs no more than that and the current generation. *)
Lemma routing_replays q db c :
  effects_request_valid (fq_task_effects q) = true → routed q db → lc_control (db_lifecycle db) = Some c →
  rc_singleton c = true →
  require_routing_source (fq_task_effects q) (fi_source_routing_manifest_id (fq_acceptance q)) (fq_acceptance q)
    (rc_generation c) REPLAY db = Ok tt.
Proof.
  intros Hv (id & m & Hid & Hm & Hc & Hmm & Hr) Hctl Hs. unfold require_routing_source. rewrite Hv, Hid. run.
  unfold task_routing_acceptance_matches. rewrite Hm, Hctl, Hs, Hmm, Hr, Hc, Z.eqb_refl.
  by rewrite str_eqb_refl.
Qed.

(** What a committed acceptance consists of *)
Record committed (i : AcceptInputs) (q : FinalAcceptanceRequest) (db : AcceptDb)
    (x : FinalAcceptanceResult) (db' : AcceptDb) (h : HeldFence) (ctl : JointLifecycleReleaseControl)
    (task : WorkstreamTask) (assignment : TaskAssignment) (latest : Submission) (d : Disposition)
    : Prop := {
  cm_control : lc_control (db_lifecycle db) = Some ctl;
  cm_held : hf_facts h = control_facts (db_lifecycle db) ctl;
  cm_generation : rc_generation ctl = fq_expected_generation q;
  cm_valid : acceptance_request_valid q = true;
  cm_source : fi_acceptance_source (fq_acceptance q) = task_post_submit_route;
  cm_rows : selected (fq_task_effects q) db task assignment latest;
  cm_disposition : disposition_of (fq_task_effects q) task assignment = Some d;
  cm_policy : tk_locked_review_policy_id task = Some (fi_policy_context_ref (fq_acceptance q));
  cm_routed : routed q db;
  cm_live : d = NEW → joint_lifecycle_new_effects_enabled (db_lifecycle db) ctl = true;
  cm_acceptance : fa_input (fx_acceptance x) = fq_acceptance q;
  cm_effects : tr_request (fx_task_effects x) = fq_task_effects q;
  cm_expected : contribution_expected q (pr_contribution (fx_participation x)) = true;
  cm_writes :
    match d with
    | NEW => ∃ sub c w,
        (∀ k b, db_acceptances db !! k = Some b → same_key (fq_acceptance q) (fa_input b) = false) ∧
        acceptance_checks (new_acceptance i (fq_acceptance q)) = true ∧
        db_submissions db !! te_submission_id (fq_task_effects q) = Some sub ∧
        ai_decided_at i ≠ None ∧ economics i h q NEW db = Ok (fx_participation x, c, w) ∧
        fx_acceptance x = new_acceptance i (fq_acceptance q) ∧
        candidates (fq_acceptance q) (db_acceptances db') = [fx_acceptance x] ∧
        db' = set_economics c w (task_effects i (fq_task_effects q) task assignment sub
                (set_acceptances (<[fi_id (fq_acceptance q) := new_acceptance i (fq_acceptance q)]>
                                    (db_acceptances db)) db))
    | REPLAY => ∃ c w, economics i h q REPLAY db = Ok (fx_participation x, c, w) ∧
        candidates (fq_acceptance q) (db_acceptances db) = [fx_acceptance x] ∧ db' = set_economics c w db
    end;
}.

Lemma candidates_self i a t :
  new_acceptance i a ∈ candidates a (<[fi_id a := new_acceptance i a]> t).
Proof.
  unfold candidates. apply list_elem_of_In, filter_In. cbn. rewrite Z.eqb_refl. split; [|done].
  apply list_elem_of_In, list_elem_of_fmap. exists (fi_id a, new_acceptance i a). split; [done|].
  apply elem_of_map_to_list, lookup_insert_eq.
Qed.

Lemma contribute_Ok i h q d db res db' :
  contribute i h (participation_request q d) db = Ok (res, db') →
  ∃ c w, economics i h q d db = Ok (res, c, w) ∧ db' = set_economics c w db.
Proof.
  unfold contribute, economics. destruct (participate_submitter _ _ _ _ _ _) as [[[r c] w]|e]; [|done].
  intros H. apply Ok_inj in H as [= <- <-]. by exists c, w.
Qed.

Lemma participate_inv i h q db x db' :
  _participate i h q (hf_facts h) db = Ok (x, db') →
  ∃ p ad ed, lock_accepted_effects (ai_lock i) h (fq_task_effects q) (fq_expected_generation q) db = Ok p ∧
    tp_locked_review_policy_id p = fi_policy_context_ref (fq_acceptance q) ∧
    fi_acceptance_source (fq_acceptance q) ≠ human_review ∧ routed q db ∧
    (tp_disposition p = NEW → cf_new_effects_enabled (hf_facts h) = true) ∧
    persist i (fq_acceptance q) (tp_disposition p) db = Ok (fx_acceptance x, ad) ∧
    apply_accepted_effects i h (fq_task_effects q) (tp_disposition p) (fq_expected_generation q) ad
      = Ok (fx_task_effects x, ed) ∧
    contribute i h (participation_request q (tp_disposition p)) ed = Ok (fx_participation x, db') ∧
    contribution_expected q (pr_contribution (fx_participation x)) = true.
Proof.
  intros H. unfold _participate in H. cbv zeta in H. apply result_bind_Ok in H as (p & Hp & H).
  apply ensure_bind_Ok in H as [Hen H]. apply ensure_bind_Ok in H as [Hpol%Z.eqb_eq H].
  apply ensure_bind_Ok in H as [Hh%negb_true_iff%bool_decide_eq_false_1 H].
  apply result_bind_Ok in H as ([] & Hro%routing_Ok & H). apply result_bind_Ok in H as ([a ad] & Ha & H).
  apply result_bind_Ok in H as ([e ed] & He & H). apply ensure_bind_Ok in H as [_ H].
  apply result_bind_Ok in H as ([pt pd] & Hc & H). apply ensure_bind_Ok in H as [Hx H].
  apply Ok_inj in H as [= <- <-]. exists p, ad, ed. split_and!; try done.
  intros E. rewrite bool_decide_eq_true_2 in Hen by done. cbn in Hen.
  by destruct (cf_new_effects_enabled (hf_facts h)).
Qed.

Lemma accept_Ok s i q db x db' :
  accept s i q db = Ok (x, db') →
  ∃ h ctl task assignment latest d, committed i q db x db' h ctl task assignment latest d.
Proof.
  intros H. unfold accept in H. apply result_bind_Ok in H as (p & (ctl & Hctl & Hheld & Hgen & Hpg)%prepare_Ok & H).
  unfold participate in H. apply ensure_bind_Ok in H as [_ H].
  destruct (ensure (acceptance_request_valid q) AcceptValueError ≫= _) as [[x0 db0]|] eqn:E; [|done].
  apply Ok_inj in H as [= -> ->]. apply ensure_bind_Ok in E as [Hv E]. apply ensure_bind_Ok in E as [_ E].
  apply result_bind_Ok in E as (f & ->%held_facts_Ok & E).
  apply participate_inv in E as (pr & ad & ed & Hl & Hpol & Hsrc & Hrt & Hen & Hpe & Ha & Hc & Hexp).
  unfold lock_accepted_effects in Hl. apply ensure_bind_Ok in Hl as [_ Hl].
  apply result_bind_Ok in Hl as ([[p1 task] assignment] & Hr & Hl). apply Ok_inj in Hl. cbn in Hl. subst p1.
  apply rows_Ok in Hr as (latest & Hsel & Hdisp & Hrp & _).
  exists (pp_held p), ctl, task, assignment, latest, (tp_disposition pr).
  apply persist_Ok in Hpe as (Hin & Hcand & Hpe). apply apply_Ok in Ha as (Htr & t2 & a2 & l2 & Hsel2 & _ & Ha).
  apply contribute_Ok in Hc as (c & w & Hec & ->).
  assert (fi_acceptance_source (fq_acceptance q) = task_post_submit_route) as Hroute
    by by destruct (fi_acceptance_source (fq_acceptance q)).
  assert (tp_disposition pr = NEW → joint_lifecycle_new_effects_enabled (db_lifecycle db) ctl = true) as Hlive.
  { intros En. specialize (Hen En). by rewrite Hheld in Hen. }
  split; try done; [congruence|]. destruct (tp_disposition pr).
  - destruct Hpe as (Hfresh & -> & Hck). destruct Ha as (sub & Hsub & _ & Hdec & ->).
    assert (t2 = task) as -> by (destruct Hsel as [E1 _ _ _], Hsel2 as [E2 _ _ _]; unfold lock_project_task in *; cbn in *; congruence).
    assert (a2 = assignment) as ->
      by (destruct Hsel as [_ E1 _ _], Hsel2 as [_ E2 _ _]; unfold lock_accepted_assignment in *; cbn in *; congruence).
    exists sub, c, w. split_and!; try done.
    pose proof (candidates_self i (fq_acceptance q) (db_acceptances db)) as Hx.
    cbn in Hcand. rewrite Hcand in Hx. by apply list_elem_of_singleton in Hx.
  - subst ad ed. exists c, w. split_and!; done.
Qed.

(** ** The books *)

Record acceptances_ok (t : Acceptances) : Prop := {
  ao_keys k a : t !! k = Some a → fi_id (fa_input a) = k;
  ao_checks k a : t !! k = Some a → acceptance_checks a = true;
  ao_unique j k a b : t !! j = Some a → t !! k = Some b → same_key (fa_input a) (fa_input b) = true → j = k;
}.

(** The contribution of an acceptance *)
Definition recognises (a : FinalAcceptance) (c : ContributionRecord) : Prop :=
  cb_contribution_type c = accepted_submission ∧ cb_project_id c = fi_project_id (fa_input a) ∧
  cb_task_id c = fi_task_id (fa_input a) ∧ cb_submission_id c = fi_submission_id (fa_input a) ∧
  cb_contributor_id c = fi_accepted_submitter_id (fa_input a).

(** An award carries the facts of a definition. *)
Definition award_of (d : AwardDefinitionFacts) (a : CompensationAward) : Prop :=
  wd_award_definition_id a = df_id d ∧ wd_instrument_type a = df_instrument_type d ∧
  wd_unit_code a = df_unit_code d ∧ dec_eqb (wd_quantity a) (df_quantity d) = true ∧
  wd_adapter_binding_id a = df_adapter_binding_id d.

(** The stored awards of a contribution are exactly those of the rule that the policy tables
    hold frozen for its policy version: one for each definition, each of another instrument. *)
Definition paid (pol : PolicyTables) (t : Awards) (c : ContributionRecord) : Prop :=
  ∃ rule awards, get_frozen_rule pol (cb_project_id c) (cb_contribution_policy_version_id c) = Ok rule ∧
    of_contribution (cb_id c) t ≡ₚ awards ∧ NoDup (map wd_instrument_type awards) ∧
    Forall2 award_of (fr_definitions rule) awards.

Definition backed (c : ContributionRecord) (a : CompensationAward) : Prop :=
  wd_project_id a = cb_project_id c ∧ wd_contributor_id a = cb_contributor_id c ∧
  wd_contribution_policy_version_id a = cb_contribution_policy_version_id c.

Record books_ok (db : AcceptDb) : Prop := {
  bk_acceptances : acceptances_ok (db_acceptances db);
  bk_contributions : contributions_ok (db_contributions db);
  bk_awards : awards_ok (db_awards db);
  bk_recognised k a : db_acceptances db !! k = Some a →
    ∃ j c, db_contributions db !! j = Some c ∧ cb_source_final_acceptance_id c = Some k ∧
      recognises a c ∧ paid (db_policies db) (db_awards db) c;
  bk_accepted j c k : db_contributions db !! j = Some c → cb_source_final_acceptance_id c = Some k →
    is_Some (db_acceptances db !! k);
  bk_backed k a : db_awards db !! k = Some a →
    ∃ c, db_contributions db !! wd_contribution_record_id a = Some c ∧ backed c a;
}.

Lemma paid_kept pol pol' t t' c :
  terms_kept pol pol' → of_contribution (cb_id c) t' ≡ₚ of_contribution (cb_id c) t →
  paid pol t c → paid pol' t' c.
Proof.
  intros Hk Hp (rule & l & Hr & Hl & H). exists rule, l. split_and!; [by apply Hk|by rewrite Hp|apply H..].
Qed.

(** Awards of distinct instruments, as many as the definitions and each of one of them, are one
    for each definition. *)
Lemma one_per_definition defs awards :
  length awards = length defs → NoDup (map wd_instrument_type awards) →
  (∀ a, a ∈ awards → ∃ d, d ∈ defs ∧ award_of d a) →
  ∃ l, awards ≡ₚ l ∧ Forall2 award_of defs l.
Proof.
  intros Hlen Hn Ha.
  assert (map wd_instrument_type awards ≡ₚ map df_instrument_type defs) as Hp.
  { apply submseteq_length_Permutation; [|rewrite !length_map; lia]. apply NoDup_submseteq; [done|].
    intros t (a & -> & (d & Hd & _ & -> & _)%Ha)%list_elem_of_fmap. by apply list_elem_of_fmap_2. }
  clear Hlen. revert awards Hn Ha Hp. induction defs as [|d defs IH]; intros awards Hn Ha Hp.
  { exists []. cbn in Hp. apply Permutation_nil_r in Hp. apply map_eq_nil in Hp as ->. done. }
  assert (df_instrument_type d ∈ map wd_instrument_type awards) as Hin by (rewrite Hp; left).
  apply list_elem_of_fmap in Hin as (a & Ea & Hin).
  apply elem_of_Permutation in Hin as [rest Hrest]. rewrite Hrest in Hn, Hp. cbn [map] in Hn, Hp.
  rewrite <- Ea in Hp, Hn. apply Permutation_cons_inv in Hp. apply NoDup_cons in Hn as [Hna Hn].
  rewrite Hp in Hna.
  assert (∀ x y, x ∈ defs → award_of x y → wd_instrument_type y ≠ df_instrument_type d) as Hother.
  { intros x y Hx (_ & -> & _) E. apply Hna. rewrite <- E. by apply list_elem_of_fmap_2. }
  destruct (IH rest Hn) as (l & Hl & Hf); [|done|].
  - intros y Hy. destruct (Ha y) as (x & [->|Hx]%elem_of_cons & Hxy); [rewrite Hrest; by right| |by exists x].
    destruct Hna. rewrite <- Hp. destruct Hxy as (_ & <- & _). by apply list_elem_of_fmap_2.
  - exists (a :: l). split; [by rewrite Hrest, Hl|]. constructor; [|done].
    destruct (Ha a) as (x & [->|Hx]%elem_of_cons & Hxa); [rewrite Hrest; by left|done|]. by destruct (Hother x a).
Qed.

Lemma same_key_sym a b : same_key a b = same_key b a.
Proof.
  apply eq_true_iff_eq. unfold same_key. rewrite !orb_true_iff, !andb_true_iff, !Z.eqb_eq, !bool_decide_eq_true.
  intuition congruence.
Qed.

Lemma insert_acceptance_ok t i a :
  acceptances_ok t → (∀ k b, t !! k = Some b → same_key a (fa_input b) = false) →
  acceptance_checks (new_acceptance i a) = true →
  acceptances_ok (<[fi_id a := new_acceptance i a]> t).
Proof.
  intros [Hk Hc Hu] Hf Hck. split.
  - intros k b [[<- <-]|[_ H]]%lookup_insert_Some; [done|by apply Hk].
  - intros k b [[<- <-]|[_ H]]%lookup_insert_Some; [done|by eapply Hc].
  - intros j k b d [[<- <-]|[_ Hb]]%lookup_insert_Some [[<- <-]|[_ Hd]]%lookup_insert_Some E;
      [done| | |by eapply Hu].
    + cbn in E. by rewrite (Hf k d Hd) in E.
    + cbn in E. rewrite same_key_sym in E. by rewrite (Hf j b Hb) in E.
Qed.

Lemma award_exact_of r a d :
  award_exact r a d = true → df_instrument_type d = wd_instrument_type a →
  award_of d a ∧ wd_project_id a = an_project_id (aw_contribution r) ∧
  wd_contributor_id a = an_contributor_id (aw_contribution r) ∧
  wd_contribution_policy_version_id a = an_contribution_policy_version_id (aw_contribution r) ∧
  wd_contribution_record_id a = an_id (aw_contribution r).
Proof.
  unfold award_exact, award_of, str_eqb. rewrite !andb_true_iff, !Z.eqb_eq, bool_decide_eq_true.
  intuition congruence.
Qed.

Lemma facts_fields c f :
  _facts c = Ok f →
  sc_id f = cb_id c ∧ sc_project_id f = cb_project_id c ∧ sc_contributor_id f = cb_contributor_id c ∧
  sc_contribution_policy_version_id f = cb_contribution_policy_version_id c.
Proof.
  unfold _facts. destruct (cb_source_final_acceptance_id c), (cb_source_task_assignment_id c); try done.
  by intros [_ [= <-]]%ensure_bind_Ok.
Qed.

(** What the contribution owner did to its two tables *)
Definition recorded_new (i : AcceptInputs) (q : FinalAcceptanceRequest) (db : AcceptDb)
    (c : Contributions) (w : Awards) : Prop :=
  let row := new_contribution (ai_contribution i) (participation_request q NEW) in
  c = <[cb_id row := row]> (db_contributions db) ∧ db_contributions db !! cb_id row = None ∧
  (∀ k d, db_contributions db !! k = Some d →
     cb_source_final_acceptance_id d ≠ Some (fi_id (fq_acceptance q))) ∧
  paid (db_policies db) w row ∧ (∀ k, k ≠ cb_id row → of_contribution k w ≡ₚ of_contribution k (db_awards db)) ∧
  ∀ k a, w !! k = Some a → db_awards db !! k = Some a ∨ wd_contribution_record_id a = cb_id row ∧ backed row a.

Lemma economics_Ok i h q d db res c w :
  contributions_ok (db_contributions db) → awards_ok (db_awards db) →
  economics i h q d db = Ok (res, c, w) →
  contributions_ok c ∧ awards_ok w ∧
  match d with
  | REPLAY => c = db_contributions db ∧ w = db_awards db
  | NEW => recorded_new i q db c w
  end.
Proof.
  intros Hco Hao (f & rule & _ & _ & Hr & Hd & Hw & _)%participate_Ok.
  apply disposition_Ok in Hd as (Hok & (row & Hrow & Hf & Hm) & Hd); [|done]. apply ask_awards_Ok in Hw as (Hw & _).
  unfold award_port, award_owner in Hw. pose proof (complete_award_set_Ok _ _ _ _ _ Hw) as (_ & _ & _ & _ & Hins).
  apply award_set_facts in Hw as (Hao' & Hl & (Hlen & Hn & Hex) & Hother & _); [|done].
  split_and!; [done..|]. destruct d; [|done]. destruct Hd as (-> & Hfree & Hid & Hnone).
  rewrite Hid, lookup_insert_eq in Hrow. injection Hrow as <-. apply facts_fields in Hf as (E1 & E2 & E3 & E4).
  cbn [award_request aw_contribution an_id an_project_id an_contributor_id an_contribution_policy_version_id
       aw_definitions aw_disposition] in *.
  change (sp_acceptance_disposition (participation_request q NEW)) with NEW in Hins. cbn iota in Hins.
  destruct (insert_awards_Ok _ _ _ Hao Hins) as (_ & _ & _ & Hback & _).
  unfold recorded_new. cbv zeta. cbn [cb_id new_contribution]. split_and!; [done|done|done| | |].
  - assert (of_contribution (ci_new_id (ai_contribution i)) w ≡ₚ pr_awards res) as Hp
      by by rewrite Hl, Hid, stored_awards_perm.
    destruct (one_per_definition (fr_definitions rule) (pr_awards res) Hlen Hn) as (l & Hpl & Hf).
    + intros a Ha. destruct (Hex a Ha) as (d & Hd & Hi & Hx). exists d. split; [done|]. by apply award_exact_of in Hx as [Hx _].
    + exists rule, l. split; [exact Hr|]. cbn [cb_id new_contribution]. split_and!; [by rewrite Hp|by rewrite <- Hpl|done].
  - intros k Hk. rewrite <- !stored_awards_perm. apply Hother. by rewrite Hid.
  - intros k a Ha. apply Hback in Ha as [Ha|Ha]; [by left|right].
    apply new_awards_elem in Ha as (n & d & _ & ->). cbn. split; [done|].
    unfold backed. cbn. by rewrite E2, E3, E4.
Qed.

Lemma new_books i q db c w db' :
  books_ok db → recorded_new i q db c w →
  (∀ k b, db_acceptances db !! k = Some b → same_key (fq_acceptance q) (fa_input b) = false) →
  acceptance_checks (new_acceptance i (fq_acceptance q)) = true → acceptance_request_valid q = true →
  contributions_ok c → awards_ok w → db_contributions db' = c → db_awards db' = w →
  db_policies db' = db_policies db →
  db_acceptances db' = <[fi_id (fq_acceptance q) := new_acceptance i (fq_acceptance q)]> (db_acceptances db) →
  books_ok db'.
Proof.
  intros [B1 B2 B3 B4 B5 B6] (Hc & Hfree & Hnone & Hpaid & Hother & Hback) Hfresh Hck Hv Hco Hao Ec Ew Ep Ea.
  assert (db_acceptances db !! fi_id (fq_acceptance q) = None) as Hna.
  { apply eq_None_not_Some. intros [b Hb]. pose proof (Hfresh _ _ Hb) as Hs.
    unfold same_key in Hs. rewrite (ao_keys _ B1 _ _ Hb), Z.eqb_refl in Hs. done. }
  set (row := new_contribution (ai_contribution i) (participation_request q NEW)) in *.
  split; rewrite ?Ec, ?Ew, ?Ep, ?Ea.
  - by apply insert_acceptance_ok.
  - done.
  - done.
  - intros k a [[<- <-]|[Hne Ha]]%lookup_insert_Some.
    + exists (cb_id row), row. rewrite Hc, lookup_insert_eq. split_and!; [done|done| |done].
      unfold acceptance_request_valid in Hv. cbv zeta in Hv. apply andb_prop in Hv as [_ Hv].
      rewrite negb_true_iff, !orb_false_iff, !negb_false_iff, !Z.eqb_eq in Hv.
      unfold recognises. cbn. split_and!; try done. symmetry. apply Hv.
    + destruct (B4 k a Ha) as (j & r & Hj & Hs & Hrec & Hp). exists j, r.
      assert (j ≠ cb_id row) as Hjn by congruence. rewrite Hc, lookup_insert_ne by done.
      split_and!; [done..|]. eapply paid_kept; [apply terms_kept_refl| |done]. apply Hother. by rewrite (co_keys _ B2 _ _ Hj).
  - intros j r k. rewrite Hc. intros [[<- <-]|[Hne Hr]]%lookup_insert_Some Hs.
    + injection Hs as <-. rewrite lookup_insert_eq. by eexists.
    + rewrite lookup_insert_ne; [by eapply B5|]. intros <-. by eapply Hnone.
  - intros k a Ha. apply Hback in Ha as [Ha|[E Hb]].
    + destruct (B6 k a Ha) as (r & Hr & Hb). exists r. rewrite Hc, lookup_insert_ne by congruence. done.
    + exists row. by rewrite E, Hc, lookup_insert_eq.
Qed.

Lemma set_economics_same db : set_economics (db_contributions db) (db_awards db) db = db.
Proof. by destruct db. Qed.

Lemma accept_books s i q db x db' : books_ok db → accept s i q db = Ok (x, db') → books_ok db'.
Proof.
  intros Hb H. destruct (accept_Ok _ _ _ _ _ _ H) as (h & ctl & task & assignment & latest & d & C).
  pose proof (cm_writes _ _ _ _ _ _ _ _ _ _ _ C) as Hw. destruct d.
  - destruct Hw as (sub & c & w & Hf & Hck & _ & _ & He & _ & _ & ->).
    apply economics_Ok in He as (Hco & Hao & Hr); [|apply Hb..].
    by eapply new_books; [done|done|done|done|apply C|done|done|..].
  - destruct Hw as (c & w & He & _ & ->). apply economics_Ok in He as (_ & _ & -> & ->); [|apply Hb..].
    by rewrite set_economics_same.
Qed.

(** ** Reachable databases *)

(** Any other component: it may change tasks, assignments and submissions at will, move the
    lifecycle, and change policies as long as a rule that is frozen stays as it is; it does not
    write the three tables of the books. *)
Definition elsewhere (db db' : AcceptDb) : Prop :=
  db_acceptances db' = db_acceptances db ∧ db_contributions db' = db_contributions db ∧
  db_awards db' = db_awards db ∧ terms_kept (db_policies db) (db_policies db') ∧
  (db_lifecycle db' = db_lifecycle db ∨ lifecycle_step (db_lifecycle db) (db_lifecycle db')).

Definition accept_step (db db' : AcceptDb) : Prop :=
  (∃ s i q x, accept s i q db = Ok (x, db')) ∨ elsewhere db db'.

Record start (db : AcceptDb) : Prop := {
  sa_acceptances : db_acceptances db = ∅;
  sa_contributions : db_contributions db = ∅;
  sa_awards : db_awards db = ∅;
  sa_lifecycle : ∃ c, genesis_row c ∧ db_lifecycle db = genesis c;
}.

Definition accept_reachable (db : AcceptDb) : Prop := ∃ db0, start db0 ∧ rtc accept_step db0 db.

Lemma accept_lifecycle s i q db x db' :
  accept s i q db = Ok (x, db') → db_lifecycle db' = db_lifecycle db.
Proof.
  intros (h & ctl & task & assignment & latest & d & C)%accept_Ok.
  pose proof (cm_writes _ _ _ _ _ _ _ _ _ _ _ C) as Hw. destruct d.
  - by destruct Hw as (sub & c & w & _ & _ & _ & _ & _ & _ & _ & ->).
  - by destruct Hw as (c & w & _ & _ & ->).
Qed.

Lemma start_books db : start db → books_ok db.
Proof.
  intros [E1 E2 E3 _]. split; rewrite ?E1, ?E2, ?E3.
  - split; intros *; rewrite lookup_empty; done.
  - split; intros *; rewrite lookup_empty; done.
  - split; intros *; rewrite lookup_empty; done.
  - intros *. by rewrite lookup_empty.
  - intros *. by rewrite lookup_empty.
  - intros *. by rewrite lookup_empty.
Qed.

Lemma reachable_books db :
  accept_reachable db → books_ok db ∧ lifecycle_reachable (db_lifecycle db).
Proof.
  intros (db0 & Hs & Hr).
  assert (books_ok db0 ∧ lifecycle_reachable (db_lifecycle db0)) as H0.
  { split; [by apply start_books|]. destruct (sa_lifecycle _ Hs) as (c & Hc & ->). by exists c. }
  clear Hs. induction Hr as [db|db db1 db2 Hstep _ IH]; [done|]. apply IH. destruct H0 as [Hb Hl].
  destruct Hstep as [(s & i & q & x & H)|(E1 & E2 & E3 & Hk & E4)].
  - split; [by eapply accept_books|]. by rewrite (accept_lifecycle _ _ _ _ _ _ H).
  - split.
    { destruct Hb as [B1 B2 B3 B4 B5 B6]. split; rewrite ?E1, ?E2, ?E3; try done. intros k a Ha.
      destruct (B4 k a Ha) as (j & c & Hj & Hs & Hrec & Hp). exists j, c. split_and!; [done..|].
      by eapply paid_kept. }
    destruct E4 as [->|E4]; [done|]. destruct Hl as (c & Hc & Hsteps). exists c. split; [done|].
    by eapply rtc_r.
Qed.

(** C3. The books agree.  In every database that acceptances and any other work on tasks,
    submissions, policies and the lifecycle can reach, when changes of policies keep the rules
    that are frozen (the policy service does, [policy_keeps_terms] of PolicyTerms): a task, a submission and a routing
    manifest are accepted at most once; every acceptance has exactly one contribution, of the
    accepted work's project, task, submission and contributor, and that contribution has exactly
    the awards of the rule that the database's policy tables hold frozen for its policy version,
    one to one with its definitions, with their instruments, units, quantities and bindings; every
    such contribution has its acceptance; and every award belongs to the contributor, project and
    policy of a stored contribution. *)
Theorem books_agree db :
  accept_reachable db → books_ok db.
Proof. intros [H _]%reachable_books. exact H. Qed.

Lemma disposition_new_status q task assignment :
  acceptance_request_valid q = true → fi_acceptance_source (fq_acceptance q) = task_post_submit_route →
  disposition_of (fq_task_effects q) task assignment = Some NEW →
  tk_status task = TS_evaluation_pending ∧ ag_status assignment = lit "active".
Proof.
  intros Hv Hs Hd. unfold acceptance_request_valid in Hv. cbv zeta in Hv. rewrite Hs in Hv.
  change (bool_decide (task_post_submit_route = human_review)) with false in Hv.
  apply andb_prop in Hv as [_ Hv%negb_true_iff]. apply orb_false_iff in Hv as [_ Hv%negb_false_iff].
  apply bool_decide_eq_true_1 in Hv. unfold disposition_of, str_eqb in Hd.
  destruct (_ && _) eqn:E in Hd; [|destruct (_ && _) in Hd; discriminate].
  apply andb_prop in E as [E1%bool_decide_eq_true_1 E2%bool_decide_eq_true_1]. split; [congruence|done].
Qed.

Lemma disposition_replay_status r task assignment :
  disposition_of r task assignment = Some REPLAY → tk_status task = TS_accepted ∧ ag_status assignment = lit "completed".
Proof.
  unfold disposition_of, str_eqb. destruct (bool_decide _ && bool_decide _); [done|].
  destruct (bool_decide _ && bool_decide _) eqn:E; [|done]. intros _.
  by apply andb_prop in E as [E1%bool_decide_eq_true_1 E2%bool_decide_eq_true_1].
Qed.

(** The database after a new acceptance *)
Definition accepted_db (i : AcceptInputs) (q : FinalAcceptanceRequest) (task : WorkstreamTask)
    (assignment : TaskAssignment) (sub : Submission) (c : Contributions) (w : Awards) (db : AcceptDb)
    : AcceptDb :=
  set_economics c w (task_effects i (fq_task_effects q) task assignment sub
    (set_acceptances (<[fi_id (fq_acceptance q) := new_acceptance i (fq_acceptance q)]>
                        (db_acceptances db)) db)).

(** C4. Acceptance is all or nothing.  In a reachable database, a call that succeeds selects the
    task, its assignment and its latest submission with the request's lineage, at the current
    generation.  Either the task was pending evaluation and the lifecycle is live: then the one
    transaction stores the acceptance, accepts the task, completes the assignment, decides the
    submission, and records the contribution with one award for each definition of the rule frozen
    in the policy tables for its version, and changes no other row;
    or the task was accepted before, and nothing changes. *)
Theorem acceptance_all_or_nothing s i q db x db' :
  accept_reachable db → accept s i q db = Ok (x, db') →
  ∃ ctl task assignment latest,
    lc_control (db_lifecycle db) = Some ctl ∧ rc_generation ctl = fq_expected_generation q ∧
    selected (fq_task_effects q) db task assignment latest ∧
    ((rc_phase ctl = LIVE ∧ tk_status task = TS_evaluation_pending ∧ ag_status assignment = lit "active" ∧
      ∃ sub c w, db_submissions db !! te_submission_id (fq_task_effects q) = Some sub ∧
        recorded_new i q db c w ∧ db' = accepted_db i q task assignment sub c w db)
     ∨ (tk_status task = TS_accepted ∧ ag_status assignment = lit "completed" ∧ db' = db)).
Proof.
  intros [Hb Hl]%reachable_books H. apply lifecycle_reachable_ok in Hl as (c0 & Hl).
  destruct (accept_Ok _ _ _ _ _ _ H) as (h & ctl & task & assignment & latest & d & C).
  pose proof (cm_writes _ _ _ _ _ _ _ _ _ _ _ C) as Hw. destruct C as [C1 C2 C3 C4 C5 C6 C7 C8 _ C9 C10 C11 _ _].
  assert (c0 = ctl) as -> by (rewrite (ho_control _ _ Hl) in C1; congruence).
  exists ctl, task, assignment, latest. split_and!; [done..|]. destruct d; [left|right].
  - destruct Hw as (sub & c & w & _ & _ & Hsub & _ & He & _ & _ & ->).
    apply economics_Ok in He as (_ & _ & Hr); [|apply Hb..].
    destruct (disposition_new_status _ _ _ C4 C5 C7) as [Hst Hag]. split_and!; [|done|done|by exists sub, c, w].
    specialize (C9 eq_refl). rewrite (effects_enabled_live _ _ Hl) in C9. by apply bool_decide_eq_true_1 in C9.
  - destruct Hw as (c & w & He & _ & ->). apply economics_Ok in He as (_ & _ & -> & ->); [|apply Hb..].
    destruct (disposition_replay_status _ _ _ C7). split_and!; [done..|]. apply set_economics_same.
Qed.

(** ** Replays *)

(** Keys are identities, and a task has one submission of each version. *)
Record submissions_ok (t : gmap Z Submission) : Prop := {
  su_keys k s : t !! k = Some s → sn_id s = k;
  su_unique j k a b : t !! j = Some a → t !! k = Some b → sn_task_id a = sn_task_id b →
    sn_version a = sn_version b → j = k;
}.

Definition submissions_of (t : gmap Z Submission) (task : uuid) : list Submission :=
  List.filter (λ s, sn_task_id s =? task) (map snd (map_to_list t)).

Lemma submissions_of_elem t task s :
  s ∈ submissions_of t task ↔ sn_task_id s = task ∧ ∃ k, t !! k = Some s.
Proof.
  unfold submissions_of. rewrite list_elem_of_In, filter_In, <- list_elem_of_In, list_elem_of_fmap, Z.eqb_eq.
  split.
  - intros [([k b] & -> & H%elem_of_map_to_list) E]. split; [done|]. by exists k.
  - intros [E [k H]]. split; [|done]. exists (k, s). split; [done|]. by apply elem_of_map_to_list.
Qed.

Lemma latest_spec db task :
  match get_latest_submission_for_task db task with
  | Some l => l ∈ submissions_of (db_submissions db) task ∧
              ∀ s, s ∈ submissions_of (db_submissions db) task → sn_version s ≤ sn_version l
  | None => submissions_of (db_submissions db) task = []
  end.
Proof.
  unfold get_latest_submission_for_task. fold (submissions_of (db_submissions db) task).
  induction (submissions_of (db_submissions db) task) as [|s l IH]; [done|]. cbn [foldr].
  destruct (foldr _ _ l) as [b|].
  - destruct IH as [Hb Hmax]. unfold later. destruct (_ || _) eqn:E.
    + split; [by left|]. intros x [->|Hx]%elem_of_cons; [lia|]. specialize (Hmax x Hx).
      apply orb_prop in E as [E|E]; lia.
    + split; [by right|]. apply orb_false_iff in E as [E1 _].
      intros x [->|Hx]%elem_of_cons; [lia|by apply Hmax].
  - subst l. split; [by left|]. intros x ->%list_elem_of_singleton. lia.
Qed.

(** The decided submission is still the latest one of its task. *)
Lemma latest_decided t sub o decided task l db db' :
  submissions_ok t → t !! sn_id sub = Some sub →
  db_submissions db = t → get_latest_submission_for_task db task = Some l → sn_id l = sn_id sub →
  db_submissions db' = <[sn_id sub := decided_submission o decided sub]> t →
  l = sub ∧ get_latest_submission_for_task db' task = Some (decided_submission o decided sub).
Proof.
  intros [Hk Hu] Hsub E Hl Hid E'. pose proof (latest_spec db task) as Hs. rewrite Hl, E in Hs.
  destruct Hs as [(Htask & k & Hkl)%submissions_of_elem Hmax].
  assert (l = sub) as -> by (rewrite <- (Hk _ _ Hkl), Hid in Hkl; congruence). split; [done|].
  set (sub' := decided_submission o decided sub) in *.
  assert (∀ s, s ∈ submissions_of (db_submissions db') task →
            s = sub' ∨ s ∈ submissions_of t task ∧ sn_version s ≠ sn_version sub) as Hold.
  { intros s (Hst & j & Hj)%submissions_of_elem. rewrite E' in Hj.
    apply lookup_insert_Some in Hj as [[_ <-]|[Hne Hj]]; [by left|right].
    split; [apply submissions_of_elem; split; [done|by exists j]|].
    intros Ev. apply Hne. symmetry. apply (Hu j (sn_id sub) s sub Hj Hsub); [congruence|done]. }
  assert (sub' ∈ submissions_of (db_submissions db') task) as Hin.
  { apply submissions_of_elem. split; [done|]. exists (sn_id sub). rewrite E'. apply lookup_insert_eq. }
  pose proof (latest_spec db' task) as Hs. destruct (get_latest_submission_for_task db' task) as [l'|].
  - destruct Hs as [Hl' Hmax']. destruct (Hold l' Hl') as [->|[Hin' Hne]]; [done|].
    specialize (Hmax l' Hin'). specialize (Hmax' sub' Hin). cbn in Hmax'. lia.
  - rewrite Hs in Hin. by apply not_elem_of_nil in Hin.
Qed.

(** Work that was accepted: what a replay finds in the tables.  None of it mentions the lifecycle. *)
Record settled (q : FinalAcceptanceRequest) (x : FinalAcceptanceResult) (db : AcceptDb)
    (task : WorkstreamTask) (assignment : TaskAssignment) (latest : Submission) : Prop := {
  sd_valid : acceptance_request_valid q = true;
  sd_source : fi_acceptance_source (fq_acceptance q) = task_post_submit_route;
  sd_rows : selected (fq_task_effects q) db task assignment latest;
  sd_status : tk_status task = TS_accepted ∧ ag_status assignment = lit "completed";
  sd_policy : tk_locked_review_policy_id task = Some (fi_policy_context_ref (fq_acceptance q));
  sd_routed : routed q db;
  sd_acceptance : candidates (fq_acceptance q) (db_acceptances db) = [fx_acceptance x];
  sd_input : fa_input (fx_acceptance x) = fq_acceptance q;
  sd_effects : tr_request (fx_task_effects x) = fq_task_effects q;
  sd_expected : contribution_expected q (pr_contribution (fx_participation x)) = true;
  sd_participation j aj acq f g :
    wi_in_transaction aj = true → wi_in_nested_transaction aj = false →
    0 ≤ g ≤ max_generation → acq g = Ok f →
    participate_submitter (H := award_owner aj) j acq (db_policies db)
      (replayed (participation_request q REPLAY) g) (db_contributions db) (db_awards db)
    = Ok (fx_participation x, db_contributions db, db_awards db);
}.

Definition set_lifecycle (lc : LifecycleDb) (db : AcceptDb) : AcceptDb :=
  {| db_lifecycle := lc; db_tasks := db_tasks db; db_assignments := db_assignments db;
     db_submissions := db_submissions db; db_policies := db_policies db; db_routing := db_routing db;
     db_acceptances := db_acceptances db; db_contributions := db_contributions db;
     db_awards := db_awards db |}.

Definition at_generation (g : Z) (q : FinalAcceptanceRequest) : FinalAcceptanceRequest :=
  {| fq_acceptance := fq_acceptance q; fq_task_effects := fq_task_effects q;
     fq_correlation_id := fq_correlation_id q; fq_expected_generation := g |}.

Lemma settled_lifecycle q x db task assignment latest lc :
  settled q x db task assignment latest → settled q x (set_lifecycle lc db) task assignment latest.
Proof. intros [H1 H2 [R1 R2 R3 R4] H4 H5 H6 H7 H8 H9 H10 H11]. split; done. Qed.

Lemma lineage_latest r task assignment latest :
  lineage_ok r task assignment latest = true → sn_id latest = te_submission_id r.
Proof. unfold lineage_ok. rewrite !andb_true_iff, !Z.eqb_eq. tauto. Qed.

(** The rows of a new acceptance are found again. *)
Lemma selected_again i q db task assignment latest sub c w :
  submissions_ok (db_submissions db) → selected (fq_task_effects q) db task assignment latest →
  db_submissions db !! te_submission_id (fq_task_effects q) = Some sub →
  selected (fq_task_effects q) (accepted_db i q task assignment sub c w db) (accepted_task task)
    (completed_assignment assignment) (decided_submission AT_accepted (ai_decided_at i) sub).
Proof.
  intros Hs [R1 R2 R3 R4] Hsub. set (r := fq_task_effects q) in *. pose proof (su_keys _ Hs _ _ Hsub) as Hk.
  destruct (latest_decided (db_submissions db) sub AT_accepted (ai_decided_at i) (te_task_id r) latest db
    (accepted_db i q task assignment sub c w db)) as [-> Hl];
    [done|by rewrite Hk|done|done|by rewrite (lineage_latest _ _ _ _ R4)|by rewrite Hk|].
  split; [| |exact Hl|exact R4].
  - unfold lock_project_task in *. cbn. fold r. rewrite lookup_insert_eq.
    destruct (db_tasks db !! te_task_id r) as [t|]; [|done]. destruct (_ =? _) eqn:E; [|done].
    injection R1 as <-. cbn. by rewrite E.
  - unfold lock_accepted_assignment in *. cbn. fold r. rewrite lookup_insert_eq.
    destruct (db_assignments db !! te_assignment_id r) as [t|]; [|done]. destruct (_ && _) eqn:E; [|done].
    injection R2 as <-. cbn. by rewrite E.
Qed.

Lemma economics_replays i h q d db res c w j aj acq f g :
  contributions_ok (db_contributions db) → economics i h q d db = Ok (res, c, w) →
  wi_in_transaction aj = true → wi_in_nested_transaction aj = false →
  0 ≤ g ≤ max_generation → acq g = Ok f →
  participate_submitter (H := award_owner aj) j acq (db_policies db)
    (replayed (participation_request q REPLAY) g) c w = Ok (res, c, w).
Proof.
  intros Hb He Ht Hn Hg Hf.
  exact (participation_replays (ai_contribution i) j (ai_awards i) aj
    (λ g, (held_acquire (ai_contribute i) g h).2) acq f (db_policies db) (participation_request q d)
    _ _ _ _ _ g Hb He Ht Hn Hg Hf).
Qed.

Lemma accept_settled s i q db x db' :
  books_ok db → submissions_ok (db_submissions db) → accept s i q db = Ok (x, db') →
  ∃ task assignment latest, settled q x db' task assignment latest.
Proof.
  intros Hb Hs H. destruct (accept_Ok _ _ _ _ _ _ H) as (h & ctl & task & assignment & latest & d & C).
  pose proof (cm_writes _ _ _ _ _ _ _ _ _ _ _ C) as Hw. destruct C as [C1 C2 C3 C4 C5 C6 C7 C8 Crt C9 C10 C11 C12 _].
  destruct d.
  - destruct Hw as (sub & c & w & _ & _ & Hsub & _ & He & Ha & Hc & ->).
    exists (accepted_task task), (completed_assignment assignment),
      (decided_submission AT_accepted (ai_decided_at i) sub).
    split; [done|done|by apply selected_again with latest|done|done|exact Crt|done|done|done|done|].
    intros j aj acq f g. exact (economics_replays i h q NEW db _ c w j aj acq f g (bk_contributions _ Hb) He).
  - destruct Hw as (c & w & He & Hc & ->).
    pose proof (economics_Ok _ _ _ _ _ _ _ _ (bk_contributions _ Hb) (bk_awards _ Hb) He) as (_ & _ & -> & ->).
    rewrite set_economics_same. exists task, assignment, latest. apply disposition_replay_status in C7.
    split; [done..|]. intros j aj acq f g. exact (economics_replays i h q REPLAY db _ _ _ j aj acq f g (bk_contributions _ Hb) He).
Qed.

(** A caller whose every step runs in one root transaction *)
Record replay_ready (s : Session) (j : AcceptInputs) : Prop := {
  ry_root : session_root s = true;
  ry_enter : session_root (ai_enter j) = true ∧ ss_transaction (ai_enter j) = ss_transaction s;
  ry_lock : session_root (ai_lock j) = true ∧ ss_transaction (ai_lock j) = ss_transaction s;
  ry_apply : session_root (ai_apply j) = true ∧ ss_transaction (ai_apply j) = ss_transaction s;
  ry_contribute : session_root (ai_contribute j) = true ∧ ss_transaction (ai_contribute j) = ss_transaction s;
  ry_awards : wi_in_transaction (ai_awards j) = true ∧ wi_in_nested_transaction (ai_awards j) = false;
}.

Lemma held_acquire_root s g h :
  session_root s = true → ss_transaction s = hf_transaction h → hf_closed h = false →
  cf_generation (hf_facts h) = g → held_acquire s g h = (h, Ok (hf_facts h)).
Proof.
  intros Hs Ht Hc <-. unfold session_root in Hs. rewrite !andb_true_iff, !negb_true_iff in Hs.
  destruct Hs as [[[[H1 H2] H3] H4] H5]. apply bool_decide_eq_true_1 in H1. unfold held_acquire.
  rewrite Hc, Z.eqb_refl, H2, H3, H4, <- Ht, bool_decide_eq_true_2, bool_decide_eq_false_2 by done.
  by destruct (ss_export s).
Qed.

Lemma hold_root s lc c :
  session_root s = true → history_ok lc c →
  hold s (rc_generation c) lc
  = Ok {| hf_transaction := ss_transaction s; hf_facts := control_facts lc c; hf_closed := false |}.
Proof.
  intros Hs Hok. unfold hold, acquire. pose proof (ho_checks _ _ Hok) as Hc. unfold control_checks in Hc.
  rewrite !andb_true_iff in Hc. destruct Hc as [[[_ H1] H2] _]. rewrite H1, H2. run.
  rewrite (lock_controller_root _ _ _ Hs Hok). run. cbn [cf_generation control_facts]. by rewrite Z.eqb_refl.
Qed.

Lemma rows_settled s h q x db task assignment latest g :
  settled q x db task assignment latest →
  (held_acquire s g h).2 = Ok (hf_facts h) →
  _lock_and_validate_rows s h (fq_task_effects q) g db
  = Ok ({| tp_disposition := REPLAY; tp_locked_review_policy_id := fi_policy_context_ref (fq_acceptance q) |},
        task, assignment).
Proof.
  intros [S1 S2 [R1 R2 R3 R4] [S4 S4'] S5 _ _ _ _ _ _] Ha. unfold _lock_and_validate_rows, held_facts. rewrite Ha. run.
  rewrite R1, R2, R3. run. rewrite R4. run.
  assert (disposition_of (fq_task_effects q) task assignment = Some REPLAY) as ->.
  { unfold disposition_of, str_eqb. rewrite S4, S4'. unfold acceptance_request_valid in S1. cbv zeta in S1.
    rewrite S2 in S1. apply andb_prop in S1 as [_ S1%negb_true_iff].
    apply orb_false_iff in S1 as [_ S1%negb_false_iff%bool_decide_eq_true_1]. rewrite S1. done. }
  run. by rewrite S5.
Qed.

Lemma settled_valid q g :
  acceptance_request_valid q = true → 0 ≤ g ≤ max_generation →
  acceptance_request_valid (at_generation g q) = true ∧ effects_request_valid (fq_task_effects q) = true.
Proof.
  unfold acceptance_request_valid. cbn. rewrite !andb_true_iff, !Z.leb_le. tauto.
Qed.

Lemma participate_settled j h q x db task assignment latest c :
  let g := rc_generation c in
  lc_control (db_lifecycle db) = Some c → rc_singleton c = true →
  settled q x db task assignment latest → 0 ≤ g ≤ max_generation →
  (held_acquire (ai_lock j) g h).2 = Ok (hf_facts h) → (held_acquire (ai_apply j) g h).2 = Ok (hf_facts h) →
  (held_acquire (ai_contribute j) g h).2 = Ok (hf_facts h) →
  wi_in_transaction (ai_awards j) = true → wi_in_nested_transaction (ai_awards j) = false →
  _participate j h (at_generation g q) (hf_facts h) db = Ok (x, db).
Proof.
  intros g Hctl Hsi S Hg Hl Ha Hc Ht Hn. destruct (settled_valid q g (sd_valid _ _ _ _ _ _ S) Hg) as [Hv He].
  unfold _participate, lock_accepted_effects. cbn [at_generation fq_acceptance fq_task_effects fq_expected_generation].
  rewrite He, (rows_settled _ _ _ _ _ _ _ _ _ S Hl). run. cbn [tp_disposition tp_locked_review_policy_id].
  change (bool_decide (REPLAY = NEW)) with false. rewrite Z.eqb_refl, (sd_source _ _ _ _ _ _ S). run.
  change (bool_decide (task_post_submit_route = human_review)) with false. run.
  pose proof (routing_replays q db c He (sd_routed _ _ _ _ _ _ S) Hctl Hsi) as Hr. fold g in Hr. rewrite Hr. run. unfold persist. change (bool_decide (REPLAY = NEW)) with false. run.
  rewrite (sd_acceptance _ _ _ _ _ _ S), bool_decide_eq_true_2 by apply S. run.
  unfold apply_accepted_effects. rewrite He, (rows_settled _ _ _ _ _ _ _ _ _ S Ha). run. cbn [tp_disposition].
  change (bool_decide (REPLAY = REPLAY)) with true. change (bool_decide (REPLAY = NEW)) with false. run. cbn [tr_request].
  rewrite bool_decide_eq_true_2 by done. run. unfold contribute.
  change (participation_request (at_generation g q) REPLAY) with (replayed (participation_request q REPLAY) g).
  rewrite (sd_participation _ _ _ _ _ _ S (ai_contribution j) (ai_awards j)
    (λ g, (held_acquire (ai_contribute j) g h).2) (hf_facts h) g Ht Hn Hg Hc). run.
  change (contribution_expected (at_generation g q)) with (contribution_expected q).
  rewrite (sd_expected _ _ _ _ _ _ S), set_economics_same. run.
  destruct x as [x1 [x2] x3]. pose proof (sd_effects _ _ _ _ _ _ S) as E. cbn in *. by rewrite E.
Qed.

(** C23. Acceptance is idempotent across lifecycle changes.  In a reachable database whose
    submissions have distinct ids and versions (the table's keys), after an acceptance succeeded
    and whatever the controller's phase and generation have become since (draining and disabled
    included), the same request at the current generation returns the same acceptance, task
    effects, contribution and awards, and changes nothing, for a caller whose steps all run in one
    root transaction without savepoints.  The schema's routing predicate is part of the call: it
    finds the manifest and its authorization again and asks a replay for the current generation
    only. *)
Theorem acceptance_replays s i q db x db' lc ctl s' j :
  accept_reachable db → submissions_ok (db_submissions db) → accept s i q db = Ok (x, db') →
  rtc lifecycle_step (db_lifecycle db') lc → lc_control lc = Some ctl →
  replay_ready s' j →
  accept s' j (at_generation (rc_generation ctl) q) (set_lifecycle lc db') = Ok (x, set_lifecycle lc db').
Proof.
  intros [Hb Hl]%reachable_books Hs H Hsteps Hctl [Y1 [Y2 Y2'] [Y3 Y3'] [Y4 Y4'] [Y5 Y5'] [Y6 Y6']].
  apply lifecycle_reachable_ok in Hl as (c0 & Hok). rewrite <- (accept_lifecycle _ _ _ _ _ _ H) in Hok.
  destruct (steps_ok _ _ _ Hsteps Hok) as (c & Hok' & _).
  assert (c = ctl) as -> by (rewrite (ho_control _ _ Hok') in Hctl; congruence).
  destruct (accept_settled _ _ _ _ _ _ Hb Hs H) as (task & assignment & latest & S).
  apply (settled_lifecycle _ _ _ _ _ _ lc) in S. set (g := rc_generation ctl) in *.
  assert (0 ≤ g ≤ max_generation ∧ rc_singleton ctl = true) as [Hg Hsi].
  { pose proof (ho_checks _ _ Hok') as Hc. unfold control_checks in Hc. rewrite !andb_true_iff in Hc. split; [lia|tauto]. }
  unfold accept, prepare. cbn [at_generation fq_expected_generation db_lifecycle set_lifecycle].
  pose proof (hold_root s' lc ctl Y1 Hok') as Hold. fold g in Hold. rewrite Hold. run. set (h := {| hf_transaction := _ |}).
  assert (∀ t, session_root t = true → ss_transaction t = ss_transaction s' →
    held_acquire t g h = (h, Ok (hf_facts h))) as Hh by (intros; by apply held_acquire_root).
  unfold participate. cbn [pp_closed pp_generation pp_held at_generation fq_expected_generation]. run.
  fold (at_generation g q). destruct (settled_valid q g (sd_valid _ _ _ _ _ _ S) Hg) as [-> _]. run.
  rewrite Z.eqb_refl. run. unfold held_facts. rewrite Hh by done. run.
  pose proof (participate_settled j h q x (set_lifecycle lc db') _ _ _ ctl Hctl Hsi S) as Hp.
  cbv zeta in Hp. fold g in Hp. rewrite Hp; rewrite ?Hh by done; done.
Qed.
