(* ===== verification/AcceptanceRun.v ===== *)
(** * A run of the acceptance transaction

    A concrete history: the controller is moved from genesis to live, a routed submission of a
    task with two award definitions is accepted, the controller drains, and the acceptance is
    replayed.  Every operation is evaluated; the theorems about the lifecycle, the awards, the
    contributions and the acceptance are applied to the states of the run. *)

From stdpp Require Import relations.
From S2P Require Import Prelude Text Digest Json Instant Lifecycle Awards Contributions Acceptance.
From S2P Require Import AcceptanceGuarantees.

(** ** The lifecycle *)

Definition root_session : Session :=
  {| ss_transaction := Some 7; ss_active := true; ss_nested := false; ss_connection_nested := false;
     ss_export := Exported |}.

Definition open_authority (decision : uuid) : LifecycleAuthority :=
  {| au_lock _ := true;
     au_consume_new f := Some {| la_decision_event_id := decision;
                                 la_resource_context_digest := lf_observations_digest f |};
     au_validate_replay _ _ := true |}.

Definition run_transition (n : Z) : TransitionInputs :=
  {| ti_session := root_session; ti_authority := open_authority (rid (n + 1)); ti_now := 100 * n;
     ti_new_id := rid n; ti_created_at := 100 * n + 1; ti_retained_acceptance := false;
     ti_admits _ _ := true |}.

Definition run_command (n g : Z) (current target : JointLifecyclePhase) : LifecycleTransitionCommand :=
  {| lt_operation_id := rid (n + 2); lt_singleton_id := rid 0; lt_actor_profile_id := rid 1;
     lt_identity_link_id := rid 2; lt_expected_generation := g; lt_current_phase := current;
     lt_target_phase := target; lt_reviewed_manifest_digest := _NEW_MANIFEST;
     lt_deadline := 100 * n + 50; lt_reason := lit "release" |}.

Definition genesis_control : JointLifecycleReleaseControl :=
  {| rc_id := rid 0; rc_singleton := true; rc_phase := DISABLED; rc_generation := 0;
     rc_created_at := 0; rc_transition_id := None |}.

Definition moved_to (n g : Z) (current target : JointLifecyclePhase) (db : LifecycleDb)
    : result LifecycleExn (LifecycleTransitionReceipt * LifecycleDb) :=
  transition (run_transition n) (run_command n g current target) db.

Definition lc0 : LifecycleDb := genesis genesis_control.
Definition lc1 : LifecycleDb := Eval vm_compute in state_of (moved_to 10 0 DISABLED SHADOW lc0) lc0.
Definition lc2 : LifecycleDb := Eval vm_compute in state_of (moved_to 20 1 SHADOW LIVE lc1) lc1.
Definition lc3 : LifecycleDb := Eval vm_compute in state_of (moved_to 30 2 LIVE DRAINING lc2) lc2.

Lemma step_to n g current target db db' :
  is_ok (moved_to n g current target db) = true → state_of (moved_to n g current target db) db = db' →
  lifecycle_step db db'.
Proof.
  intros [r H]%(state_of_Ok _ db) <-. by exists (run_transition n), (run_command n g current target), r.
Qed.

Lemma step01 : lifecycle_step lc0 lc1.
Proof. apply (step_to 10 0 DISABLED SHADOW); vm_compute; reflexivity. Qed.
Lemma step12 : lifecycle_step lc1 lc2.
Proof. apply (step_to 20 1 SHADOW LIVE); vm_compute; reflexivity. Qed.
Lemma step23 : lifecycle_step lc2 lc3.
Proof. apply (step_to 30 2 LIVE DRAINING); vm_compute; reflexivity. Qed.

Lemma genesis_control_row : genesis_row genesis_control.
Proof. by vm_compute. Qed.

Lemma lc3_reachable : lifecycle_reachable lc3.
Proof.
  exists genesis_control. split; [exact genesis_control_row|].
  eapply rtc_l; [exact step01|]. eapply rtc_l; [exact step12|]. eapply rtc_l; [exact step23|]. reflexivity.
Qed.

Lemma lc1_reachable : lifecycle_reachable lc1.
Proof. exists genesis_control. split; [exact genesis_control_row|]. apply rtc_once, step01. Qed.

(** The theorem at the drained controller: three rows, and no new effects *)
Lemma lifecycle_history_witness :
  lifecycle_reachable lc3 ∧
  ∃ c, history_ok lc3 c ∧ joint_lifecycle_new_effects_enabled lc3 c = bool_decide (rc_phase c = LIVE).
Proof. split; [exact lc3_reachable|]. apply (lifecycle_history lc3). exact lc3_reachable. Defined.

(** The transition to live, replayed after draining *)
Lemma transition_replays_witness :
  ∃ r, moved_to 20 1 SHADOW LIVE lc1 = Ok (r, lc2) ∧ moved_to 20 1 SHADOW LIVE lc3 = Ok (r, lc3).
Proof.
  destruct (state_of_Ok (moved_to 20 1 SHADOW LIVE lc1) lc1) as [r H]; [vm_compute; reflexivity|].
  replace (state_of (moved_to 20 1 SHADOW LIVE lc1) lc1) with lc2 in H by (vm_compute; reflexivity).
  exists r. split; [exact H|].
  apply (transition_replays lc1 (run_transition 20) (run_command 20 1 SHADOW LIVE) r lc2 lc3);
    [exact lc1_reachable|exact H|apply rtc_once, step23|reflexivity|reflexivity|reflexivity].
Defined.

(** ** The acceptance *)

Definition run_hash : str := _NEW_MANIFEST.

(** Twelve points and two and a half units of money for accepted work *)
Definition run_definition (n : Z) (t : CompensationInstrumentType) (code : string) (q : Decimal)
    : ContributionAwardDefinition :=
  {| dr_facts := {| df_id := rid n; df_project_id := rid 100; df_contribution_policy_version_id := rid 101;
                    df_instrument_type := t; df_unit_code := lit code; df_quantity := q;
                    df_adapter_binding_id := rid 103 |};
     dr_contribution_rule_id := rid 102; dr_contribution_type := accepted_submission |}.

Definition run_policies : PolicyTables :=
  {| pt_versions := [{| pv_id := rid 101; pv_contribution_policy_id := rid 99; pv_project_id := rid 100;
                        pv_version_number := 1; pv_status := published; pv_created_by := rid 98;
                        pv_created_at := 0; pv_published_by := Some (rid 98); pv_published_at := Some 1;
                        pv_retired_by := None; pv_retired_at := None; pv_last_updated_by := None;
                        pv_last_updated_at := None; pv_last_transition_operation_id := Some (rid 97) |}];
     pt_rules := [{| ru_id := rid 102; ru_contribution_policy_version_id := rid 101;
                     ru_project_id := rid 100; ru_contribution_type := accepted_submission;
                     ru_compensation_mode := COMPENSATED |}];
     pt_definitions := [run_definition 104 PROJECT_POINTS "points" {| dc_units := 12; dc_scale := 0 |};
                        run_definition 105 MONEY "EUR" {| dc_units := 250; dc_scale := 2 |}] |}.

Definition run_task : WorkstreamTask :=
  {| tk_id := rid 110; tk_project_id := rid 100;
     tk_locked_contribution_policy_version_id := Some (rid 101);
     tk_locked_review_policy_id := Some (rid 106); tk_status := TS_evaluation_pending;
     tk_assigned_to := Some (rid 111) |}.

Definition run_assignment : TaskAssignment :=
  {| ag_id := rid 112; ag_project_id := rid 100;
     ag_submitter_contribution_policy_version_id := rid 101; ag_task_id := rid 110;
     ag_contributor_id := rid 111; ag_accepted_at := Some 5; ag_released_at := None;
     ag_status := lit "active" |}.

Definition run_submission (n version : Z) : Submission :=
  {| sn_id := rid n; sn_contribution_policy_version_id := rid 101; sn_task_assignment_id := rid 112;
     sn_artifact_content_id := Some (rid 115); sn_task_id := rid 110; sn_contributor_id := rid 111;
     sn_version := version; sn_submitted_at := 10 + version; sn_status := lit "submitted";
     sn_attempt_status := AT_evaluation_pending; sn_decided_at := None;
     sn_locked_review_policy_id := rid 106 |}.

(** The manifest that routed the submission to acceptance, and its authorization *)
Definition run_routing : RoutingTables :=
  {| rg_manifests := {[rid 121 := {| rm_project_id := rid 100; rm_task_id := rid 110;
       rm_submission_id := rid 114; rm_content_sha256 := run_hash;
       rm_routing_recommendation := lit "allow_review"; rm_human_review_required := false;
       rm_final_acceptance_id := Some (rid 120); rm_authorized_lifecycle_generation := Some 2;
       rm_authorization_decision_id := rid 123; rm_router_actor_id := rid 122;
       rm_router_identity_link_id := rid 125; rm_locked_review_policy_id := Some (uuid_text (rid 106));
       rm_route_operation_id := Some (uuid_text (rid 126)); rm_resource_digest := run_hash |}]};
     rg_audit := {[rid 123 := {| av_actor_id := uuid_text (rid 122);
       av_actor_ref_kind := Some (lit "actor_profile"); av_event_domain := lit "authority";
       av_event_type := lit "SensitiveAuthorizationAllowed";
       av_action_id := Some (lit "task.post_submit.route");
       av_permission_id := Some (lit "task.post_submit.route"); av_denial_code := None;
       av_matched_grant_id := None; av_project_id := Some (rid 100);
       av_resource_type := Some (lit "task_post_submit_routing_manifest");
       av_resource_id := Some (uuid_text (rid 121)); av_target_ref_kind := Some (lit "project");
       av_target_ref_id := Some (uuid_text (rid 100)); av_request_id := Some (rid 126);
       av_correlation_id := Some (rid 126); av_idempotency_reference := None;
       av_after_facts := Some (JObj [kv "resource_context_digest" (JStr run_hash);
                                     kv "allowed" (JBool true)]) |}]};
     rg_profiles := {[rid 122 := {| rp_actor_kind := lit "service";
       rp_service_identity := Some (lit "workstream.task.post_submit_router") |}]};
     rg_links := {[rid 125 := {| rk_actor_profile_id := rid 122; rk_subject_kind := lit "service" |}]} |}.

Definition run_db (lc : LifecycleDb) : AcceptDb :=
  {| db_lifecycle := lc; db_tasks := {[rid 110 := run_task]};
     db_assignments := {[rid 112 := run_assignment]};
     db_submissions := {[rid 113 := run_submission 113 1; rid 114 := run_submission 114 2]};
     db_policies := run_policies; db_routing := run_routing; db_acceptances := ∅; db_contributions := ∅; db_awards := ∅ |}.

Definition run_request : FinalAcceptanceRequest :=
  {| fq_acceptance := {| fi_id := rid 120; fi_project_id := rid 100; fi_task_id := rid 110;
                         fi_submission_id := rid 114; fi_acceptance_source := task_post_submit_route;
                         fi_source_review_id := None; fi_source_routing_manifest_id := Some (rid 121);
                         fi_accepted_submitter_id := rid 111; fi_recorded_by := rid 122;
                         fi_policy_context_ref := rid 106;
                         fi_source_authorization_decision_id := rid 123 |};
     fq_task_effects := {| te_project_id := rid 100; te_task_id := rid 110; te_assignment_id := rid 112;
                           te_submission_id := rid 114; te_submission_version := 2;
                           te_contributor_id := rid 111; te_contribution_policy_version_id := rid 101;
                           te_content_id := rid 115; te_content_sha256 := run_hash;
                           te_final_acceptance_id := rid 120;
                           te_expected_task_status := TS_evaluation_pending |};
     fq_correlation_id := rid 124; fq_expected_generation := 2 |}.

Definition run_contribution_inputs : ContributionInputs :=
  {| ci_new_id := rid 130; ci_created_at := 4000; ci_admits _ _ := true |}.

Definition run_award_inputs : AwardInputs :=
  {| wi_in_transaction := true; wi_in_nested_transaction := false;
     wi_new k := (rid (140 + Z.of_nat k), 4001); wi_admits _ _ := true |}.

Definition run_inputs : AcceptInputs :=
  {| ai_enter := root_session; ai_lock := root_session; ai_apply := root_session;
     ai_contribute := root_session; ai_accepted_at := 4000; ai_decided_at := Some 4000;
     ai_contribution := run_contribution_inputs; ai_awards := run_award_inputs;
     ai_admits _ _ := true |}.

Definition first_acceptance : result AcceptExn (FinalAcceptanceResult * AcceptDb) :=
  accept root_session run_inputs run_request (run_db lc2).

Definition accepted : AcceptDb := state_of first_acceptance (run_db lc2).

(** One acceptance, one contribution and two awards are stored, the submission is decided, and
    the contributor is paid what the definitions say. *)
Example acceptance_run :
  is_ok first_acceptance = true ∧
  map (λ kv, wd_quantity kv.2) (map_to_list (db_awards accepted))
  ≡ₚ [{| dc_units := 12; dc_scale := 0 |}; {| dc_units := 250; dc_scale := 2 |}] ∧
  (size (db_acceptances accepted), size (db_contributions accepted)) = (1%nat, 1%nat) ∧
  tk_status <$> db_tasks accepted !! rid 110 = Some TS_accepted ∧
  sn_attempt_status <$> db_submissions accepted !! rid 114 = Some AT_accepted ∧
  sn_attempt_status <$> db_submissions accepted !! rid 113 = Some AT_evaluation_pending.
Proof.
  split_and!; [vm_compute; reflexivity| |vm_compute; reflexivity..]. vm_compute. repeat constructor.
Qed.

Lemma start_run : start (run_db lc0).
Proof. split; [done..|]. exists genesis_control. split; [exact genesis_control_row|done]. Qed.

Lemma moved_elsewhere lc lc' : lifecycle_step lc lc' → accept_step (run_db lc) (run_db lc').
Proof. intros H. right. split_and!; [done..|apply terms_kept_refl|by right]. Qed.

Lemma live_reachable : accept_reachable (run_db lc2).
Proof.
  exists (run_db lc0). split; [exact start_run|].
  eapply rtc_l; [apply moved_elsewhere, step01|]. apply rtc_once, moved_elsewhere, step12.
Qed.

Lemma accepted_Ok : ∃ x, first_acceptance = Ok (x, accepted).
Proof. apply state_of_Ok. vm_compute. reflexivity. Qed.

Lemma accepted_reachable : accept_reachable accepted.
Proof.
  destruct live_reachable as (db & Hs & Hr). destruct accepted_Ok as [x Hx]. exists db. split; [done|].
  eapply rtc_r; [exact Hr|]. left. by exists root_session, run_inputs, run_request, x.
Qed.

Lemma run_submissions_ok lc : submissions_ok (db_submissions (run_db lc)).
Proof.
  split; cbn -[rid run_submission].
  - intros k s. rewrite lookup_insert_Some, lookup_singleton_Some. by intros [[<- <-]|[_ [<- <-]]].
  - intros j k a b. rewrite !lookup_insert_Some, !lookup_singleton_Some.
    by intros [[<- <-]|[_ [<- <-]]] [[<- <-]|[_ [<- <-]]].
Qed.

(** The books after the run *)
Lemma books_agree_witness : accept_reachable accepted ∧ books_ok accepted.
Proof. split; [exact accepted_reachable|]. apply (books_agree accepted). exact accepted_reachable. Defined.

(** The acceptance of the run is a new one, and stores everything it should. *)
Lemma acceptance_all_or_nothing_witness :
  ∃ x, first_acceptance = Ok (x, accepted) ∧
  ∃ ctl task assignment latest,
    lc_control lc2 = Some ctl ∧ rc_generation ctl = 2 ∧
    selected (fq_task_effects run_request) (run_db lc2) task assignment latest ∧
    ((rc_phase ctl = LIVE ∧ tk_status task = TS_evaluation_pending ∧ ag_status assignment = lit "active" ∧
      ∃ sub c w, db_submissions (run_db lc2) !! rid 114 = Some sub ∧
        recorded_new run_inputs run_request (run_db lc2) c w ∧
        accepted = accepted_db run_inputs run_request task assignment sub c w (run_db lc2))
     ∨ (tk_status task = TS_accepted ∧ ag_status assignment = lit "completed" ∧ accepted = run_db lc2)).
Proof.
  destruct accepted_Ok as [x Hx]. exists x. split; [exact Hx|].
  apply (acceptance_all_or_nothing root_session run_inputs run_request (run_db lc2) x accepted);
    [exact live_reachable|exact Hx].
Defined.

(** The acceptance, replayed in the draining phase *)
Lemma acceptance_replays_witness :
  ∃ x, first_acceptance = Ok (x, accepted) ∧
    accept root_session run_inputs (at_generation 3 run_request) (set_lifecycle lc3 accepted)
    = Ok (x, set_lifecycle lc3 accepted).
Proof.
  destruct accepted_Ok as [x Hx]. exists x. split; [exact Hx|].
  assert (db_lifecycle accepted = lc2) as El by (vm_compute; reflexivity).
  assert (rc_generation <$> lc_control lc3 = Some 3) as Hg by (vm_compute; reflexivity).
  apply fmap_Some in Hg as (ctl & Hc & Hg).
  rewrite Hg. apply (acceptance_replays root_session run_inputs run_request (run_db lc2) x accepted lc3 ctl);
    [exact live_reachable|apply run_submissions_ok|exact Hx|rewrite El; apply rtc_once, step23|exact Hc|].
  split; split_and?; done.
Defined.

(** ** Its participants *)

Definition run_award_request : CompleteAwardSetRequest :=
  {| aw_disposition := NEW; aw_compensation_mode := COMPENSATED;
     aw_contribution := {| an_id := rid 130; an_project_id := rid 100; an_contributor_id := rid 111;
                           an_contribution_policy_version_id := rid 101 |};
     aw_definitions := map dr_facts (pt_definitions run_policies); aw_correlation_id := rid 124 |}.

Definition run_awards : result AwardExn (list CompensationAward * Awards) :=
  complete_award_set run_award_inputs run_award_request ∅.

(** Two awards on an empty table *)
Lemma award_set_exact_witness :
  ∃ l, run_awards = Ok (l, state_of run_awards ∅) ∧ exact_set run_award_request l.
Proof.
  assert (awards_ok ∅) as H0 by (split; intros *; rewrite lookup_empty; done).
  destruct (state_of_Ok run_awards ∅) as [l Hl]; [vm_compute; reflexivity|]. exists l. split; [exact Hl|].
  exact (proj1 (proj2 (proj2 (award_set_exact run_award_inputs run_award_request ∅ l _ H0 Hl)))).
Defined.

Definition run_participation :
    result ContributionExn (SubmitterParticipationResult * Contributions * Awards) :=
  participate_submitter (H := award_owner run_award_inputs) run_contribution_inputs
    (λ g, acquire root_session g lc2) run_policies (participation_request run_request NEW) ∅ ∅.

(** The contribution of the run, on empty tables *)
Lemma participation_exact_witness :
  ∃ res t w, run_participation = Ok (res, t, w) ∧ contributions_ok t.
Proof.
  assert (contributions_ok ∅) as H0 by (split; intros *; rewrite lookup_empty; done).
  destruct run_participation as [[[res t] w]|] eqn:E; [|vm_compute in E; discriminate E].
  exists res, t, w. split; [reflexivity|].
  exact (proj1 (participation_exact (AwardPort0 := award_owner run_award_inputs) run_contribution_inputs
    (λ g, acquire root_session g lc2) run_policies (participation_request run_request NEW) ∅ ∅ res t w H0 E)).
Defined.
