(* ===== verification/Rows.v ===== *)
(** * Tables with CHECK and UNIQUE constraints

    A table is the list of its rows.  Inserting a row and changing the row with an identity are
    refused when the row fails its CHECKs or collides with a stored row under a UNIQUE
    constraint; both keep a table consistent.  The components whose tables are lists share this
    file: contribution policies, compensation units and adapter bindings. *)

From S2P Require Import Prelude Text Digest Json.

Definition none {A} (o : option A) : bool := match o with None => true | Some _ => false end.
Definition some {A} (o : option A) : bool := negb (none o).

Section Rows.
Context {X A : Type} (err : X) (id : A → uuid) (checks : A → bool) (conflicts : A → A → bool).

(** Adding rows one by one, each against what is stored *)
Fixpoint insert_rows (new stored : list A) : result X (list A) :=
  match new with
  | [] => Ok stored
  | a :: new' =>
      _ ← ensure (checks a && negb (existsb (conflicts a) stored)) err;
      insert_rows new' (stored ++ [a])
  end.

Definition set_row (a : A) (l : list A) : list A := map (λ x, if id x =? id a then a else x) l.

(** Changing the row with the identity of [a] *)
Definition put_row (a : A) (l : list A) : result X (list A) :=
  _ ← ensure (checks a && forallb (λ x, (id x =? id a) || negb (conflicts a x)) l) err;
  Ok (set_row a l).

(** ** Consistent tables *)

Record rows_ok (l : list A) : Prop := {
  ro_checks x : x ∈ l → checks x = true;
  ro_unique i j x y : l !! i = Some x → l !! j = Some y → i ≠ j → conflicts x y = false;
}.

Lemma rows_ok_nil : rows_ok [].
Proof. split; [by intros x ?%elem_of_nil|done]. Qed.

Lemma elem_of_set_row a l x :
  x ∈ set_row a l ↔ (x = a ∧ ∃ y, y ∈ l ∧ id y = id a) ∨ (x ∈ l ∧ id x ≠ id a).
Proof.
  unfold set_row. rewrite list_elem_of_fmap. split.
  - intros (y & -> & Hy). destruct (Z.eqb_spec (id y) (id a)); [left|right]; eauto.
  - intros [[-> (y & Hy & E)]|[Hx E]].
    + exists y. by rewrite E, Z.eqb_refl.
    + exists x. by destruct (Z.eqb_spec (id x) (id a)).
Qed.

Lemma set_row_ids a l : map id (set_row a l) = map id l.
Proof.
  unfold set_row. rewrite map_map. apply map_ext. intros x. by destruct (Z.eqb_spec (id x) (id a)).
Qed.

Context (Hsym : ∀ x y, conflicts x y = conflicts y x) (Hid : ∀ x y, id x = id y → conflicts x y = true).

Lemma insert_rows_Ok new stored l :
  insert_rows new stored = Ok l → l = stored ++ new ∧ (rows_ok stored → rows_ok l).
Proof using Hsym.
  clear Hid. revert stored. induction new as [|a new IH]; intros stored; cbn [insert_rows].
  { intros [= <-]. by rewrite app_nil_r. }
  intros [[Hc Hx%negb_true_iff]%andb_prop [-> Hok]%IH]%ensure_bind_Ok.
  split; [by rewrite <- app_assoc|]. intros [H1 H2]. apply Hok. split.
  - intros x [Hx'| ->%list_elem_of_singleton]%elem_of_app; [by apply H1|done].
  - assert (∀ y, y ∈ stored → conflicts a y = false) as Ha.
    { intros y Hy. apply not_true_iff_false. intros Hay. apply not_true_iff_false in Hx. apply Hx.
      apply existsb_exists. exists y. by rewrite <- list_elem_of_In. }
    intros i j x y Hi Hj Hne. rewrite lookup_app_Some, list_lookup_singleton_Some in Hi, Hj.
    destruct Hi as [Hi|(Hi & Ei & <-)], Hj as [Hj|(Hj & Ej & <-)].
    + by apply (H2 i j).
    + rewrite Hsym. by eapply Ha, list_elem_of_lookup_2.
    + by eapply Ha, list_elem_of_lookup_2.
    + lia.
Qed.

Lemma rows_unique l x y : rows_ok l → x ∈ l → y ∈ l → conflicts x y = true → x = y.
Proof using Type.
  clear Hsym Hid. intros [_ Hu] [i Hi]%list_elem_of_lookup [j Hj]%list_elem_of_lookup E.
  destruct (decide (i = j)) as [->|Hne]; [congruence|]. by rewrite (Hu _ _ _ _ Hi Hj Hne) in E.
Qed.

Lemma rows_id_unique l x y : rows_ok l → x ∈ l → y ∈ l → id x = id y → x = y.
Proof using Hid. clear Hsym. intros Hl Hx Hy E. apply (rows_unique l); [done..|by apply Hid]. Qed.

Lemma put_row_Ok a l l' :
  put_row a l = Ok l' → l' = set_row a l ∧ checks a = true ∧ (rows_ok l → rows_ok l').
Proof using Hsym Hid.
  unfold put_row. intros [[Hc Hf]%andb_prop [= <-]]%ensure_bind_Ok. split_and!; [done..|].
  rewrite forallb_forall in Hf. intros [H1 H2]. split.
  - intros x [[-> _]|[Hx _]]%elem_of_set_row; [done|by apply H1].
  - intros i j x y Hi Hj Hne. unfold set_row in Hi, Hj. rewrite list_lookup_fmap in Hi, Hj.
    apply fmap_Some in Hi as (x' & Hi & ->), Hj as (y' & Hj & ->).
    specialize (H2 i j x' y' Hi Hj Hne) as H2'.
    destruct (Z.eqb_spec (id x') (id a)) as [Ex|Ex], (Z.eqb_spec (id y') (id a)) as [Ey|Ey].
    + rewrite Hid in H2' by congruence. done.
    + apply list_elem_of_lookup_2, list_elem_of_In in Hj. apply Hf in Hj.
      destruct (Z.eqb_spec (id y') (id a)); [done|]. by apply negb_true_iff in Hj.
    + rewrite Hsym. apply list_elem_of_lookup_2, list_elem_of_In in Hi. apply Hf in Hi.
      destruct (Z.eqb_spec (id x') (id a)); [done|]. by apply negb_true_iff in Hi.
    + done.
Qed.
End Rows.

(** ** Searching a table *)

Lemma find_Some_elem {A} (f : A → bool) l x : List.find f l = Some x → x ∈ l ∧ f x = true.
Proof. intros [H1 H2]%List.find_some. by rewrite list_elem_of_In. Qed.

Lemma find_None_elem {A} (f : A → bool) l x : List.find f l = None → x ∈ l → f x = false.
Proof. intros H Hx. by apply (List.find_none f l H), list_elem_of_In. Qed.

Lemma find_unique {A} (f : A → bool) l x :
  x ∈ l → f x = true → (∀ y, y ∈ l → f y = true → y = x) → List.find f l = Some x.
Proof.
  intros Hx Hf Hu. destruct (List.find f l) as [y|] eqn:E.
  - apply find_Some_elem in E as [Hy Hfy]. f_equal. by apply Hu.
  - by rewrite (find_None_elem _ _ _ E Hx) in Hf.
Qed.

Lemma filter_elem {A} (f : A → bool) l x : x ∈ List.filter f l ↔ x ∈ l ∧ f x = true.
Proof. rewrite !list_elem_of_In. apply List.filter_In. Qed.

#[export] Instance filter_Permutation_Proper {A} (f : A → bool) : Proper ((≡ₚ) ==> (≡ₚ)) (List.filter f).
Proof.
  induction 1 as [|x l k _ IH|x y l|l k m _ IH1 _ IH2]; cbn; try done.
  - destruct (f x); [by constructor|done].
  - destruct (f x), (f y); try done. constructor.
  - by etransitivity.
Qed.

(** Distinct images determine the element. *)
Lemma NoDup_map_eq {A B} (f : A → B) l x y : NoDup (map f l) → x ∈ l → y ∈ l → f x = f y → x = y.
Proof.
  intros Hnd [i Hi]%list_elem_of_lookup [j Hj]%list_elem_of_lookup E.
  assert (i = j) as ->; [|congruence]. apply (NoDup_lookup (f <$> l) i j (f x)); [done|..];
    rewrite list_lookup_fmap, ?Hi, ?Hj; cbn; congruence.
Qed.
