(* ===== verification/Paging.v ===== *)
(** * Keyset pages

    Lists are read page by page: a page holds the first rows after a position in the order of the
    list, one more row than the page is fetched to learn whether there is more, and the next
    position is that of the last row shown.  Following the positions lists every row once, in
    order. *)

From stdpp Require Import sorting.
From S2P Require Import Prelude.

Section Pages.
Context {A P : Type} (lt : A → A → Prop) (pos : A → P) (later : P → A → bool).

(** [rows] fetched after a position, the page they give and whether there is more *)
Definition page_of (limit : nat) (rows : list A) : list A * bool :=
  let fetched := firstn (limit + 1) rows in (firstn limit fetched, (limit <? length fetched)%nat).

Definition rows_after (s : list A) (after : option P) : list A :=
  match after with Some p => List.filter (later p) s | None => s end.

Definition page_next (page : list A * bool) : option P :=
  if page.2 then pos <$> last page.1 else None.

(** The rows a reader sees that follows the positions *)
Fixpoint follow (fuel : nat) (read : option P → list A * bool) (after : option P) : list A :=
  match fuel with
  | O => []
  | S fuel' =>
      let page := read after in
      page.1 ++ match page_next page with
                | Some p => follow fuel' read (Some p)
                | None => []
                end
  end.

Lemma page_of_eq limit rows : page_of limit rows = (firstn limit rows, (limit <? length rows)%nat).
Proof.
  unfold page_of. rewrite firstn_firstn, Nat.min_l, length_firstn by lia. f_equal.
  destruct (Nat.ltb_spec limit (length rows)); [apply Nat.ltb_lt|apply Nat.ltb_ge]; lia.
Qed.

Context `{!Transitive lt} (Hirr : ∀ x, ¬ lt x x) (Hlater : ∀ x y, later (pos x) y = true ↔ lt x y).
Context (Hmono : ∀ p x y, later p x = true → lt x y → later p y = true).

(** The rows after a row of a sorted list are the ones behind it. *)
Lemma filter_behind l1 x l2 :
  StronglySorted lt (l1 ++ x :: l2) → List.filter (later (pos x)) (l1 ++ x :: l2) = l2.
Proof using All.
  clear Hmono. intros Hs. apply StronglySorted_app in Hs as (Hlt & _ & Hs2). apply StronglySorted_cons in Hs2 as [Hx _].
  rewrite List.filter_app. cbn [List.filter].
  assert (List.filter (later (pos x)) l1 = []) as ->.
  { clear -Hlt Hlater Hirr Transitive0. assert (∀ y, y ∈ l1 → later (pos x) y = false) as H.
    { intros y Hy. apply not_true_iff_false. rewrite Hlater. intros H. apply (Hirr y). trans x; [|done].
      apply Hlt; [done|apply list_elem_of_here]. }
    induction l1 as [|y l1 IH]; [done|]. cbn. rewrite H by apply list_elem_of_here. apply IH.
    - intros; by apply Hlt; [apply list_elem_of_further|].
    - intros; by apply H, list_elem_of_further. }
  destruct (later (pos x) x) eqn:E; [by apply Hlater, Hirr in E|]. cbn. clear -Hx Hlater.
  induction l2 as [|y l2 IH]; [done|]. apply Forall_cons in Hx as [Hy Hx]. cbn.
  apply Hlater in Hy as ->. f_equal. auto.
Qed.

Lemma filter_StronglySorted (f : A → bool) s : StronglySorted lt s → StronglySorted lt (List.filter f s).
Proof using Type.
  clear. induction 1 as [|x l Hl IH Hx]; cbn; [constructor|]. destruct (f x); [|done].
  constructor; [done|]. rewrite Forall_forall in *. intros y Hy. apply Hx.
  rewrite list_elem_of_In in Hy |- *. by apply List.filter_In in Hy as [].
Qed.

Lemma rows_after_behind s after l1 x l2 :
  StronglySorted lt s → rows_after s after = l1 ++ x :: l2 → rows_after s (Some (pos x)) = l2.
Proof using All.
  intros Hs E. rewrite <- (filter_behind l1 x l2); cbn.
  - rewrite <- E. destruct after as [p|]; [|done]. cbn in *.
    assert (later p x = true) as Hx.
    { assert (x ∈ List.filter (later p) s) as Hin by (rewrite E; apply elem_of_app; right; apply list_elem_of_here).
      rewrite list_elem_of_In in Hin. by apply List.filter_In in Hin as []. }
    clear E Hs. induction s as [|y s IH]; [done|]. cbn. destruct (later (pos x) y) eqn:Ey.
    + rewrite (Hmono p x y Hx) by by apply Hlater. cbn. by rewrite Ey, IH.
    + destruct (later p y); cbn; [by rewrite Ey|done].
  - rewrite <- E. destruct after; [by apply filter_StronglySorted|done].
Qed.

(** Following the positions from anywhere reads the rest of the list. *)
Lemma follow_complete s limit read fuel after :
  StronglySorted lt s → (1 ≤ limit)%nat → (∀ a, read a = page_of limit (rows_after s a)) →
  (length (rows_after s after) < fuel)%nat → follow fuel read after = rows_after s after.
Proof using All.
  intros Hs Hl Hread. revert after. induction fuel as [|fuel IH]; intros after Hf; [lia|]. cbn [follow].
  rewrite Hread, page_of_eq. set (r := rows_after s after) in *. cbn [fst].
  unfold page_next. cbn [fst snd]. destruct (Nat.ltb_spec limit (length r)) as [Hlt|Hge].
  - destruct (exists_last (l := firstn limit r)) as (l1 & x & El).
    { intros E%(f_equal length). rewrite length_firstn in E. cbn in E. lia. }
    rewrite El, last_snoc. cbn [fmap option_fmap option_map].
    assert (r = l1 ++ x :: drop limit r) as Er.
    { rewrite <- (firstn_skipn limit r) at 1. rewrite El, <- app_assoc. done. }
    pose proof (rows_after_behind s after l1 x (drop limit r) Hs Er) as Hb. rewrite IH; rewrite Hb.
    + rewrite Er at 2. by rewrite <- app_assoc.
    + rewrite length_drop. lia.
  - rewrite app_nil_r. apply take_ge. lia.
Qed.
End Pages.
