(* ===== verification/Bindings.v ===== *)
(** * Compensation adapter bindings
    (modules/compensation/api/adapter_bindings.py, compensation/models.py, compensation/repository.py,
    compensation/service.py, compensation/policy_binding_service.py)

    A binding names the adapter that settles one instrument of a project; it is created active and
    alternates between suspended and active, every transition leaving one event.  The calls never
    commit, so a call that raises leaves nothing.  Authority, projects and actors are ports, the
    identities and times of new rows are arguments, and the triggers and foreign keys of the
    schema are the condition [admits].  Main results: in every reachable state a project has at
    most one active binding of an instrument and the events of a binding are its complete,
    alternating history; a repeated request returns its first result. *)

From S2P Require Import Prelude Text Digest Json Instant Lifecycle Awards Rows.

(** ** Values *)

Inductive AdapterBindingAction := binding_create | binding_suspend | binding_resume.
Inductive AdapterBindingEventType := binding_created | binding_suspended | binding_resumed.
Inductive AdapterBindingStatus := active | suspended.

#[export] Instance binding_event_type_eq_dec : EqDecision AdapterBindingEventType.
Proof. solve_decision. Defined.
#[export] Instance binding_status_eq_dec : EqDecision AdapterBindingStatus.
Proof. solve_decision. Defined.

Inductive BindingMessage := binding_not_found | binding_conflict.

Inductive BindingExn :=
| AdapterBindingUnavailable
| AdapterBindingConflict (m : BindingMessage)
| BindingValueError
| BindingDatabaseError
| BindingAuthorityError (** whatever else an authority raises *).

Definition route_char (c : Z) : bool :=
  is_alnum c || (c =? 46) || (c =? 95) || (c =? 58) || (c =? 45).

(** [".." in value] *)
Fixpoint has_dots (s : str) : bool :=
  match s with
  | c :: s' => ((c =? 46) && match s' with d :: _ => d =? 46 | [] => false end) || has_dots s'
  | [] => false
  end.

Definition validate_adapter_route_key (value : str) : bool :=
  match value with
  | [] => false
  | c :: _ => (len value <=? 120) && is_alpha c && forallb route_char value && negb (has_dots value)
  end.

Record AdapterBindingCreateRequest := {
  bc_operation_id : uuid;
  bc_actor_profile_id : uuid;
  bc_project_id : uuid;
  bc_instrument_type : CompensationInstrumentType;
  bc_adapter_actor_id : uuid;
  bc_route_key : str;
}.

(** [AdapterBindingSuspendRequest] and [AdapterBindingResumeRequest] have the same fields. *)
Record AdapterBindingTransitionRequest := {
  bt_operation_id : uuid;
  bt_actor_profile_id : uuid;
  bt_project_id : uuid;
  bt_adapter_binding_id : uuid;
  bt_expected_lifecycle_version : Z;
}.

Record AdapterBindingReadRequest := {
  br_actor_profile_id : uuid;
  br_project_id : uuid;
  br_adapter_binding_id : uuid;
}.

Inductive AdapterBindingMutationRequest :=
| BindingCreate (q : AdapterBindingCreateRequest)
| BindingSuspend (q : AdapterBindingTransitionRequest)
| BindingResume (q : AdapterBindingTransitionRequest).

(** [__post_init__] *)
Definition binding_request_valid (q : AdapterBindingMutationRequest) : bool :=
  match q with
  | BindingCreate q => validate_adapter_route_key (bc_route_key q)
  | BindingSuspend q | BindingResume q => 1 <=? bt_expected_lifecycle_version q
  end.

Definition binding_operation_id (q : AdapterBindingMutationRequest) : uuid :=
  match q with
  | BindingCreate q => bc_operation_id q
  | BindingSuspend q | BindingResume q => bt_operation_id q
  end.

Definition binding_actor_id (q : AdapterBindingMutationRequest) : uuid :=
  match q with
  | BindingCreate q => bc_actor_profile_id q
  | BindingSuspend q | BindingResume q => bt_actor_profile_id q
  end.

Definition binding_project_id (q : AdapterBindingMutationRequest) : uuid :=
  match q with
  | BindingCreate q => bc_project_id q
  | BindingSuspend q | BindingResume q => bt_project_id q
  end.

Definition binding_action (q : AdapterBindingMutationRequest) : AdapterBindingAction :=
  match q with
  | BindingCreate _ => binding_create
  | BindingSuspend _ => binding_suspend
  | BindingResume _ => binding_resume
  end.

(** [_EVENT_BY_ACTION] *)
Definition event_by_action (a : AdapterBindingAction) : AdapterBindingEventType :=
  match a with
  | binding_create => binding_created
  | binding_suspend => binding_suspended
  | binding_resume => binding_resumed
  end.

Definition binding_action_text (a : AdapterBindingAction) : str :=
  match a with
  | binding_create => lit "compensation.adapter_binding.create"
  | binding_suspend => lit "compensation.adapter_binding.suspend"
  | binding_resume => lit "compensation.adapter_binding.resume"
  end.

Definition binding_instrument_text (t : CompensationInstrumentType) : str :=
  match t with MONEY => lit "money" | PROJECT_POINTS => lit "project_points" end.

Definition binding_request_json (q : AdapterBindingMutationRequest) : json :=
  match q with
  | BindingCreate q =>
      JObj [kv "operation_id" (json_uuid (bc_operation_id q));
            kv "actor_profile_id" (json_uuid (bc_actor_profile_id q));
            kv "project_id" (json_uuid (bc_project_id q));
            kv "instrument_type" (JStr (binding_instrument_text (bc_instrument_type q)));
            kv "adapter_actor_id" (json_uuid (bc_adapter_actor_id q));
            kv "route_key" (JStr (bc_route_key q))]
  | BindingSuspend q | BindingResume q =>
      JObj [kv "operation_id" (json_uuid (bt_operation_id q));
            kv "actor_profile_id" (json_uuid (bt_actor_profile_id q));
            kv "project_id" (json_uuid (bt_project_id q));
            kv "adapter_binding_id" (json_uuid (bt_adapter_binding_id q));
            kv "expected_lifecycle_version" (JInt (bt_expected_lifecycle_version q))]
  end.

Definition _request_digest (q : AdapterBindingMutationRequest) : option str :=
  canonical_json_hash
    (JObj [kv "domain" (JStr (lit "workstream.compensation.adapter_binding.operation.v1"));
           kv "action" (JStr (binding_action_text (binding_action q)));
           kv "request" (binding_request_json q)]).

(** ** Rows *)

Record ProjectCompensationAdapterBinding := {
  ab_id : uuid;
  ab_project_id : uuid;
  ab_instrument_type : CompensationInstrumentType;
  ab_adapter_actor_id : uuid;
  ab_route_key : str;
  ab_status : AdapterBindingStatus;
  ab_binding_lifecycle_version : Z;
  ab_created_by : uuid;
  ab_created_at : instant;
  ab_suspended_by : option uuid;
  ab_suspended_at : option instant;
  ab_resumed_by : option uuid;
  ab_resumed_at : option instant;
  ab_retired_by : option uuid;
  ab_retired_at : option instant;
}.

Record CompensationAdapterBindingLifecycleEvent := {
  be_id : uuid;
  be_operation_id : uuid;
  be_request_digest : str;
  be_project_id : uuid;
  be_adapter_binding_id : uuid;
  be_event_type : AdapterBindingEventType;
  be_actor_profile_id : uuid;
  be_from_status : option AdapterBindingStatus;
  be_to_status : AdapterBindingStatus;
  be_from_lifecycle_version : Z;
  be_to_lifecycle_version : Z;
  be_prior_suspension_event_id : option uuid;
  be_occurred_at : instant;
}.

Record BindingDb := {
  bd_bindings : list ProjectCompensationAdapterBinding;
  bd_events : list CompensationAdapterBindingLifecycleEvent;
}.

(** [integer] columns *)
Definition int32 (n : Z) : bool := (-2147483648 <=? n) && (n <=? 2147483647).

Definition after_creation (created : instant) (at_ : option instant) : bool :=
  match at_ with Some t => created <=? t | None => true end.

(** [^[A-Za-z][A-Za-z0-9._:-]{0,119}$] and no [..] *)
Definition binding_checks (b : ProjectCompensationAdapterBinding) : bool :=
  uuid7_shape (ab_id b) && match_token is_alpha route_char 0 119 (ab_route_key b)
  && negb (has_dots (ab_route_key b)) && (0 <? ab_binding_lifecycle_version b)
  && int32 (ab_binding_lifecycle_version b)
  && match ab_status b with
     | active =>
         none (ab_suspended_by b) && none (ab_suspended_at b)
         && (((ab_binding_lifecycle_version b =? 1) && none (ab_resumed_by b) && none (ab_resumed_at b))
             || ((1 <? ab_binding_lifecycle_version b) && some (ab_resumed_by b)
                 && some (ab_resumed_at b)))
     | suspended =>
         (1 <? ab_binding_lifecycle_version b) && some (ab_suspended_by b) && some (ab_suspended_at b)
         && none (ab_resumed_by b) && none (ab_resumed_at b)
     end
  && none (ab_retired_by b) && none (ab_retired_at b)
  && after_creation (ab_created_at b) (ab_suspended_at b)
  && after_creation (ab_created_at b) (ab_resumed_at b).

Definition same_instrument (project : uuid) (t : CompensationInstrumentType)
    (b : ProjectCompensationAdapterBinding) : bool :=
  (ab_project_id b =? project) && bool_decide (ab_instrument_type b = t)
  && bool_decide (ab_status b = active).

(** The primary key, and one active binding per project and instrument *)
Definition binding_conflicts (a b : ProjectCompensationAdapterBinding) : bool :=
  (ab_id a =? ab_id b)
  || (bool_decide (ab_status a = active)
      && same_instrument (ab_project_id a) (ab_instrument_type a) b).

Definition binding_event_checks (e : CompensationAdapterBindingLifecycleEvent) : bool :=
  uuid7_shape (be_id e) && digest_pattern (be_request_digest e) && int32 (be_to_lifecycle_version e)
  && match be_event_type e with
     | binding_created =>
         bool_decide (be_from_status e = None) && bool_decide (be_to_status e = active)
         && (be_from_lifecycle_version e =? 0) && (be_to_lifecycle_version e =? 1)
         && none (be_prior_suspension_event_id e)
     | binding_suspended =>
         bool_decide (be_from_status e = Some active) && bool_decide (be_to_status e = suspended)
         && (0 <? be_from_lifecycle_version e)
         && (be_to_lifecycle_version e =? be_from_lifecycle_version e + 1)
         && none (be_prior_suspension_event_id e)
     | binding_resumed =>
         bool_decide (be_from_status e = Some suspended) && bool_decide (be_to_status e = active)
         && (0 <? be_from_lifecycle_version e)
         && (be_to_lifecycle_version e =? be_from_lifecycle_version e + 1)
         && some (be_prior_suspension_event_id e)
     end.

Definition binding_event_conflicts (e f : CompensationAdapterBindingLifecycleEvent) : bool :=
  (be_id e =? be_id f) || (be_operation_id e =? be_operation_id f)
  || ((be_adapter_binding_id e =? be_adapter_binding_id f)
      && (be_to_lifecycle_version e =? be_to_lifecycle_version f)).

(** ** Repository *)

Definition get_binding_event (operation : uuid) (db : BindingDb)
    : option CompensationAdapterBindingLifecycleEvent :=
  List.find (λ e, be_operation_id e =? operation) (bd_events db).

Definition get_binding (project binding : uuid) (db : BindingDb)
    : option ProjectCompensationAdapterBinding :=
  List.find (λ b, (ab_project_id b =? project) && (ab_id b =? binding)) (bd_bindings db).

Definition get_active_binding (project : uuid) (t : CompensationInstrumentType) (db : BindingDb)
    : option ProjectCompensationAdapterBinding :=
  List.find (same_instrument project t) (bd_bindings db).

Definition get_prior_suspension_event (binding : uuid) (version : Z) (db : BindingDb)
    : option CompensationAdapterBindingLifecycleEvent :=
  List.find (λ e, (be_adapter_binding_id e =? binding) && (be_to_lifecycle_version e =? version)
                  && bool_decide (be_event_type e = binding_suspended)) (bd_events db).

Record AdapterBindingMutationAuthorizationFacts := {
  bf_action : AdapterBindingAction;
  bf_actor_profile_id : uuid;
  bf_operation_id : uuid;
  bf_request_digest : str;
  bf_project_id : uuid;
  bf_adapter_binding_id : uuid;
  bf_instrument_type : CompensationInstrumentType;
  bf_adapter_actor_id : uuid;
  bf_route_key : str;
  bf_expected_status : option AdapterBindingStatus;
  bf_expected_lifecycle_version : option Z;
}.

(** What one call takes from outside *)
Record BindingInputs := {
  bi_in_transaction : bool;
  bi_in_nested_transaction : bool;
  bi_read : AdapterBindingReadRequest → result BindingExn unit;
  bi_lock_scope : AdapterBindingAction → uuid → uuid → result BindingExn unit;
  bi_consume : AdapterBindingMutationAuthorizationFacts → result BindingExn uuid;
  bi_projects : option (uuid → option uuid);   (** the port, when composed: the locked project *)
  bi_actors : option (uuid → option uuid);     (** and the locked actor *)
  bi_binding_id : uuid;
  bi_event_id : uuid;
  bi_created_at : instant;
  bi_suspended_at : instant;
  bi_resumed_at : instant;                     (** written by a trigger *)
  bi_occurred_at : instant;
  bi_admits : BindingDb → BindingDb → bool;
}.

Definition admit_bindings (i : BindingInputs) (db db' : BindingDb) : result BindingExn BindingDb :=
  _ ← ensure (bi_admits i db db') BindingDatabaseError;
  Ok db'.

Definition flush_binding_event (i : BindingInputs) (e : CompensationAdapterBindingLifecycleEvent)
    (db : BindingDb) : result BindingExn BindingDb :=
  events ← insert_rows BindingDatabaseError binding_event_checks binding_event_conflicts [e] (bd_events db);
  admit_bindings i db {| bd_bindings := bd_bindings db; bd_events := events |}.

Definition add_binding_and_event (i : BindingInputs) (b : ProjectCompensationAdapterBinding)
    (e : CompensationAdapterBindingLifecycleEvent) (db : BindingDb) : result BindingExn BindingDb :=
  bindings ← insert_rows BindingDatabaseError binding_checks binding_conflicts [b] (bd_bindings db);
  db' ← admit_bindings i db {| bd_bindings := bindings; bd_events := bd_events db |};
  flush_binding_event i e db'.

(** [flush_event]: the pending transition of the binding, then the event *)
Definition flush_event (i : BindingInputs) (b : ProjectCompensationAdapterBinding)
    (e : CompensationAdapterBindingLifecycleEvent) (db : BindingDb) : result BindingExn BindingDb :=
  bindings ← put_row BindingDatabaseError ab_id binding_checks binding_conflicts b (bd_bindings db);
  db' ← admit_bindings i db {| bd_bindings := bindings; bd_events := bd_events db |};
  flush_binding_event i e db'.

(** ** Service *)

Record AdapterBindingMutationResult := {
  bm_event_id : uuid;
  bm_operation_id : uuid;
  bm_request_digest : str;
  bm_project_id : uuid;
  bm_adapter_binding_id : uuid;
  bm_event_type : AdapterBindingEventType;
  bm_actor_profile_id : uuid;
  bm_from_status : option AdapterBindingStatus;
  bm_to_status : AdapterBindingStatus;
  bm_from_lifecycle_version : Z;
  bm_to_lifecycle_version : Z;
  bm_prior_suspension_event_id : option uuid;
  bm_occurred_at : instant;
}.

Definition binding_result (e : CompensationAdapterBindingLifecycleEvent) : AdapterBindingMutationResult :=
  {| bm_event_id := be_id e; bm_operation_id := be_operation_id e;
     bm_request_digest := be_request_digest e; bm_project_id := be_project_id e;
     bm_adapter_binding_id := be_adapter_binding_id e; bm_event_type := be_event_type e;
     bm_actor_profile_id := be_actor_profile_id e; bm_from_status := be_from_status e;
     bm_to_status := be_to_status e; bm_from_lifecycle_version := be_from_lifecycle_version e;
     bm_to_lifecycle_version := be_to_lifecycle_version e;
     bm_prior_suspension_event_id := be_prior_suspension_event_id e;
     bm_occurred_at := be_occurred_at e |}.

(** A refused read hides its reason, unless the authority raised something of its own. *)
Definition concealed_binding_read (m : BindingMessage) (r : result BindingExn unit)
    : result BindingExn unit :=
  match r with
  | Raise (AdapterBindingUnavailable | AdapterBindingConflict _) => Raise (AdapterBindingConflict m)
  | _ => r
  end.

(** [read]; the view shows every column of the row but the retirement. *)
Definition read_binding (i : BindingInputs) (q : AdapterBindingReadRequest) (db : BindingDb)
    : result BindingExn ProjectCompensationAdapterBinding :=
  _ ← concealed_binding_read binding_not_found (bi_read i q);
  oget (get_binding (br_project_id q) (br_adapter_binding_id q) db)
    (AdapterBindingConflict binding_not_found).

Definition _require_root_transaction (i : BindingInputs) (q : AdapterBindingMutationRequest)
    : result BindingExn unit :=
  _ ← ensure (bi_in_transaction i && negb (bi_in_nested_transaction i)) AdapterBindingUnavailable;
  ensure (binding_request_valid q) BindingValueError.

Definition _recovery_binding_matches (q : AdapterBindingMutationRequest)
    (b : ProjectCompensationAdapterBinding) : bool :=
  match q with
  | BindingCreate q =>
      bool_decide (ab_instrument_type b = bc_instrument_type q)
      && (ab_adapter_actor_id b =? bc_adapter_actor_id q) && str_eqb (ab_route_key b) (bc_route_key q)
  | BindingSuspend q | BindingResume q => ab_id b =? bt_adapter_binding_id q
  end.

Definition _recover (i : BindingInputs) (q : AdapterBindingMutationRequest) (digest : str)
    (db : BindingDb) : result BindingExn (option AdapterBindingMutationResult) :=
  match get_binding_event (binding_operation_id q) db with
  | None => Ok None
  | Some e =>
      _ ← ensure (negb (negb (bool_decide (be_event_type e = event_by_action (binding_action q)))
                        || negb (be_actor_profile_id e =? binding_actor_id q)
                        || negb (be_project_id e =? binding_project_id q)
                        || negb (str_eqb (be_request_digest e) digest)))
            (AdapterBindingConflict binding_conflict);
      b ← oget (get_binding (binding_project_id q) (be_adapter_binding_id e) db)
            (AdapterBindingConflict binding_conflict);
      _ ← ensure (_recovery_binding_matches q b) (AdapterBindingConflict binding_conflict);
      _ ← concealed_binding_read binding_conflict
            (bi_read i {| br_actor_profile_id := binding_actor_id q;
                          br_project_id := binding_project_id q;
                          br_adapter_binding_id := be_adapter_binding_id e |});
      Ok (Some (binding_result e))
  end.

Definition _consume_and_close (i : BindingInputs) (f : AdapterBindingMutationAuthorizationFacts)
    : result BindingExn uuid :=
  actor ← bi_consume i f;
  _ ← ensure (actor =? bf_actor_profile_id f) AdapterBindingUnavailable;
  Ok actor.

Definition lock_binding_scope (i : BindingInputs) (q : AdapterBindingMutationRequest)
    : result BindingExn unit :=
  bi_lock_scope i (binding_action q) (binding_actor_id q) (binding_project_id q).

(** The locked project and actor are the requested ones. *)
Definition eligible (port : uuid → option uuid) (id : uuid) : result BindingExn uuid :=
  oget (port id) (AdapterBindingConflict binding_not_found).

Definition new_binding (i : BindingInputs) (q : AdapterBindingCreateRequest) (actor : uuid)
    : ProjectCompensationAdapterBinding :=
  {| ab_id := bi_binding_id i; ab_project_id := bc_project_id q;
     ab_instrument_type := bc_instrument_type q; ab_adapter_actor_id := bc_adapter_actor_id q;
     ab_route_key := bc_route_key q; ab_status := active; ab_binding_lifecycle_version := 1;
     ab_created_by := actor; ab_created_at := bi_created_at i; ab_suspended_by := None;
     ab_suspended_at := None; ab_resumed_by := None; ab_resumed_at := None; ab_retired_by := None;
     ab_retired_at := None |}.

(** [_event] *)
Definition binding_event (i : BindingInputs) (q : AdapterBindingMutationRequest) (digest : str)
    (binding actor : uuid) (from : option AdapterBindingStatus) (to : AdapterBindingStatus)
    (from_version : Z) (prior : option uuid) : CompensationAdapterBindingLifecycleEvent :=
  {| be_id := bi_event_id i; be_operation_id := binding_operation_id q; be_request_digest := digest;
     be_project_id := binding_project_id q; be_adapter_binding_id := binding;
     be_event_type := event_by_action (binding_action q); be_actor_profile_id := actor;
     be_from_status := from; be_to_status := to; be_from_lifecycle_version := from_version;
     be_to_lifecycle_version := from_version + 1; be_prior_suspension_event_id := prior;
     be_occurred_at := bi_occurred_at i |}.

Abbreviation BindingOutcome := (result BindingExn (AdapterBindingMutationResult * BindingDb)).

(** The digest and the recovery every mutation starts with; the scope of a creation is locked
    before recovery, that of a transition after it. *)
Definition mutate_binding (i : BindingInputs) (q : AdapterBindingMutationRequest) (db : BindingDb)
    (work : str → BindingOutcome) : BindingOutcome :=
  _ ← _require_root_transaction i q;
  digest ← oget (_request_digest q) BindingValueError;
  _ ← match q with BindingCreate _ => lock_binding_scope i q | _ => Ok tt end;
  recovered ← _recover i q digest db;
  match recovered with
  | Some r => Ok (r, db)
  | None =>
      _ ← match q with BindingCreate _ => Ok tt | _ => lock_binding_scope i q end;
      work digest
  end.

Definition create_binding (i : BindingInputs) (q : AdapterBindingCreateRequest) (db : BindingDb)
    : BindingOutcome :=
  let r := BindingCreate q in
  mutate_binding i r db (λ digest,
    projects ← oget (bi_projects i) AdapterBindingUnavailable;
    actors ← oget (bi_actors i) AdapterBindingUnavailable;
    project ← eligible projects (bc_project_id q);
    adapter ← eligible actors (bc_adapter_actor_id q);
    _ ← ensure ((project =? bc_project_id q) && (adapter =? bc_adapter_actor_id q))
          (AdapterBindingConflict binding_not_found);
    _ ← ensure (none (get_active_binding (bc_project_id q) (bc_instrument_type q) db))
          (AdapterBindingConflict binding_conflict);
    actor ← _consume_and_close i
              {| bf_action := binding_create; bf_actor_profile_id := bc_actor_profile_id q;
                 bf_operation_id := bc_operation_id q; bf_request_digest := digest;
                 bf_project_id := bc_project_id q; bf_adapter_binding_id := bi_binding_id i;
                 bf_instrument_type := bc_instrument_type q;
                 bf_adapter_actor_id := bc_adapter_actor_id q; bf_route_key := bc_route_key q;
                 bf_expected_status := None; bf_expected_lifecycle_version := None |};
    let e := binding_event i r digest (bi_binding_id i) actor None active 0 None in
    db' ← add_binding_and_event i (new_binding i q actor) e db;
    Ok (binding_result e, db')).

Definition _transition_facts (r : AdapterBindingMutationRequest) (q : AdapterBindingTransitionRequest)
    (digest : str) (b : ProjectCompensationAdapterBinding) : AdapterBindingMutationAuthorizationFacts :=
  {| bf_action := binding_action r; bf_actor_profile_id := bt_actor_profile_id q;
     bf_operation_id := bt_operation_id q; bf_request_digest := digest;
     bf_project_id := bt_project_id q; bf_adapter_binding_id := bt_adapter_binding_id q;
     bf_instrument_type := ab_instrument_type b; bf_adapter_actor_id := ab_adapter_actor_id b;
     bf_route_key := ab_route_key b; bf_expected_status := Some (ab_status b);
     bf_expected_lifecycle_version := Some (bt_expected_lifecycle_version q) |}.

Definition _lock_transition_binding (q : AdapterBindingTransitionRequest) (db : BindingDb)
    : result BindingExn ProjectCompensationAdapterBinding :=
  oget (get_binding (bt_project_id q) (bt_adapter_binding_id q) db)
    (AdapterBindingConflict binding_not_found).

(** The row after a suspension, and after a resumption *)
Definition suspended_binding (i : BindingInputs) (actor : uuid) (b : ProjectCompensationAdapterBinding)
    : ProjectCompensationAdapterBinding :=
  {| ab_id := ab_id b; ab_project_id := ab_project_id b; ab_instrument_type := ab_instrument_type b;
     ab_adapter_actor_id := ab_adapter_actor_id b; ab_route_key := ab_route_key b;
     ab_status := suspended; ab_binding_lifecycle_version := ab_binding_lifecycle_version b + 1;
     ab_created_by := ab_created_by b; ab_created_at := ab_created_at b;
     ab_suspended_by := Some actor; ab_suspended_at := Some (bi_suspended_at i);
     ab_resumed_by := None; ab_resumed_at := None; ab_retired_by := ab_retired_by b;
     ab_retired_at := ab_retired_at b |}.

Definition resumed_binding (i : BindingInputs) (actor : uuid) (b : ProjectCompensationAdapterBinding)
    : ProjectCompensationAdapterBinding :=
  {| ab_id := ab_id b; ab_project_id := ab_project_id b; ab_instrument_type := ab_instrument_type b;
     ab_adapter_actor_id := ab_adapter_actor_id b; ab_route_key := ab_route_key b;
     ab_status := active; ab_binding_lifecycle_version := ab_binding_lifecycle_version b + 1;
     ab_created_by := ab_created_by b; ab_created_at := ab_created_at b;
     ab_suspended_by := None; ab_suspended_at := None; ab_resumed_by := Some actor;
     ab_resumed_at := Some (bi_resumed_at i); ab_retired_by := ab_retired_by b;
     ab_retired_at := ab_retired_at b |}.

Definition suspend (i : BindingInputs) (q : AdapterBindingTransitionRequest) (db : BindingDb)
    : BindingOutcome :=
  let r := BindingSuspend q in
  mutate_binding i r db (λ digest,
    b ← _lock_transition_binding q db;
    _ ← ensure (bool_decide (ab_status b = active)
                && (ab_binding_lifecycle_version b =? bt_expected_lifecycle_version q))
          (AdapterBindingConflict binding_conflict);
    actor ← _consume_and_close i (_transition_facts r q digest b);
    let e := binding_event i r digest (bt_adapter_binding_id q) actor (Some active) suspended
               (ab_binding_lifecycle_version b) None in
    db' ← flush_event i (suspended_binding i actor b) e db;
    Ok (binding_result e, db')).

Definition resume (i : BindingInputs) (q : AdapterBindingTransitionRequest) (db : BindingDb)
    : BindingOutcome :=
  let r := BindingResume q in
  mutate_binding i r db (λ digest,
    projects ← oget (bi_projects i) AdapterBindingUnavailable;
    actors ← oget (bi_actors i) AdapterBindingUnavailable;
    project ← eligible projects (bt_project_id q);
    b ← _lock_transition_binding q db;   (** read once, then again for update *)
    adapter ← eligible actors (ab_adapter_actor_id b);
    _ ← ensure ((project =? bt_project_id q) && (adapter =? ab_adapter_actor_id b))
          (AdapterBindingConflict binding_not_found);
    _ ← ensure (bool_decide (ab_status b = suspended)
                && (ab_binding_lifecycle_version b =? bt_expected_lifecycle_version q))
          (AdapterBindingConflict binding_conflict);
    prior ← oget (get_prior_suspension_event (bt_adapter_binding_id q) (bt_expected_lifecycle_version q) db)
              (AdapterBindingConflict binding_conflict);
    _ ← ensure (none (get_active_binding (bt_project_id q) (ab_instrument_type b) db))
          (AdapterBindingConflict binding_conflict);
    actor ← _consume_and_close i (_transition_facts r q digest b);
    let e := binding_event i r digest (bt_adapter_binding_id q) actor (Some suspended) active
               (ab_binding_lifecycle_version b) (Some (be_id prior)) in
    db' ← flush_event i (resumed_binding i actor b) e db;
    Ok (binding_result e, db')).

Definition run_binding (i : BindingInputs) (q : AdapterBindingMutationRequest) (db : BindingDb)
    : BindingOutcome :=
  match q with
  | BindingCreate q => create_binding i q db
  | BindingSuspend q => suspend i q db
  | BindingResume q => resume i q db
  end.

(** ** The port of contribution policies *)

Record LockedPolicyAdapterBindingFacts := {
  lb_project_id : uuid;
  lb_adapter_binding_id : uuid;
  lb_instrument_type : CompensationInstrumentType;
  lb_binding_lifecycle_version : Z;
}.

(** [PolicyAdapterBindingPort]; [None] is [PolicyAdapterBindingUnavailable]. *)
Class BindingPort (S : Type) :=
  lock_policy_adapter_binding : S → uuid → uuid → CompensationInstrumentType
                                → option LockedPolicyAdapterBindingFacts.

(** [PolicyAdapterBindingLookup] *)
Definition policy_adapter_binding (db : BindingDb) (project binding : uuid) (t : CompensationInstrumentType)
    : option LockedPolicyAdapterBindingFacts :=
  match List.find (λ b, (ab_id b =? binding) && (ab_project_id b =? project)
                        && bool_decide (ab_instrument_type b = t)) (bd_bindings db) with
  | Some b =>
      if bool_decide (ab_status b = active)
      then Some {| lb_project_id := project; lb_adapter_binding_id := ab_id b; lb_instrument_type := t;
                   lb_binding_lifecycle_version := ab_binding_lifecycle_version b |}
      else None
  | None => None
  end.

#[export] Instance binding_lookup : BindingPort BindingDb := policy_adapter_binding.

(** ** What a successful call did *)

Abbreviation bindings_ok := (rows_ok binding_checks binding_conflicts).
Abbreviation binding_events_ok := (rows_ok binding_event_checks binding_event_conflicts).

Lemma same_instrument_eq p t b :
  same_instrument p t b = true ↔ ab_project_id b = p ∧ ab_instrument_type b = t ∧ ab_status b = active.
Proof. unfold same_instrument. rewrite !andb_true_iff, Z.eqb_eq, !bool_decide_eq_true. tauto. Qed.

Lemma binding_conflicts_eq a b :
  binding_conflicts a b = true ↔
  ab_id a = ab_id b ∨ (ab_project_id a = ab_project_id b ∧ ab_instrument_type a = ab_instrument_type b ∧
                       ab_status a = active ∧ ab_status b = active).
Proof.
  unfold binding_conflicts. rewrite orb_true_iff, andb_true_iff, same_instrument_eq, Z.eqb_eq, bool_decide_eq_true.
  naive_solver.
Qed.

Lemma binding_conflicts_sym a b : binding_conflicts a b = binding_conflicts b a.
Proof. apply eq_bool_prop_intro. rewrite !Is_true_true, !binding_conflicts_eq. naive_solver. Qed.

Lemma binding_event_conflicts_eq e f :
  binding_event_conflicts e f = true ↔
  be_id e = be_id f ∨ be_operation_id e = be_operation_id f ∨
  (be_adapter_binding_id e = be_adapter_binding_id f ∧ be_to_lifecycle_version e = be_to_lifecycle_version f).
Proof. unfold binding_event_conflicts. rewrite !orb_true_iff, andb_true_iff, !Z.eqb_eq. tauto. Qed.

Lemma binding_event_conflicts_sym e f : binding_event_conflicts e f = binding_event_conflicts f e.
Proof. apply eq_bool_prop_intro. rewrite !Is_true_true, !binding_event_conflicts_eq. naive_solver. Qed.

Lemma get_binding_Some p id db b :
  get_binding p id db = Some b → b ∈ bd_bindings db ∧ ab_project_id b = p ∧ ab_id b = id.
Proof. intros [Hb [H1%Z.eqb_eq H2%Z.eqb_eq]%andb_prop]%find_Some_elem. done. Qed.

Lemma get_binding_stored db b :
  bindings_ok (bd_bindings db) → b ∈ bd_bindings db → get_binding (ab_project_id b) (ab_id b) db = Some b.
Proof.
  intros Hok Hb. apply find_unique; [done|by rewrite !Z.eqb_refl|].
  intros y Hy [_ E%Z.eqb_eq]%andb_prop. apply (rows_unique _ _ _ _ _ Hok Hy Hb), binding_conflicts_eq. by left.
Qed.

(** The change a request makes to the bindings *)
Inductive binding_change (i : BindingInputs) (db : BindingDb)
    : AdapterBindingMutationRequest → list ProjectCompensationAdapterBinding →
      ProjectCompensationAdapterBinding → CompensationAdapterBindingLifecycleEvent → Prop :=
| change_create q digest :
    binding_change i db (BindingCreate q) (bd_bindings db ++ [new_binding i q (bc_actor_profile_id q)])
      (new_binding i q (bc_actor_profile_id q))
      (binding_event i (BindingCreate q) digest (bi_binding_id i) (bc_actor_profile_id q) None active 0 None)
| change_suspend q digest b :
    get_binding (bt_project_id q) (bt_adapter_binding_id q) db = Some b →
    ab_status b = active → ab_binding_lifecycle_version b = bt_expected_lifecycle_version q →
    binding_change i db (BindingSuspend q)
      (set_row ab_id (suspended_binding i (bt_actor_profile_id q) b) (bd_bindings db))
      (suspended_binding i (bt_actor_profile_id q) b)
      (binding_event i (BindingSuspend q) digest (ab_id b) (bt_actor_profile_id q) (Some active) suspended
         (ab_binding_lifecycle_version b) None)
| change_resume q digest b prior :
    get_binding (bt_project_id q) (bt_adapter_binding_id q) db = Some b →
    ab_status b = suspended → ab_binding_lifecycle_version b = bt_expected_lifecycle_version q →
    get_prior_suspension_event (ab_id b) (ab_binding_lifecycle_version b) db = Some prior →
    binding_change i db (BindingResume q)
      (set_row ab_id (resumed_binding i (bt_actor_profile_id q) b) (bd_bindings db))
      (resumed_binding i (bt_actor_profile_id q) b)
      (binding_event i (BindingResume q) digest (ab_id b) (bt_actor_profile_id q) (Some suspended) active
         (ab_binding_lifecycle_version b) (Some (be_id prior))).

(** What a call that writes did *)
Definition binding_written (i : BindingInputs) (q : AdapterBindingMutationRequest) (db : BindingDb)
    (r : AdapterBindingMutationResult) (db' : BindingDb) : Prop :=
  ∃ e b, r = binding_result e ∧ _request_digest q = Some (be_request_digest e) ∧
    get_binding_event (binding_operation_id q) db = None ∧
    binding_change i db q (bd_bindings db') b e ∧ bd_events db' = bd_events db ++ [e] ∧
    (bindings_ok (bd_bindings db) → bindings_ok (bd_bindings db')) ∧
    (binding_events_ok (bd_events db) → binding_events_ok (bd_events db')).

(** and one that recovered an event *)
Definition binding_recovered (i : BindingInputs) (q : AdapterBindingMutationRequest) (db : BindingDb)
    (r : AdapterBindingMutationResult) : Prop :=
  ∃ e digest, get_binding_event (binding_operation_id q) db = Some e ∧ _request_digest q = Some digest ∧
    _recover i q digest db = Ok (Some (binding_result e)) ∧ r = binding_result e ∧
    be_request_digest e = digest.

Lemma flush_binding_event_Ok i e db db' :
  flush_binding_event i e db = Ok db' →
  bd_bindings db' = bd_bindings db ∧ bd_events db' = bd_events db ++ [e] ∧
  (binding_events_ok (bd_events db) → binding_events_ok (bd_events db')).
Proof.
  unfold flush_binding_event. intros (l & [-> Hl]%insert_rows_Ok & H)%result_bind_Ok;
    [|by apply binding_event_conflicts_sym].
  by apply ensure_bind_Ok in H as [_ [= <-]].
Qed.

Lemma add_binding_and_event_Ok i b e db db' :
  add_binding_and_event i b e db = Ok db' →
  bd_bindings db' = bd_bindings db ++ [b] ∧ bd_events db' = bd_events db ++ [e] ∧
  (bindings_ok (bd_bindings db) → bindings_ok (bd_bindings db')) ∧
  (binding_events_ok (bd_events db) → binding_events_ok (bd_events db')).
Proof.
  unfold add_binding_and_event. intros (l & [-> Hl]%insert_rows_Ok & H)%result_bind_Ok;
    [|by apply binding_conflicts_sym].
  apply result_bind_Ok in H as (db1 & [_ [= <-]]%ensure_bind_Ok & (E1 & E2 & H)%flush_binding_event_Ok).
  cbn in E1, E2, H. rewrite E1. by rewrite E2 in *.
Qed.

Lemma flush_event_Ok i b e db db' :
  flush_event i b e db = Ok db' →
  bd_bindings db' = set_row ab_id b (bd_bindings db) ∧ bd_events db' = bd_events db ++ [e] ∧
  (bindings_ok (bd_bindings db) → bindings_ok (bd_bindings db')) ∧
  (binding_events_ok (bd_events db) → binding_events_ok (bd_events db')).
Proof.
  unfold flush_event. intros (l & (-> & _ & Hl)%put_row_Ok & H)%result_bind_Ok;
    [|apply binding_conflicts_sym|intros x y E; apply binding_conflicts_eq; by left].
  apply result_bind_Ok in H as (db1 & [_ [= <-]]%ensure_bind_Ok & (E1 & E2 & H)%flush_binding_event_Ok).
  cbn in E1, E2, H. rewrite E1. by rewrite E2 in *.
Qed.

Lemma consume_and_close_Ok i f actor : _consume_and_close i f = Ok actor → actor = bf_actor_profile_id f.
Proof.
  intros (a & _ & H)%result_bind_Ok. by apply ensure_bind_Ok in H as [->%Z.eqb_eq [= <-]].
Qed.

Lemma recover_Some i q digest db r :
  _recover i q digest db = Ok (Some r) →
  ∃ e, get_binding_event (binding_operation_id q) db = Some e ∧ r = binding_result e ∧
       be_request_digest e = digest ∧ be_event_type e = event_by_action (binding_action q) ∧
       be_actor_profile_id e = binding_actor_id q ∧ be_project_id e = binding_project_id q.
Proof.
  unfold _recover. destruct (get_binding_event _ _) as [e|]; [|done].
  intros [Hm (b & _ & [_ (u & _ & H)%result_bind_Ok]%ensure_bind_Ok)%result_bind_Ok]%ensure_bind_Ok.
  exists e. apply Ok_inj in H. injection H as <-.
  rewrite negb_true_iff, !orb_false_iff, !negb_false_iff, bool_decide_eq_true, !Z.eqb_eq in Hm.
  unfold str_eqb in Hm. rewrite bool_decide_eq_true in Hm. naive_solver.
Qed.

Lemma recover_None i q digest db :
  _recover i q digest db = Ok None → get_binding_event (binding_operation_id q) db = None.
Proof.
  unfold _recover. destruct (get_binding_event _ _) as [e|]; [|done].
  intros [Hm (b & _ & [_ (u & _ & H)%result_bind_Ok]%ensure_bind_Ok)%result_bind_Ok]%ensure_bind_Ok. done.
Qed.

Lemma mutate_binding_Ok i q db work r db' :
  mutate_binding i q db work = Ok (r, db') →
  (db' = db ∧ binding_recovered i q db r) ∨
  (∃ digest, _request_digest q = Some digest ∧ get_binding_event (binding_operation_id q) db = None ∧
             work digest = Ok (r, db')).
Proof.
  unfold mutate_binding.
  intros (? & _ & (digest & Hd%oget_Ok & (? & _ & ([r'|] & Hr & H)%result_bind_Ok)%result_bind_Ok)%result_bind_Ok)%result_bind_Ok.
  - left. apply Ok_inj in H as [= -> ->]. split; [done|].
    destruct (recover_Some _ _ _ _ _ Hr) as (e & He & -> & Hde & _). by exists e, digest.
  - right. exists digest. apply recover_None in Hr. apply result_bind_Ok in H as (? & _ & H). done.
Qed.

Lemma run_binding_Ok i q db r db' :
  run_binding i q db = Ok (r, db') → (db' = db ∧ binding_recovered i q db r) ∨ binding_written i q db r db'.
Proof.
  destruct q as [q|q|q]; intros [?|(digest & Hd & Hf & H)]%mutate_binding_Ok; try (by left); right.
  - apply result_bind_Ok in H as (? & _ & (? & _ & (? & _ & (? & _ & H)%result_bind_Ok)%result_bind_Ok)%result_bind_Ok).
    apply ensure_bind_Ok in H as [_ [_ (a & ->%consume_and_close_Ok & H)%result_bind_Ok]%ensure_bind_Ok].
    apply result_bind_Ok in H as (db1 & (E1 & E2 & H1 & H2)%add_binding_and_event_Ok & [= <- <-]).
    eexists _, _. rewrite E1, E2 in *. split_and!; [done|exact Hd|done|apply change_create|done..].
  - apply result_bind_Ok in H as (b & Hb%oget_Ok & H).
    apply ensure_bind_Ok in H as [[Hs%bool_decide_eq_true Hv%Z.eqb_eq]%andb_prop H].
    apply result_bind_Ok in H as (a & ->%consume_and_close_Ok & H).
    apply result_bind_Ok in H as (db1 & (E1 & E2 & H1 & H2)%flush_event_Ok & [= <- <-]).
    pose proof (get_binding_Some _ _ _ _ Hb) as (_ & _ & Eid).
    eexists _, _. rewrite E1, E2 in *. cbn [_transition_facts bf_actor_profile_id] in *. rewrite <- Eid.
    split_and!; [done|exact Hd|done|by apply change_suspend|by rewrite Eid|done..|by rewrite Eid].
  - apply result_bind_Ok in H as (? & _ & (? & _ & (? & _ & (b & Hb%oget_Ok & (? & _ & H)%result_bind_Ok)%result_bind_Ok)%result_bind_Ok)%result_bind_Ok).
    apply ensure_bind_Ok in H as [_ [[Hs%bool_decide_eq_true Hv%Z.eqb_eq]%andb_prop H]%ensure_bind_Ok].
    apply result_bind_Ok in H as (prior & Hp%oget_Ok & H). apply ensure_bind_Ok in H as [_ H].
    apply result_bind_Ok in H as (a & ->%consume_and_close_Ok & H).
    apply result_bind_Ok in H as (db1 & (E1 & E2 & H1 & H2)%flush_event_Ok & [= <- <-]).
    pose proof (get_binding_Some _ _ _ _ Hb) as (_ & _ & Eid).
    eexists _, _. rewrite E1, E2 in *. cbn [_transition_facts bf_actor_profile_id] in *. rewrite <- Eid, <- ?Hv in *.
    split_and!; [done|exact Hd|done|apply change_resume; by rewrite <- ?Eid|done..].
Qed.

(** ** The history of a binding *)

#[local] Arguments Z.add : simpl never.
#[local] Arguments Z.sub : simpl never.

(** A binding is active at odd versions and suspended at even ones. *)
Definition status_at (version : Z) : AdapterBindingStatus := if Z.odd version then active else suspended.

Definition type_at (version : Z) : AdapterBindingEventType :=
  if version =? 1 then binding_created else if Z.odd version then binding_resumed else binding_suspended.

(** What never changes *)
Definition binding_identity (b : ProjectCompensationAdapterBinding) :=
  (ab_id b, ab_project_id b, ab_instrument_type b, ab_adapter_actor_id b, ab_route_key b, ab_created_by b,
   ab_created_at b).

(** The event that took a binding to a version *)
Definition history_event (b : uuid) (version : Z) (e : CompensationAdapterBindingLifecycleEvent) : Prop :=
  be_adapter_binding_id e = b ∧ be_to_lifecycle_version e = version ∧
  be_from_lifecycle_version e = version - 1 ∧ be_event_type e = type_at version ∧
  be_to_status e = status_at version.

(** The suspension a resumption names came just before it. *)
Definition suspension_before (e : CompensationAdapterBindingLifecycleEvent) (p : uuid)
    (s : CompensationAdapterBindingLifecycleEvent) : Prop :=
  be_id s = p ∧ be_event_type s = binding_suspended ∧
  be_adapter_binding_id s = be_adapter_binding_id e ∧
  be_to_lifecycle_version s = be_from_lifecycle_version e.

Record binding_inv (db : BindingDb) : Prop := {
  bn_bindings : bindings_ok (bd_bindings db);
  bn_events : binding_events_ok (bd_events db);
  bn_status b : b ∈ bd_bindings db → ab_status b = status_at (ab_binding_lifecycle_version b);
  bn_owner e : e ∈ bd_events db → ∃ b, b ∈ bd_bindings db ∧ ab_id b = be_adapter_binding_id e ∧
    ab_project_id b = be_project_id e ∧
    1 ≤ be_to_lifecycle_version e ≤ ab_binding_lifecycle_version b;
  bn_history b k : b ∈ bd_bindings db → 1 ≤ k ≤ ab_binding_lifecycle_version b →
    ∃ e, e ∈ bd_events db ∧ history_event (ab_id b) k e;
  bn_prior e p : e ∈ bd_events db → be_prior_suspension_event_id e = Some p →
    ∃ s, s ∈ bd_events db ∧ suspension_before e p s;
}.

Lemma binding_inv_empty : binding_inv {| bd_bindings := []; bd_events := [] |}.
Proof.
  split; [apply rows_ok_nil..| | | |]; cbn.
  - by intros b ?%elem_of_nil.
  - by intros e ?%elem_of_nil.
  - by intros b k ?%elem_of_nil.
  - by intros e p ?%elem_of_nil.
Qed.

Lemma version_pos db b :
  bindings_ok (bd_bindings db) → b ∈ bd_bindings db → 1 ≤ ab_binding_lifecycle_version b.
Proof.
  intros Hok Hb. pose proof (ro_checks _ _ _ Hok b Hb) as Hc. unfold binding_checks in Hc.
  rewrite !andb_true_iff in Hc. lia.
Qed.

Lemma status_next v : 1 ≤ v → type_at (v + 1) = if Z.odd v then binding_suspended else binding_resumed.
Proof.
  intros H. unfold type_at. replace (v + 1 =? 1) with false by lia.
  replace (v + 1) with (Z.succ v) by lia. rewrite Z.odd_succ, <- Z.negb_odd. by destruct (Z.odd v).
Qed.

Lemma status_at_next v : status_at (v + 1) = if Z.odd v then suspended else active.
Proof.
  unfold status_at. replace (v + 1) with (Z.succ v) by lia. rewrite Z.odd_succ, <- Z.negb_odd.
  by destruct (Z.odd v).
Qed.

(** The previous version of the changed binding *)
Definition previous_version (db : BindingDb) (b : ProjectCompensationAdapterBinding) : Prop :=
  (ab_binding_lifecycle_version b = 1 ∧ ∀ x, x ∈ bd_bindings db → ab_id x ≠ ab_id b) ∨
  (∃ b0, b0 ∈ bd_bindings db ∧ binding_identity b0 = binding_identity b ∧
         ab_binding_lifecycle_version b = ab_binding_lifecycle_version b0 + 1).

Lemma change_shape i db q bs b e :
  binding_change i db q bs b e → binding_inv db → bindings_ok bs →
  history_event (ab_id b) (ab_binding_lifecycle_version b) e ∧ ab_project_id b = be_project_id e ∧
  ab_status b = status_at (ab_binding_lifecycle_version b) ∧
  (∀ x, x ∈ bs ↔ x = b ∨ (x ∈ bd_bindings db ∧ ab_id x ≠ ab_id b)) ∧ previous_version db b.
Proof.
  intros [q' digest|q' digest b0 (Hb & Hp & _)%get_binding_Some Hs _
    |q' digest b0 pr (Hb & Hp & _)%get_binding_Some Hs _ _] Hinv Hok.
  - assert (∀ x, x ∈ bd_bindings db → ab_id x ≠ bi_binding_id i) as Hfresh.
    { intros x [k Hk]%list_elem_of_lookup E.
      pose proof (ro_unique _ _ _ Hok k (length (bd_bindings db)) x (new_binding i q' (bc_actor_profile_id q'))) as Hu.
      enough (binding_conflicts x (new_binding i q' (bc_actor_profile_id q')) = false) as Hc.
      { apply not_true_iff_false in Hc. apply Hc, binding_conflicts_eq. by left. }
      pose proof (lookup_lt_Some _ _ _ Hk). apply Hu; [by apply lookup_app_l_Some|by rewrite list_lookup_middle|lia]. }
    split_and!; [done..| |by left]. intros x. rewrite elem_of_app, list_elem_of_singleton. cbn [ab_id new_binding].
    split; [|tauto]. intros [Hx|Hx]; [right; eauto|by left].
  - pose proof (bn_status _ Hinv _ Hb) as Hst. rewrite Hs in Hst.
    pose proof (version_pos _ _ (bn_bindings _ Hinv) Hb) as Hpos.
    assert (Z.odd (ab_binding_lifecycle_version b0) = true) as Ho
      by (unfold status_at in Hst; by destruct (Z.odd _)).
    split_and!; [unfold history_event; cbn; rewrite status_next, status_at_next, Ho by done;
      split_and!; (done || lia)|done|cbn; by rewrite status_at_next, Ho| |].
    + intros x. rewrite elem_of_set_row. cbn. naive_solver.
    + right. by exists b0.
  - pose proof (bn_status _ Hinv _ Hb) as Hst. rewrite Hs in Hst.
    pose proof (version_pos _ _ (bn_bindings _ Hinv) Hb) as Hpos.
    assert (Z.odd (ab_binding_lifecycle_version b0) = false) as Ho
      by (unfold status_at in Hst; by destruct (Z.odd _)).
    split_and!; [unfold history_event; cbn; rewrite status_next, status_at_next, Ho by done;
      split_and!; (done || lia)|done|cbn; by rewrite status_at_next, Ho| |].
    + intros x. rewrite elem_of_set_row. cbn. naive_solver.
    + right. by exists b0.
Qed.

(** The suspension a resumption names *)
Lemma change_prior i db q bs b e p :
  binding_change i db q bs b e → be_prior_suspension_event_id e = Some p →
  ∃ s, s ∈ bd_events db ∧ suspension_before e p s.
Proof.
  intros [| |q' digest b0 pr _ _ _ Hpr]; [done..|]. intros [= <-]. exists pr.
  apply find_Some_elem in Hpr as [Hpr [[E1%Z.eqb_eq E2%Z.eqb_eq]%andb_prop E3%bool_decide_eq_true]%andb_prop].
  done.
Qed.

Lemma binding_inv_step i q db r db' : binding_written i q db r db' → binding_inv db → binding_inv db'.
Proof.
  intros (e & b & _ & _ & _ & Hc & He & Hbs & Hes) Hinv.
  specialize (Hbs (bn_bindings _ Hinv)). specialize (Hes (bn_events _ Hinv)).
  destruct (change_shape _ _ _ _ _ _ Hc Hinv Hbs) as (Hh & Hp & Hs & Hmem & Hprev).
  assert (∀ x, x ∈ bd_events db' ↔ x ∈ bd_events db ∨ x = e) as Hev
    by (intros x; by rewrite He, elem_of_app, list_elem_of_singleton).
  assert (1 ≤ ab_binding_lifecycle_version b) as Hpos.
  { eapply version_pos; [exact Hbs|]. apply Hmem. by left. }
  split; [done..| | | |].
  - intros x [->|[Hx _]]%Hmem; [done|by apply (bn_status _ Hinv)].
  - intros x [Hx| ->]%Hev.
    + destruct (bn_owner _ Hinv x Hx) as (y & Hy & E1 & E2 & E3).
      destruct (decide (ab_id y = ab_id b)) as [E|E]; [|exists y; split; [apply Hmem; by right|done]].
      exists b. destruct Hprev as [[_ Hn]|(b0 & Hb0 & Eid & Ev)]; [by destruct (Hn y Hy)|].
      assert (y = b0) as ->.
      { apply (rows_unique _ _ _ _ _ (bn_bindings _ Hinv) Hy Hb0), binding_conflicts_eq. left. injection Eid. congruence. }
      injection Eid as F1 F2 _ _ _ _ _. split_and!; [apply Hmem; by left|congruence|congruence|lia|lia].
    + exists b. destruct Hh as (H1 & H2 & _). split_and!; [apply Hmem; by left|done|done|lia|lia].
  - intros x k [->|[Hx _]]%Hmem Hk.
    + destruct (decide (k = ab_binding_lifecycle_version b)) as [->|Hne]; [exists e; split; [apply Hev; by right|done]|].
      destruct Hprev as [[E _]|(b0 & Hb0 & Eid & Ev)]; [lia|]. injection Eid as F1 _ _ _ _ _ _.
      destruct (bn_history _ Hinv b0 k) as (f & Hf & H); [done|lia|]. exists f. rewrite <- F1. split; [apply Hev; by left|done].
    + destruct (bn_history _ Hinv x k) as (f & Hf & H); [done..|]. exists f. split; [apply Hev; by left|done].
  - intros x p [Hx| ->]%Hev E.
    + destruct (bn_prior _ Hinv x p Hx E) as (s & Hs' & H). exists s. split; [apply Hev; by left|done].
    + destruct (change_prior _ _ _ _ _ _ _ Hc E) as (s & Hs' & H). exists s. split; [apply Hev; by left|done].
Qed.

(** ** Reachable states *)

Definition binding_call (db db' : BindingDb) : Prop := ∃ i q r, run_binding i q db = Ok (r, db').
Definition no_bindings : BindingDb := {| bd_bindings := []; bd_events := [] |}.
Definition binding_reachable (db : BindingDb) : Prop := rtc binding_call no_bindings db.

Lemma binding_inv_calls db db' : rtc binding_call db db' → binding_inv db → binding_inv db'.
Proof.
  induction 1 as [|db db1 db2 (i & q & r & H) _ IH]; [done|]. intros Hinv. apply IH.
  apply run_binding_Ok in H as [[-> _]|H]; [done|by eapply binding_inv_step].
Qed.

Lemma reachable_inv db : binding_reachable db → binding_inv db.
Proof. intros H. apply (binding_inv_calls _ _ H), binding_inv_empty. Qed.

(** What the events of a well-formed state name *)
Lemma named_suspensions db e :
  binding_inv db → e ∈ bd_events db →
  match be_event_type e with
  | binding_resumed =>
      ∃ p s, be_prior_suspension_event_id e = Some p ∧ s ∈ bd_events db ∧ suspension_before e p s
  | _ => be_prior_suspension_event_id e = None
  end.
Proof.
  intros Hinv He. pose proof (ro_checks _ _ _ (bn_events _ Hinv) e He) as Hc. unfold binding_event_checks in Hc.
  apply andb_prop in Hc as [_ Hc]. pose proof (bn_prior _ Hinv e) as Hp.
  destruct (be_event_type e); apply andb_prop in Hc as [_ Hc];
    destruct (be_prior_suspension_event_id e) as [p|]; try done.
  destruct (Hp p He eq_refl) as (s & Hs). by exists p, s.
Qed.

(** C27. Bindings are well formed in every state a sequence of calls can reach, whatever the ports
    answer: at most one binding of an instrument is active in a project; a binding is active at
    odd life cycle versions and suspended at even ones; for each of its versions it has exactly
    one event, of the type that version calls for, and every event belongs to a binding of its
    project; every resumption names the suspension of its binding that came just before it, and
    no other event names one. *)
Theorem binding_history db :
  binding_reachable db →
  (∀ b c, b ∈ bd_bindings db → c ∈ bd_bindings db → ab_project_id b = ab_project_id c →
     ab_instrument_type b = ab_instrument_type c → ab_status b = active → ab_status c = active → b = c) ∧
  (∀ b, b ∈ bd_bindings db → ab_status b = status_at (ab_binding_lifecycle_version b) ∧
     ∀ k, 1 ≤ k ≤ ab_binding_lifecycle_version b →
       ∃ e, e ∈ bd_events db ∧ history_event (ab_id b) k e ∧
         ∀ f, f ∈ bd_events db → be_adapter_binding_id f = ab_id b → be_to_lifecycle_version f = k → f = e) ∧
  (∀ e, e ∈ bd_events db →
     ∃ b, b ∈ bd_bindings db ∧ ab_id b = be_adapter_binding_id e ∧ ab_project_id b = be_project_id e ∧
       1 ≤ be_to_lifecycle_version e ≤ ab_binding_lifecycle_version b) ∧
  (∀ e, e ∈ bd_events db →
     match be_event_type e with
     | binding_resumed =>
         ∃ p s, be_prior_suspension_event_id e = Some p ∧ s ∈ bd_events db ∧ suspension_before e p s
     | _ => be_prior_suspension_event_id e = None
     end).
Proof.
  intros Hinv%reachable_inv. split_and!.
  - intros b c Hb Hc E1 E2 E3 E4. apply (rows_unique _ _ _ _ _ (bn_bindings _ Hinv) Hb Hc), binding_conflicts_eq. by right.
  - intros b Hb. split; [by apply (bn_status _ Hinv)|]. intros k Hk.
    destruct (bn_history _ Hinv b k Hb Hk) as (e & He & H). exists e. split_and!; [done..|].
    intros f Hf E1 E2. apply (rows_unique _ _ _ _ _ (bn_events _ Hinv) Hf He), binding_event_conflicts_eq.
    destruct H as (H1 & H2 & _). right; right. by rewrite H1, H2.
  - apply (bn_owner _ Hinv).
  - intros e. by apply named_suspensions.
Qed.

(** ** Replay *)

(** The evidence a request left: its event, and the binding that event belongs to *)
Definition binding_evidence (q : AdapterBindingMutationRequest) (r : AdapterBindingMutationResult)
    (db : BindingDb) : Prop :=
  ∃ e b, e ∈ bd_events db ∧ b ∈ bd_bindings db ∧ r = binding_result e ∧
    be_operation_id e = binding_operation_id q ∧ _request_digest q = Some (be_request_digest e) ∧
    be_event_type e = event_by_action (binding_action q) ∧
    be_actor_profile_id e = binding_actor_id q ∧ be_project_id e = binding_project_id q ∧
    ab_project_id b = binding_project_id q ∧ ab_id b = be_adapter_binding_id e ∧
    _recovery_binding_matches q b = true.

Lemma change_evidence i db q bs b e :
  binding_change i db q bs b e →
  be_operation_id e = binding_operation_id q ∧ be_event_type e = event_by_action (binding_action q) ∧
  be_actor_profile_id e = binding_actor_id q ∧ be_project_id e = binding_project_id q ∧
  ab_project_id b = binding_project_id q ∧ ab_id b = be_adapter_binding_id e ∧ b ∈ bs ∧
  _recovery_binding_matches q b = true.
Proof.
  intros [q' digest|q' digest b0 (Hb & Hp & Hi)%get_binding_Some _ _|q' digest b0 pr (Hb & Hp & Hi)%get_binding_Some _ _ _].
  - split_and!; [done..| |].
    + apply elem_of_app. right. by apply list_elem_of_singleton.
    + cbn. rewrite bool_decide_eq_true_2, Z.eqb_refl by done. by apply bool_decide_eq_true_2.
  - split_and!; [done..| |by apply Z.eqb_eq]. apply elem_of_set_row. left. eauto.
  - split_and!; [done..| |by apply Z.eqb_eq]. apply elem_of_set_row. left. eauto.
Qed.

Lemma run_evidence i q db r db' :
  run_binding i q db = Ok (r, db') → binding_evidence q r db'.
Proof.
  intros [[-> (e & digest & He & Hd & Hr & -> & Hed)]|(e & b & -> & Hd & _ & Hc & Hev & _ & _)]%run_binding_Ok.
  - pose proof (recover_Some _ _ _ _ _ Hr) as (e' & He' & _ & _ & H1 & H2 & H3). simplify_eq.
    unfold _recover in Hr. rewrite He in Hr.
    apply ensure_bind_Ok in Hr as [_ (b & (Hb & E1 & E2)%oget_Ok%get_binding_Some & [Hm _]%ensure_bind_Ok)%result_bind_Ok].
    apply find_Some_elem in He as [He Eop%Z.eqb_eq]. exists e, b. naive_solver.
  - destruct (change_evidence _ _ _ _ _ _ Hc) as (H1 & H2 & H3 & H4 & H5 & H6 & H7 & H8).
    exists e, b. rewrite Hev. split_and!; try done. apply elem_of_app. right. by apply list_elem_of_singleton.
Qed.

Lemma recovery_matches_identity q b c :
  binding_identity b = binding_identity c → _recovery_binding_matches q b = _recovery_binding_matches q c.
Proof. intros [= E1 E2 E3 E4 E5 _ _]. destruct q; cbn; by rewrite ?E1, ?E3, ?E4, ?E5. Qed.

Lemma evidence_call q r db db' :
  binding_inv db → binding_call db db' → binding_evidence q r db → binding_evidence q r db'.
Proof.
  intros Hinv (i & q' & r' & [[-> _]|(e' & b' & _ & _ & _ & Hc & Hev & Hbs & _)]%run_binding_Ok); [done|].
  specialize (Hbs (bn_bindings _ Hinv)).
  destruct (change_shape _ _ _ _ _ _ Hc Hinv Hbs) as (_ & _ & _ & Hmem & Hprev).
  intros (e & b & He & Hb & H1 & H2 & H3 & H4 & H5 & H6 & H7 & H8 & H9).
  assert (∃ c, c ∈ bd_bindings db' ∧ binding_identity c = binding_identity b) as (c & Hcin & Ec).
  { destruct (decide (ab_id b = ab_id b')) as [E|E]; [|exists b; split; [apply Hmem; by right|done]].
    destruct Hprev as [[_ Hn]|(b0 & Hb0 & Eid & _)]; [by destruct (Hn b Hb)|].
    exists b'. split; [apply Hmem; by left|]. rewrite <- Eid. f_equal.
    apply (rows_unique _ _ _ _ _ (bn_bindings _ Hinv) Hb0 Hb), binding_conflicts_eq. left.
    injection Eid. congruence. }
  exists e, c. rewrite (recovery_matches_identity q _ _ Ec). injection Ec as E1 E2 _ _ _ _ _.
  rewrite Hev, E1, E2. split_and!; try done. apply elem_of_app. by left.
Qed.

Lemma evidence_calls q r db db' :
  rtc binding_call db db' → binding_inv db → binding_evidence q r db → binding_evidence q r db'.
Proof.
  induction 1 as [|db db1 db2 H1 _ IH]; [done|]. intros Hinv He. apply IH.
  - apply (binding_inv_calls db); [by apply rtc_once|done].
  - by eapply evidence_call.
Qed.

(** A caller who may repeat a request *)
Definition may_repeat (i : BindingInputs) (q : AdapterBindingMutationRequest) : Prop :=
  _require_root_transaction i q = Ok tt ∧ lock_binding_scope i q = Ok tt ∧
  ∀ b, bi_read i {| br_actor_profile_id := binding_actor_id q; br_project_id := binding_project_id q;
                    br_adapter_binding_id := b |} = Ok tt.

Lemma recover_evidence i q r db :
  binding_inv db → binding_evidence q r db → may_repeat i q →
  ∃ digest, _request_digest q = Some digest ∧ _recover i q digest db = Ok (Some r).
Proof.
  intros Hinv (e & b & He & Hb & -> & H2 & H3 & H4 & H5 & H6 & H7 & H8 & H9) (_ & _ & Hread).
  exists (be_request_digest e). split; [done|]. unfold _recover.
  assert (get_binding_event (binding_operation_id q) db = Some e) as ->.
  { apply find_unique; [done|by apply Z.eqb_eq|]. intros f Hf E%Z.eqb_eq.
    apply (rows_unique _ _ _ _ _ (bn_events _ Hinv) Hf He), binding_event_conflicts_eq. right; left. congruence. }
  rewrite H4, H5, H6, bool_decide_eq_true_2, !Z.eqb_refl by done. unfold str_eqb.
  rewrite bool_decide_eq_true_2 by done. run.
  rewrite <- H7, <- H8, get_binding_stored by (done || apply Hinv). run. rewrite H9. run.
  by rewrite H7, H8, Hread.
Qed.

Lemma run_recovered i q r digest db :
  may_repeat i q → _request_digest q = Some digest → _recover i q digest db = Ok (Some r) →
  run_binding i q db = Ok (r, db).
Proof.
  intros (H1 & H2 & _) Hd Hr.
  destruct q as [q|q|q]; cbn [run_binding]; unfold create_binding, suspend, resume, mutate_binding;
    rewrite H1; run; rewrite Hd; run; [rewrite H2; run|..]; rewrite Hr; done.
Qed.

(** A repeated request returns its first result.  Once a request has succeeded, then after
    any further calls the same request, by a caller who may still make it, returns the very same
    result and changes nothing; and any request under the same operation that succeeds returns
    that result and has the same digest. *)
Theorem binding_replay i q db r db1 db2 :
  binding_reachable db → run_binding i q db = Ok (r, db1) → rtc binding_call db1 db2 →
  (∀ j, may_repeat j q → run_binding j q db2 = Ok (r, db2)) ∧
  (∀ j q' r' db', binding_operation_id q' = binding_operation_id q → run_binding j q' db2 = Ok (r', db') →
     r' = r ∧ db' = db2 ∧ _request_digest q' = _request_digest q).
Proof.
  intros Hr Hrun Hc. assert (binding_inv db1) as Hinv1.
  { apply reachable_inv. eapply rtc_r; [exact Hr|]. by exists i, q, r. }
  pose proof (binding_inv_calls _ _ Hc Hinv1) as Hinv2.
  pose proof (evidence_calls _ _ _ _ Hc Hinv1 (run_evidence _ _ _ _ _ Hrun)) as Hev. split.
  - intros j Hj. destruct (recover_evidence _ _ _ _ Hinv2 Hev Hj) as (digest & Hd & Hrec).
    by eapply run_recovered.
  - intros j q' r' db' Eop H. destruct Hev as (e & b & He & _ & -> & H2 & H3 & _).
    apply run_binding_Ok in H as [[-> (f & d & Hf & Hd & _ & -> & <-)]|(f & c & _ & _ & Hn & _)].
    + apply find_Some_elem in Hf as [Hf E%Z.eqb_eq].
      assert (f = e) as ->; [|by rewrite Hd, H3].
      apply (rows_unique _ _ _ _ _ (bn_events _ Hinv2) Hf He), binding_event_conflicts_eq. right; left. congruence.
    + pose proof (find_None_elem _ _ _ Hn He) as E. cbn in E. rewrite H2, Eop, Z.eqb_refl in E. done.
Qed.
