(* ===== verification/PolicyApi.v ===== *)
(** * Contribution policies: values, quantities and digests
    (modules/contributions/api/policies.py, policy_validation.py, policy_graph.py)

    The requests of the policy service, the validation of a rule graph, the decimal quantities of
    its award definitions and the digests that authority commits to.  Main results: a quantity
    that was accepted is printed back as it was written and satisfies the bounds of its column; a
    stored quantity is printed in a form that is accepted again with the same value. *)

From S2P Require Import Prelude Text Digest Json Instant Lifecycle Awards Contributions.

(** ** Values *)

Inductive PolicyAction := policy_create_draft | policy_update_draft | policy_publish | policy_retire.
Inductive PolicyEventType := draft_created | draft_updated | event_published | event_retired.
Inductive ContributionPolicyStatus := policy_draft | policy_active | policy_retired.

#[export] Instance policy_event_type_eq_dec : EqDecision PolicyEventType.
Proof. solve_decision. Defined.
#[export] Instance contribution_policy_status_eq_dec : EqDecision ContributionPolicyStatus.
Proof. solve_decision. Defined.

(** The messages of [ContributionPolicyConflict] *)
Inductive PolicyMessage :=
| contribution_policy_not_found | contribution_policy_conflict
| compensation_unit_not_found | compensation_unit_conflict | compensation_unit_invalid.

Inductive PolicyExn :=
| ContributionPolicyUnavailable
| ContributionPolicyAuthorizationDenied
| ContributionPolicyAuthorizationUnavailable
| ContributionPolicyConflict (m : PolicyMessage)
| PolicyKeyError                 (** a [KeyError] that leaves the call *)
| PolicyValueError               (** a [ValueError] that leaves the call *)
| PolicyDatabaseError            (** a constraint or a trigger of the database *).

Definition not_found : PolicyExn := ContributionPolicyConflict contribution_policy_not_found.
Definition conflict : PolicyExn := ContributionPolicyConflict contribution_policy_conflict.

Record PolicyDefinitionInput := {
  pd_instrument_type : CompensationInstrumentType;
  pd_unit_code : str;
  pd_quantity : str;
  pd_adapter_binding_id : uuid;
}.

Record PolicyRuleInput := {
  pu_contribution_type : ContributionType;
  pu_compensation_mode : CompensationMode;
  pu_definitions : list PolicyDefinitionInput;
}.

Record ContributionPolicyReadRequest := {
  rq_actor_profile_id : uuid;
  rq_project_id : uuid;
  rq_contribution_policy_id : uuid;
  rq_contribution_policy_version_id : option uuid;
}.

Record ContributionPolicyCreateDraftRequest := {
  dq_operation_id : uuid;
  dq_actor_profile_id : uuid;
  dq_project_id : uuid;
  dq_name : str;
}.

(** [ContributionPolicyPublishRequest], [ContributionPolicyRetireRequest] and the selectors of
    [ContributionPolicyUpdateDraftRequest] have the same fields. *)
Record PolicyVersionRequest := {
  vq_operation_id : uuid;
  vq_actor_profile_id : uuid;
  vq_project_id : uuid;
  vq_contribution_policy_id : uuid;
  vq_contribution_policy_version_id : uuid;
}.

Record ContributionPolicyUpdateDraftRequest := {
  uq_selectors : PolicyVersionRequest;
  uq_rules : list PolicyRuleInput;
}.

Record ProjectCompensationUnitCreateRequest := {
  xq_operation_id : uuid;
  xq_actor_profile_id : uuid;
  xq_project_id : uuid;
  xq_instrument_type : CompensationInstrumentType;
  xq_unit_code : str;
}.

(** [PolicyMutationRequest] *)
Inductive PolicyMutationRequest :=
| CreateDraft (q : ContributionPolicyCreateDraftRequest)
| UpdateDraft (q : ContributionPolicyUpdateDraftRequest)
| Publish (q : PolicyVersionRequest)
| Retire (q : PolicyVersionRequest).

Definition operation_id (q : PolicyMutationRequest) : uuid :=
  match q with
  | CreateDraft q => dq_operation_id q
  | UpdateDraft q => vq_operation_id (uq_selectors q)
  | Publish q | Retire q => vq_operation_id q
  end.

Definition actor_profile_id (q : PolicyMutationRequest) : uuid :=
  match q with
  | CreateDraft q => dq_actor_profile_id q
  | UpdateDraft q => vq_actor_profile_id (uq_selectors q)
  | Publish q | Retire q => vq_actor_profile_id q
  end.

Definition project_id (q : PolicyMutationRequest) : uuid :=
  match q with
  | CreateDraft q => dq_project_id q
  | UpdateDraft q => vq_project_id (uq_selectors q)
  | Publish q | Retire q => vq_project_id q
  end.

Definition action_of (q : PolicyMutationRequest) : PolicyAction :=
  match q with
  | CreateDraft _ => policy_create_draft
  | UpdateDraft _ => policy_update_draft
  | Publish _ => policy_publish
  | Retire _ => policy_retire
  end.

(** The event a request leaves *)
Definition expected_event_type (q : PolicyMutationRequest) : PolicyEventType :=
  match q with
  | CreateDraft _ => draft_created
  | UpdateDraft _ => draft_updated
  | Publish _ => event_published
  | Retire _ => event_retired
  end.

(** ** Quantities *)

(** [^(?:0|[1-9][0-9]{0,19})(?:\.[0-9]{1,18})?$] and [Decimal(value)] *)
Definition integer_part (ip : str) : bool :=
  match ip with
  | [] => false
  | [c] => true
  | c :: _ => negb (c =? 48) && (len ip <=? 20)
  end.

Definition parse_quantity (v : str) : option Decimal :=
  let '(ip, rest) := take_digits v in
  if integer_part ip then
    match rest with
    | [] => Some {| dc_units := digits_value ip; dc_scale := 0 |}
    | c :: fp =>
        if (c =? 46) && forallb is_digit fp && (1 <=? len fp) && (len fp <=? 18)
        then Some {| dc_units := digits_value (ip ++ fp); dc_scale := len fp |} else None
    end
  else None.

Definition canonical_award_quantity (value : str) (instrument : option CompensationInstrumentType)
    : option Decimal :=
  match parse_quantity value with
  | Some q =>
      if (dc_units q <=? 0)
         || (bool_decide (instrument = Some PROJECT_POINTS) && (0 <? dc_scale q))
      then None else Some q
  | None => None
  end.

(** [format(value, "f")] for a decimal that is not negative *)
Definition format_f (d : Decimal) : str :=
  if dc_scale d =? 0 then dec_nonneg (dc_units d)
  else dec_nonneg (dc_units d / 10 ^ dc_scale d)
       ++ 46 :: pad_dec (Z.to_nat (dc_scale d)) (dc_units d mod 10 ^ dc_scale d).

(** [s.rstrip(c)] *)
Fixpoint lstrip_char (c : Z) (s : str) : str :=
  match s with
  | x :: s' => if x =? c then lstrip_char c s' else s
  | [] => []
  end.
Definition rstrip_char (c : Z) (s : str) : str := rev (lstrip_char c (rev s)).

Definition _canonical_quantity (d : Decimal) : str :=
  let rendered := format_f d in
  if existsb (Z.eqb 46) rendered then rstrip_char 46 (rstrip_char 48 rendered) else rendered.

(** ** Names and graphs *)

(** [str.isspace] of one character *)
Definition py_isspace (c : Z) : bool :=
  ((9 <=? c) && (c <=? 13)) || ((28 <=? c) && (c <=? 32)) || (c =? 0x85) || (c =? 0xA0)
  || (c =? 0x1680) || ((0x2000 <=? c) && (c <=? 0x200A)) || (c =? 0x2028) || (c =? 0x2029)
  || (c =? 0x202F) || (c =? 0x205F) || (c =? 0x3000).

Fixpoint lstrip_space (s : str) : str :=
  match s with
  | x :: s' => if py_isspace x then lstrip_space s' else s
  | [] => []
  end.

(** [s.strip()] *)
Definition strip (s : str) : str := rev (lstrip_space (rev (lstrip_space s))).

Definition validate_policy_name (name : str) : bool :=
  str_eqb name (strip name) && (1 <=? len name) && (len name <=? 200).

Definition _validate_definition (d : PolicyDefinitionInput) : bool :=
  match canonical_award_quantity (pd_quantity d) (Some (pd_instrument_type d)) with
  | Some _ => true
  | None => false
  end.

Definition _validate_rule (r : PolicyRuleInput) : bool :=
  let n := length (pu_definitions r) in
  negb (bool_decide (pu_compensation_mode r = UNPAID) && negb (n =? 0)%nat)
  && negb (bool_decide (pu_compensation_mode r = COMPENSATED) && negb ((1 <=? n) && (n <=? 2))%nat)
  && bool_decide (NoDup (map pd_instrument_type (pu_definitions r)))
  && forallb _validate_definition (pu_definitions r).

Definition validate_policy_graph (rules : list PolicyRuleInput) : bool :=
  (length rules =? 2)%nat
  && bool_decide (accepted_submission ∈ map pu_contribution_type rules)
  && bool_decide (completed_review ∈ map pu_contribution_type rules)
  && forallb _validate_rule rules.

(** ** Digests *)

Definition action_text (a : PolicyAction) : str :=
  match a with
  | policy_create_draft => lit "contribution.policy.create_draft"
  | policy_update_draft => lit "contribution.policy.update_draft"
  | policy_publish => lit "contribution.policy.publish"
  | policy_retire => lit "contribution.policy.retire"
  end.

Definition contribution_type_text (t : ContributionType) : str :=
  match t with
  | accepted_submission => lit "accepted_submission"
  | completed_review => lit "completed_review"
  end.

Definition mode_text (m : CompensationMode) : str :=
  match m with UNPAID => lit "unpaid" | COMPENSATED => lit "compensated" end.

Definition instrument_text (t : CompensationInstrumentType) : str :=
  match t with MONEY => lit "money" | PROJECT_POINTS => lit "project_points" end.

Definition definition_input_json (d : PolicyDefinitionInput) : json :=
  JObj [kv "instrument_type" (JStr (instrument_text (pd_instrument_type d)));
        kv "unit_code" (JStr (pd_unit_code d)); kv "quantity" (JStr (pd_quantity d));
        kv "adapter_binding_id" (json_uuid (pd_adapter_binding_id d))].

Definition rule_input_json (r : PolicyRuleInput) : json :=
  JObj [kv "contribution_type" (JStr (contribution_type_text (pu_contribution_type r)));
        kv "compensation_mode" (JStr (mode_text (pu_compensation_mode r)));
        kv "definitions" (JArr (map definition_input_json (pu_definitions r)))].

Definition selectors_json (q : PolicyVersionRequest) : list (str * json) :=
  [kv "operation_id" (json_uuid (vq_operation_id q));
   kv "actor_profile_id" (json_uuid (vq_actor_profile_id q));
   kv "project_id" (json_uuid (vq_project_id q));
   kv "contribution_policy_id" (json_uuid (vq_contribution_policy_id q));
   kv "contribution_policy_version_id" (json_uuid (vq_contribution_policy_version_id q))].

(** [_json_value(asdict(request))] *)
Definition request_json (q : PolicyMutationRequest) : json :=
  match q with
  | CreateDraft q =>
      JObj [kv "operation_id" (json_uuid (dq_operation_id q));
            kv "actor_profile_id" (json_uuid (dq_actor_profile_id q));
            kv "project_id" (json_uuid (dq_project_id q)); kv "name" (JStr (dq_name q))]
  | UpdateDraft q =>
      JObj (selectors_json (uq_selectors q) ++ [kv "rules" (JArr (map rule_input_json (uq_rules q)))])
  | Publish q | Retire q => JObj (selectors_json q)
  end.

Definition policy_request_digest (q : PolicyMutationRequest) : option str :=
  canonical_json_hash
    (JObj [kv "domain" (JStr (lit "workstream.contribution.policy.operation.v1"));
           kv "action" (JStr (action_text (action_of q))); kv "request" (request_json q)]).

Definition unit_request_digest (q : ProjectCompensationUnitCreateRequest) : option str :=
  canonical_json_hash
    (JObj [kv "domain" (JStr (lit "workstream.contribution.policy.operation.v1"));
           kv "action" (JStr (lit "contribution.compensation_unit.create"));
           kv "request"
             (JObj [kv "operation_id" (json_uuid (xq_operation_id q));
                    kv "actor_profile_id" (json_uuid (xq_actor_profile_id q));
                    kv "project_id" (json_uuid (xq_project_id q));
                    kv "instrument_type" (JStr (instrument_text (xq_instrument_type q)));
                    kv "unit_code" (JStr (xq_unit_code q))])]).

(** ** The publication graph *)

(** Tuples of strings compare lexicographically. *)
Fixpoint keys_ltb (a b : list str) : bool :=
  match a, b with
  | _, [] => false
  | [], _ :: _ => true
  | x :: a', y :: b' => str_ltb x y || (str_eqb x y && keys_ltb a' b')
  end.

(** [sorted(l, key=...)] *)
Fixpoint insert_on {A} (key : A → list str) (e : A) (s : list A) : list A :=
  match s with
  | [] => [e]
  | x :: s' => if keys_ltb (key e) (key x) then e :: s else x :: insert_on key e s'
  end.
Definition sorted_on {A} (key : A → list str) (s : list A) : list A :=
  foldl (λ acc e, insert_on key e acc) [] s.

Lemma insert_on_Permutation {A} (key : A → list str) e s : insert_on key e s ≡ₚ e :: s.
Proof. induction s as [|y s IH]; [done|]. cbn. destruct (keys_ltb _ _); [done|]. rewrite IH. constructor. Qed.

Lemma sorted_on_Permutation {A} (key : A → list str) l : sorted_on key l ≡ₚ l.
Proof.
  unfold sorted_on.
  enough (∀ acc, foldl (λ acc e, insert_on key e acc) acc l ≡ₚ l ++ acc) as Hp by by rewrite Hp, app_nil_r.
  induction l as [|y l IH]; intros acc; [done|]. cbn. by rewrite IH, insert_on_Permutation, <- Permutation_middle.
Qed.

Definition rule_key (r : ContributionRule) : list str :=
  [contribution_type_text (ru_contribution_type r); uuid_text (ru_id r)].

Definition definition_key (d : ContributionAwardDefinition) : list str :=
  let f := dr_facts d in
  [instrument_text (df_instrument_type f); df_unit_code f; uuid_text (df_adapter_binding_id f);
   uuid_text (df_id f)].

Definition graph_definition_json (d : ContributionAwardDefinition) : json :=
  let f := dr_facts d in
  JObj [kv "adapter_binding_id" (json_uuid (df_adapter_binding_id f));
        kv "definition_id" (json_uuid (df_id f));
        kv "instrument_type" (JStr (instrument_text (df_instrument_type f)));
        kv "quantity" (JStr (_canonical_quantity (df_quantity f)));
        kv "unit_code" (JStr (df_unit_code f))].

(** A rule with its [award_definitions] *)
Abbreviation RuleGraph := (ContributionRule * list ContributionAwardDefinition)%type.

Definition graph_rule_json (r : RuleGraph) : json :=
  JObj [kv "compensation_mode" (JStr (mode_text (ru_compensation_mode r.1)));
        kv "contribution_type" (JStr (contribution_type_text (ru_contribution_type r.1)));
        kv "definitions" (JArr (map graph_definition_json (sorted_on definition_key r.2)));
        kv "rule_id" (json_uuid (ru_id r.1))].

Definition publication_graph_facts (rules : list RuleGraph) : option (str * list uuid) :=
  let ids := concat (map (λ r, map (λ d, df_adapter_binding_id (dr_facts d)) r.2) rules) in
  match canonical_json_hash
          (JObj [kv "rules" (JArr (map graph_rule_json (sorted_on (λ r, rule_key r.1) rules)))]) with
  | Some digest => Some (digest, sorted_on (λ u, [uuid_text u]) (remove_dups ids))
  | None => None
  end.

(** ** Quantities are printed and read back *)

Lemma take_digits_spec v ip rest :
  take_digits v = (ip, rest) → v = ip ++ rest ∧ forallb is_digit ip = true.
Proof.
  revert ip rest. induction v as [|c v IH]; intros ip rest; cbn; [by intros [= <- <-]|].
  destruct (is_digit c) eqn:E; [|by intros [= <- <-]].
  destruct (take_digits v) as [d r]. intros [= <- <-]. destruct (IH d r eq_refl) as [-> Hd].
  cbn. by rewrite E.
Qed.

Lemma take_digits_point ip fp :
  forallb is_digit ip = true → take_digits (ip ++ 46 :: fp) = (ip, 46 :: fp).
Proof. induction ip as [|c ip IH]; cbn; [done|]. intros [-> H]%andb_prop. by rewrite IH. Qed.

Lemma integer_part_reads ip :
  forallb is_digit ip = true → integer_part ip = true →
  dec_nonneg (digits_value ip) = ip ∧ 0 ≤ digits_value ip < 10 ^ 20.
Proof.
  intros Hd Hi. pose proof (digits_value_range _ Hd) as Hr.
  assert (len ip ≤ 20) as Hl.
  { destruct ip as [|c [|]]; [done|done|]. by apply andb_prop in Hi as [_ Hi%Z.leb_le]. }
  assert (10 ^ len ip ≤ 10 ^ 20) by (apply Z.pow_le_mono_r; lia).
  split; [|lia]. destruct ip as [|c ds]; [done|]. destruct (decide (c = 48)) as [->|Hne].
  - by destruct ds.
  - by apply dec_nonneg_of_digits.
Qed.

(** What the column [quantity] admits *)
Definition quantity_ok (d : Decimal) : Prop :=
  0 < dc_units d ∧ dc_units d < 10 ^ 20 * 10 ^ dc_scale d ∧ 0 ≤ dc_scale d ≤ 18.

Lemma parse_quantity_Some v d :
  parse_quantity v = Some d →
  format_f d = v ∧ 0 ≤ dc_units d < 10 ^ 20 * 10 ^ dc_scale d ∧ 0 ≤ dc_scale d ≤ 18.
Proof.
  unfold parse_quantity. destruct (take_digits v) as [ip rest] eqn:E.
  apply take_digits_spec in E as [-> Hd]. destruct (integer_part ip) eqn:Hi; [|done].
  destruct (integer_part_reads _ Hd Hi) as [Hip Hr].
  destruct rest as [|c fp].
  - intros [= <-]. unfold format_f. cbn [dc_scale dc_units]. rewrite app_nil_r, Hip.
    split_and!; [done|lia..].
  - destruct (_ && _) eqn:Hf; [|done]. intros [= <-].
    rewrite !andb_true_iff, !Z.leb_le, Z.eqb_eq in Hf. destruct Hf as [[[-> Hf] H1] H2].
    pose proof (digits_value_range _ Hf) as Hrf. unfold format_f. cbn [dc_scale dc_units].
    replace (len fp =? 0) with false by lia. rewrite digits_value_app.
    assert (0 < 10 ^ len fp) by (apply Z.pow_pos_nonneg; lia).
    rewrite Z.div_add_l, Z.div_small, Z.add_0_r, Hip by lia.
    rewrite Z.add_comm, Z.mod_add, Z.mod_small by lia.
    split_and!; [|nia|nia|lia..]. unfold len. rewrite Nat2Z.id. by rewrite pad_dec_of_digits.
Qed.

Lemma canonical_quantity_Some v i d :
  canonical_award_quantity v i = Some d →
  format_f d = v ∧ quantity_ok d ∧ (i = Some PROJECT_POINTS → dc_scale d = 0).
Proof.
  unfold canonical_award_quantity. destruct (parse_quantity v) as [q|] eqn:E; [|done].
  destruct (_ || _) eqn:Ho; [done|]. intros [= <-]. apply orb_false_iff in Ho as [H1 H2].
  apply parse_quantity_Some in E as (Hv & Hu & Hs). unfold quantity_ok.
  split_and!; [done|lia|lia|lia|lia|]. intros ->. rewrite bool_decide_eq_true_2 in H2 by done. cbn in H2. lia.
Qed.

(** Trailing zeros *)
Lemma trailing c (s : str) : ∃ s' k, s = s' ++ replicate k c ∧ ¬ (∃ t, s' = t ++ [c]).
Proof.
  induction s as [|x s (s' & k & -> & Hs)] using rev_ind.
  { exists [], O. split; [done|]. intros [t Ht]. by destruct t. }
  destruct (decide (x = c)) as [->|Hne].
  - exists s', (S k). split; [|done]. rewrite replicate_S_end. by rewrite app_assoc.
  - exists ((s' ++ replicate k c) ++ [x]), O. split; [by rewrite app_nil_r|].
    intros [t [_ [= ->]]%app_inj_2]; done.
Qed.

Lemma rstrip_char_spec c s k : ¬ (∃ t, s = t ++ [c]) → rstrip_char c (s ++ replicate k c) = s.
Proof.
  intros Hs. unfold rstrip_char. rewrite rev_app_distr.
  assert (rev (replicate k c) = replicate k c) as ->.
  { clear. induction k as [|k IH]; [done|]. cbn. by rewrite IH, <- replicate_cons_app. }
  assert (lstrip_char c (rev s) = rev s) as Hl.
  { destruct s as [|x t _] using rev_ind; [done|]. rewrite rev_app_distr. cbn.
    destruct (x =? c) eqn:E; [|done]. apply Z.eqb_eq in E as ->. exfalso. apply Hs. by exists t. }
  induction k as [|k IH]; [by rewrite app_nil_l, Hl, rev_involutive|]. cbn. by rewrite Z.eqb_refl.
Qed.

Lemma digits_value_zeros ds k : digits_value (ds ++ replicate k 48) = digits_value ds * 10 ^ Z.of_nat k.
Proof.
  rewrite digits_value_app. unfold len. rewrite length_replicate.
  assert (digits_value (replicate k 48) = 0) as ->; [|lia].
  induction k as [|k IH]; [done|]. exact IH.
Qed.

Lemma dec_nonneg_integer_part n : 0 ≤ n < 10 ^ 20 → integer_part (dec_nonneg n) = true.
Proof.
  intros Hn. destruct (dec_nonneg_shape n) as [Hd (c & ds & E & H1 & H2)]; [lia|]. rewrite E in *.
  destruct (decide (n = 0)) as [->|Hne]; [by destruct (H2 eq_refl) as [-> ->]|].
  destruct ds as [|e ds]; [done|]. cbn [integer_part]. specialize (H1 Hne).
  pose proof (digits_value_lower c (e :: ds) Hd H1) as Hl. rewrite <- E, dec_nonneg_value in Hl by lia.
  replace (c =? 48) with false by lia. cbn [negb andb]. apply Z.leb_le.
  destruct (Z.le_gt_cases (len (c :: e :: ds)) 20) as [|Hgt]; [done|]. exfalso.
  assert (10 ^ 20 ≤ 10 ^ len (e :: ds)); [|lia]. apply Z.pow_le_mono_r; [lia|]. unfold len in *. cbn [length] in *. lia.
Qed.

Lemma parse_printed ip fp :
  forallb is_digit ip = true → integer_part ip = true → forallb is_digit fp = true → len fp ≤ 18 → fp ≠ [] →
  parse_quantity (ip ++ 46 :: fp) = Some {| dc_units := digits_value (ip ++ fp); dc_scale := len fp |}.
Proof.
  intros H1 H2 H3 H4 H5. unfold parse_quantity. rewrite take_digits_point, H2, H3 by done.
  assert (1 ≤ len fp) as H6 by (destruct fp; [done|]; unfold len; cbn [length]; lia).
  by rewrite (proj2 (Z.leb_le _ _) H6), (proj2 (Z.leb_le _ _) H4).
Qed.

Lemma parse_whole ip :
  forallb is_digit ip = true → integer_part ip = true →
  parse_quantity ip = Some {| dc_units := digits_value ip; dc_scale := 0 |}.
Proof.
  intros H1 H2. unfold parse_quantity. rewrite <- (app_nil_r ip) at 1. rewrite take_digits_app by done. by rewrite H2.
Qed.

(** A stored quantity is printed without trailing zeros. *)
Lemma canonical_quantity_reads d :
  quantity_ok d →
  ∃ d', parse_quantity (_canonical_quantity d) = Some d' ∧ dec_eqb d' d = true ∧
    0 < dc_units d' ∧ 0 ≤ dc_scale d' ≤ dc_scale d.
Proof.
  intros (Hu & Hb & Hs). unfold _canonical_quantity, format_f. destruct d as [u s]. cbn [dc_units dc_scale] in *.
  destruct (s =? 0) eqn:Es.
  { apply Z.eqb_eq in Es as ->. rewrite Z.pow_0_r in Hb.
    destruct (dec_nonneg_shape u) as [Hd _]; [lia|].
    assert (existsb (Z.eqb 46) (dec_nonneg u) = false) as ->.
    { apply not_true_iff_false. intros (c & Hc & <-%Z.eqb_eq)%existsb_exists.
      rewrite forallb_forall in Hd. by apply Hd in Hc. }
    exists {| dc_units := u; dc_scale := 0 |}. rewrite parse_whole by (done || apply dec_nonneg_integer_part; lia).
    rewrite dec_nonneg_value by lia. unfold dec_eqb. cbn. split_and!; [done|lia..]. }
  assert (0 < 10 ^ s) as Hp by (apply Z.pow_pos_nonneg; lia).
  set (ip := dec_nonneg (u / 10 ^ s)). set (fp := pad_dec (Z.to_nat s) (u mod 10 ^ s)).
  assert (0 ≤ u / 10 ^ s < 10 ^ 20) as Hq by (split; [apply Z.div_pos; lia|apply Z.div_lt_upper_bound; lia]).
  pose proof (Z.mod_pos_bound u _ Hp) as Hm.
  assert (forallb is_digit ip = true) as Hip by (apply dec_nonneg_shape; lia).
  assert (integer_part ip = true) as Hii by by apply dec_nonneg_integer_part.
  assert (forallb is_digit fp = true) as Hfp by apply pad_dec_digits.
  assert (len fp = s) as Hlen by (unfold len, fp; rewrite pad_dec_length, Z2Nat.id by lia; done).
  assert (digits_value fp = u mod 10 ^ s) as Hfv by (apply pad_dec_value; rewrite Z2Nat.id by lia; lia).
  assert (digits_value ip = u / 10 ^ s) as Hiv by (apply dec_nonneg_value; lia).
  assert (existsb (Z.eqb 46) (ip ++ 46 :: fp) = true) as ->.
  { apply existsb_exists. exists 46. split; [apply in_app_iff; right; by left|done]. }
  destruct (trailing 48 fp) as (fp' & k & Ef & Hend). rewrite Ef in *. clear Ef.
  rewrite forallb_app in Hfp. apply andb_prop in Hfp as [Hfp _].
  rewrite digits_value_zeros in Hfv. unfold len in Hlen. rewrite length_app, length_replicate in Hlen.
  replace (ip ++ 46 :: fp' ++ replicate k 48) with ((ip ++ 46 :: fp') ++ replicate k 48) by by rewrite <- app_assoc.
  rewrite rstrip_char_spec.
  2: { intros [t Ht]. destruct fp' as [|x t' _] using rev_ind.
    - by apply app_inj_2 in Ht as [_ [=]].
    - rewrite app_comm_cons, app_assoc in Ht. apply app_inj_2 in Ht as [_ [= ->]]; [|done]. apply Hend. by exists t'. }
  assert (u = u / 10 ^ s * 10 ^ s + u mod 10 ^ s) as Hdm by (rewrite Z.mul_comm; apply Z.div_mod; lia).
  destruct (decide (fp' = [])) as [->|Hne].
  - replace (ip ++ [46]) with (ip ++ replicate 1 46) by done. rewrite rstrip_char_spec.
    2: { intros [t Ht]. rewrite Ht, forallb_app in Hip. by apply andb_prop in Hip as [_ ?]. }
    rewrite parse_whole by done. eexists. split; [done|]. unfold dec_eqb. cbn [dc_units dc_scale].
    change (digits_value []) with 0 in Hfv. rewrite Z.pow_0_r, Hiv. split_and!; [lia| |lia|lia]. nia.
  - assert (rstrip_char 46 (ip ++ 46 :: fp') = ip ++ 46 :: fp') as ->.
    { rewrite <- (app_nil_r (ip ++ 46 :: fp')) at 1. apply (rstrip_char_spec 46 _ 0).
      intros [t Ht]. destruct fp' as [|x t' _] using rev_ind; [done|].
      rewrite app_comm_cons, app_assoc in Ht. apply app_inj_2 in Ht as [_ [= ->]]; [|done].
      rewrite forallb_app in Hfp. by apply andb_prop in Hfp as [_ ?]. }
    rewrite parse_printed by (done || unfold len; lia). eexists. split; [done|]. unfold dec_eqb.
    cbn [dc_units dc_scale]. rewrite digits_value_app, Hiv.
    assert (10 ^ s = 10 ^ len fp' * 10 ^ Z.of_nat k) as Hpow
      by (rewrite <- Z.pow_add_r by (unfold len; lia); f_equal; unfold len; lia).
    pose proof (digits_value_range _ Hfp) as Hr.
    split_and!; [apply Z.eqb_eq; rewrite Hdm at 2; rewrite <- Hfv, Hpow; ring| |unfold len; lia..].
    assert (0 < 10 ^ len fp') by (apply Z.pow_pos_nonneg; unfold len; lia). nia.
Qed.

Lemma canonical_quantity_accepted d i :
  quantity_ok d → (i = PROJECT_POINTS → dc_scale d = 0) →
  ∃ d', canonical_award_quantity (_canonical_quantity d) (Some i) = Some d' ∧ dec_eqb d' d = true.
Proof.
  intros Hd Hp. destruct (canonical_quantity_reads d Hd) as (d' & Hr & He & Hu & Hs). exists d'.
  split; [|done]. unfold canonical_award_quantity. rewrite Hr.
  replace (dc_units d' <=? 0) with false by lia. cbn [orb].
  destruct (bool_decide (Some i = Some PROJECT_POINTS)) eqn:E; [|done].
  apply bool_decide_eq_true_1 in E as [= ->]. specialize (Hp eq_refl).
  by replace (0 <? dc_scale d') with false by lia.
Qed.

(** Quantities are exact.  A quantity that is accepted is positive, has at most twenty digits
    before and eighteen after the point, is whole for points, so that the columns of definitions
    and awards admit it, and is printed back exactly as it was written.  A stored quantity is
    printed without trailing zeros in a form that is accepted again, for its instrument, with the
    same value. *)
Theorem quantities_exact :
  (∀ v i d, canonical_award_quantity v (Some i) = Some d →
     format_f d = v ∧ quantity_ok d ∧ (i = PROJECT_POINTS → dc_scale d = 0)) ∧
  (∀ d i, quantity_ok d → (i = PROJECT_POINTS → dc_scale d = 0) →
     ∃ d', canonical_award_quantity (_canonical_quantity d) (Some i) = Some d' ∧ dec_eqb d' d = true).
Proof.
  split.
  - intros v i d (Hv & Hd & Hp)%canonical_quantity_Some. split_and!; [done..|]. intros ->. by apply Hp.
  - apply canonical_quantity_accepted.
Qed.
