(* ===== verification/PolicyStore.v ===== *)
(** * Contribution policies: rows and repository
    (modules/contributions/models.py, contributions/repository.py, contributions/units/models.py)

    The tables of policies, versions, rules, definitions, units, custody and lifecycle events,
    their CHECK and UNIQUE constraints, and the repository's reads and flushes.  The three tables
    that acceptance reads are the [PolicyTables] of [Contributions].  Foreign keys and triggers
    are the condition [admits] of a flush. *)

From S2P Require Import Prelude Text Digest Json Instant Lifecycle Awards Contributions Rows PolicyApi.

(** ** Rows *)

Record ContributionPolicy := {
  cp_id : uuid;
  cp_project_id : uuid;
  cp_name : str;
  cp_status : ContributionPolicyStatus;
  cp_current_published_version_id : option uuid;
  cp_last_transition_operation_id : option uuid;
  cp_created_by : uuid;
  cp_created_at : instant;
  cp_retired_by : option uuid;
  cp_retired_at : option instant;
}.

Record ContributionPolicyTransitionCustody := {
  tc_id : uuid;
  tc_operation_id : uuid;
  tc_request_digest : str;
  tc_event_type : PolicyEventType;
  tc_actor_profile_id : uuid;
  tc_project_id : uuid;
  tc_contribution_policy_id : uuid;
  tc_contribution_policy_version_id : uuid;
  tc_prior_current_version_id : option uuid;
  tc_occurred_at : instant;
}.

Record ContributionPolicyLifecycleEvent := {
  le_id : uuid;
  le_operation_id : uuid;
  le_publication_custody_operation_id : option uuid;
  le_request_digest : str;
  le_event_type : PolicyEventType;
  le_actor_profile_id : uuid;
  le_project_id : uuid;
  le_contribution_policy_id : uuid;
  le_contribution_policy_version_id : uuid;
  le_version_number : Z;
  le_prior_current_version_id : option uuid;
  le_prior_current_version_number : option Z;
  le_from_policy_status : option ContributionPolicyStatus;
  le_to_policy_status : ContributionPolicyStatus;
  le_from_version_status : option PolicyStatus;
  le_to_version_status : PolicyStatus;
  le_occurred_at : instant;
}.

Inductive UnitStatus := unit_active | unit_retired.

#[export] Instance unit_status_eq_dec : EqDecision UnitStatus.
Proof. solve_decision. Defined.

Record ProjectCompensationUnit := {
  cu_project_id : uuid;
  cu_instrument_type : CompensationInstrumentType;
  cu_unit_code : str;
  cu_iso_currency_code : option str;
  cu_status : UnitStatus;
  cu_created_by : uuid;
  cu_created_at : instant;
  cu_retired_by : option uuid;
  cu_retired_at : option instant;
}.

Record ProjectCompensationUnitCreationEvent := {
  ue_id : uuid;
  ue_operation_id : uuid;
  ue_request_digest : str;
  ue_actor_profile_id : uuid;
  ue_project_id : uuid;
  ue_instrument_type : CompensationInstrumentType;
  ue_unit_code : str;
  ue_occurred_at : instant;
}.

Record PolicyDb := {
  pb_policies : list ContributionPolicy;
  pb_tables : PolicyTables;
  pb_units : list ProjectCompensationUnit;
  pb_custody : list ContributionPolicyTransitionCustody;
  pb_events : list ContributionPolicyLifecycleEvent;
  pb_unit_events : list ProjectCompensationUnitCreationEvent;
}.

(** ** CHECK constraints *)

(** [a is null or a >= b] *)
Definition not_before (a b : option instant) : bool :=
  match a, b with Some x, Some y => y <=? x | _, _ => true end.

(** [btrim(s)] *)
Definition btrim (s : str) : str := rstrip_char 32 (lstrip_char 32 s).

Definition policy_checks (p : ContributionPolicy) : bool :=
  uuid7_shape (cp_id p) && (1 <=? len (btrim (cp_name p))) && (len (btrim (cp_name p)) <=? 200)
  && match cp_status p with
     | policy_draft => none (cp_current_published_version_id p) && none (cp_retired_by p)
                       && none (cp_retired_at p)
     | policy_active => some (cp_current_published_version_id p) && none (cp_retired_by p)
                        && none (cp_retired_at p)
     | policy_retired => some (cp_current_published_version_id p) && some (cp_retired_by p)
                         && some (cp_retired_at p)
     end
  && not_before (cp_retired_at p) (Some (cp_created_at p)).

Definition version_checks (v : ContributionPolicyVersion) : bool :=
  uuid7_shape (pv_id v) && (0 <? pv_version_number v)
  && match pv_status v with
     | draft => none (pv_published_by v) && none (pv_published_at v) && none (pv_retired_by v)
                && none (pv_retired_at v)
     | published => some (pv_published_by v) && some (pv_published_at v) && none (pv_retired_by v)
                    && none (pv_retired_at v)
     | retired => some (pv_published_by v) && some (pv_published_at v) && some (pv_retired_by v)
                  && some (pv_retired_at v)
     end
  && not_before (pv_published_at v) (Some (pv_created_at v))
  && not_before (pv_retired_at v) (pv_published_at v).

Definition definition_checks (d : ContributionAwardDefinition) : bool :=
  let q := df_quantity (dr_facts d) in
  uuid7_shape (df_id (dr_facts d)) && (0 <? dc_units q) && (dc_units q <? 10 ^ 20 * 10 ^ dc_scale q)
  && (0 <=? dc_scale q) && (dc_scale q <=? 18)
  && (negb (bool_decide (df_instrument_type (dr_facts d) = PROJECT_POINTS)) || (dc_scale q =? 0)).

Definition rule_checks (r : ContributionRule) : bool := uuid7_shape (ru_id r).

(** [^[A-Za-z][A-Za-z0-9._:-]{0,31}$] *)
Definition points_unit_pattern (s : str) : bool :=
  match_token is_alpha (λ c, is_alnum c || (c =? 46) || (c =? 95) || (c =? 58) || (c =? 45)) 0 31 s.

(** A money unit references a currency code, which has three characters. *)
Definition unit_checks (u : ProjectCompensationUnit) : bool :=
  match cu_instrument_type u with
  | MONEY => match cu_iso_currency_code u with
             | Some c => str_eqb (cu_unit_code u) c && (len c =? 3)
             | None => false
             end
  | PROJECT_POINTS => none (cu_iso_currency_code u) && points_unit_pattern (cu_unit_code u)
  end
  && match cu_status u with
     | unit_active => none (cu_retired_by u) && none (cu_retired_at u)
     | unit_retired => some (cu_retired_by u) && some (cu_retired_at u)
     end
  && not_before (cu_retired_at u) (Some (cu_created_at u)).

Definition custody_checks (c : ContributionPolicyTransitionCustody) : bool :=
  uuid7_shape (tc_id c) && digest_pattern (tc_request_digest c)
  && bool_decide (tc_event_type c ∈ [event_published; event_retired]).

Definition event_checks (e : ContributionPolicyLifecycleEvent) : bool :=
  uuid7_shape (le_id e) && digest_pattern (le_request_digest e)
  && match le_event_type e with
     | draft_created => none (le_from_version_status e) && bool_decide (le_to_version_status e = draft)
     | draft_updated => bool_decide (le_from_version_status e = Some draft)
                        && bool_decide (le_to_version_status e = draft)
     | event_published => bool_decide (le_from_version_status e = Some draft)
                          && bool_decide (le_to_version_status e = published)
     | event_retired => bool_decide (le_from_version_status e = Some published)
                        && bool_decide (le_to_version_status e = retired)
     end
  && match le_event_type e with
     | draft_created | draft_updated => none (le_publication_custody_operation_id e)
     | event_published | event_retired =>
         bool_decide (le_publication_custody_operation_id e = Some (le_operation_id e))
     end.

Definition unit_event_checks (e : ProjectCompensationUnitCreationEvent) : bool :=
  uuid7_shape (ue_id e) && digest_pattern (ue_request_digest e)
  && bool_decide (ue_instrument_type e = PROJECT_POINTS).

(** ** UNIQUE constraints *)

Definition policy_conflicts (p q : ContributionPolicy) : bool :=
  (cp_id p =? cp_id q)
  || ((cp_project_id p =? cp_project_id q) && bool_decide (cp_status p = policy_active)
      && bool_decide (cp_status q = policy_active)).

Definition version_conflicts (v w : ContributionPolicyVersion) : bool :=
  (pv_id v =? pv_id w)
  || ((pv_contribution_policy_id v =? pv_contribution_policy_id w)
      && (pv_version_number v =? pv_version_number w)).

Definition rule_conflicts (r s : ContributionRule) : bool :=
  (ru_id r =? ru_id s)
  || ((ru_contribution_policy_version_id r =? ru_contribution_policy_version_id s)
      && bool_decide (ru_contribution_type r = ru_contribution_type s)).

Definition definition_conflicts (d e : ContributionAwardDefinition) : bool :=
  (df_id (dr_facts d) =? df_id (dr_facts e))
  || ((dr_contribution_rule_id d =? dr_contribution_rule_id e)
      && bool_decide (df_instrument_type (dr_facts d) = df_instrument_type (dr_facts e))).

Definition custody_conflicts (c d : ContributionPolicyTransitionCustody) : bool :=
  (tc_id c =? tc_id d) || (tc_operation_id c =? tc_operation_id d).

Definition event_conflicts (e f : ContributionPolicyLifecycleEvent) : bool :=
  (le_id e =? le_id f) || (le_operation_id e =? le_operation_id f)
  || (some (le_publication_custody_operation_id e)
      && bool_decide (le_publication_custody_operation_id e = le_publication_custody_operation_id f)).

Definition same_unit (project : uuid) (t : CompensationInstrumentType) (code : str)
    (u : ProjectCompensationUnit) : bool :=
  (cu_project_id u =? project) && bool_decide (cu_instrument_type u = t) && str_eqb (cu_unit_code u) code.

Definition unit_conflicts (u w : ProjectCompensationUnit) : bool :=
  same_unit (cu_project_id u) (cu_instrument_type u) (cu_unit_code u) w.

Definition unit_event_conflicts (e f : ProjectCompensationUnitCreationEvent) : bool :=
  (ue_id e =? ue_id f) || (ue_operation_id e =? ue_operation_id f)
  || ((ue_project_id e =? ue_project_id f)
      && bool_decide (ue_instrument_type e = ue_instrument_type f)
      && str_eqb (ue_unit_code e) (ue_unit_code f)).

Abbreviation insert_all := (insert_rows PolicyDatabaseError).

(** Changing the row with the identity of [p] *)
Definition put_policy (p : ContributionPolicy) (l : list ContributionPolicy)
    : result PolicyExn (list ContributionPolicy) :=
  put_row PolicyDatabaseError cp_id policy_checks policy_conflicts p l.

Definition put_version (v : ContributionPolicyVersion) (l : list ContributionPolicyVersion)
    : result PolicyExn (list ContributionPolicyVersion) :=
  put_row PolicyDatabaseError pv_id version_checks version_conflicts v l.

(** ** Reads *)

Definition get_event_by_operation (operation : uuid) (db : PolicyDb)
    : option ContributionPolicyLifecycleEvent :=
  List.find (λ e, le_operation_id e =? operation) (pb_events db).

Definition get_policy (project policy : uuid) (db : PolicyDb) : option ContributionPolicy :=
  List.find (λ p, (cp_project_id p =? project) && (cp_id p =? policy)) (pb_policies db).

(** The newest policy that is not retired: [order by created_at desc limit 1] *)
Definition newer_live (project : uuid) (best : option ContributionPolicy) (p : ContributionPolicy)
    : option ContributionPolicy :=
  if (cp_project_id p =? project) && negb (bool_decide (cp_status p = policy_retired)) then
    match best with
    | Some b => if cp_created_at b <? cp_created_at p then Some p else best
    | None => Some p
    end
  else best.

Definition get_reusable_policy (project : uuid) (db : PolicyDb) : option ContributionPolicy :=
  foldl (newer_live project) None (pb_policies db).

Definition get_open_draft (project : uuid) (db : PolicyDb) : option ContributionPolicyVersion :=
  List.find (λ v, (pv_project_id v =? project) && bool_decide (pv_status v = draft))
    (pt_versions (pb_tables db)).

Definition next_version_number (policy : uuid) (db : PolicyDb) : Z :=
  foldr Z.max 0 (map pv_version_number
    (List.filter (λ v, pv_contribution_policy_id v =? policy) (pt_versions (pb_tables db)))) + 1.

Definition get_version (project policy version : uuid) (db : PolicyDb)
    : option ContributionPolicyVersion :=
  List.find (λ v, (pv_project_id v =? project) && (pv_contribution_policy_id v =? policy)
                  && (pv_id v =? version)) (pt_versions (pb_tables db)).

Definition lock_unit (project : uuid) (t : CompensationInstrumentType) (code : str) (db : PolicyDb)
    : option ProjectCompensationUnit :=
  List.find (same_unit project t code) (pb_units db).

Definition get_unit_creation_event (operation : uuid) (db : PolicyDb)
    : option ProjectCompensationUnitCreationEvent :=
  List.find (λ e, ue_operation_id e =? operation) (pb_unit_events db).

(** The rows of a version's graph, in canonical order *)
Definition version_rules (version : uuid) (t : PolicyTables) : list ContributionRule :=
  sorted_on rule_key (List.filter (λ r, ru_contribution_policy_version_id r =? version) (pt_rules t)).

Definition version_definitions (version : uuid) (t : PolicyTables) : list ContributionAwardDefinition :=
  sorted_on definition_key
    (List.filter (λ d, df_contribution_policy_version_id (dr_facts d) =? version) (pt_definitions t)).

(** Rules with the definitions attached to them; a definition of another rule is a [KeyError]. *)
Definition lock_publication_graph (version : uuid) (db : PolicyDb)
    : result PolicyExn (list RuleGraph * list ContributionAwardDefinition) :=
  let rules := version_rules version (pb_tables db) in
  let definitions := version_definitions version (pb_tables db) in
  _ ← ensure (forallb (λ d, existsb (λ r, ru_id r =? dr_contribution_rule_id d) rules) definitions)
        PolicyKeyError;
  Ok (map (λ r, (r, List.filter (λ d, dr_contribution_rule_id d =? ru_id r) definitions)) rules, definitions).

(** ** Flushes *)

Definition with_tables (t : PolicyTables) (db : PolicyDb) : PolicyDb :=
  {| pb_policies := pb_policies db; pb_tables := t; pb_units := pb_units db;
     pb_custody := pb_custody db; pb_events := pb_events db; pb_unit_events := pb_unit_events db |}.

Definition with_policies (p : list ContributionPolicy) (db : PolicyDb) : PolicyDb :=
  {| pb_policies := p; pb_tables := pb_tables db; pb_units := pb_units db;
     pb_custody := pb_custody db; pb_events := pb_events db; pb_unit_events := pb_unit_events db |}.

Definition with_custody (c : list ContributionPolicyTransitionCustody) (db : PolicyDb) : PolicyDb :=
  {| pb_policies := pb_policies db; pb_tables := pb_tables db; pb_units := pb_units db;
     pb_custody := c; pb_events := pb_events db; pb_unit_events := pb_unit_events db |}.

Definition with_events (e : list ContributionPolicyLifecycleEvent) (db : PolicyDb) : PolicyDb :=
  {| pb_policies := pb_policies db; pb_tables := pb_tables db; pb_units := pb_units db;
     pb_custody := pb_custody db; pb_events := e; pb_unit_events := pb_unit_events db |}.

Definition with_units (u : list ProjectCompensationUnit) (e : list ProjectCompensationUnitCreationEvent)
    (db : PolicyDb) : PolicyDb :=
  {| pb_policies := pb_policies db; pb_tables := pb_tables db; pb_units := u;
     pb_custody := pb_custody db; pb_events := pb_events db; pb_unit_events := e |}.

Definition with_versions (v : list ContributionPolicyVersion) (t : PolicyTables) : PolicyTables :=
  {| pt_versions := v; pt_rules := pt_rules t; pt_definitions := pt_definitions t |}.

Section Flushes.
Context (admits : PolicyDb → PolicyDb → bool).

Definition admitted (db db' : PolicyDb) : result PolicyExn PolicyDb :=
  _ ← ensure (admits db db') PolicyDatabaseError;
  Ok db'.

Definition add_event (e : ContributionPolicyLifecycleEvent) (db : PolicyDb) : result PolicyExn PolicyDb :=
  events ← insert_all event_checks event_conflicts [e] (pb_events db);
  admitted db (with_events events db).

Definition create_transition_custody (c : ContributionPolicyTransitionCustody) (db : PolicyDb)
    : result PolicyExn PolicyDb :=
  custody ← insert_all custody_checks custody_conflicts [c] (pb_custody db);
  admitted db (with_custody custody db).

(** The pending changes of one policy and of versions, then the event *)
Fixpoint put_versions (vs l : list ContributionPolicyVersion)
    : result PolicyExn (list ContributionPolicyVersion) :=
  match vs with
  | [] => Ok l
  | v :: vs' => l ← put_version v l; put_versions vs' l
  end.

Definition flush_transition_event (p : ContributionPolicy) (vs : list ContributionPolicyVersion)
    (e : ContributionPolicyLifecycleEvent) (db : PolicyDb) : result PolicyExn PolicyDb :=
  policies ← put_policy p (pb_policies db);
  versions ← put_versions vs (pt_versions (pb_tables db));
  db' ← admitted db (with_policies policies (with_tables (with_versions versions (pb_tables db)) db));
  add_event e db'.

(** A new version, of a new policy or of a stored one, then the event *)
Definition add_policy_version_event (new_policy : option ContributionPolicy)
    (v : ContributionPolicyVersion) (e : ContributionPolicyLifecycleEvent) (db : PolicyDb)
    : result PolicyExn PolicyDb :=
  policies ← insert_all policy_checks policy_conflicts (option_list new_policy) (pb_policies db);
  versions ← insert_all version_checks version_conflicts [v] (pt_versions (pb_tables db));
  db' ← admitted db (with_policies policies (with_tables (with_versions versions (pb_tables db)) db));
  add_event e db'.

(** The version's update, the deletes, the new graph, then the event *)
Definition replace_graph (v : ContributionPolicyVersion) (rules : list ContributionRule)
    (definitions : list ContributionAwardDefinition) (e : ContributionPolicyLifecycleEvent)
    (db : PolicyDb) : result PolicyExn PolicyDb :=
  let t := pb_tables db in
  versions ← put_version v (pt_versions t);
  let old r := ru_contribution_policy_version_id r =? pv_id v in
  let kept := List.filter (λ d, negb (existsb (λ r, old r && (ru_id r =? dr_contribution_rule_id d))
                                        (pt_rules t))) (pt_definitions t) in
  rules' ← insert_all rule_checks rule_conflicts rules
             (List.filter (λ r, negb (old r)) (pt_rules t));
  definitions' ← insert_all definition_checks definition_conflicts definitions kept;
  db' ← admitted db (with_tables {| pt_versions := versions; pt_rules := rules';
                                    pt_definitions := definitions' |} db);
  add_event e db'.

Definition add_unit_and_creation_event (u : ProjectCompensationUnit)
    (e : ProjectCompensationUnitCreationEvent) (db : PolicyDb) : result PolicyExn PolicyDb :=
  units ← insert_all unit_checks unit_conflicts [u] (pb_units db);
  db' ← admitted db (with_units units (pb_unit_events db) db);
  events ← insert_all unit_event_checks unit_event_conflicts [e] (pb_unit_events db');
  admitted db' (with_units (pb_units db') events db').
End Flushes.
