(* ===== verification/PolicyService.v ===== *)
(** * The contribution policy service
    (modules/contributions/service.py, policy_publication.py, policy_eligibility.py,
    policy_mutation_support.py, selected_policy_validation.py, units/service.py)

    Drafts, publication and retirement of contribution policies, the compensation units they
    refer to, and the validation of a selected version.  A call is a function from a database to
    a result and a database; it never commits, so a call that raises leaves nothing.  Authority,
    projects and adapter bindings are ports; the locks of the code order its callers and do not
    appear.  Identities and times of new rows and what the session reports are arguments. *)

From S2P Require Import Prelude Text Digest Json Instant Lifecycle Awards Contributions Rows Bindings PolicyApi PolicyStore.

(** ** Ports *)

Record ContributionPolicyMutationAuthorizationFacts := {
  mf_action : PolicyAction;
  mf_actor_profile_id : uuid;
  mf_operation_id : uuid;
  mf_request_digest : str;
  mf_project_id : uuid;
  mf_contribution_policy_id : uuid;
  mf_contribution_policy_version_id : uuid;
  mf_expected_policy_status : option ContributionPolicyStatus;
  mf_expected_version_status : option PolicyStatus;
}.

(** [ContributionPolicyPublishAuthorizationFacts] adds the digest and the bindings of the graph;
    [CompensationUnitCreateAuthorizationFacts] has its own fields. *)
Inductive PolicyAuthorizationFacts :=
| MutationFacts (f : ContributionPolicyMutationAuthorizationFacts)
| PublishFacts (f : ContributionPolicyMutationAuthorizationFacts) (graph : str) (bindings : list uuid)
| UnitFacts (actor operation : uuid) (digest : str) (project : uuid) (unit_code : str).

Definition facts_actor (f : PolicyAuthorizationFacts) : uuid :=
  match f with
  | MutationFacts f | PublishFacts f _ _ => mf_actor_profile_id f
  | UnitFacts actor _ _ _ _ => actor
  end.

Record PolicyAuthority := {
  pa_read : ContributionPolicyReadRequest → result PolicyExn unit;
  pa_lock_scope : option PolicyAction → uuid → uuid → result PolicyExn unit;   (** [None]: a unit *)
  pa_consume : PolicyAuthorizationFacts → result PolicyExn uuid;
}.

(** What one call takes from outside *)
Record PolicyInputs := {
  pi_in_transaction : bool;
  pi_in_nested_transaction : bool;
  pi_authority : PolicyAuthority;
  pi_projects : option (uuid → option uuid);   (** the port, when composed: the locked project *)
  pi_bindings_composed : bool;
  pi_policy_id : uuid;
  pi_version_id : uuid;
  pi_event_id : uuid;
  pi_custody_id : uuid;
  pi_rule_id : nat → uuid;
  pi_definition_id : nat → nat → uuid;
  pi_created_at : instant;
  pi_occurred_at : instant;
  pi_updated_at : instant;
  pi_admits : PolicyDb → PolicyDb → bool;
}.

(** ** Authority and recovery *)

Definition consume_and_close_policy_authority (a : PolicyAuthority) (f : PolicyAuthorizationFacts)
    : result PolicyExn uuid :=
  actor ← pa_consume a f;
  _ ← ensure (actor =? facts_actor f) ContributionPolicyAuthorizationUnavailable;
  Ok actor.

Record ContributionPolicyMutationResult := {
  mr_event_id : uuid;
  mr_operation_id : uuid;
  mr_request_digest : str;
  mr_event_type : PolicyEventType;
  mr_actor_profile_id : uuid;
  mr_project_id : uuid;
  mr_contribution_policy_id : uuid;
  mr_contribution_policy_version_id : uuid;
  mr_version_number : Z;
  mr_prior_current_version_id : option uuid;
  mr_prior_current_version_number : option Z;
  mr_from_policy_status : option ContributionPolicyStatus;
  mr_to_policy_status : ContributionPolicyStatus;
  mr_from_version_status : option PolicyStatus;
  mr_to_version_status : PolicyStatus;
  mr_occurred_at : instant;
}.

Definition _result (e : ContributionPolicyLifecycleEvent) : ContributionPolicyMutationResult :=
  {| mr_event_id := le_id e; mr_operation_id := le_operation_id e;
     mr_request_digest := le_request_digest e; mr_event_type := le_event_type e;
     mr_actor_profile_id := le_actor_profile_id e; mr_project_id := le_project_id e;
     mr_contribution_policy_id := le_contribution_policy_id e;
     mr_contribution_policy_version_id := le_contribution_policy_version_id e;
     mr_version_number := le_version_number e;
     mr_prior_current_version_id := le_prior_current_version_id e;
     mr_prior_current_version_number := le_prior_current_version_number e;
     mr_from_policy_status := le_from_policy_status e; mr_to_policy_status := le_to_policy_status e;
     mr_from_version_status := le_from_version_status e;
     mr_to_version_status := le_to_version_status e; mr_occurred_at := le_occurred_at e |}.

(** A refused read hides its reason, unless it is an authority's decision. *)
Definition concealed_read (hidden : PolicyExn) (r : result PolicyExn unit) : result PolicyExn unit :=
  match r with
  | Raise (ContributionPolicyUnavailable | ContributionPolicyConflict _) => Raise hidden
  | _ => r
  end.

Definition begin_and_recover_policy_mutation (i : PolicyInputs) (q : PolicyMutationRequest)
    (digest : str) (db : PolicyDb) : result PolicyExn (option ContributionPolicyMutationResult) :=
  match get_event_by_operation (operation_id q) db with
  | None =>
      _ ← pa_lock_scope (pi_authority i) (Some (action_of q)) (actor_profile_id q) (project_id q);
      Ok None
  | Some e =>
      _ ← ensure (negb (negb (bool_decide (le_event_type e = expected_event_type q))
                        || negb (str_eqb (le_request_digest e) digest)
                        || negb (le_actor_profile_id e =? actor_profile_id q)
                        || negb (le_project_id e =? project_id q))) conflict;
      _ ← concealed_read conflict
            (pa_read (pi_authority i)
               {| rq_actor_profile_id := le_actor_profile_id e; rq_project_id := le_project_id e;
                  rq_contribution_policy_id := le_contribution_policy_id e;
                  rq_contribution_policy_version_id := Some (le_contribution_policy_version_id e) |});
      Ok (Some (_result e))
  end.

Definition _require_request (i : PolicyInputs) : result PolicyExn unit :=
  ensure (pi_in_transaction i && negb (pi_in_nested_transaction i)) ContributionPolicyUnavailable.

Definition _lock_project (i : PolicyInputs) (project : uuid) : result PolicyExn uuid :=
  port ← oget (pi_projects i) ContributionPolicyUnavailable;
  oget (port project) not_found.

(** The part every mutation shares: the digest, recovery, and the work of a new operation *)
Definition mutate (i : PolicyInputs) (q : PolicyMutationRequest) (db : PolicyDb)
    (work : str → result PolicyExn (ContributionPolicyMutationResult * PolicyDb))
    : result PolicyExn (ContributionPolicyMutationResult * PolicyDb) :=
  digest ← oget (policy_request_digest q) PolicyValueError;
  recovered ← begin_and_recover_policy_mutation i q digest db;
  match recovered with
  | Some r => Ok (r, db)
  | None => work digest
  end.

Definition _facts (q : PolicyMutationRequest) (digest : str) (policy version : uuid)
    (policy_status : option ContributionPolicyStatus) (version_status : option PolicyStatus)
    : ContributionPolicyMutationAuthorizationFacts :=
  {| mf_action := action_of q; mf_actor_profile_id := actor_profile_id q;
     mf_operation_id := operation_id q; mf_request_digest := digest; mf_project_id := project_id q;
     mf_contribution_policy_id := policy; mf_contribution_policy_version_id := version;
     mf_expected_policy_status := policy_status; mf_expected_version_status := version_status |}.

Definition _prior_version_number (p : ContributionPolicy) (version : option uuid) (db : PolicyDb)
    : option Z :=
  v ← version;
  pv_version_number <$> get_version (cp_project_id p) (cp_id p) v db.

(** [ContributionPolicyService._event] *)
Definition _event (i : PolicyInputs) (q : PolicyMutationRequest) (digest : str) (actor : uuid)
    (p : ContributionPolicy) (v : ContributionPolicyVersion) (prior : option uuid)
    (prior_number : option Z) (from_policy : option ContributionPolicyStatus)
    (from_version : option PolicyStatus) : ContributionPolicyLifecycleEvent :=
  {| le_id := pi_event_id i; le_operation_id := operation_id q;
     le_publication_custody_operation_id := None; le_request_digest := digest;
     le_event_type := expected_event_type q; le_actor_profile_id := actor;
     le_project_id := cp_project_id p; le_contribution_policy_id := cp_id p;
     le_contribution_policy_version_id := pv_id v; le_version_number := pv_version_number v;
     le_prior_current_version_id := prior; le_prior_current_version_number := prior_number;
     le_from_policy_status := from_policy; le_to_policy_status := cp_status p;
     le_from_version_status := from_version; le_to_version_status := pv_status v;
     le_occurred_at := pi_occurred_at i |}.

(** ** Drafts *)

Definition new_policy (i : PolicyInputs) (q : ContributionPolicyCreateDraftRequest) : ContributionPolicy :=
  {| cp_id := pi_policy_id i; cp_project_id := dq_project_id q; cp_name := dq_name q;
     cp_status := policy_draft; cp_current_published_version_id := None;
     cp_last_transition_operation_id := None; cp_created_by := dq_actor_profile_id q;
     cp_created_at := pi_created_at i; cp_retired_by := None; cp_retired_at := None |}.

Definition new_version (i : PolicyInputs) (q : ContributionPolicyCreateDraftRequest) (policy : uuid)
    (number : Z) : ContributionPolicyVersion :=
  {| pv_id := pi_version_id i; pv_contribution_policy_id := policy; pv_project_id := dq_project_id q;
     pv_version_number := number; pv_status := draft; pv_created_by := dq_actor_profile_id q;
     pv_created_at := pi_created_at i; pv_published_by := None; pv_published_at := None;
     pv_retired_by := None; pv_retired_at := None; pv_last_updated_by := None;
     pv_last_updated_at := None; pv_last_transition_operation_id := None |}.

Definition reusable (project : uuid) (db : PolicyDb) : option ContributionPolicy :=
  p ← get_reusable_policy project db;
  if bool_decide (cp_status p = policy_retired) then None else Some p.

Definition create_draft (i : PolicyInputs) (q : ContributionPolicyCreateDraftRequest) (db : PolicyDb)
    : result PolicyExn (ContributionPolicyMutationResult * PolicyDb) :=
  _ ← _require_request i;
  _ ← ensure (validate_policy_name (dq_name q)) conflict;
  mutate i (CreateDraft q) db (λ digest,
    project ← _lock_project i (dq_project_id q);
    _ ← ensure (project =? dq_project_id q) not_found;
    _ ← ensure (none (get_open_draft (dq_project_id q) db)) conflict;
    let stored := reusable (dq_project_id q) db in
    let p := default (new_policy i q) stored in
    let number := match stored with Some p => next_version_number (cp_id p) db | None => 1 end in
    let prior := match stored with Some p => cp_current_published_version_id p | None => None end in
    let prior_number := match stored with
                        | Some p => _prior_version_number p (cp_current_published_version_id p) db
                        | None => None
                        end in
    let from_policy := cp_status <$> stored in
    let v := new_version i q (cp_id p) number in
    actor ← consume_and_close_policy_authority (pi_authority i)
              (MutationFacts (_facts (CreateDraft q) digest (cp_id p) (pv_id v) from_policy None));
    let e := _event i (CreateDraft q) digest actor p v prior prior_number from_policy None in
    db' ← add_policy_version_event (pi_admits i) (if stored then None else Some p) v e db;
    Ok (_result e, db')).

Section Bindings.
Context {S : Type} `{!BindingPort S} (bindings : S).

(** The binding a definition names is active, of the project and of the instrument. *)
Definition binding_ok (project binding : uuid) (t : CompensationInstrumentType) : bool :=
  match lock_policy_adapter_binding bindings project binding t with
  | Some f => (lb_project_id f =? project) && (lb_adapter_binding_id f =? binding)
              && bool_decide (lb_instrument_type f = t)
  | None => false
  end.

Definition unit_is_active (project : uuid) (t : CompensationInstrumentType) (code : str) (db : PolicyDb)
    : bool :=
  match lock_unit project t code db with
  | Some u => bool_decide (cu_status u = unit_active)
  | None => false
  end.

Definition built_rule (i : PolicyInputs) (q : PolicyVersionRequest) (n : nat) (r : PolicyRuleInput)
    : ContributionRule :=
  {| ru_id := pi_rule_id i n; ru_contribution_policy_version_id := vq_contribution_policy_version_id q;
     ru_project_id := vq_project_id q; ru_contribution_type := pu_contribution_type r;
     ru_compensation_mode := pu_compensation_mode r |}.

Definition built_definition (i : PolicyInputs) (q : PolicyVersionRequest) (n : nat) (r : PolicyRuleInput)
    (k : nat) (d : PolicyDefinitionInput) (quantity : Decimal) : ContributionAwardDefinition :=
  {| dr_facts := {| df_id := pi_definition_id i n k; df_project_id := vq_project_id q;
                    df_contribution_policy_version_id := vq_contribution_policy_version_id q;
                    df_instrument_type := pd_instrument_type d; df_unit_code := pd_unit_code d;
                    df_quantity := quantity; df_adapter_binding_id := pd_adapter_binding_id d |};
     dr_contribution_rule_id := pi_rule_id i n; dr_contribution_type := pu_contribution_type r |}.

(** The definitions of one rule, in order *)
Fixpoint build_definitions (i : PolicyInputs) (q : PolicyVersionRequest) (n : nat) (r : PolicyRuleInput)
    (k : nat) (ds : list PolicyDefinitionInput) (db : PolicyDb)
    : result PolicyExn (list ContributionAwardDefinition) :=
  match ds with
  | [] => Ok []
  | d :: ds' =>
      _ ← ensure (unit_is_active (vq_project_id q) (pd_instrument_type d) (pd_unit_code d) db) not_found;
      _ ← ensure (binding_ok (vq_project_id q) (pd_adapter_binding_id d) (pd_instrument_type d)) not_found;
      quantity ← oget (parse_quantity (pd_quantity d)) PolicyValueError;
      rest ← build_definitions i q n r (k + 1)%nat ds' db;
      Ok (built_definition i q n r k d quantity :: rest)
  end.

Fixpoint build_rules (i : PolicyInputs) (q : PolicyVersionRequest) (n : nat) (rs : list PolicyRuleInput)
    (db : PolicyDb) : result PolicyExn (list ContributionRule * list ContributionAwardDefinition) :=
  match rs with
  | [] => Ok ([], [])
  | r :: rs' =>
      ds ← build_definitions i q n r 0 (pu_definitions r) db;
      rest ← build_rules i q (n + 1)%nat rs' db;
      Ok (built_rule i q n r :: rest.1, ds ++ rest.2)
  end.

Definition _lock_resources_and_build (i : PolicyInputs) (q : ContributionPolicyUpdateDraftRequest)
    (db : PolicyDb) : result PolicyExn (list ContributionRule * list ContributionAwardDefinition) :=
  _ ← ensure (pi_bindings_composed i) ContributionPolicyUnavailable;
  build_rules i (uq_selectors q) 0 (uq_rules q) db.

Definition updated_version (i : PolicyInputs) (actor : uuid) (v : ContributionPolicyVersion)
    : ContributionPolicyVersion :=
  {| pv_id := pv_id v; pv_contribution_policy_id := pv_contribution_policy_id v;
     pv_project_id := pv_project_id v; pv_version_number := pv_version_number v;
     pv_status := pv_status v; pv_created_by := pv_created_by v; pv_created_at := pv_created_at v;
     pv_published_by := pv_published_by v; pv_published_at := pv_published_at v;
     pv_retired_by := pv_retired_by v; pv_retired_at := pv_retired_at v;
     pv_last_updated_by := Some actor; pv_last_updated_at := Some (pi_updated_at i);
     pv_last_transition_operation_id := pv_last_transition_operation_id v |}.

Definition update_draft (i : PolicyInputs) (q : ContributionPolicyUpdateDraftRequest) (db : PolicyDb)
    : result PolicyExn (ContributionPolicyMutationResult * PolicyDb) :=
  let s := uq_selectors q in
  _ ← _require_request i;
  _ ← ensure (validate_policy_graph (uq_rules q)) conflict;
  mutate i (UpdateDraft q) db (λ digest,
    project ← _lock_project i (vq_project_id s);
    _ ← ensure (project =? vq_project_id s) not_found;
    p ← oget (get_policy (vq_project_id s) (vq_contribution_policy_id s) db) not_found;
    _ ← ensure (bool_decide (cp_status p ∈ [policy_draft; policy_active])) not_found;
    v ← oget (get_version (vq_project_id s) (vq_contribution_policy_id s)
                (vq_contribution_policy_version_id s) db) not_found;
    _ ← ensure (bool_decide (pv_status v = draft)) not_found;
    built ← _lock_resources_and_build i q db;
    actor ← consume_and_close_policy_authority (pi_authority i)
              (MutationFacts (_facts (UpdateDraft q) digest (cp_id p) (pv_id v) (Some (cp_status p))
                                (Some (pv_status v))));
    let v' := updated_version i actor v in
    let e := _event i (UpdateDraft q) digest actor p v' (cp_current_published_version_id p)
               (_prior_version_number p (cp_current_published_version_id p) db) (Some (cp_status p))
               (Some draft) in
    db' ← replace_graph (pi_admits i) v' built.1 built.2 e db;
    Ok (_result e, db')).

(** ** Eligibility *)

(** [PolicyDefinitionInput] of a stored definition *)
Definition definition_input (d : ContributionAwardDefinition) : PolicyDefinitionInput :=
  {| pd_instrument_type := df_instrument_type (dr_facts d); pd_unit_code := df_unit_code (dr_facts d);
     pd_quantity := _canonical_quantity (df_quantity (dr_facts d));
     pd_adapter_binding_id := df_adapter_binding_id (dr_facts d) |}.

Definition rule_input (r : RuleGraph) : PolicyRuleInput :=
  {| pu_contribution_type := ru_contribution_type r.1; pu_compensation_mode := ru_compensation_mode r.1;
     pu_definitions := map definition_input r.2 |}.

Definition owned_rule (v : ContributionPolicyVersion) (r : RuleGraph) : bool :=
  (ru_project_id r.1 =? pv_project_id v) && (ru_contribution_policy_version_id r.1 =? pv_id v)
  && forallb (λ d, (df_project_id (dr_facts d) =? pv_project_id v)
                   && (df_contribution_policy_version_id (dr_facts d) =? pv_id v)
                   && (dr_contribution_rule_id d =? ru_id r.1)
                   && bool_decide (dr_contribution_type d = ru_contribution_type r.1)) r.2.

(** [sorted(a) == sorted(b)] compares multisets. *)
Definition same_ids (a b : list uuid) : bool := bool_decide (a ≡ₚ b).

Definition require_complete_policy_graph (v : ContributionPolicyVersion) (rules : list RuleGraph)
    (definitions : list ContributionAwardDefinition) : result PolicyExn unit :=
  _ ← ensure (forallb (owned_rule v) rules) conflict;
  _ ← ensure (same_ids (concat (map (λ r, map (λ d, df_id (dr_facts d)) r.2) rules))
                (map (λ d, df_id (dr_facts d)) definitions)) conflict;
  ensure (validate_policy_graph (map rule_input rules)) conflict.

(** The last definition of a binding: [by_binding] *)
Definition by_binding (binding : uuid) (definitions : list ContributionAwardDefinition)
    : option ContributionAwardDefinition :=
  last (List.filter (λ d, df_adapter_binding_id (dr_facts d) =? binding) definitions).

Definition binding_consistent (definitions : list ContributionAwardDefinition)
    (d : ContributionAwardDefinition) : bool :=
  match by_binding (df_adapter_binding_id (dr_facts d)) definitions with
  | Some b => bool_decide (df_instrument_type (dr_facts b) = df_instrument_type (dr_facts d))
  | None => false
  end.

Definition lock_policy_resources (project : uuid) (definitions : list ContributionAwardDefinition)
    (db : PolicyDb) : result PolicyExn unit :=
  _ ← ensure (forallb (λ d, unit_is_active project (df_instrument_type (dr_facts d))
                              (df_unit_code (dr_facts d)) db) definitions) not_found;
  _ ← ensure (forallb (binding_consistent definitions) definitions) conflict;
  ensure (forallb (λ d, binding_ok project (df_adapter_binding_id (dr_facts d))
                          (df_instrument_type (dr_facts d))) definitions) not_found.

(** ** Publication and retirement *)

Definition _lock_target (q : PolicyVersionRequest) (db : PolicyDb)
    : result PolicyExn (ContributionPolicy * ContributionPolicyVersion) :=
  match get_policy (vq_project_id q) (vq_contribution_policy_id q) db,
        get_version (vq_project_id q) (vq_contribution_policy_id q)
          (vq_contribution_policy_version_id q) db with
  | Some p, Some v => Ok (p, v)
  | _, _ => Raise not_found
  end.

Definition _lock_prior (p : ContributionPolicy) (v : ContributionPolicyVersion) (db : PolicyDb)
    : result PolicyExn (option ContributionPolicyVersion) :=
  match cp_current_published_version_id p with
  | None => Ok None
  | Some id =>
      prior ← oget (get_version (cp_project_id p) (cp_id p) id db) not_found;
      _ ← ensure (negb (pv_id prior =? pv_id v) && bool_decide (pv_status prior = published)) not_found;
      Ok (Some prior)
  end.

Definition _custody (i : PolicyInputs) (q : PolicyVersionRequest) (digest : str) (t : PolicyEventType)
    (prior : option ContributionPolicyVersion) : ContributionPolicyTransitionCustody :=
  {| tc_id := pi_custody_id i; tc_operation_id := vq_operation_id q; tc_request_digest := digest;
     tc_event_type := t; tc_actor_profile_id := vq_actor_profile_id q; tc_project_id := vq_project_id q;
     tc_contribution_policy_id := vq_contribution_policy_id q;
     tc_contribution_policy_version_id := vq_contribution_policy_version_id q;
     tc_prior_current_version_id := pv_id <$> prior; tc_occurred_at := pi_occurred_at i |}.

(** [_apply_publication] on a version that is retired, *)
Definition retired_version (actor : uuid) (c : ContributionPolicyTransitionCustody)
    (v : ContributionPolicyVersion) : ContributionPolicyVersion :=
  {| pv_id := pv_id v; pv_contribution_policy_id := pv_contribution_policy_id v;
     pv_project_id := pv_project_id v; pv_version_number := pv_version_number v;
     pv_status := retired; pv_created_by := pv_created_by v; pv_created_at := pv_created_at v;
     pv_published_by := pv_published_by v; pv_published_at := pv_published_at v;
     pv_retired_by := Some actor; pv_retired_at := Some (tc_occurred_at c);
     pv_last_updated_by := pv_last_updated_by v; pv_last_updated_at := pv_last_updated_at v;
     pv_last_transition_operation_id := Some (tc_operation_id c) |}.

(** on the version that is published, *)
Definition published_version (actor : uuid) (c : ContributionPolicyTransitionCustody)
    (v : ContributionPolicyVersion) : ContributionPolicyVersion :=
  {| pv_id := pv_id v; pv_contribution_policy_id := pv_contribution_policy_id v;
     pv_project_id := pv_project_id v; pv_version_number := pv_version_number v;
     pv_status := published; pv_created_by := pv_created_by v; pv_created_at := pv_created_at v;
     pv_published_by := Some actor; pv_published_at := Some (tc_occurred_at c);
     pv_retired_by := pv_retired_by v; pv_retired_at := pv_retired_at v;
     pv_last_updated_by := pv_last_updated_by v; pv_last_updated_at := pv_last_updated_at v;
     pv_last_transition_operation_id := Some (tc_operation_id c) |}.

(** and on the policy *)
Definition activated_policy (version : uuid) (c : ContributionPolicyTransitionCustody)
    (p : ContributionPolicy) : ContributionPolicy :=
  {| cp_id := cp_id p; cp_project_id := cp_project_id p; cp_name := cp_name p;
     cp_status := policy_active; cp_current_published_version_id := Some version;
     cp_last_transition_operation_id := Some (tc_operation_id c); cp_created_by := cp_created_by p;
     cp_created_at := cp_created_at p; cp_retired_by := cp_retired_by p;
     cp_retired_at := cp_retired_at p |}.

Definition retired_policy (actor : uuid) (c : ContributionPolicyTransitionCustody)
    (p : ContributionPolicy) : ContributionPolicy :=
  {| cp_id := cp_id p; cp_project_id := cp_project_id p; cp_name := cp_name p;
     cp_status := policy_retired;
     cp_current_published_version_id := cp_current_published_version_id p;
     cp_last_transition_operation_id := Some (tc_operation_id c); cp_created_by := cp_created_by p;
     cp_created_at := cp_created_at p; cp_retired_by := Some actor;
     cp_retired_at := Some (tc_occurred_at c) |}.

(** [ContributionPolicyPublicationService._event] *)
Definition transition_event (i : PolicyInputs) (q : PolicyVersionRequest) (digest : str)
    (t : PolicyEventType) (p : ContributionPolicy) (v : ContributionPolicyVersion)
    (prior : option ContributionPolicyVersion) (c : ContributionPolicyTransitionCustody)
    : ContributionPolicyLifecycleEvent :=
  {| le_id := pi_event_id i; le_operation_id := vq_operation_id q;
     le_publication_custody_operation_id := Some (vq_operation_id q); le_request_digest := digest;
     le_event_type := t; le_actor_profile_id := vq_actor_profile_id q; le_project_id := vq_project_id q;
     le_contribution_policy_id := cp_id p; le_contribution_policy_version_id := pv_id v;
     le_version_number := pv_version_number v; le_prior_current_version_id := pv_id <$> prior;
     le_prior_current_version_number := pv_version_number <$> prior;
     le_from_policy_status := Some (if bool_decide (t = event_retired) || some prior
                                    then policy_active else policy_draft);
     le_to_policy_status := cp_status p;
     le_from_version_status := Some (if bool_decide (t = event_published) then draft else published);
     le_to_version_status := pv_status v; le_occurred_at := tc_occurred_at c |}.

Definition locked_project (i : PolicyInputs) (project : uuid) : result PolicyExn unit :=
  locked ← _lock_project i project;
  ensure (locked =? project) not_found.

Definition publish (i : PolicyInputs) (q : PolicyVersionRequest) (db : PolicyDb)
    : result PolicyExn (ContributionPolicyMutationResult * PolicyDb) :=
  _ ← _require_request i;
  _ ← ensure (some (pi_projects i) && pi_bindings_composed i) ContributionPolicyUnavailable;
  mutate i (Publish q) db (λ digest,
    _ ← locked_project i (vq_project_id q);
    target ← _lock_target q db;
    let '(p, v) := target in
    _ ← ensure (bool_decide (cp_status p ∈ [policy_draft; policy_active])
                && bool_decide (pv_status v = draft)) not_found;
    prior ← _lock_prior p v db;
    graph ← lock_publication_graph (pv_id v) db;
    _ ← require_complete_policy_graph v graph.1 graph.2;
    _ ← lock_policy_resources (vq_project_id q) graph.2 db;
    facts ← oget (publication_graph_facts graph.1) PolicyValueError;
    actor ← consume_and_close_policy_authority (pi_authority i)
              (PublishFacts (_facts (Publish q) digest (cp_id p) (pv_id v) (Some (cp_status p)) (Some draft))
                 facts.1 facts.2);
    let c := _custody i q digest event_published prior in
    db1 ← create_transition_custody (pi_admits i) c db;
    let p' := activated_policy (pv_id v) c p in
    let v' := published_version actor c v in
    let e := transition_event i q digest event_published p' v' prior c in
    db' ← flush_transition_event (pi_admits i) p'
            (option_list (retired_version actor c <$> prior) ++ [v']) e db1;
    Ok (_result e, db')).
End Bindings.

Definition retire (i : PolicyInputs) (q : PolicyVersionRequest) (db : PolicyDb)
    : result PolicyExn (ContributionPolicyMutationResult * PolicyDb) :=
  _ ← _require_request i;
  _ ← ensure (some (pi_projects i)) ContributionPolicyUnavailable;
  mutate i (Retire q) db (λ digest,
    _ ← locked_project i (vq_project_id q);
    target ← _lock_target q db;
    let '(p, v) := target in
    _ ← ensure (bool_decide (cp_status p = policy_active)
                && bool_decide (cp_current_published_version_id p = Some (pv_id v))
                && bool_decide (pv_status v = published)) not_found;
    actor ← consume_and_close_policy_authority (pi_authority i)
              (MutationFacts (_facts (Retire q) digest (cp_id p) (pv_id v) (Some policy_active)
                                (Some published)));
    let c := _custody i q digest event_retired (Some v) in
    db1 ← create_transition_custody (pi_admits i) c db;
    let p' := retired_policy actor c p in
    let v' := retired_version actor c v in
    let e := transition_event i q digest event_retired p' v' (Some v) c in
    db' ← flush_transition_event (pi_admits i) p' [v'] e db1;
    Ok (_result e, db')).

(** ** Compensation units *)

Record ProjectCompensationUnitCreateResult := {
  xr_event_id : uuid;
  xr_operation_id : uuid;
  xr_request_digest : str;
  xr_actor_profile_id : uuid;
  xr_project_id : uuid;
  xr_instrument_type : CompensationInstrumentType;
  xr_unit_code : str;
  xr_occurred_at : instant;
}.

Definition unit_result (e : ProjectCompensationUnitCreationEvent) : ProjectCompensationUnitCreateResult :=
  {| xr_event_id := ue_id e; xr_operation_id := ue_operation_id e;
     xr_request_digest := ue_request_digest e; xr_actor_profile_id := ue_actor_profile_id e;
     xr_project_id := ue_project_id e; xr_instrument_type := ue_instrument_type e;
     xr_unit_code := ue_unit_code e; xr_occurred_at := ue_occurred_at e |}.

Abbreviation unit_conflict := (ContributionPolicyConflict compensation_unit_conflict).
Abbreviation unit_not_found := (ContributionPolicyConflict compensation_unit_not_found).
Abbreviation unit_invalid := (ContributionPolicyConflict compensation_unit_invalid).

(** [ProjectCompensationUnitInput] of a points unit; money has been refused before it. *)
Definition unit_input_valid (q : ProjectCompensationUnitCreateRequest) : bool :=
  (1 <=? len (xq_unit_code q)) && (len (xq_unit_code q) <=? 32) && points_unit_pattern (xq_unit_code q).

Definition require_unit_request (i : PolicyInputs) (q : ProjectCompensationUnitCreateRequest)
    : result PolicyExn unit :=
  _ ← ensure (pi_in_transaction i && negb (pi_in_nested_transaction i)) ContributionPolicyUnavailable;
  _ ← ensure (bool_decide (xq_instrument_type q = PROJECT_POINTS)) unit_invalid;
  ensure (unit_input_valid q) unit_invalid.

Definition new_unit (i : PolicyInputs) (q : ProjectCompensationUnitCreateRequest) (actor : uuid)
    : ProjectCompensationUnit :=
  {| cu_project_id := xq_project_id q; cu_instrument_type := xq_instrument_type q;
     cu_unit_code := xq_unit_code q; cu_iso_currency_code := None; cu_status := unit_active;
     cu_created_by := actor; cu_created_at := pi_created_at i; cu_retired_by := None;
     cu_retired_at := None |}.

Definition unit_event (i : PolicyInputs) (q : ProjectCompensationUnitCreateRequest) (digest : str)
    (actor : uuid) : ProjectCompensationUnitCreationEvent :=
  {| ue_id := pi_event_id i; ue_operation_id := xq_operation_id q; ue_request_digest := digest;
     ue_actor_profile_id := actor; ue_project_id := xq_project_id q;
     ue_instrument_type := xq_instrument_type q; ue_unit_code := xq_unit_code q;
     ue_occurred_at := pi_occurred_at i |}.

(** [ProjectCompensationUnitService.create] *)
Definition create_unit (i : PolicyInputs) (q : ProjectCompensationUnitCreateRequest) (db : PolicyDb)
    : result PolicyExn (ProjectCompensationUnitCreateResult * PolicyDb) :=
  _ ← require_unit_request i q;
  digest ← oget (unit_request_digest q) PolicyValueError;
  _ ← pa_lock_scope (pi_authority i) None (xq_actor_profile_id q) (xq_project_id q);
  match get_unit_creation_event (xq_operation_id q) db with
  | Some e =>
      _ ← ensure (negb (negb (str_eqb (ue_request_digest e) digest)
                        || negb (ue_actor_profile_id e =? xq_actor_profile_id q)
                        || negb (ue_project_id e =? xq_project_id q))) unit_conflict;
      Ok (unit_result e, db)
  | None =>
      port ← oget (pi_projects i) ContributionPolicyUnavailable;
      project ← oget (port (xq_project_id q)) unit_not_found;
      _ ← ensure (project =? xq_project_id q) unit_not_found;
      _ ← ensure (none (lock_unit (xq_project_id q) (xq_instrument_type q) (xq_unit_code q) db)) unit_conflict;
      actor ← consume_and_close_policy_authority (pi_authority i)
                (UnitFacts (xq_actor_profile_id q) (xq_operation_id q) digest (xq_project_id q)
                   (xq_unit_code q));
      let e := unit_event i q digest actor in
      db' ← add_unit_and_creation_event (pi_admits i) (new_unit i q actor) e db;
      Ok (unit_result e, db')
  end.

(** ** Validation of a selected version *)

Inductive ContributionPolicyValidationPurpose := GUIDE_ACTIVATION | REVISION_ADOPTION.

#[export] Instance validation_purpose_eq_dec : EqDecision ContributionPolicyValidationPurpose.
Proof. solve_decision. Defined.

Record ContributionPolicyValidationRequest := {
  yq_project_id : uuid;
  yq_contribution_policy_id : uuid;
  yq_contribution_policy_version_id : uuid;
  yq_purpose : ContributionPolicyValidationPurpose;
}.

Record ContributionPolicyValidationFacts := {
  yf_project_id : uuid;
  yf_contribution_policy_id : uuid;
  yf_contribution_policy_version_id : uuid;
  yf_purpose : ContributionPolicyValidationPurpose;
  yf_version_number : Z;
  yf_rules_and_definitions_digest : str;
  yf_adapter_binding_ids : list uuid;
}.

(** [_validate]; [port] is the project port, whose [None] is [ProjectContributionPolicyUnavailable]. *)
Definition _validate {S} `{BindingPort S} (bindings : S) (port : uuid → option uuid)
    (q : ContributionPolicyValidationRequest) (db : PolicyDb)
    : result PolicyExn ContributionPolicyValidationFacts :=
  let guide := bool_decide (yq_purpose q = GUIDE_ACTIVATION) in
  project ← oget (port (yq_project_id q)) ContributionPolicyUnavailable;
  _ ← ensure (project =? yq_project_id q) ContributionPolicyUnavailable;
  p ← oget (get_policy (yq_project_id q) (yq_contribution_policy_id q) db) ContributionPolicyUnavailable;
  _ ← ensure (bool_decide (cp_status p ∈ [policy_active; policy_retired])) ContributionPolicyUnavailable;
  _ ← ensure (negb (guide && (negb (bool_decide (cp_status p = policy_active))
                              || negb (bool_decide (cp_current_published_version_id p
                                                    = Some (yq_contribution_policy_version_id q))))))
        ContributionPolicyUnavailable;
  v ← oget (get_version (yq_project_id q) (yq_contribution_policy_id q)
              (yq_contribution_policy_version_id q) db) ContributionPolicyUnavailable;
  _ ← ensure (bool_decide (pv_status v ∈ [published; retired])) ContributionPolicyUnavailable;
  _ ← ensure (negb (guide && negb (bool_decide (pv_status v = published)))) ContributionPolicyUnavailable;
  graph ← lock_publication_graph (pv_id v) db;
  _ ← require_complete_policy_graph v graph.1 graph.2;
  _ ← lock_policy_resources bindings (yq_project_id q) graph.2 db;
  facts ← oget (publication_graph_facts graph.1) PolicyValueError;
  Ok {| yf_project_id := yq_project_id q; yf_contribution_policy_id := cp_id p;
        yf_contribution_policy_version_id := pv_id v; yf_purpose := yq_purpose q;
        yf_version_number := pv_version_number v; yf_rules_and_definitions_digest := facts.1;
        yf_adapter_binding_ids := facts.2 |}.

Definition validate_contribution_policy {S} `{BindingPort S} (bindings : S) (port : uuid → option uuid)
    (in_transaction in_nested_transaction : bool) (q : ContributionPolicyValidationRequest) (db : PolicyDb)
    : result PolicyExn ContributionPolicyValidationFacts :=
  _ ← ensure (in_transaction && negb in_nested_transaction) ContributionPolicyUnavailable;
  match _validate bindings port q db with
  | Raise (ContributionPolicyConflict _) => Raise ContributionPolicyUnavailable
  | r => r
  end.
