(* ===== verification/PolicyEffects.v ===== *)
(** * What the calls of the policy service change

    Every successful call either recovers the event of its operation and changes nothing, or
    makes the change of its request and adds exactly one event.  [policy_change] lists the four
    changes; the guarantees of the service are proved from it. *)

From S2P Require Import Prelude Text Digest Json Instant Lifecycle Awards Contributions Rows Bindings.
From S2P Require Import PolicyApi PolicyStore PolicyService.

(** ** Consistent tables *)

Lemma policy_conflicts_eq p q :
  policy_conflicts p q = true ↔
  cp_id p = cp_id q ∨ (cp_project_id p = cp_project_id q ∧ cp_status p = policy_active ∧ cp_status q = policy_active).
Proof.
  unfold policy_conflicts. rewrite orb_true_iff, !andb_true_iff, !Z.eqb_eq, !bool_decide_eq_true. tauto.
Qed.

Lemma version_conflicts_eq v w :
  version_conflicts v w = true ↔
  pv_id v = pv_id w ∨ (pv_contribution_policy_id v = pv_contribution_policy_id w ∧
                       pv_version_number v = pv_version_number w).
Proof. unfold version_conflicts. rewrite orb_true_iff, andb_true_iff, !Z.eqb_eq. tauto. Qed.

Lemma rule_conflicts_eq r s :
  rule_conflicts r s = true ↔
  ru_id r = ru_id s ∨ (ru_contribution_policy_version_id r = ru_contribution_policy_version_id s ∧
                       ru_contribution_type r = ru_contribution_type s).
Proof.
  unfold rule_conflicts. rewrite orb_true_iff, andb_true_iff, !Z.eqb_eq, bool_decide_eq_true. tauto.
Qed.

Lemma definition_conflicts_eq d e :
  definition_conflicts d e = true ↔
  df_id (dr_facts d) = df_id (dr_facts e) ∨
  (dr_contribution_rule_id d = dr_contribution_rule_id e ∧
   df_instrument_type (dr_facts d) = df_instrument_type (dr_facts e)).
Proof.
  unfold definition_conflicts. rewrite orb_true_iff, andb_true_iff, !Z.eqb_eq, bool_decide_eq_true. tauto.
Qed.

Lemma event_conflicts_operation e f :
  le_operation_id e = le_operation_id f → event_conflicts e f = true.
Proof. intros E. unfold event_conflicts. rewrite E, Z.eqb_refl, orb_true_r. done. Qed.

Lemma policy_conflicts_sym p q : policy_conflicts p q = policy_conflicts q p.
Proof. apply eq_bool_prop_intro. rewrite !Is_true_true, !policy_conflicts_eq. naive_solver. Qed.
Lemma version_conflicts_sym v w : version_conflicts v w = version_conflicts w v.
Proof. apply eq_bool_prop_intro. rewrite !Is_true_true, !version_conflicts_eq. naive_solver. Qed.
Lemma rule_conflicts_sym r s : rule_conflicts r s = rule_conflicts s r.
Proof. apply eq_bool_prop_intro. rewrite !Is_true_true, !rule_conflicts_eq. naive_solver. Qed.
Lemma definition_conflicts_sym d e : definition_conflicts d e = definition_conflicts e d.
Proof. apply eq_bool_prop_intro. rewrite !Is_true_true, !definition_conflicts_eq. naive_solver. Qed.

Lemma event_conflicts_sym e f : event_conflicts e f = event_conflicts f e.
Proof.
  unfold event_conflicts. rewrite (Z.eqb_sym (le_id e)), (Z.eqb_sym (le_operation_id e)). f_equal.
  apply eq_bool_prop_intro. rewrite !Is_true_true, !andb_true_iff, !bool_decide_eq_true. split; intros [H E]; by rewrite <- E.
Qed.

Lemma policy_conflicts_id p q : cp_id p = cp_id q → policy_conflicts p q = true.
Proof. intros E. apply policy_conflicts_eq. by left. Qed.
Lemma version_conflicts_id v w : pv_id v = pv_id w → version_conflicts v w = true.
Proof. intros E. apply version_conflicts_eq. by left. Qed.

#[export] Hint Resolve policy_conflicts_sym version_conflicts_sym rule_conflicts_sym definition_conflicts_sym
  event_conflicts_sym policy_conflicts_id version_conflicts_id : core.

Abbreviation policies_ok := (rows_ok policy_checks policy_conflicts).
Abbreviation versions_ok := (rows_ok version_checks version_conflicts).
Abbreviation rules_ok := (rows_ok rule_checks rule_conflicts).
Abbreviation definitions_ok := (rows_ok definition_checks definition_conflicts).
Abbreviation policy_events_ok := (rows_ok event_checks event_conflicts).

Record tables_ok (t : PolicyTables) : Prop := {
  to_versions : versions_ok (pt_versions t);
  to_rules : rules_ok (pt_rules t);
  to_definitions : definitions_ok (pt_definitions t);
}.

Lemma sublist_elem {A} (l k : list A) x : sublist k l → x ∈ k → x ∈ l.
Proof. intros Hs Hx. by apply (elem_of_submseteq _ _ _ Hx), sublist_submseteq. Qed.

(** A sublist of a consistent table is consistent. *)
Lemma rows_ok_sublist {A} (checks : A → bool) conflicts (l k : list A) :
  (∀ x y, conflicts x y = conflicts y x) → sublist k l → rows_ok checks conflicts l → rows_ok checks conflicts k.
Proof.
  intros Hsym Hs [H1 H2]. split.
  - intros x Hx. by apply H1, (sublist_elem _ _ _ Hs).
  - enough (∀ i j x y, k !! i = Some x → k !! j = Some y → (i < j)%nat → conflicts x y = false) as H.
    { intros i j x y Hi Hj Hne. destruct (Nat.lt_total i j) as [?|[?|?]]; [by eapply H|done|rewrite Hsym; by eapply H]. }
    clear H1. induction Hs as [|a k l Hs IH|a k l Hs IH]; [done| |].
    + intros [|i] [|j] x y; cbn; intros Hi Hj Hlt; [lia| |lia|].
      * simplify_eq. apply list_elem_of_lookup_2 in Hj.
        apply (sublist_elem _ _ _ Hs), list_elem_of_lookup in Hj as [m Hm]. by apply (H2 O (S m)).
      * apply (IH (λ i j x y Hi Hj Hne, H2 (S i) (S j) x y Hi Hj ltac:(lia)) i j); [done..|lia].
    + apply (IH (λ i j x y Hi Hj Hne, H2 (S i) (S j) x y Hi Hj ltac:(lia))).
Qed.

Lemma filter_sublist {A} (f : A → bool) l : sublist (List.filter f l) l.
Proof. induction l as [|x l IH]; cbn; [constructor|]. destruct (f x); by constructor. Qed.

(** ** Flushes *)

(** What a flush that ends with an event leaves *)
Record flushed (e : ContributionPolicyLifecycleEvent) (ps : list ContributionPolicy) (t : PolicyTables)
    (db db' : PolicyDb) : Prop := {
  fl_policies : pb_policies db' = ps;
  fl_tables : pb_tables db' = t;
  fl_units : pb_units db' = pb_units db;
  fl_unit_events : pb_unit_events db' = pb_unit_events db;
  fl_events : pb_events db' = pb_events db ++ [e];
  fl_policies_ok : policies_ok (pb_policies db) → policies_ok ps;
  fl_tables_ok : tables_ok (pb_tables db) → tables_ok t;
  fl_events_ok : policy_events_ok (pb_events db) → policy_events_ok (pb_events db');
}.

Lemma add_event_Ok admits e db db' :
  add_event admits e db = Ok db' →
  db' = with_events (pb_events db ++ [e]) db ∧
  (policy_events_ok (pb_events db) → policy_events_ok (pb_events db ++ [e])).
Proof.
  unfold add_event, admitted. intros (l & [-> Hl]%insert_rows_Ok & [_ [= <-]]%ensure_bind_Ok)%result_bind_Ok; [done|auto].
Qed.

Lemma put_versions_Ok vs l l' :
  put_versions vs l = Ok l' →
  l' = foldl (λ l v, set_row pv_id v l) l vs ∧ (versions_ok l → versions_ok l').
Proof.
  revert l. induction vs as [|v vs IH]; intros l; cbn; [by intros [= ->]|].
  intros (l1 & (-> & _ & H1)%put_row_Ok & [-> H2]%IH)%result_bind_Ok; auto.
Qed.

Lemma flush_transition_event_Ok admits p vs e db db' :
  flush_transition_event admits p vs e db = Ok db' →
  flushed e (set_row cp_id p (pb_policies db))
    (with_versions (foldl (λ l v, set_row pv_id v l) (pt_versions (pb_tables db)) vs) (pb_tables db)) db db'.
Proof.
  unfold flush_transition_event, admitted.
  intros (ps & (-> & _ & Hp)%put_row_Ok & (l & [-> Hl]%put_versions_Ok & H)%result_bind_Ok)%result_bind_Ok; [|auto..].
  apply result_bind_Ok in H as (db1 & [_ [= <-]]%ensure_bind_Ok & [-> He]%add_event_Ok).
  split; cbn in *; try done. intros [H1 H2 H3]. split; auto.
Qed.

Lemma add_policy_version_event_Ok admits new v e db db' :
  add_policy_version_event admits new v e db = Ok db' →
  flushed e (pb_policies db ++ option_list new)
    (with_versions (pt_versions (pb_tables db) ++ [v]) (pb_tables db)) db db'.
Proof.
  unfold add_policy_version_event, admitted.
  intros (ps & [-> Hp]%insert_rows_Ok & (l & [-> Hl]%insert_rows_Ok & H)%result_bind_Ok)%result_bind_Ok; [|auto..].
  apply result_bind_Ok in H as (db1 & [_ [= <-]]%ensure_bind_Ok & [-> He]%add_event_Ok).
  split; cbn in *; try done. intros [H1 H2 H3]. split; auto.
Qed.

(** The rules and definitions that replacing the graph of a version keeps *)
Definition kept_rules (version : uuid) (t : PolicyTables) : list ContributionRule :=
  List.filter (λ r, negb (ru_contribution_policy_version_id r =? version)) (pt_rules t).
Definition kept_definitions (version : uuid) (t : PolicyTables) : list ContributionAwardDefinition :=
  List.filter (λ d, negb (existsb (λ r, (ru_contribution_policy_version_id r =? version)
                                        && (ru_id r =? dr_contribution_rule_id d)) (pt_rules t)))
    (pt_definitions t).

Lemma replace_graph_Ok admits v rules definitions e db db' :
  replace_graph admits v rules definitions e db = Ok db' →
  flushed e (pb_policies db)
    {| pt_versions := set_row pv_id v (pt_versions (pb_tables db));
       pt_rules := kept_rules (pv_id v) (pb_tables db) ++ rules;
       pt_definitions := kept_definitions (pv_id v) (pb_tables db) ++ definitions |} db db'.
Proof.
  unfold replace_graph, admitted. fold (kept_rules (pv_id v) (pb_tables db)). fold (kept_definitions (pv_id v) (pb_tables db)).
  intros (l & (-> & _ & Hv)%put_row_Ok & H)%result_bind_Ok; [|auto..].
  apply result_bind_Ok in H as (rs & [-> Hr]%insert_rows_Ok & H); [|auto].
  apply result_bind_Ok in H as (ds & [-> Hd]%insert_rows_Ok & H); [|auto].
  apply result_bind_Ok in H as (db1 & [_ [= <-]]%ensure_bind_Ok & [-> He]%add_event_Ok).
  split; cbn in *; try done. intros [H1 H2 H3]. split; cbn; [auto| |].
  - apply Hr, (rows_ok_sublist _ _ (pt_rules (pb_tables db))); [auto|apply filter_sublist|done].
  - apply Hd, (rows_ok_sublist _ _ (pt_definitions (pb_tables db))); [auto|apply filter_sublist|done].
Qed.

(** ** The change of each request *)

Definition versions_of (db : PolicyDb) : list ContributionPolicyVersion := pt_versions (pb_tables db).

(** The version a draft request adds *)
Definition drafted_version (i : PolicyInputs) (q : ContributionPolicyCreateDraftRequest) (db : PolicyDb)
    : ContributionPolicyVersion :=
  match reusable (dq_project_id q) db with
  | Some p => new_version i q (cp_id p) (next_version_number (cp_id p) db)
  | None => new_version i q (pi_policy_id i) 1
  end.

Inductive policy_change (i : PolicyInputs) (db : PolicyDb)
    : PolicyMutationRequest → list ContributionPolicy → PolicyTables → Prop :=
| change_create_draft q :
    get_open_draft (dq_project_id q) db = None →
    policy_change i db (CreateDraft q)
      (pb_policies db ++ match reusable (dq_project_id q) db with
                         | Some _ => []
                         | None => [new_policy i q]
                         end)
      (with_versions (versions_of db ++ [drafted_version i q db]) (pb_tables db))
| change_update_draft {S} `{BindingPort S} (bindings : S) q p v rules definitions :
    let s := uq_selectors q in
    validate_policy_graph (uq_rules q) = true →
    get_policy (vq_project_id s) (vq_contribution_policy_id s) db = Some p →
    cp_status p ≠ policy_retired →
    get_version (vq_project_id s) (vq_contribution_policy_id s) (vq_contribution_policy_version_id s) db = Some v →
    pv_status v = draft →
    build_rules bindings i s 0 (uq_rules q) db = Ok (rules, definitions) →
    policy_change i db (UpdateDraft q) (pb_policies db)
      {| pt_versions := set_row pv_id (updated_version i (vq_actor_profile_id s) v) (versions_of db);
         pt_rules := kept_rules (pv_id v) (pb_tables db) ++ rules;
         pt_definitions := kept_definitions (pv_id v) (pb_tables db) ++ definitions |}
| change_publish {S} `{BindingPort S} (bindings : S) q p v prior graph definitions c :
    get_policy (vq_project_id q) (vq_contribution_policy_id q) db = Some p →
    get_version (vq_project_id q) (vq_contribution_policy_id q) (vq_contribution_policy_version_id q) db = Some v →
    cp_status p ≠ policy_retired → pv_status v = draft →
    _lock_prior p v db = Ok prior →
    lock_publication_graph (pv_id v) db = Ok (graph, definitions) →
    require_complete_policy_graph v graph definitions = Ok tt →
    lock_policy_resources bindings (vq_project_id q) definitions db = Ok tt →
    policy_change i db (Publish q) (set_row cp_id (activated_policy (pv_id v) c p) (pb_policies db))
      (with_versions
         (set_row pv_id (published_version (vq_actor_profile_id q) c v)
            (match prior with
             | Some w => set_row pv_id (retired_version (vq_actor_profile_id q) c w) (versions_of db)
             | None => versions_of db
             end)) (pb_tables db))
| change_retire q p v c :
    get_policy (vq_project_id q) (vq_contribution_policy_id q) db = Some p →
    get_version (vq_project_id q) (vq_contribution_policy_id q) (vq_contribution_policy_version_id q) db = Some v →
    cp_status p = policy_active → cp_current_published_version_id p = Some (pv_id v) →
    pv_status v = published →
    policy_change i db (Retire q) (set_row cp_id (retired_policy (vq_actor_profile_id q) c p) (pb_policies db))
      (with_versions (set_row pv_id (retired_version (vq_actor_profile_id q) c v) (versions_of db)) (pb_tables db)).

(** The event a request leaves *)
Definition event_of (q : PolicyMutationRequest) (e : ContributionPolicyLifecycleEvent) : Prop :=
  le_operation_id e = operation_id q ∧ policy_request_digest q = Some (le_request_digest e) ∧
  le_event_type e = expected_event_type q ∧ le_actor_profile_id e = actor_profile_id q ∧
  le_project_id e = project_id q.

Definition policy_written (i : PolicyInputs) (q : PolicyMutationRequest) (db : PolicyDb)
    (r : ContributionPolicyMutationResult) (db' : PolicyDb) : Prop :=
  ∃ e ps t, r = _result e ∧ event_of q e ∧ get_event_by_operation (operation_id q) db = None ∧
    policy_change i db q ps t ∧ flushed e ps t db db'.

Definition policy_recovered (q : PolicyMutationRequest) (db : PolicyDb)
    (r : ContributionPolicyMutationResult) : Prop :=
  ∃ e, e ∈ pb_events db ∧ r = _result e ∧ event_of q e.

(** The four commands *)
Definition run_policy {S} `{BindingPort S} (bindings : S) (i : PolicyInputs) (q : PolicyMutationRequest)
    (db : PolicyDb) : result PolicyExn (ContributionPolicyMutationResult * PolicyDb) :=
  match q with
  | CreateDraft q => create_draft i q db
  | UpdateDraft q => update_draft bindings i q db
  | Publish q => publish bindings i q db
  | Retire q => retire i q db
  end.

(** ** What a successful call did *)

Lemma get_policy_Some project id db p :
  get_policy project id db = Some p → p ∈ pb_policies db ∧ cp_project_id p = project ∧ cp_id p = id.
Proof. by intros [Hp [H1%Z.eqb_eq H2%Z.eqb_eq]%andb_prop]%find_Some_elem. Qed.

Lemma get_version_Some project policy id db v :
  get_version project policy id db = Some v →
  v ∈ versions_of db ∧ pv_project_id v = project ∧ pv_contribution_policy_id v = policy ∧ pv_id v = id.
Proof. by intros [Hv [[H1%Z.eqb_eq H2%Z.eqb_eq]%andb_prop H3%Z.eqb_eq]%andb_prop]%find_Some_elem. Qed.

Lemma get_event_Some op db e :
  get_event_by_operation op db = Some e → e ∈ pb_events db ∧ le_operation_id e = op.
Proof. by intros [He H%Z.eqb_eq]%find_Some_elem. Qed.

Lemma newer_live_Some project best p x :
  newer_live project best p = Some x →
  best = Some x ∨ (x = p ∧ cp_project_id x = project ∧ cp_status x ≠ policy_retired).
Proof.
  unfold newer_live. destruct (_ && _) eqn:E; [|by left].
  apply andb_prop in E as [E1%Z.eqb_eq E2%negb_true_iff%bool_decide_eq_false].
  destruct best as [b|]; [destruct (_ <? _)|]; intros [= <-]; auto.
Qed.

Lemma newer_live_is_Some project best p :
  is_Some best ∨ (cp_project_id p = project ∧ cp_status p ≠ policy_retired) → is_Some (newer_live project best p).
Proof.
  unfold newer_live. intros [H|[-> H]].
  - destruct (_ && _); [|done]. destruct best; [destruct (_ <? _)|]; done.
  - rewrite Z.eqb_refl, bool_decide_eq_false_2 by done. destruct best; [cbn; destruct (_ <? _)|]; done.
Qed.

Lemma get_reusable_Some project db p :
  get_reusable_policy project db = Some p →
  p ∈ pb_policies db ∧ cp_project_id p = project ∧ cp_status p ≠ policy_retired.
Proof.
  unfold get_reusable_policy.
  enough (∀ l best, foldl (newer_live project) best l = Some p →
            best = Some p ∨ (p ∈ l ∧ cp_project_id p = project ∧ cp_status p ≠ policy_retired)) as Hf.
  { intros [?|?]%Hf; done. }
  induction l as [|y l IH]; intros best; cbn; [by left|].
  intros [[?|(-> & H)]%newer_live_Some|(H1 & H2)]%IH; [by left|right..].
  - split; [apply list_elem_of_here|done].
  - split; [by apply list_elem_of_further|done].
Qed.

Lemma get_reusable_None project db p :
  get_reusable_policy project db = None → p ∈ pb_policies db → cp_project_id p = project →
  cp_status p = policy_retired.
Proof.
  intros H Hp Hproj. destruct (decide (cp_status p = policy_retired)) as [|Hne]; [done|exfalso].
  revert H. unfold get_reusable_policy.
  enough (∀ l best, is_Some best ∨ p ∈ l → is_Some (foldl (newer_live project) best l)) as Hf.
  { intros Hn. destruct (Hf (pb_policies db) None) as [x Hx]; [by right|]. congruence. }
  induction l as [|y l IH]; intros best; cbn.
  { intros [?|?%elem_of_nil]; done. }
  intros [Hb|[<-|Hl]%elem_of_cons]; apply IH; [left|left|by right]; apply newer_live_is_Some; auto.
Qed.

Lemma reusable_eq project db : reusable project db = get_reusable_policy project db.
Proof.
  unfold reusable. destruct (get_reusable_policy project db) as [p|] eqn:E; [|done]. cbn.
  apply get_reusable_Some in E as (_ & _ & H). by rewrite bool_decide_eq_false_2.
Qed.

Lemma reusable_Some project db p :
  reusable project db = Some p → p ∈ pb_policies db ∧ cp_project_id p = project ∧ cp_status p ≠ policy_retired.
Proof. rewrite reusable_eq. apply get_reusable_Some. Qed.

Lemma consume_policy_Ok a f actor :
  consume_and_close_policy_authority a f = Ok actor → actor = facts_actor f.
Proof. intros (x & _ & H)%result_bind_Ok. by apply ensure_bind_Ok in H as [->%Z.eqb_eq [= <-]]. Qed.

Lemma begin_Some i q digest db r :
  begin_and_recover_policy_mutation i q digest db = Ok (Some r) → policy_request_digest q = Some digest →
  policy_recovered q db r.
Proof.
  unfold begin_and_recover_policy_mutation. destruct (get_event_by_operation _ _) as [e|] eqn:E.
  2: { by intros (? & _ & ?)%result_bind_Ok. }
  intros [Hm (? & _ & H)%result_bind_Ok]%ensure_bind_Ok Hd. apply Ok_inj in H. injection H as <-.
  apply get_event_Some in E as [He Eop].
  rewrite negb_true_iff, !orb_false_iff, !negb_false_iff, bool_decide_eq_true, !Z.eqb_eq in Hm.
  unfold str_eqb in Hm. rewrite bool_decide_eq_true in Hm. destruct Hm as [[[H1 <-] H2] H3].
  by exists e.
Qed.

Lemma begin_None i q digest db :
  begin_and_recover_policy_mutation i q digest db = Ok None → get_event_by_operation (operation_id q) db = None.
Proof.
  unfold begin_and_recover_policy_mutation. destruct (get_event_by_operation _ _) as [e|]; [|done].
  intros [_ (? & _ & H)%result_bind_Ok]%ensure_bind_Ok. done.
Qed.

Lemma mutate_Ok i q db work r db' :
  mutate i q db work = Ok (r, db') →
  (db' = db ∧ policy_recovered q db r) ∨
  (∃ digest, policy_request_digest q = Some digest ∧ get_event_by_operation (operation_id q) db = None ∧
             work digest = Ok (r, db')).
Proof.
  unfold mutate. intros (digest & Hd%oget_Ok & ([r'|] & Hr & H)%result_bind_Ok)%result_bind_Ok.
  - left. apply Ok_inj in H as [= -> ->]. split; [done|by eapply begin_Some].
  - right. exists digest. split_and!; [done|by eapply begin_None|done].
Qed.

(** Facts about a successful call whose recovery has been dealt with *)
Ltac written H :=
  let digest := fresh "digest" in
  apply mutate_Ok in H as [?|(digest & Hdigest & Hfresh & H)]; [by left|right].

Lemma create_draft_Ok i q db r db' :
  create_draft i q db = Ok (r, db') →
  (db' = db ∧ policy_recovered (CreateDraft q) db r) ∨ policy_written i (CreateDraft q) db r db'.
Proof.
  unfold create_draft. intros (? & _ & [_ H]%ensure_bind_Ok)%result_bind_Ok. written H.
  apply result_bind_Ok in H as (project & _ & [_ [Hn H]%ensure_bind_Ok]%ensure_bind_Ok).
  apply result_bind_Ok in H as (actor & ->%consume_policy_Ok & H).
  apply result_bind_Ok in H as (db1 & Hf%add_policy_version_event_Ok & H). apply Ok_inj in H. injection H as <- <-.
  assert (get_open_draft (dq_project_id q) db = None) as Hopen by by destruct (get_open_draft _ _).
  eexists _, _, _. split_and!; [done| |done|by apply change_create_draft|].
  - unfold event_of. cbn. split_and!; try done. destruct (reusable _ _) as [p|] eqn:Er; [|done].
    by apply reusable_Some in Er as (_ & E & _).
  - unfold drafted_version. destruct (reusable _ _) as [p|]; exact Hf.
Qed.

Lemma retire_Ok i q db r db' :
  retire i q db = Ok (r, db') →
  (db' = db ∧ policy_recovered (Retire q) db r) ∨ policy_written i (Retire q) db r db'.
Proof.
  unfold retire. intros (? & _ & [_ H]%ensure_bind_Ok)%result_bind_Ok. written H.
  apply result_bind_Ok in H as (? & _ & ([p v] & Ht & H)%result_bind_Ok).
  unfold _lock_target in Ht. destruct (get_policy _ _ _) as [p'|] eqn:Ep; [|done].
  destruct (get_version _ _ _ _) as [v'|] eqn:Ev; [|done]. injection Ht as -> ->.
  apply ensure_bind_Ok in H as [Hs H]. rewrite !andb_true_iff, !bool_decide_eq_true in Hs. destruct Hs as [[H1 H2] H3].
  apply result_bind_Ok in H as (actor & ->%consume_policy_Ok & H).
  apply result_bind_Ok in H as (db1 & Hc & H).
  unfold create_transition_custody, admitted in Hc.
  apply result_bind_Ok in Hc as (? & _ & [_ [= <-]]%ensure_bind_Ok).
  apply result_bind_Ok in H as (db2 & [Hp Ht Hu Hue He Ho1 Ho2 Ho3]%flush_transition_event_Ok & H).
  apply Ok_inj in H. injection H as <- <-.
  eexists _, _, _. split_and!; [done| |done|by eapply change_retire|by split].
  unfold event_of. done.
Qed.

Lemma update_draft_Ok {S} `{BindingPort S} (bindings : S) i q db r db' :
  update_draft bindings i q db = Ok (r, db') →
  (db' = db ∧ policy_recovered (UpdateDraft q) db r) ∨ policy_written i (UpdateDraft q) db r db'.
Proof.
  unfold update_draft. intros (? & _ & [Hg Hm]%ensure_bind_Ok)%result_bind_Ok. written Hm.
  apply result_bind_Ok in Hm as (? & _ & [_ Hm]%ensure_bind_Ok).
  apply result_bind_Ok in Hm as (p & Hp%oget_Ok & [Hs%bool_decide_eq_true Hm]%ensure_bind_Ok).
  apply result_bind_Ok in Hm as (v & Hv%oget_Ok & [Hd%bool_decide_eq_true Hm]%ensure_bind_Ok).
  apply result_bind_Ok in Hm as ([rs ds] & [_ Hb]%ensure_bind_Ok & Hm).
  apply result_bind_Ok in Hm as (actor & ->%consume_policy_Ok & Hm).
  apply result_bind_Ok in Hm as (db1 & Hf%replace_graph_Ok & Hm). apply Ok_inj in Hm. injection Hm as <- <-.
  eexists _, _, _. split_and!; [done| |done| |exact Hf].
  - unfold event_of. cbn. split_and!; try done. by apply get_policy_Some in Hp as (_ & -> & _).
  - refine (change_update_draft i db bindings q p v rs ds _ _ _ _ _ _); try done. by destruct (cp_status p); [..|set_solver].
Qed.

(** What a publication that is not a replay checked and wrote *)
Definition published_with {S} `{BindingPort S} (bindings : S) (q : PolicyVersionRequest)
    (db : PolicyDb) (e : ContributionPolicyLifecycleEvent) (v v' : ContributionPolicyVersion) (db' : PolicyDb) : Prop :=
  ∃ p prior graph definitions c,
    get_policy (vq_project_id q) (vq_contribution_policy_id q) db = Some p ∧
    get_version (vq_project_id q) (vq_contribution_policy_id q) (vq_contribution_policy_version_id q) db = Some v ∧
    cp_status p ≠ policy_retired ∧ pv_status v = draft ∧ _lock_prior p v db = Ok prior ∧
    lock_publication_graph (pv_id v) db = Ok (graph, definitions) ∧
    require_complete_policy_graph v graph definitions = Ok tt ∧
    lock_policy_resources bindings (vq_project_id q) definitions db = Ok tt ∧
    v' = published_version (vq_actor_profile_id q) c v ∧
    flushed e (set_row cp_id (activated_policy (pv_id v) c p) (pb_policies db))
      (with_versions
         (set_row pv_id v'
            (match prior with
             | Some w => set_row pv_id (retired_version (vq_actor_profile_id q) c w) (versions_of db)
             | None => versions_of db
             end)) (pb_tables db)) db db'.

Lemma publish_new {S} `{BindingPort S} (bindings : S) i q db r db' :
  publish bindings i q db = Ok (r, db') →
  (db' = db ∧ policy_recovered (Publish q) db r) ∨
  ∃ e v v', r = _result e ∧ event_of (Publish q) e ∧ get_event_by_operation (operation_id (Publish q)) db = None ∧
    published_with bindings q db e v v' db'.
Proof.
  unfold publish. intros (? & _ & [_ Hm]%ensure_bind_Ok)%result_bind_Ok. written Hm.
  apply result_bind_Ok in Hm as (? & _ & ([p v] & Ht & Hm)%result_bind_Ok).
  unfold _lock_target in Ht. destruct (get_policy _ _ _) as [p'|] eqn:Ep; [|done].
  destruct (get_version _ _ _ _) as [v'|] eqn:Ev; [|done]. injection Ht as -> ->.
  apply ensure_bind_Ok in Hm as [[Hs%bool_decide_eq_true Hd%bool_decide_eq_true]%andb_prop Hm].
  apply result_bind_Ok in Hm as (prior & Hprior & ([graph ds] & Hgraph & ([] & Hc & Hm)%result_bind_Ok)%result_bind_Ok).
  apply result_bind_Ok in Hm as ([] & Hres & (facts & _ & Hm)%result_bind_Ok).
  apply result_bind_Ok in Hm as (actor & ->%consume_policy_Ok & (db1 & Hcu & Hm)%result_bind_Ok).
  unfold create_transition_custody, admitted in Hcu.
  apply result_bind_Ok in Hcu as (? & _ & [_ [= <-]]%ensure_bind_Ok).
  apply result_bind_Ok in Hm as (db2 & [Hp Ht Hu Hue He Ho1 Ho2 Ho3]%flush_transition_event_Ok & Hm).
  apply Ok_inj in Hm. injection Hm as <- <-.
  eexists _, v, _. split_and!; [done|done|done|].
  exists p, prior, graph, ds, (_custody i q digest event_published prior).
  split_and!; try done; [by destruct (cp_status p); [..|set_solver]|]. destruct prior; by split.
Qed.

Lemma publish_Ok {S} `{BindingPort S} (bindings : S) i q db r db' :
  publish bindings i q db = Ok (r, db') →
  (db' = db ∧ policy_recovered (Publish q) db r) ∨ policy_written i (Publish q) db r db'.
Proof.
  intros [?|(e & v & v' & -> & He & Hn & p & prior & graph & ds & c & H1 & H2 & H3 & H4 & H5 & H6 & H7 & H8 & -> & Hf)]%publish_new;
    [by left|right].
  eexists _, _, _. split_and!; [done|done|done| |exact Hf].
  by refine (change_publish i db bindings q p v prior graph ds c _ _ _ _ _ _ _ _).
Qed.

Lemma run_policy_Ok {S} `{BindingPort S} (bindings : S) i q db r db' :
  run_policy bindings i q db = Ok (r, db') →
  (db' = db ∧ policy_recovered q db r) ∨ policy_written i q db r db'.
Proof.
  destruct q; [apply create_draft_Ok|apply update_draft_Ok|apply publish_Ok|apply retire_Ok].
Qed.

Lemma create_unit_Ok i q db r db' :
  create_unit i q db = Ok (r, db') →
  db' = db ∨
  (∃ u e, db' = with_units (pb_units db ++ [u]) (pb_unit_events db ++ [e]) db ∧ unit_checks u = true).
Proof.
  unfold create_unit.
  intros (? & _ & (digest & _ & (? & _ & H)%result_bind_Ok)%result_bind_Ok)%result_bind_Ok.
  destruct (get_unit_creation_event _ _) as [e|].
  { apply ensure_bind_Ok in H as [_ H]. apply Ok_inj in H. injection H as <- <-. by left. }
  apply result_bind_Ok in H as (? & _ & (? & _ & [_ [_ H]%ensure_bind_Ok]%ensure_bind_Ok)%result_bind_Ok).
  apply result_bind_Ok in H as (actor & _ & (db1 & Hf & H)%result_bind_Ok). apply Ok_inj in H. injection H as <- <-.
  unfold add_unit_and_creation_event, admitted in Hf. cbn [insert_rows] in Hf. right.
  apply result_bind_Ok in Hf as (us & [[Hu _]%andb_prop [= <-]]%ensure_bind_Ok & Hf).
  apply result_bind_Ok in Hf as (db2 & [_ [= <-]]%ensure_bind_Ok & Hf).
  apply result_bind_Ok in Hf as (es & [_ [= <-]]%ensure_bind_Ok & [_ [= <-]]%ensure_bind_Ok).
  eauto.
Qed.
