(* ===== verification/PolicyGuarantees.v ===== *)
(** * Guarantees of the contribution policy service

    In every state that calls can reach: a project has at most one open draft and at most one
    policy that is not retired, the version a policy names is its only published one, and every
    version that was ever published has complete terms.  Unit tables may change between calls in
    any way their CHECKs allow. *)

From S2P Require Import Prelude Text Digest Json Instant Lifecycle Awards Contributions Rows Bindings.
From S2P Require Import PolicyApi PolicyStore PolicyService PolicyEffects.

(** ** Steps *)

Inductive policy_step (db : PolicyDb) : PolicyDb → Prop :=
| step_command {S} `{BindingPort S} (bindings : S) i q r db' :
    run_policy bindings i q db = Ok (r, db') → policy_step db db'
| step_unit i q r db' : create_unit i q db = Ok (r, db') → policy_step db db'
| step_units units :
    (∀ u, u ∈ units → unit_checks u = true) → policy_step db (with_units units (pb_unit_events db) db).

Definition no_policies : PolicyDb :=
  {| pb_policies := []; pb_tables := {| pt_versions := []; pt_rules := []; pt_definitions := [] |};
     pb_units := []; pb_custody := []; pb_events := []; pb_unit_events := [] |}.

Definition policy_reachable (db : PolicyDb) : Prop := rtc policy_step no_policies db.

(** ** The invariant *)

Definition owns (p : ContributionPolicy) (v : ContributionPolicyVersion) : Prop :=
  cp_id p = pv_contribution_policy_id v ∧ cp_project_id p = pv_project_id v.

(** The code of a definition's unit fits its columns. *)
Definition unit_code_ok (d : ContributionAwardDefinition) : bool :=
  (1 <=? len (df_unit_code (dr_facts d))) && (len (df_unit_code (dr_facts d)) <=? 32).

(** A version's graph is complete. *)
Definition terms_ok (v : ContributionPolicyVersion) (db : PolicyDb) : Prop :=
  ∃ graph ds, lock_publication_graph (pv_id v) db = Ok (graph, ds) ∧
    require_complete_policy_graph v graph ds = Ok tt ∧ forallb unit_code_ok ds = true.

(** How policies and versions fit together *)
Record life_inv (ps : list ContributionPolicy) (vs : list ContributionPolicyVersion) : Prop := {
  lf_owner v : v ∈ vs → ∃ p, p ∈ ps ∧ owns p v;
  lf_one_draft v w : v ∈ vs → w ∈ vs → pv_status v = draft → pv_status w = draft →
    pv_project_id v = pv_project_id w → v = w;
  lf_one_live p q : p ∈ ps → q ∈ ps → cp_status p ≠ policy_retired → cp_status q ≠ policy_retired →
    cp_project_id p = cp_project_id q → p = q;
  lf_published p v : p ∈ ps → v ∈ vs → cp_id p = pv_contribution_policy_id v →
    pv_status v = published ↔ cp_status p = policy_active ∧ cp_current_published_version_id p = Some (pv_id v);
  lf_current p id : p ∈ ps → cp_current_published_version_id p = Some id →
    ∃ v, v ∈ vs ∧ pv_id v = id ∧ cp_id p = pv_contribution_policy_id v ∧ pv_status v ≠ draft;
  lf_new p v : p ∈ ps → v ∈ vs → cp_id p = pv_contribution_policy_id v → cp_status p = policy_draft →
    pv_status v = draft;
}.

Record policy_inv (db : PolicyDb) : Prop := {
  pn_policies : policies_ok (pb_policies db);
  pn_tables : tables_ok (pb_tables db);
  pn_events : policy_events_ok (pb_events db);
  pn_units u : u ∈ pb_units db → unit_checks u = true;
  pn_life : life_inv (pb_policies db) (versions_of db);
  pn_terms v : v ∈ versions_of db → pv_status v ≠ draft → terms_ok v db;
}.

Lemma policy_inv_empty : policy_inv no_policies.
Proof.
  split; [apply rows_ok_nil|split; apply rows_ok_nil|apply rows_ok_nil| |split|]; unfold versions_of; cbn;
    intros; by match goal with H : _ ∈ [] |- _ => apply elem_of_nil in H end.
Qed.

(** Rows are determined by their identities. *)
Lemma policy_by_id db p q :
  policies_ok (pb_policies db) → p ∈ pb_policies db → q ∈ pb_policies db → cp_id p = cp_id q → p = q.
Proof. intros Hok Hp Hq E. apply (rows_unique _ _ _ _ _ Hok Hp Hq). auto. Qed.

Lemma version_by_id db v w :
  versions_ok (versions_of db) → v ∈ versions_of db → w ∈ versions_of db → pv_id v = pv_id w → v = w.
Proof. intros Hok Hv Hw E. apply (rows_unique _ _ _ _ _ Hok Hv Hw). auto. Qed.

(** The appended row of a consistent table has a new identity. *)
Lemma appended_fresh {A} (checks : A → bool) conflicts (l : list A) a x :
  rows_ok checks conflicts (l ++ [a]) → x ∈ l → conflicts x a = false.
Proof.
  intros [_ Hu] [k Hk]%list_elem_of_lookup. pose proof (lookup_lt_Some _ _ _ Hk).
  apply (Hu k (length l)); [by apply lookup_app_l_Some|by rewrite list_lookup_middle|lia].
Qed.

Lemma appended_version l v w : versions_ok (l ++ [v]) → w ∈ l → pv_id w ≠ pv_id v.
Proof. intros Hok Hw E. pose proof (appended_fresh _ _ _ _ _ Hok Hw) as H. rewrite version_conflicts_id in H; done. Qed.

Lemma appended_policy l p q : policies_ok (l ++ [p]) → q ∈ l → cp_id q ≠ cp_id p.
Proof. intros Hok Hq E. pose proof (appended_fresh _ _ _ _ _ Hok Hq) as H. rewrite policy_conflicts_id in H; done. Qed.


(** ** Terms *)

Lemma require_complete_same v w graph ds :
  pv_id v = pv_id w → pv_project_id v = pv_project_id w →
  require_complete_policy_graph v graph ds = require_complete_policy_graph w graph ds.
Proof.
  intros E1 E2. unfold require_complete_policy_graph. do 2 f_equal. unfold owned_rule. by rewrite E1, E2.
Qed.

(** Terms only depend on the rows of rules and definitions of the version. *)
Lemma terms_ok_same v w db db' :
  pv_id v = pv_id w → pv_project_id v = pv_project_id w →
  version_rules (pv_id v) (pb_tables db') = version_rules (pv_id v) (pb_tables db) →
  version_definitions (pv_id v) (pb_tables db') = version_definitions (pv_id v) (pb_tables db) →
  terms_ok v db → terms_ok w db'.
Proof.
  intros E1 E2 E3 E4 (graph & ds & Hg & Hc & Hu). exists graph, ds.
  rewrite <- (require_complete_same v w) by done. split_and!; [|done..].
  rewrite <- E1. unfold lock_publication_graph in *. by rewrite E3, E4.
Qed.

Lemma terms_rule_of v db d :
  terms_ok v db → d ∈ pt_definitions (pb_tables db) → df_contribution_policy_version_id (dr_facts d) = pv_id v →
  ∃ r, r ∈ pt_rules (pb_tables db) ∧ ru_id r = dr_contribution_rule_id d ∧
       ru_contribution_policy_version_id r = pv_id v.
Proof.
  intros (graph & ds & Hg & _) Hd Ev. unfold lock_publication_graph in Hg. apply ensure_bind_Ok in Hg as [Hf _].
  rewrite forallb_forall in Hf. specialize (Hf d).
  assert (d ∈ version_definitions (pv_id v) (pb_tables db)) as Hin.
  { unfold version_definitions. rewrite sorted_on_Permutation, filter_elem. split; [done|by apply Z.eqb_eq]. }
  apply list_elem_of_In, Hf, existsb_exists in Hin as (r & Hr & E%Z.eqb_eq).
  apply list_elem_of_In in Hr. unfold version_rules in Hr. rewrite sorted_on_Permutation in Hr.
  apply filter_elem in Hr as [Hr Er%Z.eqb_eq]. by exists r.
Qed.

(** What the graph of an update belongs to *)
Lemma build_definitions_version {S} `{BindingPort S} (bindings : S) i q n r k ds db l :
  build_definitions bindings i q n r k ds db = Ok l →
  ∀ d, d ∈ l → df_contribution_policy_version_id (dr_facts d) = vq_contribution_policy_version_id q.
Proof.
  revert k l. induction ds as [|d ds IH]; intros k l; cbn; [by intros [= <-] ? ?%elem_of_nil|].
  intros [_ [_ (quantity & _ & (rest & Hr & [= <-])%result_bind_Ok)%result_bind_Ok]%ensure_bind_Ok]%ensure_bind_Ok.
  intros x [->|Hx]%elem_of_cons; [done|by eapply IH].
Qed.

Lemma build_rules_version {S} `{BindingPort S} (bindings : S) i q n rs db rules ds :
  build_rules bindings i q n rs db = Ok (rules, ds) →
  (∀ r, r ∈ rules → ru_contribution_policy_version_id r = vq_contribution_policy_version_id q) ∧
  (∀ d, d ∈ ds → df_contribution_policy_version_id (dr_facts d) = vq_contribution_policy_version_id q).
Proof.
  revert n rules ds. induction rs as [|r rs IH]; intros n rules ds; cbn.
  { intros [= <- <-]. split; by intros ? ?%elem_of_nil. }
  intros (l & Hl & ([rules' ds'] & [H1 H2]%IH & [= <- <-])%result_bind_Ok)%result_bind_Ok. split.
  - intros x [->|Hx]%elem_of_cons; [done|by apply H1].
  - intros x [Hx|Hx]%elem_of_app; [by eapply build_definitions_version|by apply H2].
Qed.

Lemma filter_nil {A} (f : A → bool) l : (∀ x, x ∈ l → f x = false) → List.filter f l = [].
Proof.
  induction l as [|x l IH]; intros H; [done|]. cbn. rewrite (H x) by apply list_elem_of_here.
  apply IH. intros y Hy. by apply H, list_elem_of_further.
Qed.

Lemma filter_weaker {A} (f g : A → bool) l :
  (∀ x, x ∈ l → f x = true → g x = true) → List.filter f (List.filter g l) = List.filter f l.
Proof.
  induction l as [|x l IH]; intros H; [done|]. cbn.
  rewrite <- IH by (intros y Hy; apply H; by apply list_elem_of_further).
  specialize (H x (list_elem_of_here _ _)). destruct (g x), (f x) eqn:E; cbn; rewrite ?E; try done. by specialize (H eq_refl).
Qed.

(** Replacing the graph of one version leaves the terms of another alone. *)
Lemma replaced_terms db v w rules ds t' :
  rules_ok (pt_rules (pb_tables db)) → terms_ok w db → pv_id w ≠ v →
  (∀ r, r ∈ rules → ru_contribution_policy_version_id r = v) →
  (∀ d, d ∈ ds → df_contribution_policy_version_id (dr_facts d) = v) →
  pt_rules t' = kept_rules v (pb_tables db) ++ rules →
  pt_definitions t' = kept_definitions v (pb_tables db) ++ ds →
  List.filter (λ r, ru_contribution_policy_version_id r =? pv_id w) (pt_rules t') =
    List.filter (λ r, ru_contribution_policy_version_id r =? pv_id w) (pt_rules (pb_tables db)) ∧
  List.filter (λ d, df_contribution_policy_version_id (dr_facts d) =? pv_id w) (pt_definitions t') =
    List.filter (λ d, df_contribution_policy_version_id (dr_facts d) =? pv_id w) (pt_definitions (pb_tables db)).
Proof.
  intros Hok Hw Hne Hr Hd -> ->. rewrite !List.filter_app.
  rewrite (filter_nil _ rules), (filter_nil _ ds), !app_nil_r.
  2: { intros x Hx. rewrite (Hd x Hx). apply Z.eqb_neq. congruence. }
  2: { intros x Hx. rewrite (Hr x Hx). apply Z.eqb_neq. congruence. }
  split; apply filter_weaker.
  - intros x _ E%Z.eqb_eq. apply negb_true_iff, Z.eqb_neq. congruence.
  - intros x Hx E%Z.eqb_eq. destruct (terms_rule_of w db x Hw Hx E) as (r & Hrin & Er & Ev).
    apply negb_true_iff, not_true_iff_false.
    intros (s & Hs%list_elem_of_In & [E1%Z.eqb_eq E2%Z.eqb_eq]%andb_prop)%existsb_exists.
    assert (s = r) as ->; [|congruence]. apply (rows_unique _ _ _ _ _ Hok Hs Hrin), rule_conflicts_eq. left. congruence.
Qed.

(** ** Policies and versions through each change *)

(** A changed version keeps its identity. *)
Definition same_version (v w : ContributionPolicyVersion) : Prop :=
  pv_id v = pv_id w ∧ pv_contribution_policy_id v = pv_contribution_policy_id w ∧
  pv_project_id v = pv_project_id w ∧ pv_version_number v = pv_version_number w.

Lemma same_version_trans u v w : same_version u v → same_version v w → same_version u w.
Proof. intros (?&?&?&?) (?&?&?&?). unfold same_version. split_and!; congruence. Qed.

Section Life.
Context (ps : list ContributionPolicy) (vs : list ContributionPolicyVersion).
Context (Hps : policies_ok ps) (Hvs : versions_ok vs) (Hlife : life_inv ps vs).

Let policy_same p q : p ∈ ps → q ∈ ps → cp_id p = cp_id q → p = q.
Proof. intros Hp Hq E. apply (rows_unique _ _ _ _ _ Hps Hp Hq). auto. Qed.
Let version_same v w : v ∈ vs → w ∈ vs → pv_id v = pv_id w → v = w.
Proof. intros Hv Hw E. apply (rows_unique _ _ _ _ _ Hvs Hv Hw). auto. Qed.

(** A new draft version of a stored policy *)
Lemma life_add_version p v :
  p ∈ ps → owns p v → cp_status p ≠ policy_retired → pv_status v = draft →
  (∀ w, w ∈ vs → pv_status w = draft → pv_project_id w ≠ pv_project_id v) → versions_ok (vs ++ [v]) →
  life_inv ps (vs ++ [v]).
Proof.
  intros Hp [Ho1 Ho2] Hlive Hd Hopen Hok. destruct Hlife as [L1 L2 L3 L4 L5 L6].
  assert (∀ w, w ∈ vs ++ [v] ↔ w ∈ vs ∨ w = v) as Hmem by (intros w; by rewrite elem_of_app, list_elem_of_singleton).
  split.
  - intros w [Hw| ->]%Hmem; [by apply L1|by exists p].
  - intros x y [Hx| ->]%Hmem [Hy| ->]%Hmem Dx Dy E; [by apply L2|by destruct (Hopen x)|by destruct (Hopen y)|done].
  - done.
  - intros q w Hq [Hw| ->]%Hmem E; [by apply L4|]. rewrite Hd. split; [done|]. intros [_ Hc].
    destruct (L5 q _ Hq Hc) as (x & Hx & Ex & _). by destruct (appended_version _ _ _ Hok Hx).
  - intros q id Hq Hc. destruct (L5 q id Hq Hc) as (x & Hx & H). exists x. split; [apply Hmem; by left|done].
  - intros q w Hq [Hw| ->]%Hmem E Hs; [by eapply L6|done].
Qed.

(** A policy without versions *)
Lemma life_add_policy p :
  cp_status p = policy_draft → cp_current_published_version_id p = None →
  (∀ q, q ∈ ps → cp_project_id q = cp_project_id p → cp_status q = policy_retired) → policies_ok (ps ++ [p]) →
  life_inv (ps ++ [p]) vs.
Proof.
  intros Hd Hn Hlive Hok. destruct Hlife as [L1 L2 L3 L4 L5 L6].
  assert (∀ w, w ∈ ps ++ [p] ↔ w ∈ ps ∨ w = p) as Hmem by (intros w; by rewrite elem_of_app, list_elem_of_singleton).
  assert (∀ v, v ∈ vs → cp_id p ≠ pv_contribution_policy_id v) as Hfresh.
  { intros v Hv E. destruct (L1 v Hv) as (q & Hq & [E1 _]). apply (appended_policy _ _ _ Hok Hq). congruence. }
  split.
  - intros v Hv. destruct (L1 v Hv) as (q & Hq & H). exists q. split; [apply Hmem; by left|done].
  - done.
  - intros x y [Hx| ->]%Hmem [Hy| ->]%Hmem Dx Dy E; [by apply L3|by destruct Dx; apply Hlive|by destruct Dy; apply Hlive|done].
  - intros q v [Hq| ->]%Hmem Hv E; [by apply L4|by destruct (Hfresh v)].
  - intros q id [Hq| ->]%Hmem Hc; [by apply L5|congruence].
  - intros q v [Hq| ->]%Hmem Hv E; [by apply L6|by destruct (Hfresh v)].
Qed.

(** A change of a version that keeps its status *)
Lemma life_touch v v' :
  v ∈ vs → same_version v' v → pv_status v' = pv_status v → life_inv ps (set_row pv_id v' vs).
Proof.
  intros Hv (E1 & E2 & E3 & _) Es. destruct Hlife as [L1 L2 L3 L4 L5 L6].
  assert (∀ w, w ∈ set_row pv_id v' vs → ∃ x, x ∈ vs ∧ pv_id w = pv_id x ∧ pv_status w = pv_status x ∧
            pv_contribution_policy_id w = pv_contribution_policy_id x ∧ pv_project_id w = pv_project_id x ∧
            (pv_id x = pv_id v → w = v') ∧ (pv_id x ≠ pv_id v → w = x)) as Hold.
  { intros w [[-> _]|[Hw Hne]]%elem_of_set_row; [exists v; naive_solver|].
    exists w. split_and!; try done. intros E. congruence. }
  assert (∀ x, x ∈ vs → ∃ w, w ∈ set_row pv_id v' vs ∧ pv_id w = pv_id x ∧ pv_status w = pv_status x ∧
            pv_contribution_policy_id w = pv_contribution_policy_id x) as Hnew.
  { intros x Hx. destruct (decide (pv_id x = pv_id v')) as [E|E].
    - assert (x = v) as -> by (apply version_same; [done..|congruence]).
      exists v'. split; [apply elem_of_set_row; left; eauto|done].
    - exists x. split; [apply elem_of_set_row; by right|done]. }
  split.
  - intros w (x & Hx & _ & _ & F1 & F2 & _)%Hold. destruct (L1 x Hx) as (p & Hp & [G1 G2]).
    exists p. split; [done|]. split; congruence.
  - intros a b (x & Hx & _ & S1 & _ & P1 & Q1 & R1)%Hold (y & Hy & _ & S2 & _ & P2 & Q2 & R2)%Hold Da Db E.
    assert (x = y) as -> by (apply L2; congruence). destruct (decide (pv_id y = pv_id v)) as [Hy'|Hne]; [|by rewrite (R1 Hne), (R2 Hne)].
    by rewrite (Q1 Hy'), (Q2 Hy').
  - done.
  - intros p w Hp (x & Hx & F0 & F1 & F2 & _)%Hold E. rewrite F1, F0. apply L4; congruence.
  - intros p id Hp Hc. destruct (L5 p id Hp Hc) as (x & Hx & F1 & F2 & F3).
    destruct (Hnew x Hx) as (w & Hw & G1 & G2 & G3). exists w. split_and!; congruence.
  - intros p w Hp (x & Hx & _ & F1 & F2 & _)%Hold E Hs. rewrite F1. apply (L6 p); congruence.
Qed.

(** A policy and some of its versions are published or retired. *)
Lemma life_settle p p' (f : ContributionPolicyVersion → ContributionPolicyVersion) :
  p ∈ ps → cp_id p' = cp_id p → cp_project_id p' = cp_project_id p → cp_status p ≠ policy_retired →
  cp_status p' ≠ policy_draft →
  (∀ x, x ∈ vs → same_version (f x) x) →
  (∀ x, x ∈ vs → pv_status (f x) = draft → f x = x) →
  (∀ x, x ∈ vs → pv_status x ≠ draft → pv_status (f x) ≠ draft) →
  (∀ x, x ∈ vs → pv_contribution_policy_id x ≠ cp_id p → f x = x) →
  (∀ x, x ∈ vs → pv_contribution_policy_id x = cp_id p →
     pv_status (f x) = published ↔ cp_status p' = policy_active ∧ cp_current_published_version_id p' = Some (pv_id x)) →
  (∀ id, cp_current_published_version_id p' = Some id →
     ∃ x, x ∈ vs ∧ pv_id x = id ∧ pv_contribution_policy_id x = cp_id p ∧ pv_status (f x) ≠ draft) →
  life_inv (set_row cp_id p' ps) (map f vs).
Proof.
  intros Hp Ei Epr Hlive Hnd Hsame Hdraft Hkeep Hother Hpub Hcur. destruct Hlife as [L1 L2 L3 L4 L5 L6].
  assert (∀ q, q ∈ set_row cp_id p' ps ↔ q = p' ∨ (q ∈ ps ∧ cp_id q ≠ cp_id p)) as Hmem.
  { intros q. rewrite elem_of_set_row, Ei. split; [naive_solver|]. intros [->|[Hq Hne]]; [left; eauto|by right]. }
  split.
  - intros y (x & -> & Hx)%list_elem_of_fmap. destruct (Hsame x Hx) as (_ & E1 & E2 & _).
    destruct (L1 x Hx) as (q & Hq & [G1 G2]). destruct (decide (cp_id q = cp_id p)) as [E|E].
    + assert (q = p) as -> by by apply policy_same. exists p'. split; [apply Hmem; by left|]. split; congruence.
    + exists q. split; [apply Hmem; by right|]. split; congruence.
  - intros a b (x & -> & Hx)%list_elem_of_fmap (y & -> & Hy)%list_elem_of_fmap Da Db.
    rewrite (Hdraft x Hx Da) in Da |- *. rewrite (Hdraft y Hy Db) in Db |- *. by apply L2.
  - intros a b [->|[Ha Na]]%Hmem [->|[Hb Nb]]%Hmem Da Db E; [done| | |by apply L3].
    + destruct Nb. f_equal. symmetry. apply L3; (done || congruence).
    + destruct Na. f_equal. apply L3; (done || congruence).
  - intros q y [->|[Hq Nq]]%Hmem (x & -> & Hx)%list_elem_of_fmap E; destruct (Hsame x Hx) as (E0 & E1 & _).
    + rewrite E0. apply Hpub; congruence.
    + assert (f x = x) as Ef by (apply Hother; congruence). rewrite Ef in E |- *. by apply L4.
  - intros q id [->|[Hq Nq]]%Hmem Hc.
    + destruct (Hcur id Hc) as (x & Hx & F1 & F2 & F3). destruct (Hsame x Hx) as (E0 & E1 & _).
      exists (f x). split; [apply list_elem_of_fmap; eauto|]. split_and!; congruence.
    + destruct (L5 q id Hq Hc) as (x & Hx & F1 & F2 & F3). exists x.
      rewrite <- (Hother x Hx) at 1 by congruence. split; [apply list_elem_of_fmap; eauto|done].
  - intros q y [->|[Hq Nq]]%Hmem (x & -> & Hx)%list_elem_of_fmap E Hs; [done|]. destruct (Hsame x Hx) as (_ & E1 & _).
    rewrite (Hother x Hx) by congruence. apply (L6 q); congruence.
Qed.
End Life.

(** Setting rows of versions is a map. *)
Definition put_in (v x : ContributionPolicyVersion) : ContributionPolicyVersion :=
  if pv_id x =? pv_id v then v else x.

Lemma put_in_cases v x :
  (pv_id x = pv_id v ∧ put_in v x = v) ∨ (pv_id x ≠ pv_id v ∧ put_in v x = x).
Proof. unfold put_in. destruct (Z.eqb_spec (pv_id x) (pv_id v)); auto. Qed.

Lemma put_in_id v x : pv_id (put_in v x) = pv_id x.
Proof. destruct (put_in_cases v x) as [[E ->]|[_ ->]]; done. Qed.

Lemma published_shape actor c v :
  same_version (published_version actor c v) v ∧ pv_status (published_version actor c v) = published.
Proof. done. Qed.

Lemma retired_shape actor c v :
  same_version (retired_version actor c v) v ∧ pv_status (retired_version actor c v) = retired.
Proof. done. Qed.

Lemma lock_prior_Ok p v db prior :
  _lock_prior p v db = Ok prior →
  match prior with
  | None => cp_current_published_version_id p = None
  | Some w => w ∈ versions_of db ∧ cp_current_published_version_id p = Some (pv_id w) ∧
              pv_contribution_policy_id w = cp_id p ∧ pv_status w = published ∧ pv_id w ≠ pv_id v
  end.
Proof.
  unfold _lock_prior. destruct (cp_current_published_version_id p) as [id|]; [|by intros [= <-]].
  intros (w & (Hw & _ & E1 & E2)%oget_Ok%get_version_Some & H)%result_bind_Ok.
  apply ensure_bind_Ok in H as [[Hne%negb_true_iff%Z.eqb_neq Hs%bool_decide_eq_true]%andb_prop [= <-]].
  by subst id.
Qed.

Lemma life_publish db p v prior c actor :
  policy_inv db → p ∈ pb_policies db → v ∈ versions_of db → owns p v → cp_status p ≠ policy_retired →
  pv_status v = draft → _lock_prior p v db = Ok prior →
  life_inv (set_row cp_id (activated_policy (pv_id v) c p) (pb_policies db))
    (set_row pv_id (published_version actor c v)
       (match prior with
        | Some w => set_row pv_id (retired_version actor c w) (versions_of db)
        | None => versions_of db
        end)).
Proof.
  intros Hinv Hp Hv [Ho1 Ho2] Hlive Hd Hprior%lock_prior_Ok.
  set (h x := match prior with Some w => put_in (retired_version actor c w) x | None => x end).
  assert (∀ x, pv_id (h x) = pv_id x) as Hhid by (intros x; unfold h; destruct prior; [apply put_in_id|done]).
  replace (set_row pv_id _ _) with (map (λ x, put_in (published_version actor c v) (h x)) (versions_of db)).
  2: { unfold set_row, h. destruct prior; [by rewrite map_map|done]. }
  set (f x := put_in (published_version actor c v) (h x)).
  pose proof (to_versions _ (pn_tables _ Hinv)) as Hvs. pose proof (pn_life _ Hinv) as Hlife.
  assert (∀ x, x ∈ versions_of db → pv_id x = pv_id v → x = v) as Hxv by (intros x Hx E; by apply (version_by_id db)).
  (** the three kinds of versions *)
  assert (∀ x, x ∈ versions_of db →
            (x = v ∧ f x = published_version actor c v) ∨
            (pv_id x ≠ pv_id v ∧ prior = Some x ∧ f x = retired_version actor c x) ∨
            (pv_id x ≠ pv_id v ∧ (∀ w, prior = Some w → pv_id x ≠ pv_id w) ∧ f x = x)) as Hf.
  { intros x Hx. unfold f. destruct (put_in_cases (published_version actor c v) (h x)) as [[E ->]|[E ->]];
      rewrite Hhid in E; cbn in E; [left; eauto|right]. unfold h in *. destruct prior as [w|]; [|by right].
    destruct Hprior as (Hw & _). destruct (put_in_cases (retired_version actor c w) x) as [[F ->]|[F ->]]; cbn in F.
    - left. assert (x = w) as -> by by apply (version_by_id db). done.
    - right. split_and!; [done|by intros ? [= <-]|done]. }
  clearbody f. clear h Hhid.
  apply (life_settle _ _ (pn_policies _ Hinv) Hlife p); try done.
  - intros x Hx. by destruct (Hf x Hx) as [[-> ->]|[(_ & _ & ->)|(_ & _ & ->)]].
  - intros x Hx. by destruct (Hf x Hx) as [[-> ->]|[(_ & _ & ->)|(_ & _ & ->)]].
  - intros x Hx. by destruct (Hf x Hx) as [[-> ->]|[(_ & _ & ->)|(_ & _ & ->)]].
  - intros x Hx Hne. destruct (Hf x Hx) as [[-> _]|[(_ & E & _)|(_ & _ & ->)]]; [congruence| |done].
    rewrite E in Hprior. naive_solver.
  - intros x Hx E. cbn. destruct (Hf x Hx) as [[-> ->]|[(Hne & _ & ->)|(Hne & Hno & ->)]]; [done| |].
    + split; [done|]. intros [_ [= F]]. congruence.
    + rewrite (lf_published _ _ Hlife p x Hp Hx (eq_sym E)). split; [|intros [_ [= F]]; congruence].
      intros [_ F]. destruct prior as [w|]; [|congruence]. destruct Hprior as (_ & G & _). destruct (Hno w); [done|congruence].
  - intros id [= <-]. exists v. split_and!; [done..|]. destruct (Hf v Hv) as [[_ ->]|[(? & _)|(? & _)]]; done.
Qed.

Lemma life_retire db p v c actor :
  policy_inv db → p ∈ pb_policies db → v ∈ versions_of db → owns p v → cp_status p = policy_active →
  cp_current_published_version_id p = Some (pv_id v) →
  life_inv (set_row cp_id (retired_policy actor c p) (pb_policies db))
    (set_row pv_id (retired_version actor c v) (versions_of db)).
Proof.
  intros Hinv Hp Hv [Ho1 Ho2] Hact Hcur. pose proof (to_versions _ (pn_tables _ Hinv)) as Hvs.
  pose proof (pn_life _ Hinv) as Hlife.
  assert (∀ x, x ∈ versions_of db → pv_id x = pv_id v → x = v) as Hxv by (intros x Hx E; by apply (version_by_id db)).
  assert (∀ x, x ∈ versions_of db →
            (x = v ∧ put_in (retired_version actor c v) x = retired_version actor c v) ∨
            (pv_id x ≠ pv_id v ∧ put_in (retired_version actor c v) x = x)) as Hf.
  { intros x Hx. destruct (put_in_cases (retired_version actor c v) x) as [[E F]|[E F]]; [left|right]; auto. }
  change (set_row pv_id (retired_version actor c v) (versions_of db))
    with (map (put_in (retired_version actor c v)) (versions_of db)).
  apply (life_settle _ _ (pn_policies _ Hinv) Hlife p); try done; [by rewrite Hact| | | | | |].
  - intros x Hx. by destruct (Hf x Hx) as [[-> ->]|[_ ->]].
  - intros x Hx. by destruct (Hf x Hx) as [[-> ->]|[_ ->]].
  - intros x Hx. by destruct (Hf x Hx) as [[-> ->]|[_ ->]].
  - intros x Hx Hne. destruct (Hf x Hx) as [[-> _]|[_ ->]]; [congruence|done].
  - intros x Hx E. destruct (Hf x Hx) as [[-> ->]|[Hne ->]]; cbn; [split; [done|by intros []]|].
    rewrite (lf_published _ _ Hlife p x Hp Hx (eq_sym E)). split; intros [F1 F2]; [congruence|done].
  - intros id [= E]. assert (id = pv_id v) as -> by congruence. exists v. split_and!; [done..|].
    destruct (Hf v Hv) as [[_ ->]|[? _]]; done.
Qed.

(** ** Every step keeps the invariant *)

Lemma open_draft_None project db v :
  get_open_draft project db = None → v ∈ versions_of db → pv_status v = draft → pv_project_id v ≠ project.
Proof.
  intros Hn Hv Hd E. pose proof (find_None_elem _ _ _ Hn Hv) as H. cbn in H.
  rewrite E, Z.eqb_refl, Hd, bool_decide_eq_true_2 in H; done.
Qed.

Lemma life_change i db q ps t :
  policy_change i db q ps t → policy_inv db → policies_ok ps → tables_ok t → life_inv ps (pt_versions t).
Proof.
  intros [q' Hopen|S port bindings q' p v rules ds s _ Hp _ Hv _ _
    |S port bindings q' p v prior graph ds c Hp Hv Hs Hd Hprior _ _ _|q' p v c Hp Hv Hs Hc Hpub] Hinv Hps [Hvs _ _];
    cbn [pt_versions with_versions] in *; pose proof (pn_life _ Hinv) as Hlife.
  - unfold drafted_version in *. destruct (reusable _ _) as [p|] eqn:Er.
    + apply reusable_Some in Er as (Hp & E & Hs). rewrite app_nil_r in *.
      apply (life_add_version _ _ Hlife p); try done.
      intros w Hw Hd. cbn. by eapply open_draft_None.
    + rewrite reusable_eq in Er.
      apply (life_add_version (pb_policies db ++ [new_policy i q']) _) with (p := new_policy i q'); try done.
      * apply life_add_policy; try done. intros p Hp E. by eapply get_reusable_None.
      * apply elem_of_app. right. by apply list_elem_of_singleton.
      * intros w Hw Hd. cbn. by eapply open_draft_None.
  - apply get_version_Some in Hv as (Hv & _).
    apply (life_touch _ _ (to_versions _ (pn_tables _ Hinv)) Hlife v); done.
  - apply get_policy_Some in Hp as (Hp & E1 & E2). apply get_version_Some in Hv as (Hv & F1 & F2 & _).
    apply life_publish; try done. split; congruence.
  - apply get_policy_Some in Hp as (Hp & E1 & E2). apply get_version_Some in Hv as (Hv & F1 & F2 & _).
    apply life_retire; try done. split; congruence.
Qed.

(** A version that is no draft before is none after, and its rows of terms are the same. *)
Definition frozen_in (db db' : PolicyDb) (v : ContributionPolicyVersion) : Prop :=
  ∃ w, w ∈ versions_of db' ∧ same_version w v ∧ pv_status w ≠ draft ∧
    List.filter (λ r, ru_contribution_policy_version_id r =? pv_id v) (pt_rules (pb_tables db')) =
      List.filter (λ r, ru_contribution_policy_version_id r =? pv_id v) (pt_rules (pb_tables db)) ∧
    List.filter (λ d, df_contribution_policy_version_id (dr_facts d) =? pv_id v) (pt_definitions (pb_tables db')) =
      List.filter (λ d, df_contribution_policy_version_id (dr_facts d) =? pv_id v) (pt_definitions (pb_tables db)).

Lemma set_row_settled vs v' x :
  pv_status v' ≠ draft → (∀ y, y ∈ vs → pv_id y = pv_id v' → same_version v' y) →
  x ∈ vs → pv_status x ≠ draft → ∃ w, w ∈ set_row pv_id v' vs ∧ same_version w x ∧ pv_status w ≠ draft.
Proof.
  intros Hs Hsame Hx Hd. destruct (decide (pv_id x = pv_id v')) as [E|E].
  - exists v'. split; [apply elem_of_set_row; left; eauto|]. split; [by apply Hsame|done].
  - exists x. split; [apply elem_of_set_row; by right|done].
Qed.

Lemma frozen_change i db q ps t db' v :
  policy_change i db q ps t → policy_inv db → pb_tables db' = t → v ∈ versions_of db → pv_status v ≠ draft →
  frozen_in db db' v.
Proof.
  intros Hch Hinv Ht Hv Hd. unfold frozen_in, versions_of. rewrite Ht. pose proof (to_versions _ (pn_tables _ Hinv)) as Hvs.
  destruct Hch as [q' Hopen|S port bindings q' p x rules ds s _ _ _ Hx Hdx Hb
    |S port bindings q' p x prior graph ds c _ Hx _ Hdx Hprior _ _ _|q' p x c _ Hx _ _ _];
    cbn [pt_versions pt_rules pt_definitions with_versions] in *.
  - exists v. split; [apply elem_of_app; by left|done].
  - apply get_version_Some in Hx as (Hx & _ & _ & Eid).
    assert (pv_id v ≠ pv_id x) as Hne.
    { intros E. assert (v = x) as -> by by apply (version_by_id db). done. }
    destruct (build_rules_version _ _ _ _ _ _ _ _ Hb) as [H1 H2].
    exists v. split; [apply elem_of_set_row; right; by split|]. split; [done|]. split; [done|].
    rewrite <- Eid in H1, H2.
    apply (replaced_terms db (pv_id x) v rules ds
             {| pt_versions := []; pt_rules := kept_rules (pv_id x) (pb_tables db) ++ rules;
                pt_definitions := kept_definitions (pv_id x) (pb_tables db) ++ ds |}); try done;
      [apply (to_rules _ (pn_tables _ Hinv))|by apply (pn_terms _ Hinv)].
  - apply get_version_Some in Hx as (Hx & _). apply lock_prior_Ok in Hprior.
    set (l := match prior with Some w => _ | None => _ end).
    assert (∃ w, w ∈ l ∧ same_version w v ∧ pv_status w ≠ draft) as (w & Hw & Hs & Hdw).
    { destruct prior as [w|]; [|by exists v]. apply set_row_settled; try done. intros y Hy E.
      assert (y = w) as -> by (apply (version_by_id db); naive_solver). done. }
    destruct (set_row_settled l (published_version (vq_actor_profile_id q') c x) w) as (z & Hz & Hsz & Hdz); try done.
    + intros y Hy E. unfold l in Hy. destruct prior as [u|].
      * apply elem_of_set_row in Hy as [[-> _]|[Hy _]]; cbn in E; [naive_solver|].
        assert (y = x) as -> by by apply (version_by_id db). done.
      * assert (y = x) as -> by by apply (version_by_id db). done.
    + exists z. split; [done|]. split; [by eapply same_version_trans|done].
  - apply get_version_Some in Hx as (Hx & _).
    destruct (set_row_settled (versions_of db) (retired_version (vq_actor_profile_id q') c x) v) as (z & Hz & Hsz & Hdz); try done.
    + intros y Hy E. assert (y = x) as -> by by apply (version_by_id db). done.
    + by exists z.
Qed.

Lemma unit_checks_code u : unit_checks u = true → 1 ≤ len (cu_unit_code u) ≤ 32.
Proof.
  unfold unit_checks. intros [[H _]%andb_prop _]%andb_prop. destruct (cu_instrument_type u).
  - destruct (cu_iso_currency_code u) as [c|]; [|done]. apply andb_prop in H as [H1 H2%Z.eqb_eq].
    unfold str_eqb in H1. apply bool_decide_eq_true in H1 as ->. lia.
  - apply andb_prop in H as [_ H]. unfold points_unit_pattern, match_token in H.
    destruct (cu_unit_code u) as [|x s]; [done|]. rewrite !andb_true_iff in H. unfold len in *. cbn [length]. lia.
Qed.

Lemma resources_codes {S} `{BindingPort S} (bindings : S) project ds db :
  lock_policy_resources bindings project ds db = Ok tt → (∀ u, u ∈ pb_units db → unit_checks u = true) →
  forallb unit_code_ok ds = true.
Proof.
  unfold lock_policy_resources. intros [Hu _]%ensure_bind_Ok Hunits. rewrite forallb_forall in Hu |- *.
  intros d Hd. specialize (Hu d Hd). unfold unit_is_active in Hu.
  destruct (lock_unit _ _ _ db) as [u|] eqn:E; [|done]. apply find_Some_elem in E as [Hin Hs].
  unfold same_unit, str_eqb in Hs. rewrite !andb_true_iff, !bool_decide_eq_true in Hs. destruct Hs as [_ Hs].
  pose proof (unit_checks_code u (Hunits u Hin)) as Hc. unfold unit_code_ok. rewrite <- Hs. lia.
Qed.

(** A version that is no draft after a change was none before, or its terms have just been checked. *)
Lemma settled_origin i db q ps t x :
  policy_change i db q ps t → policy_inv db → x ∈ pt_versions t → pv_status x ≠ draft →
  (∃ v, v ∈ versions_of db ∧ pv_id v = pv_id x ∧ pv_status v ≠ draft) ∨
  (terms_ok x db ∧ pt_rules t = pt_rules (pb_tables db) ∧ pt_definitions t = pt_definitions (pb_tables db)).
Proof.
  intros [q' Hopen|S port bindings q' p v rules ds s _ _ _ Hv Hd _
    |S port bindings q' p v prior graph ds c _ Hv _ Hd Hprior Hg Hc Hres|q' p v c _ Hv _ _ Hpub] Hinv;
    cbn [pt_versions pt_rules pt_definitions with_versions].
  - intros [Hx| ->%list_elem_of_singleton]%elem_of_app Hs; [left; eauto|].
    unfold drafted_version in Hs. by destruct (reusable _ _).
  - intros [[-> _]|[Hx _]]%elem_of_set_row Hs; [done|left; eauto].
  - apply lock_prior_Ok in Hprior. intros [[-> _]|[Hx _]]%elem_of_set_row Hs.
    + right. split_and!; [|done..]. exists graph, ds. split_and!; [done|by rewrite <- (require_complete_same v)|].
      eapply resources_codes; [exact Hres|apply Hinv].
    + left. destruct prior as [w|]; [|eauto]. apply elem_of_set_row in Hx as [[-> _]|[Hx _]]; [|eauto].
      exists w. destruct Hprior as (Hw & _ & _ & Ew & _). split_and!; [done..|by rewrite Ew].
  - apply get_version_Some in Hv as (Hv & _). intros [[-> _]|[Hx _]]%elem_of_set_row Hs; [|left; eauto].
    left. exists v. split_and!; [done..|by rewrite Hpub].
Qed.

Lemma policy_inv_written i q db r db' : policy_written i q db r db' → policy_inv db → policy_inv db'.
Proof.
  intros (e & ps & t & _ & _ & _ & Hch & [F1 F2 F3 F4 F5 F6 F7 F8]) Hinv.
  specialize (F6 (pn_policies _ Hinv)). specialize (F7 (pn_tables _ Hinv)). specialize (F8 (pn_events _ Hinv)).
  split.
  - by rewrite F1.
  - by rewrite F2.
  - done.
  - rewrite F3. apply (pn_units _ Hinv).
  - unfold versions_of. rewrite F1, F2. by eapply life_change.
  - intros x Hx Hs. unfold versions_of in Hx. rewrite F2 in Hx.
    destruct (settled_origin _ _ _ _ _ _ Hch Hinv Hx Hs) as [(v & Hv & Ev & Hd)|(Ht & E1 & E2)].
    + destruct (frozen_change _ _ _ _ _ db' v Hch Hinv F2 Hv Hd) as (w & Hw & (E1 & _ & E3 & _) & _ & G1 & G2).
      assert (w = x) as ->.
      { unfold versions_of in Hw. rewrite F2 in Hw. apply (rows_unique _ _ _ _ _ (to_versions _ F7) Hw Hx). apply version_conflicts_id. congruence. }
      apply (terms_ok_same v x db db'); [done|done| | |by apply (pn_terms _ Hinv)].
      * unfold version_rules. by rewrite G1.
      * unfold version_definitions. by rewrite G2.
    + apply (terms_ok_same x x db db'); try done; unfold version_rules, version_definitions; rewrite F2; congruence.
Qed.

Lemma policy_inv_step db db' : policy_step db db' → policy_inv db → policy_inv db'.
Proof.
  intros [S port bindings i q r db1 [[-> _]|H]%run_policy_Ok|i q r db1 [->|(u & e & -> & Hu)]%create_unit_Ok|units Hu] Hinv;
    [done|by eapply policy_inv_written|done|..]; destruct Hinv as [H1 H2 H3 H4 H5 H6]; split; try done.
  cbn. intros w [Hw| ->%list_elem_of_singleton]%elem_of_app; [by apply H4|done].
Qed.

Lemma policy_inv_steps db db' : rtc policy_step db db' → policy_inv db → policy_inv db'.
Proof. induction 1 as [|db db1 db2 H _ IH]; [done|]. intros Hinv. by eapply IH, policy_inv_step. Qed.

Lemma policy_reachable_inv db : policy_reachable db → policy_inv db.
Proof. intros H. apply (policy_inv_steps _ _ H), policy_inv_empty. Qed.
