(* ===== verification/PolicyHistory.v ===== *)
(** * The history of contribution policies

    How policies and versions move through the calls of the service: forward only, one draft and
    one live policy per project, one published version per policy; repeated requests return their
    first result; and a project whose policy is retired while a draft is open accepts no policy
    any more. *)

From S2P Require Import Prelude Text Digest Json Instant Lifecycle Awards Contributions Rows Bindings.
From S2P Require Import PolicyApi PolicyStore PolicyService PolicyEffects PolicyGuarantees.

(** ** Forward only *)

Definition version_rank (v : ContributionPolicyVersion) : Z :=
  match pv_status v with draft => 0 | published => 1 | retired => 2 end.

Definition policy_rank (p : ContributionPolicy) : Z :=
  match cp_status p with policy_draft => 0 | policy_active => 1 | policy_retired => 2 end.

(** A version moves forward, and a retired one does not move. *)
Definition version_after (v w : ContributionPolicyVersion) : Prop :=
  same_version w v ∧ version_rank v ≤ version_rank w ∧ (pv_status v = retired → w = v).

Definition policy_after (p q : ContributionPolicy) : Prop :=
  cp_id q = cp_id p ∧ cp_project_id q = cp_project_id p ∧ cp_name q = cp_name p ∧
  policy_rank p ≤ policy_rank q ∧ (cp_status p = policy_retired → q = p).

Lemma version_after_refl v : version_after v v.
Proof. done. Qed.
Lemma policy_after_refl p : policy_after p p.
Proof. done. Qed.
#[local] Hint Resolve version_after_refl policy_after_refl : core.

Lemma version_after_trans u v w : version_after u v → version_after v w → version_after u w.
Proof.
  intros (H1 & H2 & H3) (G1 & G2 & G3). split; [by eapply same_version_trans|]. split; [lia|].
  intros E. pose proof (H3 E) as ->. by apply G3.
Qed.

Lemma policy_after_trans p q r : policy_after p q → policy_after q r → policy_after p r.
Proof.
  intros (A1 & A2 & A3 & A4 & A5) (B1 & B2 & B3 & B4 & B5). unfold policy_after. split_and!; [congruence..|lia|].
  intros E. pose proof (A5 E) as ->. by apply B5.
Qed.

(** Setting a row moves one version forward. *)
Lemma set_version_after vs v v' x :
  versions_ok vs → v ∈ vs → version_after v v' → x ∈ vs → ∃ w, w ∈ set_row pv_id v' vs ∧ version_after x w.
Proof.
  intros Hok Hv Ha Hx. pose proof Ha as ((E & _) & _). destruct (decide (pv_id x = pv_id v')) as [Ex|Ex].
  - assert (x = v) as ->.
    { apply (rows_unique _ _ _ _ _ Hok Hx Hv), version_conflicts_id. congruence. }
    exists v'. split; [apply elem_of_set_row; left; eauto|done].
  - exists x. split; [apply elem_of_set_row; by right|done].
Qed.

Lemma set_policy_after ps p p' x :
  policies_ok ps → p ∈ ps → policy_after p p' → x ∈ ps → ∃ y, y ∈ set_row cp_id p' ps ∧ policy_after x y.
Proof.
  intros Hok Hp Ha Hx. pose proof Ha as (E & _). destruct (decide (cp_id x = cp_id p')) as [Ex|Ex].
  - assert (x = p) as ->.
    { apply (rows_unique _ _ _ _ _ Hok Hx Hp), policy_conflicts_id. congruence. }
    exists p'. split; [apply elem_of_set_row; left; eauto|done].
  - exists x. split; [apply elem_of_set_row; by right|done].
Qed.

Lemma rank_step v s w :
  same_version w v → pv_status v = s → s ≠ retired → version_rank v ≤ version_rank w → version_after v w.
Proof. intros H1 H2 H3 H4. split_and!; [done..|congruence]. Qed.

Lemma change_versions_after i db q ps t x :
  policy_change i db q ps t → policy_inv db → x ∈ versions_of db → ∃ w, w ∈ pt_versions t ∧ version_after x w.
Proof.
  intros Hch Hinv Hx. pose proof (to_versions _ (pn_tables _ Hinv)) as Hvs.
  destruct Hch as [q' _|S port bindings q' p v rules ds s _ _ _ (Hv & _)%get_version_Some Hd _
    |S port bindings q' p v prior graph ds c _ (Hv & _)%get_version_Some _ Hd Hprior%lock_prior_Ok _ _ _
    |q' p v c _ (Hv & _)%get_version_Some _ _ Hpub]; cbn [pt_versions with_versions].
  - exists x. split; [apply elem_of_app; by left|done].
  - apply (set_version_after (versions_of db) v); [done..| |done].
    eapply rank_step; [done|exact Hd|done|]. unfold version_rank. cbn. by rewrite Hd.
  - set (actor := vq_actor_profile_id q').
    assert (version_after v (published_version actor c v)) as Hpa
      by (eapply rank_step; [done|exact Hd|done|]; unfold version_rank; by rewrite Hd).
    destruct prior as [w|]; [|by apply (set_version_after (versions_of db) v)].
    destruct Hprior as (Hw & _ & _ & Hs & Hne).
    assert (version_after w (retired_version actor c w)) as Hra
      by (eapply rank_step; [done|exact Hs|done|]; unfold version_rank; by rewrite Hs).
    (** the two changed rows are different *)
    destruct (decide (pv_id x = pv_id v)) as [Ev|Ev]; [|destruct (decide (pv_id x = pv_id w)) as [Ew|Ew]].
    + assert (x = v) as -> by by apply (version_by_id db). exists (published_version actor c v). split; [|done].
      apply elem_of_set_row. left. split; [done|]. exists v. split; [|done]. apply elem_of_set_row. right.
      split; [done|cbn; congruence].
    + assert (x = w) as -> by by apply (version_by_id db). exists (retired_version actor c w). split; [|done].
      apply elem_of_set_row. right. split; [|done]. apply elem_of_set_row. left. eauto.
    + exists x. split; [|done]. apply elem_of_set_row. right. split; [|done]. apply elem_of_set_row. by right.
  - apply (set_version_after (versions_of db) v); [done..| |done].
    eapply rank_step; [done|exact Hpub|done|]. unfold version_rank. cbn. by rewrite Hpub.
Qed.

Lemma change_policies_after i db q ps t x :
  policy_change i db q ps t → policy_inv db → x ∈ pb_policies db → ∃ y, y ∈ ps ∧ policy_after x y.
Proof.
  intros Hch Hinv Hx. pose proof (pn_policies _ Hinv) as Hps.
  destruct Hch as [q' _|S port bindings q' p v rules ds s _ _ _ _ _ _
    |S port bindings q' p v prior graph ds c (Hp & _)%get_policy_Some _ Hs _ _ _ _ _
    |q' p v c (Hp & _)%get_policy_Some _ Hs _ _].
  - exists x. split; [apply elem_of_app; by left|done].
  - by exists x.
  - apply (set_policy_after _ p); [done..| |done]. unfold policy_after, policy_rank. cbn.
    split_and!; [done..|by destruct (cp_status p)|done].
  - apply (set_policy_after _ p); [done..| |done]. unfold policy_after, policy_rank. cbn.
    split_and!; [done..|by rewrite Hs|congruence].
Qed.

Lemma step_after db db' :
  policy_step db db' → policy_inv db →
  (∀ v, v ∈ versions_of db → ∃ w, w ∈ versions_of db' ∧ version_after v w) ∧
  (∀ p, p ∈ pb_policies db → ∃ q, q ∈ pb_policies db' ∧ policy_after p q) ∧
  (∀ e, e ∈ pb_events db → e ∈ pb_events db').
Proof.
  intros [S port bindings i q r db1 [[-> _]|(e & ps & t & _ & _ & _ & Hch & [F1 F2 F3 F4 F5 _ _ _])]%run_policy_Ok
    |i q r db1 [->|(u & e & -> & _)]%create_unit_Ok|units _] Hinv; try (split_and!; eauto).
  - unfold versions_of at 2. rewrite F2. intros v Hv. by eapply change_versions_after.
  - rewrite F1. intros p Hp. by eapply change_policies_after.
  - rewrite F5. intros x Hx. apply elem_of_app. by left.
Qed.

Lemma steps_after db db' :
  rtc policy_step db db' → policy_inv db →
  (∀ v, v ∈ versions_of db → ∃ w, w ∈ versions_of db' ∧ version_after v w) ∧
  (∀ p, p ∈ pb_policies db → ∃ q, q ∈ pb_policies db' ∧ policy_after p q) ∧
  (∀ e, e ∈ pb_events db → e ∈ pb_events db').
Proof.
  induction 1 as [db|db db1 db2 H _ IH]; intros Hinv; [split_and!; eauto|].
  destruct (step_after _ _ H Hinv) as (V & P & E). destruct (IH (policy_inv_step _ _ H Hinv)) as (V' & P' & E').
  split_and!.
  - intros v (w & (u & Hu & H2)%V' & H1)%V. exists u. split; [done|by eapply version_after_trans].
  - intros p (q & (u & Hu & H2)%P' & H1)%P. exists u. split; [done|by eapply policy_after_trans].
  - auto.
Qed.

(** C6. The life cycle of contribution policies.  In every reachable state a project has at most
    one open draft and at most one policy that is not retired; version numbers are unique within
    a policy; an active policy has exactly one published version, the one it names, and no other
    policy has any.  From there, policies and versions only move forward: draft, active or
    published, retired; a retired row never changes again, and events are never lost. *)
Theorem policy_life_cycle db :
  policy_reachable db →
  (∀ v w, v ∈ versions_of db → w ∈ versions_of db → pv_status v = draft → pv_status w = draft →
     pv_project_id v = pv_project_id w → v = w) ∧
  (∀ p q, p ∈ pb_policies db → q ∈ pb_policies db → cp_status p ≠ policy_retired → cp_status q ≠ policy_retired →
     cp_project_id p = cp_project_id q → p = q) ∧
  (∀ v w, v ∈ versions_of db → w ∈ versions_of db → pv_contribution_policy_id v = pv_contribution_policy_id w →
     pv_version_number v = pv_version_number w → v = w) ∧
  (∀ p, p ∈ pb_policies db → cp_status p = policy_active →
     ∃ v, v ∈ versions_of db ∧ owns p v ∧ pv_status v = published ∧
       cp_current_published_version_id p = Some (pv_id v) ∧
       ∀ w, w ∈ versions_of db → pv_contribution_policy_id w = cp_id p → pv_status w = published → w = v) ∧
  (∀ v, v ∈ versions_of db → pv_status v = published →
     ∃ p, p ∈ pb_policies db ∧ owns p v ∧ cp_status p = policy_active) ∧
  (∀ db', rtc policy_step db db' →
     (∀ v, v ∈ versions_of db → ∃ w, w ∈ versions_of db' ∧ version_after v w) ∧
     (∀ p, p ∈ pb_policies db → ∃ q, q ∈ pb_policies db' ∧ policy_after p q) ∧
     (∀ e, e ∈ pb_events db → e ∈ pb_events db')).
Proof.
  intros Hinv%policy_reachable_inv. pose proof (to_versions _ (pn_tables _ Hinv)) as Hvs.
  destruct (pn_life _ Hinv) as [L1 L2 L3 L4 L5 L6]. split_and!; [done|done| | | |].
  - intros v w Hv Hw E1 E2. apply (rows_unique _ _ _ _ _ Hvs Hv Hw), version_conflicts_eq. by right.
  - intros p Hp Hs. assert (∃ id, cp_current_published_version_id p = Some id) as [id Hc].
    { pose proof (ro_checks _ _ _ (pn_policies _ Hinv) p Hp) as Hk. unfold policy_checks in Hk. rewrite Hs in Hk.
      rewrite !andb_true_iff in Hk. destruct (cp_current_published_version_id p); [eauto|]. cbn in Hk. naive_solver. }
    destruct (L5 p id Hp Hc) as (v & Hv & Ev & Eo & _). exists v.
    assert (owns p v) as Hown.
    { destruct (L1 v Hv) as (q & Hq & [O1 O2]). assert (q = p) as -> by (apply (policy_by_id db); [apply Hinv|done|done|congruence]).
      done. }
    split_and!; [done..|apply (L4 p); [done..|split; congruence]|congruence|].
    intros w Hw E Hpub. apply (L4 p w Hp Hw (eq_sym E)) in Hpub as [_ Hcw]. apply (version_by_id db); [done..|congruence].
  - intros v Hv Hs. destruct (L1 v Hv) as (p & Hp & Ho). exists p. split_and!; [done..|].
    by destruct (proj1 (L4 p v Hp Hv (proj1 Ho)) Hs).
  - intros db' H. by apply steps_after.
Qed.

(** ** Replay *)

(** A caller who may repeat a request: the ports its action needs are composed and the policy can
    be read. *)
Definition policy_may_repeat (i : PolicyInputs) (q : PolicyMutationRequest) : Prop :=
  _require_request i = Ok tt ∧ some (pi_projects i) = true ∧ pi_bindings_composed i = true ∧
  ∀ policy version, pa_read (pi_authority i)
    {| rq_actor_profile_id := actor_profile_id q; rq_project_id := project_id q;
       rq_contribution_policy_id := policy; rq_contribution_policy_version_id := Some version |} = Ok tt.

(** The checks a request passes on its own *)
Definition policy_request_valid (q : PolicyMutationRequest) : bool :=
  match q with
  | CreateDraft q => validate_policy_name (dq_name q)
  | UpdateDraft q => validate_policy_graph (uq_rules q)
  | Publish _ | Retire _ => true
  end.

Lemma run_policy_valid {S} `{BindingPort S} (bindings : S) i q db r db' :
  run_policy bindings i q db = Ok (r, db') → policy_request_valid q = true.
Proof.
  destruct q as [q|q|q|q]; cbn; [| |done..]; unfold create_draft, update_draft;
    by intros (? & _ & [Hv _]%ensure_bind_Ok)%result_bind_Ok.
Qed.

Lemma run_policy_event {S} `{BindingPort S} (bindings : S) i q db r db' :
  run_policy bindings i q db = Ok (r, db') → ∃ e, e ∈ pb_events db' ∧ r = _result e ∧ event_of q e.
Proof.
  intros [[-> (e & He & -> & Hq)]|(e & ps & t & -> & Hq & _ & _ & Hf)]%run_policy_Ok; [by exists e|].
  exists e. rewrite (fl_events _ _ _ _ _ Hf). split; [|done]. apply elem_of_app. right. by apply list_elem_of_singleton.
Qed.

Lemma mutate_recovers i q db e work :
  policy_events_ok (pb_events db) → e ∈ pb_events db → event_of q e → policy_may_repeat i q →
  mutate i q db work = Ok (_result e, db).
Proof.
  intros Hok He (E1 & E2 & E3 & E4 & E5) (_ & _ & _ & Hread). unfold mutate. rewrite E2. run.
  unfold begin_and_recover_policy_mutation.
  assert (get_event_by_operation (operation_id q) db = Some e) as ->.
  { apply find_unique; [done|by apply Z.eqb_eq|]. intros f Hf E%Z.eqb_eq.
    apply (rows_unique _ _ _ _ _ Hok Hf He), event_conflicts_operation. congruence. }
  rewrite E3, E4, E5, bool_decide_eq_true_2, !Z.eqb_refl by done. unfold str_eqb.
  rewrite bool_decide_eq_true_2 by done. run. by rewrite Hread.
Qed.

Lemma run_policy_recovers {S} `{BindingPort S} (bindings : S) i q db e :
  policy_events_ok (pb_events db) → e ∈ pb_events db → event_of q e → policy_may_repeat i q →
  policy_request_valid q = true → run_policy bindings i q db = Ok (_result e, db).
Proof.
  intros Hok He Hq Hm Hv. pose proof Hm as (H1 & H2 & H3 & _).
  destruct q as [q|q|q|q]; cbn [run_policy]; unfold create_draft, update_draft, publish, retire;
    rewrite H1; run; cbn [policy_request_valid] in Hv; rewrite ?Hv, ?H2, ?H3; run; by apply mutate_recovers.
Qed.

(** C28. A repeated request returns its first result.  Once a command of the policy service has
    succeeded then, after any further calls, the same request by a caller who may still read the
    policy returns the very same result and changes nothing; and every command that succeeds
    under the same operation returns that result, changes nothing and has the same digest. *)
Theorem policy_replay {S} `{BindingPort S} (bindings : S) i q db r db1 db2 :
  policy_reachable db → run_policy bindings i q db = Ok (r, db1) → rtc policy_step db1 db2 →
  (∀ j, policy_may_repeat j q → run_policy bindings j q db2 = Ok (r, db2)) ∧
  (∀ j q' r' db', operation_id q' = operation_id q → run_policy bindings j q' db2 = Ok (r', db') →
     r' = r ∧ db' = db2 ∧ policy_request_digest q' = policy_request_digest q).
Proof.
  intros Hinv%policy_reachable_inv Hrun Hsteps.
  pose proof (policy_inv_step _ _ (step_command _ bindings i q r db1 Hrun) Hinv) as Hinv1.
  pose proof (policy_inv_steps _ _ Hsteps Hinv1) as Hinv2.
  destruct (run_policy_event _ _ _ _ _ _ Hrun) as (e & He & -> & Hq).
  destruct (steps_after _ _ Hsteps Hinv1) as (_ & _ & Hev). specialize (Hev e He).
  pose proof (run_policy_valid _ _ _ _ _ _ Hrun) as Hv. split.
  - intros j Hj. by apply run_policy_recovers; [apply Hinv2|..].
  - intros j q' r' db' Eop H'. destruct Hq as (E1 & E2 & _).
    apply run_policy_Ok in H' as [[-> (f & Hf & -> & F1 & F2 & _)]|(f & ps & t & _ & _ & Hn & _)].
    + assert (f = e) as ->; [|split_and!; congruence].
      apply (rows_unique _ _ _ _ _ (pn_events _ Hinv2) Hf Hev), event_conflicts_operation. congruence.
    + pose proof (find_None_elem _ _ _ Hn Hev) as E. cbn in E. rewrite E1, Eop, Z.eqb_refl in E. done.
Qed.

(** ** A stranded project *)

(** An open draft, and only retired policies *)
Definition stranded (project : uuid) (db : PolicyDb) : Prop :=
  (∃ v, v ∈ versions_of db ∧ pv_status v = draft ∧ pv_project_id v = project) ∧
  (∀ p, p ∈ pb_policies db → cp_project_id p = project → cp_status p = policy_retired).

Lemma open_draft_stranded project db : stranded project db → get_open_draft project db ≠ None.
Proof. intros [(v & Hv & Hd & Hp) _] Hn. by apply (open_draft_None _ _ _ Hn Hv Hd). Qed.

(** No change is made to a stranded project, *)
Lemma stranded_change i db q ps t :
  policy_change i db q ps t → stranded (project_id q) db → False.
Proof.
  intros Hch Hs. pose proof Hs as [_ Hr]. destruct Hch as [q' Hn|S port bindings q' p v rules ds s _ Hp Hl _ _ _
    |S port bindings q' p v prior graph ds c Hp _ Hl _ _ _ _ _|q' p v c Hp _ Hl _ _].
  - by apply (open_draft_stranded _ _ Hs).
  - apply get_policy_Some in Hp as (Hp & E & _). by apply Hl, Hr.
  - apply get_policy_Some in Hp as (Hp & E & _). by apply Hl, Hr.
  - apply get_policy_Some in Hp as (Hp & E & _). rewrite (Hr p Hp E) in Hl. done.
Qed.

(** and a change elsewhere leaves it stranded. *)
Lemma stranded_elsewhere i db q ps t project :
  policy_change i db q ps t → policy_inv db → project_id q ≠ project → stranded project db →
  (∃ v, v ∈ pt_versions t ∧ pv_status v = draft ∧ pv_project_id v = project) ∧
  (∀ p, p ∈ ps → cp_project_id p = project → cp_status p = policy_retired).
Proof.
  intros Hch Hinv Hne [(v & Hv & Hd & Hp) Hr].
  assert (∀ x y, x ∈ versions_of db → pv_project_id x = project_id q → pv_id y = pv_id x → pv_id v ≠ pv_id y) as Hother.
  { intros x y Hx Ex Ey E. assert (v = x) as -> by (apply (version_by_id db); [apply Hinv|done|done|congruence]). congruence. }
  destruct Hch as [q' Hn|S port bindings q' p x rules ds s _ _ _ (Hx & E1 & _)%get_version_Some _ _
    |S port bindings q' p x prior graph ds c (Hpin & Ep & Eid)%get_policy_Some (Hx & E1 & _)%get_version_Some _ _ Hprior%lock_prior_Ok _ _ _
    |q' p x c (Hpin & Ep & _)%get_policy_Some (Hx & E1 & _)%get_version_Some _ _ _];
    cbn [pt_versions with_versions]; cbn [project_id] in *; (split; [exists v; split; [|done]|]).
  - apply elem_of_app. by left.
  - intros p [Hpin|Hpin]%elem_of_app E; [by apply Hr|]. destruct (reusable _ _); [by apply elem_of_nil in Hpin|].
    apply list_elem_of_singleton in Hpin as ->. done.
  - apply elem_of_set_row. right. split; [done|]. by apply (Hother x).
  - done.
  - apply elem_of_set_row. right. split; [|by apply (Hother x)]. destruct prior as [w|]; [|done].
    apply elem_of_set_row. right. split; [done|]. destruct Hprior as (Hw & _ & Eo & _). apply (Hother w); [done| |done].
    destruct (lf_owner _ _ (pn_life _ Hinv) w Hw) as (o & Ho & [O1 O2]).
    assert (o = p) as -> by (apply (policy_by_id db); [apply Hinv|done|done|congruence]). congruence.
  - intros y [[-> _]|[Hy _]]%elem_of_set_row E; [cbn in E; congruence|by apply Hr].
  - apply elem_of_set_row. right. split; [done|]. by apply (Hother x).
  - intros y [[-> _]|[Hy _]]%elem_of_set_row E; [cbn in E; congruence|by apply Hr].
Qed.

Lemma stranded_step project db db' :
  policy_step db db' → policy_inv db → stranded project db → stranded project db'.
Proof.
  intros [S port bindings i q r db1 [[-> _]|(e & ps & t & _ & _ & _ & Hch & Hf)]%run_policy_Ok
    |i q r db1 [->|(u & e & -> & _)]%create_unit_Ok|units _] Hinv Hs; try done.
  destruct (decide (project_id q = project)) as [<-|Hne]; [by destruct (stranded_change _ _ _ _ _ Hch Hs)|].
  destruct (stranded_elsewhere _ _ _ _ _ _ Hch Hinv Hne Hs) as [H1 H2].
  split; unfold versions_of; by rewrite ?(fl_tables _ _ _ _ _ Hf), ?(fl_policies _ _ _ _ _ Hf).
Qed.

Lemma stranded_steps project db db' :
  rtc policy_step db db' → policy_inv db → stranded project db → policy_inv db' ∧ stranded project db'.
Proof.
  induction 1 as [|db db1 db2 H _ IH]; [done|]. intros Hinv Hs.
  apply IH; [by eapply policy_inv_step|by eapply stranded_step].
Qed.

(** C34. Retiring a policy while a draft is open ends the policies of its project.  After such a
    retirement, whatever calls follow, no command for the project changes anything any more: it
    raises or replays an earlier result.  In particular no new policy can be drafted, although a
    retired policy is meant to be followed by a new one. *)
Theorem retire_strands_draft i q db r db1 v :
  policy_reachable db → retire i q db = Ok (r, db1) →
  get_event_by_operation (vq_operation_id q) db = None → get_open_draft (vq_project_id q) db = Some v →
  ∀ db2, rtc policy_step db1 db2 →
    get_open_draft (vq_project_id q) db2 ≠ None ∧
    (∀ p, p ∈ pb_policies db2 → cp_project_id p = vq_project_id q → cp_status p = policy_retired) ∧
    (∀ {S} `{BindingPort S} (bindings : S) j q' r' db', project_id q' = vq_project_id q →
       run_policy bindings j q' db2 = Ok (r', db') → db' = db2 ∧ policy_recovered q' db2 r').
Proof.
  intros Hinv%policy_reachable_inv Hrun Hnew Hopen db2 Hsteps.
  apply find_Some_elem in Hopen as [Hv [Hproj%Z.eqb_eq Hd%bool_decide_eq_true]%andb_prop].
  pose proof (retire_Ok _ _ _ _ _ Hrun) as [[_ (e & He & _ & E & _)]|Hw].
  { pose proof (find_None_elem _ _ _ Hnew He) as F. cbn in F, E. rewrite E, Z.eqb_refl in F. done. }
  pose proof (policy_inv_written _ _ _ _ _ Hw Hinv) as Hinv1. destruct Hw as (e & ps & t & _ & _ & _ & Hch & Hf).
  assert (stranded (vq_project_id q) db1) as Hs1.
  { split; [exists v|]; unfold versions_of; rewrite ?(fl_tables _ _ _ _ _ Hf), ?(fl_policies _ _ _ _ _ Hf);
      inversion Hch as [| | |q' p x c Hp Hx Hact Hcur Hpub]; subst; cbn [pt_versions with_versions].
    - split; [|done]. apply elem_of_set_row. right. split; [done|]. intros Ex. cbn in Ex.
      apply get_version_Some in Hx as (Hx & _). assert (v = x) as -> by by apply (version_by_id db); [apply Hinv|..].
      congruence.
    - apply get_policy_Some in Hp as (Hp & Ep & _). intros y [[-> _]|[Hy Hne]]%elem_of_set_row E; [done|].
      destruct (decide (cp_status y = policy_retired)) as [|Hl]; [done|]. destruct Hne. cbn. f_equal.
      apply (lf_one_live _ _ (pn_life _ Hinv)); [done|done|done|by rewrite Hact|congruence]. }
  destruct (stranded_steps _ _ _ Hsteps Hinv1 Hs1) as [Hinv2 Hs2]. split_and!.
  - by apply open_draft_stranded.
  - by apply Hs2.
  - intros S port bindings j q' r' db' E [[-> Hrec]|(e' & ps' & t' & _ & _ & _ & Hch' & _)]%run_policy_Ok; [done|].
    rewrite <- E in Hs2. by destruct (stranded_change _ _ _ _ _ Hch' Hs2).
Qed.
