(* ===== verification/PolicyTerms.v ===== *)
(** * The terms of a published policy

    What acceptance reads of a policy: once a version has been published its rule for accepted
    submissions is there, complete and valid for the award owner, and stays the same through
    every later call.  A draft whose graph was replaced is ready for publication. *)

From S2P Require Import Prelude Text Digest Json Instant Lifecycle Awards Contributions Rows Bindings.
From S2P Require Import PolicyApi PolicyStore PolicyService PolicyEffects PolicyGuarantees.

(** ** Lists *)

Lemma rows_NoDup {A} (checks : A → bool) conflicts (l : list A) :
  (∀ x, conflicts x x = true) → rows_ok checks conflicts l → NoDup l.
Proof.
  intros Hr [_ Hu]. apply NoDup_alt. intros i j x Hi Hj. destruct (decide (i = j)) as [|Hne]; [done|].
  pose proof (Hu i j x x Hi Hj Hne) as H. by rewrite Hr in H.
Qed.

Lemma rows_ids_NoDup {A} (checks : A → bool) conflicts (id : A → uuid) (l : list A) :
  (∀ x y, id x = id y → conflicts x y = true) → rows_ok checks conflicts l → NoDup (map id l).
Proof.
  intros Hid [_ Hu]. apply NoDup_alt. intros i j z Hi Hj. rewrite list_lookup_fmap in Hi, Hj.
  apply fmap_Some in Hi as (x & Hi & ->), Hj as (y & Hj & E). destruct (decide (i = j)) as [|Hne]; [done|].
  pose proof (Hu i j x y Hi Hj Hne) as H. by rewrite Hid in H.
Qed.

Lemma filter_singleton {A} (f : A → bool) l x :
  NoDup l → x ∈ l → f x = true → (∀ y, y ∈ l → f y = true → y = x) → List.filter f l = [x].
Proof.
  induction l as [|y l IH]; intros Hnd Hx Hf Hu; [by apply elem_of_nil in Hx|].
  apply NoDup_cons in Hnd as [Hy Hnd]. cbn. apply elem_of_cons in Hx as [<-|Hx].
  - rewrite Hf. f_equal. apply filter_nil. intros z Hz. destruct (f z) eqn:E; [|done].
    assert (z = x) as -> by (apply Hu; [by apply list_elem_of_further|done]). done.
  - destruct (f y) eqn:E.
    + assert (y = x) as -> by (apply Hu; [apply list_elem_of_here|done]). done.
    + apply IH; [done..|]. intros z Hz. apply Hu. by apply list_elem_of_further.
Qed.

Lemma filter_ext_elem {A} (f g : A → bool) l : (∀ x, x ∈ l → f x = g x) → List.filter f l = List.filter g l.
Proof. intros H. apply filter_ext_in. intros x Hx. by apply H, list_elem_of_In. Qed.

Lemma filter_and {A} (f g : A → bool) l : List.filter f (List.filter g l) = List.filter (λ x, g x && f x) l.
Proof.
  induction l as [|x l IH]; [done|]. cbn. destruct (g x); cbn; [destruct (f x)|]; by rewrite <- IH.
Qed.

Lemma Forall2_right {A B} (P : A → B → Prop) l k y : Forall2 P l k → y ∈ k → ∃ x, x ∈ l ∧ P x y.
Proof.
  induction 1 as [|a b l k H _ IH]; [by intros ?%elem_of_nil|].
  intros [->|Hy]%elem_of_cons; [exists a; split; [apply list_elem_of_here|done]|].
  destruct (IH Hy) as (x & Hx & HP). exists x. split; [by apply list_elem_of_further|done].
Qed.

#[export] Instance forallb_Permutation {A} (f : A → bool) : Proper ((≡ₚ) ==> (=)) (forallb f).
Proof. induction 1 as [|x l k _ IH|x y l|l k m _ IH1 _ IH2]; cbn; [done|by rewrite IH| |by rewrite IH1]. by destruct (f x), (f y). Qed.

(** ** The frozen rule *)

Definition by_type (l : list AwardDefinitionFacts) : list AwardDefinitionFacts :=
  List.filter (λ d, bool_decide (df_instrument_type d = MONEY)) l ++
  List.filter (λ d, bool_decide (df_instrument_type d = PROJECT_POINTS)) l.

Lemma by_type_Permutation l : by_type l ≡ₚ l.
Proof.
  unfold by_type. induction l as [|d l IH]; [done|]. cbn [List.filter].
  destruct (df_instrument_type d); [rewrite bool_decide_eq_true_2, bool_decide_eq_false_2 by done
    |rewrite bool_decide_eq_false_2, bool_decide_eq_true_2 by done].
  - cbn. by constructor.
  - rewrite <- Permutation_middle. by constructor.
Qed.

(** The definitions of one rule of a version *)
Definition rule_definitions (t : PolicyTables) (rule version : uuid) : list ContributionAwardDefinition :=
  List.filter (λ d, dr_contribution_rule_id d =? rule)
    (List.filter (λ d, df_contribution_policy_version_id (dr_facts d) =? version) (pt_definitions t)).

Definition typed_rule (t : PolicyTables) (version : uuid) (k : ContributionType) (r : ContributionRule) : Prop :=
  List.filter (λ r, bool_decide (ru_contribution_type r = k))
    (List.filter (λ r, ru_contribution_policy_version_id r =? version) (pt_rules t)) = [r].

(** What publication checked of a version and a type of contribution *)
Record checked_terms (t : PolicyTables) (project version : uuid) (k : ContributionType) (r : ContributionRule)
    : Prop := {
  ct_rule : typed_rule t version k r;
  ct_project : ru_project_id r = project;
  ct_definitions d : d ∈ rule_definitions t (ru_id r) version →
    df_project_id (dr_facts d) = project ∧ dr_contribution_type d = k ∧
    definition_valid (dr_facts d) = true;
  ct_complete : definitions_complete (ru_compensation_mode r)
                  (map dr_facts (rule_definitions t (ru_id r) version)) = true;
}.

Lemma definitions_complete_Permutation m l k :
  l ≡ₚ k → definitions_complete m l = definitions_complete m k.
Proof.
  intros E. unfold definitions_complete. rewrite (Permutation_length E). do 2 f_equal.
  apply bool_decide_ext. by rewrite E.
Qed.

(** The rule acceptance finds *)
Lemma frozen_rule_checked t project version r v :
  checked_terms t project version accepted_submission r → v ∈ pt_versions t → pv_id v = version → pv_project_id v = project →
  pv_status v ≠ draft →
  get_frozen_rule t project version =
    Ok {| fr_compensation_mode := ru_compensation_mode r;
          fr_definitions := by_type (map dr_facts (rule_definitions t (ru_id r) version)) |}.
Proof.
  intros [Hr Hp Hd Hc] Hv Ev Epr Hs. unfold get_frozen_rule.
  assert (matching_rules t project version = [r]) as ->.
  { unfold matching_rules. unfold typed_rule in Hr. rewrite filter_and in Hr.
    assert (existsb (λ v, (pv_id v =? version) && (pv_project_id v =? project)
                          && negb (bool_decide (pv_status v = draft))) (pt_versions t) = true) as Hex.
    { apply existsb_exists. exists v. rewrite <- list_elem_of_In, Ev, Epr, !Z.eqb_refl.
      by rewrite bool_decide_eq_false_2. }
    transitivity (List.filter (λ r, ru_project_id r =? project) [r]).
    - rewrite <- Hr, filter_and. apply filter_ext_elem. intros x _. rewrite Hex, andb_true_r.
      destruct (ru_project_id x =? project), (ru_contribution_policy_version_id x =? version); cbn;
        by rewrite ?andb_false_r, ?andb_true_r.
    - cbn. by rewrite Hp, Z.eqb_refl. }
  run. change (matching_definitions t (ru_id r) project version) with
    (by_type (map dr_facts (List.filter (λ d, (dr_contribution_rule_id d =? ru_id r)
                    && (df_project_id (dr_facts d) =? project)
                    && (df_contribution_policy_version_id (dr_facts d) =? version)
                    && bool_decide (dr_contribution_type d = accepted_submission)) (pt_definitions t)))).
  assert (List.filter (λ d, (dr_contribution_rule_id d =? ru_id r)
                    && (df_project_id (dr_facts d) =? project)
                    && (df_contribution_policy_version_id (dr_facts d) =? version)
                    && bool_decide (dr_contribution_type d = accepted_submission)) (pt_definitions t)
          = rule_definitions t (ru_id r) version) as ->.
  { unfold rule_definitions at 1. rewrite filter_and. apply filter_ext_elem. intros d Hin.
    destruct (df_contribution_policy_version_id (dr_facts d) =? version) eqn:E1; [|by rewrite !andb_false_r].
    destruct (dr_contribution_rule_id d =? ru_id r) eqn:E2; [|by rewrite ?andb_false_r].
    assert (d ∈ rule_definitions t (ru_id r) version) as Hdin.
    { unfold rule_definitions. rewrite !filter_elem. done. }
    destruct (Hd d Hdin) as (F1 & F2 & _). rewrite F1, F2, Z.eqb_refl. by rewrite bool_decide_eq_true_2. }
  rewrite (definitions_complete_Permutation _ _ _ (by_type_Permutation _)), Hc.
  assert (forallb definition_valid (by_type (map dr_facts (rule_definitions t (ru_id r) version))) = true) as ->; [|done].
  apply forallb_forall. intros x Hx%list_elem_of_In. rewrite by_type_Permutation in Hx.
  apply list_elem_of_fmap in Hx as (d & -> & Hdin). by apply Hd.
Qed.

(** ** Publication checked the terms *)

Lemma validate_rule_complete r ds :
  _validate_rule (rule_input (r, ds)) = true → definitions_complete (ru_compensation_mode r) (map dr_facts ds) = true.
Proof.
  unfold _validate_rule, rule_input, definitions_complete. cbn [pu_definitions pu_compensation_mode fst snd].
  rewrite !length_map, !andb_true_iff, bool_decide_eq_true, map_map. cbn [definition_input pd_instrument_type].
  intros [[[H1 H2] H3] _]. destruct (ru_compensation_mode r).
  - cbn in *. by destruct (length ds).
  - rewrite (bool_decide_eq_true_2 (COMPENSATED = COMPENSATED)) in H2 |- * by done. cbn [andb] in H2.
    rewrite negb_involutive in H2. apply andb_prop in H2 as [-> ->]. apply orb_true_iff. right.
    apply bool_decide_eq_true. by rewrite map_map.
Qed.

Lemma terms_checked db v k :
  policy_inv db → terms_ok v db → ∃ r, checked_terms (pb_tables db) (pv_project_id v) (pv_id v) k r.
Proof.
  intros Hinv (graph & ds & Hg & Hc & Hu). destruct (pn_tables _ Hinv) as [_ Hrules Hdefs].
  unfold lock_publication_graph in Hg. apply ensure_bind_Ok in Hg as [_ [= <- <-]].
  apply ensure_bind_Ok in Hc as [Ho [_ Hvalid]%ensure_bind_Ok].
  set (t := pb_tables db) in *.
  assert (∀ r, r ∈ version_rules (pv_id v) t ↔ r ∈ pt_rules t ∧ ru_contribution_policy_version_id r = pv_id v) as Hin.
  { intros r. unfold version_rules. by rewrite sorted_on_Permutation, filter_elem, Z.eqb_eq. }
  destruct (validate_policy_graph _) eqn:Hval; [clear Hvalid|done]. unfold validate_policy_graph in Hval.
  rewrite !andb_true_iff, !bool_decide_eq_true, !map_map in Hval. destruct Hval as [[[_ Hsub] Hrev] Hall].
  assert (k ∈ map (λ r, ru_contribution_type r) (version_rules (pv_id v) t)) as Hk by by destruct k.
  apply list_elem_of_fmap in Hk as (r & Etype & Hr). cbn in Etype. symmetry in Etype.
  rewrite forallb_forall in Ho, Hall.
  set (own := List.filter (λ d, dr_contribution_rule_id d =? ru_id r) (version_definitions (pv_id v) t)).
  assert (owned_rule v (r, own) = true) as Hown by (apply Ho, in_map_iff; exists r; by rewrite <- list_elem_of_In).
  assert (_validate_rule (rule_input (r, own)) = true) as Hvr.
  { apply Hall. apply in_map_iff. exists r. by rewrite <- list_elem_of_In. }
  assert (own ≡ₚ rule_definitions t (ru_id r) (pv_id v)) as Hperm.
  { unfold own, rule_definitions, version_definitions. by rewrite sorted_on_Permutation. }
  unfold owned_rule in Hown. cbn [fst snd] in Hown. rewrite !andb_true_iff, !Z.eqb_eq, forallb_forall in Hown.
  destruct Hown as [[Hproj Hver] Hown]. exists r. split.
  - unfold typed_rule. rewrite filter_and. apply filter_singleton.
    + eapply rows_NoDup; [|exact Hrules]. intros x. apply rule_conflicts_eq. by left.
    + by apply Hin in Hr as [].
    + by rewrite Hver, Z.eqb_refl, Etype, bool_decide_eq_true_2.
    + intros y Hy [E1%Z.eqb_eq E2%bool_decide_eq_true]%andb_prop. apply Hin in Hr as [Hr _].
      apply (rows_unique _ _ _ _ _ Hrules Hy Hr), rule_conflicts_eq. right. split; congruence.
  - done.
  - intros d Hd. rewrite <- Hperm in Hd. pose proof Hd as Hd'. apply list_elem_of_In, Hown in Hd'.
    rewrite !andb_true_iff, !Z.eqb_eq, bool_decide_eq_true in Hd'. destruct Hd' as [[[F1 _] _] F2].
    split_and!; [done|congruence|]. unfold own in Hd. apply filter_elem in Hd as [Hd _].
    rewrite forallb_forall in Hu. pose proof (Hu d (proj1 (list_elem_of_In _ _) Hd)) as Hcode.
    unfold version_definitions in Hd. rewrite sorted_on_Permutation in Hd. apply filter_elem in Hd as [Hd _].
    pose proof (ro_checks _ _ _ Hdefs d Hd) as Hck. unfold definition_checks in Hck. rewrite !andb_true_iff in Hck.
    unfold definition_valid, unit_code_ok in *. lia.
  - rewrite <- (definitions_complete_Permutation _ (map dr_facts own)); [by apply validate_rule_complete|].
    by rewrite Hperm.
Qed.

(** ** Frozen terms *)

Lemma frozen_in_step db db' v :
  policy_step db db' → policy_inv db → v ∈ versions_of db → pv_status v ≠ draft → frozen_in db db' v.
Proof.
  intros Hst Hinv Hv Hd. assert (∀ db1, pb_tables db1 = pb_tables db → frozen_in db db1 v) as Hsame.
  { intros db1 E. exists v. unfold versions_of. rewrite E. done. }
  destruct Hst as [S port bindings i q r db1 [[-> _]|(e & ps & t & _ & _ & _ & Hch & Hf)]%run_policy_Ok
    |i q r db1 [->|(u & e & -> & _)]%create_unit_Ok|units _]; try (by apply Hsame).
  eapply frozen_change; [done..|by apply (fl_tables _ _ _ _ _ Hf)|done|done].
Qed.

Lemma frozen_in_steps db db' v :
  rtc policy_step db db' → policy_inv db → v ∈ versions_of db → pv_status v ≠ draft → frozen_in db db' v.
Proof.
  intros H. revert v. induction H as [db|db db1 db2 H1 H IH]; intros v Hinv Hv Hd; [by exists v|].
  destruct (frozen_in_step _ _ _ H1 Hinv Hv Hd) as (w & Hw & Es & Hdw & E1 & E2).
  destruct (IH w) as (u & Hu & Eu & Hdu & F1 & F2); [by eapply policy_inv_step|done..|].
  destruct Es as (Es & Es'). rewrite Es in F1, F2. exists u.
  split; [done|]. split; [by eapply same_version_trans; [done|split]|]. split; [done|]. split; congruence.
Qed.

Lemma checked_terms_frozen db db' v k r :
  frozen_in db db' v → checked_terms (pb_tables db) (pv_project_id v) (pv_id v) k r →
  checked_terms (pb_tables db') (pv_project_id v) (pv_id v) k r ∧
  rule_definitions (pb_tables db') (ru_id r) (pv_id v) = rule_definitions (pb_tables db) (ru_id r) (pv_id v).
Proof.
  intros (w & _ & _ & _ & E1 & E2) [H1 H2 H3 H4].
  assert (rule_definitions (pb_tables db') (ru_id r) (pv_id v) = rule_definitions (pb_tables db) (ru_id r) (pv_id v)) as E
    by (unfold rule_definitions; by rewrite E2).
  split; [|done]. split; rewrite ?E; try done. unfold typed_rule. by rewrite E1.
Qed.

(** Acceptance finds a rule only of a version that is no draft. *)
Lemma frozen_rule_version t project version rule :
  get_frozen_rule t project version = Ok rule →
  ∃ v, v ∈ pt_versions t ∧ pv_id v = version ∧ pv_project_id v = project ∧ pv_status v ≠ draft.
Proof.
  unfold get_frozen_rule. intros (r & Hr & _)%result_bind_Ok.
  destruct (matching_rules t project version) as [|r0 l] eqn:E; [done|].
  assert (In r0 (matching_rules t project version)) as Hin by (rewrite E; by left).
  apply filter_In in Hin as [_ [_ Hx]%andb_prop]. apply existsb_exists in Hx as (v & Hv%list_elem_of_In & Hx).
  rewrite !andb_true_iff, !Z.eqb_eq, negb_true_iff, bool_decide_eq_false in Hx. exists v. tauto.
Qed.

(** What acceptance relies on: no call of the policy service changes a rule that is frozen. *)
Lemma policy_keeps_terms db db' :
  policy_reachable db → rtc policy_step db db' → terms_kept (pb_tables db) (pb_tables db').
Proof.
  intros Hinv%policy_reachable_inv Hsteps project version rule Hr.
  destruct (frozen_rule_version _ _ _ _ Hr) as (v & Hv & <- & <- & Hd).
  destruct (terms_checked db v accepted_submission Hinv (pn_terms _ Hinv v Hv Hd)) as [r Hc].
  pose proof (frozen_in_steps _ _ _ Hsteps Hinv Hv Hd) as Hf.
  destruct (checked_terms_frozen _ _ _ _ _ Hf Hc) as [Hc' E]. destruct Hf as (w & Hw & (E1 & _ & E3 & _) & Hdw & _).
  rewrite (frozen_rule_checked _ _ _ _ v Hc Hv eq_refl eq_refl Hd) in Hr. rewrite <- E in Hr. rewrite <- Hr.
  by eapply frozen_rule_checked.
Qed.

(** C5. The terms of a published version are complete and frozen.  In every reachable state,
    acceptance finds the rule of a version that is published or retired: reading it succeeds, its
    definitions are complete for its compensation mode, and the award request built from it is
    valid for any contribution under that project and version.  After any further calls and any
    change of the unit table the version still is no draft and the very same rule is read. *)
Theorem published_terms_frozen db v :
  policy_reachable db → v ∈ versions_of db → pv_status v ≠ draft →
  ∃ rule, get_frozen_rule (pb_tables db) (pv_project_id v) (pv_id v) = Ok rule ∧
    (∀ r c, sc_project_id c = pv_project_id v → sc_contribution_policy_version_id c = pv_id v →
       award_request_valid (award_request r c rule) = true) ∧
    (∀ db', rtc policy_step db db' →
       get_frozen_rule (pb_tables db') (pv_project_id v) (pv_id v) = Ok rule ∧
       ∃ w, w ∈ versions_of db' ∧ same_version w v ∧ pv_status w ≠ draft).
Proof.
  intros Hinv%policy_reachable_inv Hv Hd.
  destruct (terms_checked db v accepted_submission Hinv (pn_terms _ Hinv v Hv Hd)) as [r Hr]. eexists. split_and!.
  - by eapply frozen_rule_checked.
  - intros q c Ep Ev. destruct Hr as [_ _ Hdef Hc]. unfold award_request_valid, award_request. cbn.
    set (ds := rule_definitions (pb_tables db) (ru_id r) (pv_id v)) in *.
    rewrite (definitions_complete_Permutation _ _ _ (by_type_Permutation _)), Hc, andb_true_r.
    assert (∀ x, x ∈ by_type (map dr_facts ds) → ∃ d, x = dr_facts d ∧ d ∈ ds) as Hmem.
    { intros x Hx. rewrite by_type_Permutation in Hx. by apply list_elem_of_fmap in Hx. }
    rewrite !andb_true_iff, !forallb_forall. split_and!.
    + intros x (d & -> & Hdin)%list_elem_of_In%Hmem. by apply Hdef.
    + rewrite (Permutation_length (by_type_Permutation _)). unfold definitions_complete in Hc.
      apply orb_true_iff in Hc as [Hc|Hc]; rewrite !andb_true_iff in Hc; apply Nat.leb_le.
      * destruct Hc as [_ Hc%Nat.eqb_eq]. lia.
      * destruct Hc as [[_ Hc%Nat.leb_le] _]. done.
    + intros x (d & -> & Hdin)%list_elem_of_In%Hmem. destruct (Hdef d Hdin) as (-> & _).
      rewrite Ep, Z.eqb_refl, Ev. unfold ds, rule_definitions in Hdin. rewrite !filter_elem in Hdin.
      by destruct Hdin as [[_ ->] _].
  - intros db' Hsteps. pose proof (frozen_in_steps _ _ _ Hsteps Hinv Hv Hd) as Hf.
    destruct (checked_terms_frozen _ _ _ _ _ Hf Hr) as [Hr' E]. destruct Hf as (w & Hw & Es & Hdw & _).
    split; [|by exists w]. rewrite <- E. destruct Es as (E1 & _ & E3 & _). by eapply frozen_rule_checked.
Qed.

(** ** A saved draft is ready for publication *)

(** Definitions hang on a rule of their version. *)
Definition attached (t : PolicyTables) : Prop :=
  ∀ d, d ∈ pt_definitions t →
    ∃ r, r ∈ pt_rules t ∧ ru_id r = dr_contribution_rule_id d ∧
         ru_contribution_policy_version_id r = df_contribution_policy_version_id (dr_facts d).

(** What an update builds from one rule of the request *)
Definition built_definition_of (i : PolicyInputs) (q : PolicyVersionRequest) (n : nat) (r : PolicyRuleInput)
    (d : PolicyDefinitionInput) (y : ContributionAwardDefinition) : Prop :=
  ∃ k quantity, parse_quantity (pd_quantity d) = Some quantity ∧ y = built_definition i q n r k d quantity.

Definition built_rule_of (i : PolicyInputs) (q : PolicyVersionRequest) (r : PolicyRuleInput) (g : RuleGraph) : Prop :=
  ∃ n, g.1 = built_rule i q n r ∧ Forall2 (built_definition_of i q n r) (pu_definitions r) g.2.

Lemma build_definitions_Ok {S} `{BindingPort S} (bindings : S) i q n r k ds db l :
  build_definitions bindings i q n r k ds db = Ok l → Forall2 (built_definition_of i q n r) ds l.
Proof.
  revert k l. induction ds as [|d ds IH]; intros k l; cbn; [by intros [= <-]|].
  intros [_ [_ (quantity & Hq%oget_Ok & (rest & Hr%IH & [= <-])%result_bind_Ok)%result_bind_Ok]%ensure_bind_Ok]%ensure_bind_Ok.
  constructor; [by exists k, quantity|done].
Qed.

Lemma build_rules_Ok {S} `{BindingPort S} (bindings : S) i q n rs db rules ds :
  build_rules bindings i q n rs db = Ok (rules, ds) →
  ∃ g, rules = map fst g ∧ ds = concat (map snd g) ∧ Forall2 (built_rule_of i q) rs g.
Proof.
  revert n rules ds. induction rs as [|r rs IH]; intros n rules ds; cbn.
  { intros [= <- <-]. by exists []. }
  intros (l & Hl%build_definitions_Ok & ([rules' ds'] & (g & -> & -> & Hg)%IH & [= <- <-])%result_bind_Ok)%result_bind_Ok.
  exists ((built_rule i q n r, l) :: g). split_and!; [done..|]. constructor; [by exists n|done].
Qed.

(** Everything built belongs to the version and its rule. *)
Lemma built_definitions_own i q n r ds l d :
  Forall2 (built_definition_of i q n r) ds l → d ∈ l →
  dr_contribution_rule_id d = pi_rule_id i n ∧
  df_contribution_policy_version_id (dr_facts d) = vq_contribution_policy_version_id q ∧
  df_project_id (dr_facts d) = vq_project_id q ∧ dr_contribution_type d = pu_contribution_type r.
Proof.
  intros H Hd. destruct (Forall2_right _ _ _ _ H Hd) as (x & _ & k & quantity & _ & ->). done.
Qed.

Lemma built_rules_own i q rs g x d :
  Forall2 (built_rule_of i q) rs g → x ∈ g → d ∈ x.2 →
  dr_contribution_rule_id d = ru_id x.1 ∧
  df_contribution_policy_version_id (dr_facts d) = vq_contribution_policy_version_id q ∧
  df_project_id (dr_facts d) = vq_project_id q ∧ dr_contribution_type d = ru_contribution_type x.1.
Proof.
  intros H Hx Hd. destruct (Forall2_right _ _ _ _ H Hx) as (r & _ & n & E & Hl).
  rewrite E. by apply (built_definitions_own _ _ _ _ _ _ _ Hl Hd).
Qed.

Lemma built_version i q rs g x :
  Forall2 (built_rule_of i q) rs g → x ∈ g →
  ru_contribution_policy_version_id x.1 = vq_contribution_policy_version_id q ∧ ru_project_id x.1 = vq_project_id q.
Proof. intros H Hx. by destruct (Forall2_right _ _ _ _ H Hx) as (r & _ & n & -> & _). Qed.

Lemma attached_step db db' : policy_step db db' → attached (pb_tables db) → attached (pb_tables db').
Proof.
  intros [S port bindings i q r db1 [[-> _]|(e & ps & t & _ & _ & _ & Hch & Hf)]%run_policy_Ok
    |i q r db1 [->|(u & e & -> & _)]%create_unit_Ok|units _] Ha; try done.
  rewrite (fl_tables _ _ _ _ _ Hf). destruct Hch as [|S' port' bindings' q p v rules ds s _ _ _ Hv _ Hb| |]; try done.
  apply build_rules_Ok in Hb as (g & -> & -> & Hg). apply get_version_Some in Hv as (_ & _ & _ & Ev).
  intros d [[Hd Hk]%filter_elem|Hd]%elem_of_app; cbn [pt_rules].
  - destruct (Ha d Hd) as (x & Hx & E1 & E2). exists x. split; [|done]. apply elem_of_app. left.
    apply filter_elem. split; [done|]. apply negb_true_iff, Z.eqb_neq. intros E.
    apply negb_true_iff, not_true_iff_false in Hk. apply Hk, existsb_exists. exists x.
    rewrite <- list_elem_of_In, E, E1, !Z.eqb_refl. done.
  - apply list_elem_of_In, in_concat in Hd as (l & (x & <- & Hx)%in_map_iff & Hd).
    apply list_elem_of_In in Hx, Hd. exists x.1.
    destruct (built_rules_own _ _ _ _ _ _ Hg Hx Hd) as (-> & -> & _ & _).
    destruct (built_version _ _ _ _ _ Hg Hx) as [-> _]. split; [|done].
    apply elem_of_app. right. apply list_elem_of_fmap. eauto.
Qed.

Lemma attached_reachable db : policy_reachable db → attached (pb_tables db).
Proof.
  intros H. assert (attached (pb_tables no_policies)) as H0 by by intros d ?%elem_of_nil.
  revert H H0. unfold policy_reachable. generalize no_policies. induction 1 as [|x y z Hxy _ IH]; [done|].
  intros H0. by eapply IH, attached_step.
Qed.

(** Definitions of one rule among all that were built *)
Lemma filter_own g x :
  NoDup (map (λ y : RuleGraph, ru_id y.1) g) → (∀ y d, y ∈ g → d ∈ y.2 → dr_contribution_rule_id d = ru_id y.1) →
  x ∈ g → List.filter (λ d, dr_contribution_rule_id d =? ru_id x.1) (concat (map snd g)) = x.2.
Proof.
  induction g as [|y g IH]; cbn; [by intros _ _ ?%elem_of_nil|].
  intros [Hy Hnd]%NoDup_cons Hown Hx. rewrite List.filter_app.
  assert (∀ z, z ∈ g → ru_id z.1 ≠ ru_id y.1) as Hne.
  { intros z Hz E. apply Hy, list_elem_of_fmap. exists z. by rewrite E. }
  apply elem_of_cons in Hx as [->|Hx].
  - rewrite (filter_nil _ (concat _)), app_nil_r.
    + apply forallb_filter_id, forallb_forall. intros d Hd%list_elem_of_In. apply Z.eqb_eq, Hown; [apply list_elem_of_here|done].
    + intros d Hd. apply list_elem_of_In, in_concat in Hd as (l & (z & <- & Hz)%in_map_iff & Hd).
      apply list_elem_of_In in Hz, Hd. rewrite (Hown z d) by (done || by apply list_elem_of_further).
      by apply Z.eqb_neq, Hne.
  - rewrite filter_nil, IH; [done|done| |done|].
    + intros z d Hz Hd. apply Hown; [by apply list_elem_of_further|done].
    + intros d Hd. rewrite (Hown y d) by (done || apply list_elem_of_here). apply Z.eqb_neq. intros E. by apply (Hne x).
Qed.

(** The printed quantity of a built definition is accepted. *)
Lemma built_definition_valid i q n r d y :
  built_definition_of i q n r d y → _validate_definition d = true → _validate_definition (definition_input y) = true.
Proof.
  intros (k & quantity & Hp & ->). unfold _validate_definition. cbn [definition_input built_definition dr_facts
    pd_quantity pd_instrument_type df_quantity df_instrument_type].
  destruct (canonical_award_quantity (pd_quantity d) _) as [z|] eqn:E; [|done]. intros _.
  assert (z = quantity) as ->.
  { unfold canonical_award_quantity in E. rewrite Hp in E. destruct (_ || _); congruence. }
  apply canonical_quantity_Some in E as (_ & Hok & Hpts).
  destruct (canonical_quantity_accepted quantity (pd_instrument_type d) Hok) as (d' & -> & _); [|done].
  intros E. apply Hpts. by rewrite E.
Qed.

Lemma validate_rule_Permutation r l k : l ≡ₚ k → _validate_rule (rule_input (r, l)) = _validate_rule (rule_input (r, k)).
Proof.
  intros E. unfold _validate_rule, rule_input. cbn [pu_definitions pu_compensation_mode fst snd].
  rewrite !length_map, (Permutation_length E). f_equal; [f_equal|].
  - apply bool_decide_ext. by rewrite E.
  - by rewrite E.
Qed.

Lemma built_definitions_inputs i q n r ds l :
  Forall2 (built_definition_of i q n r) ds l → forallb _validate_definition ds = true →
  length l = length ds ∧ map pd_instrument_type (map definition_input l) = map pd_instrument_type ds ∧
  forallb _validate_definition (map definition_input l) = true.
Proof.
  induction 1 as [|d y ds l Hy _ IH]; cbn; [done|]. intros [Hd Hds]%andb_prop.
  destruct (IH Hds) as (E1 & E2 & E3). rewrite E1, E2, E3, (built_definition_valid _ _ _ _ _ _ Hy Hd).
  by destruct Hy as (k & quantity & _ & ->).
Qed.

Lemma built_rule_valid i q r x :
  built_rule_of i q r x → _validate_rule r = true →
  _validate_rule (rule_input x) = true ∧ ru_contribution_type x.1 = pu_contribution_type r.
Proof.
  destruct x as [x l]. intros (n & E & Hl) Hv. cbn [fst snd] in *. rewrite E. split; [|done].
  unfold _validate_rule in Hv |- *. rewrite !andb_true_iff in Hv. destruct Hv as [[[H1 H2] H3] H4].
  destruct (built_definitions_inputs _ _ _ _ _ _ Hl H4) as (E1 & E2 & E3).
  cbn [rule_input pu_definitions pu_compensation_mode fst snd built_rule ru_compensation_mode].
  by rewrite length_map, E1, E2, E3, H1, H2, H3.
Qed.

Lemma built_graph_valid i q rs g :
  Forall2 (built_rule_of i q) rs g → forallb _validate_rule rs = true →
  forallb _validate_rule (map rule_input g) = true ∧ length g = length rs ∧
  map (λ x : RuleGraph, ru_contribution_type x.1) g = map pu_contribution_type rs.
Proof.
  induction 1 as [|r x rs g Hx _ IH]; cbn; [done|]. intros [Hr Hrs]%andb_prop.
  destruct (IH Hrs) as (E1 & E2 & E3). destruct (built_rule_valid _ _ _ _ Hx Hr) as [-> ->]. by rewrite E1, E2, E3.
Qed.

(** The graph that publication reads back, given what was built *)
Definition read_graph (g : list RuleGraph) : list RuleGraph :=
  map (λ r, (r, List.filter (λ d, dr_contribution_rule_id d =? ru_id r)
                  (sorted_on definition_key (concat (map snd g)))))
    (sorted_on rule_key (map fst g)).

Lemma read_graph_elem g y :
  NoDup (map (λ x : RuleGraph, ru_id x.1) g) → (∀ x d, x ∈ g → d ∈ x.2 → dr_contribution_rule_id d = ru_id x.1) →
  y ∈ read_graph g → ∃ x, x ∈ g ∧ y.1 = x.1 ∧ y.2 ≡ₚ x.2.
Proof.
  intros Hnd Hown (r & -> & Hr)%list_elem_of_fmap. rewrite sorted_on_Permutation in Hr.
  apply list_elem_of_fmap in Hr as (x & -> & Hx). exists x. split_and!; [done..|]. cbn.
  by rewrite sorted_on_Permutation, filter_own.
Qed.

Lemma read_graph_definitions g :
  NoDup (map (λ x : RuleGraph, ru_id x.1) g) → (∀ x d, x ∈ g → d ∈ x.2 → dr_contribution_rule_id d = ru_id x.1) →
  concat (map snd (read_graph g)) ≡ₚ concat (map snd g).
Proof.
  intros Hnd Hown. unfold read_graph. rewrite map_map. cbn [snd].
  set (F := λ r, List.filter (λ d, dr_contribution_rule_id d =? ru_id r) (sorted_on definition_key (concat (map snd g)))).
  transitivity (concat (map F (map fst g))).
  { rewrite <- !flat_map_concat_map. apply Permutation_flat_map, sorted_on_Permutation. }
  assert (∀ x, x ∈ g → F x.1 ≡ₚ x.2) as HF by (intros x Hx; unfold F; by rewrite sorted_on_Permutation, filter_own).
  clearbody F. clear Hnd Hown. induction g as [|x g IH]; [done|]. cbn.
  rewrite (HF x) by apply list_elem_of_here. rewrite IH; [done|]. intros y Hy. by apply HF, list_elem_of_further.
Qed.

Lemma read_graph_types g :
  map (λ x : RuleGraph, ru_contribution_type x.1) (read_graph g) ≡ₚ map (λ x : RuleGraph, ru_contribution_type x.1) g.
Proof. unfold read_graph. rewrite map_map. cbn [fst]. by rewrite sorted_on_Permutation, map_map. Qed.

Lemma built_length i q rs g :
  Forall2 (built_rule_of i q) rs g → length (concat (map snd g)) = length (concat (map pu_definitions rs)).
Proof.
  induction 1 as [|r x rs g (n & _ & Hl) _ IH]; cbn; [done|]. rewrite !length_app, IH. by rewrite (Forall2_length _ _ _ Hl).
Qed.

Lemma read_graph_complete i q rs g v :
  Forall2 (built_rule_of i q) rs g → validate_policy_graph rs = true → NoDup (map (λ x : RuleGraph, ru_id x.1) g) →
  pv_id v = vq_contribution_policy_version_id q → pv_project_id v = vq_project_id q →
  require_complete_policy_graph v (read_graph g) (sorted_on definition_key (concat (map snd g))) = Ok tt.
Proof.
  intros Hg Hv Hnd Ev Ep. unfold validate_policy_graph in Hv. rewrite !andb_true_iff, !bool_decide_eq_true in Hv.
  destruct Hv as [[[Hlen Ha] Hr] Hall]. destruct (built_graph_valid _ _ _ _ Hg Hall) as (G1 & G2 & G3).
  assert (∀ x d, x ∈ g → d ∈ x.2 → dr_contribution_rule_id d = ru_id x.1) as Hown
    by (intros x d Hx Hd; by apply (built_rules_own _ _ _ _ _ _ Hg Hx Hd)).
  pose proof (read_graph_elem g) as Helem.
  assert (map (λ x : RuleGraph, ru_contribution_type x.1) (read_graph g) ≡ₚ map pu_contribution_type rs) as Htypes.
  { by rewrite read_graph_types, G3. }
  unfold require_complete_policy_graph.
  assert (forallb (owned_rule v) (read_graph g) = true) as ->.
  { apply forallb_forall. intros y (x & Hx & E1 & E2)%list_elem_of_In%Helem; [|done..]. unfold owned_rule.
    destruct (built_version _ _ _ _ _ Hg Hx) as [F1 F2]. rewrite E1, F1, F2, Ev, Ep, !Z.eqb_refl, E2. cbn.
    apply forallb_forall. intros d Hd%list_elem_of_In. destruct (built_rules_own _ _ _ _ _ _ Hg Hx Hd) as (-> & -> & -> & ->).
    rewrite !Z.eqb_refl. by rewrite bool_decide_eq_true_2. }
  assert (same_ids (concat (map (λ r : RuleGraph, map (λ d, df_id (dr_facts d)) r.2) (read_graph g)))
            (map (λ d, df_id (dr_facts d)) (sorted_on definition_key (concat (map snd g)))) = true) as ->.
  { apply bool_decide_eq_true. rewrite sorted_on_Permutation, <- (read_graph_definitions g) by done.
    by rewrite concat_map, map_map. }
  run. unfold validate_policy_graph. rewrite !length_map, map_map. cbn [rule_input pu_contribution_type].
  assert (length (read_graph g) = length rs) as ->
    by (unfold read_graph; by rewrite length_map, sorted_on_Permutation, length_map, G2).
  rewrite Hlen, !bool_decide_eq_true_2 by by rewrite Htypes.
  assert (forallb _validate_rule (map rule_input (read_graph g)) = true) as ->; [|done].
  apply forallb_forall. intros z (y & <- & (x & Hx & E1 & E2)%list_elem_of_In%Helem)%in_map_iff; [|done..].
  destruct y as [y1 y2], x as [x1 x2]; cbn in E1, E2; subst. rewrite (validate_rule_Permutation _ _ _ E2).
  rewrite forallb_forall in G1. apply G1, in_map_iff. exists (x1, x2). by rewrite <- list_elem_of_In.
Qed.

(** The rows of a version whose graph was replaced *)
Lemma replaced_graph_read i q rs g version t t' :
  Forall2 (built_rule_of i q) rs g → version = vq_contribution_policy_version_id q → attached t →
  pt_rules t' = kept_rules version t ++ map fst g →
  pt_definitions t' = kept_definitions version t ++ concat (map snd g) →
  version_rules version t' = sorted_on rule_key (map fst g) ∧
  version_definitions version t' = sorted_on definition_key (concat (map snd g)).
Proof.
  intros Hg -> Hat E1 E2. unfold version_rules, version_definitions. rewrite E1, E2, !List.filter_app.
  rewrite !(filter_nil _ (kept_rules _ _)), !(filter_nil _ (kept_definitions _ _)); cbn [app].
  - split; f_equal; apply forallb_filter_id, forallb_forall.
    + intros x (y & <- & Hy)%in_map_iff. apply list_elem_of_In in Hy.
      destruct (built_version _ _ _ _ _ Hg Hy) as [-> _]. apply Z.eqb_refl.
    + intros d (l & (y & <- & Hy)%in_map_iff & Hd)%in_concat. apply list_elem_of_In in Hy, Hd.
      destruct (built_rules_own _ _ _ _ _ _ Hg Hy Hd) as (_ & -> & _). apply Z.eqb_refl.
  - intros d [Hd Hk]%filter_elem. apply not_true_iff_false. intros E%Z.eqb_eq.
    destruct (Hat d Hd) as (r & Hr & F1 & F2). apply negb_true_iff, not_true_iff_false in Hk.
    apply Hk, existsb_exists. exists r. rewrite <- list_elem_of_In, F1, F2, E, !Z.eqb_refl. done.
  - intros r [_ Hk%negb_true_iff]%filter_elem. done.
Qed.

(** C26. A saved draft is ready for publication.  When an update of a draft succeeds with a new
    operation, the rows it stored are exactly a complete graph: what publication reads back of the
    version, in canonical order, passes publication's own completeness check, printed quantities
    are accepted again, and only the units and bindings it names remain to be checked. *)
Theorem saved_draft_complete {S} `{BindingPort S} (bindings : S) i q db r db' :
  policy_reachable db → update_draft bindings i q db = Ok (r, db') →
  get_event_by_operation (vq_operation_id (uq_selectors q)) db = None →
  ∃ v graph ds,
    v ∈ versions_of db' ∧ pv_id v = vq_contribution_policy_version_id (uq_selectors q) ∧ pv_status v = draft ∧
    lock_publication_graph (pv_id v) db' = Ok (graph, ds) ∧ require_complete_policy_graph v graph ds = Ok tt ∧
    map (λ x : RuleGraph, ru_contribution_type x.1) graph ≡ₚ map pu_contribution_type (uq_rules q) ∧
    length ds = length (concat (map pu_definitions (uq_rules q))).
Proof.
  intros Hreach Hrun Hnew. pose proof (policy_reachable_inv _ Hreach) as Hinv. pose proof (attached_reachable _ Hreach) as Hat.
  destruct (update_draft_Ok _ _ _ _ _ _ Hrun) as [[_ (e & He & _ & E & _)]|Hw].
  { pose proof (find_None_elem _ _ _ Hnew He) as F. cbn in F, E. rewrite E, Z.eqb_refl in F. done. }
  pose proof (policy_inv_written _ _ _ _ _ Hw Hinv) as Hinv'. destruct Hw as (e & ps & t & _ & _ & _ & Hch & Hf).
  inversion Hch as [|S' port' bindings' q' p v rules ds s Hval Hp Hs Hv Hd Hb| |]; subst.
  apply build_rules_Ok in Hb as (g & -> & -> & Hg). apply get_version_Some in Hv as (Hv & Ep & _ & Ev).
  set (v' := updated_version i (vq_actor_profile_id (uq_selectors q)) v).
  pose proof (fl_tables _ _ _ _ _ Hf) as Ht. fold s in Hf, Ht. fold s v' in Ht.
  assert (NoDup (map (λ x : RuleGraph, ru_id x.1) g)) as Hnd.
  { destruct (pn_tables _ Hinv') as [_ Hu _]. rewrite Ht in Hu. cbn [pt_rules] in Hu.
    rewrite <- (map_map fst ru_id). apply (rows_ids_NoDup rule_checks rule_conflicts).
    - intros x y E. apply rule_conflicts_eq. by left.
    - eapply rows_ok_sublist; [auto|by apply sublist_inserts_l|exact Hu]. }
  exists v', (read_graph g), (sorted_on definition_key (concat (map snd g))).
  split_and!; [|done|done| |by eapply read_graph_complete| |].
  - unfold versions_of. rewrite Ht. apply elem_of_set_row. left. eauto.
  - destruct (replaced_graph_read _ _ _ _ (pv_id v) (pb_tables db) (pb_tables db') Hg) as [Er Ed];
      [done|done|by rewrite Ht..|].
    unfold lock_publication_graph. change (pv_id v') with (pv_id v). rewrite Er, Ed.
    assert (forallb (λ d, existsb (λ r, ru_id r =? dr_contribution_rule_id d) (sorted_on rule_key (map fst g)))
              (sorted_on definition_key (concat (map snd g))) = true) as ->; [|done].
    apply forallb_forall. intros d Hx%list_elem_of_In. rewrite sorted_on_Permutation in Hx.
    apply list_elem_of_In, in_concat in Hx as (l & (y & <- & Hy)%in_map_iff & Hx). apply list_elem_of_In in Hy, Hx.
    apply existsb_exists. exists y.1. destruct (built_rules_own _ _ _ _ _ _ Hg Hy Hx) as (-> & _).
    rewrite Z.eqb_refl, <- list_elem_of_In, sorted_on_Permutation. split; [|done]. apply list_elem_of_fmap. eauto.
  - unfold validate_policy_graph in Hval. apply andb_prop in Hval as [_ Hall].
    destruct (built_graph_valid _ _ _ _ Hg Hall) as (_ & _ & G3). by rewrite read_graph_types, G3.
  - rewrite sorted_on_Permutation. by eapply built_length.
Qed.

(** ** Publication against units and bindings *)

Lemma binding_lookup_ok (bd : BindingDb) project binding t :
  binding_ok bd project binding t = true →
  ∃ b, b ∈ bd_bindings bd ∧ ab_id b = binding ∧ ab_project_id b = project ∧ ab_instrument_type b = t ∧
       ab_status b = active.
Proof.
  unfold binding_ok, lock_policy_adapter_binding, binding_lookup, policy_adapter_binding.
  destruct (List.find _ _) as [b|] eqn:E; [|done]. case_bool_decide as Hs; [|done].
  apply find_Some_elem in E as [Hb E]. rewrite !andb_true_iff, !Z.eqb_eq, bool_decide_eq_true in E. naive_solver.
Qed.

Lemma unit_is_active_eq project t code db :
  unit_is_active project t code db = true →
  ∃ u, u ∈ pb_units db ∧ cu_project_id u = project ∧ cu_instrument_type u = t ∧ cu_unit_code u = code ∧
       cu_status u = unit_active.
Proof.
  unfold unit_is_active. destruct (lock_unit _ _ _ _) as [u|] eqn:E; [|done]. intros Hs%bool_decide_eq_true.
  apply find_Some_elem in E as [Hu E]. unfold same_unit, str_eqb in E.
  rewrite !andb_true_iff, Z.eqb_eq, !bool_decide_eq_true in E. naive_solver.
Qed.

(** Publication is checked against the owners of units and bindings.  When a publication
    succeeds with a new operation, composed with the adapter bindings of the compensation module,
    its version is published and is the current version of its now active policy; each of its
    definitions names an active unit of the project, and an active binding of the project for its
    instrument, which is the only active binding of that instrument. *)
Theorem publication_resources (bd : BindingDb) i q db r db' :
  policy_reachable db → binding_reachable bd → publish bd i q db = Ok (r, db') →
  get_event_by_operation (vq_operation_id q) db = None →
  ∃ p v, p ∈ pb_policies db' ∧ v ∈ versions_of db' ∧ owns p v ∧ pv_id v = vq_contribution_policy_version_id q ∧
    cp_status p = policy_active ∧ pv_status v = published ∧
    cp_current_published_version_id p = Some (pv_id v) ∧
    ∀ d, d ∈ version_definitions (pv_id v) (pb_tables db') →
      (∃ u, u ∈ pb_units db' ∧ cu_project_id u = pv_project_id v ∧
            cu_instrument_type u = df_instrument_type (dr_facts d) ∧
            cu_unit_code u = df_unit_code (dr_facts d) ∧ cu_status u = unit_active) ∧
      (∃ b, b ∈ bd_bindings bd ∧ ab_id b = df_adapter_binding_id (dr_facts d) ∧ ab_project_id b = pv_project_id v ∧
            ab_instrument_type b = df_instrument_type (dr_facts d) ∧ ab_status b = active ∧
            ∀ c, c ∈ bd_bindings bd → ab_project_id c = pv_project_id v →
                 ab_instrument_type c = df_instrument_type (dr_facts d) → ab_status c = active → c = b).
Proof.
  intros Hreach Hbd Hrun Hnew. pose proof (policy_reachable_inv _ Hreach) as Hinv.
  destruct (publish_new _ _ _ _ _ _ Hrun) as [[_ (e & He & _ & E & _)]|(e & v & v' & _ & _ & _ & Hp)].
  { pose proof (find_None_elem _ _ _ Hnew He) as F. cbn in F, E. rewrite E, Z.eqb_refl in F. done. }
  destruct Hp as (p & prior & graph & ds & c & (Hp & Ep & Eid)%get_policy_Some & (Hv & Ev & Eo & Evid)%get_version_Some
                  & _ & _ & _ & Hg & _ & Hres & -> & [F1 F2 F3 _ _ _ _ _]).
  exists (activated_policy (pv_id v) c p), (published_version (vq_actor_profile_id q) c v).
  split_and!; [| |split; cbn; congruence|done|done|done|done|].
  - rewrite F1. apply elem_of_set_row. left. eauto.
  - unfold versions_of. rewrite F2. apply elem_of_set_row. left. split; [done|].
    destruct prior as [w|]; [|by exists v]. destruct (decide (pv_id v = pv_id w)) as [E|E].
    + exists (retired_version (vq_actor_profile_id q) c w). split; [apply elem_of_set_row; left; eauto|by symmetry].
    + exists v. split; [apply elem_of_set_row; by right|done].
  - intros d Hd. cbn [pv_id pv_project_id published_version] in *.
    assert (d ∈ ds) as Hin.
    { unfold lock_publication_graph in Hg. apply ensure_bind_Ok in Hg as [_ [= _ <-]].
      unfold version_definitions in *. by rewrite F2 in Hd. }
    unfold lock_policy_resources in Hres. apply ensure_bind_Ok in Hres as [Hu [_ Hb]%ensure_bind_Ok].
    destruct (forallb _ ds) eqn:Hb' in Hb; [clear Hb|done]. rewrite forallb_forall in Hu, Hb'.
    apply list_elem_of_In in Hin. specialize (Hu d Hin). specialize (Hb' d Hin). rewrite Ev, F3. split.
    + by apply unit_is_active_eq.
    + apply binding_lookup_ok in Hb' as (b & Hb & B1 & B2 & B3 & B4). exists b. split_and!; [done..|].
      intros x Hx X1 X2 X3. apply (rows_unique _ _ _ _ _ (bn_bindings _ (reachable_inv _ Hbd)) Hx Hb), binding_conflicts_eq.
      right. split_and!; congruence.
Qed.
