(* ===== verification/PolicyDigest.v ===== *)
(** * What the digests of contribution policies commit to

    The request digest that an operation is recorded under and the graph digest that publication
    authority is bound to: equal digests mean equal requests and equal graphs, or two explicit
    texts with the same SHA-256. *)

From S2P Require Import Prelude Text Digest Json Instant Lifecycle Awards Contributions Rows PolicyApi.

(** Two JSON values whose texts collide *)
Definition json_collision (v w : json) : Prop :=
  ∃ b1 b2, utf8_encode (dumps v) = Some b1 ∧ utf8_encode (dumps w) = Some b2 ∧ b1 ≠ b2 ∧ sha256 b1 = sha256 b2.

Lemma hash_canon v w h :
  json_wf v = true → json_wf w = true → canonical_json_hash v = Some h → canonical_json_hash w = Some h →
  canon v = canon w ∨ json_collision v w.
Proof. apply canonical_json_hash_eq. Qed.

(** ** Well-formed values *)

Lemma json_wf_obj kvs :
  bool_decide (NoDup (map fst kvs)) = true → (∀ kv, kv ∈ kvs → is_str kv.1 = true ∧ json_wf kv.2 = true) →
  json_wf (JObj kvs) = true.
Proof.
  intros Hnd H. cbn [json_wf]. rewrite Hnd, andb_true_r. apply forallb_forall. intros kv Hkv%list_elem_of_In.
  by destruct (H kv Hkv) as [-> ->].
Qed.

Lemma json_wf_arr {A} (f : A → json) l : (∀ x, x ∈ l → json_wf (f x) = true) → json_wf (JArr (map f l)) = true.
Proof.
  intros H. cbn [json_wf]. apply forallb_forall. intros v (x & <- & Hx)%in_map_iff. by apply H, list_elem_of_In.
Qed.

Lemma json_wf_uuid u : json_wf (json_uuid u) = true.
Proof. apply uuid_text_str. Qed.

(** [wf_object] splits an object with literal keys into its members. *)
Ltac wf_object :=
  apply json_wf_obj; [cbn [map fst kv app]; vm_compute; reflexivity|];
  let m := fresh "m" in let Hm := fresh "Hm" in
  intros m Hm; cbn [app] in Hm;
  repeat (apply elem_of_cons in Hm as [->|Hm]); [..|by apply elem_of_nil in Hm];
  cbn [kv fst snd]; (split; [vm_compute; reflexivity|]);
  try match goal with
      | |- json_wf (json_uuid _) = true => apply json_wf_uuid
      | |- json_wf (JStr (lit _)) = true => vm_compute; reflexivity
      end.

(** Members of objects with literal keys *)
Ltac members H :=
  apply canon_obj_inj in H; [|cbn [map fst kv app]; reflexivity
    |cbn [map fst kv app]; apply (bool_decide_unpack _); vm_compute; exact I];
  cbn [map app kv snd canon json_uuid] in H.

Definition definition_wf (d : PolicyDefinitionInput) : Prop :=
  is_str (pd_unit_code d) = true ∧ is_str (pd_quantity d) = true ∧ uuid_ok (pd_adapter_binding_id d).

Definition rule_wf (r : PolicyRuleInput) : Prop := ∀ d, d ∈ pu_definitions r → definition_wf d.

Definition selectors_wf (q : PolicyVersionRequest) : Prop :=
  uuid_ok (vq_operation_id q) ∧ uuid_ok (vq_actor_profile_id q) ∧ uuid_ok (vq_project_id q) ∧
  uuid_ok (vq_contribution_policy_id q) ∧ uuid_ok (vq_contribution_policy_version_id q).

(** Identifiers have 128 bits and texts are made of code points. *)
Definition request_wf (q : PolicyMutationRequest) : Prop :=
  match q with
  | CreateDraft q => uuid_ok (dq_operation_id q) ∧ uuid_ok (dq_actor_profile_id q) ∧ uuid_ok (dq_project_id q) ∧
                     is_str (dq_name q) = true
  | UpdateDraft q => selectors_wf (uq_selectors q) ∧ ∀ r, r ∈ uq_rules q → rule_wf r
  | Publish q | Retire q => selectors_wf q
  end.

Lemma definition_input_json_wf d : definition_wf d → json_wf (definition_input_json d) = true.
Proof. intros (H1 & H2 & H3). unfold definition_input_json. wf_object; [by destruct (pd_instrument_type d)|done..]. Qed.

Lemma rule_input_json_wf r : rule_wf r → json_wf (rule_input_json r) = true.
Proof.
  intros H. unfold rule_input_json. wf_object.
  - by destruct (pu_contribution_type r).
  - by destruct (pu_compensation_mode r).
  - apply json_wf_arr. intros d Hd. by apply definition_input_json_wf, H.
Qed.

Lemma request_json_wf q : request_wf q → json_wf (request_json q) = true.
Proof.
  destruct q as [q|q|q|q]; cbn [request_wf request_json]; unfold selectors_json.
  - intros (_ & _ & _ & H). by wf_object.
  - intros [_ H]. wf_object. apply json_wf_arr. intros r Hr. by apply rule_input_json_wf, H.
  - intros _. wf_object.
  - intros _. wf_object.
Qed.

(** ** The request digest *)

Lemma action_text_inj a b : action_text a = action_text b → a = b.
Proof. destruct a, b; intros H; try done; vm_compute in H; discriminate. Qed.
Lemma instrument_text_inj a b : instrument_text a = instrument_text b → a = b.
Proof. destruct a, b; intros H; try done; vm_compute in H; discriminate. Qed.
Lemma mode_text_inj a b : mode_text a = mode_text b → a = b.
Proof. destruct a, b; intros H; try done; vm_compute in H; discriminate. Qed.
Lemma contribution_type_text_inj a b : contribution_type_text a = contribution_type_text b → a = b.
Proof. destruct a, b; intros H; try done; vm_compute in H; discriminate. Qed.

Lemma cons_eq {A} (x y : A) l k : x :: l = y :: k → x = y ∧ l = k.
Proof. by intros [= -> ->]. Qed.
Lemma JStr_eq s t : JStr s = JStr t → s = t.
Proof. congruence. Qed.
Lemma JArr_eq l k : JArr l = JArr k → l = k.
Proof. congruence. Qed.

(** [peel H E] takes the first member of [H] off as [E], without computing texts. *)
Ltac peel H E := apply cons_eq in H as [E H]; try apply JStr_eq in E; try apply JArr_eq in E.

Lemma map_inj_on {A B} (f : A → B) (P : A → Prop) l k :
  (∀ x y, P x → P y → f x = f y → x = y) → (∀ x, x ∈ l → P x) → (∀ x, x ∈ k → P x) → map f l = map f k → l = k.
Proof.
  intros Hf. revert k. induction l as [|x l IH]; intros [|y k] Hl Hk; try done. cbn. intros [= E1 E2]. f_equal.
  - apply Hf; [apply Hl, list_elem_of_here|apply Hk, list_elem_of_here|done].
  - apply IH; [intros z Hz; by apply Hl, list_elem_of_further|intros z Hz; by apply Hk, list_elem_of_further|done].
Qed.

Lemma definition_input_json_inj d e :
  definition_wf d → definition_wf e → canon (definition_input_json d) = canon (definition_input_json e) → d = e.
Proof.
  intros (_ & _ & Hd) (_ & _ & He) H. unfold definition_input_json in H. members H. peel H E1; peel H E2; peel H E3; peel H E4.
  apply instrument_text_inj in E1. apply uuid_text_inj in E4; [|done..]. destruct d, e; cbn in *. congruence.
Qed.

Lemma rule_input_json_inj r s :
  rule_wf r → rule_wf s → canon (rule_input_json r) = canon (rule_input_json s) → r = s.
Proof.
  intros Hr Hs H. unfold rule_input_json in H. members H. peel H E1; peel H E2; peel H E3.
  apply contribution_type_text_inj in E1. apply mode_text_inj in E2. rewrite !map_map in E3.
  apply (map_inj_on _ definition_wf) in E3; [|apply definition_input_json_inj|done..]. destruct r, s; cbn in *. congruence.
Qed.

Lemma selectors_inj q q' :
  selectors_wf q → selectors_wf q' →
  uuid_text (vq_operation_id q) = uuid_text (vq_operation_id q') →
  uuid_text (vq_actor_profile_id q) = uuid_text (vq_actor_profile_id q') →
  uuid_text (vq_project_id q) = uuid_text (vq_project_id q') →
  uuid_text (vq_contribution_policy_id q) = uuid_text (vq_contribution_policy_id q') →
  uuid_text (vq_contribution_policy_version_id q) = uuid_text (vq_contribution_policy_version_id q') → q = q'.
Proof.
  intros (A1 & A2 & A3 & A4 & A5) (B1 & B2 & B3 & B4 & B5) E1 E2 E3 E4 E5.
  apply uuid_text_inj in E1, E2, E3, E4, E5; try done. destruct q, q'; cbn in *. congruence.
Qed.

Lemma request_json_inj q q' :
  request_wf q → request_wf q' → action_of q = action_of q' → canon (request_json q) = canon (request_json q') → q = q'.
Proof.
  destruct q as [q|q|q|q], q' as [q'|q'|q'|q']; try done; cbn [request_wf request_json]; unfold selectors_json;
    intros Hq Hq' _ H; members H.
  - destruct Hq as (A1 & A2 & A3 & _), Hq' as (B1 & B2 & B3 & _). peel H E1; peel H E2; peel H E3; peel H E4.
    apply uuid_text_inj in E1, E2, E3; try done. destruct q, q'; cbn in *. congruence.
  - destruct Hq as [A1 A2], Hq' as [B1 B2]. peel H E1; peel H E2; peel H E3; peel H E4; peel H E5; peel H E6. rewrite !map_map in E6.
    apply (map_inj_on _ rule_wf) in E6; [|apply rule_input_json_inj|done..].
    pose proof (selectors_inj _ _ A1 B1 E1 E2 E3 E4 E5) as E. destruct q, q'; cbn in *. congruence.
  - peel H E1; peel H E2; peel H E3; peel H E4; peel H E5. f_equal. by apply selectors_inj.
  - peel H E1; peel H E2; peel H E3; peel H E4; peel H E5. f_equal. by apply selectors_inj.
Qed.

(** What the digest of a request hashes *)
Definition operation_json (q : PolicyMutationRequest) : json :=
  JObj [kv "domain" (JStr (lit "workstream.contribution.policy.operation.v1"));
        kv "action" (JStr (action_text (action_of q))); kv "request" (request_json q)].

Lemma operation_json_wf q : request_wf q → json_wf (operation_json q) = true.
Proof.
  intros H. unfold operation_json. wf_object.
  - destruct (action_of q); vm_compute; reflexivity.
  - by apply request_json_wf.
Qed.

(** An operation is bound to one request.  Two requests of the policy service with the same
    digest are the same request, action, selectors, name and rules included, unless their texts
    are an explicit SHA-256 collision. *)
Theorem policy_request_digest_binds q q' h :
  request_wf q → request_wf q' → policy_request_digest q = Some h → policy_request_digest q' = Some h →
  q = q' ∨ json_collision (operation_json q) (operation_json q').
Proof.
  intros Hq Hq' H1 H2. destruct (hash_canon (operation_json q) (operation_json q') h) as [H|H];
    [by apply operation_json_wf..|done|done| |by right].
  left. unfold operation_json in H. members H. peel H E0; peel H E1; peel H E2. apply action_text_inj in E1.
  by apply request_json_inj.
Qed.

(** ** The graph digest *)

Lemma dec_eqb_shared x a b :
  0 ≤ dc_scale x → dec_eqb x a = true → dec_eqb x b = true → dec_eqb a b = true.
Proof.
  unfold dec_eqb. rewrite !Z.eqb_eq. intros Hs H1 H2.
  assert (0 < 10 ^ dc_scale x) as Hp by (apply Z.pow_pos_nonneg; lia).
  apply (Z.mul_cancel_r _ _ (10 ^ dc_scale x)); [lia|].
  transitivity (dc_units x * 10 ^ dc_scale a * 10 ^ dc_scale b).
  - rewrite H1. ring.
  - replace (dc_units x * 10 ^ dc_scale a * 10 ^ dc_scale b) with (dc_units x * 10 ^ dc_scale b * 10 ^ dc_scale a) by ring.
    rewrite H2. ring.
Qed.

(** Equal printed quantities have equal values. *)
Lemma canonical_quantity_inj a b :
  quantity_ok a → quantity_ok b → _canonical_quantity a = _canonical_quantity b → dec_eqb a b = true.
Proof.
  intros Ha Hb E. destruct (canonical_quantity_reads a Ha) as (x & Hx & Ex & _ & Hs & _).
  destruct (canonical_quantity_reads b Hb) as (y & Hy & Ey & _). rewrite E in Hx.
  apply (dec_eqb_shared x); [done..|]. congruence.
Qed.

Lemma digits_str s : forallb is_digit s = true → is_str s = true.
Proof.
  unfold is_str. rewrite !forallb_forall. intros H x Hx. apply H in Hx. unfold is_digit, code_point in *. lia.
Qed.

Lemma parse_quantity_str v d : parse_quantity v = Some d → is_str v = true.
Proof.
  unfold parse_quantity. destruct (take_digits v) as [ip rest] eqn:E. apply take_digits_spec in E as [-> Hd].
  destruct (integer_part ip); [|done]. rewrite is_str_app, digits_str by done. destruct rest as [|c fp]; [done|].
  destruct (_ && _) eqn:Hf; [|done]. intros _. rewrite !andb_true_iff, Z.eqb_eq in Hf. destruct Hf as [[[-> Hf] _] _].
  rewrite is_str_cons, digits_str by done. done.
Qed.

Definition stored_definition_wf (d : ContributionAwardDefinition) : Prop :=
  uuid_ok (df_id (dr_facts d)) ∧ uuid_ok (df_adapter_binding_id (dr_facts d)) ∧
  is_str (df_unit_code (dr_facts d)) = true ∧ quantity_ok (df_quantity (dr_facts d)).

Definition stored_rule_wf (r : RuleGraph) : Prop := uuid_ok (ru_id r.1) ∧ ∀ d, d ∈ r.2 → stored_definition_wf d.

(** Two definitions, and two rules, with the same terms *)
Definition same_definition (d e : ContributionAwardDefinition) : Prop :=
  df_id (dr_facts d) = df_id (dr_facts e) ∧ df_instrument_type (dr_facts d) = df_instrument_type (dr_facts e) ∧
  df_unit_code (dr_facts d) = df_unit_code (dr_facts e) ∧
  df_adapter_binding_id (dr_facts d) = df_adapter_binding_id (dr_facts e) ∧
  dec_eqb (df_quantity (dr_facts d)) (df_quantity (dr_facts e)) = true.

Definition same_rule (r s : RuleGraph) : Prop :=
  ru_id r.1 = ru_id s.1 ∧ ru_contribution_type r.1 = ru_contribution_type s.1 ∧
  ru_compensation_mode r.1 = ru_compensation_mode s.1 ∧
  Forall2 same_definition (sorted_on definition_key r.2) (sorted_on definition_key s.2).

Lemma graph_definition_json_wf d : stored_definition_wf d → json_wf (graph_definition_json d) = true.
Proof.
  intros (_ & _ & Hu & Hq). unfold graph_definition_json. wf_object.
  - by destruct (df_instrument_type (dr_facts d)).
  - destruct (canonical_quantity_reads _ Hq) as (x & Hx & _). by apply (parse_quantity_str _ x).
  - done.
Qed.

Lemma graph_rule_json_wf r : stored_rule_wf r → json_wf (graph_rule_json r) = true.
Proof.
  intros [_ H]. unfold graph_rule_json. wf_object.
  - by destruct (ru_compensation_mode r.1).
  - by destruct (ru_contribution_type r.1).
  - apply json_wf_arr. intros d Hd. apply graph_definition_json_wf, H. by rewrite sorted_on_Permutation in Hd.
Qed.

Lemma map_Forall2 {A B} (f : A → B) (P : A → Prop) (R : A → A → Prop) l k :
  (∀ x y, P x → P y → f x = f y → R x y) → (∀ x, x ∈ l → P x) → (∀ x, x ∈ k → P x) → map f l = map f k → Forall2 R l k.
Proof.
  intros Hf. revert k. induction l as [|x l IH]; intros [|y k] Hl Hk; try done. cbn. intros [E1 E2]%cons_eq. constructor.
  - apply Hf; [apply Hl, list_elem_of_here|apply Hk, list_elem_of_here|done].
  - apply IH; [intros z Hz; by apply Hl, list_elem_of_further|intros z Hz; by apply Hk, list_elem_of_further|done].
Qed.

Lemma graph_definition_json_inj d e :
  stored_definition_wf d → stored_definition_wf e →
  canon (graph_definition_json d) = canon (graph_definition_json e) → same_definition d e.
Proof.
  intros (A1 & A2 & _ & A3) (B1 & B2 & _ & B3) H. unfold graph_definition_json in H. members H.
  peel H E1; peel H E2; peel H E3; peel H E4; peel H E5. apply uuid_text_inj in E1, E2; [|done..].
  apply instrument_text_inj in E3. apply canonical_quantity_inj in E4; [|done..]. unfold same_definition. auto.
Qed.

Lemma graph_rule_json_inj r s :
  stored_rule_wf r → stored_rule_wf s → canon (graph_rule_json r) = canon (graph_rule_json s) → same_rule r s.
Proof.
  intros [A1 A2] [B1 B2] H. unfold graph_rule_json in H. members H. peel H E1; peel H E2; peel H E3; peel H E4.
  apply mode_text_inj in E1. apply contribution_type_text_inj in E2. apply uuid_text_inj in E4; [|done..].
  rewrite !map_map in E3. unfold same_rule. split_and!; [done..|].
  apply (map_Forall2 _ stored_definition_wf same_definition) in E3; [done|apply graph_definition_json_inj|..];
    intros d Hd; rewrite sorted_on_Permutation in Hd; auto.
Qed.

(** What the digest of a graph hashes *)
Definition graph_json (g : list RuleGraph) : json :=
  JObj [kv "rules" (JArr (map graph_rule_json (sorted_on (λ r : RuleGraph, rule_key r.1) g)))].

Lemma graph_json_wf g : (∀ r, r ∈ g → stored_rule_wf r) → json_wf (graph_json g) = true.
Proof.
  intros H. unfold graph_json. wf_object. apply json_wf_arr. intros r Hr. apply graph_rule_json_wf, H.
  by rewrite sorted_on_Permutation in Hr.
Qed.

Lemma graph_facts_bindings g h ids u :
  publication_graph_facts g = Some (h, ids) →
  u ∈ ids ↔ ∃ r d, r ∈ sorted_on (λ r : RuleGraph, rule_key r.1) g ∧ d ∈ sorted_on definition_key r.2 ∧
                   df_adapter_binding_id (dr_facts d) = u.
Proof.
  unfold publication_graph_facts. destruct (canonical_json_hash _); [|done]. intros [= _ <-].
  rewrite sorted_on_Permutation, elem_of_remove_dups, list_elem_of_In, in_concat. split.
  - intros (bs & (r & <- & Hr)%in_map_iff & (d & <- & Hd)%in_map_iff). exists r, d.
    by rewrite !sorted_on_Permutation, !list_elem_of_In.
  - intros (r & d & Hr & Hd & <-). rewrite sorted_on_Permutation, list_elem_of_In in Hr. rewrite sorted_on_Permutation, list_elem_of_In in Hd.
    exists (map (λ d, df_adapter_binding_id (dr_facts d)) r.2). split; apply in_map_iff; eauto.
Qed.

(** C33. The authority to publish is bound to the whole graph.  Two graphs with the same digest
    have, in canonical order, the same rules with the same identities, types and modes, and the
    same definitions with the same instruments, units, bindings and quantities by value, and name
    the same adapter bindings, unless their texts are an explicit SHA-256 collision. *)
Theorem graph_digest_binds g g' h ids ids' :
  (∀ r, r ∈ g → stored_rule_wf r) → (∀ r, r ∈ g' → stored_rule_wf r) →
  publication_graph_facts g = Some (h, ids) → publication_graph_facts g' = Some (h, ids') →
  (Forall2 same_rule (sorted_on (λ r : RuleGraph, rule_key r.1) g) (sorted_on (λ r : RuleGraph, rule_key r.1) g') ∧
   ∀ u, u ∈ ids ↔ u ∈ ids') ∨
  json_collision (graph_json g) (graph_json g').
Proof.
  intros Hg Hg' H1 H2.
  assert (∀ g h ids, publication_graph_facts g = Some (h, ids) → canonical_json_hash (graph_json g) = Some h) as Hh.
  { intros a b c. unfold publication_graph_facts. fold (graph_json a). by destruct (canonical_json_hash _); [intros [= <- _]|]. }
  destruct (hash_canon (graph_json g) (graph_json g') h) as [H|H];
    [by apply graph_json_wf..|by eapply Hh|by eapply Hh| |by right].
  left. unfold graph_json in H. members H. peel H E. rewrite !map_map in E.
  apply (map_Forall2 _ stored_rule_wf same_rule) in E; [|apply graph_rule_json_inj|..];
    [|intros r Hr; rewrite sorted_on_Permutation in Hr; auto..].
  split; [done|]. intros u. rewrite (graph_facts_bindings g h ids), (graph_facts_bindings g' h ids') by done.
  clear - E. induction E as [|r s l k (_ & _ & _ & Hd) _ IH].
  { split; intros (r & d & ?%elem_of_nil & _); done. }
  assert ((∃ d, d ∈ sorted_on definition_key r.2 ∧ df_adapter_binding_id (dr_facts d) = u) ↔
          (∃ d, d ∈ sorted_on definition_key s.2 ∧ df_adapter_binding_id (dr_facts d) = u)) as Hu.
  { clear - Hd. induction Hd as [|d e l k (_ & _ & _ & E & _) _ IH]; [done|]. setoid_rewrite elem_of_cons. naive_solver. }
  setoid_rewrite elem_of_cons. naive_solver.
Qed.
