(* ===== verification/PolicyShown.v ===== *)
(** * The terms contributors are shown

    [read_locked_compensation_terms] joins versions, rules and definitions, groups the rows and
    exposes the terms of each selected version.  In every reachable state it succeeds for any
    valid selection, exposes exactly the selected versions that are published or retired, and
    what it exposes for accepted submissions is the rule that acceptance pays by, now and after
    any later calls. *)

From stdpp Require Import sorting.
From S2P Require Import Prelude Text Digest Json Instant Lifecycle Awards Contributions Rows Bindings.
From S2P Require Import PolicyApi PolicyStore PolicyService PolicyEffects PolicyGuarantees PolicyTerms.
From S2P Require Import Paging PolicyReads.

(** ** Sorting by keys *)

Lemma keys_ltb_irrefl a : keys_ltb a a = false.
Proof. induction a as [|x a IH]; [done|]. cbn. by rewrite str_ltb_irrefl, IH, andb_false_r. Qed.

Lemma keys_ltb_trans a b c : keys_ltb a b = true → keys_ltb b c = true → keys_ltb a c = true.
Proof.
  revert b c. induction a as [|x a IH]; intros [|y b] [|z c]; cbn; try done. unfold str_eqb.
  rewrite !orb_true_iff, !andb_true_iff, !bool_decide_eq_true.
  intros [H1|[-> H1]] [H2|[-> H2]]; [left; by eapply str_ltb_trans|by left|by left|right; split; [done|by eapply IH]].
Qed.

Lemma keys_ltb_total a b : keys_ltb a b = false → keys_ltb b a = false → a = b.
Proof.
  revert b. induction a as [|x a IH]; intros [|y b]; cbn; try done. unfold str_eqb.
  rewrite !orb_false_iff, !andb_false_iff, !bool_decide_eq_false.
  intros [H1 H1'] [H2 H2']. rewrite (str_ltb_total x y H1 H2) in *. f_equal. apply IH; naive_solver.
Qed.

Section SortedOn.
Context {A : Type} (key : A → list str).
Definition key_le_of (x y : A) : Prop := keys_ltb (key y) (key x) = false.

Lemma key_le_of_trans x y z : key_le_of x y → key_le_of y z → key_le_of x z.
Proof.
  unfold key_le_of. intros H1 H2. apply not_true_iff_false. intros H3.
  destruct (keys_ltb (key x) (key y)) eqn:E.
  - by rewrite (keys_ltb_trans _ _ _ H3 E) in H2.
  - pose proof (keys_ltb_total _ _ E H1) as E'. congruence.
Qed.

Lemma insert_on_sorted e s : StronglySorted key_le_of s → StronglySorted key_le_of (insert_on key e s).
Proof.
  induction 1 as [|x s Hs IH Hx]; cbn; [by repeat constructor|]. destruct (keys_ltb (key e) (key x)) eqn:E.
  - assert (key_le_of e x) as Hex.
    { unfold key_le_of. apply not_true_iff_false. intros H.
      pose proof (keys_ltb_trans _ _ _ E H) as F. by rewrite keys_ltb_irrefl in F. }
    constructor; [by constructor|]. constructor; [done|]. eapply Forall_impl; [exact Hx|]. intros y. by apply key_le_of_trans.
  - constructor; [done|]. rewrite Forall_forall in *. intros y Hy. rewrite insert_on_Permutation in Hy.
    apply elem_of_cons in Hy as [->|Hy]; [done|by apply Hx].
Qed.

Lemma sorted_on_sorted s : StronglySorted key_le_of (sorted_on key s).
Proof.
  unfold sorted_on. assert (StronglySorted key_le_of []) as H by constructor. revert H. generalize (@nil A) as acc.
  induction s as [|x s IH]; intros acc H; [done|]. cbn. by apply IH, insert_on_sorted.
Qed.
End SortedOn.

(** ** Grouping *)

Definition row_is (version : uuid) (k : ContributionType) (r : TermRow) : bool :=
  (tr_version_id r =? version) && bool_decide (tr_contribution_type r = k).

Definition row_award (r : TermRow) : option LockedCompensationAward := locked_award <$> tr_definition r.

(** The entry of the rows of one version and type *)
Definition entry_of (rows : list TermRow) : option (CompensationMode * list LockedCompensationAward) :=
  match rows with [] => None | r :: _ => Some (tr_compensation_mode r, omap row_award rows) end.

Definition entry (g : gmap Z TermRules) (version : uuid) (k : ContributionType)
    : option (CompensationMode * list LockedCompensationAward) := g !! version ≫= rules_get k.

Lemma rules_get_set k x g k' : rules_get k' (rules_set k x g) = if bool_decide (k' = k) then Some x else rules_get k' g.
Proof.
  unfold rules_get in *. induction g as [|[k0 y] g IH]; [by destruct k, k'|].
  destruct k0, k, k'; first [done|exact IH].
Qed.

(** Rows that can be grouped: one mode per version and type, and valid awards *)
Record groupable (rows : list TermRow) : Prop := {
  gr_mode x y : x ∈ rows → y ∈ rows → tr_version_id x = tr_version_id y →
    tr_contribution_type x = tr_contribution_type y → tr_compensation_mode x = tr_compensation_mode y;
  gr_award x d : x ∈ rows → tr_definition x = Some d → locked_award_valid (locked_award d) = true;
}.

Lemma group_row_entry seen r g :
  groupable (seen ++ [r]) → (∀ v k, entry g v k = entry_of (List.filter (row_is v k) seen)) →
  ∃ g', group_row g r = Ok g' ∧ ∀ v k, entry g' v k = entry_of (List.filter (row_is v k) (seen ++ [r])).
Proof.
  intros [Hm Ha] Hg. unfold group_row. set (ver := tr_version_id r). set (k := tr_contribution_type r).
  set (mine := List.filter (row_is ver k) seen).
  assert (rules_get k (default [] (g !! ver)) = entry_of mine) as Hcur.
  { unfold mine. rewrite <- Hg. unfold entry. by destruct (g !! ver). }
  rewrite Hcur. assert (Hr : r ∈ seen ++ [r]) by (apply elem_of_app; right; apply list_elem_of_here).
  assert (default (tr_compensation_mode r, []) (entry_of mine) = (tr_compensation_mode r, omap row_award mine)) as ->.
  { destruct mine as [|x l] eqn:E; [done|]. cbn [entry_of default from_option]. unfold id. f_equal. subst mine.
    assert (x ∈ List.filter (row_is ver k) seen) as [Hx [E1%Z.eqb_eq E2%bool_decide_eq_true]%andb_prop]%filter_elem
      by (rewrite E; apply list_elem_of_here).
    apply Hm; [apply elem_of_app; by left|done..]. }
  cbn [fst snd]. rewrite bool_decide_eq_true_2 by done. run.
  assert (∃ awards, (match tr_definition r with
            | Some d => _ ← ensure (locked_award_valid (locked_award d)) PolicyValueError;
                        Ok (omap row_award mine ++ [locked_award d])
            | None => Ok (omap row_award mine) end) = Ok awards ∧ awards = omap row_award (mine ++ [r])) as (awards & -> & ->).
  { rewrite omap_app. assert (row_award r = locked_award <$> tr_definition r) as Er by done. cbn. rewrite Er.
    destruct (tr_definition r) as [d|] eqn:E; cbn.
    - rewrite (Ha r d) by done. run. eauto.
    - rewrite app_nil_r. eauto. }
  run. eexists. split; [done|]. intros v k'. unfold entry. rewrite List.filter_app. cbn [List.filter].
  unfold row_is at 2. fold ver k. destruct (Z.eqb_spec ver v) as [<-|Hne].
  - rewrite lookup_insert_eq. cbn [mbind option_bind]. rewrite rules_get_set. case_bool_decide as Hk.
    + subst k'. rewrite bool_decide_eq_true_2 by done. cbn [andb]. fold mine. destruct mine as [|x l] eqn:E; [done|].
      cbn [app entry_of]. do 2 f_equal. subst mine.
      assert (x ∈ List.filter (row_is ver k) seen) as [Hx [E1%Z.eqb_eq E2%bool_decide_eq_true]%andb_prop]%filter_elem
        by (rewrite E; apply list_elem_of_here).
      symmetry. apply Hm; [apply elem_of_app; by left|done..].
    + rewrite bool_decide_eq_false_2 by done. cbn [andb]. rewrite app_nil_r, <- Hg. unfold entry. by destruct (g !! ver).
  - rewrite lookup_insert_ne by done. cbn [andb]. rewrite app_nil_r. apply Hg.
Qed.

Lemma group_rows_entry seen rows g :
  groupable (seen ++ rows) → (∀ v k, entry g v k = entry_of (List.filter (row_is v k) seen)) →
  ∃ g', group_rows g rows = Ok g' ∧ ∀ v k, entry g' v k = entry_of (List.filter (row_is v k) (seen ++ rows)).
Proof.
  revert seen g. induction rows as [|r rows IH]; intros seen g Hgr Hg; cbn [group_rows].
  { rewrite app_nil_r. eauto. }
  replace (seen ++ r :: rows) with ((seen ++ [r]) ++ rows) in * by by rewrite <- app_assoc.
  destruct (group_row_entry seen r g) as (g1 & -> & Hg1); [|done|run; by apply IH].
  destruct Hgr as [H1 H2]. split; intros; [eapply H1|eapply H2]; eauto; apply elem_of_app; by left.
Qed.

(** ** The rows of a version *)

Lemma concat_map_filter {A B} (p : A → bool) (h : A → list B) l :
  (∀ x, x ∈ l → p x = false → h x = []) → concat (map h l) = concat (map h (List.filter p l)).
Proof.
  induction l as [|x l IH]; intros H; [done|]. cbn. rewrite IH by (intros; by apply H; [apply list_elem_of_further|]).
  destruct (p x) eqn:E; [done|]. by rewrite (H x (list_elem_of_here _ _) E).
Qed.

Lemma filter_concat {A} (f : A → bool) (ls : list (list A)) :
  List.filter f (concat ls) = concat (map (List.filter f) ls).
Proof. induction ls as [|l ls IH]; [done|]. cbn. by rewrite List.filter_app, IH. Qed.

(** A version of the project that is selected and settled *)
Definition settled_version (project : uuid) (ids : list uuid) (v : ContributionPolicyVersion) : bool :=
  (pv_project_id v =? project) && existsb (Z.eqb (pv_id v)) ids && bool_decide (pv_status v ∈ [published; retired]).

Definition joined_rows (project : uuid) (ids : list uuid) (t : PolicyTables) : list TermRow :=
  concat (map (λ v, concat (map (rule_rows t v)
     (List.filter (λ r, (ru_contribution_policy_version_id r =? pv_id v)
                        && (ru_project_id r =? pv_project_id v)) (pt_rules t))))
    (List.filter (settled_version project ids) (pt_versions t))).

Lemma term_rows_eq project ids t : term_rows project ids t = sorted_on term_key (joined_rows project ids t).
Proof. done. Qed.

Lemma rule_rows_elem t v r x :
  x ∈ rule_rows t v r →
  tr_version_id x = pv_id v ∧ tr_contribution_type x = ru_contribution_type r ∧
  tr_compensation_mode x = ru_compensation_mode r ∧
  ∀ d, tr_definition x = Some d → ∃ a, a ∈ rule_definitions t (ru_id r) (pv_id v) ∧ d = dr_facts a.
Proof.
  unfold rule_rows. set (l := List.filter _ (pt_definitions t)).
  assert (∀ a, a ∈ l → a ∈ rule_definitions t (ru_id r) (pv_id v)) as Hl.
  { intros a [Ha H]%filter_elem. rewrite !andb_true_iff in H. destruct H as [[[H1 H2] _] _].
    unfold rule_definitions. by rewrite !filter_elem. }
  destruct l as [|a l]; [by intros ->%list_elem_of_singleton|].
  intros (b & -> & Hb)%list_elem_of_fmap. split_and!; [done..|]. intros d [= <-]. eauto.
Qed.

Lemma settled_iff v : bool_decide (pv_status v ∈ [published; retired]) = true ↔ pv_status v ≠ draft.
Proof.
  rewrite bool_decide_eq_true, !elem_of_cons. destruct (pv_status v); split; try done; try (by auto).
  intros [|[|?%elem_of_nil]]; done.
Qed.

Section Joined.
Context (db : PolicyDb) (Hinv : policy_inv db) (project : uuid) (ids : list uuid).
Abbreviation t := (pb_tables db).

Lemma joined_rows_elem x :
  x ∈ joined_rows project ids t →
  ∃ v r, v ∈ versions_of db ∧ settled_version project ids v = true ∧ r ∈ pt_rules t ∧
    ru_contribution_policy_version_id r = pv_id v ∧ ru_project_id r = pv_project_id v ∧ x ∈ rule_rows t v r.
Proof.
  unfold joined_rows. rewrite list_elem_of_In, in_concat. intros (l & Hl & Hx).
  apply in_map_iff in Hl as (v & <- & Hv). rewrite in_concat in Hx. destruct Hx as (k & Hk & Hx).
  apply in_map_iff in Hk as (r & <- & Hr). apply list_elem_of_In in Hv, Hr, Hx.
  apply filter_elem in Hv as [Hv Hs]. apply filter_elem in Hr as [Hr [E1%Z.eqb_eq E2%Z.eqb_eq]%andb_prop].
  exists v, r. done.
Qed.

(** The terms of a settled version *)
Lemma settled_terms v k :
  v ∈ versions_of db → pv_status v ≠ draft → ∃ r, checked_terms t (pv_project_id v) (pv_id v) k r.
Proof. intros Hv Hs. apply terms_checked; [done|]. by apply (pn_terms _ Hinv). Qed.

Lemma typed_rule_unique v r x :
  typed_rule t (pv_id v) (ru_contribution_type x) r → x ∈ pt_rules t →
  ru_contribution_policy_version_id x = pv_id v → x = r.
Proof.
  intros Hr Hx E. unfold typed_rule in Hr.
  assert (x ∈ [r]) as ?%list_elem_of_singleton; [|done]. rewrite <- Hr, !filter_elem.
  by rewrite E, Z.eqb_refl, bool_decide_eq_true_2.
Qed.

Lemma typed_rule_elem v k r :
  typed_rule t (pv_id v) k r → r ∈ pt_rules t ∧ ru_contribution_policy_version_id r = pv_id v ∧ ru_contribution_type r = k.
Proof.
  intros Hr. unfold typed_rule in Hr. assert (r ∈ [r]) as H by apply list_elem_of_here.
  rewrite <- Hr, !filter_elem, Z.eqb_eq, bool_decide_eq_true in H. tauto.
Qed.

Lemma format_f_nonempty d : 0 ≤ dc_units d → 0 < len (format_f d).
Proof.
  intros Hd. unfold format_f, len. destruct (_ =? _).
  - destruct (dec_nonneg_shape _ Hd) as (_ & c & l & -> & _). cbn. lia.
  - rewrite length_app. cbn. lia.
Qed.

Lemma joined_groupable : groupable (joined_rows project ids t).
Proof.
  split.
  - intros x y (v & r & Hv & Hs & Hr & E1 & _ & (X1 & X2 & -> & _)%rule_rows_elem)%joined_rows_elem
      (w & s & Hw & _ & Hsr & F1 & _ & (Y1 & Y2 & -> & _)%rule_rows_elem)%joined_rows_elem Ev Ek.
    assert (v = w) as -> by (apply (version_by_id db); [apply Hinv|done..|congruence]).
    destruct (pn_tables _ Hinv) as [_ Hrules _]. f_equal.
    apply (rows_unique _ _ _ _ _ Hrules Hr Hsr), rule_conflicts_eq. right. split; congruence.
  - intros x d (v & r & Hv & Hs & Hr & E1 & _ & (_ & _ & _ & Hd)%rule_rows_elem)%joined_rows_elem Hx.
    apply andb_prop in Hs as [_ Hs%settled_iff]. destruct (Hd d Hx) as (a & Ha & ->).
    destruct (settled_terms v (ru_contribution_type r) Hv Hs) as [r' Hr'].
    assert (r = r') as <- by by eapply typed_rule_unique; [apply Hr'|..].
    destruct (ct_definitions _ _ _ _ _ Hr' a Ha) as (_ & _ & Hval).
    unfold locked_award_valid, locked_award. cbn. rewrite andb_true_iff, !Z.ltb_lt.
    unfold definition_valid in Hval. split; [lia|apply format_f_nonempty; lia].
Qed.

(** Its rows are the ones of its rule. *)
Lemma joined_rows_of v k r :
  v ∈ versions_of db → settled_version project ids v = true →
  checked_terms t (pv_project_id v) (pv_id v) k r →
  List.filter (row_is (pv_id v) k) (joined_rows project ids t) = rule_rows t v r.
Proof.
  intros Hv Hs Hr. destruct (typed_rule_elem _ _ _ (ct_rule _ _ _ _ _ Hr)) as (Hrin & Er & Ek).
  assert (∀ w x, x ∈ rule_rows t v w → row_is (pv_id v) k x = bool_decide (ru_contribution_type w = k)) as Hrow.
  { intros w x (E1 & E2 & _)%rule_rows_elem. unfold row_is. by rewrite E1, E2, Z.eqb_refl. }
  unfold joined_rows. rewrite filter_concat, map_map, (concat_map_filter (λ w, pv_id w =? pv_id v)).
  - rewrite (filter_singleton _ _ v).
    + cbn [map concat]. rewrite app_nil_r, filter_concat, map_map.
      rewrite (concat_map_filter (λ w, bool_decide (ru_contribution_type w = k))).
      * rewrite filter_and. rewrite (filter_singleton _ _ r).
        -- cbn. rewrite app_nil_r. apply forallb_filter_id, forallb_forall. intros x Hx%list_elem_of_In.
           rewrite (Hrow r x Hx). by apply bool_decide_eq_true.
        -- eapply rows_NoDup; [|apply (to_rules _ (pn_tables _ Hinv))]. intros x. apply rule_conflicts_eq. by left.
        -- done.
        -- by rewrite Er, (ct_project _ _ _ _ _ Hr), !Z.eqb_refl, bool_decide_eq_true_2.
        -- intros y Hy. rewrite !andb_true_iff, !Z.eqb_eq, bool_decide_eq_true. intros [[F1 _] F2].
           eapply typed_rule_unique; [rewrite F2; apply Hr|done..].
      * intros w _ Hw. apply filter_nil. intros x Hx. by rewrite (Hrow w x Hx).
    + eapply sublist_NoDup; [by apply (versions_NoDup db)|apply filter_sublist].
    + by apply filter_elem.
    + apply Z.eqb_refl.
    + intros y [Hy _]%filter_elem E%Z.eqb_eq. by apply (version_by_id db); [apply Hinv|..].
  - intros w _ Hw. apply filter_nil. intros x Hx.
    rewrite list_elem_of_In, in_concat in Hx. destruct Hx as (l & Hl & Hx). apply in_map_iff in Hl as (s & <- & _).
    apply list_elem_of_In, rule_rows_elem in Hx as (E1 & _). unfold row_is. by rewrite E1, Hw.
Qed.
End Joined.

(** ** The awards of a version *)

(** Money comes before points. *)
Definition award_le (a b : LockedCompensationAward) : Prop :=
  ¬ (la_instrument a = PROJECT_POINTS ∧ la_instrument b = MONEY).

Lemma omap_StronglySorted {A B} (R : A → A → Prop) (S : B → B → Prop) (f : A → option B) l :
  StronglySorted R l → (∀ x y a b, x ∈ l → y ∈ l → R x y → f x = Some a → f y = Some b → S a b) →
  StronglySorted S (omap f l).
Proof.
  induction 1 as [|x l Hl IH Hx]; intros H; cbn; [constructor|].
  assert (StronglySorted S (omap f l)) as Hs
    by (apply IH; intros y z a b Hy Hz; apply H; by apply list_elem_of_further).
  destruct (f x) as [a|] eqn:E; [|done]. constructor; [done|]. rewrite Forall_forall in Hx. apply Forall_forall.
  intros b (y & Hy & Ey)%list_elem_of_omap. apply (H x y); [apply list_elem_of_here|by apply list_elem_of_further|by apply Hx|done..].
Qed.

Lemma term_key_instruments x y d e :
  tr_version_id x = tr_version_id y → tr_contribution_type x = tr_contribution_type y →
  tr_definition x = Some d → tr_definition y = Some e → key_le_of term_key x y →
  award_le (locked_award d) (locked_award e).
Proof.
  unfold key_le_of, term_key, award_le. intros E1 E2 -> -> H [F1 F2]. rewrite E1, E2 in H. cbn in F1, F2.
  rewrite F1, F2 in H. cbn [keys_ltb] in H. unfold str_eqb in H. rewrite !str_ltb_irrefl, !bool_decide_eq_true_2 in H by done.
  vm_compute in H. done.
Qed.

Lemma by_type_sorted l : StronglySorted award_le (map locked_award (by_type l)).
Proof.
  assert (∀ k, StronglySorted award_le (map locked_award (List.filter (λ d, bool_decide (df_instrument_type d = k)) l)) ∧
    ∀ a, a ∈ map locked_award (List.filter (λ d, bool_decide (df_instrument_type d = k)) l) → la_instrument a = k) as H.
  { intros k. induction l as [|d l [IH1 IH2]]; cbn; [split; [constructor|by intros ? ?%elem_of_nil]|].
    case_bool_decide as E; [|done]. cbn. split.
    - constructor; [done|]. apply Forall_forall. intros a Ha%IH2. unfold award_le. cbn. rewrite Ha, E. by destruct k; intros [].
    - intros a [->|Ha]%elem_of_cons; [done|by apply IH2]. }
  unfold by_type. rewrite map_app. apply StronglySorted_app. destruct (H MONEY) as [S1 H1], (H PROJECT_POINTS) as [S2 H2].
  split_and!; [|done..]. intros a b Ha%H1 Hb%H2. unfold award_le. rewrite Ha. by intros [].
Qed.

Definition shown_terms (m : CompensationMode) (definitions : list AwardDefinitionFacts) : LockedContributionTerms :=
  match m with UNPAID => Unpaid | COMPENSATED => Awarded (map locked_award definitions) end.

Section Shown.
Context (db : PolicyDb) (Hinv : policy_inv db) (project : uuid) (ids : list uuid).
Context (v : ContributionPolicyVersion) (k : ContributionType) (r : ContributionRule).
Context (Hv : v ∈ versions_of db) (Hs : settled_version project ids v = true).
Context (Hr : checked_terms (pb_tables db) (pv_project_id v) (pv_id v) k r).
Abbreviation definitions := (map dr_facts (rule_definitions (pb_tables db) (ru_id r) (pv_id v))).

Lemma rule_rows_awards :
  omap row_award (rule_rows (pb_tables db) v r) = map locked_award definitions ∧
  rule_rows (pb_tables db) v r ≠ [].
Proof using Hr.
  destruct (typed_rule_elem _ _ _ _ (ct_rule _ _ _ _ _ Hr)) as (_ & Er & Ek). unfold rule_rows.
  assert (List.filter (λ d, (dr_contribution_rule_id d =? ru_id r)
              && (df_contribution_policy_version_id (dr_facts d) =? pv_id v)
              && (df_project_id (dr_facts d) =? pv_project_id v)
              && bool_decide (dr_contribution_type d = ru_contribution_type r)) (pt_definitions (pb_tables db))
          = rule_definitions (pb_tables db) (ru_id r) (pv_id v)) as ->.
  { unfold rule_definitions at 1. rewrite filter_and. apply filter_ext_elem. intros d Hd.
    destruct (df_contribution_policy_version_id (dr_facts d) =? pv_id v) eqn:E1; [|by rewrite !andb_false_r].
    destruct (dr_contribution_rule_id d =? ru_id r) eqn:E2; [|done].
    assert (d ∈ rule_definitions (pb_tables db) (ru_id r) (pv_id v)) as Hin.
    { unfold rule_definitions. by rewrite !filter_elem. }
    destruct (ct_definitions _ _ _ _ _ Hr d Hin) as (-> & -> & _). by rewrite Z.eqb_refl, Ek, bool_decide_eq_true_2. }
  destruct (rule_definitions _ _ _) as [|d l]; [done|]. split; [|done].
  generalize (d :: l). clear. intros l. induction l as [|d l IH]; [done|]. cbn in *. by f_equal.
Qed.

(** The entry the rows of the version give *)
Lemma settled_entry :
  entry_of (List.filter (row_is (pv_id v) k) (term_rows project ids (pb_tables db))) =
  Some (ru_compensation_mode r, map locked_award (by_type definitions)).
Proof using Hinv Hv Hs Hr.
  rewrite term_rows_eq. set (rs := List.filter _ _).
  assert (rs ≡ₚ rule_rows (pb_tables db) v r) as Hp.
  { unfold rs. by rewrite sorted_on_Permutation, (joined_rows_of db Hinv project ids v k r). }
  destruct rule_rows_awards as [Haw Hne].
  assert (NoDup (map la_instrument (map locked_award definitions))) as Hnd.
  { pose proof (ct_complete _ _ _ _ _ Hr) as Hc. unfold definitions_complete in Hc. rewrite map_map.
    apply orb_true_iff in Hc as [[_ Hc%Nat.eqb_eq]%andb_prop|[_ Hc%bool_decide_eq_true]%andb_prop]; [|done].
    destruct definitions; [constructor|done]. }
  assert (omap row_award rs = map locked_award (by_type definitions)) as Hom.
  { apply (StronglySorted_unique_strong award_le).
    - intros a b Ha Hb Hab Hba. rewrite Hp, Haw in Ha. rewrite by_type_Permutation in Hb.
      assert (la_instrument a = la_instrument b) as E
        by (unfold award_le in *; destruct (la_instrument a), (la_instrument b); naive_solver).
      by eapply (NoDup_map_eq la_instrument).
    - apply (omap_StronglySorted (key_le_of term_key)).
      + apply filter_StronglySorted, sorted_on_sorted.
      + intros x y a b [_ [X1%Z.eqb_eq X2%bool_decide_eq_true]%andb_prop]%filter_elem
          [_ [Y1%Z.eqb_eq Y2%bool_decide_eq_true]%andb_prop]%filter_elem Hle Ha Hb. unfold row_award in Ha, Hb.
        apply fmap_Some in Ha as (d & Hd & ->), Hb as (e & He & ->). apply (term_key_instruments x y d e); (done || congruence).
    - apply by_type_sorted.
    - by rewrite Hp, Haw, by_type_Permutation. }
  destruct rs as [|x rs'] eqn:E; [by apply Permutation_nil in Hp|]. cbn [entry_of]. rewrite Hom. do 2 f_equal.
  assert (x ∈ rule_rows (pb_tables db) v r) as Hx by (rewrite <- Hp; apply list_elem_of_here).
  by apply rule_rows_elem in Hx as (_ & _ & -> & _).
Qed.

Lemma settled_exposed :
  exposed (ru_compensation_mode r, map locked_award (by_type definitions)) =
    Ok (shown_terms (ru_compensation_mode r) (by_type definitions)) ∧
  locked_terms_valid (shown_terms (ru_compensation_mode r) (by_type definitions)) = true.
Proof using Hr.
  pose proof (ct_complete _ _ _ _ _ Hr) as Hc.
  rewrite <- (definitions_complete_Permutation _ _ _ (by_type_Permutation definitions)) in Hc.
  unfold definitions_complete in Hc. unfold exposed, shown_terms. apply orb_true_iff in Hc as [Hc|Hc].
  - apply andb_prop in Hc as [->%bool_decide_eq_true Hc%Nat.eqb_eq]. by destruct (by_type definitions).
  - rewrite !andb_true_iff, !bool_decide_eq_true in Hc. destruct Hc as [[[-> H1] H2] H3].
    rewrite length_map, H1, H2. split; [done|]. unfold locked_terms_valid.
    rewrite length_map, H1, H2, map_map. cbn. by apply bool_decide_eq_true.
Qed.
End Shown.

(** ** Every selected version *)

Lemma version_terms_entry g version :
  version_terms g version =
  match entry g version accepted_submission, entry g version completed_review with
  | Some a, Some c =>
      submission ← exposed a;
      review ← exposed c;
      _ ← ensure (locked_terms_valid submission && locked_terms_valid review) PolicyValueError;
      Ok (Some {| lt_contribution_policy_version_id := version; lt_accepted_submission := submission;
                  lt_completed_review := review |})
  | _, _ => Ok None
  end.
Proof. unfold version_terms, entry. by destruct (g !! version). Qed.

(** A selector that names a version of the project that is no draft *)
Definition selects (db : PolicyDb) (project id : uuid) : bool :=
  existsb (λ v, (pv_id v =? id) && (pv_project_id v =? project) && negb (bool_decide (pv_status v = draft)))
    (versions_of db).

Lemma selects_iff db project id :
  selects db project id = true ↔
  ∃ v, v ∈ versions_of db ∧ pv_id v = id ∧ pv_project_id v = project ∧ pv_status v ≠ draft.
Proof.
  unfold selects. rewrite existsb_exists. setoid_rewrite <- list_elem_of_In.
  setoid_rewrite andb_true_iff. setoid_rewrite andb_true_iff. setoid_rewrite Z.eqb_eq.
  setoid_rewrite negb_true_iff. setoid_rewrite bool_decide_eq_false. naive_solver.
Qed.

(** What is shown of a version: the terms its two rules were published with *)
Definition shown_for (db : PolicyDb) (project : uuid) (t : LockedCompensationTerms) : Prop :=
  ∃ v a c, v ∈ versions_of db ∧ pv_project_id v = project ∧ pv_status v ≠ draft ∧
    lt_contribution_policy_version_id t = pv_id v ∧
    checked_terms (pb_tables db) project (pv_id v) accepted_submission a ∧
    checked_terms (pb_tables db) project (pv_id v) completed_review c ∧
    lt_accepted_submission t = shown_terms (ru_compensation_mode a)
      (by_type (map dr_facts (rule_definitions (pb_tables db) (ru_id a) (pv_id v)))) ∧
    lt_completed_review t = shown_terms (ru_compensation_mode c)
      (by_type (map dr_facts (rule_definitions (pb_tables db) (ru_id c) (pv_id v)))).

Lemma version_terms_shown db project ids g id :
  policy_inv db → id ∈ ids →
  (∀ v k, entry g v k = entry_of (List.filter (row_is v k) (term_rows project ids (pb_tables db)))) →
  ∃ o, version_terms g id = Ok o ∧
    match o with
    | Some t => selects db project id = true ∧ lt_contribution_policy_version_id t = id ∧ shown_for db project t
    | None => selects db project id = false
    end.
Proof.
  intros Hinv Hid Hg. rewrite version_terms_entry, !Hg. destruct (selects db project id) eqn:Hsel.
  - pose proof Hsel as (v & Hv & <- & <- & Hd)%selects_iff.
    assert (settled_version (pv_project_id v) ids v = true) as Hs.
    { unfold settled_version. rewrite Z.eqb_refl, (proj2 (settled_iff v) Hd), andb_true_r.
      apply existsb_exists. exists (pv_id v). by rewrite <- list_elem_of_In, Z.eqb_refl. }
    destruct (settled_terms db Hinv v accepted_submission Hv Hd) as [a Ha].
    destruct (settled_terms db Hinv v completed_review Hv Hd) as [c Hc].
    rewrite (settled_entry db Hinv _ ids v _ a Hv Hs Ha), (settled_entry db Hinv _ ids v _ c Hv Hs Hc).
    destruct (settled_exposed _ _ _ _ Ha) as [-> Va]. destruct (settled_exposed _ _ _ _ Hc) as [-> Vc]. run.
    rewrite Va, Vc. run. eexists. split; [done|]. split_and!; [done..|]. by exists v, a, c.
  - assert (∀ k, List.filter (row_is id k) (term_rows project ids (pb_tables db)) = []) as Hnil.
    { intros k. apply filter_nil. intros x Hx. rewrite term_rows_eq, sorted_on_Permutation in Hx.
      apply joined_rows_elem in Hx as (v & r & Hv & Hs & _ & _ & _ & (E & _)%rule_rows_elem).
      unfold row_is. rewrite E. destruct (Z.eqb_spec (pv_id v) id) as [<-|]; [|done].
      exfalso. apply not_true_iff_false in Hsel. apply Hsel, selects_iff. unfold settled_version in Hs.
      rewrite !andb_true_iff, settled_iff, Z.eqb_eq in Hs. exists v. tauto. }
    rewrite !Hnil. by exists None.
Qed.

Lemma all_terms_shown db project ids g l :
  policy_inv db → (∀ id, id ∈ l → id ∈ ids) →
  (∀ v k, entry g v k = entry_of (List.filter (row_is v k) (term_rows project ids (pb_tables db)))) →
  ∃ ts, all_terms g l = Ok ts ∧ map lt_contribution_policy_version_id ts = List.filter (selects db project) l ∧
    ∀ t, t ∈ ts → shown_for db project t.
Proof.
  intros Hinv. induction l as [|id l IH]; intros Hl Hg; cbn [all_terms].
  { eexists. split_and!; [done..|]. by intros t ?%elem_of_nil. }
  destruct (version_terms_shown db project ids g id Hinv) as (o & -> & Ho); [apply Hl, list_elem_of_here|done|].
  destruct IH as (ts & -> & E & Hts); [intros; by apply Hl, list_elem_of_further|done|]. run.
  eexists. split; [done|]. cbn [List.filter]. destruct o as [t|].
  - destruct Ho as (-> & <- & Hs). cbn. split; [by f_equal|]. intros x [->|Hx]%elem_of_cons; [done|by apply Hts].
  - rewrite Ho. by cbn.
Qed.

(** ** What is shown is what is paid *)

(** Awards that are the ones shown: as many, one per instrument, with their unit and quantity *)
Definition paid_as_shown (awards : list CompensationAward) (t : LockedContributionTerms) : Prop :=
  match t with
  | Unpaid => awards = []
  | Awarded l =>
      length awards = length l ∧ NoDup (map wd_instrument_type awards) ∧
      ∀ a, a ∈ awards → ∃ s q, s ∈ l ∧ la_instrument s = wd_instrument_type a ∧ la_unit s = wd_unit_code a ∧
        la_quantity s = format_f q ∧ dec_eqb (wd_quantity a) q = true
  end.

Lemma awards_exact_paid r c rule l :
  awards_exact r c rule l → (fr_compensation_mode rule = UNPAID → fr_definitions rule = []) →
  paid_as_shown l (shown_terms (fr_compensation_mode rule) (fr_definitions rule)).
Proof.
  intros (Hlen & Hnd & Hall) Hun. destruct (fr_compensation_mode rule); cbn.
  - rewrite Hun in Hlen by done. by destruct l.
  - rewrite length_map. split_and!; [done..|]. intros a Ha. destruct (Hall a Ha) as (d & Hd & Hm).
    exists (locked_award d), (df_quantity d). unfold _award_matches, str_eqb in Hm.
    rewrite !andb_true_iff, !bool_decide_eq_true in Hm.
    split_and!; [apply list_elem_of_fmap; eauto|naive_solver..].
Qed.

(** C7. Contributors are paid the terms they were shown.  In every reachable state, reading the
    locked terms of up to a hundred distinct versions succeeds, and lists exactly the selected
    versions of the project that are published or retired, in the order asked for.  After any
    later calls, every accepted submission under such a version, whoever owns the awards, is
    paid exactly the awards that were shown: none for unpaid work, otherwise one per instrument
    shown, of the same unit and an equal quantity. *)
Theorem shown_terms_are_paid db project ids :
  policy_reachable db → selectors_valid ids = true →
  ∃ ts, read_locked_compensation_terms project ids (pb_tables db) = Ok ts ∧
    map lt_contribution_policy_version_id ts = List.filter (selects db project) ids ∧
    ∀ t db' S (port : AwardPort S) i acq r contributions (s : S) res contributions' s',
      t ∈ ts → rtc policy_step db db' →
      sp_project_id r = project → sp_contribution_policy_version_id r = lt_contribution_policy_version_id t →
      participate_submitter i acq (pb_tables db') r contributions s = Ok (res, contributions', s') →
      paid_as_shown (pr_awards res) (lt_accepted_submission t).
Proof.
  intros Hinv%policy_reachable_inv Hids. unfold read_locked_compensation_terms. rewrite Hids. run.
  destruct (group_rows_entry [] (term_rows project ids (pb_tables db)) ∅) as (g & -> & Hg).
  { cbn. pose proof (joined_groupable db Hinv project ids) as [H1 H2]. rewrite term_rows_eq.
    split; setoid_rewrite sorted_on_Permutation; done. }
  { intros v k. done. }
  run. destruct (all_terms_shown db project ids g ids Hinv) as (ts & -> & E & Hts); [done|done|].
  exists ts. split_and!; [done..|]. intros t db' S port i acq r ct s res ct' s' Ht Hsteps Ep Ev Hrun.
  destruct (Hts t Ht) as (v & a & c & Hv & Epv & Hd & Et & Ha & _ & -> & _).
  apply participation_awards in Hrun as (rule & Hrule & Haw). rewrite Ep, Ev, Et in Hrule. rewrite <- Epv in *.
  pose proof (frozen_in_steps _ _ _ Hsteps Hinv Hv Hd) as Hf.
  destruct (checked_terms_frozen _ _ _ _ _ Hf Ha) as [Ha' Edef]. destruct Hf as (w & Hw & (W1 & _ & W3 & _) & Hdw & _).
  rewrite (frozen_rule_checked _ _ _ _ w Ha' Hw W1 W3 Hdw), Edef in Hrule. apply Ok_inj in Hrule as <-.
  apply awards_exact_paid in Haw; [done|]. cbn. intros Eun. pose proof (ct_complete _ _ _ _ _ Ha) as Hc.
  rewrite <- (definitions_complete_Permutation _ _ _ (by_type_Permutation _)) in Hc.
  unfold definitions_complete in Hc. rewrite Eun in Hc. cbn in Hc. rewrite orb_false_r in Hc.
  apply Nat.eqb_eq in Hc. by destruct (by_type _).
Qed.
