(* ===== verification/PolicyRun.v ===== *)
(** * A run of contribution policies and adapter bindings

    A concrete history: bindings for both instruments are created and one is suspended and
    resumed; units are registered; a policy is drafted, given its rules and published, a second
    draft is opened and the policy is retired.  Every call is evaluated; the theorems about
    bindings, policies, terms and digests are applied to the states of the run. *)

From stdpp Require Import relations.
From S2P Require Import Prelude Text Digest Json Instant Lifecycle Awards Contributions Rows Bindings.
From S2P Require Import PolicyApi PolicyStore PolicyService PolicyEffects PolicyGuarantees PolicyHistory.
From S2P Require Import AcceptanceRun PolicyTerms PolicyDigest Paging PolicyReads PolicyShown.

(** ** Bindings *)

Definition run_binding_inputs (n : Z) : BindingInputs :=
  {| bi_in_transaction := true; bi_in_nested_transaction := false; bi_read _ := Ok tt;
     bi_lock_scope _ _ _ := Ok tt; bi_consume f := Ok (bf_actor_profile_id f);
     bi_projects := Some Some; bi_actors := Some Some; bi_binding_id := rid n; bi_event_id := rid (n + 1);
     bi_created_at := 100 * n; bi_suspended_at := 100 * n; bi_resumed_at := 100 * n;
     bi_occurred_at := 100 * n; bi_admits _ _ := true |}.

Definition run_create (n : Z) (t : CompensationInstrumentType) : AdapterBindingMutationRequest :=
  BindingCreate {| bc_operation_id := rid (n + 2); bc_actor_profile_id := rid 1; bc_project_id := rid 100;
                   bc_instrument_type := t; bc_adapter_actor_id := rid 105;
                   bc_route_key := lit "ledger.primary" |}.

Definition run_move (n binding version : Z) : AdapterBindingTransitionRequest :=
  {| bt_operation_id := rid (n + 2); bt_actor_profile_id := rid 1; bt_project_id := rid 100;
     bt_adapter_binding_id := rid binding; bt_expected_lifecycle_version := version |}.

Definition bound (n : Z) (q : AdapterBindingMutationRequest) (db : BindingDb) : BindingOutcome :=
  run_binding (run_binding_inputs n) q db.

Definition bd1 : BindingDb := Eval vm_compute in state_of (bound 200 (run_create 200 MONEY) no_bindings) no_bindings.
Definition bd2 : BindingDb := Eval vm_compute in state_of (bound 210 (run_create 210 PROJECT_POINTS) bd1) bd1.
Definition bd3 : BindingDb := Eval vm_compute in state_of (bound 220 (BindingSuspend (run_move 220 200 1)) bd2) bd2.
Definition bd4 : BindingDb := Eval vm_compute in state_of (bound 230 (BindingResume (run_move 230 200 2)) bd3) bd3.

Lemma bound_call n q db db' :
  is_ok (bound n q db) = true → state_of (bound n q db) db = db' → binding_call db db'.
Proof.
  intros Hok <-. destruct (state_of_Ok (bound n q db) db Hok) as [r Hr]. exists (run_binding_inputs n), q, r. exact Hr.
Qed.

Lemma bindings_run : rtc binding_call no_bindings bd2 ∧ rtc binding_call bd2 bd4.
Proof.
  split.
  - eapply rtc_l; [apply (bound_call 200 (run_create 200 MONEY) no_bindings bd1); vm_compute; reflexivity|].
    eapply rtc_l; [apply (bound_call 210 (run_create 210 PROJECT_POINTS) bd1 bd2); vm_compute; reflexivity|].
    apply rtc_refl.
  - eapply rtc_l; [apply (bound_call 220 (BindingSuspend (run_move 220 200 1)) bd2 bd3); vm_compute; reflexivity|].
    eapply rtc_l; [apply (bound_call 230 (BindingResume (run_move 230 200 2)) bd3 bd4); vm_compute; reflexivity|].
    apply rtc_refl.
Qed.

Lemma bindings_reached : binding_reachable bd4.
Proof. destruct bindings_run as [H1 H2]. unfold binding_reachable. by etrans. Qed.

(** The first binding went through three versions and is active again. *)
Example bindings_run_events :
  map (λ e, (be_event_type e, be_to_lifecycle_version e)) (bd_events bd4)
  = [(binding_created, 1); (binding_created, 1); (binding_suspended, 2); (binding_resumed, 3)] ∧
  map ab_status (bd_bindings bd4) = [active; active].
Proof. split; vm_compute; reflexivity. Qed.

(** A second active binding of the instrument is refused, and a stale version is. *)
Example bindings_refused :
  bound 240 (run_create 240 MONEY) bd4 = Raise (AdapterBindingConflict binding_conflict) ∧
  bound 240 (BindingSuspend (run_move 240 200 1)) bd4 = Raise (AdapterBindingConflict binding_conflict).
Proof. split; vm_compute; reflexivity. Qed.

Lemma binding_history_witness : binding_reachable bd4 ∧ ∃ b, b ∈ bd_bindings bd4 ∧ ab_status b = status_at 3.
Proof.
  split; [exact bindings_reached|]. destruct (binding_history bd4 bindings_reached) as (_ & H & _).
  eexists. split; [apply list_elem_of_here|]. apply H, list_elem_of_here.
Defined.

Lemma run_bound : ∃ r, run_binding (run_binding_inputs 200) (run_create 200 MONEY) no_bindings = Ok (r, bd1).
Proof.
  destruct (state_of_Ok (bound 200 (run_create 200 MONEY) no_bindings) no_bindings) as [r Hr]; [vm_compute; reflexivity|].
  exists r. assert (state_of (bound 200 (run_create 200 MONEY) no_bindings) no_bindings = bd1) as E
    by (vm_compute; reflexivity). by rewrite E in Hr.
Qed.

Lemma binding_replay_witness :
  ∃ r, run_binding (run_binding_inputs 200) (run_create 200 MONEY) no_bindings = Ok (r, bd1) ∧
       run_binding (run_binding_inputs 900) (run_create 200 MONEY) bd4 = Ok (r, bd4).
Proof.
  destruct run_bound as [r Hr]. exists r. split; [exact Hr|].
  assert (rtc binding_call bd1 bd4) as Hc.
  { eapply rtc_l; [apply (bound_call 210 (run_create 210 PROJECT_POINTS) bd1 bd2); vm_compute; reflexivity|]. apply bindings_run. }
  apply (binding_replay (run_binding_inputs 200) (run_create 200 MONEY) no_bindings r bd1 bd4);
    [apply rtc_refl|exact Hr|exact Hc|]. split; [vm_compute; reflexivity|]. split; [reflexivity|]. intros b. reflexivity.
Defined.

(** ** Policies *)

Definition open_policy_authority : PolicyAuthority :=
  {| pa_read _ := Ok tt; pa_lock_scope _ _ _ := Ok tt; pa_consume f := Ok (facts_actor f) |}.

Definition run_policy_inputs (n : Z) : PolicyInputs :=
  {| pi_in_transaction := true; pi_in_nested_transaction := false; pi_authority := open_policy_authority;
     pi_projects := Some Some; pi_bindings_composed := true; pi_policy_id := rid n; pi_version_id := rid (n + 1);
     pi_event_id := rid (n + 2); pi_custody_id := rid (n + 3); pi_rule_id k := rid (n + 10 + Z.of_nat k);
     pi_definition_id k j := rid (n + 20 + 2 * Z.of_nat k + Z.of_nat j); pi_created_at := 100 * n;
     pi_occurred_at := 100 * n; pi_updated_at := 100 * n; pi_admits _ _ := true |}.

Definition run_unit : ProjectCompensationUnitCreateRequest :=
  {| xq_operation_id := rid 300; xq_actor_profile_id := rid 1; xq_project_id := rid 100;
     xq_instrument_type := PROJECT_POINTS; xq_unit_code := lit "merit" |}.

Definition money_unit : ProjectCompensationUnit :=
  {| cu_project_id := rid 100; cu_instrument_type := MONEY; cu_unit_code := lit "USD";
     cu_iso_currency_code := Some (lit "USD"); cu_status := unit_active; cu_created_by := rid 1;
     cu_created_at := 0; cu_retired_by := None; cu_retired_at := None |}.

Definition run_draft (n : Z) : ContributionPolicyCreateDraftRequest :=
  {| dq_operation_id := rid (n + 4); dq_actor_profile_id := rid 1; dq_project_id := rid 100;
     dq_name := lit "Base policy" |}.

Definition run_select (n policy version : Z) : PolicyVersionRequest :=
  {| vq_operation_id := rid (n + 4); vq_actor_profile_id := rid 1; vq_project_id := rid 100;
     vq_contribution_policy_id := rid policy; vq_contribution_policy_version_id := rid version |}.

Definition run_rules : list PolicyRuleInput :=
  [{| pu_contribution_type := completed_review; pu_compensation_mode := UNPAID; pu_definitions := [] |};
   {| pu_contribution_type := accepted_submission; pu_compensation_mode := COMPENSATED;
      pu_definitions :=
        [{| pd_instrument_type := PROJECT_POINTS; pd_unit_code := lit "merit"; pd_quantity := lit "3";
            pd_adapter_binding_id := rid 210 |};
         {| pd_instrument_type := MONEY; pd_unit_code := lit "USD"; pd_quantity := lit "12.50";
            pd_adapter_binding_id := rid 200 |}] |}].

Definition run_update (n policy version : Z) : ContributionPolicyUpdateDraftRequest :=
  {| uq_selectors := run_select n policy version; uq_rules := run_rules |}.

Abbreviation ran n q db := (run_policy bd4 (run_policy_inputs n) q db).

Definition pd1 : PolicyDb := Eval vm_compute in state_of (create_unit (run_policy_inputs 310) run_unit no_policies) no_policies.
Definition pd2 : PolicyDb := Eval vm_compute in with_units (pb_units pd1 ++ [money_unit]) (pb_unit_events pd1) pd1.
Definition pd3 : PolicyDb := Eval vm_compute in state_of (ran 400 (CreateDraft (run_draft 400)) pd2) pd2.
Definition pd4 : PolicyDb := Eval vm_compute in state_of (ran 500 (UpdateDraft (run_update 500 400 401)) pd3) pd3.
Definition pd5 : PolicyDb := Eval vm_compute in state_of (ran 600 (Publish (run_select 600 400 401)) pd4) pd4.
Definition pd6 : PolicyDb := Eval vm_compute in state_of (ran 700 (CreateDraft (run_draft 700)) pd5) pd5.
Definition pd7 : PolicyDb := Eval vm_compute in state_of (ran 800 (Retire (run_select 800 400 401)) pd6) pd6.

Lemma ran_step n q db db' : is_ok (ran n q db) = true → state_of (ran n q db) db = db' → policy_step db db'.
Proof.
  intros Hok <-. destruct (state_of_Ok (ran n q db) db Hok) as [r Hr]. by eapply (step_command _ bd4).
Qed.

Lemma policy_reached_3 : policy_reachable pd3.
Proof.
  eapply rtc_l.
  { destruct (state_of_Ok (create_unit (run_policy_inputs 310) run_unit no_policies) no_policies) as [r Hr]; [vm_compute; reflexivity|].
    eapply step_unit. exact Hr. }
  eapply (rtc_l _ _ pd2).
  { replace (state_of _ _) with pd1 by (vm_compute; reflexivity). change pd2 with (with_units (pb_units pd2) (pb_unit_events pd1) pd1).
    apply step_units. intros u Hu. repeat (apply elem_of_cons in Hu as [->|Hu]; [vm_compute; reflexivity|]). by apply elem_of_nil in Hu. }
  eapply rtc_l; [apply (ran_step 400 (CreateDraft (run_draft 400)) pd2 pd3); vm_compute; reflexivity|].
  apply rtc_refl.
Qed.

Lemma policy_run_4 : policy_reachable pd4.
Proof.
  eapply rtc_r; [exact policy_reached_3|].
  apply (ran_step 500 (UpdateDraft (run_update 500 400 401)) pd3 pd4); vm_compute; reflexivity.
Qed.

Lemma policy_run_5 : policy_step pd4 pd5.
Proof. apply (ran_step 600 (Publish (run_select 600 400 401)) pd4 pd5); vm_compute; reflexivity. Qed.
Lemma policy_run_6 : policy_step pd5 pd6.
Proof. apply (ran_step 700 (CreateDraft (run_draft 700)) pd5 pd6); vm_compute; reflexivity. Qed.
Lemma policy_run_7 : policy_step pd6 pd7.
Proof. apply (ran_step 800 (Retire (run_select 800 400 401)) pd6 pd7); vm_compute; reflexivity. Qed.

Lemma policy_reached_5 : policy_reachable pd5.
Proof. eapply rtc_r; [exact policy_run_4|exact policy_run_5]. Qed.
Lemma policy_reached_6 : policy_reachable pd6.
Proof. eapply rtc_r; [exact policy_reached_5|exact policy_run_6]. Qed.

(** The published terms, and the state of the run's end *)
Example policy_run_terms :
  get_frozen_rule (pb_tables pd5) (rid 100) (rid 401) = get_frozen_rule (pb_tables pd7) (rid 100) (rid 401) ∧
  is_ok (get_frozen_rule (pb_tables pd7) (rid 100) (rid 401)) = true ∧
  map cp_status (pb_policies pd7) = [policy_retired] ∧ map pv_status (versions_of pd7) = [retired; draft].
Proof. split_and!; vm_compute; reflexivity. Qed.

(** After the retirement the project cannot draft another policy, nor touch its draft. *)
Example policy_run_stranded :
  ran 900 (CreateDraft (run_draft 900)) pd7 = Raise conflict ∧
  ran 900 (UpdateDraft (run_update 900 400 701)) pd7 = Raise not_found ∧
  ran 900 (Publish (run_select 900 400 701)) pd7 = Raise not_found.
Proof. split_and!; vm_compute; reflexivity. Qed.

(** ** The theorems on the run *)

Lemma policy_life_cycle_witness :
  policy_reachable pd6 ∧ ∃ p v, p ∈ pb_policies pd6 ∧ v ∈ versions_of pd6 ∧ owns p v ∧ pv_status v = published.
Proof.
  split; [exact policy_reached_6|]. destruct (policy_life_cycle pd6 policy_reached_6) as (_ & _ & _ & H & _).
  destruct (H _ (list_elem_of_here _ _)) as (v & Hv & Ho & Hs & _); [vm_compute; reflexivity|].
  eexists _, v. split; [apply list_elem_of_here|]. split; [exact Hv|]. split; [exact Ho|exact Hs].
Defined.

Lemma published_terms_frozen_witness :
  ∃ v rule, v ∈ versions_of pd5 ∧ get_frozen_rule (pb_tables pd5) (rid 100) (rid 401) = Ok rule ∧
            get_frozen_rule (pb_tables pd7) (rid 100) (rid 401) = Ok rule.
Proof.
  destruct (List.find (λ v, pv_id v =? rid 401) (versions_of pd5)) as [v|] eqn:E; [|vm_compute in E; discriminate].
  pose proof (find_Some_elem _ _ _ E) as [Hv _].
  assert (pv_status v = published ∧ pv_project_id v = rid 100 ∧ pv_id v = rid 401) as (Es & Ep & Ei).
  { vm_compute in E. injection E as <-. split_and!; vm_compute; reflexivity. }
  destruct (published_terms_frozen pd5 v policy_reached_5 Hv) as (rule & H1 & _ & H2); [by rewrite Es|].
  exists v, rule. rewrite Ep, Ei in H1, H2. split; [exact Hv|]. split; [exact H1|]. apply H2.
  eapply rtc_l; [exact policy_run_6|]. eapply rtc_l; [exact policy_run_7|]. apply rtc_refl.
Defined.

(** The outcome of a call of the run *)
Lemma ran_Ok n q db db' : is_ok (ran n q db) = true → state_of (ran n q db) db = db' → ∃ r, ran n q db = Ok (r, db').
Proof. intros Hok <-. exact (state_of_Ok (ran n q db) db Hok). Qed.

(** and of a call in general *)
Lemma call_Ok {R} (f : PolicyDb → result PolicyExn (R * PolicyDb)) db db' :
  is_ok (f db) = true → state_of (f db) db = db' → ∃ r, f db = Ok (r, db').
Proof. intros Hok <-. exact (state_of_Ok (f db) db Hok). Qed.

Lemma run_retired : ∃ r, retire (run_policy_inputs 800) (run_select 800 400 401) pd6 = Ok (r, pd7).
Proof. apply call_Ok; vm_compute; reflexivity. Qed.
Lemma run_updated : ∃ r, update_draft bd4 (run_policy_inputs 500) (run_update 500 400 401) pd3 = Ok (r, pd4).
Proof. apply call_Ok; vm_compute; reflexivity. Qed.
Lemma run_published : ∃ r, publish bd4 (run_policy_inputs 600) (run_select 600 400 401) pd4 = Ok (r, pd5).
Proof. apply call_Ok; vm_compute; reflexivity. Qed.

Lemma policy_replay_witness :
  ∃ r, ran 600 (Publish (run_select 600 400 401)) pd4 = Ok (r, pd5) ∧
       ran 999 (Publish (run_select 600 400 401)) pd7 = Ok (r, pd7).
Proof.
  destruct (ran_Ok 600 (Publish (run_select 600 400 401)) pd4 pd5) as [r Hr]; [vm_compute; reflexivity..|].
  exists r. split; [exact Hr|].
  apply (policy_replay bd4 (run_policy_inputs 600) (Publish (run_select 600 400 401)) pd4 r pd5 pd7);
    [exact policy_run_4|exact Hr| |].
  - eapply rtc_l; [exact policy_run_6|]. eapply rtc_l; [exact policy_run_7|]. apply rtc_refl.
  - split_and!; [reflexivity..|]. intros. reflexivity.
Defined.

Lemma retire_strands_draft_witness :
  ∃ r v, retire (run_policy_inputs 800) (run_select 800 400 401) pd6 = Ok (r, pd7) ∧
         get_open_draft (rid 100) pd6 = Some v ∧ get_open_draft (rid 100) pd7 ≠ None.
Proof.
  destruct run_retired as [r Hr].
  destruct (get_open_draft (rid 100) pd6) as [v|] eqn:E; [|vm_compute in E; discriminate].
  exists r, v. split; [exact Hr|]. split; [reflexivity|].
  apply (retire_strands_draft (run_policy_inputs 800) (run_select 800 400 401) pd6 r pd7 v);
    [exact policy_reached_6|exact Hr|vm_compute; reflexivity|exact E|apply rtc_refl].
Defined.

Lemma saved_draft_complete_witness :
  ∃ r v graph ds, update_draft bd4 (run_policy_inputs 500) (run_update 500 400 401) pd3 = Ok (r, pd4) ∧
    lock_publication_graph (pv_id v) pd4 = Ok (graph, ds) ∧ require_complete_policy_graph v graph ds = Ok tt ∧
    length ds = 2%nat.
Proof.
  destruct run_updated as [r Hr].
  destruct (saved_draft_complete bd4 (run_policy_inputs 500) (run_update 500 400 401) pd3 r pd4)
    as (v & graph & ds & _ & _ & _ & H1 & H2 & _ & H3); [exact policy_reached_3|exact Hr|vm_compute; reflexivity|].
  exists r, v, graph, ds. split; [exact Hr|]. split; [exact H1|]. split; [exact H2|exact H3].
Defined.

Lemma publication_resources_witness :
  ∃ r p v, publish bd4 (run_policy_inputs 600) (run_select 600 400 401) pd4 = Ok (r, pd5) ∧
    p ∈ pb_policies pd5 ∧ v ∈ versions_of pd5 ∧ cp_current_published_version_id p = Some (pv_id v).
Proof.
  destruct run_published as [r Hr].
  destruct (publication_resources bd4 (run_policy_inputs 600) (run_select 600 400 401) pd4 r pd5)
    as (p & v & H1 & H2 & _ & _ & _ & _ & H3 & _); [exact policy_run_4|exact bindings_reached|exact Hr|vm_compute; reflexivity|].
  exists r, p, v. split; [exact Hr|]. split; [exact H1|]. split; [exact H2|exact H3].
Defined.

(** Two ways to write a graph: the digests of the run's graph and of its rows in another order *)
Definition run_graph : list RuleGraph :=
  Eval vm_compute in match lock_publication_graph (rid 401) pd5 with Ok g => g.1 | Raise _ => [] end.

Lemma uuid_ok_rid n : 0 ≤ n < 2 ^ 60 → uuid_ok (rid n).
Proof. unfold uuid_ok, rid. lia. Qed.

Lemma graph_digest_binds_witness :
  ∃ h ids ids', publication_graph_facts run_graph = Some (h, ids) ∧
    publication_graph_facts (rev run_graph) = Some (h, ids') ∧
    ((Forall2 same_rule (sorted_on (λ r : RuleGraph, rule_key r.1) run_graph)
        (sorted_on (λ r : RuleGraph, rule_key r.1) (rev run_graph)) ∧ ∀ u, u ∈ ids ↔ u ∈ ids') ∨
     json_collision (graph_json run_graph) (graph_json (rev run_graph))).
Proof.
  eexists _, _, _. split; [vm_compute; reflexivity|]. split; [vm_compute; reflexivity|].
  assert (∀ r, r ∈ run_graph → stored_rule_wf r) as Hwf.
  { intros r Hr. repeat (apply elem_of_cons in Hr as [->|Hr]; [split; [unfold uuid_ok; vm_compute; split; [discriminate|reflexivity]|]|]);
      [..|by apply elem_of_nil in Hr]; intros d Hd; cbn in Hd;
      repeat (apply elem_of_cons in Hd as [->|Hd]; [repeat split; vm_compute; try discriminate; reflexivity|]);
      by apply elem_of_nil in Hd. }
  eapply graph_digest_binds; [exact Hwf| |vm_compute; reflexivity|vm_compute; reflexivity].
  intros r Hr. apply Hwf. by rewrite list_elem_of_In, <- in_rev, <- list_elem_of_In in Hr.
Defined.

Lemma policy_request_digest_binds_witness :
  ∃ h, policy_request_digest (UpdateDraft (run_update 500 400 401)) = Some h ∧
    (UpdateDraft (run_update 500 400 401) = UpdateDraft (run_update 500 400 401) ∨
     json_collision (operation_json (UpdateDraft (run_update 500 400 401)))
       (operation_json (UpdateDraft (run_update 500 400 401)))).
Proof.
  assert (request_wf (UpdateDraft (run_update 500 400 401))) as Hwf.
  { split; [unfold selectors_wf; split_and!; apply uuid_ok_rid; lia|]. intros r Hr d Hd. cbn in Hr.
    repeat (apply elem_of_cons in Hr as [->|Hr]); [..|by apply elem_of_nil in Hr]; cbn in Hd;
      repeat (apply elem_of_cons in Hd as [->|Hd]; [split_and!; [vm_compute; reflexivity..|apply uuid_ok_rid; lia]|]);
      by apply elem_of_nil in Hd. }
  eexists. split; [vm_compute; reflexivity|]. eapply policy_request_digest_binds; [exact Hwf|exact Hwf|vm_compute; reflexivity..].
Defined.

(** ** Reads *)

Lemma selections_exact_witness :
  policy_reachable pd6 ∧ ∃ s, read_current open_policy_authority (rid 1) (rid 100) pd6 = Ok s ∧
    sl_current_published_version_id s = Some (rid 401) ∧ sl_open_draft_version_id s = Some (rid 701).
Proof.
  split; [exact policy_reached_6|]. destruct (selections_exact pd6 (rid 100) policy_reached_6) as [H _].
  destruct (H open_policy_authority (rid 1)) as [H1 _]; [reflexivity|].
  destruct (H1 _ (list_elem_of_here _ _)) as (s & Hs & _); [vm_compute; reflexivity|discriminate|].
  exists s. split; [exact Hs|]. vm_compute in Hs. injection Hs as <-. split; vm_compute; reflexivity.
Defined.

(** The two versions, one per page *)
Lemma version_pages_complete_witness :
  ∃ rows, read_pages 3 (rid 100) None 1 pd6 =
            map (λ row, policy_version_list_item (pb_tables pd6) row.1 row.2) rows ∧ length rows = 2%nat.
Proof.
  destruct (version_pages_complete pd6 (rid 100) 1 3) as (rows & H & Hp & _); [exact policy_reached_6|lia|vm_compute; lia|].
  exists rows. split; [exact H|]. apply Permutation_length in Hp. rewrite length_map in Hp. rewrite Hp. reflexivity.
Defined.

Definition run_submitter : SubmitterParticipationRequest :=
  {| sp_acceptance_disposition := NEW; sp_project_id := rid 100; sp_task_id := rid 101;
     sp_submission_id := rid 102; sp_final_acceptance_id := rid 103; sp_task_assignment_id := rid 104;
     sp_contributor_id := rid 105; sp_contribution_policy_version_id := rid 401; sp_artifact_hash := run_hash;
     sp_correlation_id := rid 106; sp_expected_generation := 2 |}.

(** A submission that is accepted after the policy was retired *)
Definition run_paid :=
  participate_submitter (H := award_owner run_award_inputs) run_contribution_inputs
    (λ g, acquire root_session g lc2) (pb_tables pd7) run_submitter ∅ ∅.

Lemma run_paid_two : match run_paid with Ok x => (length (pr_awards x.1.1) =? 2)%nat | Raise _ => false end = true.
Proof. vm_compute. reflexivity. Qed.

Lemma shown_terms_are_paid_witness :
  ∃ t res c w, read_locked_compensation_terms (rid 100) [rid 401; rid 701] (pb_tables pd5) = Ok [t] ∧
    run_paid = Ok (res, c, w) ∧ length (pr_awards res) = 2%nat ∧
    paid_as_shown (pr_awards res) (lt_accepted_submission t).
Proof.
  destruct (shown_terms_are_paid pd5 (rid 100) [rid 401; rid 701]) as (ts & Hts & _ & Hpaid);
    [exact policy_reached_5|vm_compute; reflexivity|].
  pose proof run_paid_two as Htwo. destruct run_paid as [[[res c] w]|] eqn:E; [|discriminate Htwo].
  destruct ts as [|t [|? ?]]; [vm_compute in Hts; discriminate Hts| |vm_compute in Hts; discriminate Hts].
  exists t, res, c, w. split; [exact Hts|]. split; [reflexivity|]. split.
  - apply Nat.eqb_eq, Htwo.
  - apply (Hpaid t pd7 _ (award_owner run_award_inputs) run_contribution_inputs
      (λ g, acquire root_session g lc2) run_submitter ∅ ∅ res c w).
    + apply list_elem_of_here.
    + eapply rtc_l; [exact policy_run_6|]. eapply rtc_l; [exact policy_run_7|]. apply rtc_refl.
    + reflexivity.
    + vm_compute in Hts. injection Hts as <-. reflexivity.
    + exact E.
Defined.
