(* ===== verification/ExportCursor.v ===== *)
(** * Cursors of contribution exports (modules/contributions/records/pagination.py)

    A cursor names a retained snapshot, an offset and an expiry, is bound to the digest of the
    query, and is signed: canonical JSON of a payload with its HMAC, in base64url without padding.
    The texts of Python's UTF-16 and UTF-32 codecs, which [json.loads] tries on other bytes, and
    the year texts of [strftime] below 1000, which depend on the C library, are arguments.  The
    main result: what [decode] accepts is exactly what [encode] produced. *)

From S2P Require Import Prelude Text Digest Json Instant Lifecycle Awards Contributions PolicyApi.

(** ** Base64url without padding *)

Definition b64_char (v : Z) : Z :=
  if v <? 26 then 65 + v else if v <? 52 then 71 + v else if v <? 62 then v - 4
  else if v =? 62 then 45 else 95.

Definition b64_value (c : Z) : option Z :=
  if is_upper c then Some (c - 65) else if is_lower c then Some (c - 71)
  else if is_digit c then Some (c + 4) else if c =? 45 then Some 62
  else if c =? 95 then Some 63 else None.

(** [base64.urlsafe_b64encode] *)
Fixpoint urlsafe_b64encode (b : bytes) : str :=
  match b with
  | [] => []
  | [x] => [b64_char (x / 4); b64_char (x mod 4 * 16); 61; 61]
  | [x; y] => [b64_char (x / 4); b64_char (x mod 4 * 16 + y / 16); b64_char (y mod 16 * 4); 61]
  | x :: y :: z :: r =>
      b64_char (x / 4) :: b64_char (x mod 4 * 16 + y / 16) ::
      b64_char (y mod 16 * 4 + z / 64) :: b64_char (z mod 64) :: urlsafe_b64encode r
  end.

Definition _encode (value : bytes) : str := rstrip_char 61 (urlsafe_b64encode value).

(** [base64.b64decode(s, altchars=b"-_", validate=True)]; bits left over in the last group are
    dropped *)
Fixpoint b64decode (s : str) : option bytes :=
  match s with
  | [] => Some []
  | a :: b :: c :: d :: r =>
      va ← b64_value a; vb ← b64_value b;
      match r with
      | [] =>
          if d =? 61 then
            if c =? 61 then Some [va * 4 + vb / 16]
            else vc ← b64_value c; Some [va * 4 + vb / 16; vb mod 16 * 16 + vc / 4]
          else vc ← b64_value c; vd ← b64_value d;
               Some [va * 4 + vb / 16; vb mod 16 * 16 + vc / 4; vc mod 4 * 64 + vd]
      | _ :: _ =>
          vc ← b64_value c; vd ← b64_value d; rest ← b64decode r;
          Some (va * 4 + vb / 16 :: vb mod 16 * 16 + vc / 4 :: vc mod 4 * 64 + vd :: rest)
      end
  | _ => None
  end.

Inductive CursorExn := InvalidContributionCursor | CursorValueError.

Definition _MAX_CURSOR_BYTES : Z := 512.
Definition MAX_EXPORT_MEMBERS : Z := 100000.

(** [_BASE64URL.fullmatch] needs one character at least *)
Definition _decode (value : str) : result CursorExn bytes :=
  _ ← ensure (negb (str_eqb value []) && (len value <=? _MAX_CURSOR_BYTES)
              && forallb (λ c, bool_decide (is_Some (b64_value c))) value) InvalidContributionCursor;
  result ← oget (b64decode (value ++ replicate (Z.to_nat (- len value mod 4)) 61))
             InvalidContributionCursor;
  _ ← ensure (str_eqb (_encode result) value) InvalidContributionCursor;
  Ok result.

(** ** Text of the bytes *)

(** [bytes.decode("utf-8", "surrogatepass")]: a surrogate has three octets like its neighbours;
    overlong forms and values above the last code point are refused. *)
Definition utf8_char_pass (c : Z) : option bytes :=
  if surrogate c then Some [0xE0 + c / 4096; 0x80 + (c / 64) mod 64; 0x80 + c mod 64]
  else utf8_char c.

Fixpoint utf8_decode_fuel (fuel : nat) (b : bytes) : option str :=
  match fuel, b with
  | _, [] => Some []
  | O, _ :: _ => None
  | S f, _ :: _ =>
      ch ← utf8_head b;
      let '(c, r) := ch in
      octets ← utf8_char_pass c;
      if code_point c && bool_decide (b = octets ++ r)
      then s ← utf8_decode_fuel f r; Some (c :: s) else None
  end.

Definition utf8_decode (b : bytes) : option str := utf8_decode_fuel (length b) b.

Inductive Codec := utf_8 | utf_8_sig | utf_16 | utf_32 | utf_16_be | utf_16_le | utf_32_be | utf_32_le.

(** [json.detect_encoding] *)
Definition detect_encoding (b : bytes) : Codec :=
  if starts_with [0; 0; 0xFE; 0xFF] b || starts_with [0xFF; 0xFE; 0; 0] b then utf_32
  else if starts_with [0xFE; 0xFF] b || starts_with [0xFF; 0xFE] b then utf_16
  else if starts_with [0xEF; 0xBB; 0xBF] b then utf_8_sig
  else match b with
       | b0 :: b1 :: b2 :: b3 :: _ =>
           if b0 =? 0 then if b1 =? 0 then utf_32_be else utf_16_be
           else if b1 =? 0 then if (b2 =? 0) && (b3 =? 0) then utf_32_le else utf_16_le
           else utf_8
       | [b0; b1] => if b0 =? 0 then utf_16_be else if b1 =? 0 then utf_16_le else utf_8
       | _ => utf_8
       end.

(** ** The payload *)

(** [_unique_pairs] *)
Fixpoint _unique_pairs_into (value pairs : list (str * json)) : option (list (str * json)) :=
  match pairs with
  | [] => Some value
  | (key, item) :: pairs' =>
      if str_in key (map fst value) then None else _unique_pairs_into (value ++ [(key, item)]) pairs'
  end.
Definition _unique_pairs : pairs_hook := _unique_pairs_into [].

Definition _canonical_json (v : json) : option bytes := utf8_encode (dumps v).

(** [set(d) == ks] *)
Definition keys_are (ks : list str) (d : list (str * json)) : bool :=
  forallb (λ k, str_in k ks) (map fst d) && forallb (λ k, str_in k (map fst d)) ks.

(** [UUID(s)] and the comparison of [str] of it with [s]: of the spellings [UUID] accepts only
    the one [str] prints passes, so this layout alone is read. *)
Definition exact_uuid (s : str) : option uuid :=
  let hex := List.filter (λ c, negb (c =? 45)) s in
  if forallb is_hex_digit hex && (len hex =? 32) then
    let u := fold_left (λ a d, 16 * a + unhex_digit d) hex 0 in
    if str_eqb (uuid_text u) s then Some u else None
  else None.

Record ContributionCursorPosition := {
  cp_snapshot_id : uuid;
  cp_next_offset : Z;
  cp_expires_at : instant;
}.

Section Codec.
Context (early_year : Z → str) (other_codec : Codec → bytes → option str) (secret : bytes).

(** [_timestamp]: [strftime("%Y-%m-%dT%H:%M:%S.%fZ")] of a UTC time *)
Definition _timestamp (t : instant) : str :=
  let '(y, mo, d, h, mi, s, f) := civil t in
  (if y <? 1000 then early_year y else pad_dec 4 y) ++ 45 :: pad_dec 2 mo ++ 45 :: pad_dec 2 d ++ 84 ::
  pad_dec 2 h ++ 58 :: pad_dec 2 mi ++ 58 :: pad_dec 2 s ++ 46 :: pad_dec 6 f ++ [90].

(** [strptime] and the comparison of the printed time with the text: a text in another layout
    than the printed one fails the comparison, so this layout alone is read. *)
Definition exact_expiry (s : str) : option instant :=
  if (len s =? 27) && str_eqb (drop 26 s) [90] then
    t ← fromisoformat (take 26 s ++ lit "+00:00");
    if str_eqb (_timestamp t) s then Some t else None
  else None.

Definition decode_text (b : bytes) : option str :=
  match detect_encoding b with
  | utf_8 => utf8_decode b
  | utf_8_sig => utf8_decode (drop 3 b)
  | e => other_codec e b
  end.

Definition payload_of (query_digest : str) (p : ContributionCursorPosition) : list (str * json) :=
  [kv "v" (JInt 1); kv "q" (JStr query_digest); kv "id" (json_uuid (cp_snapshot_id p));
   kv "o" (JInt (cp_next_offset p)); kv "e" (JStr (_timestamp (cp_expires_at p)))].

Definition cursor_envelope (payload : list (str * json)) (signature : bytes) : json :=
  JObj [kv "p" (JObj payload); kv "s" (JStr (_encode signature))].

Definition encode (query_digest : str) (p : ContributionCursorPosition) : result CursorExn str :=
  _ ← ensure (digest_pattern query_digest && (1 <=? cp_next_offset p)
              && (cp_next_offset p <? MAX_EXPORT_MEMBERS)) CursorValueError;
  let payload := payload_of query_digest p in
  body ← oget (_canonical_json (JObj payload)) CursorValueError;
  envelope ← oget (_canonical_json (cursor_envelope payload (hmac_sha256 secret body))) CursorValueError;
  Ok (_encode envelope).

Definition payload_fields (payload : list (str * json)) (signature_text : json)
    : option (str * str * Z * str * str) :=
  match dict_get (lit "v") payload, dict_get (lit "q") payload, dict_get (lit "id") payload,
        dict_get (lit "o") payload, dict_get (lit "e") payload, signature_text with
  | Some (JInt v), Some (JStr q), Some (JStr id), Some (JInt o), Some (JStr e), JStr s =>
      if (v =? 1) && digest_pattern q && (1 <=? o) && (o <? MAX_EXPORT_MEMBERS)
      then Some (q, id, o, e, s) else None
  | _, _, _, _, _, _ => None
  end.

(** Every failure inside the [try] is [InvalidContributionCursor]. *)
Definition decode (value query_digest : str) : result CursorExn ContributionCursorPosition :=
  let invalid := InvalidContributionCursor in
  decoded ← _decode value;
  _ ← ensure (len decoded <=? _MAX_CURSOR_BYTES) invalid;
  text ← oget (decode_text decoded) invalid;
  envelope ← oget (loads_with _unique_pairs text) invalid;
  kvs ← match envelope with
        | JObj kvs => _ ← ensure (keys_are [lit "p"; lit "s"] kvs) invalid; Ok kvs
        | _ => Raise invalid
        end;
  ps ← oget (p ← dict_get (lit "p") kvs; s ← dict_get (lit "s") kvs; Some (p, s)) invalid;
  payload ← match ps.1 with
            | JObj d => _ ← ensure (keys_are (map lit ["v"; "q"; "id"; "o"; "e"]%string) d) invalid; Ok d
            | _ => Raise invalid
            end;
  fields ← oget (payload_fields payload ps.2) invalid;
  let '(q, id, o, e, s) := fields in
  signature ← _decode s;
  _ ← ensure (len signature =? 32) invalid;
  body ← oget (_canonical_json (JObj payload)) invalid;
  _ ← ensure (bool_decide (signature = hmac_sha256 secret body) && str_eqb q query_digest) invalid;
  snapshot_id ← oget (exact_uuid id) invalid;
  expires_at ← oget (exact_expiry e) invalid;
  canonical ← oget (_canonical_json envelope) invalid;
  _ ← ensure (bool_decide (canonical = decoded)) invalid;
  Ok {| cp_snapshot_id := snapshot_id; cp_next_offset := o; cp_expires_at := expires_at |}.
End Codec.

(** ** Base64url is read back *)

Definition b64_ok (c : Z) : bool := bool_decide (is_Some (b64_value c)).

Lemma b64_value_char v : 0 ≤ v < 64 → b64_value (b64_char v) = Some v.
Proof.
  intros Hv. unfold b64_char.
  destruct (Z.ltb_spec v 26); [|destruct (Z.ltb_spec v 52); [|destruct (Z.ltb_spec v 62); [|destruct (Z.eqb_spec v 62)]]];
    unfold b64_value, is_upper, is_lower, is_digit; repeat case_match; try (f_equal; lia); lia.
Qed.

Lemma b64_char_ok v : 0 ≤ v < 64 → b64_ok (b64_char v) = true.
Proof. intros H. unfold b64_ok. rewrite b64_value_char by done. by apply bool_decide_eq_true_2. Qed.

(** Induction over groups of three octets *)
Lemma triples_ind (P : bytes → Prop) :
  P [] → (∀ x, P [x]) → (∀ x y, P [x; y]) → (∀ x y z r, P r → P (x :: y :: z :: r)) → ∀ b, P b.
Proof.
  intros H0 H1 H2 H3. fix go 1. intros [|x [|y [|z r]]]; [done|apply H1|apply H2|]. apply H3, go.
Qed.

(** The characters of the three octets of a group *)
Lemma group_range x y z :
  is_byte x = true → is_byte y = true → is_byte z = true →
  (0 ≤ x / 4 < 64 ∧ 0 ≤ x mod 4 * 16 < 64 ∧ 0 ≤ x mod 4 * 16 + y / 16 < 64 ∧ 0 ≤ y mod 16 * 4 < 64 ∧
   0 ≤ y mod 16 * 4 + z / 64 < 64 ∧ 0 ≤ z mod 64 < 64) ∧
  x / 4 * 4 + x mod 4 * 16 / 16 = x ∧ x / 4 * 4 + (x mod 4 * 16 + y / 16) / 16 = x ∧
  (x mod 4 * 16 + y / 16) mod 16 * 16 + y mod 16 * 4 / 4 = y ∧
  (x mod 4 * 16 + y / 16) mod 16 * 16 + (y mod 16 * 4 + z / 64) / 4 = y ∧
  (y mod 16 * 4 + z / 64) mod 4 * 64 + z mod 64 = z.
Proof. unfold is_byte. intros. split_and!; Z.to_euclidean_division_equations; lia. Qed.

Lemma b64_char_pad v : 0 ≤ v < 64 → (b64_char v =? 61) = false.
Proof.
  intros H. apply Z.eqb_neq. intros E. apply b64_value_char in H. by rewrite E in H.
Qed.

Lemma b64decode_encode b : forallb is_byte b = true → b64decode (urlsafe_b64encode b) = Some b.
Proof.
  induction b as [|x|x y|x y z r IH] using triples_ind; cbn [forallb]; rewrite ?andb_true_iff; [done| | |].
  - intros [Hx _]. destruct (group_range x 0 0 Hx eq_refl eq_refl) as ((?&?&_) & E & _).
    cbn [urlsafe_b64encode b64decode]. rewrite !b64_value_char by done. cbn [mbind option_bind]. rewrite E. done.
  - intros (Hx & Hy & _). destruct (group_range x y 0 Hx Hy eq_refl) as ((?&_&?&?&_) & _ & E1 & E2 & _).
    cbn [urlsafe_b64encode b64decode]. rewrite b64_char_pad, !b64_value_char by done.
    cbn [mbind option_bind]. rewrite E1, E2. done.
  - intros (Hx & Hy & Hz & Hr). specialize (IH Hr).
    destruct (group_range x y z Hx Hy Hz) as ((?&_&?&_&?&?) & _ & E1 & _ & E2 & E3).
    cbn [urlsafe_b64encode b64decode]. rewrite !b64_value_char by done. cbn [mbind option_bind].
    rewrite b64_char_pad, E1, E2, E3 by done.
    destruct (urlsafe_b64encode r) as [|c l] eqn:E; [|by rewrite IH].
    by destruct r as [|? [|? [|]]].
Qed.

Lemma b64_shape b : forallb is_byte b = true → ∃ t k,
  urlsafe_b64encode b = t ++ replicate k 61 ∧ forallb b64_ok t = true ∧
  k = Z.to_nat (- len t mod 4) ∧ 3 * len t ≤ 4 * len b + 4 ∧ len b ≤ len t.
Proof.
  unfold len. induction b as [|x|x y|x y z r IH] using triples_ind; cbn [forallb]; rewrite ?andb_true_iff.
  - intros _. by exists [], 0%nat.
  - intros [Hx _]. destruct (group_range x 0 0 Hx eq_refl eq_refl) as ((?&?&_) & _).
    exists [b64_char (x / 4); b64_char (x mod 4 * 16)], 2%nat. cbn [forallb]. by rewrite !b64_char_ok by done.
  - intros (Hx & Hy & _). destruct (group_range x y 0 Hx Hy eq_refl) as ((?&_&?&?&_) & _).
    exists [b64_char (x / 4); b64_char (x mod 4 * 16 + y / 16); b64_char (y mod 16 * 4)], 1%nat. cbn [forallb].
    by rewrite !b64_char_ok by done.
  - intros (Hx & Hy & Hz & Hr). destruct (IH Hr) as (t & k & E & Ht & Hk & Hl & Hb).
    destruct (group_range x y z Hx Hy Hz) as ((?&_&?&_&?&?) & _).
    eexists (_ :: _ :: _ :: _ :: t), k. cbn [urlsafe_b64encode].
    split; [rewrite E; reflexivity|]. cbn [forallb]. rewrite !b64_char_ok by done.
    split_and!; [done| | |].
    + rewrite Hk. f_equal. cbn [length]. rewrite !Nat2Z.inj_succ. Z.to_euclidean_division_equations; lia.
    + cbn [length]. lia.
    + cbn [length]. lia.
Qed.

Lemma rstrip_pad t k : forallb b64_ok t = true → rstrip_char 61 (t ++ replicate k 61) = t.
Proof.
  intros Ht. apply rstrip_char_spec. intros [t' ->]. rewrite forallb_app in Ht. by apply andb_prop in Ht as [_ ?].
Qed.

Lemma decode_segment b :
  forallb is_byte b = true → b ≠ [] → 4 * len b + 4 ≤ 3 * _MAX_CURSOR_BYTES → _decode (_encode b) = Ok b.
Proof.
  intros Hb Hne Hlen. destruct (b64_shape b Hb) as (t & k & E & Ht & Hk & Hl & Hl').
  assert (_encode b = t) as Ee by (unfold _encode; by rewrite E, rstrip_pad).
  unfold _decode. rewrite Ee. change (λ c, bool_decide (is_Some (b64_value c))) with b64_ok.
  rewrite Ht, <- Hk, <- E, b64decode_encode by done.
  replace (len t <=? _MAX_CURSOR_BYTES) with true by (unfold _MAX_CURSOR_BYTES in *; lia).
  unfold str_eqb. rewrite (bool_decide_eq_false_2 (t = [])); [run|].
  - by rewrite Ee, bool_decide_eq_true_2.
  - intros ->. destruct b; [done|]. unfold len in Hl'. cbn [length] in Hl'. lia.
Qed.

Lemma decode_segment_Ok v b : _decode v = Ok b → _encode b = v.
Proof.
  unfold _decode. intros [_ (r & _ & H)%result_bind_Ok]%ensure_bind_Ok.
  apply ensure_bind_Ok in H as [H%bool_decide_eq_true_1 E]. by apply Ok_inj in E as <-.
Qed.

(** ** Objects without repeated keys *)

Lemma unique_pairs_into_Some value pairs d :
  NoDup (map fst value) → _unique_pairs_into value pairs = Some d →
  d = value ++ pairs ∧ NoDup (map fst d).
Proof.
  revert value. induction pairs as [|[k v] pairs IH]; intros value Hn; cbn [_unique_pairs_into].
  - intros [= <-]. by rewrite app_nil_r.
  - unfold str_in. destruct (existsb _ _) eqn:E; [done|]. intros H.
    apply IH in H as [-> H]; [by rewrite <- app_assoc in *|]. rewrite map_app. apply NoDup_app. split_and!; [done| |by apply NoDup_singleton].
    cbn. intros k' Hk' ->%list_elem_of_singleton. apply not_true_iff_false in E. apply E, existsb_exists. exists k.
    split; [by apply list_elem_of_In|]. by apply bool_decide_eq_true_2.
Qed.

Lemma unique_pairs_Some pairs d : _unique_pairs pairs = Some d → d = pairs ∧ NoDup (map fst pairs).
Proof. intros H. apply unique_pairs_into_Some in H as [-> H]; [done|constructor]. Qed.

Lemma unique_pairs_NoDup pairs : NoDup (map fst pairs) → _unique_pairs pairs = Some pairs.
Proof.
  unfold _unique_pairs. rewrite <- (app_nil_l pairs) at 1 3. generalize (@nil (str * json)).
  induction pairs as [|[k v] pairs IH]; intros value; cbn [_unique_pairs_into]; [by rewrite app_nil_r|].
  intros H. unfold str_in. destruct (existsb _ _) eqn:E.
  - exfalso. apply existsb_exists in E as (k' & Hk' & <-%bool_decide_eq_true_1).
    rewrite map_app in H. apply NoDup_app in H as (_ & H & _). apply (H k); [by apply list_elem_of_In|left].
  - replace (value ++ (k, v) :: pairs) with ((value ++ [(k, v)]) ++ pairs) in * by by rewrite <- app_assoc.
    by apply IH.
Qed.

Fixpoint keys_unique_in (v : json) : Prop :=
  match v with
  | JArr l => foldr (λ x P, keys_unique_in x ∧ P) True l
  | JObj d => NoDup (map fst d) ∧ foldr (λ kv P, keys_unique_in kv.2 ∧ P) True d
  | _ => True
  end.

Lemma keys_unique_parse f :
  (∀ s v r, parse_value _unique_pairs f s = Some (v, r) → keys_unique_in v) ∧
  (∀ s d r, parse_members _unique_pairs f s = Some (d, r) → foldr (λ kv P, keys_unique_in kv.2 ∧ P) True d) ∧
  (∀ s l r, parse_elements _unique_pairs f s = Some (l, r) → foldr (λ x P, keys_unique_in x ∧ P) True l).
Proof.
  induction f as [|f (IHv & IHm & IHe)]; [done|]. split_and!; intros s v r; cbn [parse_value parse_members parse_elements].
  - assert (∀ s v r, scan_number s = Some (v, r) → keys_unique_in v) as Hnum.
    { intros s' v' r'. unfold scan_number. intros H. repeat case_match; naive_solver. }
    intros H. repeat case_match; simplify_eq; cbn; try done; eauto.
    all: match goal with H : _unique_pairs _ = Some _ |- _ => apply unique_pairs_Some in H as [-> ?] end; split; cbn; eauto.
  - intros H. repeat case_match; simplify_eq; cbn; eauto.
  - intros H. repeat case_match; simplify_eq; cbn; eauto.
Qed.

Lemma keys_unique_loads s v : loads_with _unique_pairs s = Some v → keys_unique_in v.
Proof.
  unfold loads_with. intros H. repeat case_match; simplify_eq. eapply keys_unique_parse; eauto.
Qed.

Lemma dict_get_elem {A} k (v : A) d : dict_get k d = Some v → (k, v) ∈ d.
Proof.
  induction d as [|[k' v'] d IH]; [done|]. cbn. unfold str_eqb.
  destruct (bool_decide_reflect (k = k')) as [->|]; [intros [= ->]; left|right; auto].
Qed.

Lemma keys_unique_get d k v :
  foldr (λ kv P, keys_unique_in kv.2 ∧ P) True d → dict_get k d = Some v → keys_unique_in v.
Proof.
  induction d as [|[k' v'] d IH]; [done|]. cbn. intros [Hv Hd].
  destruct (str_eqb k k'); [by intros [= ->]|auto].
Qed.

(** A dict with these keys is a permutation of its items in this order. *)
Lemma keys_are_Permutation ks d f :
  NoDup ks → NoDup (map fst d) → keys_are ks d = true → (∀ k, k ∈ ks → dict_get k d = Some (f k)) →
  d ≡ₚ map (λ k, (k, f k)) ks.
Proof.
  unfold keys_are. intros Hk Hd [H1 _]%andb_prop Hg. rewrite forallb_forall in H1. apply NoDup_Permutation.
  - by apply (NoDup_fmap_1 fst).
  - apply (NoDup_fmap_1 fst). change (fst <$> map (λ k, (k, f k)) ks) with (map fst (map (λ k, (k, f k)) ks)).
    by rewrite map_map, map_id.
  - intros [k v]. rewrite list_elem_of_fmap. split.
    + intros Hkv. exists k. assert (k ∈ ks) as Hin.
      { specialize (H1 k). assert (In k (map fst d)) as H by (apply in_map_iff; exists (k, v); split; [done|by apply list_elem_of_In]).
        apply H1, existsb_exists in H as (k' & H & <-%bool_decide_eq_true_1). by apply list_elem_of_In. }
      split; [|done]. apply Hg, dict_get_elem in Hin. by apply (keys_unique d).
    + intros (k' & [= -> ->] & Hin). by apply dict_get_elem, Hg.
Qed.

(** ** Identifiers and times *)

Lemma fold_hex_app a h1 h2 :
  fold_left (λ a d, 16 * a + unhex_digit d) (h1 ++ h2) a =
  fold_left (λ a d, 16 * a + unhex_digit d) h2 (fold_left (λ a d, 16 * a + unhex_digit d) h1 a).
Proof. apply fold_left_app. Qed.

Lemma to_bytes_be_value k n : 0 ≤ n < 256 ^ Z.of_nat k →
  fold_left (λ a d, 16 * a + unhex_digit d) (hex_bytes (to_bytes_be k n)) 0 = n.
Proof.
  assert (∀ b a, forallb is_byte b = true → fold_left (λ a d, 16 * a + unhex_digit d) (hex_bytes b) a
    = fold_left (λ a x, 256 * a + x) b a) as Hfold.
  { induction b as [|x b IH]; intros a; [done|]. cbn [forallb hex_bytes fold_left]. intros [Hx Hb]%andb_prop.
    rewrite IH by done. f_equal. unfold is_byte in Hx. unfold unhex_digit, hex_digit.
    repeat case_match; Z.to_euclidean_division_equations; lia. }
  intros Hn. rewrite Hfold by apply to_bytes_be_bytes. revert n Hn. induction k as [|k IH]; intros n Hn; [cbn in *; lia|].
  cbn [to_bytes_be]. rewrite fold_left_app, IH; [cbn; Z.to_euclidean_division_equations; lia|].
  rewrite Nat2Z.inj_succ, Z.pow_succ_r in Hn by lia. Z.to_euclidean_division_equations; lia.
Qed.

Lemma uuid_text_hex u : List.filter (λ c, negb (c =? 45)) (uuid_text u) = hex_bytes (to_bytes_be 16 u).
Proof.
  pose proof (hex_bytes_digits _ (to_bytes_be_bytes 16 u)) as Hd. pose proof (hex_bytes_length (to_bytes_be 16 u)) as Hl.
  rewrite to_bytes_be_length in Hl. unfold uuid_text. revert Hd Hl. generalize (hex_bytes (to_bytes_be 16 u)) as h.
  intros h Hd Hl. assert (∀ l, forallb is_hex_digit l = true → List.filter (λ c, negb (c =? 45)) l = l) as Hf.
  { induction l as [|c l IH]; [done|]. cbn. intros [Hc H]%andb_prop. unfold is_hex_digit, is_digit in Hc.
    replace (c =? 45) with false by lia. cbn. by rewrite IH. }
  assert (∀ n, forallb is_hex_digit (take n h) = true ∧ forallb is_hex_digit (drop n h) = true) as Hp.
  { intros n. rewrite <- (take_drop n h), forallb_app in Hd. by apply andb_prop in Hd. }
  assert (∀ m n, forallb is_hex_digit (take m (drop n h)) = true) as Hq.
  { intros m n. destruct (Hp n) as [_ H]. rewrite <- (take_drop m (drop n h)), forallb_app in H. by apply andb_prop in H as [? _]. }
  repeat (rewrite List.filter_app || (cbn [List.filter]; change (negb (45 =? 45)) with false; cbv iota)).
  rewrite !Hf by (apply Hp || apply Hq). do 32 (destruct h as [|? h]; [done|]). by destruct h.
Qed.

Lemma exact_uuid_text u : uuid_ok u → exact_uuid (uuid_text u) = Some u.
Proof.
  intros Hu. unfold exact_uuid. rewrite uuid_text_hex, hex_bytes_digits by apply to_bytes_be_bytes.
  unfold len. rewrite hex_bytes_length, to_bytes_be_length. cbn [andb Z.eqb].
  rewrite to_bytes_be_value by exact Hu. change (_ =? 32) with true. cbv iota. by rewrite str_eqb_refl.
Qed.

Lemma hex_value_range h a :
  forallb is_hex_digit h = true → 0 ≤ a →
  0 ≤ fold_left (λ a d, 16 * a + unhex_digit d) h a < (a + 1) * 16 ^ len h.
Proof.
  revert a. induction h as [|d h IH]; intros a; cbn [forallb fold_left]; [change (16 ^ len []) with 1; lia|]. intros [Hd Hh]%andb_prop Ha.
  assert (0 ≤ unhex_digit d < 16) as Hv by (unfold is_hex_digit, is_digit, unhex_digit in *; destruct (Z.ltb_spec d 58); lia).
  specialize (IH (16 * a + unhex_digit d) Hh ltac:(lia)). unfold len in *. cbn [length].
  rewrite Nat2Z.inj_succ, Z.pow_succ_r by lia. assert (0 < 16 ^ Z.of_nat (length h)) by (apply Z.pow_pos_nonneg; lia). nia.
Qed.

Lemma exact_uuid_Some s u : exact_uuid s = Some u → uuid_text u = s ∧ uuid_ok u.
Proof.
  unfold exact_uuid. destruct (_ && _) eqn:E; [|done]. apply andb_prop in E as [Hh Hl%Z.eqb_eq].
  unfold str_eqb. destruct (bool_decide_reflect (uuid_text (fold_left (λ a d, 16 * a + unhex_digit d)
    (List.filter (λ c, negb (c =? 45)) s) 0) = s)) as [Et|]; [|done]. intros [= <-]. split; [done|].
  pose proof (hex_value_range _ 0 Hh ltac:(lia)) as H. rewrite Hl in H. exact H.
Qed.

Section Times.
Context (early_year : Z → str).

(** A time whose year [strftime] prints in four digits: any year from 1000 on, and an earlier one
    where the platform pads it. *)
Definition dated (t : instant) : bool :=
  let '(y, _, _, _, _, _, _) := civil t in
  instant_ok t && ((1000 <=? y) || str_eqb (early_year y) (pad_dec 4 y)).

Lemma dated_year t y mo d h mi s f :
  civil t = (y, mo, d, h, mi, s, f) → dated t = true →
  instant_ok t = true ∧ (if y <? 1000 then early_year y else pad_dec 4 y) = pad_dec 4 y.
Proof.
  unfold dated. intros -> [Ht Hy]%andb_prop. split; [done|]. destruct (Z.ltb_spec y 1000) as [Hlt|]; [|done].
  apply orb_prop in Hy as [Hy|Hy]; [lia|]. unfold str_eqb in Hy. by apply bool_decide_eq_true in Hy.
Qed.

Lemma exact_expiry_text t : dated t = true → exact_expiry early_year (_timestamp early_year t) = Some t.
Proof.
  intros Hl. assert (len (_timestamp early_year t) = 27 ∧ drop 26 (_timestamp early_year t) = [90] ∧
    fromisoformat (take 26 (_timestamp early_year t) ++ lit "+00:00") = Some t) as (H1 & H2 & H3).
  { unfold _timestamp. destruct (civil t) as [[[[[[y mo] d] h] mi] s] f] eqn:E.
    destruct (dated_year _ _ _ _ _ _ _ _ E Hl) as [Ht ->]. pose proof (civil_spec _ _ _ _ _ _ _ _ Ht E) as [Hr <-].
    split_and!; [done..|].
    cbn [pad_dec app take].
    pose proof (pad_dec_value 4 y ltac:(simpl; lia)) as Ey. pose proof (pad_dec_value 2 mo ltac:(simpl; lia)) as Emo.
    pose proof (pad_dec_value 2 d ltac:(simpl; lia)) as Ed. pose proof (pad_dec_value 2 h ltac:(simpl; lia)) as Eh.
    pose proof (pad_dec_value 2 mi ltac:(simpl; lia)) as Emi. pose proof (pad_dec_value 2 s ltac:(simpl; lia)) as Es.
    pose proof (pad_dec_value 6 f ltac:(simpl; lia)) as Ef.
    cbn [pad_dec app] in Ey, Emo, Ed, Eh, Emi, Es, Ef. unfold fromisoformat.
    cbn [forallb]. rewrite !is_digit_mod, !Z.eqb_refl. cbn [andb].
    replace (str_eqb (46 :: _) (lit "+00:00")) with false by reflexivity.
    replace (str_eqb (lit _) (lit _)) with true by reflexivity.
    rewrite Ey, Emo, Ed, Eh, Emi, Es, Ef.
    done. }
  unfold exact_expiry. rewrite H1, H2, H3, str_eqb_refl. change (27 =? 27) with true.
  cbn [andb mbind option_bind]. by rewrite str_eqb_refl.
Qed.

Lemma exact_expiry_Some s t : exact_expiry early_year s = Some t → _timestamp early_year t = s ∧ instant_ok t = true.
Proof.
  unfold exact_expiry. destruct (_ && _); [|done]. destruct (fromisoformat _) as [t'|] eqn:E; [|done]. cbn [mbind option_bind].
  unfold str_eqb. destruct (bool_decide_reflect (_timestamp early_year t' = s)) as [Et|]; [|done]. intros [= <-].
  split; [done|]. by eapply fromisoformat_range.
Qed.
End Times.

(** ** A cursor is short ASCII text *)

(** Characters that are printed as they are *)
Definition plain_char (c : Z) : bool := (32 <=? c) && (c <? 128) && negb (c =? 34) && negb (c =? 92).

Lemma dump_plain s : forallb plain_char s = true → dump_str s = 34 :: s ++ [34].
Proof.
  intros H. unfold dump_str. do 2 f_equal. induction s as [|c s IH]; [done|].
  cbn in H |- *. apply andb_prop in H as [Hc H]. rewrite IH by done. unfold esc_char, plain_char in *.
  repeat case_match; (done || lia).
Qed.

Lemma join_length l : (length (join 44 l) ≤ sum_list (map (λ s, S (length s)) l))%nat.
Proof.
  induction l as [|x [|y l] IH]; [done|cbn; lia|]. rewrite join_cons2, length_app.
  change (sum_list _) with (S (length x) + sum_list (map (λ s, S (length s)) (y :: l)))%nat. cbn [length]. lia.
Qed.

Lemma dumps_object_length d :
  (length (dumps (JObj d)) ≤ 2 + sum_list (map (λ kv, length (dump_str kv.1) + length (dumps kv.2) + 2) d))%nat.
Proof.
  cbn [dumps]. rewrite members_text_eq. cbn [length]. rewrite length_app. cbn [length].
  pose proof (join_length (map member_of (sort_kvs d))) as H. rewrite map_map in H.
  assert (sum_list (map (λ kv, S (length (member_of kv))) (sort_kvs d))
    = sum_list (map (λ kv, length (dump_str kv.1) + length (dumps kv.2) + 2) d))%nat as E; [|lia].
  rewrite (Permutation_map _ (sort_kvs_Permutation d)). f_equal. apply map_ext. intros kv.
  unfold member_of, member_text. cbn [fst snd]. rewrite length_app. cbn [length]. lia.
Qed.

Definition ascii (c : Z) : bool := (0 <=? c) && (c <? 128).

Lemma plain_ascii s : forallb plain_char s = true → forallb ascii s = true.
Proof. rewrite !forallb_forall. intros H c Hc%H. unfold plain_char, ascii in *. lia. Qed.

Lemma plain_of (Q : Z → bool) s :
  (∀ c, Q c = true → plain_char c = true) → forallb Q s = true → forallb plain_char s = true.
Proof. rewrite !forallb_forall. auto. Qed.

Lemma hex_plain c : is_hex_digit c = true → plain_char c = true.
Proof. unfold is_hex_digit, is_digit, plain_char. lia. Qed.

Lemma b64_plain c : b64_ok c = true → plain_char c = true.
Proof.
  unfold b64_ok, b64_value. intros [v Hv]%bool_decide_eq_true_1. unfold is_upper, is_lower, is_digit, plain_char in *.
  repeat case_match; simplify_eq; lia.
Qed.

Lemma pad_plain k n : forallb plain_char (pad_dec k n) = true.
Proof. eapply plain_of, pad_dec_digits. unfold is_digit, plain_char. lia. Qed.

Lemma uuid_text_plain u : forallb plain_char (uuid_text u) = true ∧ length (uuid_text u) = 36%nat.
Proof.
  pose proof (hex_bytes_digits _ (to_bytes_be_bytes 16 u)) as Hd. apply (plain_of _ _ hex_plain) in Hd.
  pose proof (hex_bytes_length (to_bytes_be 16 u)) as Hl. rewrite to_bytes_be_length in Hl. unfold uuid_text.
  revert Hd Hl. generalize (hex_bytes (to_bytes_be 16 u)) as h. intros h Hd Hl.
  do 32 (destruct h as [|? h]; [done|]). destruct h; [|done]. split; [|done]. cbn in Hd |- *. rewrite !andb_true_iff in *. tauto.
Qed.

Lemma digest_plain q : digest_pattern q = true → forallb plain_char q = true ∧ length q = 71%nat.
Proof.
  unfold digest_pattern. rewrite !andb_true_iff. intros [[H1%starts_with_take H2] H3]. unfold len in H3.
  split; [|lia]. rewrite <- (take_drop 7 q). change (length (lit "sha256:")) with 7%nat in H1. rewrite H1, forallb_app.
  apply (plain_of _ _ hex_plain) in H2. by rewrite H2.
Qed.

Lemma segment_plain b : forallb is_byte b = true →
  forallb plain_char (_encode b) = true ∧ 3 * len (_encode b) ≤ 4 * len b + 4.
Proof.
  intros Hb. destruct (b64_shape b Hb) as (t & k & E & Ht & _ & Hl & _). unfold _encode. rewrite E, rstrip_pad by done.
  split; [|done]. by eapply plain_of, Ht; apply b64_plain.
Qed.

Lemma timestamp_plain early_year t : dated early_year t = true →
  forallb plain_char (_timestamp early_year t) = true ∧ length (_timestamp early_year t) = 27%nat.
Proof.
  intros Hd. unfold _timestamp. destruct (civil t) as [[[[[[y mo] d] h] mi] s] f] eqn:E.
  destruct (dated_year _ _ _ _ _ _ _ _ _ E Hd) as [_ ->]. split; [|done]. repeat (rewrite forallb_app || cbn [forallb]).
  rewrite !pad_plain. done.
Qed.

Lemma canonical_ascii v : json_chars ascii v = true → _canonical_json v = Some (dumps v) ∧ forallb ascii (dumps v) = true.
Proof.
  intros Hv. assert (forallb ascii (dumps v) = true) as H.
  { apply dumps_chars; [..|done]; intros c; unfold ascii; lia. }
  split; [|done]. apply utf8_encode_ascii. rewrite forallb_forall in H. apply Forall_forall.
  intros c Hc%list_elem_of_In%H. unfold ascii in Hc. lia.
Qed.

Lemma utf8_decode_ascii s : forallb ascii s = true → utf8_decode s = Some s.
Proof.
  unfold utf8_decode. induction s as [|c s IH]; [done|]. cbn [forallb length utf8_decode_fuel]. intros [Hc Hs]%andb_prop.
  unfold ascii in Hc. unfold utf8_head. replace (c <? 128) with true by lia. cbn [mbind option_bind].
  unfold utf8_char_pass, surrogate, utf8_char. replace (0xD800 <=? c) with false by lia. replace (c <? 128) with true by lia.
  cbn [andb mbind option_bind app]. rewrite bool_decide_eq_true_2 by done. unfold code_point.
  replace ((0 <=? c) && (c <? 0x110000)) with true by lia. cbn [andb]. by rewrite IH.
Qed.

Lemma detect_object r : detect_encoding (123 :: 34 :: r) = utf_8.
Proof. by destruct r as [|? [|]]. Qed.

Lemma dumps_object_head d : d ≠ [] → ∃ r, dumps (JObj d) = 123 :: 34 :: r.
Proof.
  intros Hd. cbn [dumps]. rewrite members_text_eq. destruct (sort_kvs d) as [|x l] eqn:E; [by apply sort_kvs_nil in E|].
  destruct l; cbn [map]; [|rewrite join_cons2]; by eexists.
Qed.

(** Objects with the same items print the same. *)
Lemma dumps_object_Permutation a b : NoDup (map fst a) → a ≡ₚ b → dumps (JObj a) = dumps (JObj b).
Proof.
  intros Hn Hp. cbn [dumps]. rewrite !members_text_eq. by rewrite (sort_kvs_unique a b).
Qed.

Lemma dumps_object_values a b : map_snd dumps a = map_snd dumps b → dumps (JObj a) = dumps (JObj b).
Proof. unfold map_snd. intros E. cbn [dumps]. by rewrite E. Qed.

(** ** Cursors are exact *)

Section Exact.
Context (early_year : Z → str) (other_codec : Codec → bytes → option str) (secret : bytes).

Definition position_ok (p : ContributionCursorPosition) : Prop :=
  uuid_ok (cp_snapshot_id p) ∧ instant_ok (cp_expires_at p) = true.

Lemma encode_Ok q p v : encode early_year secret q p = Ok v ↔
  digest_pattern q = true ∧ 1 ≤ cp_next_offset p < MAX_EXPORT_MEMBERS ∧
  ∃ body envelope, _canonical_json (JObj (payload_of early_year q p)) = Some body ∧
    _canonical_json (cursor_envelope (payload_of early_year q p) (hmac_sha256 secret body)) = Some envelope ∧
    v = _encode envelope.
Proof.
  unfold encode. cbv zeta. split.
  - intros [H (body & Hb%oget_Ok & (env & He%oget_Ok & [= <-])%result_bind_Ok)%result_bind_Ok]%ensure_bind_Ok.
    rewrite !andb_true_iff in H. split_and!; [tauto|lia|lia|]. by exists body, env.
  - intros (-> & Ho & body & env & -> & E & ->). replace (1 <=? cp_next_offset p) with true by lia.
    replace (cp_next_offset p <? MAX_EXPORT_MEMBERS) with true by lia. run. by rewrite E.
Qed.

(** What a decoded cursor was *)
Lemma decode_encode v q p :
  decode early_year other_codec secret v q = Ok p → encode early_year secret q p = Ok v ∧ position_ok p.
Proof.
  unfold decode. cbv zeta. intros (decoded & Hv%decode_segment_Ok & H)%result_bind_Ok.
  apply ensure_bind_Ok in H as [_ H]. apply result_bind_Ok in H as (text & _ & H).
  apply result_bind_Ok in H as (env & Hl%oget_Ok%keys_unique_loads & H).
  apply result_bind_Ok in H as (kvs & Hk & H). destruct env as [| | | | |kvs']; try done.
  apply ensure_bind_Ok in Hk as [Hk [= ->]%Ok_inj]. destruct Hl as [Hnd Hin].
  apply result_bind_Ok in H as ([pv sv] & Hps%oget_Ok & H). cbn [fst snd] in H.
  destruct (dict_get (lit "p") kvs) as [pv'|] eqn:Ep; [|done].
  destruct (dict_get (lit "s") kvs) as [sv'|] eqn:Es; [|done]. injection Hps as -> ->.
  apply result_bind_Ok in H as (d & Hd & H). destruct pv as [| | | | |d']; try done.
  apply ensure_bind_Ok in Hd as [Hd [= ->]%Ok_inj].
  apply (keys_unique_get _ _ _ Hin) in Ep as Hpu. destruct Hpu as [Hdn _].
  apply result_bind_Ok in H as ([[[[q' id] o] e] s] & Hf%oget_Ok & H). unfold payload_fields in Hf.
  destruct (dict_get (lit "v") d) as [[]|] eqn:G1; try done.
  destruct (dict_get (lit "q") d) as [[]|] eqn:G2; try done.
  destruct (dict_get (lit "id") d) as [[]|] eqn:G3; try done.
  destruct (dict_get (lit "o") d) as [[]|] eqn:G4; try done.
  destruct (dict_get (lit "e") d) as [[]|] eqn:G5; try done. destruct sv; try done.
  destruct (_ && _) eqn:Ec in Hf; [|done]. injection Hf as -> -> -> -> ->.
  rewrite !andb_true_iff in Ec. destruct Ec as [[[->%Z.eqb_eq Hq] Ho1] Ho2].
  apply result_bind_Ok in H as (sig & Hs%decode_segment_Ok & H). apply ensure_bind_Ok in H as [_ H].
  apply result_bind_Ok in H as (body & Hb%oget_Ok & H).
  apply ensure_bind_Ok in H as [[->%bool_decide_eq_true_1 ->%bool_decide_eq_true_1]%andb_prop H].
  apply result_bind_Ok in H as (u & [Hu Huok]%oget_Ok%exact_uuid_Some & H).
  apply result_bind_Ok in H as (t & [Ht Htok]%oget_Ok%exact_expiry_Some & H).
  apply result_bind_Ok in H as (c & Hc%oget_Ok & H). apply ensure_bind_Ok in H as [->%bool_decide_eq_true_1 [= <-]].
  split; [|done]. apply encode_Ok. cbn [cp_next_offset]. split_and!; [done|lia|lia|].
  set (p := {| cp_snapshot_id := u; cp_next_offset := o; cp_expires_at := t |}).
  assert (d ≡ₚ payload_of early_year q p) as Hperm.
  { unfold payload_of, json_uuid. cbn [cp_snapshot_id cp_next_offset cp_expires_at p]. rewrite Hu, Ht.
    pose (f k := default JNull (dict_get k d)).
    rewrite (keys_are_Permutation (map lit ["v"; "q"; "id"; "o"; "e"]%string) d f); [|by apply (bool_decide_eq_true_1 (NoDup _))|done|done|].
    - unfold f. cbn [map]. rewrite G1, G2, G3, G4, G5. done.
    - unfold f. intros k. cbn [map]. rewrite !elem_of_cons. intros [->|[->|[->|[->|[->|[]%elem_of_nil]]]]].
      all: by rewrite ?G1, ?G2, ?G3, ?G4, ?G5. }
  assert (kvs ≡ₚ [kv "p" (JObj d); kv "s" (JStr s)]) as Hperm'.
  { pose (f k := default JNull (dict_get k kvs)).
    rewrite (keys_are_Permutation [lit "p"; lit "s"] kvs f); [|by apply (bool_decide_eq_true_1 (NoDup _))|done|done|].
    - unfold f. cbn [map]. rewrite Ep, Es. done.
    - unfold f. intros k. rewrite !elem_of_cons. intros [->|[->|[]%elem_of_nil]].
      all: by rewrite ?Ep, ?Es. }
  exists body, decoded. unfold _canonical_json, cursor_envelope in *.
  rewrite <- (dumps_object_Permutation d) by done. split_and!; [done| |done].
  rewrite <- Hc, (dumps_object_Permutation kvs _ Hnd Hperm'), Hs. f_equal. apply dumps_object_values. cbn [map_snd map kv fst snd].
  by rewrite (dumps_object_Permutation d _ Hdn Hperm).
Qed.
Lemma str_int_length n k : 1 ≤ n < 10 ^ Z.of_nat k → (length (str_int n) ≤ k)%nat.
Proof.
  intros Hn. unfold str_int. replace (n <? 0) with false by lia.
  destruct (dec_nonneg_shape n ltac:(lia)) as (Hd & d & ds & E & Hz & _). rewrite E in *.
  pose proof (digits_value_lower d ds Hd (Hz ltac:(lia))) as H. rewrite <- E, dec_nonneg_value in H by lia.
  cbn [length]. unfold len in H. enough (Z.of_nat (length ds) < Z.of_nat k) by lia.
  apply (Z.pow_lt_mono_r_iff 10); lia.
Qed.

(** The texts of a cursor are plain and short. *)
Lemma cursor_text q p b :
  digest_pattern q = true → 1 ≤ cp_next_offset p < MAX_EXPORT_MEMBERS → dated early_year (cp_expires_at p) = true →
  forallb is_byte b = true → length b = 32%nat →
  json_chars ascii (JObj (payload_of early_year q p)) = true ∧
  json_chars ascii (cursor_envelope (payload_of early_year q p) b) = true ∧
  json_wf (cursor_envelope (payload_of early_year q p) b) = true ∧
  (length (dumps (cursor_envelope (payload_of early_year q p) b)) ≤ 300)%nat.
Proof.
  intros Hq Ho Ht Hb Hl. apply digest_plain in Hq as [Q1 Q2]. apply (timestamp_plain early_year) in Ht as [T1 T2].
  destruct (uuid_text_plain (cp_snapshot_id p)) as [U1 U2]. destruct (segment_plain b Hb) as [S1 S2].
  pose proof (plain_ascii _ Q1) as Q3. pose proof (plain_ascii _ T1) as T3. pose proof (plain_ascii _ U1) as U3.
  pose proof (plain_ascii _ S1) as S3.
  assert (∀ s, forallb ascii s = true → is_str s = true) as Hstr.
  { unfold is_str. intros s. rewrite !forallb_forall. intros H c Hc%H. unfold ascii, code_point in *. lia. }
  assert (json_chars ascii (JObj (payload_of early_year q p)) = true) as Hp.
  { unfold payload_of, json_uuid, kv. cbn [json_chars forallb fst snd]. by rewrite Q3, T3, U3. }
  split_and!; [done| | |].
  - unfold cursor_envelope, kv. cbn [json_chars forallb fst snd] in *. by rewrite Hp, S3.
  - unfold cursor_envelope, payload_of, json_uuid, kv. cbn [json_wf forallb fst snd]. by rewrite !Hstr.
  - pose proof (str_int_length (cp_next_offset p) 5 ltac:(exact Ho)) as Lo.
    pose proof (dumps_object_length (payload_of early_year q p)) as L. unfold payload_of at 2 in L. unfold json_uuid in L.
    pose proof (dumps_object_length [kv "p" (JObj (payload_of early_year q p)); kv "s" (JStr (_encode b))]) as L'.
    unfold cursor_envelope, sum_list, id in *. cbn [map kv fst snd sum_list_with] in L, L'. unfold id in L, L'.
    change (dumps (JInt 1)) with [49] in L. change (dumps (JInt (cp_next_offset p))) with (str_int (cp_next_offset p)) in L.
    repeat match goal with H : context [dumps (JStr ?s)] |- _ => change (dumps (JStr s)) with (dump_str s) in H end.
    assert (∀ s, forallb plain_char s = true → length (dump_str s) = length s + 2)%nat as Hd.
    { intros s Hs. rewrite dump_plain by done. cbn [length]. rewrite length_app. cbn [length]. lia. }
    rewrite (Hd q), (Hd (uuid_text _)), (Hd (_timestamp _ _)) in L by done. rewrite (Hd (_encode _)) in L' by done.
    repeat match goal with
           | H : context [length (dump_str (lit ?k))] |- _ =>
               let n := eval vm_compute in (length (dump_str (lit k))) in change (length (dump_str (lit k))) with n in H
           end.
    change (length [49]) with 1%nat in L.
    rewrite Q2, T2, U2 in L. unfold len in S2. rewrite Hl in S2. lia.
Qed.
(** The payload and the envelope as they are read back, with their keys in order *)
Definition sorted_payload (q id e : str) (o : Z) : list (str * json) :=
  [kv "e" (JStr e); kv "id" (JStr id); kv "o" (JInt o); kv "q" (JStr q); kv "v" (JInt 1)].

Lemma canon_payload q p :
  canon (JObj (payload_of early_year q p)) = JObj (sorted_payload q (uuid_text (cp_snapshot_id p))
    (_timestamp early_year (cp_expires_at p)) (cp_next_offset p)).
Proof.
  unfold payload_of, json_uuid. generalize (uuid_text (cp_snapshot_id p)), (_timestamp early_year (cp_expires_at p)). done.
Qed.

Lemma canon_envelope q p b :
  canon (cursor_envelope (payload_of early_year q p) b) =
  JObj [kv "p" (canon (JObj (payload_of early_year q p))); kv "s" (JStr (_encode b))].
Proof. unfold cursor_envelope. generalize (JObj (payload_of early_year q p)), (_encode b). done. Qed.

Lemma sorted_payload_fields q id e o s :
  digest_pattern q = true → 1 ≤ o < MAX_EXPORT_MEMBERS →
  keys_are (map lit ["v"; "q"; "id"; "o"; "e"]%string) (sorted_payload q id e o) = true ∧
  payload_fields (sorted_payload q id e o) (JStr s) = Some (q, id, o, e, s).
Proof.
  intros Hq Ho. split; [done|]. unfold payload_fields.
  change (dict_get (lit "v") _) with (Some (JInt 1)). change (dict_get (lit "q") _) with (Some (JStr q)).
  change (dict_get (lit "id") _) with (Some (JStr id)). change (dict_get (lit "o") _) with (Some (JInt o)).
  change (dict_get (lit "e") _) with (Some (JStr e)). cbv iota. rewrite Hq.
  replace (1 <=? o) with true by lia. by replace (o <? MAX_EXPORT_MEMBERS) with true by lia.
Qed.

Lemma envelope_items p s :
  keys_are [lit "p"; lit "s"] [kv "p" p; kv "s" s] = true ∧
  (a ← dict_get (lit "p") [kv "p" p; kv "s" s]; b ← dict_get (lit "s") [kv "p" p; kv "s" s]; Some (a, b)) = Some (p, s).
Proof. done. Qed.

Lemma encode_decode q p v :
  encode early_year secret q p = Ok v → uuid_ok (cp_snapshot_id p) → dated early_year (cp_expires_at p) = true →
  decode early_year other_codec secret v q = Ok p.
Proof.
  intros (Hq & Ho & body & text & Hb & He & ->)%encode_Ok Hu Hl.
  assert (forallb is_byte (hmac_sha256 secret body) = true) as Hsb by apply sha256_bytes.
  assert (length (hmac_sha256 secret body) = 32%nat) as Hsl by apply sha256_length.
  remember (hmac_sha256 secret body) as sig eqn:Hsig.
  destruct (cursor_text q p sig Hq Ho Hl Hsb Hsl) as (Ha & Hae & Hwf & Hlen).
  destruct (dumps_object_head [kv "p" (JObj (payload_of early_year q p)); kv "s" (JStr (_encode sig))]) as [r Hr]; [done|].
  change (JObj [_; _]) with (cursor_envelope (payload_of early_year q p) sig) in Hr.
  pose proof (canon_envelope q p sig) as Ec. rewrite (canon_payload q p) in Ec. pose proof (canon_payload q p) as Ep.
  remember (cursor_envelope (payload_of early_year q p) sig) as env eqn:Eenv. clear Eenv.
  remember (JObj (payload_of early_year q p)) as payload eqn:Epl. clear Epl.
  pose proof (exact_uuid_text _ Hu) as Eu. pose proof (exact_expiry_text early_year _ Hl) as Et.
  revert Ec Ep Eu Et. generalize (uuid_text (cp_snapshot_id p)) as id, (_timestamp early_year (cp_expires_at p)) as e.
  intros id e Ec Ep Eu Et.
  destruct (canonical_ascii _ Ha) as [Hb' _]. destruct (canonical_ascii _ Hae) as [He' Hasc].
  rewrite Hb' in Hb. apply Some_inj in Hb. rewrite He' in He. apply Some_inj in He. subst text.
  assert (_canonical_json (canon env) = Some (dumps env)) as Ecan by (unfold _canonical_json; by rewrite dumps_canon).
  assert (_canonical_json (canon payload) = Some body) as Epay by (unfold _canonical_json; by rewrite dumps_canon, <- Hb).
  assert (_decode (_encode (dumps env)) = Ok (dumps env)) as Hd.
  { apply decode_segment.
    - revert Hasc. rewrite !forallb_forall. intros H c Hc%H. unfold ascii, is_byte in *. lia.
    - intros E. by rewrite E in Hr.
    - unfold _MAX_CURSOR_BYTES, len. lia. }
  unfold decode. cbv zeta. rewrite Hd. run.
  replace (len (dumps env) <=? _MAX_CURSOR_BYTES) with true by (unfold _MAX_CURSOR_BYTES, len; lia). run.
  assert (decode_text other_codec (dumps env) = Some (dumps env)) as ->.
  { unfold decode_text. rewrite Hr at 1. rewrite detect_object. by apply utf8_decode_ascii. }
  run. rewrite (read_back_with _unique_pairs unique_pairs_NoDup) by done. run. rewrite Ecan, Ec. rewrite Ep in Epay.
  destruct (sorted_payload_fields q id e (cp_next_offset p) (_encode sig) Hq Ho) as [Ek Ef].
  destruct (envelope_items (JObj (sorted_payload q id e (cp_next_offset p))) (JStr (_encode sig))) as [-> Eps]. run. rewrite Eps. run. rewrite Ek. run. rewrite Ef. run.
  rewrite decode_segment; [|done|by destruct sig|unfold _MAX_CURSOR_BYTES, len; lia]. run.
  unfold len at 1. rewrite Hsl. change (Z.of_nat 32 =? 32) with true. run. rewrite Epay. run.
  rewrite (bool_decide_eq_true_2 (sig = _)), str_eqb_refl by done. run. rewrite Eu. run. rewrite Et. run. rewrite bool_decide_eq_true_2 by done. run. by destruct p.
Qed.
Lemma encode_total q p :
  digest_pattern q = true → 1 ≤ cp_next_offset p < MAX_EXPORT_MEMBERS → dated early_year (cp_expires_at p) = true →
  ∃ v, encode early_year secret q p = Ok v.
Proof.
  intros Hq Ho Hl. set (body := dumps (JObj (payload_of early_year q p))).
  destruct (cursor_text q p (hmac_sha256 secret body) Hq Ho Hl (sha256_bytes _) (sha256_length _)) as (Ha & Hae & _).
  eexists. apply encode_Ok. split_and!; [done|lia|lia|]. apply canonical_ascii in Ha as [Ha _], Hae as [Hae _].
  eexists _, _. split_and!; [exact Ha|exact Hae|done].
Qed.
End Exact.

(** C10. A cursor says exactly what was signed.  For any secret, the texts that [decode] accepts for
    a query are the ones [encode] produces for that query: an accepted text is, character by
    character, the encoding of the position it is decoded to, with the HMAC under the secret over
    that query's digest, snapshot, offset and expiry; and the encoding of a position is accepted and
    gives the position back, when its snapshot id is a UUID and its expiry a [datetime] whose year
    [strftime] prints in four digits: every year from 1000 on, and an earlier one where the
    platform pads it ([%Y] of the C library may print fewer digits there).  So no other spelling of a cursor, and no cursor of another query,
    is accepted. *)
Theorem cursor_exact early_year other_codec secret q v :
  (∀ p, decode early_year other_codec secret v q = Ok p →
     encode early_year secret q p = Ok v ∧ position_ok p) ∧
  (∀ p, encode early_year secret q p = Ok v → position_ok p → dated early_year (cp_expires_at p) = true →
     decode early_year other_codec secret v q = Ok p).
Proof. split; [apply decode_encode|]. intros p H [Hu _] Hl. by apply encode_decode. Qed.
