(* ===== verification/ExportStore.v ===== *)
(** * Contribution exports: snapshots and pages
    (modules/contributions/api/records.py, records/models.py, records/read_facts.py,
    records/read_repository.py, records/pagination.py)

    An export selects contributions by filters, retains the identities of a selection that needs
    more than one page for an hour, and hands out signed cursors into it.  The tables are the
    contributions, the policy tables and the retained snapshots.  Clock readings, the identity of
    a new snapshot, rows that other transactions hold locked, a slot that a concurrent
    transaction took, and the remaining conditions of the schema are arguments. *)

From stdpp Require Import sorting.
From S2P Require Import Prelude Text Digest Json Instant Lifecycle Awards Contributions Rows ExportCursor.

(** ** Requests *)

Inductive Audience := audience_self | audience_project.
Inductive OutputFormat := output_json | output_csv.

Definition MAX_EXPORT_CONTRIBUTIONS : Z := 1000.

(** Times are normalised to UTC when the request is built. *)
Record ContributionReadRequest := {
  rq_audience : Audience;
  rq_actor_profile_id : uuid;
  rq_project_id : option uuid;
  rq_output_format : OutputFormat;
  rq_contribution_type : option ContributionType;
  rq_recorded_from : option instant;
  rq_recorded_before : option instant;
  rq_limit : Z;
  rq_cursor : option str;
}.

Definition read_request_valid (q : ContributionReadRequest) : bool :=
  (1 <=? rq_limit q) && (rq_limit q <=? MAX_EXPORT_CONTRIBUTIONS)
  && match rq_audience q, rq_project_id q with audience_project, None => false | _, _ => true end
  && match rq_recorded_from q, rq_recorded_before q with
     | Some a, Some b => negb (b <=? a)
     | _, _ => true
     end.

(** ** The digest of a query *)

(** [model_dump(mode="json")] of a UTC time *)
Definition json_utc (t : instant) : json :=
  let s := isoformat t in JStr (take (length s - 6) s ++ lit "Z").

Definition export_type_text (k : ContributionType) : str :=
  match k with accepted_submission => lit "accepted_submission" | completed_review => lit "completed_review" end.

Definition read_request_json (q : ContributionReadRequest) : json :=
  JObj [kv "audience" (JStr match rq_audience q with
                            | audience_self => lit "self" | audience_project => lit "project"
                            end);
        kv "actor_profile_id" (json_uuid (rq_actor_profile_id q));
        kv "project_id" (json_opt json_uuid (rq_project_id q));
        kv "output_format" (JStr match rq_output_format q with
                                 | output_json => lit "json" | output_csv => lit "csv"
                                 end);
        kv "contribution_type" (json_opt (λ k, JStr (export_type_text k)) (rq_contribution_type q));
        kv "recorded_from" (json_opt json_utc (rq_recorded_from q));
        kv "recorded_before" (json_opt json_utc (rq_recorded_before q));
        kv "limit" (JInt (rq_limit q))].

Inductive ExportExn :=
| ContributionExportUnavailable
| ContributionExportTooLarge
| ExportInvalidCursor
| ContributionExportAtCapacity (retry_after : Z)
| ContributionReadDenied
| ExportValueError             (** [ValidationError], [ValueError], [TypeError] *)
| ExportDatabaseError.

Definition contribution_export_query_digest (q : ContributionReadRequest) : result ExportExn str :=
  _ ← ensure (read_request_valid q) ExportValueError;
  oget (canonical_json_hash (JObj [kv "contribution_export" (read_request_json q);
                                   kv "order" (JStr (lit "recorded_at_uuid_asc"))])) ExportValueError.

(** ** Facts of a page *)

Record FrozenContributionAward := {
  fz_id : uuid;
  fz_instrument : CompensationInstrumentType;
  fz_unit : str;
  fz_quantity : Decimal;
}.

(** [recorded_at] is the time of the row *)
Record ContributionReadFacts := {
  rf_row : ContributionRecord;
  rf_policy_version_number : Z;
  rf_compensation_mode : CompensationMode;
  rf_award_definitions : list FrozenContributionAward;
}.

(** [exclusive_source] of [ContributionRecordInput] *)
Definition source_exclusive (c : ContributionRecord) : bool :=
  let reviewer := bool_decide (cb_contribution_type c = completed_review) in
  Bool.eqb (some (cb_source_review_id c)) reviewer && Bool.eqb (some (cb_source_review_lease_id c)) reviewer
  && Bool.eqb (some (cb_source_final_acceptance_id c)) (negb reviewer)
  && Bool.eqb (some (cb_source_task_assignment_id c)) (negb reviewer).

Definition validate_frozen_set (mode : CompensationMode) (ds : list FrozenContributionAward) : bool :=
  let count := length ds in
  bool_decide (NoDup (map fz_id ds)) && bool_decide (NoDup (map fz_instrument ds))
  && match mode with
     | UNPAID => (count =? 0)%nat
     | COMPENSATED => (1 <=? count)%nat && (count <=? 2)%nat
     end.

Definition read_facts_valid (f : ContributionReadFacts) : bool :=
  digest_pattern (cb_artifact_hash (rf_row f)) && source_exclusive (rf_row f)
  && (0 <? rf_policy_version_number f) && (length (rf_award_definitions f) <=? 2)%nat
  && forallb (λ d, 0 <? dc_units (fz_quantity d)) (rf_award_definitions f)
  && validate_frozen_set (rf_compensation_mode f) (rf_award_definitions f).

Record ContributionReadPage := {
  pg_records : list ContributionReadFacts;
  pg_next_cursor : option str;
}.

(** ** Snapshots *)

Record ContributionExportSnapshot := {
  xs_id : uuid;
  xs_actor_profile_id : uuid;
  xs_allocation_slot : Z;
  xs_query_digest : str;
  xs_member_ids : list uuid;
  xs_created_at : instant;
  xs_expires_at : instant;
}.

Definition one_hour : Z := 3600 * us_per_second.
Definition _MAX_SLOTS : Z := 5.
Definition _PRUNE_BATCH : nat := 25.

(** The CHECK constraints of a row *)
Definition snapshot_checks (s : ContributionExportSnapshot) : bool :=
  uuid7_shape (xs_id s) && digest_pattern (xs_query_digest s)
  && (1 <=? xs_allocation_slot s) && (xs_allocation_slot s <=? 5)
  && (2 <=? len (xs_member_ids s)) && (len (xs_member_ids s) <=? 100000)
  && (xs_expires_at s =? xs_created_at s + one_hour).

Abbreviation Snapshots := (gmap Z ContributionExportSnapshot).

Record ExportDb := {
  xd_contributions : Contributions;
  xd_policies : PolicyTables;
  xd_snapshots : Snapshots;
}.

Definition set_snapshots (t : Snapshots) (db : ExportDb) : ExportDb :=
  {| xd_contributions := xd_contributions db; xd_policies := xd_policies db; xd_snapshots := t |}.

Definition snapshot_rows (t : Snapshots) : list ContributionExportSnapshot := map snd (map_to_list t).

Record ExportInputs := {
  xi_prune_now : instant;        (** [clock_timestamp()] of the pruning *)
  xi_now : instant;              (** [clock_timestamp()] of the allocation or the continuation *)
  xi_new_id : uuid;
  xi_locked : uuid → bool;       (** snapshots that other transactions hold locked *)
  xi_slot_taken : bool;          (** a row this transaction cannot see holds the slot *)
  xi_admits : Snapshots → Snapshots → bool;
}.

(** ** Pruning *)

Definition expires_before (a b : ContributionExportSnapshot) : Prop :=
  xs_expires_at a < xs_expires_at b ∨ (xs_expires_at a = xs_expires_at b ∧ xs_id a ≤ xs_id b).
#[export] Instance expires_before_dec a b : Decision (expires_before a b).
Proof. unfold expires_before. apply _. Defined.

Definition _delete_expired (i : ExportInputs) (limit : nat) (actor : option uuid) (now : instant)
    (t : Snapshots) : nat * Snapshots :=
  let expired s := (xs_expires_at s <=? now)
                   && match actor with Some a => xs_actor_profile_id s =? a | None => true end
                   && negb (xi_locked i (xs_id s)) in
  let ids := map xs_id (take limit (merge_sort expires_before (List.filter expired (snapshot_rows t)))) in
  (length ids, foldl (λ t id, delete id t) t ids).

Definition _prune_expired (i : ExportInputs) (actor : uuid) (t : Snapshots) : Snapshots :=
  let now := xi_prune_now i in
  let '(removed, t1) := _delete_expired i (Z.to_nat _MAX_SLOTS) (Some actor) now t in
  let remaining := (_PRUNE_BATCH - removed)%nat in
  if (remaining =? 0)%nat then t1 else (_delete_expired i remaining None now t1).2.

(** ** Selection *)

Definition _filtered (q : ContributionReadRequest) (c : ContributionRecord) : bool :=
  match rq_audience q with audience_self => cb_contributor_id c =? rq_actor_profile_id q | _ => true end
  && match rq_project_id q with Some p => cb_project_id c =? p | None => true end
  && match rq_contribution_type q with Some k => bool_decide (cb_contribution_type c = k) | None => true end
  && match rq_recorded_from q with Some t => t <=? cb_created_at c | None => true end
  && match rq_recorded_before q with Some t => cb_created_at c <? t | None => true end.

Definition recorded_before (a b : ContributionRecord) : Prop :=
  cb_created_at a < cb_created_at b ∨ (cb_created_at a = cb_created_at b ∧ cb_id a ≤ cb_id b).
#[export] Instance recorded_before_dec a b : Decision (recorded_before a b).
Proof. unfold recorded_before. apply _. Defined.

Definition contribution_rows (t : Contributions) : list ContributionRecord := map snd (map_to_list t).

(** The selection in its order *)
Definition selection (q : ContributionReadRequest) (t : Contributions) : list ContributionRecord :=
  merge_sort recorded_before (List.filter (_filtered q) (contribution_rows t)).

(** ** Loading a page *)

(** A row of the outer joins: the version's number and the rule *)
Record JoinedRow := {
  jr_record : ContributionRecord;
  jr_version : option Z;
  jr_rule : option ContributionRule;
}.

Definition outer_join {A} (l : list A) : list (option A) :=
  match l with [] => [None] | _ => map Some l end.

Definition record_rows (t : PolicyTables) (c : ContributionRecord) : list JoinedRow :=
  let versions := List.filter (λ v, (pv_id v =? cb_contribution_policy_version_id c)
                                    && (pv_project_id v =? cb_project_id c)) (pt_versions t) in
  let rules := List.filter (λ r, (ru_contribution_policy_version_id r =? cb_contribution_policy_version_id c)
                                 && (ru_project_id r =? cb_project_id c)
                                 && bool_decide (ru_contribution_type r = cb_contribution_type c))
                 (pt_rules t) in
  concat (map (λ v, map (λ r, {| jr_record := c; jr_version := pv_version_number <$> v; jr_rule := r |})
                      (outer_join rules)) (outer_join versions)).

Definition frozen_award (d : ContributionAwardDefinition) : FrozenContributionAward :=
  {| fz_id := df_id (dr_facts d); fz_instrument := df_instrument_type (dr_facts d);
     fz_unit := df_unit_code (dr_facts d); fz_quantity := df_quantity (dr_facts d) |}.

(** The definitions of a rule, in the order of their instrument *)
Definition frozen_definitions (t : PolicyTables) (rule : uuid) : list ContributionAwardDefinition :=
  let rows := List.filter (λ d, dr_contribution_rule_id d =? rule) (pt_definitions t) in
  let by_type k := List.filter (λ d, bool_decide (df_instrument_type (dr_facts d) = k)) rows in
  by_type MONEY ++ by_type PROJECT_POINTS.

Definition read_facts_of (t : PolicyTables) (r : JoinedRow) : result ExportExn ContributionReadFacts :=
  match jr_version r, jr_rule r with
  | Some version, Some rule =>
      let f := {| rf_row := jr_record r; rf_policy_version_number := version;
                  rf_compensation_mode := ru_compensation_mode rule;
                  rf_award_definitions := map frozen_award (frozen_definitions t (ru_id rule)) |} in
      _ ← ensure (read_facts_valid f) ExportValueError;
      Ok f
  | _, _ => Raise ContributionExportUnavailable
  end.

Fixpoint all_facts (t : PolicyTables) (rows : list JoinedRow) : result ExportExn (list ContributionReadFacts) :=
  match rows with
  | [] => Ok []
  | r :: rows' => f ← read_facts_of t r; fs ← all_facts t rows'; Ok (f :: fs)
  end.

Definition _load_records (q : ContributionReadRequest) (ids : list uuid) (db : ExportDb)
    : result ExportExn (list ContributionReadFacts) :=
  match ids with
  | [] => Ok []
  | _ =>
      let chosen := merge_sort recorded_before
                      (List.filter (λ c, existsb (Z.eqb (cb_id c)) ids && _filtered q c)
                         (contribution_rows (xd_contributions db))) in
      let rows := concat (map (record_rows (xd_policies db)) chosen) in
      _ ← ensure (bool_decide (map (λ r, cb_id (jr_record r)) rows = ids)) ContributionExportUnavailable;
      _ ← ensure (forallb (λ r, some (jr_version r) && some (jr_rule r)) rows) ContributionExportUnavailable;
      all_facts (xd_policies db) rows
  end.

(** ** Pages *)

(** [math.ceil((earliest - now).total_seconds())], kept between one second and an hour *)
Definition retry_after (earliest now : instant) : Z :=
  Z.max 1 (Z.min 3600 (- ((now - earliest) / us_per_second))).

Definition insert_snapshot (i : ExportInputs) (s : ContributionExportSnapshot) (t : Snapshots)
    : result ExportExn Snapshots :=
  _ ← ensure (snapshot_checks s && none (t !! xs_id s)) ExportDatabaseError;
  _ ← ensure (negb (xi_slot_taken i)
              && negb (existsb (λ r, (xs_actor_profile_id r =? xs_actor_profile_id s)
                                     && (xs_allocation_slot r =? xs_allocation_slot s)) (snapshot_rows t)))
        (ContributionExportAtCapacity 3600);
  _ ← ensure (xi_admits i t (<[xs_id s := s]> t)) ExportDatabaseError;
  Ok (<[xs_id s := s]> t).

Definition _allocate_snapshot (i : ExportInputs) (actor : uuid) (digest : str) (member_ids : list uuid)
    (t : Snapshots) : result ExportExn (ContributionExportSnapshot * Snapshots) :=
  let now := xi_now i in
  let occupied := List.filter (λ s, xs_actor_profile_id s =? actor) (snapshot_rows t) in
  match List.find (λ slot, negb (existsb (λ s, xs_allocation_slot s =? slot) occupied)) [1; 2; 3; 4; 5] with
  | None => Raise (ContributionExportAtCapacity
                     (retry_after (foldr Z.min (default 0 (head (map xs_expires_at occupied)))
                                     (map xs_expires_at occupied)) now))
  | Some slot =>
      let s := {| xs_id := xi_new_id i; xs_actor_profile_id := actor; xs_allocation_slot := slot;
                  xs_query_digest := digest; xs_member_ids := member_ids; xs_created_at := now;
                  xs_expires_at := now + one_hour |} in
      t' ← insert_snapshot i s t;
      Ok (s, t')
  end.

Section Repository.
Context (early_year : Z → str) (other_codec : Codec → bytes → option str) (secret : bytes).

(** A [ValueError] of the codec's [encode]; its [decode] raises the cursor error only. *)
Definition next_cursor (digest : str) (s : ContributionExportSnapshot) (offset : nat) : result ExportExn str :=
  match encode early_year secret digest
          {| cp_snapshot_id := xs_id s; cp_next_offset := Z.of_nat offset; cp_expires_at := xs_expires_at s |} with
  | Ok c => Ok c
  | Raise _ => Raise ExportValueError
  end.

Definition _first_page (i : ExportInputs) (q : ContributionReadRequest) (digest : str) (db : ExportDb)
    : result ExportExn (ContributionReadPage * ExportDb) :=
  let limit := Z.to_nat (rq_limit q) in
  let member_ids := map cb_id (take (Z.to_nat (MAX_EXPORT_MEMBERS + 1)) (selection q (xd_contributions db))) in
  _ ← ensure (len member_ids <=? MAX_EXPORT_MEMBERS) ContributionExportTooLarge;
  _ ← ensure (bool_decide (NoDup member_ids)) ContributionExportUnavailable;
  let page_ids := take limit member_ids in
  ct ← (if (limit <? length member_ids)%nat then
          st ← _allocate_snapshot i (rq_actor_profile_id q) digest member_ids (xd_snapshots db);
          c ← next_cursor digest st.1 (length page_ids);
          Ok (Some c, set_snapshots st.2 db)
        else Ok (None, db));
  records ← _load_records q page_ids ct.2;
  Ok ({| pg_records := records; pg_next_cursor := ct.1 |}, ct.2).

Definition _continuation (i : ExportInputs) (q : ContributionReadRequest) (digest cursor : str) (db : ExportDb)
    : result ExportExn ContributionReadPage :=
  position ← match decode early_year other_codec secret cursor digest with
             | Ok p => Ok p
             | Raise _ => Raise ExportInvalidCursor
             end;
  s ← oget (xd_snapshots db !! cp_snapshot_id position) ExportInvalidCursor;
  _ ← ensure ((xs_actor_profile_id s =? rq_actor_profile_id q) && str_eqb (xs_query_digest s) digest
              && (xs_expires_at s =? cp_expires_at position)) ExportInvalidCursor;
  let members := xs_member_ids s in
  let offset := Z.to_nat (cp_next_offset position) in
  _ ← ensure (negb (xs_expires_at s <=? xi_now i) && negb (cp_expires_at position <=? xi_now i)
              && (2 <=? len members) && (len members <=? MAX_EXPORT_MEMBERS)
              && bool_decide (NoDup members) && negb (length members <=? offset)%nat) ExportInvalidCursor;
  let page_ids := take (Z.to_nat (rq_limit q)) (drop offset members) in
  let next_offset := (offset + length page_ids)%nat in
  next ← (if (next_offset <? length members)%nat then c ← next_cursor digest s next_offset; Ok (Some c)
          else Ok None);
  records ← _load_records q page_ids db;
  Ok {| pg_records := records; pg_next_cursor := next |}.

(** [ContributionReadRepository.read] *)
Definition read (i : ExportInputs) (q : ContributionReadRequest) (db : ExportDb)
    : result ExportExn (ContributionReadPage * ExportDb) :=
  _ ← ensure (read_request_valid q) ExportValueError;
  let db := set_snapshots (_prune_expired i (rq_actor_profile_id q) (xd_snapshots db)) db in
  digest ← contribution_export_query_digest q;
  match rq_cursor q with
  | None => _first_page i q digest db
  | Some cursor => page ← _continuation i q digest cursor db; Ok (page, db)
  end.
End Repository.
