(* ===== verification/ExportPages.v ===== *)
(** * Contribution exports: retained selections

    A reader that follows the cursors of an export sees the selection of its first read: every
    selected contribution once, in the order of recording, whatever is recorded in between and
    whatever else is exported, for as long as the snapshot is retained.  Snapshots are bounded:
    an actor never holds more than five. *)

From stdpp Require Import sorting relations.
From S2P Require Import Prelude Text Digest Json Instant Lifecycle Awards Contributions Rows ExportCursor ExportStore.

(** ** Rows of a table *)

Lemma contribution_rows_elem t c : c ∈ contribution_rows t ↔ ∃ k, t !! k = Some c.
Proof.
  unfold contribution_rows. rewrite list_elem_of_fmap. split.
  - intros ([k c'] & -> & H%elem_of_map_to_list). by exists k.
  - intros [k H]. exists (k, c). split; [done|]. by apply elem_of_map_to_list.
Qed.

Lemma snapshot_rows_elem t s : s ∈ snapshot_rows t ↔ ∃ k, t !! k = Some s.
Proof.
  unfold snapshot_rows. rewrite list_elem_of_fmap. split.
  - intros ([k s'] & -> & H%elem_of_map_to_list). by exists k.
  - intros [k H]. exists (k, s). split; [done|]. by apply elem_of_map_to_list.
Qed.

Lemma keyed_rows_NoDup {A} (f : A → Z) (t : gmap Z A) :
  (∀ k a, t !! k = Some a → f a = k) → NoDup (map f (map snd (map_to_list t))).
Proof.
  intros Hk. rewrite map_map. rewrite (map_ext_in _ fst); [apply NoDup_fst_map_to_list|].
  intros [k a] H%list_elem_of_In%elem_of_map_to_list. by apply Hk.
Qed.

Lemma slice_elem {A} n k (l : list A) x : x ∈ take n (drop k l) → x ∈ l.
Proof. rewrite <- (take_drop k l) at 2. rewrite <- (take_drop n (drop k l)) at 2. rewrite !elem_of_app. tauto. Qed.

Lemma NoDup_slice {A} n k (l : list A) : NoDup l → NoDup (take n (drop k l)).
Proof. rewrite <- (take_drop k l) at 1. rewrite <- (take_drop n (drop k l)) at 1. rewrite !NoDup_app. tauto. Qed.

Lemma StronglySorted_slice {A} (R : relation A) n k l : StronglySorted R l → StronglySorted R (take n (drop k l)).
Proof.
  rewrite <- (take_drop k l) at 1. rewrite <- (take_drop n (drop k l)) at 1. intros (_ & _ & H)%StronglySorted_app.
  by apply StronglySorted_app in H as (_ & H & _).
Qed.

(** ** The order of recording *)

#[export] Instance recorded_before_trans : Transitive recorded_before.
Proof. intros x y z. unfold recorded_before. lia. Qed.
#[export] Instance recorded_before_total : Total recorded_before.
Proof. intros x y. unfold recorded_before. lia. Qed.

Definition rows_keyed (t : Contributions) : Prop := ∀ k c, t !! k = Some c → cb_id c = k.

Lemma filter_NoDup_map {A B} (f : A → B) (p : A → bool) l : NoDup (map f l) → NoDup (map f (List.filter p l)).
Proof.
  induction l as [|x l IH]; cbn; [done|]. intros [Hx Hl]%NoDup_cons. destruct (p x); [|auto]. cbn. constructor; [|auto].
  contradict Hx. apply list_elem_of_fmap in Hx as (y & -> & Hy). apply filter_elem in Hy as [Hy _]. apply list_elem_of_fmap. eauto.
Qed.

Lemma selection_elem q t c : c ∈ selection q t ↔ (∃ k, t !! k = Some c) ∧ _filtered q c = true.
Proof. unfold selection. by rewrite merge_sort_Permutation, filter_elem, contribution_rows_elem. Qed.

Lemma selection_sorted q t : StronglySorted recorded_before (selection q t).
Proof. apply StronglySorted_merge_sort; apply _. Qed.

Lemma selection_NoDup q t : rows_keyed t → NoDup (map cb_id (selection q t)).
Proof.
  intros Hk. unfold selection. rewrite (Permutation_map _ (merge_sort_Permutation _ _)).
  apply filter_NoDup_map. by apply keyed_rows_NoDup.
Qed.

(** Loading a sorted part of the selection finds exactly its rows. *)
Lemma chosen_rows q t l :
  rows_keyed t → NoDup (map cb_id l) → StronglySorted recorded_before l →
  (∀ c, c ∈ l → t !! cb_id c = Some c ∧ _filtered q c = true) →
  merge_sort recorded_before
    (List.filter (λ c, existsb (Z.eqb (cb_id c)) (map cb_id l) && _filtered q c) (contribution_rows t)) = l.
Proof.
  intros Hk Hn Hs Hl. apply (StronglySorted_unique_strong recorded_before).
  - intros x y Hx Hy H1 H2. rewrite merge_sort_Permutation, filter_elem, contribution_rows_elem in Hx.
    destruct Hx as [[k Hx] _]. apply Hl in Hy as [Hy _]. assert (cb_id x = cb_id y) as E by (unfold recorded_before in *; lia).
    rewrite (Hk _ _ Hx) in E. subst k. congruence.
  - apply StronglySorted_merge_sort; apply _.
  - done.
  - rewrite merge_sort_Permutation. apply NoDup_Permutation.
    + apply (NoDup_fmap_1 cb_id), filter_NoDup_map. by apply keyed_rows_NoDup.
    + by apply (NoDup_fmap_1 cb_id).
    + intros c. rewrite filter_elem, contribution_rows_elem, andb_true_iff, existsb_exists. split.
      * intros [[k Hc] [(x & Hx & <-%Z.eqb_eq) _]]. apply list_elem_of_In, list_elem_of_fmap in Hx as (d & E & Hd).
        apply Hl in Hd as Hd'. destruct Hd' as [Hd' _]. rewrite (Hk _ _ Hc) in E. subst k. congruence.
      * intros Hc. apply Hl in Hc as Hc'. destruct Hc' as [Hc1 Hc2]. split; [by eexists|]. split; [|done].
        exists (cb_id c). split; [|by apply Z.eqb_eq]. apply list_elem_of_In, list_elem_of_fmap. eauto.
Qed.

(** ** Snapshots *)

Record snapshots_ok (t : Snapshots) : Prop := {
  so_keys k s : t !! k = Some s → xs_id s = k;
  so_checks k s : t !! k = Some s → snapshot_checks s = true;
  so_slots j k r s : t !! j = Some r → t !! k = Some s → xs_actor_profile_id r = xs_actor_profile_id s →
    xs_allocation_slot r = xs_allocation_slot s → j = k;
}.

Lemma snapshots_ok_empty : snapshots_ok ∅.
Proof. by split. Qed.

Lemma snapshots_ok_subseteq (t t' : Snapshots) : t' ⊆ t → snapshots_ok t → snapshots_ok t'.
Proof.
  intros Hs [Hk Hc Hu]. split.
  - intros k s H. by apply Hk, (lookup_weaken t').
  - intros k s H. by eapply Hc, (lookup_weaken t').
  - intros j k r s Hr Hs' E1 E2. by eapply Hu; [apply (lookup_weaken t')..|done|].
Qed.

Lemma delete_all_lookup (t : Snapshots) ids k s :
  foldl (λ t id, delete id t) t ids !! k = Some s ↔ t !! k = Some s ∧ k ∉ ids.
Proof.
  revert t. induction ids as [|id ids IH]; intros t; cbn [foldl]; [set_solver|].
  rewrite IH, lookup_delete_Some, not_elem_of_cons. naive_solver.
Qed.

(** Deleting expired rows keeps every row that has not expired. *)
Lemma delete_expired_lookup i limit actor now t k s :
  snapshots_ok t → (_delete_expired i limit actor now t).2 !! k = Some s →
  t !! k = Some s.
Proof. intros _. unfold _delete_expired. cbn. by intros [? _]%delete_all_lookup. Qed.

Lemma delete_expired_keeps i limit actor now t k s :
  snapshots_ok t → t !! k = Some s → now < xs_expires_at s → (_delete_expired i limit actor now t).2 !! k = Some s.
Proof.
  intros Hok Hs Hlive. unfold _delete_expired. cbn. apply delete_all_lookup. split; [done|].
  intros Hin. apply list_elem_of_fmap in Hin as (r & -> & Hr). apply elem_of_take in Hr as (j0 & Hr%list_elem_of_lookup_2 & _).
  rewrite merge_sort_Permutation, filter_elem, snapshot_rows_elem, !andb_true_iff in Hr. destruct Hr as [[j Hr] [[He _] _]].
  rewrite (so_keys _ Hok _ _ Hr) in Hs. assert (r = s) as -> by congruence. lia.
Qed.

Lemma delete_expired_ok i limit actor now t : snapshots_ok t → snapshots_ok (_delete_expired i limit actor now t).2.
Proof.
  intros Hok. eapply snapshots_ok_subseteq; [|done]. apply map_subseteq_spec. intros k s. by apply delete_expired_lookup.
Qed.

Lemma prune_cases i actor t : ∃ limit actor',
  _prune_expired i actor t = (_delete_expired i (Z.to_nat _MAX_SLOTS) (Some actor) (xi_prune_now i) t).2 ∨
  _prune_expired i actor t =
    (_delete_expired i limit actor' (xi_prune_now i)
       (_delete_expired i (Z.to_nat _MAX_SLOTS) (Some actor) (xi_prune_now i) t).2).2.
Proof.
  unfold _prune_expired. destruct (_delete_expired _ _ (Some actor) _ _) as [n t1]. cbn [snd].
  destruct (_ =? 0)%nat; [exists 0%nat, None; by left|eexists _, None; by right].
Qed.

Lemma prune_ok i actor t : snapshots_ok t → snapshots_ok (_prune_expired i actor t).
Proof. intros Hok. destruct (prune_cases i actor t) as (l & a & [->| ->]); auto using delete_expired_ok. Qed.

Lemma prune_keeps i actor t k s :
  snapshots_ok t → t !! k = Some s → xi_prune_now i < xs_expires_at s → _prune_expired i actor t !! k = Some s.
Proof.
  intros Hok Hs Hlive. destruct (prune_cases i actor t) as (l & a & [->| ->]);
    repeat apply delete_expired_keeps; auto using delete_expired_ok.
Qed.

Lemma insert_snapshot_Ok i s t t' :
  insert_snapshot i s t = Ok t' →
  t' = <[xs_id s := s]> t ∧ t !! xs_id s = None ∧ snapshot_checks s = true ∧
  ∀ k r, t !! k = Some r → xs_actor_profile_id r = xs_actor_profile_id s → xs_allocation_slot r ≠ xs_allocation_slot s.
Proof.
  unfold insert_snapshot. intros [[Hc Hn]%andb_prop H]%ensure_bind_Ok. apply ensure_bind_Ok in H as [[_ He%negb_true_iff]%andb_prop H].
  apply ensure_bind_Ok in H as [_ [= <-]]. split_and!; [done| |done|].
  - by destruct (t !! xs_id s).
  - intros k r Hr Ea Es. apply not_true_iff_false in He. apply He, existsb_exists. exists r.
    split; [apply list_elem_of_In, snapshot_rows_elem; eauto|]. rewrite Ea, Es, !Z.eqb_refl. done.
Qed.

Lemma insert_snapshot_ok i s t t' : snapshots_ok t → insert_snapshot i s t = Ok t' → snapshots_ok t'.
Proof.
  intros [Hk Hc Hu] (-> & Hn & Hcs & Hf)%insert_snapshot_Ok. split.
  - intros k r [[<- <-]|[_ H]]%lookup_insert_Some; [done|by apply Hk].
  - intros k r [[<- <-]|[_ H]]%lookup_insert_Some; [done|by eapply Hc].
  - intros j k r r' [[<- <-]|[_ Hr]]%lookup_insert_Some [[<- <-]|[_ Hr']]%lookup_insert_Some Ea Es; [done| | |by eapply Hu].
    + by destruct (Hf k r' Hr').
    + by destruct (Hf j r Hr).
Qed.

Lemma allocate_Ok i actor digest ids t s t' :
  _allocate_snapshot i actor digest ids t = Ok (s, t') →
  insert_snapshot i s t = Ok t' ∧ xs_id s = xi_new_id i ∧ xs_actor_profile_id s = actor ∧ xs_query_digest s = digest ∧
  xs_member_ids s = ids ∧ xs_expires_at s = xi_now i + one_hour.
Proof.
  unfold _allocate_snapshot. destruct (List.find _ _); [|done].
  intros (t1 & Ht & [= <- <-])%result_bind_Ok. done.
Qed.

(** An actor's snapshots have different slots between one and five. *)
Lemma snapshots_bounded t actor :
  snapshots_ok t → (length (List.filter (λ s, (xs_actor_profile_id s =? actor)%Z) (snapshot_rows t)) ≤ 5)%nat.
Proof.
  intros Hok. set (l := List.filter _ _).
  assert (∀ s, s ∈ l → ∃ k, t !! k = Some s ∧ xs_actor_profile_id s = actor) as Hl.
  { intros s [[k Hk]%snapshot_rows_elem E%Z.eqb_eq]%filter_elem. eauto. }
  assert (NoDup l) as Hn.
  { apply (NoDup_fmap_1 xs_id), filter_NoDup_map, keyed_rows_NoDup, Hok. }
  assert (NoDup (map xs_allocation_slot l)) as Hs.
  { apply NoDup_fmap_2_strong; [|done]. intros r s Hr Hs' E. apply Hl in Hr as (j & Hr & Ea), Hs' as (k & Hs' & Eb).
    assert (j = k) as -> by (eapply so_slots; [done..|congruence|done]). congruence. }
  rewrite <- (length_map xs_allocation_slot l). change 5%nat with (length [1; 2; 3; 4; 5]).
  apply submseteq_length, NoDup_submseteq; [done|]. intros x (s & -> & Hs')%list_elem_of_fmap.
  apply Hl in Hs' as (k & Hk & _). apply (so_checks _ Hok) in Hk. unfold snapshot_checks in Hk.
  rewrite !andb_true_iff in Hk. assert (1 ≤ xs_allocation_slot s ≤ 5) as Hr by lia.
  assert (xs_allocation_slot s = 1 ∨ xs_allocation_slot s = 2 ∨ xs_allocation_slot s = 3 ∨ xs_allocation_slot s = 4 ∨
    xs_allocation_slot s = 5) as [->|[->|[->|[->| ->]]]] by lia; set_solver.
Qed.

(** ** Loading records *)

Definition page_rows (p : ContributionReadPage) : list ContributionRecord := map rf_row (pg_records p).

Lemma joined_record t c j : j ∈ record_rows t c → jr_record j = c.
Proof.
  unfold record_rows. rewrite list_elem_of_In, in_concat. intros (l & (v & <- & _)%in_map_iff & (r & <- & _)%in_map_iff). done.
Qed.

Lemma all_facts_rows t rows fs :
  all_facts t rows = Ok fs → map rf_row fs = map jr_record rows ∧ ∀ f, f ∈ fs → read_facts_valid f = true.
Proof.
  revert fs. induction rows as [|r rows IH]; intros fs; cbn [all_facts].
  { intros [= <-]. split; [done|]. by intros f ?%elem_of_nil. }
  intros (f & Hf & (fs' & Hfs & [= <-])%result_bind_Ok)%result_bind_Ok. destruct (IH fs' Hfs) as [IH1 IH2].
  unfold read_facts_of in Hf. destruct (jr_version r), (jr_rule r); try done. apply ensure_bind_Ok in Hf as [Hv [= <-]].
  cbn. rewrite IH1. split; [done|]. intros f [->|H]%elem_of_cons; auto.
Qed.

(** What is loaded are the stored rows with these identities, which all pass the filters. *)
Lemma load_records_Ok q ids db fs :
  _load_records q ids db = Ok fs →
  map (λ f, cb_id (rf_row f)) fs = ids ∧
  ∀ f, f ∈ fs → read_facts_valid f = true ∧ (∃ k, xd_contributions db !! k = Some (rf_row f)) ∧
    _filtered q (rf_row f) = true.
Proof.
  unfold _load_records. destruct ids as [|id ids].
  { intros [= <-]. split; [done|]. by intros f ?%elem_of_nil. }
  cbv zeta. set (chosen := merge_sort _ _).
  intros [Hids%bool_decide_eq_true_1 H]%ensure_bind_Ok. apply ensure_bind_Ok in H as [_ H].
  apply all_facts_rows in H as [Hr Hv]. rewrite <- (map_map rf_row), Hr, map_map. split; [done|].
  intros f Hf. split; [auto|]. assert (rf_row f ∈ map jr_record (concat (map (record_rows (xd_policies db)) chosen))) as Hin.
  { rewrite <- Hr. apply list_elem_of_fmap. eauto. }
  apply list_elem_of_fmap in Hin as (j & E & Hj). rewrite list_elem_of_In, in_concat in Hj.
  destruct Hj as (l & (c & <- & Hc)%in_map_iff & Hj%list_elem_of_In). apply joined_record in Hj. rewrite E, Hj.
  apply list_elem_of_In in Hc. unfold chosen in Hc. rewrite merge_sort_Permutation, filter_elem, andb_true_iff, contribution_rows_elem in Hc.
  naive_solver.
Qed.

Lemma load_records_rows q l db fs :
  rows_keyed (xd_contributions db) → (∀ c, c ∈ l → xd_contributions db !! cb_id c = Some c) →
  _load_records q (map cb_id l) db = Ok fs → map rf_row fs = l.
Proof.
  intros Hk Hl [Hids Hf]%load_records_Ok.
  assert (∀ f, f ∈ fs → xd_contributions db !! cb_id (rf_row f) = Some (rf_row f)) as Hf'.
  { intros f (_ & [k Hk'] & _)%Hf. by rewrite (Hk _ _ Hk'). }
  clear Hf. revert l Hids Hl. induction fs as [|f fs IH]; intros [|c l]; cbn [map]; try done.
  intros [= E Hids] Hl. f_equal.
  - specialize (Hl c ltac:(left)). specialize (Hf' f ltac:(left)). congruence.
  - apply IH; [|done|]; intros; [apply Hf'|apply Hl]; by right.
Qed.

(** A contribution whose terms are there: one version, one rule of its type, valid facts *)
Definition explained (t : PolicyTables) (c : ContributionRecord) : Prop :=
  ∃ j f, record_rows t c = [j] ∧ read_facts_of t j = Ok f.

Lemma load_records_succeeds q l db :
  rows_keyed (xd_contributions db) → NoDup (map cb_id l) → StronglySorted recorded_before l →
  (∀ c, c ∈ l → xd_contributions db !! cb_id c = Some c ∧ _filtered q c = true) →
  (∀ c, c ∈ l → explained (xd_policies db) c) → is_ok (_load_records q (map cb_id l) db) = true.
Proof.
  intros Hk Hn Hs Hl He. unfold _load_records. destruct (map cb_id l) as [|id ids] eqn:E; [done|]. rewrite <- E in *. cbv zeta.
  rewrite chosen_rows by done. clear Hs Hl.
  assert (∃ rows fs, concat (map (record_rows (xd_policies db)) l) = rows ∧ map jr_record rows = l ∧
    all_facts (xd_policies db) rows = Ok fs ∧ forallb (λ r, some (jr_version r) && some (jr_rule r)) rows = true)
    as (rows & fs & -> & Hr & -> & ->).
  { clear E Hn. induction l as [|c l IH]; [by exists [], []|].
    destruct (He c ltac:(left)) as (j & f & Ej & Ef). destruct IH as (rows & fs & E & Hr & Hfs & Hsome); [intros; apply He; by right|].
    exists (j :: rows), (f :: fs). cbn [map concat]. rewrite Ej, E. split; [done|]. split; [|split].
    - cbn. rewrite Hr. f_equal. apply (joined_record (xd_policies db)). rewrite Ej. left.
    - cbn [all_facts]. rewrite Ef. run. by rewrite Hfs.
    - cbn [forallb]. rewrite Hsome. unfold read_facts_of in Ef. by destruct (jr_version j), (jr_rule j). }
  rewrite bool_decide_eq_true_2; [done|]. by rewrite <- Hr, map_map.
Qed.

(** The frozen terms of a loaded row are those of a rule of its version and type. *)
Definition terms_from (t : PolicyTables) (f : ContributionReadFacts) : Prop :=
  ∃ r, r ∈ pt_rules t ∧ ru_contribution_policy_version_id r = cb_contribution_policy_version_id (rf_row f) ∧
    ru_project_id r = cb_project_id (rf_row f) ∧ ru_contribution_type r = cb_contribution_type (rf_row f) ∧
    rf_compensation_mode f = ru_compensation_mode r ∧
    rf_award_definitions f = map frozen_award (frozen_definitions t (ru_id r)).

Lemma joined_rule t c j r : j ∈ record_rows t c → jr_rule j = Some r →
  r ∈ pt_rules t ∧ ru_contribution_policy_version_id r = cb_contribution_policy_version_id c ∧
  ru_project_id r = cb_project_id c ∧ ru_contribution_type r = cb_contribution_type c.
Proof.
  unfold record_rows. rewrite list_elem_of_In, in_concat. intros (l & (v & <- & _)%in_map_iff & (o & <- & Ho)%in_map_iff). cbn.
  intros ->. unfold outer_join in Ho. destruct (List.filter _ _) as [|x l] eqn:E; [by destruct Ho as [|[]]|].
  apply in_map_iff in Ho as (r' & [= ->] & Hr). rewrite <- E in Hr. apply list_elem_of_In, filter_elem in Hr as [Hr Hc].
  rewrite !andb_true_iff, !Z.eqb_eq, bool_decide_eq_true in Hc. tauto.
Qed.

Lemma all_facts_elem t rows fs f :
  all_facts t rows = Ok fs → f ∈ fs → ∃ j, j ∈ rows ∧ read_facts_of t j = Ok f.
Proof.
  revert fs. induction rows as [|r rows IH]; intros fs; cbn [all_facts]; [intros [= <-]; by intros ?%elem_of_nil|].
  intros (g & Hg & (gs & Hgs & [= <-])%result_bind_Ok)%result_bind_Ok [->|H]%elem_of_cons.
  - exists r. split; [left|done].
  - destruct (IH gs Hgs H) as (j & Hj & E). exists j. split; [by right|done].
Qed.

Lemma load_records_terms q ids db fs f :
  _load_records q ids db = Ok fs → f ∈ fs → terms_from (xd_policies db) f.
Proof.
  unfold _load_records. destruct ids as [|id ids]; [intros [= <-]; by intros ?%elem_of_nil|]. cbv zeta.
  intros [_ H]%ensure_bind_Ok Hf. apply ensure_bind_Ok in H as [_ H].
  destruct (all_facts_elem _ _ _ _ H Hf) as (j & Hj & Ef). apply list_elem_of_In, in_concat in Hj as (l & (c & <- & _)%in_map_iff & Hj%list_elem_of_In).
  unfold read_facts_of in Ef. destruct (jr_version j); [|done]. destruct (jr_rule j) as [r|] eqn:Er; [|done].
  apply ensure_bind_Ok in Ef as [_ [= <-]]. pose proof (joined_record _ _ _ Hj) as <-. destruct (joined_rule _ _ _ _ Hj Er) as (?&?&?&?).
  exists r. split_and!; done.
Qed.

(** ** Following the cursors *)

Definition with_cursor (q : ContributionReadRequest) (c : str) : ContributionReadRequest :=
  {| rq_audience := rq_audience q; rq_actor_profile_id := rq_actor_profile_id q; rq_project_id := rq_project_id q;
     rq_output_format := rq_output_format q; rq_contribution_type := rq_contribution_type q;
     rq_recorded_from := rq_recorded_from q; rq_recorded_before := rq_recorded_before q;
     rq_limit := rq_limit q; rq_cursor := Some c |}.

Lemma query_digest_pattern q digest : contribution_export_query_digest q = Ok digest → digest_pattern digest = true.
Proof.
  unfold contribution_export_query_digest. intros [_ H%oget_Ok]%ensure_bind_Ok. by eapply canonical_json_hash_pattern.
Qed.

Section Follow.
Context (early_year : Z → str) (other_codec : Codec → bytes → option str) (secret : bytes).
Abbreviation read := (read early_year other_codec secret).

Lemma first_page_Ok i q digest db page db' :
  _first_page early_year secret i q digest db = Ok (page, db') →
  let M := selection q (xd_contributions db) in let limit := Z.to_nat (rq_limit q) in
  len (map cb_id M) ≤ MAX_EXPORT_MEMBERS ∧ _load_records q (map cb_id (take limit M)) db' = Ok (pg_records page) ∧
  match pg_next_cursor page with
  | None => db' = db ∧ (length M ≤ limit)%nat
  | Some c => (limit < length M)%nat ∧ ∃ s t,
      _allocate_snapshot i (rq_actor_profile_id q) digest (map cb_id M) (xd_snapshots db) = Ok (s, t) ∧
      db' = set_snapshots t db ∧ next_cursor early_year secret digest s limit = Ok c
  end.
Proof.
  unfold _first_page. cbv zeta. set (M := selection q (xd_contributions db)). set (ids := map cb_id (take _ M)).
  intros [Hlen%Z.leb_le H]%ensure_bind_Ok. apply ensure_bind_Ok in H as [_ H].
  assert (ids = map cb_id M) as Eids.
  { unfold ids, len in *. rewrite length_map, length_take in Hlen. rewrite take_ge; [done|].
    unfold MAX_EXPORT_MEMBERS in *. lia. }
  rewrite Eids in *. clear Eids ids. apply result_bind_Ok in H as ([c db1] & Hc & H).
  apply result_bind_Ok in H as (fs & Hfs & [= <- <-]). cbn [pg_records pg_next_cursor fst snd] in *.
  rewrite <- fmap_take in Hfs. split; [done|]. rewrite length_map in Hc.
  destruct (Nat.ltb_spec (Z.to_nat (rq_limit q)) (length M)) as [Hlt|Hge].
  - apply result_bind_Ok in Hc as ([s t] & Hs & (c' & Hc & [= <- <-])%result_bind_Ok). cbn [fst snd] in Hc. split; [done|].
    split; [done|]. exists s, t. split_and!; [done..|]. rewrite <- Hc. f_equal. rewrite length_take, length_map. lia.
  - injection Hc as <- <-. done.
Qed.

Lemma first_page_ok i q digest db page db' :
  snapshots_ok (xd_snapshots db) → _first_page early_year secret i q digest db = Ok (page, db') →
  snapshots_ok (xd_snapshots db') ∧ xd_snapshots db ⊆ xd_snapshots db' ∧
  xd_contributions db' = xd_contributions db ∧ xd_policies db' = xd_policies db.
Proof.
  intros Hok (_ & _ & H)%first_page_Ok. destruct (pg_next_cursor page) as [c|]; [|by destruct H as [-> _]].
  destruct H as (_ & s & t & Ha & -> & _). apply allocate_Ok in Ha as (Hi & _). cbn. split_and!; [by eapply insert_snapshot_ok| |done..].
  apply insert_snapshot_Ok in Hi as (-> & Hn & _). by apply insert_subseteq.
Qed.

Definition pruned (i : ExportInputs) (q : ContributionReadRequest) (db : ExportDb) : ExportDb :=
  set_snapshots (_prune_expired i (rq_actor_profile_id q) (xd_snapshots db)) db.

(** What a successful read does to the tables *)
Lemma read_ok i q db page db' :
  snapshots_ok (xd_snapshots db) → read i q db = Ok (page, db') →
  snapshots_ok (xd_snapshots db') ∧ xd_snapshots (pruned i q db) ⊆ xd_snapshots db' ∧
  xd_contributions db' = xd_contributions db ∧ xd_policies db' = xd_policies db.
Proof.
  intros Hok. unfold read. cbv zeta. fold (pruned i q db). intros [_ (d & _ & H)%result_bind_Ok]%ensure_bind_Ok.
  assert (snapshots_ok (xd_snapshots (pruned i q db))) as Hok' by by apply prune_ok.
  destruct (rq_cursor q) as [c|].
  - by apply result_bind_Ok in H as (p & _ & [= <- <-]).
  - by apply first_page_ok in H.
Qed.
(** A page is loaded from the tables the read found. *)
Lemma read_loads i q db page db' :
  read i q db = Ok (page, db') → read_request_valid q = true ∧
  ∃ ids db1, xd_contributions db1 = xd_contributions db ∧ xd_policies db1 = xd_policies db ∧
    _load_records q ids db1 = Ok (pg_records page).
Proof.
  unfold read. cbv zeta. fold (pruned i q db). intros [Hv (d & _ & H)%result_bind_Ok]%ensure_bind_Ok. split; [done|].
  destruct (rq_cursor q) as [c|].
  - apply result_bind_Ok in H as (p & Hp & [= <- <-]). unfold _continuation in Hp.
    apply result_bind_Ok in Hp as (pos & _ & Hp). apply result_bind_Ok in Hp as (s & _ & Hp). apply ensure_bind_Ok in Hp as [_ Hp].
    cbv zeta in Hp. apply ensure_bind_Ok in Hp as [_ Hp]. apply result_bind_Ok in Hp as (n & _ & Hp).
    apply result_bind_Ok in Hp as (fs & Hfs & [= <-]). by eexists _, (pruned i q db).
  - apply first_page_Ok in H as (_ & Hl & Hn). eexists _, db'. split_and!; [| |exact Hl].
    all: destruct (pg_next_cursor page); [destruct Hn as (_ & s & t & _ & -> & _)|destruct Hn as [-> _]]; done.
Qed.

(** Before time [T]: another read, or work that records contributions and changes policies *)
Inductive export_step (T : instant) (db db' : ExportDb) : Prop :=
| step_read i q page : xi_prune_now i < T → read i q db = Ok (page, db') → export_step T db db'
| step_work : xd_contributions db ⊆ xd_contributions db' → rows_keyed (xd_contributions db') →
    xd_snapshots db' = xd_snapshots db → export_step T db db'.

(** A reader with cursor [c] follows the cursors of its query: the pages it was given, the cursor
    it is left with and the database. *)
Inductive follows (T : instant) (q : ContributionReadRequest)
    : ExportDb → option str → list ContributionReadPage → option str → ExportDb → Prop :=
| follows_none db c : follows T q db c [] c db
| follows_page db db1 db2 db3 c c' i page pages :
    rtc (export_step T) db db1 → xi_prune_now i < T → xi_now i < T →
    read i (with_cursor q c) db1 = Ok (page, db2) → follows T q db2 (pg_next_cursor page) pages c' db3 →
    follows T q db (Some c) (page :: pages) c' db3.

(** The selection [M] that snapshot [s] retains *)
Record retained (q : ContributionReadRequest) (digest : str) (M : list ContributionRecord)
    (s : ContributionExportSnapshot) : Prop := {
  rt_valid : read_request_valid q = true;
  rt_digest : contribution_export_query_digest q = Ok digest;
  rt_actor : xs_actor_profile_id s = rq_actor_profile_id q;
  rt_query : xs_query_digest s = digest;
  rt_members : xs_member_ids s = map cb_id M;
  rt_id : uuid_ok (xs_id s);
  rt_late : dated early_year (xs_expires_at s) = true;
  rt_unique : NoDup (map cb_id M);
  rt_order : StronglySorted recorded_before M;
  rt_size : 2 ≤ len (map cb_id M) ≤ MAX_EXPORT_MEMBERS;
  rt_selected c : c ∈ M → _filtered q c = true;
}.

Record holds (M : list ContributionRecord) (s : ContributionExportSnapshot) (db : ExportDb) : Prop := {
  hd_snapshot : xd_snapshots db !! xs_id s = Some s;
  hd_snapshots : snapshots_ok (xd_snapshots db);
  hd_keyed : rows_keyed (xd_contributions db);
  hd_rows c : c ∈ M → xd_contributions db !! cb_id c = Some c;
}.

Lemma holds_step M s db db' : export_step (xs_expires_at s) db db' → holds M s db → holds M s db'.
Proof.
  intros [i q page Hi Hr|Hsub Hk Es] [H1 H2 H3 H4].
  - apply read_ok in Hr as (R1 & R2 & R3 & _); [|done]. split; [|done|by rewrite R3..].
    eapply lookup_weaken; [|exact R2]. by apply prune_keeps.
  - split; [by rewrite Es..|done|]. intros c Hc. eapply lookup_weaken; [by apply H4|done].
Qed.

Lemma holds_steps M s db db' : rtc (export_step (xs_expires_at s)) db db' → holds M s db → holds M s db'.
Proof. induction 1; eauto using holds_step. Qed.

(** The next page of a retained selection *)
Lemma continuation_eq q digest M s k c i db :
  retained q digest M s → holds M s db → (1 ≤ k < length M)%nat →
  next_cursor early_year secret digest s k = Ok c →
  xi_prune_now i < xs_expires_at s → xi_now i < xs_expires_at s →
  let l := take (Z.to_nat (rq_limit q)) (drop k M) in
  l ≠ [] ∧ ∃ next, read i (with_cursor q c) db =
    (records ← _load_records q (map cb_id l) (pruned i q db);
     Ok ({| pg_records := records; pg_next_cursor := next |}, pruned i q db)) ∧
    match next with
    | Some c' => (k + length l < length M)%nat ∧ next_cursor early_year secret digest s (k + length l) = Ok c'
    | None => (k + length l = length M)%nat
    end.
Proof.
  intros R [H1 H2 H3 H4] Hk Hc Hp Hn l. pose proof (rt_size _ _ _ _ R) as Hsz. unfold len in Hsz. rewrite length_map in Hsz.
  assert (1 ≤ Z.to_nat (rq_limit q))%nat as Hlim.
  { pose proof (rt_valid _ _ _ _ R) as Hv. unfold read_request_valid in Hv. rewrite !andb_true_iff in Hv. lia. }
  assert (l ≠ []) as Hl.
  { intros E%(f_equal length). unfold l in E. rewrite length_take, length_drop in E. cbn in E. lia. }
  split; [done|]. unfold read. cbv zeta. change (read_request_valid (with_cursor q c)) with (read_request_valid q).
  rewrite (rt_valid _ _ _ _ R). run. change (contribution_export_query_digest (with_cursor q c)) with (contribution_export_query_digest q).
  rewrite (rt_digest _ _ _ _ R). run. cbn [with_cursor rq_cursor rq_actor_profile_id]. fold (pruned i q db).
  unfold next_cursor in Hc. destruct (encode _ _ _ _) as [c0|] eqn:Ec; [injection Hc as ->|done].
  unfold _continuation. pose proof (query_digest_pattern _ _ (rt_digest _ _ _ _ R)) as Hdp.
  rewrite (encode_decode _ other_codec _ _ _ _ Ec) by (apply R || done). run. cbn [cp_snapshot_id cp_next_offset cp_expires_at].
  assert (xd_snapshots (pruned i q db) !! xs_id s = Some s) as -> by by apply prune_keeps. run.
  rewrite (rt_actor _ _ _ _ R), (rt_query _ _ _ _ R), (rt_members _ _ _ _ R). cbn [with_cursor rq_actor_profile_id rq_limit].
  rewrite !Z.eqb_refl, str_eqb_refl. run. rewrite Nat2Z.id, !length_map.
  replace (xs_expires_at s <=? xi_now i) with false by lia. unfold len. rewrite length_map.
  replace (2 <=? Z.of_nat (length M)) with true by lia. replace (Z.of_nat (length M) <=? MAX_EXPORT_MEMBERS) with true by lia.
  rewrite (bool_decide_eq_true_2 (NoDup _)) by apply R. replace (length M <=? k)%nat with false by (symmetry; apply Nat.leb_gt; lia). run.
  change (map cb_id M) with (cb_id <$> M). rewrite <- fmap_drop, <- fmap_take, length_fmap. change (cb_id <$> take _ _) with (map cb_id l).
  fold l. change (_load_records (with_cursor q c)) with (_load_records q).
  destruct (Nat.ltb_spec (k + length l) (length M)) as [Hlt|Hge].
  - destruct (encode_total early_year secret digest {| cp_snapshot_id := xs_id s;
      cp_next_offset := Z.of_nat (k + length l); cp_expires_at := xs_expires_at s |}) as [c' Hc'];
      [done|cbn; lia|apply R|].
    exists (Some c'). unfold next_cursor. rewrite Hc'. run. split; [|done]. by destruct (_load_records _ _ _).
  - exists None. run. split; [by destruct (_load_records _ _ _)|]. unfold l in *. rewrite length_take, length_drop in *. lia.
Qed.

(** The state of a reader: the rows it was shown and the cursor it has *)
Definition reader_at (q : ContributionReadRequest) (digest : str) (M : list ContributionRecord)
    (s : ContributionExportSnapshot) (k : nat) (c : option str) : Prop :=
  match c with
  | Some c => (1 ≤ k < length M)%nat ∧ next_cursor early_year secret digest s k = Ok c
  | None => k = length M
  end.

Lemma follows_rows q digest M s db c pages c' db' k :
  retained q digest M s → follows (xs_expires_at s) q db c pages c' db' → holds M s db → reader_at q digest M s k c →
  ∃ k', concat (map page_rows pages) = take (k' - k) (drop k M) ∧ (k ≤ k')%nat ∧
    reader_at q digest M s k' c' ∧ holds M s db'.
Proof.
  intros R Hf. revert k. induction Hf as [db c|db db1 db2 db3 c c' i page pages Hsteps Hp Hn Hr Hf IH]; intros k Hh Ha.
  { exists k. rewrite Nat.sub_diag. done. }
  destruct Ha as [Hk Hc]. apply (holds_steps _ _ _ _ Hsteps) in Hh.
  destruct (continuation_eq _ _ _ _ _ _ i _ R Hh Hk Hc Hp Hn) as (Hne & next & E & Hnext).
  set (l := take _ _) in *. rewrite E in Hr. apply result_bind_Ok in Hr as (fs & Hfs & [= <- <-]).
  assert (holds M s (pruned i q db1)) as Hh'.
  { apply (holds_step M s db1); [|done]. eapply (step_read _ _ _ i (with_cursor q c)); [done|]. rewrite E, Hfs. done. }
  assert (map rf_row fs = l) as El.
  { eapply load_records_rows; [apply Hh'| |exact Hfs]. intros x Hx. apply (hd_rows _ _ _ Hh').
    by eapply slice_elem. }
  destruct (IH (k + length l)%nat Hh') as (k' & Ek & Hle & Ha' & Hh3).
  { cbn [pg_next_cursor]. destruct next as [c1|]; cbn; [split; [lia|]|]; naive_solver. }
  exists k'. split_and!; [|lia|done|done]. cbn [map concat]. unfold page_rows at 1. cbn [pg_records]. rewrite El, Ek.
  rewrite <- drop_drop. replace (k' - k)%nat with (length l + (k' - (k + length l)))%nat by lia.
  set (D := drop k M) in *. assert (l = take (length l) D) as El' by (unfold l; rewrite length_take, <- take_take; f_equal; symmetry; apply firstn_all).
  rewrite El' at 1. by rewrite take_take_drop.
Qed.
(** The first page: everything, or the start of a retained selection *)
Lemma first_read i q db page db' :
  rows_keyed (xd_contributions db) → snapshots_ok (xd_snapshots db) → rq_cursor q = None →
  uuid_ok (xi_new_id i) → dated early_year (xi_now i + one_hour) = true → read i q db = Ok (page, db') →
  let M := selection q (xd_contributions db) in
  match pg_next_cursor page with
  | None => page_rows page = M
  | Some c => ∃ digest s k, retained q digest M s ∧ xs_expires_at s = xi_now i + one_hour ∧ holds M s db' ∧
      reader_at q digest M s k (Some c) ∧ page_rows page = take k M
  end.
Proof.
  intros Hk Hok Hcur Hid Hl H M. pose proof (read_ok _ _ _ _ _ Hok H) as (Hok' & _ & Ec & _).
  unfold read in H. cbv zeta in H. fold (pruned i q db) in H.
  apply ensure_bind_Ok in H as [Hv H]. apply result_bind_Ok in H as (digest & Hd & H). rewrite Hcur in H.
  apply first_page_Ok in H as (Hlen & Hload & Hnext). cbv zeta in *. change (xd_contributions (pruned i q db)) with (xd_contributions db) in *.
  fold M in Hlen, Hload, Hnext.
  assert (∀ c, c ∈ M → xd_contributions db' !! cb_id c = Some c) as Hrows.
  { intros c [[k Hc] _]%selection_elem. rewrite Ec. by rewrite (Hk _ _ Hc). }
  apply load_records_rows in Hload; [|by rewrite Ec|intros c Hc; apply Hrows; by apply elem_of_take in Hc as (j & Hc%list_elem_of_lookup_2 & _)].
  destruct (pg_next_cursor page) as [c|].
  - destruct Hnext as (Hlt & s & t & Ha & -> & Hc). apply allocate_Ok in Ha as (Hi & E1 & E2 & E3 & E4 & E5).
    assert (1 ≤ Z.to_nat (rq_limit q))%nat by (unfold read_request_valid in Hv; rewrite !andb_true_iff in Hv; lia).
    exists digest, s, (Z.to_nat (rq_limit q)). split_and!; [|done| |done|done].
    + split; [done|done|done|done|done|by rewrite E1|by rewrite E5|by apply selection_NoDup|apply selection_sorted| |].
      * unfold len in *. rewrite length_map in *. lia.
      * intros x Hx. by apply selection_elem in Hx as [_ ?].
    + apply insert_snapshot_Ok in Hi as (Et & _). split; [|done|by rewrite Ec|done]. cbn. by rewrite Et, lookup_insert_eq.
  - destruct Hnext as [-> Hge]. unfold page_rows. rewrite Hload. by apply take_ge.
Qed.

(** C8. An export is complete.  A reader asks for the first page of a query and follows the
    cursors it is given; in between anyone may export, record contributions and change policies.
    Until the hour of the snapshot is over, the rows it has been shown are an initial part of the
    selection at its first read, in the order of recording; it is left without a cursor exactly
    when it has seen all of it; and while it has a cursor its next read succeeds with a page that
    is not empty, whenever the terms of the selected contributions are in the policy tables. *)
Theorem export_complete i q db page0 db0 pages rest dbn :
  rows_keyed (xd_contributions db) → snapshots_ok (xd_snapshots db) → rq_cursor q = None →
  uuid_ok (xi_new_id i) → dated early_year (xi_now i + one_hour) = true → read i q db = Ok (page0, db0) →
  follows (xi_now i + one_hour) q db0 (pg_next_cursor page0) pages rest dbn →
  let M := selection q (xd_contributions db) in
  let shown := concat (map page_rows (page0 :: pages)) in
  shown = take (length shown) M ∧ (rest = None ↔ shown = M) ∧
  ∀ c db' j, rest = Some c → rtc (export_step (xi_now i + one_hour)) dbn db' →
    xi_prune_now j < xi_now i + one_hour → xi_now j < xi_now i + one_hour →
    (∀ x, x ∈ M → explained (xd_policies db') x) →
    ∃ page db'', read j (with_cursor q c) db' = Ok (page, db'') ∧ page_rows page ≠ [].
Proof.
  intros Hk Hok Hcur Hid Hl Hr Hf M shown. pose proof (first_read _ _ _ _ _ Hk Hok Hcur Hid Hl Hr) as H0. cbv zeta in H0.
  fold M in H0. destruct (pg_next_cursor page0) as [c0|].
  2: { inversion Hf; subst. unfold shown. cbn [map concat]. rewrite app_nil_r, H0. by rewrite firstn_all. }
  destruct H0 as (digest & s & k & R & ET & Hh & Ha & E0). rewrite <- ET in Hf |- *.
  destruct (follows_rows _ _ _ _ _ _ _ _ _ _ R Hf Hh Ha) as (k' & Ek & Hle & Ha' & Hh').
  assert (shown = take k' M) as Es.
  { unfold shown. cbn [map concat]. rewrite E0, Ek, take_take_drop. f_equal. lia. }
  assert (k' ≤ length M)%nat as Hk' by (destruct rest; cbn in Ha'; lia).
  assert (length shown = k') as Els by (rewrite Es, length_take; lia). rewrite Els. split; [done|]. split.
  - destruct rest as [c|]; cbn in Ha'; [|by rewrite Es, Ha', firstn_all]. split; [done|].
    intros E%(f_equal length). destruct Ha' as [Hr' _]. lia.
  - intros c db' j -> Hsteps Hp Hn Hex. destruct Ha' as [Hr' Hc]. apply (holds_steps _ _ _ _ Hsteps) in Hh'.
    destruct (continuation_eq _ _ _ _ _ _ j _ R Hh' Hr' Hc Hp Hn) as (Hne & next & E & _). set (l := take _ (drop k' M)) in *.
    assert (∀ x, x ∈ l → x ∈ M) as Hl' by (intros x; apply slice_elem).
    assert (holds M s (pruned j q db')) as [_ _ P3 P4].
    { destruct Hh' as [H1 H2 H3 H4]. split; [by apply prune_keeps|by apply prune_ok|done|done]. }
    assert (is_ok (_load_records q (map cb_id l) (pruned j q db')) = true) as Hload.
    { apply load_records_succeeds; [done| | |intros x Hx%Hl'; split; [by apply P4|by eapply rt_selected]|intros x Hx%Hl'; by apply Hex].
      - unfold l. rewrite fmap_take, fmap_drop. apply NoDup_slice, R.
      - apply StronglySorted_slice, R. }
    destruct (_load_records q (map cb_id l) (pruned j q db')) as [fs|] eqn:El; [|done]. rewrite E. run.
    eexists _, _. split; [done|]. unfold page_rows. cbn [pg_records].
    apply load_records_rows in El; [by rewrite El|done|]. intros x Hx%Hl'. by apply P4.
Qed.
End Follow.
