(* ===== verification/ExportView.v ===== *)
(** * Contribution exports: the evidence that is shown
    (modules/contributions/records/read_service.py, api/records.py, api/source_reads.py,
    compensation/awards/read_repository.py, reviews/acceptance/read_repository.py,
    adapters/reviews/contribution_reads.py)

    The service that joins a page of contributions with their awards, their acceptances and the
    labels of tasks and actors, and refuses a page that any owner does not explain completely.
    Authority and the labels are ports; awards and acceptances are read from the tables that
    acceptance writes.  Main result: what is exported is what is stored. *)

From stdpp Require Import sorting.
From S2P Require Import Prelude Text Digest Json Instant Lifecycle Awards Contributions Acceptance AcceptanceGuarantees Rows.
From S2P Require Import PolicyApi ExportCursor ExportStore ExportPages.

(** ** Values *)

Record ContributionTaskSourceFacts := {
  tf_project_id : uuid;
  tf_task_id : uuid;
  tf_title : str;
  tf_source_type : str;
  tf_source_ref : option str;
  tf_external_task_id : option str;
}.

Record ContributionActorLabel := { lb_actor_profile_id : uuid; lb_display_name : option str }.

Record ContributionAwardView := {
  av_award_id : uuid;
  av_award_definition_id : uuid;
  av_instrument : CompensationInstrumentType;
  av_unit : str;
  av_quantity : str;
}.

(** The fields that are copied from the row of the contribution are [rv_row]. *)
Record ContributionRecordView := {
  rv_row : ContributionRecord;
  rv_contributor_display_name : option str;
  rv_policy_version_number : Z;
  rv_accepted_at : option instant;
  rv_acceptance_source : option AcceptanceSource;
  rv_acceptance_review_id : option uuid;
  rv_acceptance_routing_manifest_id : option uuid;
  rv_task_title : str;
  rv_source_type : str;
  rv_source_ref : option str;
  rv_external_task_id : option str;
  rv_awards : list ContributionAwardView;
}.

Record ContributionExportResponse := {
  er_exported_at : instant;
  er_items : list ContributionRecordView;
  er_next_cursor : option str;
}.

(** ** Validators *)

(** [^[0-9]+(?:\.[0-9]+)?$] and [Decimal] of such a text *)
Definition plain_decimal (s : str) : option Decimal :=
  let '(ip, rest) := take_digits s in
  match ip, rest with
  | [], _ => None
  | _, [] => Some {| dc_units := digits_value ip; dc_scale := 0 |}
  | _, c :: fp =>
      if (c =? 46) && negb (str_eqb fp []) && forallb is_digit fp
      then Some {| dc_units := digits_value (ip ++ fp); dc_scale := len fp |} else None
  end.

Definition award_view_valid (v : ContributionAwardView) : bool :=
  (len (av_quantity v) <=? 40)
  && match plain_decimal (av_quantity v) with
     | Some d => (0 <? dc_units d) && (dc_units d <? 10 ^ 20 * 10 ^ dc_scale d) && (dc_scale d <=? 18)
                 && negb (bool_decide (av_instrument v = PROJECT_POINTS) && (0 <? dc_scale d))
     | None => false
     end.

Definition record_view_valid (v : ContributionRecordView) : bool :=
  let accepted := bool_decide (cb_contribution_type (rv_row v) = accepted_submission) in
  digest_pattern (cb_artifact_hash (rv_row v)) && (0 <? rv_policy_version_number v)
  && (length (rv_awards v) <=? 2)%nat && forallb award_view_valid (rv_awards v)
  && source_exclusive (rv_row v)
  && Bool.eqb (some (rv_accepted_at v)) accepted && Bool.eqb (some (rv_acceptance_source v)) accepted
  && match rv_acceptance_source v with
     | Some human_review => some (rv_acceptance_review_id v) && none (rv_acceptance_routing_manifest_id v)
     | _ => Bool.eqb (some (rv_acceptance_routing_manifest_id v)) accepted && none (rv_acceptance_review_id v)
     end
  && bool_decide (NoDup (map av_award_id (rv_awards v)))
  && bool_decide (NoDup (map av_instrument (rv_awards v))).

(** [keys == sorted(keys)] *)
Fixpoint recorded_in_order (l : list ContributionRecord) : bool :=
  match l with
  | a :: (b :: _) as l' => bool_decide (recorded_before a b) && recorded_in_order l'
  | _ => true
  end.

Definition export_response_valid (r : ContributionExportResponse) : bool :=
  let rows := map rv_row (er_items r) in
  forallb record_view_valid (er_items r) && (len (map cb_id rows) <=? MAX_EXPORT_CONTRIBUTIONS)
  && match er_next_cursor r with Some c => len c <=? 512 | None => true end
  && recorded_in_order rows && bool_decide (NoDup (map cb_id rows))
  && bool_decide (NoDup (concat (map (λ v, map av_award_id (rv_awards v)) (er_items r)))).

(** [ContributionAcceptanceSourceFacts], from the row of the acceptance *)
Definition acceptance_source_valid (a : FinalAcceptance) : bool := exclusive_source (fa_input a).

(** ** The owners *)

Definition selection_valid {A} `{EqDecision A} (l : list A) : bool :=
  (length l <=? 1000)%nat && bool_decide (NoDup l).

Definition award_before (a b : CompensationAward) : Prop :=
  wd_contribution_record_id a < wd_contribution_record_id b ∨
  (wd_contribution_record_id a = wd_contribution_record_id b ∧
   ¬ (wd_instrument_type a = PROJECT_POINTS ∧ wd_instrument_type b = MONEY)).
#[export] Instance award_before_dec a b : Decision (award_before a b).
Proof. unfold award_before. apply _. Defined.

(** [ContributionAwardReadRepository.read_contribution_awards] *)
Definition read_contribution_awards (ids : list uuid) (t : Awards) : result ExportExn (list CompensationAward) :=
  _ ← ensure (selection_valid ids) ExportValueError;
  match ids with
  | [] => Ok []
  | _ =>
      let rows := merge_sort award_before
                    (List.filter (λ a, existsb (Z.eqb (wd_contribution_record_id a)) ids)
                       (map snd (map_to_list t))) in
      _ ← ensure (forallb award_facts_valid rows) ExportValueError;
      Ok rows
  end.

(** [FinalAcceptanceReadRepository.read_final_acceptances] and the adapter over it *)
Definition read_final_acceptances (selectors : list (uuid * uuid)) (t : Acceptances)
    : result ExportExn (list FinalAcceptance) :=
  _ ← ensure (selection_valid selectors) ExportValueError;
  match selectors with
  | [] => Ok []
  | _ =>
      let rows := List.filter (λ a, bool_decide ((fi_project_id (fa_input a), fi_id (fa_input a)) ∈ selectors))
                    (map snd (map_to_list t)) in
      _ ← ensure (forallb acceptance_source_valid rows) ExportValueError;
      Ok rows
  end.

(** ** The service *)

Record ExportPorts := {
  ep_authorize : ContributionReadRequest → option ExportExn;   (** the exception it raises *)
  ep_tasks : list (uuid * uuid) → result ExportExn (list ContributionTaskSourceFacts);
  ep_actors : list uuid → result ExportExn (list ContributionActorLabel);
}.

Section Index.
Context {A K : Type} `{EqDecision K} (key : A → K).

Fixpoint index_into (expected : list K) (acc : list (K * A)) (rows : list A) : result ExportExn (list (K * A)) :=
  match rows with
  | [] => Ok acc
  | row :: rows' =>
      _ ← ensure (negb (bool_decide (key row ∈ map fst acc)) && bool_decide (key row ∈ expected))
            ContributionExportUnavailable;
      index_into expected (acc ++ [(key row, row)]) rows'
  end.

Definition _index_exact (rows : list A) (expected : list K) : result ExportExn (list (K * A)) :=
  r ← index_into expected [] rows;
  _ ← ensure (forallb (λ k, bool_decide (k ∈ map fst r)) expected) ContributionExportUnavailable;
  Ok r.

Definition index_get (k : K) (d : list (K * A)) : option A := snd <$> List.find (λ e, bool_decide (e.1 = k)) d.
End Index.

Definition _require_selected (q : ContributionReadRequest) (f : ContributionReadFacts) : bool :=
  let c := rf_row f in
  negb (match rq_audience q with audience_self => negb (cb_contributor_id c =? rq_actor_profile_id q) | _ => false end
        || match rq_project_id q with Some p => negb (cb_project_id c =? p) | None => false end
        || match rq_contribution_type q with
           | Some k => negb (bool_decide (cb_contribution_type c = k)) | None => false
           end
        || match rq_recorded_from q with Some t => cb_created_at c <? t | None => false end
        || match rq_recorded_before q with Some t => t <=? cb_created_at c | None => false end).

Definition award_view (a : CompensationAward) : ContributionAwardView :=
  {| av_award_id := wd_id a; av_award_definition_id := wd_award_definition_id a;
     av_instrument := wd_instrument_type a; av_unit := wd_unit_code a; av_quantity := format_f (wd_quantity a) |}.

(** The terms of an award are those of the frozen definition it names. *)
Definition terms_equal (f : ContributionReadFacts) (a : CompensationAward) : bool :=
  match List.find (λ d, fz_id d =? wd_award_definition_id a) (rf_award_definitions f) with
  | Some d => (wd_project_id a =? cb_project_id (rf_row f)) && (wd_contributor_id a =? cb_contributor_id (rf_row f))
              && (wd_contribution_policy_version_id a =? cb_contribution_policy_version_id (rf_row f))
              && bool_decide (wd_instrument_type a = fz_instrument d) && str_eqb (wd_unit_code a) (fz_unit d)
              && dec_eqb (wd_quantity a) (fz_quantity d)
  | None => false
  end.

Definition lineage_equal (f : ContributionReadFacts) (a : FinalAcceptance) : bool :=
  (fi_task_id (fa_input a) =? cb_task_id (rf_row f)) && (fi_submission_id (fa_input a) =? cb_submission_id (rf_row f))
  && (fi_accepted_submitter_id (fa_input a) =? cb_contributor_id (rf_row f)).

Definition by_instrument (awards : list CompensationAward) : list CompensationAward :=
  List.filter (λ a, bool_decide (wd_instrument_type a = MONEY)) awards
  ++ List.filter (λ a, bool_decide (wd_instrument_type a = PROJECT_POINTS)) awards.

Definition _view (f : ContributionReadFacts) (awards : list CompensationAward) (task : ContributionTaskSourceFacts)
    (actor : ContributionActorLabel) (acceptance : option FinalAcceptance) : result ExportExn ContributionRecordView :=
  let ids := map fz_id (rf_award_definitions f) in
  _ ← ensure ((length awards =? length ids)%nat
              && forallb (λ a, existsb (Z.eqb (wd_award_definition_id a)) ids) awards
              && forallb (λ d, existsb (λ a, wd_award_definition_id a =? d) awards) ids)
        ContributionExportUnavailable;
  _ ← ensure (forallb (terms_equal f) awards) ContributionExportUnavailable;
  _ ← ensure match acceptance with Some a => lineage_equal f a | None => true end ContributionExportUnavailable;
  let v := {| rv_row := rf_row f; rv_contributor_display_name := lb_display_name actor;
              rv_policy_version_number := rf_policy_version_number f;
              rv_accepted_at := fa_accepted_at <$> acceptance;
              rv_acceptance_source := (λ a, fi_acceptance_source (fa_input a)) <$> acceptance;
              rv_acceptance_review_id := a ← acceptance; fi_source_review_id (fa_input a);
              rv_acceptance_routing_manifest_id := a ← acceptance; fi_source_routing_manifest_id (fa_input a);
              rv_task_title := tf_title task; rv_source_type := tf_source_type task;
              rv_source_ref := tf_source_ref task; rv_external_task_id := tf_external_task_id task;
              rv_awards := map award_view (by_instrument awards) |} in
  _ ← ensure (record_view_valid v) ExportValueError;
  Ok v.

Definition acceptance_key (f : ContributionReadFacts) : option (uuid * uuid) :=
  a ← cb_source_final_acceptance_id (rf_row f); Some (cb_project_id (rf_row f), a).

Section Views.
Context (awards : list CompensationAward) (tasks : list (uuid * uuid * ContributionTaskSourceFacts))
  (actors : list (uuid * ContributionActorLabel)) (acceptances : list (uuid * uuid * FinalAcceptance)).

(** The indexes hold every selected identity, so the lookups of tasks and actors find one. *)
Definition item_of (f : ContributionReadFacts) : result ExportExn ContributionRecordView :=
  let c := rf_row f in
  task ← oget (index_get (cb_project_id c, cb_task_id c) tasks) ContributionExportUnavailable;
  actor ← oget (index_get (cb_contributor_id c) actors) ContributionExportUnavailable;
  _view f (List.filter (λ a, wd_contribution_record_id a =? cb_id c) awards) task actor
    (k ← acceptance_key f; index_get k acceptances).

Fixpoint items_of (fs : list ContributionReadFacts) : result ExportExn (list ContributionRecordView) :=
  match fs with
  | [] => Ok []
  | f :: fs' => v ← item_of f; vs ← items_of fs'; Ok (v :: vs)
  end.
End Views.

Section Service.
Context (early_year : Z → str) (other_codec : Codec → bytes → option str) (secret : bytes) (ports : ExportPorts).

(** The session's tables as the repository of contributions sees them *)
Definition export_db (db : AcceptDb) (t : Snapshots) : ExportDb :=
  {| xd_contributions := db_contributions db; xd_policies := db_policies db; xd_snapshots := t |}.

Definition export_body (i : ExportInputs) (now : instant) (q : ContributionReadRequest) (db : AcceptDb) (t : Snapshots)
    : result ExportExn (ContributionExportResponse * Snapshots) :=
  pd ← read early_year other_codec secret i q (export_db db t);
  let '(page, xdb) := pd in
  let records := pg_records page in
  _ ← ensure (forallb read_facts_valid records) ExportValueError;
  _ ← ensure ((length records <=? Z.to_nat (rq_limit q))%nat
              && (none (pg_next_cursor page) || (length records =? Z.to_nat (rq_limit q))%nat))
        ContributionExportUnavailable;
  _ ← ensure (forallb (_require_selected q) records) ContributionExportUnavailable;
  let record_ids := map (λ f, cb_id (rf_row f)) records in
  _ ← ensure (bool_decide (NoDup record_ids)) ContributionExportUnavailable;
  awards ← read_contribution_awards record_ids (db_awards db);
  _ ← ensure (forallb (λ a, existsb (Z.eqb (wd_contribution_record_id a)) record_ids) awards)
        ContributionExportUnavailable;
  let task_ids := remove_dups (map (λ f, (cb_project_id (rf_row f), cb_task_id (rf_row f))) records) in
  ts ← ep_tasks ports task_ids;
  tasks ← _index_exact (λ r, (tf_project_id r, tf_task_id r)) ts task_ids;
  let actor_ids := remove_dups (map (λ f, cb_contributor_id (rf_row f)) records) in
  ls ← ep_actors ports actor_ids;
  actors ← _index_exact lb_actor_profile_id ls actor_ids;
  let acceptance_ids := remove_dups (omap acceptance_key records) in
  accs ← read_final_acceptances acceptance_ids (db_acceptances db);
  acceptances ← _index_exact (λ a, (fi_project_id (fa_input a), fi_id (fa_input a))) accs acceptance_ids;
  items ← items_of awards tasks actors acceptances records;
  let response := {| er_exported_at := now; er_items := items; er_next_cursor := pg_next_cursor page |} in
  _ ← ensure (export_response_valid response) ExportValueError;
  Ok (response, xd_snapshots xdb).

(** [ContributionReadService.read] *)
Definition export_read (i : ExportInputs) (now : instant) (q : ContributionReadRequest) (db : AcceptDb) (t : Snapshots)
    : result ExportExn (ContributionExportResponse * Snapshots) :=
  _ ← ensure (read_request_valid q) ExportValueError;
  _ ← match ep_authorize ports q with Some e => Raise e | None => Ok tt end;
  match export_body i now q db t with
  | Raise ExportValueError => Raise ContributionExportUnavailable
  | r => r
  end.
End Service.

(** ** What is exported is what is stored *)

Section IndexFacts.
Context {A K : Type} `{EqDecision K} (key : A → K).

Lemma index_into_Ok expected acc rows r :
  index_into key expected acc rows = Ok r →
  r = acc ++ map (λ x, (key x, x)) rows ∧ (NoDup (map fst acc) → NoDup (map fst r)) ∧ ∀ x, x ∈ rows → key x ∈ expected.
Proof.
  revert acc. induction rows as [|x rows IH]; intros acc; cbn [index_into map].
  { intros [= <-]. split_and!; [by rewrite app_nil_r|done|by intros ? ?%elem_of_nil]. }
  intros [[Hn%negb_true_iff%bool_decide_eq_false_1 He%bool_decide_eq_true_1]%andb_prop H]%ensure_bind_Ok.
  apply IH in H as (-> & Hnd & Hin). split_and!; [by rewrite <- app_assoc| |].
  - intros Ha. apply Hnd. rewrite map_app. cbn. apply NoDup_app. split_and!; [done| |by apply NoDup_singleton].
    by intros k Hk ->%list_elem_of_singleton.
  - intros y [->|Hy]%elem_of_cons; auto.
Qed.

Lemma index_exact_Ok rows expected r :
  _index_exact key rows expected = Ok r →
  ∀ k, k ∈ expected → ∃ x, index_get k r = Some x ∧ x ∈ rows ∧ key x = k.
Proof.
  unfold _index_exact. intros (r' & (-> & _ & _)%index_into_Ok & [Hall [= <-]]%ensure_bind_Ok)%result_bind_Ok k Hk.
  rewrite forallb_forall in Hall. apply list_elem_of_In, Hall, bool_decide_eq_true_1 in Hk. cbn [app] in *. unfold index_get.
  destruct (List.find _ _) as [[k' x]|] eqn:E.
  - apply find_Some_elem in E as [Hin Hx%bool_decide_eq_true_1]. apply list_elem_of_fmap in Hin as (y & [= -> ->] & Hy).
    exists y. split_and!; done.
  - exfalso. apply list_elem_of_fmap in Hk as (e & -> & He). apply (find_None_elem _ _ e E) in He.
    by rewrite bool_decide_eq_true_2 in He.
Qed.
End IndexFacts.

(** The stored evidence behind an exported item *)
Record evidence (q : ContributionReadRequest) (db : AcceptDb) (v : ContributionRecordView) : Prop := {
  xe_stored : ∃ k, db_contributions db !! k = Some (rv_row v);
  xe_selected : _filtered q (rv_row v) = true;
  xe_awards : rv_awards v ≡ₚ map award_view (of_contribution (cb_id (rv_row v)) (db_awards db));
  xe_terms a : a ∈ of_contribution (cb_id (rv_row v)) (db_awards db) → backed (rv_row v) a ∧
    ∃ d, d ∈ pt_definitions (db_policies db) ∧ df_id (dr_facts d) = wd_award_definition_id a ∧
      df_instrument_type (dr_facts d) = wd_instrument_type a ∧ df_unit_code (dr_facts d) = wd_unit_code a ∧
      dec_eqb (wd_quantity a) (df_quantity (dr_facts d)) = true;
  xe_acceptance : match cb_source_final_acceptance_id (rv_row v) with
    | Some id => ∃ k a, db_acceptances db !! k = Some a ∧ fi_id (fa_input a) = id ∧
        recognises a (rv_row v) ∧ rv_accepted_at v = Some (fa_accepted_at a) ∧
        rv_acceptance_source v = Some (fi_acceptance_source (fa_input a)) ∧
        rv_acceptance_review_id v = fi_source_review_id (fa_input a) ∧
        rv_acceptance_routing_manifest_id v = fi_source_routing_manifest_id (fa_input a)
    | None => rv_accepted_at v = None ∧ rv_acceptance_source v = None
    end;
}.

Lemma by_instrument_Permutation l : by_instrument l ≡ₚ l.
Proof.
  unfold by_instrument. induction l as [|a l IH]; [done|]. cbn [List.filter]. destruct (wd_instrument_type a) eqn:E.
  - rewrite (bool_decide_eq_true_2 (MONEY = MONEY)), (bool_decide_eq_false_2 (MONEY = PROJECT_POINTS)) by done. by constructor.
  - rewrite (bool_decide_eq_false_2 (PROJECT_POINTS = MONEY)), (bool_decide_eq_true_2 (PROJECT_POINTS = PROJECT_POINTS)) by done.
    rewrite <- Permutation_middle. by constructor.
Qed.

Lemma read_awards_Ok ids t l c :
  read_contribution_awards ids t = Ok l → c ∈ ids → List.filter (λ a, wd_contribution_record_id a =? c) l ≡ₚ of_contribution c t.
Proof.
  unfold read_contribution_awards. intros [_ H]%ensure_bind_Ok Hc. destruct ids as [|id ids]; [by apply elem_of_nil in Hc|].
  remember (id :: ids) as all. clear Heqall id ids. apply ensure_bind_Ok in H as [_ [= <-]]. rewrite merge_sort_Permutation.
  unfold of_contribution. induction (map snd (map_to_list t)) as [|a l IH]; [done|]. cbn [List.filter].
  destruct (Z.eqb_spec (wd_contribution_record_id a) c) as [E|E].
  - replace (existsb _ all) with true; [cbn [List.filter]; rewrite E, Z.eqb_refl; by constructor|].
    symmetry. apply existsb_exists. exists c. split; [by apply list_elem_of_In|]. rewrite E. apply Z.eqb_refl.
  - destruct (existsb _ all); [|done]. cbn [List.filter]. by rewrite (proj2 (Z.eqb_neq _ _) E).
Qed.

Lemma read_acceptances_elem ss t l a :
  read_final_acceptances ss t = Ok l → a ∈ l →
  (∃ k, t !! k = Some a) ∧ (fi_project_id (fa_input a), fi_id (fa_input a)) ∈ ss.
Proof.
  unfold read_final_acceptances. intros [_ H]%ensure_bind_Ok Ha. destruct ss as [|s ss]; [injection H as <-; by apply elem_of_nil in Ha|].
  apply ensure_bind_Ok in H as [_ [= <-]]. apply filter_elem in Ha as [Ha Hs%bool_decide_eq_true_1]. split; [|done].
  apply list_elem_of_fmap in Ha as ([k b] & -> & Hk%elem_of_map_to_list). by exists k.
Qed.

Lemma view_Ok f l task actor acc v :
  _view f l task actor acc = Ok v →
  rv_row v = rf_row f ∧ rv_awards v = map award_view (by_instrument l) ∧ (∀ a, a ∈ l → terms_equal f a = true) ∧
  match acc with
  | Some a => lineage_equal f a = true ∧ rv_accepted_at v = Some (fa_accepted_at a) ∧
      rv_acceptance_source v = Some (fi_acceptance_source (fa_input a)) ∧
      rv_acceptance_review_id v = fi_source_review_id (fa_input a) ∧
      rv_acceptance_routing_manifest_id v = fi_source_routing_manifest_id (fa_input a)
  | None => rv_accepted_at v = None ∧ rv_acceptance_source v = None
  end.
Proof.
  unfold _view. cbv zeta. intros [_ H]%ensure_bind_Ok. apply ensure_bind_Ok in H as [Ht H]. apply ensure_bind_Ok in H as [Hl H].
  apply ensure_bind_Ok in H as [_ [= <-]]. rewrite forallb_forall in Ht. split_and!; [done|done| |].
  - intros a Ha%list_elem_of_In. auto.
  - by destruct acc.
Qed.

Lemma terms_equal_spec t f a :
  terms_from t f → terms_equal f a = true → backed (rf_row f) a ∧
  ∃ d, d ∈ pt_definitions t ∧ df_id (dr_facts d) = wd_award_definition_id a ∧
    df_instrument_type (dr_facts d) = wd_instrument_type a ∧ df_unit_code (dr_facts d) = wd_unit_code a ∧
    dec_eqb (wd_quantity a) (df_quantity (dr_facts d)) = true.
Proof.
  intros (r & _ & _ & _ & _ & _ & Ed). unfold terms_equal, str_eqb, backed. destruct (List.find _ _) as [x|] eqn:E; [|done].
  rewrite !andb_true_iff, !Z.eqb_eq, !bool_decide_eq_true. intros [[[[[H1 H2] H3] H4] H5] H6].
  apply find_Some_elem in E as [Hx Hid%Z.eqb_eq]. rewrite Ed in Hx. apply list_elem_of_fmap in Hx as (d & -> & Hd).
  split; [done|]. exists d. cbn in *. split_and!; try done.
  unfold frozen_definitions in Hd. apply elem_of_app in Hd as [Hd|Hd];
    apply filter_elem in Hd as [Hd _]; by apply filter_elem in Hd as [Hd _].
Qed.

Lemma items_of_Ok awards tasks actors accs fs vs :
  items_of awards tasks actors accs fs = Ok vs →
  Forall2 (λ f v, item_of awards tasks actors accs f = Ok v) fs vs.
Proof.
  revert vs. induction fs as [|f fs IH]; intros vs; cbn [items_of]; [intros [= <-]; constructor|].
  intros (v & Hv & (vs' & Hvs & [= <-])%result_bind_Ok)%result_bind_Ok. constructor; auto.
Qed.

Lemma require_selected_filtered q f : _require_selected q f = true → _filtered q (rf_row f) = true.
Proof.
  unfold _require_selected, _filtered. cbv zeta. rewrite negb_true_iff, !orb_false_iff, !andb_true_iff.
  destruct (rq_audience q), (rq_project_id q), (rq_contribution_type q), (rq_recorded_from q), (rq_recorded_before q);
    rewrite ?negb_false_iff, ?Z.eqb_eq, ?Z.ltb_ge, ?Z.leb_gt, ?Z.leb_le, ?Z.ltb_lt; tauto.
Qed.

Lemma export_body_evidence early_year other_codec secret ports i now q db t resp t' :
  export_body early_year other_codec secret ports i now q db t = Ok (resp, t') →
  ∃ page xdb, read early_year other_codec secret i q (export_db db t) = Ok (page, xdb) ∧ t' = xd_snapshots xdb ∧
    map rv_row (er_items resp) = page_rows page ∧ er_next_cursor resp = pg_next_cursor page ∧
    ∀ v, v ∈ er_items resp → evidence q db v.
Proof.
  unfold export_body. intros ([page xdb] & Hread & H)%result_bind_Ok. cbv zeta in H.
  apply ensure_bind_Ok in H as [_ H]. apply ensure_bind_Ok in H as [_ H]. apply ensure_bind_Ok in H as [Hsel H].
  apply ensure_bind_Ok in H as [_ H]. apply result_bind_Ok in H as (awards & Haw & H). apply ensure_bind_Ok in H as [_ H].
  apply result_bind_Ok in H as (ts & _ & H). apply result_bind_Ok in H as (tasks & _ & H).
  apply result_bind_Ok in H as (ls & _ & H). apply result_bind_Ok in H as (actors & _ & H).
  apply result_bind_Ok in H as (accs & Hacc & H). apply result_bind_Ok in H as (idx & Hidx & H).
  apply result_bind_Ok in H as (items & Hit & H). apply ensure_bind_Ok in H as [_ [= <- <-]].
  exists page, xdb. cbn [er_items er_next_cursor]. apply items_of_Ok in Hit. split_and!; [done|done| |done|].
  - unfold page_rows. clear -Hit. induction Hit as [|f v fs vs Hv _ IH]; [done|]. cbn. rewrite IH. f_equal.
    unfold item_of in Hv. apply result_bind_Ok in Hv as (? & _ & (? & _ & [-> _]%view_Ok)%result_bind_Ok). done.
  - intros v Hv. apply list_elem_of_lookup in Hv as [n Hn]. destruct (Forall2_lookup_r _ _ _ _ _ Hit Hn) as (f & Hf & Hv).
    apply list_elem_of_lookup_2 in Hf. unfold item_of in Hv. cbv zeta in Hv.
    apply result_bind_Ok in Hv as (task & _ & (actor & _ & (Er & Ea & Ht & Hl)%view_Ok)%result_bind_Ok).
    destruct (read_loads _ _ _ _ _ _ _ _ Hread) as (_ & ids & db1 & E1 & E2 & Hload).
    assert (cb_id (rf_row f) ∈ map (λ f, cb_id (rf_row f)) (pg_records page)) as Hin by (apply list_elem_of_fmap; eauto).
    pose proof (read_awards_Ok _ _ _ _ Haw Hin) as Hperm.
    split; rewrite Er.
    + destruct (proj2 (load_records_Ok _ _ _ _ Hload) f Hf) as (_ & [k Hk] & _). exists k. by rewrite E1 in Hk.
    + rewrite forallb_forall in Hsel. by apply require_selected_filtered, Hsel, list_elem_of_In.
    + rewrite Ea. by rewrite by_instrument_Permutation, Hperm.
    + intros a Ha. rewrite <- Hperm in Ha. apply (terms_equal_spec (db_policies db)); [|by apply Ht].
      pose proof (load_records_terms _ _ _ _ _ Hload Hf) as Hterms. by rewrite E2 in Hterms.
    + unfold acceptance_key in Hl. destruct (cb_source_final_acceptance_id (rf_row f)) as [id|] eqn:Eid; [|by apply Hl].
      cbn [mbind option_bind] in Hl.
      assert ((cb_project_id (rf_row f), id) ∈ remove_dups (omap acceptance_key (pg_records page))) as Hk.
      { apply elem_of_remove_dups, list_elem_of_omap. exists f. split; [done|]. unfold acceptance_key. by rewrite Eid. }
      destruct (index_exact_Ok _ _ _ _ Hidx _ Hk) as (a & Hg & Ha & Ek). rewrite Hg in Hl. injection Ek as Ep Eid'.
      destruct (read_acceptances_elem _ _ _ _ Hacc Ha) as [[k Hka] _]. exists k, a. destruct Hl as (Hlin & H1 & H2 & H3 & H4).
      unfold lineage_equal in Hlin. rewrite !andb_true_iff, !Z.eqb_eq in Hlin. destruct Hlin as [[L1 L2] L3].
      split_and!; try done. unfold recognises. split_and!; try done.
      destruct (proj2 (load_records_Ok _ _ _ _ Hload) f Hf) as (Hv & _). unfold read_facts_valid in Hv.
      rewrite !andb_true_iff in Hv. destruct Hv as [[[[[_ Hs] _] _] _] _]. unfold source_exclusive in Hs. rewrite Eid in Hs.
      destruct (cb_contribution_type (rf_row f)); [done|]. cbn in Hs. rewrite !andb_true_iff in Hs. tauto || (destruct_and!; done).
Qed.

(** C9. What is exported is what is stored, and only what was asked for.  A response is only given
    after authority was; its items are the rows of one page of the repository, in order, with the
    cursor of that page; and every item is a stored contribution that the request selects, with
    exactly the stored awards of that contribution, each with the contributor, project, version,
    instrument, unit and quantity of a definition in the policy tables, and with the source and
    time of the stored acceptance of the same work.  This holds whatever the ports answer. *)
Theorem export_exact early_year other_codec secret ports i now q db t resp t' :
  export_read early_year other_codec secret ports i now q db t = Ok (resp, t') →
  read_request_valid q = true ∧ ep_authorize ports q = None ∧
  (∃ page xdb, read early_year other_codec secret i q (export_db db t) = Ok (page, xdb) ∧ t' = xd_snapshots xdb ∧
     map rv_row (er_items resp) = page_rows page ∧ er_next_cursor resp = pg_next_cursor page) ∧
  ∀ v, v ∈ er_items resp → evidence q db v.
Proof.
  unfold export_read. intros [Hv H]%ensure_bind_Ok. destruct (ep_authorize ports q); [done|]. run in H.
  destruct (export_body _ _ _ _ _ _ _ _ _) as [r|[]] eqn:E; try done. injection H as ->.
  apply export_body_evidence in E as (page & xdb & H1 & H2 & H3 & H4 & H5). eauto 10.
Qed.
