(* ===== verification/ExportCsv.v ===== *)
(** * Contribution exports as CSV (modules/contributions/records/csv.py)

    A response as CSV text: one line per award, one line for a contribution without awards, every
    cell quoted, and text that others wrote kept from being read as a formula.  Main result: a
    reader of RFC 4180 gets back exactly the header and the cells, and no untrusted cell starts
    a formula. *)

From S2P Require Import Prelude Text Digest Json Instant Lifecycle Awards Contributions Acceptance.
From S2P Require Import PolicyApi ExportCursor ExportStore ExportView.

Definition CSV_COLUMNS : list string :=
  ["contribution_id"; "award_id"; "project_id"; "task_id"; "external_task_id";
   "source_type"; "source_ref"; "task_title"; "submission_id"; "contributor_id";
   "contributor_display_name"; "contribution_type"; "recorded_at"; "accepted_at";
   "acceptance_source"; "acceptance_review_id"; "acceptance_routing_manifest_id";
   "source_final_acceptance_id"; "source_review_id";
   "source_review_lease_id"; "source_task_assignment_id"; "artifact_hash";
   "contribution_policy_version_id"; "policy_version_number"; "award_definition_id";
   "instrument"; "unit"; "quantity"]%string.

Definition _UNTRUSTED_COLUMNS : list string :=
  ["external_task_id"; "source_type"; "source_ref"; "task_title"; "contributor_display_name"; "unit"]%string.

(** [= + - @] and their full-width forms *)
Definition formula_trigger (c : Z) : bool :=
  existsb (Z.eqb c) [61; 43; 45; 64; 0xFF1D; 0xFF0B; 0xFF0D; 0xFF20].

Definition starts_formula (s : str) : bool :=
  match s with c :: _ => existsb (Z.eqb c) [9; 13; 10] | [] => false end
  || match lstrip_space s with c :: _ => formula_trigger c | [] => false end.

Definition formula_safe_text (value : str) : str := if starts_formula value then 39 :: value else value.

(** [_cell] of the types that occur *)
Definition cell_time (t : instant) : str :=
  let '(y, mo, d, h, mi, s, f) := civil t in
  pad_dec 4 y ++ 45 :: pad_dec 2 mo ++ 45 :: pad_dec 2 d ++ 84 ::
  pad_dec 2 h ++ 58 :: pad_dec 2 mi ++ 58 :: pad_dec 2 s ++ 46 :: pad_dec 6 f ++ [90].

Definition cell_opt {A} (f : A → str) (o : option A) : str := match o with Some a => f a | None => [] end.

Definition instrument_cell (i : CompensationInstrumentType) : str :=
  match i with MONEY => lit "money" | PROJECT_POINTS => lit "project_points" end.

Definition source_cell (s : AcceptanceSource) : str :=
  match s with human_review => lit "human_review" | task_post_submit_route => lit "task_post_submit_route" end.

(** The value of a column, before [formula_safe_text] *)
Definition cell (v : ContributionRecordView) (a : option ContributionAwardView) (column : string) : str :=
  let c := rv_row v in
  (match column with
   | "contribution_id" => uuid_text (cb_id c)
   | "award_id" => cell_opt (uuid_text ∘ av_award_id) a
   | "project_id" => uuid_text (cb_project_id c)
   | "task_id" => uuid_text (cb_task_id c)
   | "external_task_id" => cell_opt id (rv_external_task_id v)
   | "source_type" => rv_source_type v
   | "source_ref" => cell_opt id (rv_source_ref v)
   | "task_title" => rv_task_title v
   | "submission_id" => uuid_text (cb_submission_id c)
   | "contributor_id" => uuid_text (cb_contributor_id c)
   | "contributor_display_name" => cell_opt id (rv_contributor_display_name v)
   | "contribution_type" => export_type_text (cb_contribution_type c)
   | "recorded_at" => cell_time (cb_created_at c)
   | "accepted_at" => cell_opt cell_time (rv_accepted_at v)
   | "acceptance_source" => cell_opt source_cell (rv_acceptance_source v)
   | "acceptance_review_id" => cell_opt uuid_text (rv_acceptance_review_id v)
   | "acceptance_routing_manifest_id" => cell_opt uuid_text (rv_acceptance_routing_manifest_id v)
   | "source_final_acceptance_id" => cell_opt uuid_text (cb_source_final_acceptance_id c)
   | "source_review_id" => cell_opt uuid_text (cb_source_review_id c)
   | "source_review_lease_id" => cell_opt uuid_text (cb_source_review_lease_id c)
   | "source_task_assignment_id" => cell_opt uuid_text (cb_source_task_assignment_id c)
   | "artifact_hash" => cb_artifact_hash c
   | "contribution_policy_version_id" => uuid_text (cb_contribution_policy_version_id c)
   | "policy_version_number" => str_int (rv_policy_version_number v)
   | "award_definition_id" => cell_opt (uuid_text ∘ av_award_definition_id) a
   | "instrument" => cell_opt (instrument_cell ∘ av_instrument) a
   | "unit" => cell_opt av_unit a
   | "quantity" => cell_opt av_quantity a
   | _ => []
   end)%string.

Definition untrusted (column : string) : bool := existsb (String.eqb column) _UNTRUSTED_COLUMNS.

Definition csv_row (v : ContributionRecordView) (a : option ContributionAwardView) : list str :=
  map (λ k, if untrusted k then formula_safe_text (cell v a k) else cell v a k) CSV_COLUMNS.

(** One row per award, or one without award fields *)
Definition item_rows (v : ContributionRecordView) : list (list str) :=
  match rv_awards v with
  | [] => [csv_row v None]
  | l => map (λ a, csv_row v (Some a)) l
  end.

(** [csv.writer] with [QUOTE_ALL] and the line end CR LF *)
Definition quote_cell (s : str) : str := 34 :: concat (map (λ c, if c =? 34 then [34; 34] else [c]) s) ++ [34].
Definition write_row (r : list str) : str := join 44 (map quote_cell r) ++ [13; 10].

Definition csv_rows (items : list ContributionRecordView) : list (list str) :=
  map lit CSV_COLUMNS :: concat (map item_rows items).

(** [None] is the [UnicodeEncodeError] of a lone surrogate, [ExportValueError] the validation *)
Definition contribution_csv (r : ContributionExportResponse) : result ExportExn bytes :=
  _ ← ensure (export_response_valid r) ExportValueError;
  oget (utf8_encode (concat (map write_row (csv_rows (er_items r))))) ExportValueError.

(** ** A reader of quoted CSV *)

(** A cell after its opening quote *)
Fixpoint read_cell (s : str) : option (str * str) :=
  match s with
  | 34 :: r =>
      match r with
      | 34 :: r' => match read_cell r' with Some (t, u) => Some (34 :: t, u) | None => None end
      | _ => Some ([], r)
      end
  | c :: r => match read_cell r with Some (t, u) => Some (c :: t, u) | None => None end
  | [] => None
  end.

Fixpoint read_rows (fuel : nat) (s : str) : option (list (list str)) :=
  match fuel with
  | O => None
  | S f =>
      match s with
      | [] => Some []
      | q :: r =>
          if q =? 34 then
            match read_cell r with
            | Some (t, 44 :: u) =>
                match read_rows f u with Some (row :: rows) => Some ((t :: row) :: rows) | _ => None end
            | Some (t, 13 :: 10 :: u) =>
                match read_rows f u with Some rows => Some ([t] :: rows) | None => None end
            | _ => None
            end
          else None
      end
  end.

Definition csv_read (s : str) : option (list (list str)) := read_rows (S (length s)) s.

(** ** Reading back *)

Lemma read_cell_body s c r :
  c ≠ 34 → read_cell (concat (map (λ c, if c =? 34 then [34; 34] else [c]) s) ++ 34 :: c :: r) = Some (s, c :: r).
Proof.
  intros Hc. induction s as [|x s IH]; cbn [map concat app].
  - cbn [read_cell]. repeat (case_match; try done).
  - destruct (Z.eqb_spec x 34) as [->|Hx]; cbn [app read_cell]; rewrite IH; [done|]. repeat (case_match; try done).
Qed.


Lemma read_rows_row row rest rows fuel :
  row ≠ [] → (length row ≤ fuel)%nat → read_rows (fuel - length row) rest = Some rows →
  read_rows fuel (write_row row ++ rest) = Some (row :: rows).
Proof.
  unfold write_row. revert fuel. induction row as [|s row IH]; [done|]. intros fuel _ Hf Hr.
  destruct fuel as [|f]; [cbn in Hf; lia|]. cbn [length Nat.sub] in *. destruct row as [|s' row].
  - cbn [map join]. unfold quote_cell. rewrite <- !app_assoc. cbn [app]. rewrite <- !app_assoc. cbn [app read_rows].
    change (34 =? 34) with true. cbv iota. rewrite read_cell_body by done. cbn in Hr. rewrite Nat.sub_0_r in Hr. by rewrite Hr.
  - cbn [map]. rewrite join_cons2. unfold quote_cell at 1. rewrite <- !app_assoc. cbn [app]. rewrite <- !app_assoc. cbn [app read_rows].
    change (34 =? 34) with true. cbv iota. rewrite read_cell_body by done.
    specialize (IH f ltac:(done) ltac:(cbn in *; lia) Hr). rewrite <- app_assoc in IH. cbn [map app] in IH. by rewrite IH.
Qed.

Lemma write_row_length row : row ≠ [] → (length row < length (write_row row))%nat.
Proof.
  unfold write_row. rewrite length_app. cbn [length]. induction row as [|s [|s' row] IH]; [done|cbn; lia|].
  intros _. cbn [map]. rewrite join_cons2, length_app. specialize (IH ltac:(done)). cbn [length map] in *. lia.
Qed.

Lemma csv_read_rows rows fuel :
  (∀ r, r ∈ rows → r ≠ []) → (length (concat (map write_row rows)) < fuel)%nat →
  read_rows fuel (concat (map write_row rows)) = Some rows.
Proof.
  revert fuel. induction rows as [|r rows IH]; intros fuel Hne Hf; [by destruct fuel; [cbn in Hf; lia|]|].
  cbn [map concat] in *. rewrite length_app in Hf. assert (r ≠ []) as Hr by (apply Hne; left).
  pose proof (write_row_length r Hr). apply read_rows_row; [done|lia|]. apply IH; [|lia]. intros x Hx. apply Hne. by right.
Qed.


(** What a spreadsheet may take for a formula: a trigger behind any white space, or a tab or line
    break at the start *)
Definition formula_like (s : str) : Prop :=
  (∃ ws c r, s = ws ++ c :: r ∧ Forall (λ x, py_isspace x = true) ws ∧
     c ∈ [61; 43; 45; 64; 0xFF1D; 0xFF0B; 0xFF0D; 0xFF20]) ∨
  ∃ c r, s = c :: r ∧ c ∈ [9; 10; 13].

Lemma formula_like_starts s : formula_like s → starts_formula s = true.
Proof.
  unfold starts_formula. intros [(ws & c & r & -> & Hw & Hc)|(c & r & -> & Hc)]; apply orb_true_iff; [right|left].
  - assert (lstrip_space (ws ++ c :: r) = c :: r) as ->.
    { induction Hw as [|x ws Hx _ IH]; cbn; [|by rewrite Hx].
      enough (py_isspace c = false) as -> by done. repeat (apply elem_of_cons in Hc as [->|Hc]; [done|]). by apply elem_of_nil in Hc. }
    apply existsb_exists. exists c. split; [by apply list_elem_of_In|apply Z.eqb_refl].
  - repeat (apply elem_of_cons in Hc as [->|Hc]; [done|]). by apply elem_of_nil in Hc.
Qed.

Lemma formula_safe value :
  ¬ formula_like (formula_safe_text value) ∧
  (formula_safe_text value = value ∨ formula_safe_text value = 39 :: value).
Proof.
  split.
  - intros H%formula_like_starts. unfold formula_safe_text in H. destruct (starts_formula value) eqn:E; [done|congruence].
  - unfold formula_safe_text. destruct (starts_formula value); auto.
Qed.

Lemma item_rows_cells v row : row ∈ item_rows v → ∃ a, row = csv_row v a.
Proof.
  unfold item_rows. destruct (rv_awards v) as [|a l].
  - intros ->%list_elem_of_singleton. by exists None.
  - intros (b & -> & _)%list_elem_of_fmap. by exists (Some b).
Qed.

(** C32. The CSV of an export is faithful and harmless.  If rendering succeeds, its text is UTF-8 of
    a text from which a reader of quoted CSV gets back exactly the header and, in order, the rows
    of the items, one per award and one for an item without awards, each with one cell per column.
    Every cell of a trusted column is the exact value; a cell of an untrusted column is the value
    or the value behind one apostrophe, and never starts a formula, also after white space. *)
Theorem csv_faithful r b :
  contribution_csv r = Ok b →
  ∃ text, utf8_encode text = Some b ∧ csv_read text = Some (csv_rows (er_items r)) ∧
    length (csv_rows (er_items r)) =
      S (sum_list (map (λ v, Nat.max 1 (length (rv_awards v))) (er_items r))) ∧
    ∀ v a k s, v ∈ er_items r → csv_row v a !! k = Some s → ∃ column, CSV_COLUMNS !! k = Some column ∧
      if untrusted column
      then ¬ formula_like s ∧ (s = cell v a column ∨ s = 39 :: cell v a column)
      else s = cell v a column.
Proof.
  unfold contribution_csv. intros [_ H%oget_Ok]%ensure_bind_Ok. eexists. split; [exact H|]. split_and!.
  - apply csv_read_rows; [|lia]. intros row [->|Hr]%elem_of_cons; [done|].
    apply list_elem_of_In, in_concat in Hr as (l & (v & <- & _)%in_map_iff & Hr%list_elem_of_In).
    by apply item_rows_cells in Hr as (a & ->).
  - unfold csv_rows. cbn [length]. f_equal. clear. induction (er_items r) as [|v l IH]; [done|]. cbn [map concat].
    rewrite length_app, IH. unfold item_rows. destruct (rv_awards v) as [|a [|a' aw]]; [done|done|]. cbn. by rewrite length_map.
  - intros v a k s _ Hs. unfold csv_row in Hs. apply list_lookup_fmap_Some in Hs as (column & Hs & Hc).
    exists column. split; [done|]. destruct (untrusted column); [|done]. rewrite Hs. apply formula_safe.
Qed.
