(* ===== verification/ExportRun.v ===== *)
(** * A run of contribution exports

    Two contributions are exported in pages of one: the first read retains a snapshot and gives a
    cursor, a contribution is recorded in between, and the second read ends the export.  The
    contribution of the acceptance run is exported with its awards, as a response and as CSV.
    Every call is evaluated, hashing and signing included. *)

From stdpp Require Import relations sorting.
From S2P Require Import Prelude Text Digest Json Instant Lifecycle Awards Contributions Acceptance AcceptanceGuarantees.
From S2P Require Import AcceptanceRun Rows PolicyApi ExportCursor ExportStore ExportPages ExportView ExportCsv.

Definition run_secret : bytes := replicate 32 7.
Definition no_year (y : Z) : str := [].
Definition no_codec (c : Codec) (b : bytes) : option str := None.

(** 2024-02-29 and the hours after it *)
Definition run_time : instant := 63844765323000450.

Definition run_contribution (n at_ : Z) : ContributionRecord :=
  {| cb_id := rid n; cb_project_id := rid 100; cb_task_id := rid 110; cb_submission_id := rid 114;
     cb_contribution_type := accepted_submission; cb_contributor_id := rid 111; cb_source_review_id := None;
     cb_source_review_lease_id := None; cb_source_final_acceptance_id := Some (rid (n + 1));
     cb_source_task_assignment_id := Some (rid 112); cb_artifact_hash := run_hash;
     cb_contribution_policy_version_id := rid 101; cb_created_at := at_ |}.

Definition run_export : ExportDb :=
  {| xd_contributions := {[rid 130 := run_contribution 130 4000; rid 140 := run_contribution 140 3000]};
     xd_policies := run_policies; xd_snapshots := ∅ |}.

Definition run_query : ContributionReadRequest :=
  {| rq_audience := audience_project; rq_actor_profile_id := rid 200; rq_project_id := Some (rid 100);
     rq_output_format := output_json; rq_contribution_type := None; rq_recorded_from := Some 1000;
     rq_recorded_before := None; rq_limit := 1; rq_cursor := None |}.

Definition run_export_inputs (now : instant) : ExportInputs :=
  {| xi_prune_now := now; xi_now := now; xi_new_id := rid 300; xi_locked _ := false; xi_slot_taken := false;
     xi_admits _ _ := true |}.

Definition run_read (now : instant) (q : ContributionReadRequest) (db : ExportDb) :=
  read no_year no_codec run_secret (run_export_inputs now) q db.

Definition page_of_run (r : result ExportExn (ContributionReadPage * ExportDb)) : ContributionReadPage :=
  match r with Ok (p, _) => p | Raise _ => {| pg_records := []; pg_next_cursor := None |} end.

Definition run_page1 := Eval vm_compute in page_of_run (run_read run_time run_query run_export).
Definition run_export1 : ExportDb := state_of (run_read run_time run_query run_export) run_export.
Definition run_cursor : str := Eval vm_compute in default [] (pg_next_cursor run_page1).

(** A contribution recorded after the first page *)
Definition run_export2 : ExportDb :=
  {| xd_contributions := <[rid 150 := run_contribution 150 3500]> (xd_contributions run_export1);
     xd_policies := xd_policies run_export1; xd_snapshots := xd_snapshots run_export1 |}.
Definition run_page2 := Eval vm_compute in page_of_run (run_read (run_time + 60000000) (with_cursor run_query run_cursor) run_export2).

Example export_run :
  map rf_row (pg_records run_page1) = [run_contribution 140 3000] ∧ pg_next_cursor run_page1 = Some run_cursor ∧
  map rf_row (pg_records run_page2) = [run_contribution 130 4000] ∧ pg_next_cursor run_page2 = None ∧
  is_ok (run_read (run_time + 3600000000) (with_cursor run_query run_cursor) run_export2) = false.
Proof. vm_compute. done. Qed.

Lemma run_page1_Ok :
  read no_year no_codec run_secret (run_export_inputs run_time) run_query run_export = Ok (run_page1, run_export1).
Proof. vm_compute. reflexivity. Qed.

Lemma run_rows_keyed (t : Contributions) :
  forallb (λ kv : Z * ContributionRecord, cb_id kv.2 =? kv.1) (map_to_list t) = true → rows_keyed t.
Proof.
  rewrite forallb_forall. intros H k c Hc. apply elem_of_map_to_list, list_elem_of_In, H in Hc. by apply Z.eqb_eq in Hc.
Qed.

Lemma run_export2_step : export_step no_year no_codec run_secret (run_time + one_hour) run_export1 run_export2.
Proof.
  apply step_work; [|apply run_rows_keyed; vm_compute; reflexivity|done].
  unfold run_export2. cbn [xd_contributions]. apply insert_subseteq. vm_compute. reflexivity.
Qed.

Lemma export_complete_witness :
  concat (map page_rows [run_page1; run_page2]) = selection run_query (xd_contributions run_export).
Proof.
  assert (rows_keyed (xd_contributions run_export)) as Hk
    by (apply run_rows_keyed; vm_compute; reflexivity).
  destruct (export_complete no_year no_codec run_secret (run_export_inputs run_time) run_query run_export run_page1 run_export1
    [run_page2] None (pruned (run_export_inputs (run_time + 60000000)) run_query run_export2)) as (_ & H & _).
  - exact Hk.
  - exact snapshots_ok_empty.
  - reflexivity.
  - vm_compute. split; discriminate || reflexivity.
  - vm_compute. reflexivity.
  - exact run_page1_Ok.
  - change (pg_next_cursor run_page1) with (Some run_cursor).
    apply (follows_page _ _ _ _ _ _ run_export2 (pruned (run_export_inputs (run_time + 60000000)) run_query run_export2) _ _ _
      (run_export_inputs (run_time + 60000000))).
    + apply rtc_once, run_export2_step.
    + vm_compute. reflexivity.
    + vm_compute. reflexivity.
    + vm_compute. reflexivity.
    + apply follows_none.
  - apply H. reflexivity.
Defined.

(** ** The acceptance of the acceptance run, exported *)

Definition run_ports : ExportPorts :=
  {| ep_authorize _ := None;
     ep_tasks ks := Ok (map (λ k, {| tf_project_id := k.1; tf_task_id := k.2; tf_title := lit "=SUM(A1)";
                                     tf_source_type := lit "import"; tf_source_ref := None;
                                     tf_external_task_id := Some (lit "T-1") |}) ks);
     ep_actors ids := Ok (map (λ a, {| lb_actor_profile_id := a; lb_display_name := Some (lit "Ada") |}) ids) |}.

Definition run_self_query : ContributionReadRequest :=
  {| rq_audience := audience_self; rq_actor_profile_id := rid 111; rq_project_id := None;
     rq_output_format := output_csv; rq_contribution_type := Some accepted_submission; rq_recorded_from := None;
     rq_recorded_before := None; rq_limit := 1000; rq_cursor := None |}.

Definition run_response : result ExportExn (ContributionExportResponse * Snapshots) :=
  export_read no_year no_codec run_secret run_ports (run_export_inputs run_time) run_time run_self_query accepted ∅.

Definition run_exported : ContributionExportResponse :=
  match run_response with
  | Ok (r, _) => r
  | Raise _ => {| er_exported_at := 0; er_items := []; er_next_cursor := None |}
  end.

Example export_response_run :
  is_ok run_response = true ∧
  map (λ v, map (λ a, (av_instrument a, av_unit a, av_quantity a)) (rv_awards v)) (er_items run_exported)
  = [[(MONEY, lit "EUR", lit "2.50"); (PROJECT_POINTS, lit "points", lit "12")]] ∧
  is_ok (contribution_csv run_exported) = true.
Proof. vm_compute. done. Qed.

Lemma run_response_Ok : ∃ t,
  export_read no_year no_codec run_secret run_ports (run_export_inputs run_time) run_time run_self_query accepted ∅
  = Ok (run_exported, t).
Proof. vm_compute. by eexists. Qed.

Lemma export_exact_witness :
  ep_authorize run_ports run_self_query = None ∧ ∀ v, v ∈ er_items run_exported → evidence run_self_query accepted v.
Proof.
  destruct run_response_Ok as [t Ht].
  destruct (export_exact _ _ _ _ _ _ _ _ _ _ _ Ht) as (_ & H1 & _ & H2). split; [exact H1|exact H2].
Defined.

Definition run_csv : bytes := match contribution_csv run_exported with Ok b => b | Raise _ => [] end.

Lemma csv_faithful_witness :
  ∃ text, utf8_encode text = Some run_csv ∧ csv_read text = Some (csv_rows (er_items run_exported)).
Proof.
  destruct (csv_faithful run_exported run_csv) as (text & H1 & H2 & _); [vm_compute; reflexivity|].
  exists text. split; [exact H1|exact H2].
Defined.
