(* ===== verification/TaskStore.v ===== *)
(** * Tasks: rows and repository
    (modules/tasks/models.py, tasks/repository.py, tasks/lifecycle.py, tasks/api)

    Tasks, assignments and command receipts with the CHECK and UNIQUE constraints of their tables,
    and the reads and flushes the task commands use.  The status of a task is the one of
    [Acceptance].  The columns a task copies from its creation payload are one record
    ([TaskCreate]), its policy locks two: those a response shows and the post-submit policy.
    Foreign keys and triggers are the condition [admits] of a flush, and the time stamps the
    database writes are arguments. *)

From S2P Require Import Prelude Text Digest Json Instant Acceptance Rows PolicyApi.

(** ** The life cycle *)

Definition ALLOWED_TASK_TRANSITIONS : list (TaskStatus * TaskStatus) :=
  [(TS_draft, TS_screening); (TS_screening, TS_ready); (TS_ready, TS_in_progress);
   (TS_in_progress, TS_submitted); (TS_submitted, TS_evaluation_pending);
   (TS_review_pending, TS_evaluation_pending); (TS_evaluation_pending, TS_review_pending);
   (TS_evaluation_pending, TS_needs_revision); (TS_needs_revision, TS_submitted);
   (TS_needs_revision, TS_ready)].

Definition transition_allowed (from_status to_status : TaskStatus) : bool :=
  bool_decide ((from_status, to_status) ∈ ALLOWED_TASK_TRANSITIONS).

(** ** Errors *)

Inductive TaskExn :=
| TaskNotFound
| TaskProjectNotReady
| TaskTransitionBlocked
| TaskValidationError
| TaskAssignmentConflict
| TaskLockedContextInvalid
| TaskReplayConflict (code : str)
| TaskAuthorityDenied
| AssignmentInvalidationUnavailable
| TaskRuntimeError
| TaskValueError
| TaskIntegrityError (constraint : str).

(** ** Operations *)

Inductive TaskAuthorityOperation := OP_CREATE | OP_SCREEN | OP_RELEASE | OP_CLAIM.

#[export] Instance task_operation_eq_dec : EqDecision TaskAuthorityOperation.
Proof. solve_decision. Defined.

Definition operation_value (o : TaskAuthorityOperation) : str :=
  match o with
  | OP_CREATE => lit "project.task.create"
  | OP_SCREEN => lit "project.task.screen"
  | OP_RELEASE => lit "project.task.release"
  | OP_CLAIM => lit "task.claim"
  end.

(** The operations of a project manager *)
Definition management (o : TaskAuthorityOperation) : bool :=
  match o with OP_CREATE | OP_SCREEN | OP_RELEASE => true | OP_CLAIM => false end.

(** ** Rows *)

(** [TaskCreate], whose fields are columns of the task *)
Record TaskCreate := {
  tc_title : str;
  tc_description : str;
  tc_task_type : option str;
  tc_difficulty : option str;
  tc_skill_tags : list str;
  tc_estimated_time_minutes : option Z;
  tc_source_type : str;
  tc_source_ref : option str;
  tc_source_payload_hash : option str;
  tc_import_batch_id : option str;
  tc_external_task_id : option str;
  tc_acceptance_criteria : option str;
  tc_rejection_criteria : option str;
  tc_deadline_at : option instant;
}.

#[export] Instance task_create_eq_dec : EqDecision TaskCreate.
Proof. solve_decision. Defined.

(** The policy locks a task response shows *)
Record PolicyLocks := {
  pl_contribution_policy_version_id : option uuid;
  pl_guide_version : option str;
  pl_review_policy_id : option uuid;
  pl_review_policy_generation : option Z;
  pl_review_policy_hash : option str;
  pl_revision_policy_id : option uuid;
  pl_revision_policy_generation : option Z;
  pl_revision_policy_hash : option str;
  pl_guide_source_snapshot_id : option uuid;
  pl_guide_source_snapshot_hash : option str;
  pl_effective_policy_id : option uuid;
  pl_effective_policy_hash : option str;
  pl_pre_submit_checker_policy_id : option uuid;
  pl_pre_submit_checker_bundle_hash : option str;
}.

#[export] Instance policy_locks_eq_dec : EqDecision PolicyLocks.
Proof. solve_decision. Defined.

(** The post-submit checker policy *)
Record PostSubmitLock := {
  ps_id : option uuid;
  ps_version : option str;
  ps_hash : option str;
  ps_body : option json;
}.

Definition no_locks : PolicyLocks :=
  {| pl_contribution_policy_version_id := None; pl_guide_version := None; pl_review_policy_id := None;
     pl_review_policy_generation := None; pl_review_policy_hash := None; pl_revision_policy_id := None;
     pl_revision_policy_generation := None; pl_revision_policy_hash := None;
     pl_guide_source_snapshot_id := None; pl_guide_source_snapshot_hash := None;
     pl_effective_policy_id := None; pl_effective_policy_hash := None;
     pl_pre_submit_checker_policy_id := None; pl_pre_submit_checker_bundle_hash := None |}.

Definition no_post : PostSubmitLock :=
  {| ps_id := None; ps_version := None; ps_hash := None; ps_body := None |}.

Record WorkstreamTask := {
  wt_id : uuid;
  wt_project_id : uuid;
  wt_locks : PolicyLocks;
  wt_post : PostSubmitLock;
  wt_content : TaskCreate;
  wt_status : TaskStatus;
  wt_created_by : uuid;
  wt_assigned_to : option uuid;
  wt_created_at : instant;
  wt_updated_at : instant;
}.

Inductive AssignmentStatus :=
| AS_active | AS_completed | AS_authority_revoked | AS_revision_expired | AS_revision_exhausted.

#[export] Instance assignment_status_eq_dec : EqDecision AssignmentStatus.
Proof. solve_decision. Defined.

Record TaskAssignment := {
  an_id : uuid;
  an_project_id : uuid;
  an_submitter_contribution_policy_version_id : uuid;
  an_task_id : uuid;
  an_contributor_id : uuid;
  an_assigned_by : uuid;
  an_assigned_at : instant;
  an_accepted_at : option instant;
  an_released_at : option instant;
  an_status : AssignmentStatus;
  an_started_at : option instant;
  an_updated_at : instant;
}.

#[export] Instance task_assignment_eq_dec : EqDecision TaskAssignment.
Proof. solve_decision. Defined.

(** [TaskResponse] *)
Record TaskResponse := {
  rs_id : uuid;
  rs_project_id : uuid;
  rs_locks : PolicyLocks;
  rs_content : TaskCreate;
  rs_status : TaskStatus;
  rs_created_by : option uuid;
  rs_assigned_to : option uuid;
  rs_created_at : instant;
  rs_updated_at : instant;
}.

(** What a receipt retains of a successful command: a task, or a task and an assignment.  The
    source stores the JSON of the response and validates it again when it is read; a response of
    the other type fails that validation. *)
Inductive StoredResponse :=
| RTask (task : TaskResponse)
| RTaskWithAssignment (task : TaskResponse) (assignment : TaskAssignment).

Inductive ReceiptStatus := RC_pending | RC_committed.

#[export] Instance receipt_status_eq_dec : EqDecision ReceiptStatus.
Proof. solve_decision. Defined.

Record TaskCommandReceipt := {
  cr_id : uuid;
  cr_actor_profile_id : uuid;
  cr_action_id : TaskAuthorityOperation;
  cr_idempotency_key : uuid;
  cr_request_digest : str;
  cr_batch_transition_receipt_id : option uuid;
  cr_task_id : uuid;
  cr_status : ReceiptStatus;
  cr_assignment_id : option uuid;
  cr_contributor_id : option uuid;
  cr_locked_context_hash : option str;
  cr_response : option StoredResponse;
  cr_created_at : instant;
  cr_committed_at : option instant;
}.

(** ** Values of the ports *)

Record TaskAuthorityDecision := {
  ad_decision_id : uuid;
  ad_identity_link_id : uuid;
  ad_resource_context_digest : str;
  ad_resource_context_json : str;
}.

Record TaskAuthorityFacts := {
  af_operation : TaskAuthorityOperation;
  af_task_id : uuid;
  af_project_id : uuid;
  af_actor_profile_id : uuid;
  af_task_status : TaskStatus;
  af_assigned_to : option uuid;
  af_assignment_id : option uuid;
  af_assignment_contributor_id : option uuid;
  af_locked_context_hash : str;
  af_reason : option str;
  af_idempotency_key : option uuid;
  af_replay_assignment_id : option uuid;
  af_request_digest : option str;
  af_replay_command_id : option uuid;
}.

#[export] Instance task_authority_facts_eq_dec : EqDecision TaskAuthorityFacts.
Proof. solve_decision. Defined.

(** [TaskPolicyLineage] *)
Record TaskPolicyLineage := {
  ln_guide_version : str;
  ln_guide_source_snapshot_id : uuid;
  ln_guide_source_snapshot_hash : str;
  ln_effective_policy_id : uuid;
  ln_effective_policy_hash : str;
  ln_pre_submit_checker_policy_id : uuid;
  ln_pre_submit_checker_bundle_hash : str;
  ln_post_submit_checker_policy_id : uuid;
  ln_post_submit_checker_policy_version : str;
  ln_post_submit_checker_policy_hash : str;
  ln_review_policy_id : uuid;
  ln_review_policy_generation : Z;
  ln_review_policy_hash : str;
  ln_revision_policy_id : uuid;
  ln_revision_policy_generation : Z;
  ln_revision_policy_hash : str;
  ln_contribution_policy_version_id : uuid;
}.

(** [\S] matches: a character outside Unicode's White_Space (which [str.isspace] extends by four
    control characters) *)
Definition white_space (c : Z) : bool := py_isspace c && negb ((28 <=? c) && (c <=? 31)).
Definition some_non_space (s : str) : bool := existsb (λ c, negb (white_space c)) s.

Definition lineage_valid (l : TaskPolicyLineage) : bool :=
  some_non_space (ln_guide_version l) && digest_pattern (ln_guide_source_snapshot_hash l)
  && digest_pattern (ln_effective_policy_hash l) && digest_pattern (ln_pre_submit_checker_bundle_hash l)
  && some_non_space (ln_post_submit_checker_policy_version l)
  && digest_pattern (ln_post_submit_checker_policy_hash l)
  && (0 <? ln_review_policy_generation l) && digest_pattern (ln_review_policy_hash l)
  && (0 <? ln_revision_policy_generation l) && digest_pattern (ln_revision_policy_hash l).

(** [TaskPolicyLineage.model_validate_json] of the locks of a task *)
Definition lineage_of (p : PolicyLocks) (q : PostSubmitLock) : option TaskPolicyLineage :=
  guide ← pl_guide_version p;
  snapshot ← pl_guide_source_snapshot_id p;
  snapshot_hash ← pl_guide_source_snapshot_hash p;
  effective ← pl_effective_policy_id p;
  effective_hash ← pl_effective_policy_hash p;
  pre ← pl_pre_submit_checker_policy_id p;
  bundle ← pl_pre_submit_checker_bundle_hash p;
  post ← ps_id q;
  post_version ← ps_version q;
  post_hash ← ps_hash q;
  review ← pl_review_policy_id p;
  review_generation ← pl_review_policy_generation p;
  review_hash ← pl_review_policy_hash p;
  revision ← pl_revision_policy_id p;
  revision_generation ← pl_revision_policy_generation p;
  revision_hash ← pl_revision_policy_hash p;
  contribution ← pl_contribution_policy_version_id p;
  let l := {| ln_guide_version := guide; ln_guide_source_snapshot_id := snapshot;
              ln_guide_source_snapshot_hash := snapshot_hash; ln_effective_policy_id := effective;
              ln_effective_policy_hash := effective_hash; ln_pre_submit_checker_policy_id := pre;
              ln_pre_submit_checker_bundle_hash := bundle; ln_post_submit_checker_policy_id := post;
              ln_post_submit_checker_policy_version := post_version;
              ln_post_submit_checker_policy_hash := post_hash; ln_review_policy_id := review;
              ln_review_policy_generation := review_generation; ln_review_policy_hash := review_hash;
              ln_revision_policy_id := revision; ln_revision_policy_generation := revision_generation;
              ln_revision_policy_hash := revision_hash;
              ln_contribution_policy_version_id := contribution |} in
  if lineage_valid l then Some l else None.

Record TaskTransitionFacts := {
  tf_operation : TaskAuthorityOperation;
  tf_project_id : uuid;
  tf_task_id : uuid;
  tf_assignment_id : option uuid;
  tf_actor_profile_id : uuid;
  tf_authorization_decision_id : uuid;
  tf_from_status : option TaskStatus;
  tf_to_status : TaskStatus;
  tf_reason : option str;
  tf_source_type : option str;
  tf_locked_lineage : option TaskPolicyLineage;
  tf_authority : option TaskAuthorityDecision;
}.

(** ** Values of assignment invalidation *)

Record AssignmentInvalidationTarget := {
  it_project_id : uuid;
  it_task_id : uuid;
  it_assignment_id : uuid;
  it_contributor_id : uuid;
  it_authority_invalidation_event_id : uuid;
}.

#[export] Instance invalidation_target_eq_dec : EqDecision AssignmentInvalidationTarget.
Proof. solve_decision. Defined.

Record AssignmentInvalidationAuthorityFacts := {
  if_target : AssignmentInvalidationTarget;
  if_cause_event_id : uuid;
  if_delivery_event_id : uuid;
  if_delivery_generation : Z;
  if_cause_digest : str;
  if_invocation_digest : str;
  if_task_status : TaskStatus;
  if_locked_context_hash : str;
}.

Record AssignmentInvalidationAuthority := {
  ia_actor_profile_id : uuid;
  ia_decision_id : uuid;
  ia_resource_context_digest : str;
}.

Record AssignmentInvalidationEvidence := {
  ie_facts : AssignmentInvalidationAuthorityFacts;
  ie_authority : AssignmentInvalidationAuthority;
}.

(** ** The database *)

(** [tb_submitted]: the tasks that have a submission.  [tb_audit] and [tb_releases]: what was
    handed to the audit ports. *)
Record TaskDb := {
  tb_tasks : gmap Z WorkstreamTask;
  tb_assignments : gmap Z TaskAssignment;
  tb_receipts : gmap Z TaskCommandReceipt;
  tb_submitted : list uuid;
  tb_audit : list TaskTransitionFacts;
  tb_releases : list AssignmentInvalidationEvidence;
}.

Definition set_tasks (t : gmap Z WorkstreamTask) (db : TaskDb) : TaskDb :=
  {| tb_tasks := t; tb_assignments := tb_assignments db; tb_receipts := tb_receipts db;
     tb_submitted := tb_submitted db; tb_audit := tb_audit db; tb_releases := tb_releases db |}.

Definition set_assignments (a : gmap Z TaskAssignment) (db : TaskDb) : TaskDb :=
  {| tb_tasks := tb_tasks db; tb_assignments := a; tb_receipts := tb_receipts db;
     tb_submitted := tb_submitted db; tb_audit := tb_audit db; tb_releases := tb_releases db |}.

Definition set_receipts (r : gmap Z TaskCommandReceipt) (db : TaskDb) : TaskDb :=
  {| tb_tasks := tb_tasks db; tb_assignments := tb_assignments db; tb_receipts := r;
     tb_submitted := tb_submitted db; tb_audit := tb_audit db; tb_releases := tb_releases db |}.

Definition add_audit (f : TaskTransitionFacts) (db : TaskDb) : TaskDb :=
  {| tb_tasks := tb_tasks db; tb_assignments := tb_assignments db; tb_receipts := tb_receipts db;
     tb_submitted := tb_submitted db; tb_audit := tb_audit db ++ [f]; tb_releases := tb_releases db |}.

Definition add_release (e : AssignmentInvalidationEvidence) (db : TaskDb) : TaskDb :=
  {| tb_tasks := tb_tasks db; tb_assignments := tb_assignments db; tb_receipts := tb_receipts db;
     tb_submitted := tb_submitted db; tb_audit := tb_audit db; tb_releases := tb_releases db ++ [e] |}.

(** ** Constraints *)

(** The CHECK constraints of [workstream_tasks] *)
Definition task_checks (t : WorkstreamTask) : bool :=
  let p := wt_locks t in
  let q := wt_post t in
  let drafted := bool_decide (wt_status t = TS_draft) in
  let policies := [some (pl_review_policy_id p); some (pl_review_policy_generation p);
                   some (pl_review_policy_hash p); some (pl_revision_policy_id p);
                   some (pl_revision_policy_generation p); some (pl_revision_policy_hash p)] in
  uuid7_shape (wt_id t)
  && (drafted || some (pl_contribution_policy_version_id p))
  && (none (pl_contribution_policy_version_id p) || some (pl_guide_version p))
  && (forallb negb policies || forallb (λ b, b) policies)
  && (drafted || forallb (λ b, b) policies)
  && (drafted || some (ps_id q) && some (ps_version q) && some (ps_hash q) && some (ps_body q)).

(** The CHECK constraints of [task_command_receipts] *)
Definition receipt_checks (r : TaskCommandReceipt) : bool :=
  uuid7_shape (cr_id r) && digest_pattern (cr_request_digest r)
  && (none (cr_batch_transition_receipt_id r)
      || bool_decide (cr_action_id r = OP_SCREEN) || bool_decide (cr_action_id r = OP_RELEASE))
  && match cr_status r with
     | RC_pending => none (cr_assignment_id r) && none (cr_contributor_id r)
                     && none (cr_locked_context_hash r) && none (cr_response r)
                     && none (cr_committed_at r)
     | RC_committed =>
         (if management (cr_action_id r) then none (cr_assignment_id r) && none (cr_contributor_id r)
          else some (cr_assignment_id r) && some (cr_contributor_id r))
         && match cr_locked_context_hash r with Some h => digest_pattern h | None => false end
         && some (cr_response r) && some (cr_committed_at r)
     end
  && (bool_decide (cr_status r = RC_pending) || management (cr_action_id r)
      || bool_decide (cr_contributor_id r = Some (cr_actor_profile_id r))).

Definition same_namespace (actor : uuid) (action : TaskAuthorityOperation) (key : uuid)
    (r : TaskCommandReceipt) : bool :=
  (cr_actor_profile_id r =? actor) && bool_decide (cr_action_id r = action)
  && (cr_idempotency_key r =? key).

Definition active (a : TaskAssignment) : bool := bool_decide (an_status a = AS_active).

(** ** Repository *)

Definition rows {A} (m : gmap Z A) : list A := map snd (map_to_list m).

Definition get_task (task : uuid) (db : TaskDb) : option WorkstreamTask := tb_tasks db !! task.

Definition lock_project_task (project task : uuid) (db : TaskDb) : option WorkstreamTask :=
  t ← tb_tasks db !! task;
  if wt_project_id t =? project then Some t else None.

(** [scalar_one_or_none] of the active assignments: two of them would raise, which the unique index
    excludes *)
Definition get_active_assignment (task : uuid) (db : TaskDb) : result TaskExn (option TaskAssignment) :=
  match List.filter (λ a, (an_task_id a =? task) && active a) (rows (tb_assignments db)) with
  | [] => Ok None
  | [a] => Ok (Some a)
  | _ => Raise TaskRuntimeError
  end.

Definition lock_invalidation_assignment (t : AssignmentInvalidationTarget) (db : TaskDb)
    : option TaskAssignment :=
  a ← tb_assignments db !! it_assignment_id t;
  if (an_task_id a =? it_task_id t) && (an_project_id a =? it_project_id t)
     && (an_contributor_id a =? it_contributor_id t) then Some a else None.

Definition has_submission (task : uuid) (db : TaskDb) : bool := bool_decide (task ∈ tb_submitted db).

(** What decides whether the database admits a flush beyond the constraints of this file *)
Abbreviation Admits := (TaskDb → TaskDb → bool).

(** Inserting a task *)
Definition add_task (admits : Admits) (t : WorkstreamTask) (db : TaskDb) : result TaskExn TaskDb :=
  let db' := set_tasks (<[wt_id t := t]> (tb_tasks db)) db in
  _ ← ensure (task_checks t && none (tb_tasks db !! wt_id t)) (TaskIntegrityError (lit "workstream_tasks"));
  _ ← ensure (none (tc_external_task_id (wt_content t))
              || negb (existsb (λ x, (wt_project_id x =? wt_project_id t)
                                     && bool_decide (tc_external_task_id (wt_content x)
                                                     = tc_external_task_id (wt_content t)))
                         (rows (tb_tasks db))))
        (TaskIntegrityError (lit "uq_workstream_tasks_project_external_id"));
  _ ← ensure (admits db db') (TaskIntegrityError (lit "other"));
  Ok db'.

(** Flushing a changed task *)
Definition put_task (admits : Admits) (t : WorkstreamTask) (db : TaskDb) : result TaskExn TaskDb :=
  let db' := set_tasks (<[wt_id t := t]> (tb_tasks db)) db in
  _ ← ensure (task_checks t) (TaskIntegrityError (lit "workstream_tasks"));
  _ ← ensure (admits db db') (TaskIntegrityError (lit "other"));
  Ok db'.

Definition one_active (a : TaskAssignment) (db : TaskDb) : bool :=
  negb (active a)
  || negb (existsb (λ x, negb (an_id x =? an_id a) && (an_task_id x =? an_task_id a) && active x)
             (rows (tb_assignments db))).

Definition add_assignment (admits : Admits) (a : TaskAssignment) (db : TaskDb) : result TaskExn TaskDb :=
  let db' := set_assignments (<[an_id a := a]> (tb_assignments db)) db in
  _ ← ensure (uuid7_shape (an_id a) && none (tb_assignments db !! an_id a))
        (TaskIntegrityError (lit "task_assignments"));
  _ ← ensure (one_active a db) (TaskIntegrityError (lit "uq_task_assignments_one_active_per_task"));
  _ ← ensure (admits db db') (TaskIntegrityError (lit "other"));
  Ok db'.

Definition put_assignment (admits : Admits) (a : TaskAssignment) (db : TaskDb) : result TaskExn TaskDb :=
  let db' := set_assignments (<[an_id a := a]> (tb_assignments db)) db in
  _ ← ensure (uuid7_shape (an_id a)) (TaskIntegrityError (lit "task_assignments"));
  _ ← ensure (one_active a db) (TaskIntegrityError (lit "uq_task_assignments_one_active_per_task"));
  _ ← ensure (admits db db') (TaskIntegrityError (lit "other"));
  Ok db'.

Definition put_receipt (admits : Admits) (r : TaskCommandReceipt) (db : TaskDb) : result TaskExn TaskDb :=
  let db' := set_receipts (<[cr_id r := r]> (tb_receipts db)) db in
  _ ← ensure (receipt_checks r) (TaskIntegrityError (lit "task_command_receipts"));
  _ ← ensure (admits db db') (TaskIntegrityError (lit "other"));
  Ok db'.
