(* ===== verification/TaskCommands.v ===== *)
(** * Task commands
    (modules/tasks/authorized_commands.py, tasks/command_replay.py, tasks/service.py,
    authorization/domain/task_authority.py, audit/schemas.py)

    Creating, screening, releasing and claiming a task, each one transaction: the command is
    reserved under the caller's idempotency key, the task and its active assignment are locked,
    the authority is consulted on exactly those facts, and the command is either recovered from
    its receipt or carried out, recorded and committed with its response.  Ports, clock readings
    and new identities are the inputs of a call.  The checks that a preparation is used in the
    transaction that made it hold by construction here. *)

From S2P Require Import Prelude Text Digest Json Instant Acceptance Rows PolicyApi TaskStore.

(** ** Project and checker ports *)

Record GuidePolicySelection := { gs_policy_id : uuid; gs_generation : Z; gs_policy_hash : str }.

(** The fields of [ProjectLockedPolicyContextFacts] and of its activation command the task module
    reads *)
Record ProjectLockedPolicyContextFacts := {
  pc_project_id : uuid;
  pc_guide_version : str;
  pc_source_snapshot_id : uuid;
  pc_source_snapshot_hash : str;
  pc_effective_policy_id : uuid;
  pc_effective_policy_hash : str;
  pc_pre_submit_policy_id : uuid;
  pc_pre_submit_policy_bundle_hash : str;
  pc_contribution_policy_version_id : uuid;
  pc_target_policy_id : uuid;
  pc_target_policy_hash : str;
  pc_review : GuidePolicySelection;
  pc_revision : GuidePolicySelection;
  pc_compiled_post_submit_policy : str;
  pc_external_checker_policies : str;
}.

Record ProjectLockedPolicyContextRequest := {
  pr_project_id : uuid;
  pr_guide_version : str;
  pr_source_snapshot_id : uuid;
  pr_source_snapshot_hash : str;
  pr_effective_policy_id : uuid;
  pr_effective_policy_hash : str;
  pr_pre_submit_policy_id : uuid;
  pr_pre_submit_policy_bundle_hash : str;
}.

(** [ProjectLockedPolicyContextRequest.__post_init__] *)
Definition context_request_valid (r : ProjectLockedPolicyContextRequest) : bool :=
  negb (bool_decide (strip (pr_guide_version r) = [])) && digest_pattern (pr_source_snapshot_hash r)
  && digest_pattern (pr_effective_policy_hash r) && digest_pattern (pr_pre_submit_policy_bundle_hash r).

(** The project port; [None] is a refusal the caller handles *)
Record Projects := {
  pj_display : uuid → option uuid;
  pj_active : uuid → option ProjectLockedPolicyContextFacts;
  pj_locked : ProjectLockedPolicyContextRequest → option ProjectLockedPolicyContextFacts;
}.

(** A validated post-submit policy *)
Record LockedExternalPostSubmitPolicy := {
  xp_schema_version : str;
  xp_capability_ids : list str;
  xp_policy_sha256 : str;
  xp_entries : str;
}.

#[export] Instance external_policy_eq_dec : EqDecision LockedExternalPostSubmitPolicy.
Proof. solve_decision. Defined.

(** The validators of the checker module: the post-submit policy of a text of both policies, of a
    text of one, and of a stored value *)
Record CheckerPolicies := {
  ck_policies : str → option LockedExternalPostSubmitPolicy;
  ck_post : str → option LockedExternalPostSubmitPolicy;
  ck_stored : json → option LockedExternalPostSubmitPolicy;
}.

(** ** Inputs of a command *)

Record TaskInputs := {
  ti_actor_id : uuid;
  ti_authorize : TaskAuthorityFacts → result TaskExn TaskAuthorityDecision;
  ti_audit : TaskTransitionFacts → bool;
  ti_projects : Projects;
  ti_checkers : CheckerPolicies;
  ti_admits : Admits;
  ti_receipt_id : uuid;
  ti_task_id : uuid;
  ti_assignment_id : uuid;
  ti_created_at : instant;
  ti_updated_at : instant;
  ti_assigned_at : instant;
  ti_accepted_at : instant;
  ti_committed_at : instant;
  ti_deadline_text : instant → str;
}.

(** ** Locked contexts (service.py) *)

(** [not getattr(task, field)]: absent, empty or zero *)
Definition absent_text (o : option str) : bool := match o with Some (_ :: _) => false | _ => true end.
Definition absent_int (o : option Z) : bool := match o with Some n => n =? 0 | None => true end.
Definition absent_body (o : option json) : bool :=
  match o with
  | Some (JObj []) | Some (JArr []) | Some (JStr []) | Some (JInt 0) | Some (JBool false)
  | Some JNull | None => true
  | Some _ => false
  end.

(** [LOCKED_CONTEXT_REQUIRED_FIELDS], each with whether a task lacks it *)
Definition locked_context_fields (t : WorkstreamTask) : list (str * bool) :=
  let p := wt_locks t in
  let q := wt_post t in
  [(lit "locked_guide_version", absent_text (pl_guide_version p));
   (lit "locked_post_submit_checker_policy_id", none (ps_id q));
   (lit "locked_post_submit_checker_policy_version", absent_text (ps_version q));
   (lit "locked_post_submit_checker_policy_hash", absent_text (ps_hash q));
   (lit "locked_post_submit_checker_policy_body", absent_body (ps_body q));
   (lit "locked_review_policy_id", none (pl_review_policy_id p));
   (lit "locked_review_policy_generation", absent_int (pl_review_policy_generation p));
   (lit "locked_review_policy_hash", absent_text (pl_review_policy_hash p));
   (lit "locked_revision_policy_id", none (pl_revision_policy_id p));
   (lit "locked_revision_policy_generation", absent_int (pl_revision_policy_generation p));
   (lit "locked_revision_policy_hash", absent_text (pl_revision_policy_hash p));
   (lit "locked_contribution_policy_version_id", none (pl_contribution_policy_version_id p));
   (lit "locked_guide_source_snapshot_id", none (pl_guide_source_snapshot_id p));
   (lit "locked_guide_source_snapshot_hash", absent_text (pl_guide_source_snapshot_hash p));
   (lit "locked_effective_project_submission_artifact_policy_id", none (pl_effective_policy_id p));
   (lit "locked_effective_project_submission_artifact_policy_hash", absent_text (pl_effective_policy_hash p));
   (lit "locked_pre_submit_checker_policy_id", none (pl_pre_submit_checker_policy_id p));
   (lit "locked_pre_submit_checker_bundle_hash", absent_text (pl_pre_submit_checker_bundle_hash p))].

Definition _missing_locked_context_fields (t : WorkstreamTask) : list str :=
  map fst (List.filter snd (locked_context_fields t)).

Definition complete_context (t : WorkstreamTask) : bool :=
  bool_decide (_missing_locked_context_fields t = []).

(** [_ensure_locked_context] *)
Definition _ensure_locked_context (t : WorkstreamTask) : result TaskExn unit :=
  ensure (complete_context t) TaskTransitionBlocked.

(** The value whose hash is [locked_context_hash] *)
Definition locked_context_json (t : WorkstreamTask) : json :=
  let p := wt_locks t in
  let q := wt_post t in
  JObj [kv "locked_guide_version" (json_opt JStr (pl_guide_version p));
        kv "locked_post_submit_checker_policy_id" (json_opt json_uuid (ps_id q));
        kv "locked_post_submit_checker_policy_version" (json_opt JStr (ps_version q));
        kv "locked_post_submit_checker_policy_hash" (json_opt JStr (ps_hash q));
        kv "locked_post_submit_checker_policy_body" (json_opt (λ v, v) (ps_body q));
        kv "locked_review_policy_id" (json_opt json_uuid (pl_review_policy_id p));
        kv "locked_review_policy_generation" (json_opt JInt (pl_review_policy_generation p));
        kv "locked_review_policy_hash" (json_opt JStr (pl_review_policy_hash p));
        kv "locked_revision_policy_id" (json_opt json_uuid (pl_revision_policy_id p));
        kv "locked_revision_policy_generation" (json_opt JInt (pl_revision_policy_generation p));
        kv "locked_revision_policy_hash" (json_opt JStr (pl_revision_policy_hash p));
        kv "locked_contribution_policy_version_id" (json_opt json_uuid (pl_contribution_policy_version_id p));
        kv "locked_guide_source_snapshot_id" (json_opt json_uuid (pl_guide_source_snapshot_id p));
        kv "locked_guide_source_snapshot_hash" (json_opt JStr (pl_guide_source_snapshot_hash p));
        kv "locked_effective_project_submission_artifact_policy_id" (json_opt json_uuid (pl_effective_policy_id p));
        kv "locked_effective_project_submission_artifact_policy_hash" (json_opt JStr (pl_effective_policy_hash p));
        kv "locked_pre_submit_checker_policy_id" (json_opt json_uuid (pl_pre_submit_checker_policy_id p));
        kv "locked_pre_submit_checker_bundle_hash" (json_opt JStr (pl_pre_submit_checker_bundle_hash p))].

(** [_policy_stamps]; [None] is the [ValueError] of a body that is not JSON *)
Definition _policy_stamps (f : ProjectLockedPolicyContextFacts) : option (PolicyLocks * PostSubmitLock) :=
  body ← loads (pc_compiled_post_submit_policy f);
  Some ({| pl_contribution_policy_version_id := Some (pc_contribution_policy_version_id f);
           pl_guide_version := Some (pc_guide_version f);
           pl_review_policy_id := Some (gs_policy_id (pc_review f));
           pl_review_policy_generation := Some (gs_generation (pc_review f));
           pl_review_policy_hash := Some (gs_policy_hash (pc_review f));
           pl_revision_policy_id := Some (gs_policy_id (pc_revision f));
           pl_revision_policy_generation := Some (gs_generation (pc_revision f));
           pl_revision_policy_hash := Some (gs_policy_hash (pc_revision f));
           pl_guide_source_snapshot_id := Some (pc_source_snapshot_id f);
           pl_guide_source_snapshot_hash := Some (pc_source_snapshot_hash f);
           pl_effective_policy_id := Some (pc_effective_policy_id f);
           pl_effective_policy_hash := Some (pc_effective_policy_hash f);
           pl_pre_submit_checker_policy_id := Some (pc_pre_submit_policy_id f);
           pl_pre_submit_checker_bundle_hash := Some (pc_pre_submit_policy_bundle_hash f) |},
        {| ps_id := Some (pc_target_policy_id f); ps_version := Some (pc_guide_version f);
           ps_hash := Some (pc_target_policy_hash f); ps_body := Some body |}).

(** [getattr(task, name) == value] for the stamps of the post-submit policy *)
Definition post_eq (a b : PostSubmitLock) : bool :=
  bool_decide (ps_id a = ps_id b) && bool_decide (ps_version a = ps_version b)
  && bool_decide (ps_hash a = ps_hash b)
  && match ps_body a, ps_body b with
     | Some x, Some y => py_eq x y
     | None, None => true
     | _, _ => false
     end.

(** [_parse_post_submit_policy_summary]: the validated policy the summary is made of *)
Definition _parse_post_submit_policy_summary (k : CheckerPolicies) (f : ProjectLockedPolicyContextFacts)
    : option LockedExternalPostSubmitPolicy :=
  body ← loads (pc_compiled_post_submit_policy f);
  selected ← ck_stored k body;
  approved ← ck_policies k (pc_external_checker_policies f);
  if bool_decide (selected = approved) then Some selected else None.

(** [_validate_installed_plans] *)
Definition _validate_installed_plans (k : CheckerPolicies) (f : ProjectLockedPolicyContextFacts)
    : result TaskExn unit :=
  policies ← oget (ck_policies k (pc_external_checker_policies f)) TaskProjectNotReady;
  post ← oget (ck_post k (pc_compiled_post_submit_policy f)) TaskProjectNotReady;
  ensure (bool_decide (post = policies)) TaskProjectNotReady.

Definition _load_active_policy_context (i : TaskInputs) (project : uuid)
    : result TaskExn ProjectLockedPolicyContextFacts :=
  facts ← oget (pj_active (ti_projects i) project) TaskProjectNotReady;
  _ ← _validate_installed_plans (ti_checkers i) facts;
  Ok facts.

(** [_validate_locked_task_context] *)
Definition _validate_locked_task_context (k : CheckerPolicies) (t : WorkstreamTask)
    (f : ProjectLockedPolicyContextFacts) : result TaskExn ProjectLockedPolicyContextFacts :=
  _ ← ensure (complete_context t) TaskLockedContextInvalid;
  expected ← oget (_policy_stamps f) TaskLockedContextInvalid;
  _ ← ensure (bool_decide (wt_locks t = expected.1) && post_eq (wt_post t) expected.2)
        TaskLockedContextInvalid;
  _ ← oget (_parse_post_submit_policy_summary k f) TaskLockedContextInvalid;
  Ok f.

Definition context_request (t : WorkstreamTask) : option ProjectLockedPolicyContextRequest :=
  let p := wt_locks t in
  guide ← pl_guide_version p;
  snapshot ← pl_guide_source_snapshot_id p;
  snapshot_hash ← pl_guide_source_snapshot_hash p;
  effective ← pl_effective_policy_id p;
  effective_hash ← pl_effective_policy_hash p;
  pre ← pl_pre_submit_checker_policy_id p;
  bundle ← pl_pre_submit_checker_bundle_hash p;
  Some {| pr_project_id := wt_project_id t; pr_guide_version := guide; pr_source_snapshot_id := snapshot;
          pr_source_snapshot_hash := snapshot_hash; pr_effective_policy_id := effective;
          pr_effective_policy_hash := effective_hash; pr_pre_submit_policy_id := pre;
          pr_pre_submit_policy_bundle_hash := bundle |}.

Definition _load_locked_task_context (i : TaskInputs) (t : WorkstreamTask)
    : result TaskExn ProjectLockedPolicyContextFacts :=
  _ ← ensure (complete_context t) TaskLockedContextInvalid;
  request ← oget (context_request t) TaskLockedContextInvalid;
  _ ← ensure (context_request_valid request) TaskLockedContextInvalid;
  facts ← oget (pj_locked (ti_projects i) request) TaskLockedContextInvalid;
  _validate_locked_task_context (ti_checkers i) t facts.

(** [_validate_task_contract_fields] *)
Definition _validate_task_contract_fields (t : WorkstreamTask) : result TaskExn unit :=
  ensure (negb (bool_decide (strip (tc_description (wt_content t)) = []))
          && negb (bool_decide (strip (tc_title (wt_content t)) = []))) TaskValidationError.

Definition _ensure_transition_allowed (from_status to_status : TaskStatus) : result TaskExn unit :=
  ensure (transition_allowed from_status to_status) TaskTransitionBlocked.

(** ** Responses *)

(** [task_response_for_authority] *)
Definition redacted_locks (p : PolicyLocks) : PolicyLocks :=
  {| pl_contribution_policy_version_id := pl_contribution_policy_version_id p;
     pl_guide_version := pl_guide_version p; pl_review_policy_id := pl_review_policy_id p;
     pl_review_policy_generation := pl_review_policy_generation p;
     pl_review_policy_hash := pl_review_policy_hash p; pl_revision_policy_id := pl_revision_policy_id p;
     pl_revision_policy_generation := pl_revision_policy_generation p;
     pl_revision_policy_hash := pl_revision_policy_hash p; pl_guide_source_snapshot_id := None;
     pl_guide_source_snapshot_hash := None; pl_effective_policy_id := None;
     pl_effective_policy_hash := None; pl_pre_submit_checker_policy_id := None;
     pl_pre_submit_checker_bundle_hash := None |}.

Definition redacted_content (c : TaskCreate) : TaskCreate :=
  {| tc_title := tc_title c; tc_description := tc_description c; tc_task_type := tc_task_type c;
     tc_difficulty := tc_difficulty c; tc_skill_tags := tc_skill_tags c;
     tc_estimated_time_minutes := tc_estimated_time_minutes c; tc_source_type := tc_source_type c;
     tc_source_ref := None; tc_source_payload_hash := None; tc_import_batch_id := None;
     tc_external_task_id := None; tc_acceptance_criteria := tc_acceptance_criteria c;
     tc_rejection_criteria := tc_rejection_criteria c; tc_deadline_at := tc_deadline_at c |}.

Definition task_response_for_authority (t : WorkstreamTask) (can_manage : bool) : TaskResponse :=
  {| rs_id := wt_id t; rs_project_id := wt_project_id t;
     rs_locks := if can_manage then wt_locks t else redacted_locks (wt_locks t);
     rs_content := if can_manage then wt_content t else redacted_content (wt_content t);
     rs_status := wt_status t; rs_created_by := if can_manage then Some (wt_created_by t) else None;
     rs_assigned_to := if can_manage then wt_assigned_to t else None;
     rs_created_at := wt_created_at t; rs_updated_at := wt_updated_at t |}.

(** ** Replay (command_replay.py) *)

Definition request_value (task : uuid) (reason : option str) (batch : option uuid) : json :=
  JObj ([kv "task_id" (json_uuid task); kv "reason" (json_opt JStr reason)]
        ++ match batch with Some b => [kv "batch_transition_receipt_id" (json_uuid b)] | None => [] end).

Definition payload_json (i : TaskInputs) (c : TaskCreate) : json :=
  JObj [kv "title" (JStr (tc_title c)); kv "description" (JStr (tc_description c));
        kv "task_type" (json_opt JStr (tc_task_type c)); kv "difficulty" (json_opt JStr (tc_difficulty c));
        kv "skill_tags" (JArr (map JStr (tc_skill_tags c)));
        kv "estimated_time_minutes" (json_opt JInt (tc_estimated_time_minutes c));
        kv "source_type" (JStr (tc_source_type c)); kv "source_ref" (json_opt JStr (tc_source_ref c));
        kv "source_payload_hash" (json_opt JStr (tc_source_payload_hash c));
        kv "import_batch_id" (json_opt JStr (tc_import_batch_id c));
        kv "external_task_id" (json_opt JStr (tc_external_task_id c));
        kv "acceptance_criteria" (json_opt JStr (tc_acceptance_criteria c));
        kv "rejection_criteria" (json_opt JStr (tc_rejection_criteria c));
        kv "deadline_at" (json_opt (JStr ∘ ti_deadline_text i) (tc_deadline_at c))].

Definition creation_value (i : TaskInputs) (project : uuid) (c : TaskCreate) : json :=
  JObj [kv "project_id" (json_uuid project); kv "payload" (payload_json i c)].

Definition digest_of (v : json) : result TaskExn str := oget (canonical_json_hash v) TaskValueError.

Definition pending_receipt (i : TaskInputs) (op : TaskAuthorityOperation) (key task : uuid) (digest : str)
    (batch : option uuid) : TaskCommandReceipt :=
  {| cr_id := ti_receipt_id i; cr_actor_profile_id := ti_actor_id i; cr_action_id := op;
     cr_idempotency_key := key; cr_request_digest := digest; cr_batch_transition_receipt_id := batch;
     cr_task_id := task; cr_status := RC_pending; cr_assignment_id := None; cr_contributor_id := None;
     cr_locked_context_hash := None; cr_response := None; cr_created_at := ti_created_at i;
     cr_committed_at := None |}.

Definition find_receipt (actor : uuid) (op : TaskAuthorityOperation) (key : uuid) (db : TaskDb)
    : option TaskCommandReceipt :=
  List.find (same_namespace actor op key) (rows (tb_receipts db)).

(** [reserve]: insert, or read what the namespace already holds *)
Definition reserve (i : TaskInputs) (op : TaskAuthorityOperation) (key task : uuid) (value : json)
    (batch : option uuid) (db : TaskDb) : result TaskExn (TaskCommandReceipt * str * bool * TaskDb) :=
  _ ← ensure (none batch || bool_decide (op = OP_SCREEN) || bool_decide (op = OP_RELEASE)) TaskValueError;
  digest ← digest_of value;
  match find_receipt (ti_actor_id i) op key db with
  | Some r => Ok (r, digest, cr_id r =? ti_receipt_id i, db)
  | None =>
      let r := pending_receipt i op key task digest batch in
      _ ← ensure (none (tb_receipts db !! cr_id r)) (TaskIntegrityError (lit "task_command_receipts"));
      db ← put_receipt (ti_admits i) r db;
      Ok (r, digest, true, db)
  end.

Definition manager_replay (r : TaskCommandReceipt) (op : TaskAuthorityOperation) (task actor : uuid)
    (key : option uuid) : option uuid :=
  if bool_decide (cr_status r = RC_committed) && bool_decide (cr_action_id r = op)
     && (cr_task_id r =? task) && (cr_actor_profile_id r =? actor)
     && bool_decide (key = Some (cr_idempotency_key r))
  then Some (cr_id r) else None.

Definition replay_assignment (r : TaskCommandReceipt) (task : uuid) : option uuid :=
  if bool_decide (cr_status r = RC_committed) && (cr_task_id r =? task) then cr_assignment_id r else None.

Definition mismatch : TaskExn := TaskReplayConflict (lit "idempotency_mismatch").
Definition state_changed : TaskExn := TaskReplayConflict (lit "task_replay_state_changed").

Definition recover (r : TaskCommandReceipt) (digest : str) (f : TaskAuthorityFacts) (t : WorkstreamTask)
    (assignment : option TaskAssignment) (reserved : bool) : result TaskExn (option StoredResponse) :=
  _ ← ensure (str_eqb (cr_request_digest r) digest && (cr_task_id r =? wt_id t)) mismatch;
  if bool_decide (cr_status r = RC_pending) then
    _ ← ensure reserved (TaskReplayConflict (lit "idempotency_pending"));
    Ok None
  else if management (af_operation f) then
    match cr_response r with
    | Some (RTask response) =>
        _ ← ensure (none (cr_assignment_id r) && none (cr_contributor_id r)
                    && bool_decide (cr_locked_context_hash r = Some (af_locked_context_hash f))
                    && (rs_id response =? wt_id t) && (rs_project_id response =? wt_project_id t)
                    && bool_decide (rs_status response = wt_status t) && none assignment
                    && none (wt_assigned_to t)) state_changed;
        Ok (Some (RTask response))
    | _ => Raise state_changed
    end
  else
    match assignment with
    | None => Raise state_changed
    | Some a =>
        _ ← ensure (active a && bool_decide (cr_assignment_id r = Some (an_id a))
                    && bool_decide (cr_contributor_id r = Some (an_contributor_id a))
                    && bool_decide (wt_assigned_to t = Some (an_contributor_id a))
                    && bool_decide (cr_locked_context_hash r = Some (af_locked_context_hash f)))
              state_changed;
        match cr_response r with
        | Some (RTaskWithAssignment task b) =>
            _ ← ensure ((rs_id task =? wt_id t) && (rs_project_id task =? wt_project_id t)
                        && bool_decide (rs_status task = wt_status t) && none (rs_assigned_to task)
                        && (an_id b =? an_id a) && (an_task_id b =? wt_id t)
                        && (an_contributor_id b =? an_contributor_id a)) state_changed;
            Ok (Some (RTaskWithAssignment task b))
        | _ => Raise state_changed
        end
    end.

(** [complete] *)
Definition completed (i : TaskInputs) (r : TaskCommandReceipt) (assignment : option TaskAssignment)
    (f : TaskAuthorityFacts) (response : StoredResponse) : TaskCommandReceipt :=
  {| cr_id := cr_id r; cr_actor_profile_id := cr_actor_profile_id r; cr_action_id := cr_action_id r;
     cr_idempotency_key := cr_idempotency_key r; cr_request_digest := cr_request_digest r;
     cr_batch_transition_receipt_id := cr_batch_transition_receipt_id r; cr_task_id := cr_task_id r;
     cr_status := RC_committed; cr_assignment_id := an_id <$> assignment;
     cr_contributor_id := an_contributor_id <$> assignment;
     cr_locked_context_hash := Some (af_locked_context_hash f); cr_response := Some response;
     cr_created_at := cr_created_at r; cr_committed_at := Some (ti_committed_at i) |}.

Definition complete (i : TaskInputs) (r : TaskCommandReceipt) (assignment : option TaskAssignment)
    (f : TaskAuthorityFacts) (response : StoredResponse) (db : TaskDb) : result TaskExn TaskDb :=
  _ ← ensure (bool_decide (cr_status r = RC_pending)) TaskRuntimeError;
  put_receipt (ti_admits i) (completed i r assignment f response) db.

(** ** Facts and audit *)

Definition _facts (i : TaskInputs) (t : WorkstreamTask) (assignment : option TaskAssignment)
    (op : TaskAuthorityOperation) (reason : option str) (key replay : option uuid)
    (request_digest : option str) (command : option uuid) : result TaskExn TaskAuthorityFacts :=
  context ← digest_of (locked_context_json t);
  Ok {| af_operation := op; af_task_id := wt_id t; af_project_id := wt_project_id t;
        af_actor_profile_id := ti_actor_id i; af_task_status := wt_status t;
        af_assigned_to := wt_assigned_to t; af_assignment_id := an_id <$> assignment;
        af_assignment_contributor_id := an_contributor_id <$> assignment;
        af_locked_context_hash := context; af_reason := reason; af_idempotency_key := key;
        af_replay_assignment_id := replay; af_request_digest := request_digest;
        af_replay_command_id := command |}.

(** *** The authority module: [task_resource_guard] for these actions *)

Definition own_assignment (f : TaskAuthorityFacts) : bool :=
  some (af_assignment_id f)
  && bool_decide (af_assignment_contributor_id f = Some (af_actor_profile_id f))
  && bool_decide (af_assigned_to f = Some (af_actor_profile_id f)).

Definition unassigned_ready (f : TaskAuthorityFacts) : bool :=
  bool_decide (af_task_status f = TS_ready) && none (af_assigned_to f) && none (af_assignment_id f)
  && none (af_assignment_contributor_id f).

Definition task_resource_guard (f : TaskAuthorityFacts) : bool :=
  if management (af_operation f) then
    some (af_idempotency_key f) && some (af_request_digest f) && none (af_replay_assignment_id f)
    && (some (af_replay_command_id f)
        || none (af_assigned_to f) && none (af_assignment_id f) && none (af_assignment_contributor_id f)
           && bool_decide (af_task_status f
                           = match af_operation f with OP_RELEASE => TS_screening | _ => TS_draft end))
  else
    none (af_request_digest f) && none (af_replay_command_id f)
    && match af_replay_assignment_id f with
       | Some a => some (af_idempotency_key f) && bool_decide (af_assignment_id f = Some a)
                   && bool_decide (af_task_status f = TS_in_progress) && own_assignment f
       | None => unassigned_ready f
       end.

(** [_authorize_facts]: the guard, and what the authority decides beyond it *)
Definition _authorize_facts (i : TaskInputs) (f : TaskAuthorityFacts) : result TaskExn TaskAuthorityDecision :=
  _ ← ensure (task_resource_guard f) TaskAuthorityDenied;
  ti_authorize i f.

(** *** The audit module: the transition each event must record *)

Definition audited_transition (op : TaskAuthorityOperation) : option TaskStatus * TaskStatus :=
  match op with
  | OP_CREATE => (None, TS_draft)
  | OP_SCREEN => (Some TS_draft, TS_screening)
  | OP_RELEASE => (Some TS_screening, TS_ready)
  | OP_CLAIM => (Some TS_ready, TS_in_progress)
  end.

Definition blank (reason : option str) : bool :=
  match reason with Some r => bool_decide (strip r = []) | None => true end.

Definition audit_event_valid (f : TaskTransitionFacts) : bool :=
  Bool.eqb (some (tf_source_type f)) (bool_decide (tf_operation f = OP_CREATE))
  && Bool.eqb (some (tf_locked_lineage f))
       (bool_decide (tf_operation f = OP_SCREEN) || bool_decide (tf_operation f = OP_RELEASE))
  && bool_decide ((tf_from_status f, tf_to_status f) = audited_transition (tf_operation f))
  && (negb (bool_decide (tf_operation f = OP_RELEASE)) || negb (blank (tf_reason f))).

(** [record] *)
Definition record (i : TaskInputs) (f : TaskTransitionFacts) (db : TaskDb) : result TaskExn TaskDb :=
  _ ← ensure (audit_event_valid f) TaskValueError;
  _ ← ensure (ti_audit i f) TaskRuntimeError;
  Ok (add_audit f db).

(** [_record_management] *)
Definition _record_management (i : TaskInputs) (t : WorkstreamTask) (op : TaskAuthorityOperation)
    (decision : TaskAuthorityDecision) (before : option TaskStatus) (reason : option str) (db : TaskDb)
    : result TaskExn TaskDb :=
  lineage ← (if bool_decide (op = OP_CREATE) then Ok None
             else l ← oget (lineage_of (wt_locks t) (wt_post t)) TaskValueError; Ok (Some l));
  record i {| tf_operation := op; tf_project_id := wt_project_id t; tf_task_id := wt_id t;
              tf_assignment_id := None; tf_actor_profile_id := ti_actor_id i;
              tf_authorization_decision_id := ad_decision_id decision; tf_from_status := before;
              tf_to_status := wt_status t; tf_reason := reason;
              tf_source_type := if bool_decide (op = OP_CREATE) then Some (tc_source_type (wt_content t))
                                else None;
              tf_locked_lineage := lineage; tf_authority := Some decision |} db.

(** ** Creation *)

Record TaskCreationPreparation := {
  cp_project : uuid;
  cp_task : uuid;
  cp_payload : TaskCreate;
  cp_receipt : TaskCommandReceipt;
  cp_digest : str;
  cp_reserved : bool;
  cp_current : option WorkstreamTask;
  cp_facts : TaskAuthorityFacts;
}.

(** The draft a payload describes *)
Definition draft_task (i : TaskInputs) (task project : uuid) (c : TaskCreate) : WorkstreamTask :=
  {| wt_id := task; wt_project_id := project; wt_locks := no_locks; wt_post := no_post; wt_content := c;
     wt_status := TS_draft; wt_created_by := ti_actor_id i; wt_assigned_to := None;
     wt_created_at := ti_created_at i; wt_updated_at := ti_created_at i |}.

Definition prepare_creation (i : TaskInputs) (project : uuid) (c : TaskCreate) (key : uuid) (db : TaskDb)
    : result TaskExn (TaskCreationPreparation * TaskDb) :=
  x ← reserve i OP_CREATE key (ti_task_id i) (creation_value i project c) None db;
  let '(receipt, digest, reserved, db) := (x : TaskCommandReceipt * str * bool * TaskDb) in
  let current := if reserved then None else get_task (cr_task_id receipt) db in
  let proposed := draft_task i (cr_task_id receipt) project c in
  facts ← _facts i proposed None OP_CREATE None (Some key) None (Some digest)
            (manager_replay receipt OP_CREATE (wt_id proposed) (ti_actor_id i) (Some key));
  Ok ({| cp_project := project; cp_task := wt_id proposed; cp_payload := c; cp_receipt := receipt;
         cp_digest := digest; cp_reserved := reserved; cp_current := current; cp_facts := facts |}, db).

Definition authorize_creation (i : TaskInputs) (p : TaskCreationPreparation) : result TaskExn TaskAuthorityDecision :=
  _ ← ensure (af_actor_profile_id (cp_facts p) =? ti_actor_id i) TaskRuntimeError;
  _authorize_facts i (cp_facts p).

Definition stage_creation (i : TaskInputs) (p : TaskCreationPreparation) (decision : TaskAuthorityDecision)
    (db : TaskDb) : result TaskExn (TaskResponse * TaskDb) :=
  _ ← ensure (af_actor_profile_id (cp_facts p) =? ti_actor_id i) TaskRuntimeError;
  digest ← digest_of (creation_value i (cp_project p) (cp_payload p));
  _ ← ensure (str_eqb digest (cp_digest p) && (cr_task_id (cp_receipt p) =? cp_task p)) TaskValidationError;
  project ← oget (pj_display (ti_projects i) (cp_project p)) TaskProjectNotReady;
  _ ← ensure (project =? cp_project p) TaskProjectNotReady;
  let task := match cp_current p with
              | Some t => t
              | None => draft_task i (cp_task p) (cp_project p) (cp_payload p)
              end in
  facts ← _facts i task None OP_CREATE None None None None None;
  replayed ← recover (cp_receipt p) (cp_digest p) facts task None (cp_reserved p);
  match replayed with
  | Some (RTask response) => Ok (response, db)
  | Some (RTaskWithAssignment response _) => Ok (response, db)
  | None =>
      db ← match add_task (ti_admits i) task db with
           | Raise (TaskIntegrityError name) =>
               if str_eqb name (lit "uq_workstream_tasks_project_external_id")
               then Raise (TaskReplayConflict (lit "external_task_id_conflict"))
               else Raise (TaskIntegrityError name)
           | other => other
           end;
      db ← _record_management i task OP_CREATE decision None None db;
      let response := task_response_for_authority task true in
      db ← complete i (cp_receipt p) None facts (RTask response) db;
      Ok (response, db)
  end.

(** [create_task] *)
Definition create_task (i : TaskInputs) (project : uuid) (c : TaskCreate) (key : uuid) (db : TaskDb)
    : result TaskExn (TaskResponse * TaskDb) :=
  x ← prepare_creation i project c key db;
  decision ← authorize_creation i x.1;
  stage_creation i x.1 decision x.2.

(** ** Screening and release *)

Record TaskTransitionPreparation := {
  tp_task : uuid;
  tp_assignment : option TaskAssignment;
  tp_operation : TaskAuthorityOperation;
  tp_reason : option str;
  tp_receipt : TaskCommandReceipt;
  tp_digest : str;
  tp_reserved : bool;
  tp_facts : TaskAuthorityFacts;
  tp_batch : option uuid;
}.

(** A project context resolved once for several tasks *)
Record TaskTransitionContextPreparation := {
  xc_project_id : uuid;
  xc_operation : TaskAuthorityOperation;
  xc_locked_context_hash : str;
  xc_facts : ProjectLockedPolicyContextFacts;
}.

Definition find_task (project : option uuid) (task : uuid) (db : TaskDb) : option WorkstreamTask :=
  match project with Some p => lock_project_task p task db | None => get_task task db end.

Definition prepare_transition (i : TaskInputs) (task : uuid) (op : TaskAuthorityOperation)
    (reason : option str) (key : uuid) (project batch : option uuid) (db : TaskDb)
    : result TaskExn (TaskTransitionPreparation * TaskDb) :=
  _ ← ensure (bool_decide (op = OP_SCREEN) || bool_decide (op = OP_RELEASE)) TaskValueError;
  x ← reserve i op key task (request_value task reason batch) batch db;
  let '(receipt, digest, reserved, db) := (x : TaskCommandReceipt * str * bool * TaskDb) in
  t ← oget (find_task project task db) TaskNotFound;
  assignment ← get_active_assignment (wt_id t) db;
  facts ← _facts i t assignment op reason (Some key) None (Some digest)
            (manager_replay receipt op task (ti_actor_id i) (Some key));
  Ok ({| tp_task := wt_id t; tp_assignment := assignment; tp_operation := op; tp_reason := reason;
         tp_receipt := receipt; tp_digest := digest; tp_reserved := reserved; tp_facts := facts;
         tp_batch := batch |}, db).

(** [_validate_transition_preparation], which returns the locked row *)
Definition _validate_transition_preparation (i : TaskInputs) (p : TaskTransitionPreparation) (db : TaskDb)
    : result TaskExn WorkstreamTask :=
  _ ← ensure (af_actor_profile_id (tp_facts p) =? ti_actor_id i) TaskRuntimeError;
  t ← oget (get_task (tp_task p) db) TaskRuntimeError;
  current ← _facts i t (tp_assignment p) (tp_operation p) (tp_reason p) (af_idempotency_key (tp_facts p))
              None (Some (tp_digest p))
              (manager_replay (tp_receipt p) (tp_operation p) (wt_id t) (ti_actor_id i)
                 (af_idempotency_key (tp_facts p)));
  digest ← digest_of (request_value (wt_id t) (tp_reason p) (tp_batch p));
  _ ← ensure (bool_decide (current = tp_facts p)
              && bool_decide (cr_batch_transition_receipt_id (tp_receipt p) = tp_batch p)
              && str_eqb (tp_digest p) digest) TaskValidationError;
  Ok t.

Definition authorize_transition (i : TaskInputs) (p : TaskTransitionPreparation) (db : TaskDb)
    : result TaskExn TaskAuthorityDecision :=
  _ ← _validate_transition_preparation i p db;
  _authorize_facts i (tp_facts p).

(** [prepare_transition_context]: the project context several preparations share *)
Definition prepare_transition_context (i : TaskInputs) (p : TaskTransitionPreparation) (db : TaskDb)
    : result TaskExn TaskTransitionContextPreparation :=
  t ← _validate_transition_preparation i p db;
  _ ← ensure (tp_reserved p) TaskRuntimeError;
  facts ← (if bool_decide (tp_operation p = OP_SCREEN)
           then _load_active_policy_context i (af_project_id (tp_facts p))
           else _ ← _ensure_locked_context t; _load_locked_task_context i t);
  _ ← ensure (pc_project_id facts =? af_project_id (tp_facts p)) TaskValidationError;
  Ok {| xc_project_id := af_project_id (tp_facts p); xc_operation := tp_operation p;
        xc_locked_context_hash := af_locked_context_hash (tp_facts p); xc_facts := facts |}.

(** [_transition_context] *)
Definition _transition_context (p : TaskTransitionPreparation) (c : TaskTransitionContextPreparation)
    : result TaskExn ProjectLockedPolicyContextFacts :=
  _ ← ensure (tp_reserved p && bool_decide (xc_operation c = tp_operation p)) TaskRuntimeError;
  _ ← ensure ((xc_project_id c =? af_project_id (tp_facts p))
              && (pc_project_id (xc_facts c) =? xc_project_id c)
              && str_eqb (xc_locked_context_hash c) (af_locked_context_hash (tp_facts p)))
        TaskValidationError;
  Ok (xc_facts c).

Definition transition_target (op : TaskAuthorityOperation) : TaskStatus :=
  if bool_decide (op = OP_SCREEN) then TS_screening else TS_ready.

(** The task with the locks and the status of a transition *)
Definition moved_task (i : TaskInputs) (t : WorkstreamTask) (locks : PolicyLocks) (post : PostSubmitLock)
    (status : TaskStatus) : WorkstreamTask :=
  {| wt_id := wt_id t; wt_project_id := wt_project_id t; wt_locks := locks; wt_post := post;
     wt_content := wt_content t; wt_status := status; wt_created_by := wt_created_by t;
     wt_assigned_to := wt_assigned_to t; wt_created_at := wt_created_at t;
     wt_updated_at := ti_updated_at i |}.

(** What a screening stamps and a release verifies *)
Definition stage_locks (i : TaskInputs) (p : TaskTransitionPreparation)
    (context : option TaskTransitionContextPreparation) (t : WorkstreamTask)
    : result TaskExn (PolicyLocks * PostSubmitLock) :=
  if bool_decide (tp_operation p = OP_SCREEN) then
    facts ← match context with
            | None => _load_active_policy_context i (wt_project_id t)
            | Some c => _transition_context p c
            end;
    _ ← _validate_task_contract_fields t;
    oget (_policy_stamps facts) TaskValueError
  else
    _ ← ensure (negb (blank (tp_reason p))) TaskValidationError;
    _ ← _ensure_locked_context t;
    facts ← match context with
            | None => _load_locked_task_context i t
            | Some c => facts ← _transition_context p c;
                        _validate_locked_task_context (ti_checkers i) t facts
            end;
    _ ← _validate_installed_plans (ti_checkers i) facts;
    Ok (wt_locks t, wt_post t).

Definition stage_transition (i : TaskInputs) (p : TaskTransitionPreparation)
    (decision : TaskAuthorityDecision) (context : option TaskTransitionContextPreparation) (db : TaskDb)
    : result TaskExn (TaskResponse * TaskDb) :=
  t ← _validate_transition_preparation i p db;
  facts ← _facts i t (tp_assignment p) (tp_operation p) (tp_reason p) None None None None;
  replayed ← recover (tp_receipt p) (tp_digest p) facts t (tp_assignment p) (tp_reserved p);
  match replayed with
  | Some (RTask response) => Ok (response, db)
  | Some (RTaskWithAssignment response _) => Ok (response, db)
  | None =>
      let before := wt_status t in
      let target := transition_target (tp_operation p) in
      _ ← _ensure_transition_allowed before target;
      locks ← stage_locks i p context t;
      let t' := moved_task i t locks.1 locks.2 target in
      db ← put_task (ti_admits i) t' db;
      db ← _record_management i t' (tp_operation p) decision (Some before) (tp_reason p) db;
      let response := task_response_for_authority t' true in
      facts ← _facts i t' None (tp_operation p) (tp_reason p) None None None None;
      db ← complete i (tp_receipt p) None facts (RTask response) db;
      Ok (response, db)
  end.

(** [_manage_transition], the body of [screen] and [release] *)
Definition _manage_transition (i : TaskInputs) (task : uuid) (op : TaskAuthorityOperation)
    (reason : option str) (key : uuid) (db : TaskDb) : result TaskExn (TaskResponse * TaskDb) :=
  x ← prepare_transition i task op reason key None None db;
  decision ← authorize_transition i x.1 x.2;
  stage_transition i x.1 decision None x.2.

Definition screen (i : TaskInputs) (task : uuid) (reason : option str) (key : uuid) (db : TaskDb) :=
  _manage_transition i task OP_SCREEN reason key db.

Definition release (i : TaskInputs) (task : uuid) (reason : option str) (key : uuid) (db : TaskDb) :=
  _manage_transition i task OP_RELEASE reason key db.

(** ** Claims *)

Definition new_assignment (i : TaskInputs) (t : WorkstreamTask) (version : uuid) : TaskAssignment :=
  {| an_id := ti_assignment_id i; an_project_id := wt_project_id t;
     an_submitter_contribution_policy_version_id := version; an_task_id := wt_id t;
     an_contributor_id := ti_actor_id i; an_assigned_by := ti_actor_id i;
     an_assigned_at := ti_assigned_at i; an_accepted_at := Some (ti_accepted_at i);
     an_released_at := None; an_status := AS_active; an_started_at := None;
     an_updated_at := ti_created_at i |}.

(** [assignment.started_at = assignment.assigned_at] *)
Definition started (i : TaskInputs) (a : TaskAssignment) : TaskAssignment :=
  {| an_id := an_id a; an_project_id := an_project_id a;
     an_submitter_contribution_policy_version_id := an_submitter_contribution_policy_version_id a;
     an_task_id := an_task_id a; an_contributor_id := an_contributor_id a;
     an_assigned_by := an_assigned_by a; an_assigned_at := an_assigned_at a;
     an_accepted_at := an_accepted_at a; an_released_at := an_released_at a; an_status := an_status a;
     an_started_at := Some (an_assigned_at a); an_updated_at := ti_updated_at i |}.

Definition claimed_task (i : TaskInputs) (t : WorkstreamTask) : WorkstreamTask :=
  {| wt_id := wt_id t; wt_project_id := wt_project_id t; wt_locks := wt_locks t; wt_post := wt_post t;
     wt_content := wt_content t; wt_status := TS_in_progress; wt_created_by := wt_created_by t;
     wt_assigned_to := Some (ti_actor_id i); wt_created_at := wt_created_at t;
     wt_updated_at := ti_updated_at i |}.

Definition claim_conflict (e : TaskExn) : TaskExn :=
  match e with
  | TaskIntegrityError name =>
      if str_eqb name (lit "uq_task_assignments_one_active_per_task") then TaskAssignmentConflict else e
  | _ => e
  end.

(** The assignment, the task and their record *)
Definition stage_claim (i : TaskInputs) (t : WorkstreamTask) (receipt : TaskCommandReceipt)
    (facts : TaskAuthorityFacts) (decision : TaskAuthorityDecision) (reason : option str) (db : TaskDb)
    : result TaskExn (StoredResponse * TaskDb) :=
  version ← oget (pl_contribution_policy_version_id (wt_locks t))
              (TaskIntegrityError (lit "task_assignments"));
  let a := new_assignment i t version in
  db ← add_assignment (ti_admits i) a db;
  let t' := claimed_task i t in
  db ← put_task (ti_admits i) t' db;
  let a' := started i a in
  db ← record i {| tf_operation := OP_CLAIM; tf_project_id := wt_project_id t; tf_task_id := wt_id t;
                   tf_assignment_id := Some (an_id a); tf_actor_profile_id := ti_actor_id i;
                   tf_authorization_decision_id := ad_decision_id decision;
                   tf_from_status := Some TS_ready; tf_to_status := TS_in_progress; tf_reason := reason;
                   tf_source_type := None; tf_locked_lineage := None; tf_authority := None |} db;
  db ← put_assignment (ti_admits i) a' db;
  let response := RTaskWithAssignment (task_response_for_authority t' false) a' in
  db ← complete i receipt (Some a') facts response db;
  Ok (response, db).

Definition claim_root (i : TaskInputs) (task : uuid) (reason : option str) (key : uuid) (db : TaskDb)
    : result TaskExn (StoredResponse * TaskDb) :=
  x ← reserve i OP_CLAIM key task (request_value task reason None) None db;
  let '(receipt, digest, reserved, db) := (x : TaskCommandReceipt * str * bool * TaskDb) in
  t ← oget (get_task task db) TaskNotFound;
  assignment ← get_active_assignment (wt_id t) db;
  exact ← _facts i t assignment OP_CLAIM reason (Some key) (replay_assignment receipt task) None None;
  decision ← _authorize_facts i exact;
  facts ← _facts i t assignment OP_CLAIM reason (Some key) None None None;
  replayed ← recover receipt digest facts t assignment reserved;
  match replayed with
  | Some (RTaskWithAssignment r a) => Ok (RTaskWithAssignment r a, db)
  | Some (RTask _) => Raise TaskRuntimeError
  | None =>
      _ ← _ensure_transition_allowed (wt_status t) TS_in_progress;
      _ ← ensure (none assignment && none (wt_assigned_to t)) TaskAssignmentConflict;
      _ ← _load_locked_task_context i t;
      stage_claim i t receipt facts decision reason db
  end.

(** [claim] *)
Definition claim (i : TaskInputs) (task : uuid) (reason : option str) (key : uuid) (db : TaskDb)
    : result TaskExn (StoredResponse * TaskDb) :=
  match claim_root i task reason key db with
  | Ok x => Ok x
  | Raise e => Raise (claim_conflict e)
  end.
