(* ===== verification/TaskInvalidation.v ===== *)
(** * Revoked contributors
    (modules/tasks/assignment_invalidation.py, tasks/api/assignment_invalidation.py,
    adapters/auth/assignment_invalidation_publication.py, adapters/audit)

    When a contributor loses the authority to submit, the originating transaction reads, page by
    page, the assignments the contributor holds without a submission and appends one outbox event
    for each.  The handler of such an event locks the task and that very assignment, and releases
    it: the assignment is closed as [authority_revoked] and the task is ready again.  The observer,
    the fence, the causes and the authority are ports. *)

From stdpp Require Import sorting.
From S2P Require Import Prelude Text Digest Json Instant OutboxApi OutboxStore OutboxAppend Acceptance Rows Paging PolicyApi TaskStore TaskCommands.

(** ** Targets *)

Record AssignmentInvalidationTargetsRequest := {
  tq_contributor_id : uuid;
  tq_project_id : option uuid;
  tq_invalidation_event_id : uuid;
  tq_invalidated_at : instant;
  tq_after : option uuid;
}.

Record AssignmentInvalidationTargetsPage := {
  pg_items : list AssignmentInvalidationTarget;
  pg_next_after : option uuid;
}.

(** The join and the conditions of the query, but for the position *)
Definition invalidation_target (q : AssignmentInvalidationTargetsRequest) (db : TaskDb) (a : TaskAssignment)
    : bool :=
  match tb_tasks db !! an_task_id a with
  | Some t =>
      (wt_project_id t =? an_project_id a) && (an_contributor_id a =? tq_contributor_id q) && active a
      && none (an_released_at a) && (an_assigned_at a <=? tq_invalidated_at q)
      && bool_decide (wt_status t = TS_in_progress)
      && bool_decide (wt_assigned_to t = Some (an_contributor_id a))
      && bool_decide (pl_contribution_policy_version_id (wt_locks t)
                      = Some (an_submitter_contribution_policy_version_id a))
      && negb (has_submission (wt_id t) db)
      && match tq_project_id q with Some p => an_project_id a =? p | None => true end
  | None => false
  end.

Definition assignment_le (a b : TaskAssignment) : Prop := an_id a ≤ an_id b.
#[export] Instance assignment_le_dec : RelDecision assignment_le.
Proof. intros a b. unfold assignment_le. apply _. Defined.

(** [order by assignment.id] *)
Definition target_rows (q : AssignmentInvalidationTargetsRequest) (db : TaskDb) : list TaskAssignment :=
  merge_sort assignment_le (List.filter (invalidation_target q db) (rows (tb_assignments db))).

Definition target_of (event : uuid) (a : TaskAssignment) : AssignmentInvalidationTarget :=
  {| it_project_id := an_project_id a; it_task_id := an_task_id a; it_assignment_id := an_id a;
     it_contributor_id := an_contributor_id a; it_authority_invalidation_event_id := event |}.

(** [assignment.id > after] *)
Definition after_id (p : uuid) (a : TaskAssignment) : bool := p <? an_id a.

(** [read_assignment_invalidation_targets_page]: at most 100 targets *)
Definition read_assignment_invalidation_targets_page (q : AssignmentInvalidationTargetsRequest) (db : TaskDb)
    : AssignmentInvalidationTargetsPage :=
  let fetched := firstn 101 (rows_after after_id (target_rows q db) (tq_after q)) in
  {| pg_items := map (target_of (tq_invalidation_event_id q)) (firstn 100 fetched);
     pg_next_after := if (100 <? length fetched)%nat then an_id <$> nth_error fetched 99 else None |}.

(** ** Publication *)

Record AuthorityInvalidationPublication := {
  ap_invalidation_event_id : uuid;
  ap_contributor_id : uuid;
  ap_project_id : option uuid;
  ap_correlation_id : str;
  ap_invalidated_at : instant;
}.

Definition ASSIGNMENT_INVALIDATION_EVENT : str := lit "TaskAssignmentAuthorityInvalidationRequested".

(** [target.model_dump(mode="json")] *)
Definition target_json (t : AssignmentInvalidationTarget) : json :=
  JObj [kv "project_id" (json_uuid (it_project_id t)); kv "task_id" (json_uuid (it_task_id t));
        kv "assignment_id" (json_uuid (it_assignment_id t));
        kv "contributor_id" (json_uuid (it_contributor_id t));
        kv "authority_invalidation_event_id" (json_uuid (it_authority_invalidation_event_id t))].

Definition target_event (f : AuthorityInvalidationPublication) (t : AssignmentInvalidationTarget)
    : OutboxAppendInput :=
  {| in_event_type := ASSIGNMENT_INVALIDATION_EVENT; in_event_version := 1;
     in_aggregate_type := lit "task_assignment"; in_aggregate_id := it_assignment_id t;
     in_project_id := it_project_id t; in_correlation_id := ap_correlation_id f;
     in_causation_event_id := Some (ap_invalidation_event_id f);
     in_idempotency_key := lit "assignment-invalidation:" ++ uuid_text (ap_invalidation_event_id f)
                           ++ 58 :: uuid_text (it_assignment_id t);
     in_payload := target_json t; in_not_before_at := None |}.

(** What appending takes: the folding of wide characters, the projects there are, the time of the
    transaction and the identity of each new event *)
Record PublishInputs := {
  pu_fold_wide : Z → str;
  pu_project_exists : uuid → bool;
  pu_now : instant;
  pu_event_id : uuid → uuid;
}.

Fixpoint append_targets (i : PublishInputs) (f : AuthorityInvalidationPublication)
    (ts : list AssignmentInvalidationTarget) (o : Db) : result Exn Db :=
  match ts with
  | [] => Ok o
  | t :: ts' =>
      x ← append (pu_fold_wide i) (pu_project_exists i) (pu_event_id i (it_assignment_id t)) (pu_now i)
            (target_event f t) o;
      append_targets i f ts' x.2
  end.

Definition page_request (f : AuthorityInvalidationPublication) (after : option uuid)
    : AssignmentInvalidationTargetsRequest :=
  {| tq_contributor_id := ap_contributor_id f; tq_project_id := ap_project_id f;
     tq_invalidation_event_id := ap_invalidation_event_id f;
     tq_invalidated_at := ap_invalidated_at f; tq_after := after |}.

(** The loop of [publish]; a failure ends it.  [None]: out of fuel *)
Fixpoint publish_loop (fuel : nat) (i : PublishInputs) (f : AuthorityInvalidationPublication)
    (after : option uuid) (db : TaskDb) (o : Db) : option (result Exn Db) :=
  match fuel with
  | O => None
  | S fuel' =>
      let page := read_assignment_invalidation_targets_page (page_request f after) db in
      match append_targets i f (pg_items page) o with
      | Raise e => Some (Raise e)
      | Ok o' => match pg_next_after page with
                 | None => Some (Ok o')
                 | Some p => publish_loop fuel' i f (Some p) db o'
                 end
      end
  end.

Inductive PublicationExn := AuthorityInvalidationPublicationUnavailable.

(** The [except] clause: every error of an append becomes one *)
Definition unavailable (r : result Exn Db) : result PublicationExn Db :=
  match r with Ok o => Ok o | Raise _ => Raise AuthorityInvalidationPublicationUnavailable end.

Definition publish (i : PublishInputs) (f : AuthorityInvalidationPublication) (db : TaskDb) (o : Db)
    : option (result PublicationExn Db) :=
  unavailable <$> publish_loop (S (size (tb_assignments db))) i f None db o.

(** ** The handler *)

Inductive AssignmentInvalidationCause :=
| SUBMITTER_GRANT_REVOKED | ACTOR_SUSPENDED | ACTOR_DEACTIVATED | IDENTITY_LINK_REVOKED.

Definition cause_value (c : AssignmentInvalidationCause) : str :=
  match c with
  | SUBMITTER_GRANT_REVOKED => lit "submitter_grant_revoked"
  | ACTOR_SUSPENDED => lit "actor_suspended"
  | ACTOR_DEACTIVATED => lit "actor_deactivated"
  | IDENTITY_LINK_REVOKED => lit "identity_link_revoked"
  end.

Record AuthorityInvalidationFacts := {
  vf_invalidation_event_id : uuid;
  vf_cause_event_id : uuid;
  vf_recorded_at : instant;
  vf_contributor_id : uuid;
  vf_cause : AssignmentInvalidationCause;
  vf_target_id : uuid;
  vf_project_id : option uuid;
}.

(** [vi_receipt_ok]: whether the audit row of a release still agrees with its decision;
    [vi_uuid]: how pydantic reads a UUID; [vi_time]: how it writes a time *)
Record InvalidationInputs := {
  vi_in_transaction : bool;
  vi_in_nested_transaction : bool;
  vi_uuid : str → option uuid;
  vi_time : instant → str;
  vi_observe : OutboxEventEnvelope → bool;
  vi_causes : uuid → option AuthorityInvalidationFacts;
  vi_receipt_ok : AssignmentInvalidationEvidence → bool;
  vi_authorize : AssignmentInvalidationAuthorityFacts → result TaskExn AssignmentInvalidationAuthority;
  vi_fence : OutboxEventEnvelope → option (OutboxClaim * instant);
  vi_audit : AssignmentInvalidationEvidence → bool;
  vi_admits : Admits;
  vi_updated_at : instant;
}.

Definition uuid_member (i : InvalidationInputs) (k : string) (kvs : list (str * json)) : option uuid :=
  match dict_get (lit k) kvs with Some (JStr s) => vi_uuid i s | _ => None end.

Definition target_keys : list str :=
  [lit "project_id"; lit "task_id"; lit "assignment_id"; lit "contributor_id";
   lit "authority_invalidation_event_id"].

(** [AssignmentInvalidationTarget.model_validate_json] *)
Definition read_target (i : InvalidationInputs) (text : str) : option AssignmentInvalidationTarget :=
  match loads text with
  | Some (JObj kvs) =>
      if forallb (λ p, str_in p.1 target_keys) kvs then
        project ← uuid_member i "project_id" kvs;
        task ← uuid_member i "task_id" kvs;
        assignment ← uuid_member i "assignment_id" kvs;
        contributor ← uuid_member i "contributor_id" kvs;
        event ← uuid_member i "authority_invalidation_event_id" kvs;
        Some {| it_project_id := project; it_task_id := task; it_assignment_id := assignment;
                it_contributor_id := contributor; it_authority_invalidation_event_id := event |}
      else None
  | _ => None
  end.

(** [_target] *)
Definition _target (i : InvalidationInputs) (e : OutboxEventEnvelope) : option AssignmentInvalidationTarget :=
  if claim_valid (en_claim e) then
    t ← read_target i (en_payload_json e);
    if str_eqb (en_event_type e) ASSIGNMENT_INVALIDATION_EVENT && (en_event_version e =? 1)
       && str_eqb (en_aggregate_type e) (lit "task_assignment")
       && (en_aggregate_id e =? it_assignment_id t) && (cl_project_id (en_claim e) =? it_project_id t)
       && bool_decide (en_causation_event_id e = Some (it_authority_invalidation_event_id t))
    then Some t else None
  else None.

Definition cause_json (i : InvalidationInputs) (c : AuthorityInvalidationFacts) : json :=
  JObj [kv "invalidation_event_id" (json_uuid (vf_invalidation_event_id c));
        kv "cause_event_id" (json_uuid (vf_cause_event_id c));
        kv "recorded_at" (JStr (vi_time i (vf_recorded_at c)));
        kv "contributor_id" (json_uuid (vf_contributor_id c)); kv "cause" (JStr (cause_value (vf_cause c)));
        kv "target_id" (json_uuid (vf_target_id c)); kv "project_id" (json_opt json_uuid (vf_project_id c))].

Definition envelope_json (i : InvalidationInputs) (e : OutboxEventEnvelope) : json :=
  let c := en_claim e in
  JObj [kv "claim" (JObj [kv "event_id" (json_uuid (cl_event_id c));
                          kv "project_id" (json_uuid (cl_project_id c));
                          kv "payload_digest" (JStr (cl_payload_digest c));
                          kv "claim_generation" (JInt (cl_claim_generation c));
                          kv "claim_owner" (JStr (cl_claim_owner c));
                          kv "claimed_at" (JStr (vi_time i (cl_claimed_at c)));
                          kv "claim_expires_at" (JStr (vi_time i (cl_claim_expires_at c)))]);
        kv "event_type" (JStr (en_event_type e)); kv "event_version" (JInt (en_event_version e));
        kv "aggregate_type" (JStr (en_aggregate_type e)); kv "aggregate_id" (json_uuid (en_aggregate_id e));
        kv "correlation_id" (JStr (en_correlation_id e));
        kv "causation_event_id" (json_opt json_uuid (en_causation_event_id e));
        kv "idempotency_key" (JStr (en_idempotency_key e));
        kv "occurred_at" (JStr (vi_time i (en_occurred_at e))); kv "payload_json" (JStr (en_payload_json e))].

Definition task_status_text (s : TaskStatus) : str :=
  match s with
  | TS_draft => lit "draft" | TS_screening => lit "screening" | TS_ready => lit "ready"
  | TS_in_progress => lit "in_progress" | TS_submitted => lit "submitted"
  | TS_evaluation_pending => lit "evaluation_pending" | TS_review_pending => lit "review_pending"
  | TS_needs_revision => lit "needs_revision" | TS_accepted => lit "accepted"
  end.

Definition invalidation_facts_json (f : AssignmentInvalidationAuthorityFacts) : json :=
  JObj [kv "target" (target_json (if_target f)); kv "cause_event_id" (json_uuid (if_cause_event_id f));
        kv "delivery_event_id" (json_uuid (if_delivery_event_id f));
        kv "delivery_generation" (JInt (if_delivery_generation f));
        kv "cause_digest" (JStr (if_cause_digest f)); kv "invocation_digest" (JStr (if_invocation_digest f));
        kv "task_status" (JStr (task_status_text (if_task_status f)));
        kv "locked_context_hash" (JStr (if_locked_context_hash f))].

(** [assignment_invalidation_resource_digest] *)
Definition assignment_invalidation_resource_digest (f : AssignmentInvalidationAuthorityFacts) : option str :=
  canonical_json_hash
    (JObj [kv "resource_context"
             (JObj [kv "resource_type" (JStr (lit "task_authority"));
                    kv "resource_id" (json_uuid (it_task_id (if_target f)));
                    kv "scope_project_id" (json_uuid (it_project_id (if_target f)));
                    kv "facts" (invalidation_facts_json f)])]).

(** The audit adapter: [read_release] *)
Definition read_release (i : InvalidationInputs) (t : AssignmentInvalidationTarget) (db : TaskDb)
    : result TaskExn (option AssignmentInvalidationEvidence) :=
  match List.find (λ e, let x := if_target (ie_facts e) in
                        (it_assignment_id x =? it_assignment_id t)
                        && (it_authority_invalidation_event_id x =? it_authority_invalidation_event_id t))
          (tb_releases db) with
  | None => Ok None
  | Some e =>
      _ ← ensure (bool_decide (if_target (ie_facts e) = t) && vi_receipt_ok i e)
            AssignmentInvalidationUnavailable;
      Ok (Some e)
  end.

(** [record_release] *)
Definition record_release (i : InvalidationInputs) (e : AssignmentInvalidationEvidence) (db : TaskDb)
    : result TaskExn TaskDb :=
  _ ← ensure (bool_decide (assignment_invalidation_resource_digest (ie_facts e)
                           = Some (ia_resource_context_digest (ie_authority e))))
        AssignmentInvalidationUnavailable;
  _ ← ensure (vi_audit i e) TaskRuntimeError;
  Ok (add_release e db).

Definition revoked_assignment (i : InvalidationInputs) (at_ : instant) (a : TaskAssignment) : TaskAssignment :=
  {| an_id := an_id a; an_project_id := an_project_id a;
     an_submitter_contribution_policy_version_id := an_submitter_contribution_policy_version_id a;
     an_task_id := an_task_id a; an_contributor_id := an_contributor_id a;
     an_assigned_by := an_assigned_by a; an_assigned_at := an_assigned_at a;
     an_accepted_at := an_accepted_at a; an_released_at := Some at_; an_status := AS_authority_revoked;
     an_started_at := an_started_at a; an_updated_at := vi_updated_at i |}.

Definition reopened_task (updated_at : instant) (t : WorkstreamTask) : WorkstreamTask :=
  {| wt_id := wt_id t; wt_project_id := wt_project_id t; wt_locks := wt_locks t; wt_post := wt_post t;
     wt_content := wt_content t; wt_status := TS_ready; wt_created_by := wt_created_by t;
     wt_assigned_to := None; wt_created_at := wt_created_at t; wt_updated_at := updated_at |}.

Definition cause_matches (t : AssignmentInvalidationTarget) (c : AuthorityInvalidationFacts) : bool :=
  (vf_invalidation_event_id c =? it_authority_invalidation_event_id t)
  && (vf_contributor_id c =? it_contributor_id t)
  && match vf_project_id c with Some p => p =? it_project_id t | None => true end.

(** The release itself, under the consumed authority and the fence *)
Definition stage_release (i : InvalidationInputs) (e : OutboxEventEnvelope) (t : WorkstreamTask)
    (a : TaskAssignment) (f : AssignmentInvalidationAuthorityFacts) (db : TaskDb)
    : result TaskExn (HandlerOutcome * TaskDb) :=
  authority ← vi_authorize i f;
  _ ← ensure (digest_pattern (ia_resource_context_digest authority)) AssignmentInvalidationUnavailable;
  custody ← oget (vi_fence i e) AssignmentInvalidationUnavailable;
  _ ← ensure (bool_decide (custody.1 = en_claim e)) AssignmentInvalidationUnavailable;
  db ← record_release i {| ie_facts := f; ie_authority := authority |} db;
  db ← put_assignment (vi_admits i) (revoked_assignment i custody.2 a) db;
  db ← put_task (vi_admits i) (reopened_task (vi_updated_at i) t) db;
  Ok (HO_ACKNOWLEDGE, db).

(** [reconcile] *)
Definition reconcile (i : InvalidationInputs) (e : OutboxEventEnvelope) (db : TaskDb)
    : result TaskExn (HandlerOutcome * TaskDb) :=
  _ ← ensure (vi_in_transaction i && negb (vi_in_nested_transaction i)) AssignmentInvalidationUnavailable;
  match _target i e with
  | None => Ok (HO_REJECT, db)
  | Some target =>
      if negb (vi_observe i e) then Ok (HO_REJECT, db) else
      match vi_causes i (it_authority_invalidation_event_id target) with
      | None => Ok (HO_REJECT, db)
      | Some cause =>
          if negb (cause_matches target cause) then Ok (HO_REJECT, db) else
          match lock_project_task (it_project_id target) (it_task_id target) db,
                lock_invalidation_assignment target db with
          | Some t, Some a =>
              if vf_recorded_at cause <? an_assigned_at a then Ok (HO_REJECT, db) else
              prior ← read_release i target db;
              match prior with
              | Some p =>
                  _ ← ensure (bool_decide (if_target (ie_facts p) = target)
                              && bool_decide (an_status a = AS_authority_revoked)
                              && some (an_released_at a)) AssignmentInvalidationUnavailable;
                  Ok (HO_ACKNOWLEDGE, db)
              | None =>
                  if negb (bool_decide (wt_status t = TS_in_progress)) || has_submission (it_task_id target) db
                  then Ok (HO_ACKNOWLEDGE, db)
                  else if negb (active a) || some (an_released_at a)
                          || negb (bool_decide (wt_assigned_to t = Some (it_contributor_id target)))
                          || negb (bool_decide (pl_contribution_policy_version_id (wt_locks t)
                                                = Some (an_submitter_contribution_policy_version_id a)))
                  then Ok (HO_REJECT, db)
                  else
                    cause_digest ← digest_of (cause_json i cause);
                    invocation_digest ← digest_of (envelope_json i e);
                    context ← digest_of (locked_context_json t);
                    stage_release i e t a
                      {| if_target := target; if_cause_event_id := vf_cause_event_id cause;
                         if_delivery_event_id := cl_event_id (en_claim e);
                         if_delivery_generation := cl_claim_generation (en_claim e);
                         if_cause_digest := cause_digest; if_invocation_digest := invocation_digest;
                         if_task_status := wt_status t; if_locked_context_hash := context |} db
              end
          | _, _ => Ok (HO_REJECT, db)
          end
      end
  end.
