(* ===== verification/TaskEffects.v ===== *)
(** * What a task command does

    A command either returns the response its receipt retains and changes nothing, or it writes
    one task, for a claim one assignment, one committed receipt and one audit record.  This file
    proves that for each command, with what it read before. *)

From S2P Require Import Prelude Text Digest Json Instant Acceptance Rows PolicyApi TaskStore TaskCommands.

(** ** Commands *)

Inductive TaskCommand :=
| Create (project : uuid) (payload : TaskCreate)
| Screen (task : uuid) (reason : option str)
| Release (task : uuid) (reason : option str)
| Claim (task : uuid) (reason : option str).

Definition operation_of (c : TaskCommand) : TaskAuthorityOperation :=
  match c with
  | Create _ _ => OP_CREATE | Screen _ _ => OP_SCREEN | Release _ _ => OP_RELEASE | Claim _ _ => OP_CLAIM
  end.

(** What the receipt of a command is bound to *)
Definition command_value (i : TaskInputs) (c : TaskCommand) : json :=
  match c with
  | Create project payload => creation_value i project payload
  | Screen task reason | Release task reason | Claim task reason => request_value task reason None
  end.

Definition command_task (i : TaskInputs) (c : TaskCommand) : uuid :=
  match c with Create _ _ => ti_task_id i | Screen t _ | Release t _ | Claim t _ => t end.

Definition run_command (i : TaskInputs) (c : TaskCommand) (key : uuid) (db : TaskDb)
    : result TaskExn (StoredResponse * TaskDb) :=
  match c with
  | Create project payload => x ← create_task i project payload key db; Ok (RTask x.1, x.2)
  | Screen task reason => x ← screen i task reason key db; Ok (RTask x.1, x.2)
  | Release task reason => x ← release i task reason key db; Ok (RTask x.1, x.2)
  | Claim task reason => claim i task reason key db
  end.

(** ** Rows of a table *)

Lemma elem_of_rows {A} (m : gmap Z A) x : x ∈ rows m ↔ ∃ k, m !! k = Some x.
Proof.
  unfold rows. rewrite list_elem_of_fmap. split.
  - intros ([k y] & -> & Hy%elem_of_map_to_list). by exists k.
  - intros [k Hk%elem_of_map_to_list]. by exists (k, x).
Qed.

Lemma existsb_rows {A} (m : gmap Z A) f : existsb f (rows m) = false ↔ ∀ k x, m !! k = Some x → f x = false.
Proof.
  split.
  - intros H k x Hk. apply not_true_iff_false. intros Hf. apply not_true_iff_false in H. apply H.
    apply existsb_exists. exists x. rewrite <- list_elem_of_In, elem_of_rows. eauto.
  - intros H. apply not_true_iff_false. intros (x & Hx & Hf)%existsb_exists.
    apply list_elem_of_In, elem_of_rows in Hx as [k Hk]. by rewrite (H _ _ Hk) in Hf.
Qed.

Lemma find_receipt_Some actor op key db r :
  find_receipt actor op key db = Some r →
  (∃ k, tb_receipts db !! k = Some r) ∧ same_namespace actor op key r = true.
Proof.
  intros [H1 H2]%find_some. split; [|done]. by apply elem_of_rows, list_elem_of_In.
Qed.

Lemma find_receipt_None actor op key db :
  find_receipt actor op key db = None ↔
  ∀ k r, tb_receipts db !! k = Some r → same_namespace actor op key r = false.
Proof.
  unfold find_receipt. split.
  - intros H k r Hr. eapply find_none; [done|]. apply list_elem_of_In, elem_of_rows. eauto.
  - intros H. destruct (List.find _ _) as [r|] eqn:E; [|done].
    apply find_some in E as [[k Hk]%list_elem_of_In%elem_of_rows E]. by rewrite (H _ _ Hk) in E.
Qed.

(** ** Flushes *)

Lemma put_task_Ok ad t db db' :
  put_task ad t db = Ok db' → task_checks t = true ∧ db' = set_tasks (<[wt_id t := t]> (tb_tasks db)) db.
Proof. by intros [H [_ [= <-]]%ensure_bind_Ok]%ensure_bind_Ok. Qed.

Lemma add_task_Ok ad t db db' :
  add_task ad t db = Ok db' →
  task_checks t = true ∧ tb_tasks db !! wt_id t = None ∧ db' = set_tasks (<[wt_id t := t]> (tb_tasks db)) db.
Proof.
  intros [[H1 H2]%andb_prop [_ [_ [= <-]]%ensure_bind_Ok]%ensure_bind_Ok]%ensure_bind_Ok.
  split_and!; [done|by destruct (tb_tasks db !! _)|done].
Qed.

Lemma put_assignment_Ok ad a db db' :
  put_assignment ad a db = Ok db' →
  one_active a db = true ∧ db' = set_assignments (<[an_id a := a]> (tb_assignments db)) db.
Proof. by intros [_ [H [_ [= <-]]%ensure_bind_Ok]%ensure_bind_Ok]%ensure_bind_Ok. Qed.

Lemma add_assignment_Ok ad a db db' :
  add_assignment ad a db = Ok db' →
  one_active a db = true ∧ tb_assignments db !! an_id a = None ∧
  db' = set_assignments (<[an_id a := a]> (tb_assignments db)) db.
Proof.
  intros [[_ H]%andb_prop [H1 [_ [= <-]]%ensure_bind_Ok]%ensure_bind_Ok]%ensure_bind_Ok.
  split_and!; [done|by destruct (tb_assignments db !! _)|done].
Qed.

Lemma put_receipt_Ok ad r db db' :
  put_receipt ad r db = Ok db' →
  receipt_checks r = true ∧ db' = set_receipts (<[cr_id r := r]> (tb_receipts db)) db.
Proof. by intros [H [_ [= <-]]%ensure_bind_Ok]%ensure_bind_Ok. Qed.

Lemma complete_Ok i r oa f resp db db' :
  complete i r oa f resp db = Ok db' →
  receipt_checks (completed i r oa f resp) = true ∧
  db' = set_receipts (<[cr_id r := completed i r oa f resp]> (tb_receipts db)) db.
Proof. by intros [_ H%put_receipt_Ok]%ensure_bind_Ok. Qed.

Lemma record_Ok i f db db' :
  record i f db = Ok db' → audit_event_valid f = true ∧ db' = add_audit f db.
Proof. by intros [H [_ [= <-]]%ensure_bind_Ok]%ensure_bind_Ok. Qed.

Lemma get_active_Ok task db oa :
  get_active_assignment task db = Ok oa →
  (∀ a, oa = Some a → (∃ k, tb_assignments db !! k = Some a) ∧ an_task_id a = task ∧ an_status a = AS_active) ∧
  (oa = None → ∀ k a, tb_assignments db !! k = Some a → an_task_id a = task → an_status a ≠ AS_active).
Proof.
  unfold get_active_assignment.
  destruct (List.filter _ _) as [|a [|b l]] eqn:E; [|intros [= <-]|done].
  - intros [= <-]. split; [done|]. intros _ k a Hk Ht Ha.
    assert (a ∈ []) as []%elem_of_nil. rewrite <- E. apply list_elem_of_In, filter_In. split.
    + apply list_elem_of_In, elem_of_rows. eauto.
    + unfold active. rewrite Ht, Ha, Z.eqb_refl. done.
  - split; [|done]. intros a' [= <-].
    assert (In a [a]) as Ha by by left. rewrite <- E in Ha. apply filter_In in Ha as [Ha Hf].
    apply andb_prop in Hf as [->%Z.eqb_eq Hf]. unfold active in Hf. rewrite bool_decide_eq_true in Hf.
    split; [|done]. by apply elem_of_rows, list_elem_of_In.
Qed.

(** ** Reservation and recovery *)

(** The hash of a value; a record, so that no tactic computes it *)
Record hashes (v : json) (d : str) : Prop := { hash_eq : canonical_json_hash v = Some d }.

Lemma digest_of_Ok v d : digest_of v = Ok d → hashes v d.
Proof. by intros H%oget_Ok. Qed.

Lemma hashes_unique v d d' : hashes v d → hashes v d' → d = d'.
Proof. intros [H] [H']. rewrite H in H'. by injection H'. Qed.

Lemma claimed_context i t : locked_context_json (claimed_task i t) = locked_context_json t.
Proof. done. Qed.

#[local] Opaque locked_context_json canonical_json_hash lineage_of _missing_locked_context_fields.

Definition receipts_committed (db : TaskDb) : Prop :=
  ∀ k r, tb_receipts db !! k = Some r → cr_status r = RC_committed.

Lemma reserve_Ok i op key task v b db r digest reserved db' :
  reserve i op key task v b db = Ok (r, digest, reserved, db') →
  hashes v digest ∧
  ((find_receipt (ti_actor_id i) op key db = Some r ∧ reserved = (cr_id r =? ti_receipt_id i) ∧ db' = db) ∨
   (find_receipt (ti_actor_id i) op key db = None ∧ reserved = true ∧
    r = pending_receipt i op key task digest b ∧ tb_receipts db !! ti_receipt_id i = None ∧
    db' = set_receipts (<[ti_receipt_id i := r]> (tb_receipts db)) db)).
Proof.
  intros [_ (d & Hd%digest_of_Ok & H)%result_bind_Ok]%ensure_bind_Ok.
  destruct (find_receipt _ _ _ _) as [x|] eqn:E.
  - injection H as -> -> <- ->. auto.
  - apply ensure_bind_Ok in H as [Hn (db1 & [_ ->]%put_receipt_Ok & [= <- <- <- <-])%result_bind_Ok].
    split; [done|]. right. split_and!; [done..| |done]. cbn in Hn. by destruct (tb_receipts db !! ti_receipt_id i).
Qed.

(** What a response recovered from a receipt agrees with *)
Record recovered (op : TaskAuthorityOperation) (r : TaskCommandReceipt) (digest : str) (t : WorkstreamTask)
    (oa : option TaskAssignment) (resp : StoredResponse) : Prop := {
  rc_digest : cr_request_digest r = digest;
  rc_task : cr_task_id r = wt_id t;
  rc_response : cr_response r = Some resp;
  rc_context : ∃ h, hashes (locked_context_json t) h ∧ cr_locked_context_hash r = Some h;
  rc_state : match resp with
             | RTask s => management op = true ∧ rs_status s = wt_status t ∧ oa = None ∧ wt_assigned_to t = None
             | RTaskWithAssignment s _ =>
                 management op = false ∧ rs_status s = wt_status t ∧
                 ∃ a, oa = Some a ∧ an_status a = AS_active ∧ cr_assignment_id r = Some (an_id a) ∧
                      wt_assigned_to t = Some (an_contributor_id a)
             end;
}.

Lemma task_facts_Ok i t oa op reason key replay rd cmd f :
  _facts i t oa op reason key replay rd cmd = Ok f →
  af_operation f = op ∧ hashes (locked_context_json t) (af_locked_context_hash f) ∧
  af_actor_profile_id f = ti_actor_id i ∧ af_task_id f = wt_id t.
Proof. by intros (h & Hh%digest_of_Ok & [= <-])%result_bind_Ok. Qed.

Lemma recover_Ok i r digest reason key replay rd cmd f op t oa reserved res :
  _facts i t oa op reason key replay rd cmd = Ok f →
  recover r digest f t oa reserved = Ok res →
  match res with
  | None => cr_status r = RC_pending ∧ cr_request_digest r = digest ∧ cr_task_id r = wt_id t
  | Some resp => cr_status r = RC_committed ∧ recovered op r digest t oa resp
  end.
Proof.
  intros (Hop & Hh & _)%task_facts_Ok. unfold recover. rewrite Hop.
  intros [[Hd%bool_decide_eq_true Ht%Z.eqb_eq]%andb_prop H]%ensure_bind_Ok.
  destruct (bool_decide_reflect (cr_status r = RC_pending)) as [Hp|Hp].
  { apply ensure_bind_Ok in H as [_ [= <-]]. done. }
  assert (cr_status r = RC_committed) as Hc by (destruct (cr_status r); done).
  destruct (management op) eqn:Hm.
  - destruct (cr_response r) as [[s|]|] eqn:Er; [|done..].
    apply ensure_bind_Ok in H as [H [= <-]]. split; [done|].
    rewrite !andb_true_iff, !bool_decide_eq_true in H. destruct H as (((((((H1 & H2) & H3) & H4) & H5) & H6) & H7) & H8).
    split; try done; [by eexists|]. split_and!; [done..|by destruct oa|by destruct (wt_assigned_to t)].
  - destruct oa as [a|]; [|done]. apply ensure_bind_Ok in H as [H1 H].
    destruct (cr_response r) as [[|s b]|] eqn:Er; [done| |done].
    apply ensure_bind_Ok in H as [H2 [= <-]]. split; [done|]. unfold active in H1.
    rewrite !andb_true_iff, !bool_decide_eq_true in H1. rewrite !andb_true_iff, bool_decide_eq_true in H2. destruct H1 as ((((H1 & H3) & H4) & H5) & H6).
    destruct H2 as ((((((E1 & E2) & E3) & E4) & E5) & E6) & E7).
    split; try done; [by eexists|]. split_and!; [done..|]. by exists a.
Qed.

(** ** What a new command writes *)

Definition wrote (t : WorkstreamTask) (oa : option TaskAssignment) (r : TaskCommandReceipt)
    (f : TaskTransitionFacts) (db : TaskDb) : TaskDb :=
  {| tb_tasks := <[wt_id t := t]> (tb_tasks db);
     tb_assignments := match oa with
                       | Some a => <[an_id a := a]> (tb_assignments db)
                       | None => tb_assignments db
                       end;
     tb_receipts := <[cr_id r := r]> (tb_receipts db); tb_submitted := tb_submitted db;
     tb_audit := tb_audit db ++ [f]; tb_releases := tb_releases db |}.

(** A project context the port resolves for a task whose stamps are the context's own *)
Definition verified_context (i : TaskInputs) (t : WorkstreamTask) : Prop :=
  ∃ q f s, context_request t = Some q ∧ context_request_valid q = true ∧ pj_locked (ti_projects i) q = Some f ∧
    _policy_stamps f = Some s ∧ wt_locks t = s.1 ∧ post_eq (wt_post t) s.2 = true.

(** What a command found before it wrote [t] and [oa] *)
Definition carried_out (i : TaskInputs) (c : TaskCommand) (db : TaskDb) (t : WorkstreamTask)
    (oa : option TaskAssignment) : Prop :=
  match c with
  | Create project payload =>
      t = draft_task i (ti_task_id i) project payload ∧ oa = None ∧ tb_tasks db !! ti_task_id i = None
  | Screen task _ =>
      oa = None ∧ ∃ t0 f s, tb_tasks db !! task = Some t0 ∧ wt_status t0 = TS_draft ∧
        pj_active (ti_projects i) (wt_project_id t0) = Some f ∧ _policy_stamps f = Some s ∧
        t = moved_task i t0 s.1 s.2 TS_screening ∧ is_Some (lineage_of s.1 s.2)
  | Release task _ =>
      oa = None ∧ ∃ t0, tb_tasks db !! task = Some t0 ∧ wt_status t0 = TS_screening ∧
        complete_context t0 = true ∧ verified_context i t0 ∧
        t = moved_task i t0 (wt_locks t0) (wt_post t0) TS_ready ∧ is_Some (lineage_of (wt_locks t0) (wt_post t0))
  | Claim task _ =>
      ∃ t0 v, tb_tasks db !! task = Some t0 ∧ wt_status t0 = TS_ready ∧ wt_assigned_to t0 = None ∧
        complete_context t0 = true ∧ verified_context i t0 ∧
        pl_contribution_policy_version_id (wt_locks t0) = Some v ∧
        tb_assignments db !! ti_assignment_id i = None ∧
        (∀ k a, tb_assignments db !! k = Some a → an_task_id a = wt_id t0 → an_status a ≠ AS_active) ∧
        t = claimed_task i t0 ∧ oa = Some (started i (new_assignment i t0 v))
  end.

(** The task a receipt found before a command: the stored row, or for a creation the draft it proposes *)
Definition found (i : TaskInputs) (c : TaskCommand) (r : TaskCommandReceipt) (db : TaskDb) (t : WorkstreamTask)
    : Prop :=
  match c with
  | Create project payload =>
      tb_tasks db !! cr_task_id r = Some t ∨
      (t = draft_task i (cr_task_id r) project payload ∧
       (tb_tasks db !! cr_task_id r = None ∨ cr_id r = ti_receipt_id i))
  | Screen task _ | Release task _ | Claim task _ => tb_tasks db !! task = Some t
  end.

Definition replays (i : TaskInputs) (c : TaskCommand) (key : uuid) (db : TaskDb) (resp : StoredResponse)
    : Prop :=
  ∃ r t oa digest, find_receipt (ti_actor_id i) (operation_of c) key db = Some r ∧
    hashes (command_value i c) digest ∧ found i c r db t ∧
    recovered (operation_of c) r digest t oa resp.

Record writes (i : TaskInputs) (c : TaskCommand) (key : uuid) (db : TaskDb) (resp : StoredResponse)
    (db' : TaskDb) : Prop := {
  wr_fresh : find_receipt (ti_actor_id i) (operation_of c) key db = None;
  wr_new : tb_receipts db !! ti_receipt_id i = None;
  wr_row : ∃ digest t oa af f,
    let r := completed i (pending_receipt i (operation_of c) key (command_task i c) digest None) oa af resp in
    hashes (command_value i c) digest ∧
    hashes (locked_context_json t) (af_locked_context_hash af) ∧
    carried_out i c db t oa ∧ task_checks t = true ∧ receipt_checks r = true ∧
    tf_operation f = operation_of c ∧ tf_task_id f = wt_id t ∧ tf_to_status f = wt_status t ∧
    tf_actor_profile_id f = ti_actor_id i ∧ tf_assignment_id f = an_id <$> oa ∧
    (∃ q d, _authorize_facts i q = Ok d ∧ af_operation q = operation_of c ∧ af_task_id q = wt_id t ∧
            tf_authorization_decision_id f = ad_decision_id d) ∧
    resp = match oa with
           | Some a => RTaskWithAssignment (task_response_for_authority t false) a
           | None => RTask (task_response_for_authority t true)
           end ∧
    db' = wrote t oa r f db;
}.

(** The cases a call of [recover] leaves when a receipt was reserved *)
Lemma reserved_cases i op key v b db r digest reserved db1 task reason k replay rd cmd f t oa res :
  receipts_committed db →
  reserve i op key task v b db = Ok (r, digest, reserved, db1) →
  _facts i t oa op reason k replay rd cmd = Ok f →
  recover r digest f t oa reserved = Ok res →
  hashes v digest ∧
  match res with
  | Some resp => db1 = db ∧ find_receipt (ti_actor_id i) op key db = Some r ∧ recovered op r digest t oa resp
  | None => find_receipt (ti_actor_id i) op key db = None ∧ tb_receipts db !! ti_receipt_id i = None ∧
            r = pending_receipt i op key task digest b ∧ wt_id t = task ∧
            db1 = set_receipts (<[ti_receipt_id i := r]> (tb_receipts db)) db
  end.
Proof.
  intros Hc [Hd Hr]%reserve_Ok Hf Hres. pose proof (recover_Ok _ _ _ _ _ _ _ _ _ _ _ _ _ _ Hf Hres) as H.
  split; [done|]. destruct Hr as [(E & _ & ->)|(E & -> & -> & Hn & ->)].
  - apply find_receipt_Some in E as E'. destruct E' as [[k' Hk] _]. apply Hc in Hk.
    destruct res; [by destruct H|]. destruct H. congruence.
  - destruct res; [by destruct H|]. destruct H as (_ & _ & H). by rewrite <- H.
Qed.

Lemma create_Ok i project payload key db resp db' :
  receipts_committed db → create_task i project payload key db = Ok (resp, db') →
  (db' = db ∧ replays i (Create project payload) key db (RTask resp)) ∨
  writes i (Create project payload) key db (RTask resp) db'.
Proof.
  intros Hc. unfold create_task, prepare_creation.
  intros ([p db1] & Hp & H)%result_bind_Ok.
  apply result_bind_Ok in Hp as ([[[r digest] reserved] db2] & Hr & Hp). cbn zeta in Hp.
  apply result_bind_Ok in Hp as (f0 & Hf0 & Hp). apply Ok_inj in Hp. injection Hp as <- <-.
  apply result_bind_Ok in H as (d & [_ Hd]%ensure_bind_Ok & H). unfold stage_creation in H. cbn [cp_facts cp_project cp_payload cp_receipt
    cp_digest cp_reserved cp_current cp_task fst snd] in H, Hd.
  apply ensure_bind_Ok in H as [_ H]. apply result_bind_Ok in H as (digest' & _ & H).
  apply ensure_bind_Ok in H as [_ H]. apply result_bind_Ok in H as (pr & _ & H).
  apply ensure_bind_Ok in H as [_ H]. apply result_bind_Ok in H as (f & Hf & H).
  apply result_bind_Ok in H as (res & Hres & H).
  destruct (reserved_cases _ _ _ _ _ _ _ _ _ _ _ _ _ _ _ _ _ _ _ _ Hc Hr Hf Hres) as [Hdg Hcase].
  destruct res as [resp0|].
  - destruct Hcase as (-> & Hfind & Hrec). left.
    assert (resp0 = RTask resp ∧ db' = db) as [-> ->].
    { destruct resp0; apply Ok_inj in H; injection H as <- <-; [done|]. by destruct Hrec as [_ _ _ _ []]. }
    split; [done|]. eexists r, _, None, digest. split_and!; [done..| |exact Hrec].
    apply reserve_Ok in Hr as [_ [(_ & -> & _)|(E & _)]]; [|congruence]. cbn.
    destruct (Z.eqb_spec (cr_id r) (ti_receipt_id i)); [by auto|].
    unfold get_task. destruct (tb_tasks db !! cr_task_id r) eqn:Et; auto.
  - destruct Hcase as (Hfind & Hn & -> & Hid & ->). right.
    assert (reserved = true) as ->.
    { apply reserve_Ok in Hr as [_ [[E _]|(_ & -> & _)]]; [congruence|done]. }
    set (t := draft_task _ _ _ _) in *. apply result_bind_Ok in H as (db2 & Ha & H).
    set (o := set_receipts _ db) in *.
    assert (add_task (ti_admits i) t o = Ok db2) as (Ht1 & Ht2 & ->)%add_task_Ok.
    { destruct (add_task _ t o) as [?|[]]; try done. by destruct (str_eqb _ _). }
    apply result_bind_Ok in H as (db3 & Hm & H). cbn in Hm. apply record_Ok in Hm as [_ ->].
    apply result_bind_Ok in H as (db4 & [Hk ->]%complete_Ok & H). apply Ok_inj in H. injection H as <- <-.
    apply task_facts_Ok in Hf as (_ & Hh & _), Hf0 as (Ho & _ & _ & Hi). clear Hr Hres.
    split; [done..|]. match goal with |- context [add_audit ?g _] => exists digest, t, None, f, g end.
    cbn zeta. split_and!; [exact Hdg|exact Hh|..]; try done.
    + by exists f0, d.
    + unfold wrote, o. cbn. by rewrite insert_insert_eq.
Qed.

Lemma load_locked_Ok i t f :
  _load_locked_task_context i t = Ok f → complete_context t = true ∧ verified_context i t.
Proof.
  intros [H1 (q & Hq%oget_Ok & [H2 (g & Hg%oget_Ok & H)%result_bind_Ok]%ensure_bind_Ok)%result_bind_Ok]%ensure_bind_Ok.
  split; [done|]. apply ensure_bind_Ok in H as [_ (s & Hs%oget_Ok & [[H3%bool_decide_eq_true H4]%andb_prop _]%ensure_bind_Ok)%result_bind_Ok].
  by exists q, g, s.
Qed.


(** ** Screening and release *)

Lemma validate_preparation_Ok i p db t :
  _validate_transition_preparation i p db = Ok t →
  tb_tasks db !! tp_task p = Some t ∧
  _facts i t (tp_assignment p) (tp_operation p) (tp_reason p) (af_idempotency_key (tp_facts p)) None
    (Some (tp_digest p))
    (manager_replay (tp_receipt p) (tp_operation p) (wt_id t) (ti_actor_id i) (af_idempotency_key (tp_facts p)))
  = Ok (tp_facts p) ∧ hashes (request_value (wt_id t) (tp_reason p) (tp_batch p)) (tp_digest p).
Proof.
  intros [_ (t' & Ht%oget_Ok & (c & Hc & (d & Hd%digest_of_Ok & H)%result_bind_Ok)%result_bind_Ok)%result_bind_Ok]%ensure_bind_Ok.
  apply ensure_bind_Ok in H as [[[E%bool_decide_eq_true _]%andb_prop E'%bool_decide_eq_true]%andb_prop [= <-]].
  by subst.
Qed.

(** What a screening stamps on the task, and what a release leaves on it *)
Definition staged (i : TaskInputs) (op : TaskAuthorityOperation) (ctx : option TaskTransitionContextPreparation)
    (t : WorkstreamTask) (s : PolicyLocks * PostSubmitLock) : Prop :=
  match op with
  | OP_SCREEN => ∃ f, _policy_stamps f = Some s ∧
      match ctx with
      | None => pj_active (ti_projects i) (wt_project_id t) = Some f
      | Some c => xc_facts c = f ∧ pc_project_id f = wt_project_id t
      end
  | _ => s = (wt_locks t, wt_post t) ∧ complete_context t = true ∧
      match ctx with
      | None => verified_context i t
      | Some c => ∃ s', _policy_stamps (xc_facts c) = Some s' ∧ wt_locks t = s'.1 ∧ post_eq (wt_post t) s'.2 = true
      end
  end.

Lemma transition_context_Ok p c f :
  _transition_context p c = Ok f → xc_facts c = f ∧ pc_project_id f = af_project_id (tp_facts p).
Proof.
  intros [_ [H [= <-]]%ensure_bind_Ok]%ensure_bind_Ok. rewrite !andb_true_iff, !Z.eqb_eq in H.
  destruct H as [[H1 H2] _]. split; [done|congruence].
Qed.

(** A prepared context is the one its stage uses *)
Lemma prepare_context_Ok i p db c :
  prepare_transition_context i p db = Ok c →
  _transition_context p c = Ok (xc_facts c) ∧ ∃ t, tb_tasks db !! tp_task p = Some t ∧
    (tp_operation p ≠ OP_SCREEN → complete_context t = true ∧ verified_context i t).
Proof.
  intros (t & (Ht & _)%validate_preparation_Ok & H)%result_bind_Ok. apply ensure_bind_Ok in H as [Hr H].
  apply result_bind_Ok in H as (f & Hf & H). apply ensure_bind_Ok in H as [Hp%Z.eqb_eq [= <-]]. split.
  - unfold _transition_context. cbn [xc_operation xc_project_id xc_facts xc_locked_context_hash].
    by rewrite Hr, bool_decide_true, Hp, !Z.eqb_refl, str_eqb_refl.
  - exists t. split; [done|]. intros Ho. rewrite bool_decide_eq_false_2 in Hf by done.
    by apply result_bind_Ok in Hf as (? & _ & Hf%load_locked_Ok).
Qed.

Lemma stage_locks_Ok i p ctx t s :
  management (tp_operation p) = true → tp_operation p ≠ OP_CREATE → af_project_id (tp_facts p) = wt_project_id t →
  stage_locks i p ctx t = Ok s → staged i (tp_operation p) ctx t s.
Proof.
  intros Hm Hc Hp. unfold stage_locks, staged. destruct (tp_operation p); [done| | |done]; cbn.
  - intros (f & Hf & (? & _ & Hs%oget_Ok)%result_bind_Ok)%result_bind_Ok. exists f. split; [done|].
    destruct ctx as [c|].
    + apply transition_context_Ok in Hf. by rewrite <- Hp.
    + by apply result_bind_Ok in Hf as (g & Hg%oget_Ok & (? & _ & [= <-])%result_bind_Ok).
  - intros [_ (? & Hl & (f & Hf & (? & _ & [= <-])%result_bind_Ok)%result_bind_Ok)%result_bind_Ok]%ensure_bind_Ok.
    assert (complete_context t = true) as Hcc. { unfold _ensure_locked_context in Hl. by destruct (complete_context t). }
    split_and!; [done..|]. destruct ctx as [c|].
    + apply result_bind_Ok in Hf as (g & [<- _]%transition_context_Ok & H).
      apply ensure_bind_Ok in H as [_ (s & Hs%oget_Ok & [[H3%bool_decide_eq_true H4]%andb_prop _]%ensure_bind_Ok)%result_bind_Ok].
      by exists s.
    + by apply load_locked_Ok in Hf as [].
Qed.

(** The outcome of a stage, relative to the rows it finds *)
Lemma stage_transition_Ok i p d ctx db resp db' :
  management (tp_operation p) = true → tp_operation p ≠ OP_CREATE →
  stage_transition i p d ctx db = Ok (resp, db') →
  ∃ t, tb_tasks db !! tp_task p = Some t ∧ af_task_id (tp_facts p) = wt_id t ∧
    hashes (request_value (wt_id t) (tp_reason p) (tp_batch p)) (tp_digest p) ∧
    ((db' = db ∧ cr_status (tp_receipt p) = RC_committed ∧
      recovered (tp_operation p) (tp_receipt p) (tp_digest p) t (tp_assignment p) (RTask resp)) ∨
     (∃ s f af, let t' := moved_task i t s.1 s.2 (transition_target (tp_operation p)) in
        let r := completed i (tp_receipt p) None af (RTask resp) in
        cr_status (tp_receipt p) = RC_pending ∧ cr_task_id (tp_receipt p) = wt_id t ∧
        Some (wt_status t) = (audited_transition (tp_operation p)).1 ∧ staged i (tp_operation p) ctx t s ∧
        hashes (locked_context_json t') (af_locked_context_hash af) ∧
        task_checks t' = true ∧ receipt_checks r = true ∧ is_Some (lineage_of s.1 s.2) ∧
        tf_operation f = tp_operation p ∧ tf_task_id f = wt_id t ∧ tf_to_status f = wt_status t' ∧
        tf_actor_profile_id f = ti_actor_id i ∧ tf_assignment_id f = None ∧
        tf_authorization_decision_id f = ad_decision_id d ∧ resp = task_response_for_authority t' true ∧
        db' = set_receipts (<[cr_id r := r]> (tb_receipts db))
                (add_audit f (set_tasks (<[wt_id t := t']> (tb_tasks db)) db)))).
Proof.
  intros Hm Hc. unfold stage_transition.
  intros (t & (Ht & Hf0 & Hd)%validate_preparation_Ok & (af0 & Hf & (res & Hres & H)%result_bind_Ok)%result_bind_Ok)%result_bind_Ok.
  pose proof (task_facts_Ok _ _ _ _ _ _ _ _ _ _ Hf0) as (_ & _ & _ & Hid).
  assert (af_project_id (tp_facts p) = wt_project_id t) as Hpr.
  { apply result_bind_Ok in Hf0 as (? & _ & E). apply Ok_inj in E. by rewrite <- E. }
  pose proof (recover_Ok _ _ _ _ _ _ _ _ _ _ _ _ _ _ Hf Hres) as Hr. clear Hf0 Hf Hres.
  exists t. split_and!; [done..|]. destruct res as [resp0|].
  - left. destruct Hr as [Hs Hr]. destruct resp0 as [x|x b]; apply Ok_inj in H; injection H as <- <-; [done|].
    destruct Hr as [_ _ _ _ [Hx _]]. congruence.
  - right. destruct Hr as (Hs & _ & Htk). apply result_bind_Ok in H as ([] & _ & H).
    apply result_bind_Ok in H as (s & Hst & H). apply stage_locks_Ok in Hst; [|done..].
    apply result_bind_Ok in H as (db1 & [Hck ->]%put_task_Ok & H).
    apply result_bind_Ok in H as (db2 & Hrec & H). apply result_bind_Ok in H as (af & Haf & H).
    apply task_facts_Ok in Haf as (_ & Hh & _).
    apply result_bind_Ok in H as (db3 & [Hrc ->]%complete_Ok & H). apply Ok_inj in H. injection H as <- <-.
    unfold _record_management in Hrec. rewrite bool_decide_eq_false_2 in Hrec by done.
    apply result_bind_Ok in Hrec as (ol & Hl & Hrec). apply result_bind_Ok in Hl as (l & Hl%oget_Ok & [= <-]).
    apply record_Ok in Hrec as [Hv ->]. unfold audit_event_valid in Hv. rewrite !andb_true_iff, bool_decide_eq_true in Hv.
    cbn [tf_from_status tf_operation] in Hv. destruct Hv as [[_ Hv] _].
    match goal with |- context [add_audit ?g _] => exists s, g, af end. cbn zeta.
    split_and!; try done. by rewrite <- Hv.
Qed.

Lemma prepare_transition_Ok i task op reason key project batch db p db1 :
  prepare_transition i task op reason key project batch db = Ok (p, db1) →
  management op = true ∧ op ≠ OP_CREATE ∧
  (∃ digest reserved, reserve i op key task (request_value task reason batch) batch db
                      = Ok (tp_receipt p, digest, reserved, db1) ∧ tp_digest p = digest) ∧
  (∃ t, find_task project task db1 = Some t ∧ tp_task p = wt_id t ∧
        get_active_assignment (wt_id t) db1 = Ok (tp_assignment p)) ∧
  tp_operation p = op ∧ tp_reason p = reason ∧ tp_batch p = batch ∧ af_operation (tp_facts p) = op.
Proof.
  intros [Hop (x & Hr & H)%result_bind_Ok]%ensure_bind_Ok. destruct x as [[[r digest] reserved] db2]. cbn zeta in H.
  apply result_bind_Ok in H as (t & Ht%oget_Ok & H). apply result_bind_Ok in H as (oa & Ha & H).
  apply result_bind_Ok in H as (f & Hf & H). apply task_facts_Ok in Hf as [Hf _]. apply Ok_inj in H. injection H as <- <-.
  assert (management op = true ∧ op ≠ OP_CREATE) as []. { by destruct op. }
  split_and!; try done; [by exists digest, reserved|by exists t].
Qed.

Lemma manage_Ok i c key db resp db' task op reason :
  c = Screen task reason ∧ op = OP_SCREEN ∨ c = Release task reason ∧ op = OP_RELEASE →
  receipts_committed db → (∀ k t, tb_tasks db !! k = Some t → wt_id t = k) →
  _manage_transition i task op reason key db = Ok (resp, db') →
  (db' = db ∧ replays i c key db (RTask resp)) ∨ writes i c key db (RTask resp) db'.
Proof.
  intros Hop Hc Hids. unfold _manage_transition.
  intros ([p db1] & Hp & (d & Hd & H)%result_bind_Ok)%result_bind_Ok. cbn [fst snd] in *.
  apply prepare_transition_Ok in Hp as (Hm & Hn & (digest & reserved & Hr & Hdg) & (t0 & Ht0 & Htk & Ha) & Eop & Ere & Ebt & Hfo).
  apply result_bind_Ok in Hd as (? & _ & Hd).
  apply stage_transition_Ok in H as (t & Ht & Hid & Hh & H); [|by rewrite Eop..].
  rewrite Eop, Hdg in H. rewrite Ere, Ebt, Hdg in Hh.
  apply reserve_Ok in Hr as [Hh0 Hr].
  assert (tb_tasks db1 = tb_tasks db) as Etk. { by destruct Hr as [(_ & _ & ->)|(_ & _ & _ & _ & ->)]. }
  assert (wt_id t = task ∧ tb_tasks db !! task = Some t) as [Ett Htt].
  { cbn in Ht0. unfold get_task in Ht0. rewrite Etk in Ht0, Ht. rewrite Htk, (Hids _ _ Ht0) in Ht.
    split; [|done]. by apply Hids in Ht. }
  assert (operation_of c = op ∧ command_value i c = request_value task reason None ∧ command_task i c = task)
    as (Eo & Ev & Ec) by by destruct Hop as [[-> ->]|[-> ->]].
  assert (∀ r, found i c r db t) as Hfound by (intros; by destruct Hop as [[-> ->]|[-> ->]]).
  destruct H as [(-> & Hs & Hrec)|(s & f & af & Hs & _ & Hfrom & Hst & Hh' & H)].
  - left. destruct Hr as [(Hfind & _ & ->)|(_ & _ & E & _)]; [|by rewrite E in Hs].
    split; [done|]. exists (tp_receipt p), t, (tp_assignment p), digest. rewrite Eo, Ev. by split_and!.
  - right. destruct Hr as [(Hfind & _ & ->)|(Hfind & _ & E & Hnew & ->)].
    { apply find_receipt_Some in Hfind as [[k Hk] _]. apply Hc in Hk. congruence. }
    rewrite E in H. destruct H as (H1 & H2 & H3 & H4 & H5 & H6 & H7 & H8 & H9 & H10 & ->).
    split; [by rewrite Eo|done|]. eexists digest, _, None, af, f. cbn zeta. rewrite Eo, Ev, Ec.
    split_and!; [done|exact Hh'| |done..| | |].
    + destruct Hop as [[-> ->]|[-> ->]]; cbn in *.
      * split; [done|]. destruct Hst as (g & Hg & Hact). exists t, g, s. by injection Hfrom as Hfrom.
      * split; [done|]. destruct Hst as (-> & Hcc & Hvc). exists t. by injection Hfrom as Hfrom.
    + exists (tp_facts p), d. by rewrite Hid, Hfo.
    + by rewrite H10.
    + unfold wrote. cbn. by rewrite insert_insert_eq.
Qed.

(** ** Claims *)

Lemma stage_claim_Ok i t r f d reason db resp db' :
  stage_claim i t r f d reason db = Ok (resp, db') →
  ∃ v g, let a := started i (new_assignment i t v) in
    let r' := completed i r (Some a) f resp in
    pl_contribution_policy_version_id (wt_locks t) = Some v ∧ tb_assignments db !! ti_assignment_id i = None ∧
    task_checks (claimed_task i t) = true ∧ receipt_checks r' = true ∧
    tf_operation g = OP_CLAIM ∧ tf_task_id g = wt_id t ∧ tf_to_status g = TS_in_progress ∧
    tf_actor_profile_id g = ti_actor_id i ∧ tf_assignment_id g = Some (ti_assignment_id i) ∧
    tf_authorization_decision_id g = ad_decision_id d ∧
    resp = RTaskWithAssignment (task_response_for_authority (claimed_task i t) false) a ∧
    db' = wrote (claimed_task i t) (Some a) r' g db.
Proof.
  intros (v & Hv%oget_Ok & H)%result_bind_Ok.
  apply result_bind_Ok in H as (db1 & (_ & Hn & ->)%add_assignment_Ok & H).
  apply result_bind_Ok in H as (db2 & [Hck ->]%put_task_Ok & H).
  apply result_bind_Ok in H as (db3 & [_ ->]%record_Ok & H).
  apply result_bind_Ok in H as (db4 & [_ ->]%put_assignment_Ok & H).
  apply result_bind_Ok in H as (db5 & [Hrc ->]%complete_Ok & H). apply Ok_inj in H. injection H as <- <-.
  match goal with |- context [add_audit ?g _] => exists v, g end. cbn zeta. split_and!; try done.
  unfold wrote. cbn. by rewrite insert_insert_eq.
Qed.

Lemma claim_Ok i task reason key db resp db' :
  receipts_committed db → (∀ k t, tb_tasks db !! k = Some t → wt_id t = k) →
  claim i task reason key db = Ok (resp, db') →
  (db' = db ∧ replays i (Claim task reason) key db resp) ∨ writes i (Claim task reason) key db resp db'.
Proof.
  intros Hc Hids. unfold claim. destruct (claim_root i task reason key db) as [x|] eqn:H; [|done]. intros [= ->].
  apply result_bind_Ok in H as (x & Hr & H). destruct x as [[[r digest] reserved] db1]. cbn zeta in H.
  apply result_bind_Ok in H as (t & Ht%oget_Ok & H). apply result_bind_Ok in H as (oa & Ha & H).
  apply result_bind_Ok in H as (f0 & Hf0 & H). apply result_bind_Ok in H as (d & Hd & H).
  apply result_bind_Ok in H as (f & Hf & H). apply result_bind_Ok in H as (res & Hres & H).
  destruct (reserved_cases _ _ _ _ _ _ _ _ _ _ _ _ _ _ _ _ _ _ _ _ Hc Hr Hf Hres) as [Hdg Hcase].
  apply task_facts_Ok in Hf0 as (Ho & _ & _ & Hi), Hf as (_ & Hh & _). clear Hr Hres.
  destruct res as [resp0|].
  - destruct Hcase as (-> & Hfind & Hrec). left.
    assert (resp0 = resp ∧ db' = db) as [-> ->]. { destruct resp0; [done|]. apply Ok_inj in H. by injection H as <- <-. }
    split; [done|]. by exists r, t, oa, digest.
  - destruct Hcase as (Hfind & Hn & -> & Hid & ->). right. apply result_bind_Ok in H as ([] & Hst & H).
    apply ensure_bind_Ok in H as [[Hoa Hto]%andb_prop H].
    apply result_bind_Ok in H as (g & [Hcc Hvc]%load_locked_Ok & H).
    apply stage_claim_Ok in H as (v & g' & Hv & Hna & Hck & Hrc & H1 & H2 & H3 & H4 & H5 & H6 & -> & ->).
    assert (wt_status t = TS_ready) as Hready.
    { unfold _ensure_transition_allowed, ensure in Hst. destruct (transition_allowed _ _) eqn:E; [|done].
      by destruct (wt_status t). }
    assert (oa = None) as -> by by destruct oa. assert (wt_assigned_to t = None) as Hnone by by destruct (wt_assigned_to t).
    split; [done..|]. exists digest, (claimed_task i t), (Some (started i (new_assignment i t v))), f, g'.
    cbn zeta. rewrite claimed_context. split_and!; [exact Hdg|exact Hh| |done..| |done|].
    + exists t, v. split_and!; try done. intros k a Hk Hat. apply (proj2 (get_active_Ok _ _ _ Ha) eq_refl k a); [done|congruence].
    + exists f0, d. by split_and!.
    + unfold wrote. cbn. by rewrite insert_insert_eq.
Qed.

(** ** Every command *)

Lemma command_Ok i c key db resp db' :
  receipts_committed db → (∀ k t, tb_tasks db !! k = Some t → wt_id t = k) →
  run_command i c key db = Ok (resp, db') →
  (db' = db ∧ replays i c key db resp) ∨ writes i c key db resp db'.
Proof.
  intros Hc Hids. destruct c; cbn [run_command]; [..|by apply claim_Ok].
  all: intros ([x y] & Hx & [= <- <-])%result_bind_Ok; cbn [fst snd].
  - by apply create_Ok.
  - eapply manage_Ok; [|done..|exact Hx]. auto.
  - eapply manage_Ok; [|done..|exact Hx]. auto.
Qed.
