(* ===== verification/TaskSystem.v ===== *)
(** * The task system

    Every interleaving of the task commands, of the handler that releases the assignments of
    revoked contributors, and of the writers downstream of a claim: submission, routing,
    acceptance, expiry, exhaustion and the rebase of a revision.  The downstream writers are given
    by what they do to the two tables and the state they check for it ([downstream]); commands and
    handler are the functions of [TaskCommands] and [TaskInvalidation].  The invariant [tasks_ok]
    says who holds which task. *)

From S2P Require Import Prelude Text Digest Json Instant OutboxApi Acceptance Rows PolicyApi TaskStore TaskCommands TaskEffects TaskInvalidation.

(** ** Complete contexts *)

Lemma complete_context_locks t u :
  wt_locks u = wt_locks t → wt_post u = wt_post t → complete_context u = complete_context t.
Proof. intros E1 E2. unfold complete_context, _missing_locked_context_fields, locked_context_fields. by rewrite E1, E2. Qed.

Lemma complete_context_intro t : Forall (λ p, p.2 = false) (locked_context_fields t) → complete_context t = true.
Proof.
  unfold complete_context, _missing_locked_context_fields. rewrite bool_decide_eq_true.
  induction 1 as [|[n b] l Hb _ IH]; [done|]. cbn in Hb. subst. exact IH.
Qed.

Lemma present_text s : (some_non_space s = true ∨ digest_pattern s = true) → absent_text (Some s) = false.
Proof. by destruct s; intros []. Qed.

(** The stamps behind a lineage *)
Lemma lineage_of_Some p q l :
  lineage_of p q = Some l →
  (pl_guide_version p = Some (ln_guide_version l) ∧ pl_guide_source_snapshot_id p = Some (ln_guide_source_snapshot_id l) ∧
   pl_guide_source_snapshot_hash p = Some (ln_guide_source_snapshot_hash l) ∧
   pl_effective_policy_id p = Some (ln_effective_policy_id l) ∧ pl_effective_policy_hash p = Some (ln_effective_policy_hash l) ∧
   pl_pre_submit_checker_policy_id p = Some (ln_pre_submit_checker_policy_id l) ∧
   pl_pre_submit_checker_bundle_hash p = Some (ln_pre_submit_checker_bundle_hash l)) ∧
  (ps_id q = Some (ln_post_submit_checker_policy_id l) ∧ ps_version q = Some (ln_post_submit_checker_policy_version l) ∧
   ps_hash q = Some (ln_post_submit_checker_policy_hash l)) ∧
  (pl_review_policy_id p = Some (ln_review_policy_id l) ∧ pl_review_policy_generation p = Some (ln_review_policy_generation l) ∧
   pl_review_policy_hash p = Some (ln_review_policy_hash l) ∧ pl_revision_policy_id p = Some (ln_revision_policy_id l) ∧
   pl_revision_policy_generation p = Some (ln_revision_policy_generation l) ∧
   pl_revision_policy_hash p = Some (ln_revision_policy_hash l)) ∧
  pl_contribution_policy_version_id p = Some (ln_contribution_policy_version_id l) ∧ lineage_valid l = true.
Proof.
  destruct p as [p1 p2 p3 p4 p5 p6 p7 p8 p9 p10 p11 p12 p13 p14], q as [q1 q2 q3 q4]. unfold lineage_of. cbn.
  repeat match goal with |- context [?o ≫= _] => is_var o; destruct o; [cbn [mbind option_bind]|done] end.
  destruct (lineage_valid _) eqn:Hv; [|done]. by intros [= <-].
Qed.

(** A valid lineage names every policy *)
Lemma lineage_complete t :
  is_Some (lineage_of (wt_locks t) (wt_post t)) → absent_body (ps_body (wt_post t)) = false →
  complete_context t = true.
Proof.
  intros [l Hl] Hb. apply complete_context_intro.
  apply lineage_of_Some in Hl as ((E1 & E2 & E3 & E4 & E5 & E6 & E7) & (F1 & F2 & F3) & (G1 & G2 & G3 & G4 & G5 & G6) & K & Hv).
  unfold lineage_valid in Hv. rewrite !andb_true_iff, !Z.ltb_lt in Hv.
  destruct Hv as (((((((((H1 & H2) & H3) & H4) & H5) & H6) & H7) & H8) & H9) & H10).
  unfold locked_context_fields. rewrite E1, E2, E3, E4, E5, E6, E7, F1, F2, F3, G1, G2, G3, G4, G5, G6, K.
  repeat constructor; cbn [snd]; try (by apply present_text; auto); try done; apply Z.eqb_neq; lia.
Qed.

#[local] Opaque locked_context_json canonical_json_hash lineage_of _missing_locked_context_fields.

(** ** Downstream writers *)

Definition with_state (t : WorkstreamTask) (locks : PolicyLocks) (post : PostSubmitLock) (status : TaskStatus)
    (assigned : option uuid) (updated_at : instant) : WorkstreamTask :=
  {| wt_id := wt_id t; wt_project_id := wt_project_id t; wt_locks := locks; wt_post := post;
     wt_content := wt_content t; wt_status := status; wt_created_by := wt_created_by t;
     wt_assigned_to := assigned; wt_created_at := wt_created_at t; wt_updated_at := updated_at |}.

Definition with_outcome (a : TaskAssignment) (version : uuid) (status : AssignmentStatus)
    (released : option instant) (updated_at : instant) : TaskAssignment :=
  {| an_id := an_id a; an_project_id := an_project_id a;
     an_submitter_contribution_policy_version_id := version; an_task_id := an_task_id a;
     an_contributor_id := an_contributor_id a; an_assigned_by := an_assigned_by a;
     an_assigned_at := an_assigned_at a; an_accepted_at := an_accepted_at a; an_released_at := released;
     an_status := status; an_started_at := an_started_at a; an_updated_at := updated_at |}.

Definition write_rows (t : WorkstreamTask) (a : TaskAssignment) (db : TaskDb) : TaskDb :=
  set_assignments (<[an_id a := a]> (tb_assignments db)) (set_tasks (<[wt_id t := t]> (tb_tasks db)) db).

(** The rows a downstream writer locks and compares *)
Record held_rows (db : TaskDb) (t : WorkstreamTask) (a : TaskAssignment) : Prop := {
  hr_task : tb_tasks db !! wt_id t = Some t;
  hr_assignment : tb_assignments db !! an_id a = Some a;
  hr_of : an_task_id a = wt_id t;
  hr_active : an_status a = AS_active;
  hr_assigned : wt_assigned_to t = Some (an_contributor_id a);
}.

(** What each of them writes to the two tables.  A new submission (submission_composition.py) passes
    [submitted] on the way. *)
Definition submitted_rows (t : WorkstreamTask) (now : instant) (db : TaskDb) : TaskDb :=
  {| tb_tasks := <[wt_id t := with_state t (wt_locks t) (wt_post t) TS_evaluation_pending (wt_assigned_to t) now]>
                   (tb_tasks db);
     tb_assignments := tb_assignments db; tb_receipts := tb_receipts db;
     tb_submitted := wt_id t :: tb_submitted db; tb_audit := tb_audit db; tb_releases := tb_releases db |}.

(** post_submit_routing/outcome.py: a submission goes to review or back for revision *)
Definition routed_rows (t : WorkstreamTask) (target : TaskStatus) (now : instant) (db : TaskDb) : TaskDb :=
  set_tasks (<[wt_id t := with_state t (wt_locks t) (wt_post t) target (wt_assigned_to t) now]> (tb_tasks db)) db.

(** revision/expiry.py and revision/exhaustion.py: the contributor loses the task *)
Definition closed_rows (t : WorkstreamTask) (a : TaskAssignment) (outcome : AssignmentStatus)
    (released now : instant) (db : TaskDb) : TaskDb :=
  write_rows (reopened_task now t)
    (with_outcome a (an_submitter_contribution_policy_version_id a) outcome (Some released) now) db.

(** accepted_effects.py *)
Definition accepted_rows (t : WorkstreamTask) (a : TaskAssignment) (now : instant) (db : TaskDb) : TaskDb :=
  write_rows (with_state t (wt_locks t) (wt_post t) TS_accepted (wt_assigned_to t) now)
    (with_outcome a (an_submitter_contribution_policy_version_id a) AS_completed (an_released_at a) now) db.

(** revision/service.py: the task and its assignment move to the policies of the revision *)
Definition rebased_rows (t : WorkstreamTask) (a : TaskAssignment) (locks : PolicyLocks) (post : PostSubmitLock)
    (version : uuid) (now : instant) (db : TaskDb) : TaskDb :=
  write_rows (with_state t locks post (wt_status t) (wt_assigned_to t) now)
    (with_outcome a version (an_status a) (an_released_at a) now) db.

Inductive downstream : TaskDb → TaskDb → Prop :=
| ds_submit db t a now :
    held_rows db t a → wt_status t ∈ [TS_in_progress; TS_needs_revision] →
    downstream db (submitted_rows t now db)
| ds_route db t a target now :
    held_rows db t a → wt_status t = TS_evaluation_pending →
    target ∈ [TS_review_pending; TS_needs_revision] →
    downstream db (routed_rows t target now db)
| ds_release db t a outcome released now :
    held_rows db t a → an_released_at a = None →
    (wt_status t, outcome) ∈ [(TS_needs_revision, AS_revision_expired);
                              (TS_evaluation_pending, AS_revision_exhausted);
                              (TS_needs_revision, AS_revision_exhausted)] →
    downstream db (closed_rows t a outcome released now db)
| ds_accept db t a now :
    held_rows db t a → an_released_at a = None → wt_status t ∈ [TS_evaluation_pending; TS_review_pending] →
    downstream db (accepted_rows t a now db)
| ds_rebase db t a locks post version now :
    held_rows db t a → wt_status t = TS_needs_revision →
    is_Some (lineage_of locks post) → absent_body (ps_body post) = false →
    pl_contribution_policy_version_id locks = Some version →
    downstream db (rebased_rows t a locks post version now db).

(** ** Steps *)

Inductive task_step : TaskDb → TaskDb → Prop :=
| st_command i c key db r db' : run_command i c key db = Ok (r, db') → task_step db db'
| st_reconcile i e db o db' : reconcile i e db = Ok (o, db') → task_step db db'
| st_downstream db db' : downstream db db' → task_step db db'.

Definition empty_tasks : TaskDb :=
  {| tb_tasks := ∅; tb_assignments := ∅; tb_receipts := ∅; tb_submitted := []; tb_audit := [];
     tb_releases := [] |}.

Definition reachable_tasks (db : TaskDb) : Prop := rtc task_step empty_tasks db.

(** ** Custody of the two tables *)

(** The states in which a contributor holds the task *)
Definition working (s : TaskStatus) : bool :=
  match s with
  | TS_in_progress | TS_submitted | TS_evaluation_pending | TS_review_pending | TS_needs_revision => true
  | _ => false
  end.

Record holds (t : WorkstreamTask) (a : TaskAssignment) : Prop := {
  ho_task : an_task_id a = wt_id t;
  ho_project : an_project_id a = wt_project_id t;
  ho_active : an_status a = AS_active;
  ho_open : an_released_at a = None;
  ho_contributor : wt_assigned_to t = Some (an_contributor_id a);
  ho_policy : pl_contribution_policy_version_id (wt_locks t) = Some (an_submitter_contribution_policy_version_id a);
  ho_accepted : is_Some (an_accepted_at a);
  ho_started : an_started_at a = Some (an_assigned_at a);
}.

(** The policy locks of a task past drafting *)
Record locks_ok (t : WorkstreamTask) : Prop := {
  lo_lineage : wt_status t ≠ TS_draft → is_Some (lineage_of (wt_locks t) (wt_post t));
  lo_complete : wt_status t ≠ TS_draft → wt_status t ≠ TS_screening → complete_context t = true;
}.

Record custody (T : gmap Z WorkstreamTask) (A : gmap Z TaskAssignment) : Prop := {
  cu_task_id k t : T !! k = Some t → wt_id t = k;
  cu_assignment_id k a : A !! k = Some a → an_id a = k;
  cu_locks k t : T !! k = Some t → locks_ok t;
  cu_working k t : T !! k = Some t → working (wt_status t) = true → ∃ l a, A !! l = Some a ∧ holds t a;
  cu_idle k t : T !! k = Some t → working (wt_status t) = false → wt_status t ≠ TS_accepted →
                wt_assigned_to t = None;
  cu_done k t : T !! k = Some t → wt_status t = TS_accepted →
                ∃ l a, A !! l = Some a ∧ an_status a = AS_completed ∧ an_task_id a = k ∧
                       wt_assigned_to t = Some (an_contributor_id a);
  cu_active k a : A !! k = Some a → an_status a = AS_active →
                  ∃ t, T !! an_task_id a = Some t ∧ working (wt_status t) = true ∧ holds t a;
  cu_unique k l a b : A !! k = Some a → A !! l = Some b → an_status a = AS_active → an_status b = AS_active →
                      an_task_id a = an_task_id b → k = l;
  cu_closed k a : A !! k = Some a → an_status a ≠ AS_active → an_status a ≠ AS_completed →
                  is_Some (an_released_at a);
  cu_completed k a : A !! k = Some a → an_status a = AS_completed →
                     ∃ t, T !! an_task_id a = Some t ∧ wt_status t = TS_accepted;
}.

(** A task nobody holds changes, or appears *)
Lemma custody_idle T A t :
  custody T A → (∀ t0, T !! wt_id t = Some t0 → working (wt_status t0) = false ∧ wt_status t0 ≠ TS_accepted) →
  working (wt_status t) = false → wt_status t ≠ TS_accepted → wt_assigned_to t = None → locks_ok t →
  custody (<[wt_id t := t]> T) A.
Proof.
  intros C H0 Hw Hac Ha Hl. split.
  - intros k x [[<- <-]|[_ Hk]]%lookup_insert_Some; [done|by apply C].
  - apply C.
  - intros k x [[<- <-]|[_ Hk]]%lookup_insert_Some; [done|by eapply C].
  - intros k x [[<- <-]|[_ Hk]]%lookup_insert_Some; [congruence|by eapply C].
  - intros k x [[<- <-]|[_ Hk]]%lookup_insert_Some; [done|by eapply C].
  - intros k x [[<- <-]|[_ Hk]]%lookup_insert_Some; [done|by eapply C].
  - intros k a Hk Hact. destruct (cu_active _ _ C _ _ Hk Hact) as (t0 & Ht0 & Hw0 & Hh). exists t0.
    split; [|done]. rewrite lookup_insert_ne; [done|]. intros E. rewrite <- E in Ht0. apply H0 in Ht0 as [? _]. congruence.
  - apply C.
  - apply C.
  - intros k a Hk Hcl. destruct (cu_completed _ _ C _ _ Hk Hcl) as (t0 & Ht0 & Hs0). exists t0.
    split; [|done]. rewrite lookup_insert_ne; [done|]. intros E. rewrite <- E in Ht0. by apply H0 in Ht0 as [_ ?].
Qed.

(** The rows [t] and [a] change together.  [t0] is the task before; [a] is new or was the active
    assignment of the task, and after the change it is active exactly if the task is held. *)
Lemma custody_pair T A t0 t a :
  custody T A → T !! wt_id t = Some t0 → wt_status t0 ≠ TS_accepted → an_task_id a = wt_id t →
  (match A !! an_id a with
   | Some a0 => an_status a0 = AS_active ∧ an_task_id a0 = wt_id t
   | None => working (wt_status t0) = false
   end) →
  locks_ok t → (working (wt_status t) = true → holds t a) →
  (working (wt_status t) = false → an_status a ≠ AS_active ∧
     (if decide (an_status a = AS_completed) then wt_status t = TS_accepted else is_Some (an_released_at a)) ∧
     (wt_status t = TS_accepted → an_status a = AS_completed ∧ wt_assigned_to t = Some (an_contributor_id a)) ∧
     (wt_status t ≠ TS_accepted → wt_assigned_to t = None)) →
  custody (<[wt_id t := t]> T) (<[an_id a := a]> A).
Proof.
  intros C Ht0 Hac Hat Ha0 Hl Hw Hf.
  (* the other assignments of the task are closed *)
  assert (∀ l b, A !! l = Some b → l ≠ an_id a → an_status b = AS_active → an_task_id b ≠ wt_id t) as Hother.
  { intros l b Hb Hne Hact Eb. destruct (A !! an_id a) as [a0|] eqn:E.
    - destruct Ha0 as [H1 H2]. apply Hne. eapply (cu_unique _ _ C); [exact Hb|exact E|done..|congruence].
    - destruct (cu_active _ _ C _ _ Hb Hact) as (t1 & Ht1 & Hw1 & _). rewrite Eb in Ht1. congruence. }
  (* an assignment other than [a] stays where it is *)
  assert (∀ l b, A !! l = Some b → an_task_id b ≠ wt_id t → <[an_id a := a]> A !! l = Some b) as Hkeep.
  { intros l b Hb H1. rewrite lookup_insert_ne; [done|]. intros <-. rewrite Hb in Ha0. by destruct Ha0. }
  split.
  - intros k x [[<- <-]|[_ Hk]]%lookup_insert_Some; [done|by apply C].
  - intros k x [[<- <-]|[_ Hk]]%lookup_insert_Some; [done|by apply C].
  - intros k x [[<- <-]|[_ Hk]]%lookup_insert_Some; [done|by eapply C].
  - intros k x [[<- <-]|[Hne Hk]]%lookup_insert_Some Hwx.
    + exists (an_id a), a. rewrite lookup_insert_eq. auto.
    + destruct (cu_working _ _ C _ _ Hk Hwx) as (l & b & Hb & Hh). exists l, b. split; [|done].
      assert (an_task_id b ≠ wt_id t). { rewrite (ho_task _ _ Hh), (cu_task_id _ _ C _ _ Hk). done. }
      auto.
  - intros k x [[<- <-]|[_ Hk]]%lookup_insert_Some; [naive_solver|by eapply C].
  - intros k x [[<- <-]|[Hne Hk]]%lookup_insert_Some Hx.
    + destruct (Hf ltac:(by rewrite Hx)) as (_ & _ & H & _). destruct (H Hx) as [H1 H2].
      exists (an_id a), a. by rewrite lookup_insert_eq.
    + destruct (cu_done _ _ C _ _ Hk Hx) as (l & b & Hb & H1 & H2 & H3). exists l, b. split; [|done].
      apply Hkeep; [done|congruence].
  - intros k b [[<- <-]|[Hne Hk]]%lookup_insert_Some Hact.
    + exists t. rewrite Hat, lookup_insert_eq. split; [done|].
      destruct (working (wt_status t)) eqn:E; [auto|]. destruct (Hf eq_refl). congruence.
    + destruct (cu_active _ _ C _ _ Hk Hact) as (t1 & H1 & H2). exists t1. split; [|done].
      rewrite lookup_insert_ne; [done|]. intros E. by apply (Hother k b); [done..|congruence|done|].
  - intros k l b c [[<- <-]|[Hne Hk]]%lookup_insert_Some [[<- <-]|[Hne' Hl']]%lookup_insert_Some Hb Hc E;
      [done|exfalso..|by eapply (cu_unique _ _ C)].
    + by apply (Hother l c); [..|congruence].
    + by apply (Hother k b); [..|congruence].
  - intros k b [[<- <-]|[_ Hk]]%lookup_insert_Some Hb Hb'; [|by eapply C].
    destruct (working (wt_status t)) eqn:E; [by destruct (Hw eq_refl)|]. destruct (Hf eq_refl) as (_ & H & _).
    by rewrite decide_False in H.
  - intros k b [[<- <-]|[_ Hk]]%lookup_insert_Some Hb.
    + exists t. rewrite Hat, lookup_insert_eq. split; [done|].
      destruct (working (wt_status t)) eqn:E; [destruct (Hw eq_refl); congruence|].
      destruct (Hf eq_refl) as (_ & H & _). by rewrite decide_True in H.
    + destruct (cu_completed _ _ C _ _ Hk Hb) as (t1 & H1 & H2). exists t1. split; [|done].
      rewrite lookup_insert_ne; [done|]. intros E. rewrite <- E in H1. congruence.
Qed.

(** ** Evidence for the rows *)

(** The assignment that was made stays the one that was made *)
Definition same_claim (a b : TaskAssignment) : Prop :=
  an_id a = an_id b ∧ an_task_id a = an_task_id b ∧ an_contributor_id a = an_contributor_id b.

Definition claim_recorded (db : TaskDb) (a : TaskAssignment) : Prop :=
  ∃ f, f ∈ tb_audit db ∧ tf_operation f = OP_CLAIM ∧ tf_assignment_id f = Some (an_id a) ∧
       tf_task_id f = an_task_id a ∧ tf_actor_profile_id f = an_contributor_id a.

Definition release_recorded (db : TaskDb) (a : TaskAssignment) : Prop :=
  ∃ e, e ∈ tb_releases db ∧ it_assignment_id (if_target (ie_facts e)) = an_id a ∧
       it_task_id (if_target (ie_facts e)) = an_task_id a ∧
       it_contributor_id (if_target (ie_facts e)) = an_contributor_id a.

Definition claim_receipt (db : TaskDb) (r : TaskCommandReceipt) : Prop :=
  ∃ l a, tb_assignments db !! l = Some a ∧ cr_assignment_id r = Some (an_id a) ∧
         an_contributor_id a = cr_actor_profile_id r ∧ an_task_id a = cr_task_id r.

Record evidence (db : TaskDb) : Prop := {
  ev_committed : receipts_committed db;
  ev_namespace k l r s : tb_receipts db !! k = Some r → tb_receipts db !! l = Some s →
    same_namespace (cr_actor_profile_id r) (cr_action_id r) (cr_idempotency_key r) s = true → k = l;
  ev_receipt_id k r : tb_receipts db !! k = Some r → cr_id r = k;
  ev_receipt_task k r : tb_receipts db !! k = Some r → is_Some (tb_tasks db !! cr_task_id r);
  ev_claims k r : tb_receipts db !! k = Some r → cr_action_id r = OP_CLAIM → claim_receipt db r;
  ev_created k t : tb_tasks db !! k = Some t →
    ∃ f, f ∈ tb_audit db ∧ tf_operation f = OP_CREATE ∧ tf_task_id f = k;
  ev_claimed k a : tb_assignments db !! k = Some a → claim_recorded db a;
  ev_revoked k a : tb_assignments db !! k = Some a → an_status a = AS_authority_revoked → release_recorded db a;
  ev_released e : e ∈ tb_releases db →
    ∃ a, tb_assignments db !! it_assignment_id (if_target (ie_facts e)) = Some a ∧ an_status a = AS_authority_revoked;
}.

Record tasks_ok (db : TaskDb) : Prop := {
  ok_custody : custody (tb_tasks db) (tb_assignments db);
  ok_evidence : evidence db;
}.

(** A step that rewrites the rows of a task and of its assignment and keeps the receipts *)
Lemma evidence_rows db db' t a a0 :
  evidence db → tb_tasks db !! wt_id t ≠ None → tb_assignments db !! an_id a = Some a0 → same_claim a0 a →
  tb_tasks db' = <[wt_id t := t]> (tb_tasks db) →
  tb_assignments db' = <[an_id a := a]> (tb_assignments db) →
  tb_receipts db' = tb_receipts db → tb_audit db' = tb_audit db →
  (∀ e, e ∈ tb_releases db → e ∈ tb_releases db') → an_status a0 ≠ AS_authority_revoked →
  (∀ e, e ∈ tb_releases db' →
     e ∈ tb_releases db ∨ it_assignment_id (if_target (ie_facts e)) = an_id a ∧ an_status a = AS_authority_revoked) →
  (an_status a = AS_authority_revoked → release_recorded db' a) → evidence db'.
Proof.
  intros E Ht Ha (H1 & H2 & H3) HT HA HR Hau Hre Ha0 Hnew Hrev. split.
  - intros k r. rewrite HR. apply E.
  - intros k l r s. rewrite HR. apply E.
  - intros k r. rewrite HR. apply E.
  - intros k r. rewrite HR, HT. intros Hk. apply lookup_insert_is_Some'. right. by eapply E.
  - intros k r Hk Hc. rewrite HR in Hk. destruct (ev_claims _ E _ _ Hk Hc) as (l & b & Hb & E1 & E2 & E3).
    unfold claim_receipt. rewrite HA. destruct (decide (l = an_id a)) as [->|Hne].
    + exists (an_id a), a. rewrite lookup_insert_eq. rewrite Ha in Hb. injection Hb as ->. split_and!; congruence.
    + exists l, b. by rewrite lookup_insert_ne.
  - intros k x. rewrite HT, Hau. intros [[<- <-]|[_ Hk]]%lookup_insert_Some; [|by eapply E].
    destruct (tb_tasks db !! wt_id t) as [t0|] eqn:E0; [|done]. by eapply E.
  - intros k x. unfold claim_recorded. rewrite HA, Hau. intros [[<- <-]|[_ Hk]]%lookup_insert_Some; [|by eapply E].
    destruct (ev_claimed _ E _ _ Ha) as (f & Hf & E1 & E2 & E3 & E4). exists f. split_and!; congruence.
  - intros k x. rewrite HA. intros [[<- <-]|[_ Hk]]%lookup_insert_Some Hx; [auto|].
    destruct (ev_revoked _ E _ _ Hk Hx) as (e & He & E1). exists e. auto.
  - intros e He. rewrite HA. destruct (Hnew e He) as [He'|[-> Hs]]; [|exists a; by rewrite lookup_insert_eq].
    destruct (ev_released _ E _ He') as (b & Hb & Hs). exists b. split; [|done].
    rewrite lookup_insert_ne; [done|congruence].
Qed.

(** A new command *)
Lemma namespace_new r s :
  same_namespace (cr_actor_profile_id r) (cr_action_id r) (cr_idempotency_key r) s
  = same_namespace (cr_actor_profile_id s) (cr_action_id s) (cr_idempotency_key s) r.
Proof.
  unfold same_namespace. rewrite (Z.eqb_sym (cr_actor_profile_id s)), (Z.eqb_sym (cr_idempotency_key s)).
  do 2 f_equal. by apply bool_decide_ext.
Qed.

Lemma evidence_wrote db t oa r f :
  evidence db → tb_receipts db !! cr_id r = None →
  find_receipt (cr_actor_profile_id r) (cr_action_id r) (cr_idempotency_key r) db = None →
  cr_status r = RC_committed → cr_task_id r = wt_id t → tf_task_id f = wt_id t →
  tf_operation f = cr_action_id r → tf_actor_profile_id f = cr_actor_profile_id r →
  (cr_action_id r = OP_CREATE ∨ tb_tasks db !! wt_id t ≠ None) →
  match oa with
  | None => cr_action_id r ≠ OP_CLAIM
  | Some a => cr_action_id r = OP_CLAIM ∧ cr_assignment_id r = Some (an_id a) ∧
              tf_assignment_id f = Some (an_id a) ∧ an_contributor_id a = cr_actor_profile_id r ∧
              an_task_id a = wt_id t ∧ an_status a ≠ AS_authority_revoked ∧
              tb_assignments db !! an_id a = None
  end →
  evidence (wrote t oa r f db).
Proof.
  intros E Hn Hfind Hs Hrt Hft Hop Hac Hnew Hoa. rewrite find_receipt_None in Hfind.
  assert (∀ k a, tb_assignments db !! k = Some a → tb_assignments (wrote t oa r f db) !! k = Some a) as Hk0.
  { intros k a Hk. cbn. destruct oa as [b|]; [|done]. destruct Hoa as (_ & _ & _ & _ & _ & _ & Hb).
    rewrite lookup_insert_ne; [done|congruence]. }
  split.
  - unfold receipts_committed. cbn. intros k x [[<- <-]|[_ Hk]]%lookup_insert_Some; [done|by eapply E].
  - cbn. intros k l x y [[<- <-]|[Hk Hk']]%lookup_insert_Some [[<- <-]|[Hl Hl']]%lookup_insert_Some; [done|..|by eapply E].
    + intros H. by rewrite (Hfind _ _ Hl') in H.
    + rewrite namespace_new. intros H. by rewrite (Hfind _ _ Hk') in H.
  - cbn. intros k x [[<- <-]|[_ Hk]]%lookup_insert_Some; [done|by apply (ev_receipt_id _ E)].
  - cbn. intros k x [[<- <-]|[_ Hk]]%lookup_insert_Some; apply lookup_insert_is_Some'; [left; congruence|right; by eapply E].
  - cbn [wrote tb_receipts]. intros k x [[<- <-]|[_ Hk]]%lookup_insert_Some Hx.
    + destruct oa as [a|]; [|done]. destruct Hoa as (_ & H1 & _ & H2 & H3 & _). exists (an_id a), a.
      cbn. rewrite lookup_insert_eq. by rewrite Hrt.
    + destruct (ev_claims _ E _ _ Hk Hx) as (l & a & Ha & H). exists l, a. auto.
  - cbn. intros k x [[<- <-]|[_ Hk]]%lookup_insert_Some.
    + destruct Hnew as [Hc|Hne]; [exists f; rewrite elem_of_app, list_elem_of_singleton; split_and!; [auto|congruence|done]|].
      destruct (tb_tasks db !! wt_id t) as [t0|] eqn:E0; [|done].
      destruct (ev_created _ E _ _ E0) as (g & Hg & H). exists g. rewrite elem_of_app. auto.
    + destruct (ev_created _ E _ _ Hk) as (g & Hg & H). exists g. rewrite elem_of_app. auto.
  - unfold claim_recorded. cbn. intros k x Hx.
    assert (tb_assignments db !! k = Some x ∨ oa = Some x) as [Hk| ->].
    { destruct oa as [a|]; [|auto]. apply lookup_insert_Some in Hx as [[_ <-]|[_ ?]]; auto. }
    + destruct (ev_claimed _ E _ _ Hk) as (g & Hg & H). exists g. rewrite elem_of_app. auto.
    + destruct Hoa as (H1 & H2 & H3 & H4 & H5 & _). exists f. rewrite elem_of_app, list_elem_of_singleton.
      split_and!; [auto|congruence..].
  - intros k x Hx Hst. apply (ev_revoked _ E k); [|done]. cbn in Hx. destruct oa as [a|]; [|done].
    apply lookup_insert_Some in Hx as [[_ <-]|[_ ?]]; [|done]. by destruct Hoa as (_ & _ & _ & _ & _ & ? & _).
  - intros e He. destruct (ev_released _ E _ He) as (a & Ha & Hst). exists a. auto.
Qed.

(** ** Steps keep both *)

Lemma command_ok i c key db r db' : tasks_ok db → run_command i c key db = Ok (r, db') → tasks_ok db'.
Proof.
  intros [C E] H.
  destruct (command_Ok _ _ _ _ _ _ (ev_committed _ E) (cu_task_id _ _ C) H) as [[-> _]|[Hfresh Hnew Hw]]; [done|clear H].
  destruct Hw as (digest & t & oa & af & f & Hw). cbn zeta in Hw.
  destruct Hw as (_ & _ & Hc & Hck & _ & Hop & Htk & _ & Hact & Hfa & _ & _ & ->). split.
  - cbn [wrote tb_tasks tb_assignments]. destruct c as [project payload|task reason|task reason|task reason].
    + destruct Hc as (-> & -> & Hn). apply custody_idle; [exact C| |reflexivity|discriminate|reflexivity|].
      * cbn. by rewrite Hn.
      * by split; intros [].
    + destruct Hc as (-> & t0 & g & s & Ht0 & Hs & _ & _ & -> & Hl).
      apply custody_idle; [exact C| |reflexivity|discriminate| |]; cbn.
      * rewrite (cu_task_id _ _ C _ _ Ht0), Ht0. intros ? [= <-]. by rewrite Hs.
      * by apply (cu_idle _ _ C _ _ Ht0); rewrite Hs.
      * split; [intros _; exact Hl|by intros _ []].
    + destruct Hc as (-> & t0 & Ht0 & Hs & Hcc & _ & -> & Hl).
      apply custody_idle; [exact C| |reflexivity|discriminate| |]; cbn.
      * rewrite (cu_task_id _ _ C _ _ Ht0), Ht0. intros ? [= <-]. by rewrite Hs.
      * by apply (cu_idle _ _ C _ _ Ht0); rewrite Hs.
      * split; [intros _; exact Hl|]. intros _ _. rewrite <- Hcc. by apply complete_context_locks.
    + destruct Hc as (t0 & v & Ht0 & Hs & Hto & Hcc & _ & Hv & Hna & _ & -> & ->).
      pose proof (cu_locks _ _ C _ _ Ht0) as [Hl _]. pose proof (cu_task_id _ _ C _ _ Ht0) as Hid. rewrite <- Hid in Ht0.
      apply (custody_pair _ _ t0); [exact C|exact Ht0|by rewrite Hs|reflexivity|..]; cbn.
      * by rewrite Hna, Hs.
      * split; cbn; [by intros _; apply Hl; rewrite Hs|]. intros _ _. rewrite <- Hcc. by apply complete_context_locks.
      * by intros _.
      * discriminate.
  - apply evidence_wrote; try done; cbn.
    + destruct c; cbn in *; [by destruct Hc as (-> & _)|..];
        [destruct Hc as (_ & t0 & ? & ? & Ht0 & _ & _ & _ & -> & _)|
         destruct Hc as (_ & t0 & Ht0 & _ & _ & _ & -> & _)|
         destruct Hc as (t0 & ? & Ht0 & _ & _ & _ & _ & _ & _ & _ & -> & _)]; by apply C in Ht0.
    + destruct c; cbn in *; [by left|right..];
        [destruct Hc as (_ & t0 & ? & ? & Ht0 & _ & _ & _ & -> & _)|
         destruct Hc as (_ & t0 & Ht0 & _ & _ & _ & -> & _)|
         destruct Hc as (t0 & ? & Ht0 & _ & _ & _ & _ & _ & _ & _ & -> & _)];
        cbn; rewrite (cu_task_id _ _ C _ _ Ht0); congruence.
    + destruct c; cbn in *; [by destruct Hc as (_ & -> & _)|by destruct Hc as [-> _]..|].
      destruct Hc as (t0 & v & Ht0 & _ & _ & _ & _ & _ & Hna & _ & -> & ->). by cbn.
Qed.

Lemma reconcile_Ok i e db o db' :
  reconcile i e db = Ok (o, db') →
  db' = db ∨
  ∃ t a target ev at_, _target i e = Some target ∧ o = HO_ACKNOWLEDGE ∧
    tb_tasks db !! it_task_id target = Some t ∧ wt_project_id t = it_project_id target ∧
    tb_assignments db !! it_assignment_id target = Some a ∧ an_task_id a = it_task_id target ∧
    an_contributor_id a = it_contributor_id target ∧ if_target (ie_facts ev) = target ∧
    wt_status t = TS_in_progress ∧ it_task_id target ∉ tb_submitted db ∧ an_status a = AS_active ∧
    wt_assigned_to t = Some (it_contributor_id target) ∧
    db' = write_rows (reopened_task (vi_updated_at i) t) (revoked_assignment i at_ a) (add_release ev db).
Proof.
  intros [_ H]%ensure_bind_Ok. destruct (_target i e) as [target|]; [|by injection H as <- <-; left].
  destruct (negb (vi_observe i e)); [by injection H as <- <-; left|].
  destruct (vi_causes i _) as [cause|]; [|by injection H as <- <-; left].
  destruct (negb (cause_matches _ _)); [by injection H as <- <-; left|].
  destruct (lock_project_task _ _ db) as [t|] eqn:Et; [|by injection H as <- <-; left].
  destruct (lock_invalidation_assignment target db) as [a|] eqn:Ea; [|by injection H as <- <-; left].
  destruct (_ <? _); [by injection H as <- <-; left|].
  apply result_bind_Ok in H as ([p|] & _ & H); [by apply ensure_bind_Ok in H as [_ [= <- <-]]; left|].
  destruct (_ || has_submission _ _) eqn:E1; [by injection H as <- <-; left|].
  destruct (negb (active a) || _ || _ || _) eqn:E2; [by injection H as <- <-; left|]. right.
  apply result_bind_Ok in H as (d1 & _ & H). apply result_bind_Ok in H as (d2 & _ & H).
  apply result_bind_Ok in H as (d3 & _ & H). apply result_bind_Ok in H as (au & _ & H).
  apply ensure_bind_Ok in H as [_ H]. apply result_bind_Ok in H as ([cl at_] & _ & H).
  apply ensure_bind_Ok in H as [_ H]. apply result_bind_Ok in H as (db1 & Hr & H).
  apply ensure_bind_Ok in Hr as [_ [_ [= <-]]%ensure_bind_Ok].
  apply result_bind_Ok in H as (db2 & [_ ->]%put_assignment_Ok & H).
  apply result_bind_Ok in H as (db3 & [_ ->]%put_task_Ok & H). apply Ok_inj in H. injection H as <- <-.
  unfold lock_project_task in Et. destruct (tb_tasks db !! it_task_id target) as [t'|] eqn:Et'; [|done]. cbn in Et.
  destruct (Z.eqb_spec (wt_project_id t') (it_project_id target)); [|done]. injection Et as ->.
  unfold lock_invalidation_assignment in Ea. destruct (tb_assignments db !! _) as [a'|] eqn:Ea'; [|done]. cbn in Ea.
  destruct (_ && _) eqn:E3; [|done]. injection Ea as ->. rewrite !andb_true_iff, !Z.eqb_eq in E3. destruct E3 as [[E3 E4] E5].
  rewrite orb_false_iff, negb_false_iff, bool_decide_eq_true in E1. destruct E1 as [E1 E6].
  unfold has_submission in E6. rewrite bool_decide_eq_false in E6.
  rewrite !orb_false_iff, !negb_false_iff, !bool_decide_eq_true in E2. unfold active in E2. rewrite bool_decide_eq_true in E2.
  destruct E2 as [[[E7 _] E8] _]. eexists t, a, target, _, at_. split_and!; try done. reflexivity.
Qed.

Lemma reconcile_ok i e db o db' : tasks_ok db → reconcile i e db = Ok (o, db') → tasks_ok db'.
Proof.
  intros [C E] [->|(t & a & g & ev & at_ & _ & _ & Ht & _ & Ha & Hat & Hac & Hev & Hs & _ & Hst & Hto & ->)]%reconcile_Ok; [done|].
  pose proof (cu_task_id _ _ C _ _ Ht) as Hid. pose proof (cu_assignment_id _ _ C _ _ Ha) as Hia.
  rewrite <- Hid in Ht. rewrite <- Hia in Ha. pose proof (cu_locks _ _ C _ _ Ht) as [Hl1 Hl2]. split.
  - apply (custody_pair _ _ t); cbn; [exact C|exact Ht|by rewrite Hs|congruence| | |discriminate|].
    + rewrite Ha. split; congruence.
    + split; intros; [by apply Hl1; rewrite Hs|]. rewrite <- Hl2 by (by rewrite Hs). by apply complete_context_locks.
    + intros _. split_and!; [done| |done|done]. by exists at_.
  - apply (evidence_rows db _ (reopened_task (vi_updated_at i) t) (revoked_assignment i at_ a) a);
      [exact E|cbn; by rewrite Ht|exact Ha|by split_and!|reflexivity..| |by rewrite Hst| |]; cbn.
    + intros x Hx. apply elem_of_app. auto.
    + intros x [Hx| ->%list_elem_of_singleton]%elem_of_app; [by left|right]. rewrite Hev. split; congruence.
    + intros _. exists ev. rewrite Hev. cbn. rewrite elem_of_app, list_elem_of_singleton. split_and!; [auto|congruence..].
Qed.

(** A downstream writer's rows are those of the invariant *)
Lemma held_rows_holds db t a : custody (tb_tasks db) (tb_assignments db) → held_rows db t a → holds t a.
Proof.
  intros C [Ht Ha Hof Hac _]. destruct (cu_active _ _ C _ _ Ha Hac) as (t' & Ht' & _ & Hh).
  rewrite Hof, Ht in Ht'. by injection Ht' as ->.
Qed.

(** Rewriting the rows of a held task *)
Lemma write_rows_ok db t a t' a' :
  tasks_ok db → held_rows db t a → wt_id t' = wt_id t → same_claim a a' → wt_status t ≠ TS_accepted →
  locks_ok t' → (working (wt_status t') = true → holds t' a') →
  (working (wt_status t') = false → an_status a' ≠ AS_active ∧
     (if decide (an_status a' = AS_completed) then wt_status t' = TS_accepted else is_Some (an_released_at a')) ∧
     (wt_status t' = TS_accepted → an_status a' = AS_completed ∧ wt_assigned_to t' = Some (an_contributor_id a')) ∧
     (wt_status t' ≠ TS_accepted → wt_assigned_to t' = None)) →
  an_status a' ≠ AS_authority_revoked → tasks_ok (write_rows t' a' db).
Proof.
  intros [C E] [Ht Ha Hof Hac Hto] Hid (H1 & H2 & H3) Hs Hl Hw Hf Hnr. split.
  - cbn. apply (custody_pair _ _ t); [exact C|by rewrite Hid|done|congruence| |done..].
    rewrite <- H1, Ha. split; congruence.
  - apply (evidence_rows db _ t' a' a); [exact E|by rewrite Hid, Ht|by rewrite <- H1|done|reflexivity..|done|by rewrite Hac|auto|done].
Qed.

(** A held task changes its status and nothing else *)
Lemma status_ok db t a s now :
  tasks_ok db → held_rows db t a → working (wt_status t) = true → working s = true →
  tasks_ok (set_tasks (<[wt_id t := with_state t (wt_locks t) (wt_post t) s (wt_assigned_to t) now]> (tb_tasks db)) db).
Proof.
  intros O H Hw Hs. pose proof (ok_custody _ O) as C. pose proof (held_rows_holds _ _ _ C H) as Ho.
  pose proof (cu_locks _ _ C _ _ (hr_task _ _ _ H)) as [L1 L2].
  assert (wt_status t ≠ TS_draft ∧ wt_status t ≠ TS_screening ∧ wt_status t ≠ TS_accepted) as (N1 & N2 & N3)
    by by destruct (wt_status t).
  replace (set_tasks _ db) with (write_rows (with_state t (wt_locks t) (wt_post t) s (wt_assigned_to t) now) a db).
  - apply (write_rows_ok db t a); try done; cbn.
    + split; intros; [by apply L1|]. rewrite <- L2 by done. by apply complete_context_locks.
    + intros _. destruct Ho. by split.
    + by rewrite Hs.
    + by rewrite (ho_active _ _ Ho).
  - unfold write_rows, set_assignments, set_tasks. cbn. by rewrite (insert_id (tb_assignments db)) by apply H.
Qed.

Lemma downstream_ok db db' : tasks_ok db → downstream db db' → tasks_ok db'.
Proof.
  intros O D. pose proof (ok_custody _ O) as C.
  destruct D as [db t a now H Hs|db t a s now H Hs Htg|db t a s r now H Hr Hs|db t a now H Hr Hs|db t a l p v now H Hs Hl Hb Hv].
  all: pose proof (held_rows_holds _ _ _ C H) as Ho; pose proof (cu_locks _ _ C _ _ (hr_task _ _ _ H)) as [L1 L2].
  - assert (working (wt_status t) = true) as Hw by (apply elem_of_cons in Hs as [->| ->%list_elem_of_singleton]; done).
    destruct (status_ok db t a TS_evaluation_pending now) as [C' E']; [done..|]. split; [exact C'|]. by destruct E'.
  - apply (status_ok db t a); [done..|by rewrite Hs|]. by apply elem_of_cons in Htg as [->| ->%list_elem_of_singleton].
  - assert (wt_status t = TS_needs_revision ∨ wt_status t = TS_evaluation_pending) as Hs' by set_solver.
    assert (s = AS_revision_expired ∨ s = AS_revision_exhausted) as Hs'' by set_solver. clear Hs.
    apply (write_rows_ok db t a); try done; cbn.
    + by destruct Hs' as [-> | ->].
    + split; intros; [by apply L1; destruct Hs' as [-> | ->]|].
      rewrite <- L2 by (by destruct Hs' as [-> | ->]). by apply complete_context_locks.
    + intros _. split_and!; [by destruct Hs'' as [-> | ->]| |done|done]. destruct Hs'' as [-> | ->]; by eexists.
    + by destruct Hs'' as [-> | ->].
  - assert (wt_status t ≠ TS_draft ∧ wt_status t ≠ TS_screening ∧ wt_status t ≠ TS_accepted) as (N1 & N2 & N3).
    { by apply elem_of_cons in Hs as [-> | ->%list_elem_of_singleton]. }
    apply (write_rows_ok db t a); try done; cbn.
    + split; intros; [by apply L1|]. rewrite <- L2 by done. by apply complete_context_locks.
    + intros _. split_and!; [done|done| |done]. intros _. split; [done|]. apply Ho.
  - apply (write_rows_ok db t a); try done; cbn.
    + by rewrite Hs.
    + split; intros; [done|]. by apply lineage_complete.
    + intros _. destruct Ho. by split.
    + by rewrite Hs.
    + by rewrite (ho_active _ _ Ho).
Qed.

Lemma empty_tasks_ok : tasks_ok empty_tasks.
Proof.
  split; split; unfold receipts_committed; cbn; intros *; try (by rewrite lookup_empty); by intros ?%elem_of_nil.
Qed.

Lemma task_step_ok db db' : tasks_ok db → task_step db db' → tasks_ok db'.
Proof.
  intros O S. destruct S; [by eapply command_ok|by eapply reconcile_ok|by eapply downstream_ok].
Qed.

Lemma reachable_tasks_ok db : reachable_tasks db → tasks_ok db.
Proof.
  intros R. assert (∀ x, rtc task_step x db → tasks_ok x → tasks_ok db) as H.
  { induction 1 as [|x y z Hs _ IH]; [done|]. intros O. by eapply IH, task_step_ok. }
  by apply (H empty_tasks), empty_tasks_ok.
Qed.
