(* ===== verification/TaskGuarantees.v ===== *)
(** * What the task commands guarantee

    Custody of tasks and assignments over every history, one effect for one use of a key, exact
    retries, and claims that follow one another only after a release. *)

From S2P Require Import Prelude Text Digest Json Instant Acceptance Rows PolicyApi TaskStore TaskCommands TaskInvalidation TaskEffects TaskSystem.

(** The locked context of a draft does not depend on who drafts it, or when *)
Lemma draft_context i j task project c :
  locked_context_json (draft_task j task project c) = locked_context_json (draft_task i task project c).
Proof. done. Qed.

#[local] Opaque locked_context_json canonical_json_hash lineage_of _missing_locked_context_fields.

(** ** What later steps keep *)

Record extends (db db' : TaskDb) : Prop := {
  ex_receipts k r : tb_receipts db !! k = Some r → tb_receipts db' !! k = Some r;
  ex_assignments k a : tb_assignments db !! k = Some a → ∃ b, tb_assignments db' !! k = Some b ∧ same_claim a b;
}.

#[export] Instance extends_preorder : PreOrder extends.
Proof.
  split.
  - intros db. split; [done|]. intros k a Ha. by exists a.
  - intros x y z [H1 H2] [H3 H4]. split; [auto|]. intros k a (b & (c & Hc & E')%H4 & E)%H2.
    exists c. split; [done|]. destruct E as (? & ? & ?), E' as (? & ? & ?). split_and!; congruence.
Qed.

Lemma extends_pair db db' a0 a :
  tb_receipts db' = tb_receipts db → tb_assignments db !! an_id a = Some a0 → same_claim a0 a →
  tb_assignments db' = <[an_id a := a]> (tb_assignments db) → extends db db'.
Proof.
  intros HR Ha Hs HA. split; [by rewrite HR|]. intros k b Hb. rewrite HA.
  destruct (decide (k = an_id a)) as [->|Hne]; [|exists b; by rewrite lookup_insert_ne].
  exists a. rewrite lookup_insert_eq. rewrite Ha in Hb. by injection Hb as <-.
Qed.

Lemma extends_same db db' :
  tb_receipts db' = tb_receipts db → tb_assignments db' = tb_assignments db → extends db db'.
Proof. intros HR HA. split; rewrite ?HR, ?HA; [done|]. intros k a Ha. by exists a. Qed.

Lemma downstream_extends db db' : downstream db db' → extends db db'.
Proof.
  intros D. destruct D as [? ? ? ? []|? ? ? ? ? []|? ? ? ? ? ? []|? ? ? ? []|? ? ? ? ? ? ? []].
  1,2: by apply extends_same.
  all: eapply extends_pair; [reflexivity| | |reflexivity]; [cbn; eassumption|by split_and!].
Qed.

Lemma writes_extends i c key db resp db' : writes i c key db resp db' → extends db db'.
Proof.
  intros [_ Hn (digest & t & oa & af & f & Hw)]. cbn zeta in Hw.
  destruct Hw as (_ & _ & Hc & _ & _ & _ & _ & _ & _ & _ & _ & _ & ->). split; cbn.
  - intros k r Hr. rewrite lookup_insert_ne; [done|congruence].
  - intros k a Ha. exists a. split; [|by split_and!]. destruct oa as [b|]; [|done].
    rewrite lookup_insert_ne; [done|]. destruct c; cbn in Hc; try by destruct Hc as (? & ?).
    + by destruct Hc as (_ & ? & _).
    + destruct Hc as (t0 & v & _ & _ & _ & _ & _ & _ & Hna & _ & _ & [= ->]). cbn. congruence.
Qed.

Lemma step_extends db db' : tasks_ok db → task_step db db' → extends db db'.
Proof.
  intros O S. destruct S as [i c key db r db' H|i e db o db' H|db db' D]; destruct O as [C E].
  - apply command_Ok in H as [[-> _]|W]; [done|by eapply writes_extends|apply E|apply C].
  - apply reconcile_Ok in H as [->|(t & a & g & ev & at_ & _ & _ & Ht & _ & Ha & _ & _ & _ & _ & _ & _ & _ & ->)]; [done|].
    eapply (extends_pair _ _ a (revoked_assignment i at_ a)); [reflexivity| |by split_and!|reflexivity]. cbn. by rewrite (cu_assignment_id _ _ C _ _ Ha).
  - by apply downstream_extends.
Qed.

Lemma run_extends db db' : tasks_ok db → rtc task_step db db' → tasks_ok db' ∧ extends db db'.
Proof.
  intros O R. induction R as [|x y z S _ IH]; [done|]. pose proof (step_extends _ _ O S).
  destruct IH as [? ?]; [by eapply task_step_ok|]. split; [done|]. by etrans.
Qed.

(** ** The receipt of a command *)

Lemma namespace_refl r : same_namespace (cr_actor_profile_id r) (cr_action_id r) (cr_idempotency_key r) r = true.
Proof. unfold same_namespace. by rewrite !Z.eqb_refl, bool_decide_true. Qed.

Lemma namespace_fields actor op key r :
  same_namespace actor op key r = true → cr_actor_profile_id r = actor ∧ cr_action_id r = op ∧ cr_idempotency_key r = key.
Proof. unfold same_namespace. by intros [[->%Z.eqb_eq ->%bool_decide_eq_true]%andb_prop ->%Z.eqb_eq]%andb_prop. Qed.

(** A stored receipt is the one its namespace finds *)
Lemma find_stored db k r actor op key :
  evidence db → tb_receipts db !! k = Some r → same_namespace actor op key r = true →
  find_receipt actor op key db = Some r.
Proof.
  intros E Hk Hn. destruct (find_receipt actor op key db) as [s|] eqn:F.
  - apply find_receipt_Some in F as [[l Hl] Hs]. apply namespace_fields in Hn as (<- & <- & <-).
    assert (k = l) as <- by by eapply (ev_namespace _ E). congruence.
  - rewrite find_receipt_None in F. by rewrite (F _ _ Hk) in Hn.
Qed.

(** After a command its receipt is stored: committed, with the response and the digest of the request *)
Lemma command_receipt i c key db resp db' :
  tasks_ok db → run_command i c key db = Ok (resp, db') →
  ∃ k r, tb_receipts db' !! k = Some r ∧ same_namespace (ti_actor_id i) (operation_of c) key r = true ∧
    cr_response r = Some resp ∧ hashes (command_value i c) (cr_request_digest r).
Proof.
  intros [C E] H. apply command_Ok in H as [[-> Hr]|[_ _ Hw]]; [| |apply E|apply C].
  - destruct Hr as (r & t & oa & digest & [[k Hk] Hn]%find_receipt_Some & Hh & _ & [Hd _ Hr _ _]).
    exists k, r. by rewrite Hd.
  - destruct Hw as (digest & t & oa & af & f & Hw). cbn zeta in Hw.
    destruct Hw as (Hh & _ & _ & _ & _ & _ & _ & _ & _ & _ & _ & _ & ->).
    eexists _, _. split; [apply lookup_insert_eq|]. split_and!; [|reflexivity|exact Hh]. apply namespace_refl.
Qed.

(** ** Custody *)

(** C11.  In every database the commands, the revocations and the writers behind submission and
    review can reach from empty tables, a task that is being worked on has exactly one active
    assignment: of its project, held by the contributor the task names, accepted, started and under
    the contribution policy version the task has locked.  An active assignment is always of such a
    task.  A task nobody works on names no contributor, unless it was accepted: then the completed
    assignment of that contributor is kept.  A task past drafting has a valid policy lineage.
    Every assignment was claimed by its own contributor on record, and one that was closed as
    revoked has the evidence of its release. *)
Theorem task_custody db :
  reachable_tasks db →
  (∀ k t, tb_tasks db !! k = Some t →
     (wt_status t ≠ TS_draft → is_Some (lineage_of (wt_locks t) (wt_post t))) ∧
     if working (wt_status t) then
       ∃ l a, tb_assignments db !! l = Some a ∧ holds t a ∧
         ∀ l' b, tb_assignments db !! l' = Some b → an_status b = AS_active → an_task_id b = k → l' = l
     else if decide (wt_status t = TS_accepted) then
       ∃ l a, tb_assignments db !! l = Some a ∧ an_status a = AS_completed ∧ an_task_id a = k ∧
              wt_assigned_to t = Some (an_contributor_id a)
     else wt_assigned_to t = None) ∧
  (∀ l a, tb_assignments db !! l = Some a →
     claim_recorded db a ∧
     match an_status a with
     | AS_active => ∃ t, tb_tasks db !! an_task_id a = Some t ∧ working (wt_status t) = true ∧ holds t a
     | AS_completed => ∃ t, tb_tasks db !! an_task_id a = Some t ∧ wt_status t = TS_accepted
     | AS_authority_revoked => is_Some (an_released_at a) ∧ release_recorded db a
     | _ => is_Some (an_released_at a)
     end).
Proof.
  intros [C E]%reachable_tasks_ok. split.
  - intros k t Ht. split; [by apply (cu_locks _ _ C _ _ Ht)|]. destruct (working _) eqn:Hw.
    + destruct (cu_working _ _ C _ _ Ht Hw) as (l & a & Ha & Hh). exists l, a. split_and!; [done..|].
      intros l' b Hb Hact Hbt. eapply (cu_unique _ _ C); [done..|apply Hh|].
      by rewrite (ho_task _ _ Hh), (cu_task_id _ _ C _ _ Ht).
    + case_decide; [by apply (cu_done _ _ C)|by apply (cu_idle _ _ C _ _ Ht)].
  - intros l a Ha. split; [by apply (ev_claimed _ E _ _ Ha)|].
    destruct (an_status a) eqn:Hs;
      [by apply (cu_active _ _ C _ _ Ha)|by apply (cu_completed _ _ C _ _ Ha)|..];
      try (by apply (cu_closed _ _ C _ _ Ha); rewrite Hs).
    split; [by apply (cu_closed _ _ C _ _ Ha); rewrite Hs|by apply (ev_revoked _ E _ _ Ha)].
Qed.

(** C15.  A key is used once.  After a command succeeded, however the tables move on, another
    command of the same actor and action under that key changes nothing if it succeeds, returns
    the very response the first one returned, and its request has the digest of the first. *)
Theorem task_command_once db i c key resp db1 db2 j c' resp' db3 :
  reachable_tasks db → run_command i c key db = Ok (resp, db1) → rtc task_step db1 db2 →
  ti_actor_id j = ti_actor_id i → operation_of c' = operation_of c →
  run_command j c' key db2 = Ok (resp', db3) →
  db3 = db2 ∧ resp' = resp ∧ canonical_json_hash (command_value j c') = canonical_json_hash (command_value i c).
Proof.
  intros O%reachable_tasks_ok H1 R Hj Hc H2. pose proof (command_ok _ _ _ _ _ _ O H1) as O1.
  apply (command_receipt _ _ _ _ _ _ O) in H1 as (k & r & Hk & Hn & Hresp & Hh).
  destruct (run_extends _ _ O1 R) as [[C2 E2] X]. apply (ex_receipts _ _ X) in Hk.
  pose proof (find_stored _ _ _ _ _ _ E2 Hk Hn) as F.
  apply command_Ok in H2 as [[-> Hr]|[F' _ _]]; [| |apply E2|apply C2].
  - destruct Hr as (r' & t & oa & d & F' & Hh' & _ & [Hd _ Hr _ _]). rewrite Hj, Hc, F in F'. injection F' as <-.
    split_and!; [done|congruence|]. destruct Hh as [->], Hh' as [->]. by rewrite Hd.
  - rewrite Hj, Hc in F'. congruence.
Qed.

(** C16.  Claims of one task follow one another only after a release.  If a claim made an
    assignment, and a later claim of the same task, under a key its actor had not used, made
    another, then by that time the first one was closed without being completed. *)
Theorem claims_alternate db i j task reason reason' key key' resp resp' db1 db2 db3 :
  reachable_tasks db →
  find_receipt (ti_actor_id i) OP_CLAIM key db = None → claim i task reason key db = Ok (resp, db1) →
  rtc task_step db1 db2 →
  find_receipt (ti_actor_id j) OP_CLAIM key' db2 = None → claim j task reason' key' db2 = Ok (resp', db3) →
  ti_assignment_id j ≠ ti_assignment_id i ∧
  ∃ a, tb_assignments db2 !! ti_assignment_id i = Some a ∧ an_task_id a = task ∧
       an_contributor_id a = ti_actor_id i ∧
       an_status a ≠ AS_active ∧ an_status a ≠ AS_completed ∧ is_Some (an_released_at a).
Proof.
  intros [C E]%reachable_tasks_ok F1 H1 R F2 H2. pose proof (command_ok i (Claim task reason) key _ _ _ (Build_tasks_ok _ C E) H1) as O1.
  apply claim_Ok in H1 as [[_ (? & ? & ? & ? & F & _)]|W]; [cbn in F; congruence| |apply E|apply C].
  destruct W as [_ _ (digest & t & oa & af & f & Hw)]. cbn zeta in Hw.
  destruct Hw as (_ & _ & Hc & _ & _ & _ & _ & _ & _ & _ & _ & _ & ->).
  destruct Hc as (t0 & v & Ht0 & _ & _ & _ & _ & _ & _ & _ & -> & ->). pose proof (cu_task_id _ _ C _ _ Ht0) as Hid.
  destruct (run_extends _ _ O1 R) as [[C2 E2] X].
  destruct (ex_assignments _ _ X (ti_assignment_id i) (started i (new_assignment i t0 v))) as (a & Ha & S1 & S2 & S3);
    [cbn; apply lookup_insert_eq|]. cbn in S1, S2, S3.
  apply claim_Ok in H2 as [[_ (? & ? & ? & ? & F & _)]|W]; [cbn in F; congruence| |apply E2|apply C2].
  destruct W as [_ _ (digest' & t' & oa' & af' & f' & Hw)]. cbn zeta in Hw. destruct Hw as (_ & _ & Hc & _).
  destruct Hc as (t1 & v' & Ht1 & Hs1 & _ & _ & _ & _ & Hn & Hfree & _). pose proof (cu_task_id _ _ C2 _ _ Ht1) as Hid1.
  assert (an_status a ≠ AS_active) as Hna by (apply (Hfree _ _ Ha); congruence).
  assert (an_status a ≠ AS_completed) as Hnc.
  { intros Hcp. destruct (cu_completed _ _ C2 _ _ Ha Hcp) as (t2 & Ht2 & Hs2). rewrite <- S2, Hid, Ht1 in Ht2. congruence. }
  split; [intros Eq; rewrite Eq in Hn; congruence|]. exists a. split_and!; [congruence..|done|done|].
  by apply (cu_closed _ _ C2 _ _ Ha).
Qed.

(** ** Retries *)

(** What a retry needs of its own inputs: the same actor, the same rendering of deadlines, an
    authority that permits what its guard accepts and, for a creation, the project *)
Record retries (i j : TaskInputs) (c : TaskCommand) : Prop := {
  re_actor : ti_actor_id j = ti_actor_id i;
  re_deadline t : ti_deadline_text j t = ti_deadline_text i t;
  re_permits f : task_resource_guard f = true → ∃ d, ti_authorize j f = Ok d;
  re_project : match c with Create project _ => pj_display (ti_projects j) project = Some project | _ => True end;
}.

Lemma digest_of_hashes v d : hashes v d → digest_of v = Ok d.
Proof. intros [H]. unfold digest_of. by rewrite H. Qed.

Definition facts_of (i : TaskInputs) (t : WorkstreamTask) (a : option TaskAssignment) (op : TaskAuthorityOperation)
    (reason : option str) (key replay : option uuid) (rd : option str) (cmd : option uuid) (h : str)
    : TaskAuthorityFacts :=
  {| af_operation := op; af_task_id := wt_id t; af_project_id := wt_project_id t;
     af_actor_profile_id := ti_actor_id i; af_task_status := wt_status t; af_assigned_to := wt_assigned_to t;
     af_assignment_id := an_id <$> a; af_assignment_contributor_id := an_contributor_id <$> a;
     af_locked_context_hash := h; af_reason := reason; af_idempotency_key := key;
     af_replay_assignment_id := replay; af_request_digest := rd; af_replay_command_id := cmd |}.

Lemma facts_hashes i t a op reason key replay rd cmd h :
  hashes (locked_context_json t) h →
  _facts i t a op reason key replay rd cmd = Ok (facts_of i t a op reason key replay rd cmd h).
Proof. intros H%digest_of_hashes. unfold _facts. by rewrite H. Qed.

Lemma reserve_found i op key task v digest db r :
  find_receipt (ti_actor_id i) op key db = Some r → hashes v digest →
  reserve i op key task v None db = Ok (r, digest, cr_id r =? ti_receipt_id i, db).
Proof. intros F H%digest_of_hashes. unfold reserve. cbn -[digest_of find_receipt]. by rewrite H, F. Qed.

Lemma active_none task db :
  (∀ k a, tb_assignments db !! k = Some a → an_task_id a = task → an_status a ≠ AS_active) →
  get_active_assignment task db = Ok None.
Proof.
  intros H. unfold get_active_assignment. destruct (List.filter _ _) as [|a l] eqn:E; [done|exfalso].
  assert (In a (a :: l)) as Ha by by left. rewrite <- E in Ha.
  apply filter_In in Ha as [[k Hk]%list_elem_of_In%elem_of_rows [Ht%Z.eqb_eq Ha%bool_decide_eq_true]%andb_prop].
  by apply (H k a).
Qed.

Lemma authorize_permits i j c f :
  retries i j c → task_resource_guard f = true → ∃ d, _authorize_facts j f = Ok d.
Proof. intros R G. destruct (re_permits _ _ _ R _ G) as [d Hd]. exists d. unfold _authorize_facts. by rewrite G. Qed.

(** A receipt completed for [t] by a manager is recovered for it *)
Lemma recover_managed r digest f t resp reserved :
  management (af_operation f) = true → cr_status r = RC_committed → cr_request_digest r = digest →
  cr_task_id r = wt_id t → cr_assignment_id r = None → cr_contributor_id r = None →
  cr_locked_context_hash r = Some (af_locked_context_hash f) → cr_response r = Some (RTask resp) →
  rs_id resp = wt_id t → rs_project_id resp = wt_project_id t → rs_status resp = wt_status t →
  wt_assigned_to t = None →
  recover r digest f t None reserved = Ok (Some (RTask resp)).
Proof.
  intros Hm Hs <- Ht Ha Hc Hh Hr H1 H2 H3 H4. unfold recover. rewrite str_eqb_refl, Ht, Z.eqb_refl. cbn [andb ensure mbind result_bind].
  destruct (bool_decide_reflect (cr_status r = RC_pending)); [congruence|].
  rewrite Hm, Hr, Ha, Hc, Hh, H1, H2, H3, H4, !Z.eqb_refl, !bool_decide_true by done. by cbn.
Qed.

Lemma recover_claimed r digest f t a resp reserved :
  management (af_operation f) = false → cr_status r = RC_committed → cr_request_digest r = digest →
  cr_task_id r = wt_id t → cr_assignment_id r = Some (an_id a) → cr_contributor_id r = Some (an_contributor_id a) →
  cr_locked_context_hash r = Some (af_locked_context_hash f) → cr_response r = Some (RTaskWithAssignment resp a) →
  rs_id resp = wt_id t → rs_project_id resp = wt_project_id t → rs_status resp = wt_status t →
  rs_assigned_to resp = None → an_status a = AS_active → an_task_id a = wt_id t →
  wt_assigned_to t = Some (an_contributor_id a) →
  recover r digest f t (Some a) reserved = Ok (Some (RTaskWithAssignment resp a)).
Proof.
  intros Hm Hs <- Ht Ha Hc Hh Hr H1 H2 H3 H4 H5 H6 H7. unfold recover, active. rewrite str_eqb_refl, Ht, Z.eqb_refl.
  cbn [andb ensure mbind result_bind].
  destruct (bool_decide_reflect (cr_status r = RC_pending)); [congruence|].
  rewrite Hm, Hr, Ha, Hc, Hh, H1, H2, H3, H4, H5, H6, H7, !Z.eqb_refl, !bool_decide_true by done. by cbn.
Qed.

Lemma creation_value_same i j project c :
  (∀ t, ti_deadline_text j t = ti_deadline_text i t) → creation_value j project c = creation_value i project c.
Proof.
  intros H. unfold creation_value, payload_json. destruct (tc_deadline_at c); [|done]. cbn [json_opt compose]. by rewrite H.
Qed.

(** A retry runs in a database that keeps the receipt [r] of a command on the task [t] *)
Record retained (i : TaskInputs) (c : TaskCommand) (key : uuid) (db : TaskDb) (t : WorkstreamTask)
    (oa : option TaskAssignment) (h : str) (r : TaskCommandReceipt) (resp : StoredResponse) : Prop := {
  rt_find : find_receipt (ti_actor_id i) (operation_of c) key db = Some r;
  rt_status : cr_status r = RC_committed;
  rt_namespace : cr_actor_profile_id r = ti_actor_id i ∧ cr_action_id r = operation_of c ∧ cr_idempotency_key r = key;
  rt_digest : hashes (command_value i c) (cr_request_digest r);
  rt_task : cr_task_id r = wt_id t;
  rt_stored : tb_tasks db !! wt_id t = Some t;
  rt_batch : cr_batch_transition_receipt_id r = None;
  rt_assignment : cr_assignment_id r = an_id <$> oa ∧ cr_contributor_id r = an_contributor_id <$> oa;
  rt_context : cr_locked_context_hash r = Some h ∧ hashes (locked_context_json t) h;
  rt_response : cr_response r = Some resp;
  rt_shown : resp = match oa with
                    | Some a => RTaskWithAssignment (task_response_for_authority t false) a
                    | None => RTask (task_response_for_authority t true)
                    end;
  rt_active : get_active_assignment (wt_id t) db = Ok oa;
}.

Lemma manager_replay_retained i c key db t h r resp :
  retained i c key db t None h r resp →
  manager_replay r (operation_of c) (wt_id t) (ti_actor_id i) (Some key) = Some (cr_id r).
Proof.
  intros [_ Hs (H1 & H2 & H3) _ H4 _ _ _ _ _ _ _]. unfold manager_replay.
  by rewrite Hs, H1, H2, H3, H4, !Z.eqb_refl, !bool_decide_true.
Qed.

Lemma create_replays i j project c key db t h r resp :
  retries i j (Create project c) → retained i (Create project c) key db t None h r (RTask resp) →
  wt_assigned_to t = None → wt_project_id t = project → wt_status t = TS_draft →
  hashes (locked_context_json (draft_task i (wt_id t) project c)) h →
  create_task j project c key db = Ok (resp, db).
Proof.
  intros R T Ht0 Hp Hst Hh. pose proof (manager_replay_retained _ _ _ _ _ _ _ _ T) as Hmr.
  destruct T as [Hf Hs Hn Hd Ht Hst' Hb [Ha Hco] [Hc Hct] Hr Hre _]. cbn in Hf, Hn, Hd, Ha, Hco.
  injection Hre as Hre. rewrite <- (re_actor _ _ _ R) in Hf.
  rewrite <- (creation_value_same i j project c (re_deadline _ _ _ R)) in Hd.
  unfold create_task, prepare_creation. rewrite (reserve_found _ _ _ _ _ _ _ _ Hf Hd). run.
  rewrite Ht. set (p := draft_task j (wt_id t) project c).
  rewrite (facts_hashes j p None _ _ _ _ _ _ h) by (unfold p; by rewrite (draft_context i j)). run. cbn [cp_facts].
  rewrite (re_actor _ _ _ R). cbn [wt_id p draft_task]. cbn [operation_of] in Hmr. rewrite Hmr.
  unfold authorize_creation. cbn [cp_facts facts_of af_actor_profile_id]. rewrite Z.eqb_refl. run.
  match goal with |- context [_authorize_facts j ?f] => destruct (authorize_permits i j _ f R) as [d Hd']; [done|rewrite Hd'] end.
  run. unfold stage_creation. cbn [cp_facts cp_project cp_payload cp_digest cp_receipt cp_task cp_reserved cp_current facts_of af_actor_profile_id].
  rewrite Z.eqb_refl. run. rewrite (digest_of_hashes _ _ Hd). run. rewrite str_eqb_refl, Ht, Z.eqb_refl. run.
  rewrite (re_project _ _ _ R). run. rewrite Z.eqb_refl. run.
  set (u := match _ with Some _ => _ | None => _ end).
  assert (wt_id u = wt_id t ∧ wt_project_id u = project ∧ wt_status u = TS_draft ∧ wt_assigned_to u = None ∧
          hashes (locked_context_json u) h) as (U1 & U2 & U3 & U4 & U5).
  { unfold u, get_task. destruct (cr_id r =? ti_receipt_id j); [|by rewrite Hst'].
    split_and!; try reflexivity. by rewrite (draft_context i j). }
  clearbody u. rewrite (facts_hashes j u None _ _ _ _ _ _ h U5). run.
  rewrite (recover_managed r _ _ u resp); try reflexivity; try assumption; try (rewrite Hre; cbn); congruence.
Qed.

Lemma manage_replays i j c key db t h r resp task op reason :
  c = Screen task reason ∧ op = OP_SCREEN ∨ c = Release task reason ∧ op = OP_RELEASE →
  retries i j c → retained i c key db t None h r (RTask resp) → wt_id t = task → wt_assigned_to t = None →
  _manage_transition j task op reason key db = Ok (resp, db).
Proof.
  intros Hop R T Hid Ht0. pose proof (manager_replay_retained _ _ _ _ _ _ _ _ T) as Hmr.
  assert (operation_of c = op ∧ command_value i c = request_value task reason None ∧ management op = true ∧
          bool_decide (op = OP_SCREEN) || bool_decide (op = OP_RELEASE) = true) as (Eo & Ev & Em & Eb)
    by by destruct Hop as [[-> ->]|[-> ->]].
  destruct T as [Hf Hs Hn Hd Ht Hst Hb [Ha Hco] [Hc Hct] Hr Hre Hac]. rewrite Eo in Hf, Hn, Hmr. rewrite Ev in Hd.
  injection Hre as Hre. rewrite <- (re_actor _ _ _ R) in Hf, Hmr. rewrite Hid in *.
  unfold _manage_transition, prepare_transition. rewrite Eb. run. rewrite (reserve_found _ _ _ _ _ _ _ _ Hf Hd). run.
  cbn [find_task]. unfold get_task. rewrite Hst. run. rewrite Hid, Hac. run.
  rewrite Hmr, (facts_hashes j t None _ _ _ _ _ _ h Hct). run.
  set (f := facts_of _ _ _ _ _ _ _ _ _ _). set (p := Build_TaskTransitionPreparation _ _ _ _ _ _ _ _ _).
  assert (_validate_transition_preparation j p db = Ok t) as Hv.
  { unfold _validate_transition_preparation, get_task. cbn [p f tp_facts tp_task tp_assignment tp_operation tp_reason tp_digest
      tp_receipt tp_batch facts_of af_actor_profile_id af_idempotency_key].
    rewrite Z.eqb_refl. run. rewrite Hst. run. rewrite Hid, Hmr, (facts_hashes j t None _ _ _ _ _ _ h Hct). run.
    rewrite (digest_of_hashes _ _ Hd). run. rewrite Hb, str_eqb_refl, !bool_decide_true by done. by run. }
  unfold authorize_transition, stage_transition. rewrite Hv. run.
  destruct (authorize_permits i j c f R) as [d Hd'].
  { unfold f, task_resource_guard, facts_of. cbn. by rewrite Em. }
  cbn [p tp_facts]. rewrite Hd'. run.
  cbn [tp_assignment tp_operation tp_reason tp_receipt tp_digest tp_reserved].
  rewrite (facts_hashes j t None _ _ _ _ _ _ h Hct). run.
  rewrite (recover_managed r _ _ t resp); try done; try (by rewrite Hre); congruence.
Qed.

Lemma claim_replays i j key db t a h r resp task reason :
  retries i j (Claim task reason) → retained i (Claim task reason) key db t (Some a) h r resp → wt_id t = task →
  wt_status t = TS_in_progress → an_status a = AS_active → an_task_id a = task →
  an_contributor_id a = ti_actor_id i → wt_assigned_to t = Some (ti_actor_id i) →
  claim j task reason key db = Ok (resp, db).
Proof.
  intros R [Hf Hs Hn Hd Ht Hst Hb [Ha Hco] [Hc Hct] Hr Hre Hac] Hid Hw Hact Hat Hcon Hto.
  rewrite <- (re_actor _ _ _ R) in Hf. rewrite Hid in *. cbn in Hf, Hd, Ha, Hco, Hn.
  unfold claim, claim_root. rewrite (reserve_found _ _ _ _ _ _ _ _ Hf Hd). run. unfold get_task. rewrite Hst. run.
  rewrite Hid, Hac. run. unfold replay_assignment. rewrite Hs, Ht, Z.eqb_refl, bool_decide_true by done. run.
  rewrite !(facts_hashes j t (Some a) _ _ _ _ _ _ h Hct). run.
  match goal with |- context [_authorize_facts j ?f] => destruct (authorize_permits i j _ f R) as [d Hd'] end.
  { unfold task_resource_guard, own_assignment, facts_of. cbn.
    rewrite Ha, Hw, Hto, Hcon, (re_actor _ _ _ R), !bool_decide_true by done. done. }
  rewrite Hd'. run. rewrite Hre.
  rewrite (recover_claimed r _ _ t a (task_response_for_authority t false)); try done; congruence.
Qed.

(** The one active assignment of a task is found *)
Lemma filter_single {A} (f : A → bool) (l : list A) a :
  NoDup l → a ∈ l → f a = true → (∀ b, b ∈ l → f b = true → b = a) → List.filter f l = [a].
Proof.
  induction 1 as [|x l Hx Hl IH]; [by intros ?%elem_of_nil|]. intros Ha Hf Hu. cbn.
  destruct (f x) eqn:E.
  - assert (x = a) as -> by (apply Hu; [left|done]). f_equal.
    destruct (List.filter f l) as [|y l'] eqn:El; [done|exfalso].
    assert (In y (y :: l')) as Hy by by left. rewrite <- El in Hy. apply filter_In in Hy as [Hy%list_elem_of_In Hfy].
    apply Hx. rewrite <- (Hu y); [done|by right|done].
  - apply elem_of_cons in Ha as [->|Ha]; [congruence|]. apply IH; [done..|]. intros b Hb. apply Hu. by right.
Qed.

Lemma table_NoDup {A} (m : gmap Z A) (id : A → Z) : (∀ k x, m !! k = Some x → id x = k) → NoDup (rows m).
Proof.
  intros H. apply (NoDup_fmap_1 id). unfold rows. rewrite <- list_fmap_compose.
  rewrite (list_fmap_ext _ fst); [apply NoDup_fst_map_to_list|].
  intros n [k x] Hk%list_elem_of_lookup_2%elem_of_map_to_list. cbn. by apply H.
Qed.

Lemma active_found T db k a :
  custody T (tb_assignments db) → tb_assignments db !! k = Some a → an_status a = AS_active →
  get_active_assignment (an_task_id a) db = Ok (Some a).
Proof.
  intros C Hk Ha. unfold get_active_assignment. rewrite (filter_single _ _ a); [done|..].
  - apply (table_NoDup _ an_id), C.
  - apply elem_of_rows. eauto.
  - by rewrite Z.eqb_refl; apply bool_decide_eq_true.
  - intros b [l Hl]%elem_of_rows [Hb%Z.eqb_eq Hact%bool_decide_eq_true]%andb_prop.
    assert (l = k) as -> by by eapply (cu_unique _ _ C). congruence.
Qed.

Lemma writes_retained i c key db resp db' :
  tasks_ok db → tasks_ok db' → writes i c key db resp db' →
  ∃ t oa h r, carried_out i c db t oa ∧ retained i c key db' t oa h r resp.
Proof.
  intros [C E] [C' E'] [_ _ (digest & t & oa & af & f & Hw)]. cbn zeta in Hw.
  destruct Hw as (Hh & Hh' & Hc & _ & _ & _ & Htk & _ & _ & _ & _ & Hresp & ->).
  set (r := completed _ _ _ _ _) in *. exists t, oa, (af_locked_context_hash af), r. split; [done|].
  assert (command_task i c = wt_id t) as Hct.
  { destruct c; cbn in Hc |- *; [by destruct Hc as [-> _]|..].
    - destruct Hc as (_ & t0 & g & s & Ht0 & _ & _ & _ & -> & _). symmetry. by apply C in Ht0.
    - destruct Hc as (_ & t0 & Ht0 & _ & _ & _ & -> & _). symmetry. by apply C in Ht0.
    - destruct Hc as (t0 & v & Ht0 & _ & _ & _ & _ & _ & _ & _ & -> & _). symmetry. by apply C in Ht0. }
  assert (tb_tasks (wrote t oa r f db) !! wt_id t = Some t) as Hst by apply lookup_insert_eq.
  assert (oa = None → working (wt_status t) = false) as Hidle.
  { intros ->. destruct c; cbn in Hc; [by destruct Hc as [-> _]|..].
    - by destruct Hc as (_ & t0 & g & s & _ & _ & _ & _ & -> & _).
    - by destruct Hc as (_ & t0 & _ & _ & _ & _ & -> & _).
    - by destruct Hc as (t0 & v & _ & _ & _ & _ & _ & _ & _ & _ & _ & ?). }
  split; try done.
  - eapply find_stored; [done|cbn; apply lookup_insert_eq|apply namespace_refl].
  - destruct oa as [a|].
    + destruct c; cbn in Hc; [by destruct Hc as (_ & ? & _)|by destruct Hc as [? _]..|].
      destruct Hc as (t0 & v & Ht0 & _ & _ & _ & _ & _ & _ & _ & -> & Hoa).
      assert (an_task_id a = wt_id t0 ∧ an_status a = AS_active) as [Hat Hact] by by injection Hoa as ->.
      cbn [claimed_task wt_id]. rewrite <- Hat. eapply active_found; [exact C'|cbn; apply lookup_insert_eq|done].
    + apply active_none. intros k a Ha Hat Hact. destruct (cu_active _ _ C' _ _ Ha Hact) as (t1 & Ht1 & Hw & _).
      rewrite Hat, Hst in Ht1. injection Ht1 as <-. rewrite Hidle in Hw by done. done.
Qed.

(** C14.  A retry of a command returns its response again.  After a command under a key its actor
    had not used, the same command by the same actor under the same key succeeds, with the response
    of the first, and leaves the tables as they are: whatever identities and clock readings the
    retry brings, whether or not the policies of the project are still the ones the first command
    read, and if the authority permits what its guard accepts (for a creation: and the project is
    still there). *)
Theorem task_command_replay db i c key resp db1 j :
  reachable_tasks db → find_receipt (ti_actor_id i) (operation_of c) key db = None →
  run_command i c key db = Ok (resp, db1) → retries i j c →
  run_command j c key db1 = Ok (resp, db1).
Proof.
  intros O%reachable_tasks_ok F H R. pose proof (command_ok _ _ _ _ _ _ O H) as O1.
  apply command_Ok in H as [[_ (? & ? & ? & ? & F' & _)]|W]; [congruence| |apply O|apply O].
  destruct (writes_retained _ _ _ _ _ _ O O1 W) as (t & oa & h & r & Hc & T). clear W F.
  destruct O as [C E]. destruct c as [project payload|task reason|task reason|task reason]; cbn [run_command].
  - destruct Hc as (-> & -> & _). rewrite (rt_shown _ _ _ _ _ _ _ _ _ T) in T |- *.
    rewrite (create_replays i j _ _ _ _ _ _ _ _ R T); try done. apply (rt_context _ _ _ _ _ _ _ _ _ T).
  - destruct Hc as (-> & t0 & g & s & Ht0 & Hs & _ & _ & -> & _). rewrite (rt_shown _ _ _ _ _ _ _ _ _ T) in T |- *.
    unfold screen. rewrite (manage_replays i j _ _ _ _ _ _ _ task OP_SCREEN reason ltac:(by left) R T); [done|..]; cbn.
    + by apply C in Ht0.
    + by apply (cu_idle _ _ C _ _ Ht0); rewrite Hs.
  - destruct Hc as (-> & t0 & Ht0 & Hs & _ & _ & -> & _). rewrite (rt_shown _ _ _ _ _ _ _ _ _ T) in T |- *.
    unfold release. rewrite (manage_replays i j _ _ _ _ _ _ _ task OP_RELEASE reason ltac:(by right) R T); [done|..]; cbn.
    + by apply C in Ht0.
    + by apply (cu_idle _ _ C _ _ Ht0); rewrite Hs.
  - destruct Hc as (t0 & v & Ht0 & _ & _ & _ & _ & _ & _ & _ & -> & ->).
    apply (claim_replays i j _ _ _ _ _ _ _ _ _ R T); try done; by apply C in Ht0.
Qed.
