(* ===== verification/TaskRevocation.v ===== *)
(** * What a revocation does to the tasks of a contributor

    The publication reads its targets page by page; this file proves that it appends exactly one
    event for each of them, that the envelope of such an event names its assignment, and that its
    handler releases the assignment once. *)

From stdpp Require Import sorting.
From S2P Require Import Prelude Text Digest Json Instant OutboxApi OutboxStore OutboxAppend OutboxDelivery Acceptance Rows Paging PolicyApi TaskStore TaskCommands TaskInvalidation TaskEffects TaskSystem TaskGuarantees.

(** ** Pages of targets *)

Section Targets.
Context (T : gmap Z WorkstreamTask) (db : TaskDb) (C : custody T (tb_assignments db)).

Definition assignment_lt (a b : TaskAssignment) : Prop := an_id a < an_id b.

#[local] Instance assignment_lt_trans : Transitive assignment_lt.
Proof. unfold assignment_lt. intros x y z. lia. Qed.

Lemma elem_of_targets q a :
  a ∈ target_rows q db ↔ invalidation_target q db a = true ∧ ∃ k, tb_assignments db !! k = Some a.
Proof.
  unfold target_rows. rewrite merge_sort_Permutation, list_elem_of_In, filter_In, <- list_elem_of_In, elem_of_rows. tauto.
Qed.

(** Identities are distinct, so the targets are strictly sorted *)
Lemma targets_sorted q : StronglySorted assignment_lt (target_rows q db).
Proof using C.
  assert (NoDup (target_rows q db)) as Hnd.
  { unfold target_rows. rewrite merge_sort_Permutation. apply NoDup_ListNoDup, List.NoDup_filter, NoDup_ListNoDup.
    apply (table_NoDup _ an_id), C. }
  assert (∀ a b, a ∈ target_rows q db → b ∈ target_rows q db → an_id a = an_id b → a = b) as Hinj.
  { intros a b [_ [k Hk]]%elem_of_targets [_ [l Hl]]%elem_of_targets E.
    apply C in Hk as Hk', Hl as Hl'. congruence. }
  assert (StronglySorted assignment_le (target_rows q db)) as Hs.
  { apply Sorted_StronglySorted; [unfold assignment_le; intros x y z; lia|]. apply Sorted_merge_sort.
    intros x y. unfold assignment_le. lia. }
  induction Hs as [|x l Hl IH Hx]; constructor; apply NoDup_cons in Hnd as [Hn Hnd].
  - apply IH; [done|]. intros; apply Hinj; [by right..|done].
  - rewrite Forall_forall in *. intros y Hy. specialize (Hx y Hy). unfold assignment_le, assignment_lt in *.
    assert (an_id x ≠ an_id y); [|lia]. intros E. apply Hn. rewrite (Hinj x y); [done|left|by right|done].
Qed.

Lemma nth_error_lookup {A} (l : list A) n : nth_error l n = l !! n.
Proof. revert n. induction l as [|x l IH]; intros [|n]; [done..|]. apply IH. Qed.

(** The position of the last of [limit] rows, if one more was fetched *)
Lemma page_next_last {A B} (g : A → B) limit l :
  (1 ≤ limit)%nat →
  (if (limit <? length (firstn (S limit) l))%nat then g <$> nth_error (firstn (S limit) l) (limit - 1) else None)
  = if (limit <? length l)%nat then g <$> last (firstn limit l) else None.
Proof.
  intros Hl. rewrite length_firstn. destruct (Nat.ltb_spec limit (length l)) as [H|H].
  - rewrite (proj2 (Nat.ltb_lt _ _)) by lia. f_equal. rewrite last_lookup, length_firstn, Nat.min_l by lia.
    rewrite nth_error_lookup, !lookup_take. case_decide; [|lia]. case_decide; [|lia]. f_equal. lia.
  - by rewrite (proj2 (Nat.ltb_ge _ _)) by lia.
Qed.

(** A page and the next position, as the first rows after a position *)
Lemma targets_page f after :
  let q := page_request f None in
  let rest := rows_after after_id (target_rows q db) after in
  let page := read_assignment_invalidation_targets_page (page_request f after) db in
  pg_items page = map (target_of (ap_invalidation_event_id f)) (firstn 100 rest) ∧
  pg_next_after page = if (100 <? length rest)%nat then an_id <$> last (firstn 100 rest) else None.
Proof.
  intros q rest page. unfold page, read_assignment_invalidation_targets_page.
  change (target_rows (page_request f after) db) with (target_rows q db). cbn [tq_after page_request]. fold rest.
  cbn [pg_items pg_next_after]. split.
  - rewrite firstn_firstn, Nat.min_l by lia. done.
  - apply (page_next_last an_id 100 rest). lia.
Qed.

(** ** Appending *)

Lemma append_targets_app i f l1 l2 o :
  append_targets i f (l1 ++ l2) o = (o' ← append_targets i f l1 o; append_targets i f l2 o').
Proof.
  revert o. induction l1 as [|t l1 IH]; intros o; [done|]. cbn [append_targets app].
  destruct (append _ _ _ _ _ _) as [[r o']|e]; [|done]. run. apply IH.
Qed.

(** The loop appends the targets after its position, in one pass *)
Lemma publish_loop_all i f fuel after o :
  let rest := rows_after after_id (target_rows (page_request f None) db) after in
  (length rest < fuel)%nat →
  publish_loop fuel i f after db o
  = Some (append_targets i f (map (target_of (ap_invalidation_event_id f)) rest) o).
Proof using C.
  cbn zeta. revert after o. induction fuel as [|fuel IH]; intros after o Hf; [lia|]. cbn [publish_loop].
  destruct (targets_page f after) as [-> ->]. set (s := target_rows _ db) in *. set (rest := rows_after after_id s after) in *.
  destruct (Nat.ltb_spec 100 (length rest)) as [Hlt|Hge].
  - destruct (exists_last (l := firstn 100 rest)) as (l1 & x & El).
    { intros E%(f_equal length). rewrite length_firstn in E. cbn [length] in E. lia. }
    assert (rest = l1 ++ x :: drop 100 rest) as Er.
    { rewrite <- (firstn_skipn 100 rest) at 1. rewrite El, <- app_assoc. done. }
    pose proof (rows_after_behind assignment_lt an_id after_id) as Hb.
    specialize (Hb ltac:(unfold assignment_lt; lia)
                     ltac:(unfold assignment_lt, after_id; intros; rewrite Z.ltb_lt; lia)
                     ltac:(unfold assignment_lt, after_id; intros ???; rewrite !Z.ltb_lt; lia)
                     s after l1 x (drop 100 rest) (targets_sorted _) Er).
    rewrite El, last_snoc. cbn [fmap option_fmap option_map]. rewrite <- El.
    rewrite <- (firstn_skipn 100 rest) at 2. rewrite map_app, append_targets_app.
    destruct (append_targets _ _ (map _ (firstn 100 rest)) o) as [o'|e]; [|done]. run.
    rewrite IH; rewrite Hb; [done|]. rewrite length_drop. lia.
  - rewrite (take_ge rest 100) by lia. by destruct (append_targets _ _ _ _).
Qed.
End Targets.

(** ** The events *)

(** Python's equality and the canonical text agree on values without numbers *)
Fixpoint numberless (v : json) : bool :=
  match v with
  | JInt _ | JBool _ => false
  | JArr l => forallb numberless l
  | JObj kvs => forallb (λ kv, numberless kv.2) kvs
  | _ => true
  end.

Lemma eq_form_canon v : numberless (eq_form v) = true → eq_form v = canon v.
Proof.
  induction v as [|b|n|s|l IH|kvs IH] using json_nested_ind; try done; cbn [eq_form numberless canon].
  - rewrite forallb_forall. intros H. f_equal. apply map_ext_in. intros x Hx. rewrite Forall_forall in IH.
    apply IH; [by apply list_elem_of_In|]. by apply H, in_map.
  - rewrite forallb_forall. intros H. do 2 f_equal. apply map_ext_in. intros [k x] Hx. f_equal. cbn.
    rewrite Forall_forall in IH. apply (IH (k, x)); [by apply list_elem_of_In|]. apply (H (k, eq_form x)).
    apply list_elem_of_In. rewrite sort_kvs_Permutation. apply list_elem_of_In, in_map_iff. by exists (k, x).
Qed.

(** A stored payload equal to [w] renders as [w] *)
Lemma py_eq_dumps v w : py_eq v w = true → numberless (eq_form w) = true → dumps v = dumps w.
Proof.
  intros H%bool_decide_eq_true Hn. rewrite <- (dumps_canon v), <- (dumps_canon w), <- !eq_form_canon by congruence.
  by rewrite H.
Qed.

Definition target_ids (t : AssignmentInvalidationTarget) : list uuid :=
  [it_project_id t; it_task_id t; it_assignment_id t; it_contributor_id t; it_authority_invalidation_event_id t].

(** The members of a target, in the order of their names *)
Definition target_members (a e c p k : str) : list (str * json) :=
  [kv "assignment_id" (JStr a); kv "authority_invalidation_event_id" (JStr e); kv "contributor_id" (JStr c);
   kv "project_id" (JStr p); kv "task_id" (JStr k)].

Lemma target_json_canon t :
  canon (target_json t)
  = JObj (target_members (uuid_text (it_assignment_id t)) (uuid_text (it_authority_invalidation_event_id t))
            (uuid_text (it_contributor_id t)) (uuid_text (it_project_id t)) (uuid_text (it_task_id t))).
Proof.
  unfold target_json, json_uuid. generalize (uuid_text (it_assignment_id t)), (uuid_text (it_project_id t)),
    (uuid_text (it_task_id t)), (uuid_text (it_contributor_id t)), (uuid_text (it_authority_invalidation_event_id t)).
  intros. vm_compute. reflexivity.
Qed.

Lemma target_members_get a e c p k :
  forallb (λ m, str_in m.1 target_keys) (target_members a e c p k) = true ∧
  dict_get (lit "project_id") (target_members a e c p k) = Some (JStr p) ∧
  dict_get (lit "task_id") (target_members a e c p k) = Some (JStr k) ∧
  dict_get (lit "assignment_id") (target_members a e c p k) = Some (JStr a) ∧
  dict_get (lit "contributor_id") (target_members a e c p k) = Some (JStr c) ∧
  dict_get (lit "authority_invalidation_event_id") (target_members a e c p k) = Some (JStr e).
Proof. split_and!; vm_compute; reflexivity. Qed.

Lemma target_json_wf t : json_wf (target_json t) = true.
Proof.
  unfold target_json, json_uuid, kv. cbn [json_wf forallb fst snd map]. rewrite !uuid_text_str. vm_compute. done.
Qed.

Lemma read_target_dumps i t :
  (∀ u, u ∈ target_ids t → vi_uuid i (uuid_text u) = Some u) → read_target i (dumps (target_json t)) = Some t.
Proof.
  intros H. unfold read_target. rewrite (loads_dumps _ (target_json_wf t)), target_json_canon. unfold uuid_member.
  match goal with |- context [target_members ?a ?e ?c ?p ?k] =>
    destruct (target_members_get a e c p k) as (E0 & E1 & E2 & E3 & E4 & E5); rewrite E0, E1, E2, E3, E4, E5 end. unfold target_ids in H.
  rewrite !H by (rewrite !elem_of_cons; tauto). by destruct t.
Qed.

(** The envelope of an event stored for a target names the target *)
Lemma envelope_target i f t e d c :
  (∀ u, u ∈ target_ids t → vi_uuid i (uuid_text u) = Some u) →
  it_authority_invalidation_event_id t = ap_invalidation_event_id f →
  _matches e (target_event f t) d = true → claim_valid c = true → cl_project_id c = ev_project_id e →
  _target i (envelope_of e c) = Some t.
Proof.
  intros Hu Hev Hm Hc Hp. apply _matches_facts in Hm as (M1 & M2 & M3 & M4 & M5 & _ & M6 & _ & _ & M7 & _).
  unfold _target, envelope_of, _encode. cbn [en_claim en_payload_json en_event_type en_event_version en_aggregate_type
    en_aggregate_id en_causation_event_id]. rewrite Hc.
  rewrite (py_eq_dumps _ _ M7).
  2: { cbn [target_event in_payload]. unfold target_json, json_uuid.
       generalize (uuid_text (it_assignment_id t)), (uuid_text (it_project_id t)), (uuid_text (it_task_id t)),
         (uuid_text (it_contributor_id t)), (uuid_text (it_authority_invalidation_event_id t)). intros. vm_compute. done. }
  cbn [target_event in_payload]. rewrite (read_target_dumps i t Hu). cbn [mbind option_bind].
  rewrite M1, M2, M3, M4, Hp, M5, M6. unfold target_event.
  cbn [in_event_type in_event_version in_aggregate_type in_aggregate_id in_project_id in_causation_event_id].
  by rewrite !str_eqb_refl, !Z.eqb_refl, Hev, bool_decide_true.
Qed.

(** What appending a list of targets leaves *)
Lemma append_targets_stored i f ts o o' :
  event_keys_ok o → append_targets i f ts o = Ok o' →
  event_keys_ok o' ∧ (∀ id e, db_events o !! id = Some e → db_events o' !! id = Some e) ∧
  (∀ id e, db_events o' !! id = Some e → db_events o !! id = Some e ∨
     ∃ t d, t ∈ ts ∧ _matches e (target_event f t) d = true) ∧
  (∀ t, t ∈ ts → ∃ id e d, db_events o' !! id = Some e ∧ _matches e (target_event f t) d = true).
Proof.
  revert o. induction ts as [|t ts IH]; intros o K H.
  { injection H as <-. split_and!; [done..|by left|by intros ? ?%elem_of_nil]. }
  cbn [append_targets] in H. apply result_bind_Ok in H as ([r o1] & Ha & H). cbn [snd] in H.
  pose proof (append_keys_ok _ _ _ _ _ _ _ _ K Ha) as K1.
  destruct (append_stored _ _ _ _ _ _ _ _ K Ha) as (d & e & _ & Hw & Hm & _).
  assert (e ∈ with_key o1 (in_idempotency_key (target_event f t))) as Hin by (rewrite Hw; left).
  apply elem_of_with_key in Hin as (_ & id & Hid).
  destruct (IH o1 K1 H) as (K' & Hkeep & Hnew & Hall). split_and!; [done|..].
  - intros id' e' He'. apply Hkeep.
    destruct (append_Ok _ _ _ _ _ _ _ _ K Ha) as (? & _ & _ & _ & [(_ & Hfree & _ & -> & _)|(? & _ & _ & -> & _)]); [|done].
    cbn. rewrite lookup_insert_ne; [done|congruence].
  - intros id' e' [He'|(t' & d' & Ht' & Hm')]%Hnew; [|right; exists t', d'; split; [by right|done]].
    destruct (append_Ok _ _ _ _ _ _ _ _ K Ha) as (d' & _ & _ & _ & [(_ & Hfree & _ & -> & _)|(? & _ & _ & -> & _)]); [|by left].
    cbn in He'. apply lookup_insert_Some in He' as [[_ <-]|[_ He']]; [right|by left].
    exists t, d'. split; [by left|apply inserted_event_matches].
  - intros t' [->|Ht']%elem_of_cons; [|by apply Hall]. exists id, e, d. split; [by apply Hkeep|done].
Qed.

(** C12.  A revocation reaches every assignment it is about, and no other.  The publication ends: its
    pages of at most a hundred rows, followed by position, append the same events as one pass over
    all assignments the contributor holds without a submission.  If it succeeds, each of them has a
    stored event, whose envelope, under any valid claim of it, the handler reads as exactly that
    assignment and revocation; and every event that was not there before is of one of them. *)
Theorem revocation_published db i f o :
  reachable_tasks db → event_keys_ok o →
  publish i f db o
  = Some (unavailable (append_targets i f (map (target_of (ap_invalidation_event_id f))
                                             (target_rows (page_request f None) db)) o)) ∧
  ∀ o', publish i f db o = Some (Ok o') →
    (∀ k a v, tb_assignments db !! k = Some a → invalidation_target (page_request f None) db a = true →
       let t := target_of (ap_invalidation_event_id f) a in
       (∀ u, u ∈ target_ids t → vi_uuid v (uuid_text u) = Some u) →
       ∃ id e, db_events o' !! id = Some e ∧ ev_idempotency_key e = in_idempotency_key (target_event f t) ∧
         ∀ c, claim_valid c = true → cl_project_id c = ev_project_id e → _target v (envelope_of e c) = Some t) ∧
    (∀ id e, db_events o' !! id = Some e → db_events o !! id = None →
       ∃ k a, tb_assignments db !! k = Some a ∧ invalidation_target (page_request f None) db a = true ∧
              ev_aggregate_id e = an_id a ∧ ev_causation_event_id e = Some (ap_invalidation_event_id f)).
Proof.
  intros [C _]%reachable_tasks_ok K.
  assert (publish i f db o = Some (unavailable (append_targets i f (map (target_of (ap_invalidation_event_id f))
            (target_rows (page_request f None) db)) o))) as Hp.
  { unfold publish. rewrite (publish_loop_all _ _ C i f _ None); [done|]. cbn [rows_after]. unfold target_rows.
    rewrite merge_sort_Permutation. pose proof (List.filter_length_le (invalidation_target (page_request f None) db) (rows (tb_assignments db))) as H.
    unfold rows in *. rewrite length_map, length_map_to_list in H. lia. }
  split; [exact Hp|]. intros o' Ho. rewrite Hp in Ho. apply Some_inj in Ho.
  destruct (append_targets _ _ _ o) as [o1|] eqn:Ho1; [|done]. apply Ok_inj in Ho as ->. rename Ho1 into Ho.
  destruct (append_targets_stored _ _ _ _ _ K Ho) as (K' & _ & Hnew & Hall). split.
  - intros k a v Hk Ht t Hu. destruct (Hall t) as (id & e & d & He & Hm).
    { apply list_elem_of_fmap. exists a. split; [done|]. apply elem_of_targets. eauto. }
    exists id, e. split_and!; [done|by apply _matches_facts in Hm as (_ & _ & _ & _ & _ & _ & _ & ? & _)|].
    intros c Hc Hpr. by eapply envelope_target.
  - intros id e He Hn. destruct (Hnew id e He) as [?|(t & d & Ht & Hm)]; [congruence|].
    apply list_elem_of_fmap in Ht as (a & -> & [Hi [k Hk]]%elem_of_targets). exists k, a.
    apply _matches_facts in Hm as (_ & _ & _ & ? & _ & _ & ? & _). done.
Qed.

(** ** The handler *)

(** What every delivery of an event about [t] finds: its own transaction, an observed envelope that
    names the target, and a cause that is of this target and not before the assignment *)
Record delivered (v : InvalidationInputs) (e : OutboxEventEnvelope) (t : AssignmentInvalidationTarget)
    (cause : AuthorityInvalidationFacts) (assigned_at : instant) : Prop := {
  dl_root : vi_in_transaction v = true ∧ vi_in_nested_transaction v = false;
  dl_target : _target v e = Some t;
  dl_observed : vi_observe v e = true;
  dl_cause : vi_causes v (it_authority_invalidation_event_id t) = Some cause;
  dl_matches : cause_matches t cause = true;
  dl_order : assigned_at ≤ vf_recorded_at cause;
}.

(** The facts a release asks its authority about *)
Definition release_facts (e : OutboxEventEnvelope) (t : WorkstreamTask) (target : AssignmentInvalidationTarget)
    (cause : AuthorityInvalidationFacts) (d1 d2 d3 : str) : AssignmentInvalidationAuthorityFacts :=
  {| if_target := target; if_cause_event_id := vf_cause_event_id cause;
     if_delivery_event_id := cl_event_id (en_claim e);
     if_delivery_generation := cl_claim_generation (en_claim e); if_cause_digest := d1;
     if_invocation_digest := d2; if_task_status := wt_status t; if_locked_context_hash := d3 |}.

(** What the first delivery needs besides: the digests of the evidence exist, the authority permits
    the release and returns the digest of the facts it decided on, the fence is of this claim, and
    the tables take the rows *)
Record permitted (v : InvalidationInputs) (e : OutboxEventEnvelope) (t : WorkstreamTask)
    (target : AssignmentInvalidationTarget) (cause : AuthorityInvalidationFacts) (at_ : instant) : Prop := {
  pm_authority : ∃ d1 d2 d3 au, canonical_json_hash (cause_json v cause) = Some d1 ∧
    canonical_json_hash (envelope_json v e) = Some d2 ∧ canonical_json_hash (locked_context_json t) = Some d3 ∧
    let f := release_facts e t target cause d1 d2 d3 in
    vi_authorize v f = Ok au ∧ assignment_invalidation_resource_digest f = Some (ia_resource_context_digest au);
  pm_fence : vi_fence v e = Some (en_claim e, at_);
  pm_audit x : vi_audit v x = true;
  pm_admits x y : vi_admits v x y = true;
}.

#[local] Opaque locked_context_json canonical_json_hash lineage_of _missing_locked_context_fields.

Lemma put_assignment_closed ad a db :
  an_status a ≠ AS_active → uuid7_shape (an_id a) = true → (∀ x y, ad x y = true) →
  put_assignment ad a db = Ok (set_assignments (<[an_id a := a]> (tb_assignments db)) db).
Proof.
  intros Ha Hu Had. unfold put_assignment. rewrite Hu, Had. unfold one_active, active.
  by rewrite (bool_decide_eq_false_2 (an_status a = AS_active)).
Qed.

Lemma put_task_checked ad t db :
  task_checks t = true → (∀ x y, ad x y = true) → put_task ad t db = Ok (set_tasks (<[wt_id t := t]> (tb_tasks db)) db).
Proof. intros Hc Had. unfold put_task. by rewrite Hc, Had. Qed.

Lemma reopened_checks now t :
  wt_status t = TS_in_progress → task_checks (reopened_task now t) = task_checks t.
Proof. intros H. unfold task_checks. cbn. by rewrite H. Qed.

(** Evidence of a release that is stored with its assignment still active contradicts the invariant *)
Lemma no_release v db k a event :
  evidence db → tb_assignments db !! k = Some a → an_id a = k → an_status a = AS_active →
  read_release v (target_of event a) db = Ok None.
Proof.
  intros E Hk Hid Ha. unfold read_release. destruct (List.find _ _) as [x|] eqn:F; [exfalso|done].
  apply find_some in F as [Hx%list_elem_of_In [Hi%Z.eqb_eq _]%andb_prop]. cbn in Hi.
  destruct (ev_released _ E _ Hx) as (b & Hb & Hs). rewrite Hi, Hid, Hk in Hb. congruence.
Qed.

(** The stage of a permitted release *)
Lemma stage_release_Ok v e t a f au target cause at_ db :
  permitted v e t target cause at_ → vi_authorize v f = Ok au →
  assignment_invalidation_resource_digest f = Some (ia_resource_context_digest au) → an_status a = AS_active →
  uuid7_shape (an_id a) = true → wt_status t = TS_in_progress → task_checks t = true →
  stage_release v e t a f db
  = Ok (HO_ACKNOWLEDGE, write_rows (reopened_task (vi_updated_at v) t) (revoked_assignment v at_ a)
                                (add_release {| ie_facts := f; ie_authority := au |} db)).
Proof.
  intros P Hau Hd Ha Hu Ht Hc.
  assert (digest_pattern (ia_resource_context_digest au) = true) as Hp by by eapply canonical_json_hash_pattern.
  unfold stage_release, record_release. rewrite Hau. run. rewrite Hp. run. rewrite (pm_fence _ _ _ _ _ _ P). run.
  rewrite (bool_decide_true (en_claim e = en_claim e)) by done. run. cbn [ie_facts ie_authority].
  rewrite bool_decide_true by done. run.
  rewrite (pm_audit _ _ _ _ _ _ P). run.
  rewrite put_assignment_closed; [|done|done|apply P]. run.
  rewrite put_task_checked; [|by rewrite reopened_checks|apply P]. reflexivity.
Qed.

(** Up to the evidence of an earlier release, every delivery does the same *)
Lemma reconcile_delivered v e target cause a t db :
  delivered v e target cause (an_assigned_at a) → lock_project_task (it_project_id target) (it_task_id target) db = Some t →
  lock_invalidation_assignment target db = Some a →
  reconcile v e db
  = (prior ← read_release v target db;
     match prior with
     | Some p =>
         _ ← ensure (bool_decide (if_target (ie_facts p) = target)
                     && bool_decide (an_status a = AS_authority_revoked)
                     && some (an_released_at a)) AssignmentInvalidationUnavailable;
         Ok (HO_ACKNOWLEDGE, db)
     | None =>
         if negb (bool_decide (wt_status t = TS_in_progress)) || has_submission (it_task_id target) db
         then Ok (HO_ACKNOWLEDGE, db)
         else if negb (active a) || some (an_released_at a)
                 || negb (bool_decide (wt_assigned_to t = Some (it_contributor_id target)))
                 || negb (bool_decide (pl_contribution_policy_version_id (wt_locks t)
                                       = Some (an_submitter_contribution_policy_version_id a)))
         then Ok (HO_REJECT, db)
         else
           cause_digest ← digest_of (cause_json v cause);
           invocation_digest ← digest_of (envelope_json v e);
           context ← digest_of (locked_context_json t);
           stage_release v e t a
             {| if_target := target; if_cause_event_id := vf_cause_event_id cause;
                if_delivery_event_id := cl_event_id (en_claim e);
                if_delivery_generation := cl_claim_generation (en_claim e);
                if_cause_digest := cause_digest; if_invocation_digest := invocation_digest;
                if_task_status := wt_status t; if_locked_context_hash := context |} db
     end).
Proof.
  intros [[Hr1 Hr2] Ht Ho Hc Hm Hor] Hlt Hla. unfold reconcile. rewrite Hr1, Hr2. run.
  by rewrite Ht, Ho, Hc, Hm, Hlt, Hla, (proj2 (Z.ltb_ge _ _) Hor).
Qed.

(** The evidence of a release is found again *)
Lemma release_found v x db :
  (∀ y, y ∈ tb_releases db → it_assignment_id (if_target (ie_facts y)) ≠ it_assignment_id (if_target (ie_facts x))) →
  vi_receipt_ok v x = true →
  read_release v (if_target (ie_facts x)) (add_release x db) = Ok (Some x).
Proof.
  intros Hn Hok. unfold read_release. cbn [add_release tb_releases].
  assert (∀ l, (∀ y, y ∈ l → it_assignment_id (if_target (ie_facts y)) ≠ it_assignment_id (if_target (ie_facts x))) →
    List.find (λ e, let z := if_target (ie_facts e) in
                    (it_assignment_id z =? it_assignment_id (if_target (ie_facts x)))
                    && (it_authority_invalidation_event_id z =? it_authority_invalidation_event_id (if_target (ie_facts x))))
      (l ++ [x]) = Some x) as ->.
  - clear. induction l as [|y l IH]; intros H; cbn [List.find app].
    + by rewrite !Z.eqb_refl.
    + rewrite (proj2 (Z.eqb_neq _ _) (H y ltac:(left))). cbn [andb]. apply IH. intros z Hz. apply H. by right.
  - by rewrite bool_decide_true, Hok.
  - done.
Qed.

(** ** What later steps keep of a released assignment *)

(** Closed assignments are never written again, tasks stay in their projects, and the evidence of
    releases only grows. *)
Record keeps (db db' : TaskDb) : Prop := {
  kp_closed k a : tb_assignments db !! k = Some a → an_status a ≠ AS_active → tb_assignments db' !! k = Some a;
  kp_tasks k t : tb_tasks db !! k = Some t → ∃ u, tb_tasks db' !! k = Some u ∧ wt_project_id u = wt_project_id t;
  kp_releases : tb_releases db `prefix_of` tb_releases db';
}.

#[export] Instance keeps_preorder : PreOrder keeps.
Proof.
  split.
  - intros db. split; [done| |done]. intros k t Ht. by exists t.
  - intros x y z [A1 A2 A3] [B1 B2 B3]. split; [eauto| |by etrans].
    intros k t (u & (w & Hw & Ew)%B2 & Eu)%A2. exists w. split; [done|congruence].
Qed.

(** A write of one task, of the same project, and of one assignment that was active *)
Lemma keeps_rows db db' t t0 a a0 :
  tb_tasks db !! wt_id t = Some t0 → wt_project_id t = wt_project_id t0 →
  tb_assignments db !! an_id a = Some a0 → an_status a0 = AS_active →
  tb_tasks db' = <[wt_id t := t]> (tb_tasks db) → tb_assignments db' = <[an_id a := a]> (tb_assignments db) →
  tb_releases db `prefix_of` tb_releases db' → keeps db db'.
Proof.
  intros Ht Ep Ha Hact Et Ea Hr. split; [| |done].
  - intros k b Hb Hs. rewrite Ea, lookup_insert_ne; [done|]. intros <-. congruence.
  - intros k u Hu. rewrite Et. destruct (decide (wt_id t = k)) as [<-|Hne].
    + exists t. rewrite lookup_insert_eq. split; [done|congruence].
    + exists u. by rewrite lookup_insert_ne.
Qed.

(** and of a task alone *)
Lemma keeps_task db db' t t0 :
  tb_tasks db !! wt_id t = Some t0 → wt_project_id t = wt_project_id t0 →
  tb_tasks db' = <[wt_id t := t]> (tb_tasks db) → tb_assignments db' = tb_assignments db →
  tb_releases db' = tb_releases db → keeps db db'.
Proof.
  intros Ht Ep Et Ea Hr. split; [by rewrite Ea| |by rewrite Hr].
  intros k u Hu. rewrite Et. destruct (decide (wt_id t = k)) as [<-|Hne].
  - exists t. rewrite lookup_insert_eq. split; [done|congruence].
  - exists u. by rewrite lookup_insert_ne.
Qed.

Lemma downstream_keeps db db' : downstream db db' → keeps db db'.
Proof.
  intros D. destruct D as [? t ? ? []|? t ? ? ? []|? t a ? ? ? []|? t a ? []|? t a ? ? ? ? []];
    [eapply (keeps_task _ _ (with_state t _ _ _ _ _) t)|eapply (keeps_task _ _ (with_state t _ _ _ _ _) t)
    |eapply (keeps_rows _ _ (reopened_task _ t) t (with_outcome a _ _ _ _) a)
    |eapply (keeps_rows _ _ (with_state t _ _ _ _ _) t (with_outcome a _ _ _ _) a)
    |eapply (keeps_rows _ _ (with_state t _ _ _ _ _) t (with_outcome a _ _ _ _) a)];
    cbn; try eassumption; reflexivity.
Qed.

Lemma writes_keeps i c key db resp db' :
  custody (tb_tasks db) (tb_assignments db) → writes i c key db resp db' → keeps db db'.
Proof.
  intros C [_ _ (digest & t & oa & af & f & Hw)]. cbn zeta in Hw.
  destruct Hw as (_ & _ & Hc & _ & _ & _ & _ & _ & _ & _ & _ & _ & ->).
  assert (tb_tasks db !! wt_id t = None ∨ ∃ t0, tb_tasks db !! wt_id t = Some t0 ∧ wt_project_id t = wt_project_id t0) as Ht.
  { destruct c; cbn in Hc.
    - left. by destruct Hc as (-> & _ & ?).
    - right. destruct Hc as (_ & t0 & ? & s & H0 & _ & _ & _ & -> & _). exists t0. cbn. by rewrite (cu_task_id _ _ C _ _ H0).
    - right. destruct Hc as (_ & t0 & H0 & _ & _ & _ & -> & _). exists t0. cbn. by rewrite (cu_task_id _ _ C _ _ H0).
    - right. destruct Hc as (t0 & v & H0 & _ & _ & _ & _ & _ & _ & _ & -> & _). exists t0. cbn. by rewrite (cu_task_id _ _ C _ _ H0). }
  split; cbn; [| |done].
  - intros k a Ha Hs. destruct oa as [b|]; [|done]. rewrite lookup_insert_ne; [done|].
    destruct c; cbn in Hc; [by destruct Hc as (_ & ? & _)|by destruct Hc as [? _]..|].
    destruct Hc as (t0 & v & _ & _ & _ & _ & _ & _ & Hna & _ & _ & [= ->]). cbn. congruence.
  - intros k u Hu. destruct (decide (wt_id t = k)) as [<-|Hne].
    + exists t. rewrite lookup_insert_eq. split; [done|]. destruct Ht as [?|(t0 & ? & ?)]; congruence.
    + exists u. by rewrite lookup_insert_ne.
Qed.

Lemma step_keeps db db' : tasks_ok db → task_step db db' → keeps db db'.
Proof.
  intros O S. destruct S as [i c key db r db' H|i e db o db' H|db db' D]; destruct O as [C E].
  - apply command_Ok in H as [[-> _]|W]; [done|by eapply writes_keeps|apply E|apply C].
  - apply reconcile_Ok in H as [->|(t & a & g & ev & at_ & _ & _ & Ht & _ & Ha & _ & _ & _ & _ & _ & Hact & _ & ->)]; [done|].
    apply (keeps_rows _ _ (reopened_task (vi_updated_at i) t) t (revoked_assignment i at_ a) a); cbn; try done.
    + by rewrite (cu_task_id _ _ C _ _ Ht).
    + by rewrite (cu_assignment_id _ _ C _ _ Ha).
    + by eexists.
  - by apply downstream_keeps.
Qed.

Lemma run_keeps db db' : tasks_ok db → rtc task_step db db' → keeps db db'.
Proof.
  intros O R. induction R as [|x y z S _ IH]; [done|]. etrans; [by apply step_keeps|].
  apply IH. by eapply task_step_ok.
Qed.

(** Evidence that is found stays found. *)
Lemma release_kept v target x db db' :
  keeps db db' → read_release v target db = Ok (Some x) → read_release v target db' = Ok (Some x).
Proof.
  intros [_ _ [l Hl]] H. unfold read_release in *. rewrite Hl.
  destruct (List.find _ (tb_releases db)) as [y|] eqn:F; [|done].
  apply ensure_bind_Ok in H as [Hok [= ->]].
  assert (∀ p (k : list AssignmentInvalidationEvidence), List.find p k = Some x → List.find p (k ++ l) = Some x) as Hf.
  { intros p k. induction k as [|z k IH]; [done|]. cbn. by destruct (p z). }
  by rewrite (Hf _ _ F), Hok.
Qed.

(** A released assignment is acknowledged in every later state. *)
Lemma released_stays v e target cause x t a db db' :
  keeps db db' → tb_tasks db !! it_task_id target = Some t → wt_project_id t = it_project_id target →
  lock_invalidation_assignment target db = Some a → an_status a = AS_authority_revoked → some (an_released_at a) = true →
  read_release v target db = Ok (Some x) → if_target (ie_facts x) = target →
  delivered v e target cause (an_assigned_at a) → reconcile v e db' = Ok (HO_ACKNOWLEDGE, db').
Proof.
  intros K Ht Hp Hla Hs Hr Hx Hxt D. destruct (kp_tasks _ _ K _ _ Ht) as (u & Hu & Eu).
  assert (lock_project_task (it_project_id target) (it_task_id target) db' = Some u) as Hlt.
  { unfold lock_project_task. rewrite Hu. cbn. by rewrite Eu, Hp, Z.eqb_refl. }
  assert (lock_invalidation_assignment target db' = Some a) as Hla'.
  { unfold lock_invalidation_assignment in *. destruct (tb_assignments db !! _) as [b|] eqn:Hb; [|done]. cbn in Hla.
    destruct (_ && _) eqn:Eb in Hla; [|done]. apply Some_inj in Hla as ->.
    rewrite (kp_closed _ _ K _ _ Hb) by congruence. cbn. by rewrite Eb. }
  rewrite (reconcile_delivered _ _ _ _ _ _ _ D Hlt Hla'), (release_kept v target x db db' K Hx). run.
  by rewrite !bool_decide_true, Hr.
Qed.

(** C13.  The handler of a revocation releases the assignment, once.  When the event of an
    assignment that is still held without a submission is delivered, the assignment is closed as
    revoked at the time of the fence, its task is ready for others again, nothing else changes but
    the evidence of the release, and the event is acknowledged.  This is under the conditions of
    [delivered] and [permitted]: the handler runs in its own root transaction, the envelope is
    observed and its cause is of this target and not before the assignment; the digests of the
    evidence exist, the authority permits the release and returns the digest of the facts it
    decided on, the delivery fence is of this claim, the two rows satisfy the CHECK constraints of
    their tables, and the audit and the tables take the new rows.  In every later state, whatever commands, revocations and downstream writers did in
    between (the task claimed by others included), any later delivery about the same assignment and
    revocation is acknowledged and changes nothing, if it again runs in its own root transaction
    with an observed envelope and a matching cause and the audit record of the release still agrees
    with its evidence. *)
Theorem revocation_releases db f a k t v e cause at_ :
  reachable_tasks db → tb_assignments db !! k = Some a → invalidation_target (page_request f None) db a = true →
  tb_tasks db !! an_task_id a = Some t → task_checks t = true → uuid7_shape k = true →
  let target := target_of (ap_invalidation_event_id f) a in
  delivered v e target cause (an_assigned_at a) → permitted v e t target cause at_ →
  ∃ x, let db' := write_rows (reopened_task (vi_updated_at v) t) (revoked_assignment v at_ a) (add_release x db) in
    if_target (ie_facts x) = target ∧ reconcile v e db = Ok (HO_ACKNOWLEDGE, db') ∧
    ∀ db'' v' e' cause', rtc task_step db' db'' → delivered v' e' target cause' (an_assigned_at a) →
      vi_receipt_ok v' x = true → reconcile v' e' db'' = Ok (HO_ACKNOWLEDGE, db'').
Proof.
  intros R Hk Hi Ht Hck Hu target D P. pose proof (reachable_tasks_ok _ R) as O. destruct O as [C E].
  pose proof (cu_assignment_id _ _ C _ _ Hk) as Hid. subst k. pose proof (cu_task_id _ _ C _ _ Ht) as Htid.
  unfold invalidation_target in Hi. rewrite Ht in Hi. unfold active, has_submission in Hi.
  rewrite !andb_true_iff, negb_true_iff, !Z.eqb_eq, !bool_decide_eq_true in Hi.
  destruct Hi as (((((((((Hp & Hcon) & Hact) & Hrel) & _) & Hst) & Hto) & Hpol) & Hsub) & _).
  destruct (pm_authority _ _ _ _ _ _ P) as (d1 & d2 & d3 & au & Hd1 & Hd2 & Hd3 & Hau & Hdg).
  set (fx := release_facts e t target cause d1 d2 d3) in *.
  pose proof (stage_release_Ok v e t a fx au target cause at_ db P Hau Hdg Hact Hu Hst Hck) as Hsr.
  assert (lock_project_task (it_project_id target) (it_task_id target) db = Some t) as Hlt.
  { unfold lock_project_task. cbn. rewrite Ht. cbn. by rewrite Hp, Z.eqb_refl. }
  assert (lock_invalidation_assignment target db = Some a) as Hla.
  { unfold lock_invalidation_assignment. cbn. rewrite Hk. cbn. by rewrite !Z.eqb_refl. }
  set (x := {| ie_facts := fx; ie_authority := au |}) in *. set (db' := write_rows _ _ (add_release x db)) in *.
  assert (reconcile v e db = Ok (HO_ACKNOWLEDGE, db')) as Hfirst.
  { rewrite (reconcile_delivered _ _ _ _ _ _ _ D Hlt Hla).
    pose proof (no_release v db (an_id a) a (ap_invalidation_event_id f) E Hk eq_refl Hact) as Hnr. fold target in Hnr.
    rewrite Hnr. run. unfold active, has_submission.
    replace (it_task_id target) with (wt_id t) by done. rewrite Hact, Hst, Hto, Hpol, Hsub.
    destruct (an_released_at a); [done|]. change (it_contributor_id target) with (an_contributor_id a).
    rewrite !bool_decide_true by done. cbn [some negb orb]. unfold digest_of. rewrite Hd1, Hd2, Hd3. run.
    rewrite <- Hst. exact Hsr. }
  exists x. cbn zeta. split_and!; [reflexivity|exact Hfirst|]. intros db'' v' e' cause' Hsteps D' Hok.
  assert (tasks_ok db') as O' by (eapply task_step_ok; [by split|by eapply st_reconcile]).
  apply (released_stays v' e' target cause' x (reopened_task (vi_updated_at v) t) (revoked_assignment v at_ a) db' db'');
    try done.
  - by apply run_keeps.
  - cbn. by rewrite <- Htid, lookup_insert_eq.
  - unfold lock_invalidation_assignment. cbn. rewrite lookup_insert_eq. cbn. by rewrite !Z.eqb_refl.
  - change (read_release v' target db') with (read_release v' (if_target (ie_facts x)) (add_release x db)).
    apply release_found; [|done]. intros y Hy Heq.
    destruct (ev_released _ E _ Hy) as (b & Hb & Hs). rewrite Heq in Hb. cbn in Hb. congruence.
Qed.
