(* ===== verification/TaskRun.v ===== *)
(** * A run of the task commands

    A task is created, screened, released and claimed; the claim is retried; the contributor loses
    the authority to submit, the revocation is published and its event delivered twice; another
    contributor claims the task.  Every call is evaluated, hashing included. *)

From stdpp Require Import relations sorting.
From S2P Require Import Prelude Text Digest Json Instant OutboxApi OutboxStore OutboxAppend OutboxDelivery Acceptance AcceptanceRun Rows Paging PolicyApi ExportCursor TaskStore TaskCommands TaskInvalidation TaskEffects TaskSystem TaskGuarantees TaskRevocation.

(** ** Ports *)

Definition tr_selection (n : Z) : GuidePolicySelection :=
  {| gs_policy_id := rid n; gs_generation := 1; gs_policy_hash := run_hash |}.

Definition tr_context : ProjectLockedPolicyContextFacts :=
  {| pc_project_id := rid 10; pc_guide_version := lit "v1"; pc_source_snapshot_id := rid 11;
     pc_source_snapshot_hash := run_hash; pc_effective_policy_id := rid 12; pc_effective_policy_hash := run_hash;
     pc_pre_submit_policy_id := rid 13; pc_pre_submit_policy_bundle_hash := run_hash;
     pc_contribution_policy_version_id := rid 14; pc_target_policy_id := rid 15;
     pc_target_policy_hash := run_hash; pc_review := tr_selection 16; pc_revision := tr_selection 17;
     pc_compiled_post_submit_policy := dumps (JObj [kv "checks" (JArr [JStr (lit "lint")])]);
     pc_external_checker_policies := lit "{}" |}.

Definition tr_policy : LockedExternalPostSubmitPolicy :=
  {| xp_schema_version := lit "1"; xp_capability_ids := []; xp_policy_sha256 := run_hash; xp_entries := [] |}.

Definition tr_decision : TaskAuthorityDecision :=
  {| ad_decision_id := rid 20; ad_identity_link_id := rid 21; ad_resource_context_digest := run_hash;
     ad_resource_context_json := [] |}.

(** The inputs of a call by [actor] with the identities from [n] on *)
Definition tr_inputs (actor n : Z) : TaskInputs :=
  {| ti_actor_id := rid actor; ti_authorize _ := Ok tr_decision; ti_audit _ := true;
     ti_projects := {| pj_display p := Some p; pj_active _ := Some tr_context; pj_locked _ := Some tr_context |};
     ti_checkers := {| ck_policies _ := Some tr_policy; ck_post _ := Some tr_policy; ck_stored _ := Some tr_policy |};
     ti_admits _ _ := true; ti_receipt_id := rid n; ti_task_id := rid (n + 1); ti_assignment_id := rid (n + 2);
     ti_created_at := n; ti_updated_at := n; ti_assigned_at := n; ti_accepted_at := n; ti_committed_at := n;
     ti_deadline_text _ := [] |}.

Definition tr_payload : TaskCreate :=
  {| tc_title := lit "Label"; tc_description := lit "Label the images"; tc_task_type := None;
     tc_difficulty := None; tc_skill_tags := []; tc_estimated_time_minutes := Some 30;
     tc_source_type := lit "manual"; tc_source_ref := None; tc_source_payload_hash := None;
     tc_import_batch_id := None; tc_external_task_id := None; tc_acceptance_criteria := None;
     tc_rejection_criteria := None; tc_deadline_at := None |}.

Definition tr_create := Create (rid 10) tr_payload.
Definition tr_task : uuid := rid 101.
Definition tr_screen := Screen tr_task None.
Definition tr_release := Release tr_task (Some (lit "checked")).
Definition tr_claim := Claim tr_task None.

(** ** The commands *)

Definition no_answer : StoredResponse :=
  RTask (task_response_for_authority (draft_task (tr_inputs 1 100) tr_task (rid 10) tr_payload) true).
Definition answer (r : result TaskExn (StoredResponse * TaskDb)) : StoredResponse :=
  match r with Ok (x, _) => x | Raise _ => no_answer end.

Definition tr1 : TaskDb := Eval vm_compute in state_of (run_command (tr_inputs 1 100) tr_create 900 empty_tasks) empty_tasks.
Definition tr2 : TaskDb := Eval vm_compute in state_of (run_command (tr_inputs 1 110) tr_screen 900 tr1) tr1.
Definition tr3 : TaskDb := Eval vm_compute in state_of (run_command (tr_inputs 1 120) tr_release 900 tr2) tr2.
Definition tr4 : TaskDb := Eval vm_compute in state_of (run_command (tr_inputs 2 130) tr_claim 900 tr3) tr3.
(** A second task, created in between *)
Definition tr5 : TaskDb := Eval vm_compute in state_of (run_command (tr_inputs 1 140) tr_create 901 tr4) tr4.

Definition claimed_answer : StoredResponse := Eval vm_compute in answer (run_command (tr_inputs 2 130) tr_claim 900 tr3).

(** A claim of a task that is taken is denied; a key is not used for two requests; a screening that
    was overtaken by the release is not replayed *)
Example commands_run :
  map wt_status (rows (tb_tasks tr4)) = [TS_in_progress] ∧
  map an_contributor_id (rows (tb_assignments tr4)) = [rid 2] ∧ size (tb_receipts tr4) = 4%nat ∧
  map tf_operation (tb_audit tr4) = [OP_CREATE; OP_SCREEN; OP_RELEASE; OP_CLAIM] ∧
  run_command (tr_inputs 3 150) tr_claim 900 tr4 = Raise TaskAuthorityDenied ∧
  run_command (tr_inputs 2 150) (Claim tr_task (Some (lit "again"))) 900 tr4 = Raise mismatch ∧
  run_command (tr_inputs 1 150) tr_screen 900 tr3 = Raise state_changed.
Proof. vm_compute. done. Qed.

Lemma tr1_Ok : run_command (tr_inputs 1 100) tr_create 900 empty_tasks
  = Ok (answer (run_command (tr_inputs 1 100) tr_create 900 empty_tasks), tr1).
Proof. vm_compute. reflexivity. Qed.
Lemma tr2_Ok : run_command (tr_inputs 1 110) tr_screen 900 tr1 = Ok (answer (run_command (tr_inputs 1 110) tr_screen 900 tr1), tr2).
Proof. vm_compute. reflexivity. Qed.
Lemma tr3_Ok : run_command (tr_inputs 1 120) tr_release 900 tr2 = Ok (answer (run_command (tr_inputs 1 120) tr_release 900 tr2), tr3).
Proof. vm_compute. reflexivity. Qed.
Lemma tr4_Ok : run_command (tr_inputs 2 130) tr_claim 900 tr3 = Ok (claimed_answer, tr4).
Proof. vm_compute. reflexivity. Qed.
Lemma tr5_Ok : run_command (tr_inputs 1 140) tr_create 901 tr4 = Ok (answer (run_command (tr_inputs 1 140) tr_create 901 tr4), tr5).
Proof. vm_compute. reflexivity. Qed.

Lemma tr3_reachable : reachable_tasks tr3.
Proof.
  eapply rtc_l; [exact (st_command _ _ _ _ _ _ tr1_Ok)|]. eapply rtc_l; [exact (st_command _ _ _ _ _ _ tr2_Ok)|].
  apply rtc_once. exact (st_command _ _ _ _ _ _ tr3_Ok).
Qed.

Lemma tr4_reachable : reachable_tasks tr4.
Proof. eapply rtc_r; [exact tr3_reachable|exact (st_command _ _ _ _ _ _ tr4_Ok)]. Qed.

Lemma tr_retries : retries (tr_inputs 2 130) (tr_inputs 2 150) tr_claim.
Proof. split; try reflexivity; try exact I. intros f _. by exists tr_decision. Qed.

Lemma task_command_replay_witness : run_command (tr_inputs 2 150) tr_claim 900 tr4 = Ok (claimed_answer, tr4).
Proof.
  apply (task_command_replay tr3 (tr_inputs 2 130) tr_claim 900 claimed_answer tr4 (tr_inputs 2 150)).
  - exact tr3_reachable.
  - vm_compute. reflexivity.
  - exact tr4_Ok.
  - exact tr_retries.
Defined.

Lemma task_command_once_witness :
  state_of (run_command (tr_inputs 2 150) tr_claim 900 tr5) empty_tasks = tr5 ∧
  answer (run_command (tr_inputs 2 150) tr_claim 900 tr5) = claimed_answer.
Proof.
  assert (run_command (tr_inputs 2 150) tr_claim 900 tr5
          = Ok (answer (run_command (tr_inputs 2 150) tr_claim 900 tr5),
                state_of (run_command (tr_inputs 2 150) tr_claim 900 tr5) empty_tasks)) as H
    by (vm_compute; reflexivity).
  destruct (task_command_once tr3 (tr_inputs 2 130) tr_claim 900 claimed_answer tr4 tr5 (tr_inputs 2 150) tr_claim _ _
    tr3_reachable tr4_Ok (rtc_once _ _ (st_command _ _ _ _ _ _ tr5_Ok)) eq_refl eq_refl H) as (H1 & H2 & _).
  split; [exact H1|exact H2].
Defined.

Lemma task_custody_witness :
  ∃ t l a, tb_tasks tr4 !! tr_task = Some t ∧ tb_assignments tr4 !! l = Some a ∧ holds t a.
Proof.
  destruct (task_custody tr4 tr4_reachable) as [H _].
  assert (∃ t, tb_tasks tr4 !! tr_task = Some t ∧ working (wt_status t) = true) as (t & Ht & Hw)
    by (eexists; split; vm_compute; reflexivity).
  destruct (H _ _ Ht) as [_ Hc]. rewrite Hw in Hc. destruct Hc as (l & a & Ha & Hh & _). by exists t, l, a.
Defined.

(** ** The revocation *)

Definition tr_publication : AuthorityInvalidationPublication :=
  {| ap_invalidation_event_id := rid 40; ap_contributor_id := rid 2; ap_project_id := None;
     ap_correlation_id := lit "revoke-1"; ap_invalidated_at := 500 |}.

Definition tr_publish : PublishInputs :=
  {| pu_fold_wide c := [c]; pu_project_exists _ := true; pu_now := sample_now; pu_event_id a := a + 1000 |}.

Definition tr_events : Db := Eval vm_compute in
  match publish tr_publish tr_publication tr4 empty_db with Some (Ok o) => o | _ => empty_db end.
Definition tr_event : option OutboxEvent := Eval vm_compute in db_events tr_events !! rid 1132.

Definition tr_cause : AuthorityInvalidationFacts :=
  {| vf_invalidation_event_id := rid 40; vf_cause_event_id := rid 41; vf_recorded_at := 500;
     vf_contributor_id := rid 2; vf_cause := ACTOR_SUSPENDED; vf_target_id := rid 42; vf_project_id := None |}.

Definition tr_outbox_claim : OutboxClaim :=
  {| cl_event_id := rid 1132; cl_project_id := rid 10; cl_payload_digest := run_hash; cl_claim_generation := 1;
     cl_claim_owner := lit "worker-1"; cl_claimed_at := 600; cl_claim_expires_at := 60000600 |}.

Definition tr_envelope : OutboxEventEnvelope :=
  envelope_of (default sample_event tr_event) tr_outbox_claim.

(** The authority returns the digest of the facts it decided on *)
Definition tr_authority (f : AssignmentInvalidationAuthorityFacts) : result TaskExn AssignmentInvalidationAuthority :=
  match assignment_invalidation_resource_digest f with
  | Some d => Ok {| ia_actor_profile_id := rid 50; ia_decision_id := rid 51; ia_resource_context_digest := d |}
  | None => Raise AssignmentInvalidationUnavailable
  end.

Definition tr_handler : InvalidationInputs :=
  {| vi_in_transaction := true; vi_in_nested_transaction := false; vi_uuid := exact_uuid;
     vi_time := dec_nonneg; vi_observe _ := true; vi_causes _ := Some tr_cause;
     vi_receipt_ok _ := true; vi_authorize := tr_authority; vi_fence e := Some (en_claim e, 700);
     vi_audit _ := true; vi_admits _ _ := true; vi_updated_at := 700 |}.

Definition tr6 : TaskDb := Eval vm_compute in
  match reconcile tr_handler tr_envelope tr4 with Ok (_, db) => db | Raise _ => tr4 end.
Definition tr7 : TaskDb := Eval vm_compute in state_of (run_command (tr_inputs 3 160) tr_claim 900 tr6) tr6.

Example revocation_run :
  size (db_events tr_events) = 1%nat ∧
  map wt_status (rows (tb_tasks tr6)) = [TS_ready] ∧ map wt_assigned_to (rows (tb_tasks tr6)) = [None] ∧
  map (λ a, (an_status a, an_released_at a)) (rows (tb_assignments tr6)) = [(AS_authority_revoked, Some 700)] ∧
  reconcile tr_handler tr_envelope tr6 = Ok (HO_ACKNOWLEDGE, tr6) ∧
  map wt_assigned_to (rows (tb_tasks tr7)) = [Some (rid 3)].
Proof. vm_compute. done. Qed.

Lemma tr6_Ok : reconcile tr_handler tr_envelope tr4 = Ok (HO_ACKNOWLEDGE, tr6).
Proof. vm_compute. reflexivity. Qed.
Lemma tr7_Ok : claim (tr_inputs 3 160) tr_task None 900 tr6
  = Ok (answer (run_command (tr_inputs 3 160) tr_claim 900 tr6), tr7).
Proof. vm_compute. reflexivity. Qed.

Lemma claims_alternate_witness :
  ∃ a, tb_assignments tr6 !! rid 132 = Some a ∧ an_contributor_id a = rid 2 ∧ is_Some (an_released_at a).
Proof.
  destruct (claims_alternate tr3 (tr_inputs 2 130) (tr_inputs 3 160) tr_task None None 900 900 claimed_answer
    (answer (run_command (tr_inputs 3 160) tr_claim 900 tr6)) tr4 tr6 tr7) as (_ & a & H1 & _ & H2 & _ & _ & H3).
  - exact tr3_reachable.
  - vm_compute. reflexivity.
  - exact tr4_Ok.
  - apply rtc_once. exact (st_reconcile _ _ _ _ _ tr6_Ok).
  - vm_compute. reflexivity.
  - exact tr7_Ok.
  - exists a. split; [exact H1|split; [exact H2|exact H3]].
Defined.

(** The assignment of the run *)
Definition tr_assignment : TaskAssignment :=
  Eval vm_compute in started (tr_inputs 2 130) (new_assignment (tr_inputs 2 130) (draft_task (tr_inputs 1 100) tr_task (rid 10) tr_payload) (rid 14)).

Lemma tr_assignment_held :
  tb_assignments tr4 !! rid 132 = Some tr_assignment ∧
  invalidation_target (page_request tr_publication None) tr4 tr_assignment = true.
Proof. vm_compute. done. Qed.

Lemma tr_uuids u : u ∈ target_ids (target_of (rid 40) tr_assignment) → vi_uuid tr_handler (uuid_text u) = Some u.
Proof.
  unfold target_ids. rewrite !elem_of_cons. intros [->|[->|[->|[->|[->|H]]]]]; [vm_compute; reflexivity..|].
  by apply elem_of_nil in H.
Qed.

Lemma revocation_published_witness :
  ∃ id e, db_events tr_events !! id = Some e ∧
    (claim_valid tr_outbox_claim = true → cl_project_id tr_outbox_claim = ev_project_id e →
     _target tr_handler (envelope_of e tr_outbox_claim) = Some (target_of (rid 40) tr_assignment)).
Proof.
  destruct (revocation_published tr4 tr_publish tr_publication empty_db tr4_reachable empty_keys_ok) as [_ H].
  destruct (H tr_events ltac:(vm_compute; reflexivity)) as [H1 _].
  destruct (H1 (rid 132) tr_assignment tr_handler (proj1 tr_assignment_held) (proj2 tr_assignment_held) tr_uuids)
    as (id & e & He & _ & Hc).
  exists id, e. split; [exact He|]. apply Hc.
Defined.

Definition tr_held_task : WorkstreamTask := Eval vm_compute in
  default (draft_task (tr_inputs 1 100) tr_task (rid 10) tr_payload) (tb_tasks tr4 !! tr_task).

Lemma tr_delivered : delivered tr_handler tr_envelope (target_of (rid 40) tr_assignment) tr_cause (an_assigned_at tr_assignment).
Proof. split; vm_compute; done. Qed.

Lemma tr_permitted :
  permitted tr_handler tr_envelope tr_held_task (target_of (rid 40) tr_assignment) tr_cause 700.
Proof.
  split; [|reflexivity..]. eexists _, _, _, _. split_and!; [vm_compute; reflexivity..|].
  cbn zeta. split; vm_compute; reflexivity.
Qed.

(** The release, and the event delivered again after someone else claimed the task *)
Lemma revocation_releases_witness : reconcile tr_handler tr_envelope tr4 = Ok (HO_ACKNOWLEDGE, tr6) ∧
  reconcile tr_handler tr_envelope tr7 = Ok (HO_ACKNOWLEDGE, tr7).
Proof.
  destruct (revocation_releases tr4 tr_publication tr_assignment (rid 132) tr_held_task tr_handler tr_envelope tr_cause 700)
    as (x & _ & H1 & H2).
  - exact tr4_reachable.
  - exact (proj1 tr_assignment_held).
  - exact (proj2 tr_assignment_held).
  - vm_compute. reflexivity.
  - vm_compute. reflexivity.
  - vm_compute. reflexivity.
  - exact tr_delivered.
  - exact tr_permitted.
  - split; [exact tr6_Ok|]. apply (H2 tr7 tr_handler tr_envelope tr_cause); [|exact tr_delivered|reflexivity].
    pose proof tr6_Ok as H6. rewrite H1 in H6. apply Ok_inj in H6. apply (f_equal snd) in H6. cbn [snd] in H6.
    rewrite H6. apply rtc_once, (st_command _ tr_claim _ _ _ _ tr7_Ok).
Defined.
